(* ===== verification/_CoqProject ===== *)
-Q . S2P
Prelude.v
Seq.v
Packet.v
Control.v
Cif.v
Clock.v
Tsbpd.v
Ring.v
SendBuffer.v
RecvBuffer.v
Fifo.v
Output.v
PayloadPool.v
Delivery.v
FilterConfig.v
Fec.v
FecReceiver.v
Crypto.v
Float64.v
Congestion.v
Pacing.v
Handshake.v
ConnState.v
KeyRotation.v
ConnSend.v
ConnRecv.v
Establish.v
CoreHandshake.v
Rendezvous.v
ConnCore.v
Sender.v
ConnSafe.v
StreamSend.v
StreamRecv.v
StreamEnd.v
Stream.v
Listener.v
Agreement.v
StreamDial.v
Accepting.v
Meeting.v
Group.v
GroupMerge.v
DeliveryQueue.v
Session.v
SessionSafe.v
SessionDrain.v
CoreStats.v
SessionDial.v
GroupHost.v
SrtGroup.v
SrtBalance.v
SrtConfig.v
SockOpt.v
SrtConn.v
SrtSockOpt.v
SrtStats.v
Mux.v
ListenerHost.v
SrtListener.v
SrtDial.v
SrtServer.v
SrtWatcher.v
