(* ===== verification/Prelude.v ===== *)
(** * srtgo: a verification development

    srtgo implements SRT (Secure Reliable Transport) in Go: a protocol over UDP
    that delivers packets in order and once, recovers losses by retransmission
    and by forward error correction, plays live streams out at a fixed delay,
    and encrypts payloads.  The library is built "sans I/O": [internal/core]
    holds a state machine per connection that is driven by packets, timers and
    writes and answers with packets to send, timers to arm and events; sockets,
    goroutines and real clocks live outside, in [internal/session] and the root
    package.  This development models the core and the packages it stands on, the
    hosts that drive it over a shared socket, and the groups, configuration,
    server and watcher of the root package, shallowly: a Go function is a Rocq function on the state it reads and writes,
    a pointer receiver is a state that goes in and comes out, an error return is a
    [result], a possible panic an [option].

    ** Conventions

    Integers are [Z]; arithmetic at a fixed width is followed by the conversion
    of Prelude ([u8] .. [u64], [i32], [i64]), except where the code cannot reach
    the edge of [int64].  Bytes are lists of [Z] below 256, strings are their
    bytes.  A struct is a [Record] with a settable field per Go field
    ([r <| f := v |>]), an enum an [Inductive], a map a [gmap].  A mutex that a
    method holds for its whole body has no counterpart.  What is not in the
    repository is a parameter: AES, CTR, GCM and PBKDF2 ([Crypto.Primitives] with
    [Crypto.PrimitiveLaws]), math.Pow, math.Log10 and rand.Intn
    ([Float64.GoMath]), the hash of SYN cookies, entropy, the operating system's
    clock, and Go's random order of map iteration ([ConnRecv.RangeOrder]: some
    permutation).  Every class has a concrete instance, with which the witnesses
    evaluate.  Loops that are not structural have fuel: the queue length for the
    send pump, the window length for scans of the receive buffer, the payload
    length for fragments; termination theorems or the exactness of the results
    show that it is enough.

    ** Files

    Foundations:
    - Prelude: integers, bytes, lists, results, record update, tactics.
    - Seq ([internal/seq]): 31-bit circular sequence numbers.
    - Clock ([internal/clock]): microsecond timestamps, recovery of 32-bit wire
      timestamps.
    - Float64: IEEE 754 doubles for the rate computations.

    Wire formats:
    - Packet, Control, Cif ([internal/packet]): header and packet codec with pooled
      buffers, ACK / NAK / DROPREQ / SHUTDOWN, handshake and key material.
    - Handshake ([internal/handshake]): the messages of every handshake.

    Buffers and time:
    - Ring, SendBuffer, RecvBuffer ([internal/buffer]), Tsbpd ([internal/tsbpd]).
    - Fifo, Output ([internal/core]: fifo.go, output.go, timer.go, event.go);
      PayloadPool (payloadpool.go): recycled payloads over a heap of shared arrays.

    Payload protection and rate:
    - FilterConfig, Fec, FecReceiver ([internal/filter]): row and column FEC.
    - Crypto ([internal/crypto]): key wrap, key material, payload encryption.
    - Congestion, Pacing ([internal/congestion]): the live and the file
      controller, the probe and delivery-rate estimators.

    The connection ([internal/core]: conn.go, bandwidth.go, payloadsize.go,
    keyrotation.go, handshake.go, hsv4.go, rendezvous.go, listener.go):
    - ConnState: the [Conn] record with every field; Delivery: playout and
      in-order delivery; ConnSend, ConnRecv: every operation of the two
      directions; KeyRotation; Establish: [establish], where every handshake ends;
      CoreHandshake: the caller, HSv5 and HSv4; Rendezvous; Listener; ConnCore:
      [HandlePacket], [HandleTimer] and the polls, which dispatch to all of them, and
      their checked forms, which are [None] where the code would dereference a nil
      buffer ([ready] is false until [establish] has made the buffers).
    - Sender, ConnSafe, Agreement, Accepting, Meeting: what these promise over
      whole runs and between two ends.
    - StreamSend, StreamRecv, StreamEnd, Stream, StreamDial: two established
      connections over a network that loses, repeats and reorders; the stream a
      sender cuts its writes into, what a receiver hands on of it, one end under
      every input, both ends, and both from the handshake on.
    - Group (group.go): bonded connections, failover and the merge of their
      streams; GroupMerge: what a run of a group delivers.

    The hosts ([internal/mux], [internal/session]: session.go, delivery.go,
    group.go, listener.go):
    - Mux: one socket for many connections; ListenerHost: the loop of a listening
      socket, with the datagrams that arrive between its actions.
    - DeliveryQueue: the bounded queue to the application; Session: the loop that
      drains the core, fires its timers and serves reads and writes; SessionSafe,
      SessionDrain: what holds over its runs; CoreStats: the snapshot of the
      counters; SessionDial: dialling a listener, a rendezvous and a group
      (groupdial.go); GroupHost: the loop of a group; SockOpt (sockopt.go): the
      options of a datagram socket.

    The root package:
    - SrtGroup (group.go): broadcast, backup and balancing groups over an interface
      ([Link]) of the connection's methods; SrtBalance: order across the links of a
      balancing group.
    - SrtConfig (config.go, config_map.go, streamid.go): the configuration, its
      checks and what the core receives of it; stream IDs.
    - SrtConn (conn.go, msgctrl.go): the public connection over a session;
      SrtSockOpt (srtsockopt.go): its options; SrtStats (conn_stats.go): its
      statistics; SrtListener (accept.go): the callbacks that gate a listener;
      SrtDial (dialer.go, rendezvous.go, transport.go, listener.go): the calls that
      open connections and listeners, with the sockets they leave open.
    - SrtServer (server.go), SrtWatcher (watcher.go): goroutines that share a
      state, as interleaved steps.

    ** What is shown

    - Transfer: of two plain connections in stream mode, whatever the network does
      and whichever timers fire, the bytes either application reads are a prefix of
      what the other one wrote; what has not been handed on is still held by the
      sender, whose empty buffers mean that all has arrived; the packet for the next
      place is always taken (Stream); so from the first packet of the handshake
      (StreamDial).  The bound of [2^30] frames a direction is where an old
      acknowledgement would look like a new one.
    - Data: received packets reach the application in order and once, whatever
      arrives, and at their playout time (RecvBuffer, Delivery); the two buffers
      refine queues of packets (the send buffer as long as no operation leaves a
      hole in it: the two that do are shown to overwrite the head); messages are cut
      and put together again (Sender).
    - Flow: the packets in flight carry consecutive numbers and never exceed the flow
      window; the pump sends the queue in order and stops for a reason; a stalled
      tail is retransmitted; loss reports honour the reorder tolerance exactly;
      the RTT estimate stays in bounds; live pacing keeps the configured rate to the
      microsecond.
    - Handshakes: a caller and a listener that run the four messages agree on
      mirrored terms and on keys; the listener accepts an address once and only
      with its cookie and answers a packet with at most one; two rendezvous peers
      take opposite roles and, over a network that loses, duplicates and reorders,
      converge in every reachable state but one kind, in which the single agreement
      was lost and the responder never connects; the code refines that abstract pair.
    - Safety of the state machine: driven by a host that fires only armed timers,
      no packet, write or timer makes a connection dereference a buffer that is not
      there, from every way to create a connection, and before the buffers exist only
      the handshake timer is ever asked for (ConnSafe).
    - Codecs: round trips of packets, CIFs and handshakes, and bounds on what a
      hostile packet can make the decoders allocate or accept.
    - Keys: rotation never leaves the receiver without the key in use and follows
      its period; key material decrypts at the other end; a payload that fails
      authentication is dropped and counted.
    - FEC: a row with one loss is recovered byte for byte; the receiver
      terminates on every input.
    - The host: a session's loop never panics on a missing buffer and its queue keeps
      its bounds; draining carries out every output and event of the core once and in
      order; reads return the bytes of the queue exactly, whatever the buffers; a connection
      that a listener hands out misses none of its packets from the first answer on,
      whatever arrives between the actions of the loop; no handler of a server outlives its shutdown;
      edge-triggered events come once per re-arming.
    - Groups: a merged stream is in order and without duplicates; failover judges the
      links by their progress, activates the standby of greatest weight only when none
      is healthy, and replays the sender's buffer on it; a balancing group refines a
      reorder buffer over unbounded positions and loses nothing while its links stay
      within the buffer of each other and its timer does not fire.
    - Configuration: the checks accept exactly the configurations in the documented
      ranges, which have no upper limit for windows and latencies; an option that is set is read back, leaves the others
      alone and, for the bandwidth, takes effect; a caller that a callback refuses is
      told its code; a dialled group has all its members in one sequence space, each
      handed over with nothing of its handshake lost; a call that opens a connection
      and fails leaves no socket behind; recycled payloads never change under their
      reader.

    Defects that came up are stated as theorems of their own, among them:
    [FecReceiver.fec_reset_phantom], [Crypto.km_reject_changes_salt],
    [KeyRotation.km_crossing_swaps_keys], [ConnRecv.gap_report_overlong],
    [Meeting.rendezvous_lost_agreement], [Pacing.file_loss_ignored],
    [SendBuffer.send_override_overwrites_head], [SendBuffer.send_ttl_overwrites_head],
    [RecvBuffer.recv_gap_zero_hidden], [Group.group_pause_breaks],
    [Group.group_overrun_overwrites], [GroupHost.group_host_reorders],
    [SessionSafe.session_close_drops_paced], [SrtGroup.group_backup_deadlock],
    [SrtGroup.group_read_stalls_at_wrap], [SrtConfig.config_latency_wraps],
    [ListenerHost.listener_addrs_grow], [SrtServer.server_shutdown_misses],
    [SrtWatcher.watcher_event_after_remove], [SrtConn.conn_seq_query_races],
    [SrtSockOpt.option_timeouts_unused], [SrtStats.stats_bytes_unfilled],
    [SessionDial.rendezvous_identity_lost], [SessionDial.groupdial_never_encrypts].

    ** Not modelled

    The operating system and the resolver (their answers are parameters of SockOpt
    and SrtDial), deadlines as instants (a call is given whether its deadline
    passes), the ends of the goroutines, the ticker of OnStats, logging and the
    programs of cmd and examples.  A call that waits for the loop ([onLoop]) is one
    turn that serves it.  Buffer pools: outside Packet, where ownership of a pooled
    buffer is explicit, and PayloadPool, where the arrays are shared, a buffer's
    contents are a value, so reuse after release is outside the model. *)
From Stdlib Require Import ZArith Lia.
From stdpp Require Import base numbers list option.

Declare Scope go_scope.
Delimit Scope go_scope with go.
Global Open Scope Z_scope.

(** ** Machine-width integers

    A Go value of type [uintN] is a [Z] in [0, 2^N); the conversion functions
    below are Go's conversions, and arithmetic at a width is the unbounded
    operation followed by the conversion. *)

Definition u8 (z : Z) : Z := z mod 2 ^ 8.
Definition u16 (z : Z) : Z := z mod 2 ^ 16.
Definition u32 (z : Z) : Z := z mod 2 ^ 32.
Definition u64 (z : Z) : Z := z mod 2 ^ 64.
Definition i32 (z : Z) : Z := (z + 2 ^ 31) mod 2 ^ 32 - 2 ^ 31.
Definition i64 (z : Z) : Z := (z + 2 ^ 63) mod 2 ^ 64 - 2 ^ 63.

#[global] Arguments u8 : simpl never.
#[global] Arguments u16 : simpl never.
#[global] Arguments u32 : simpl never.
#[global] Arguments u64 : simpl never.
#[global] Arguments i32 : simpl never.
#[global] Arguments i64 : simpl never.
#[global] Arguments Z.land : simpl never.
#[global] Arguments Z.lor : simpl never.
#[global] Arguments Z.lxor : simpl never.
#[global] Arguments Z.shiftl : simpl never.
#[global] Arguments Z.shiftr : simpl never.
#[global] Arguments Z.modulo : simpl never.
#[global] Arguments Z.div : simpl never.
#[global] Arguments Z.pow : simpl never.

Definition is_u8 (z : Z) : Prop := 0 <= z < 2 ^ 8.
Definition is_u16 (z : Z) : Prop := 0 <= z < 2 ^ 16.
Definition is_u32 (z : Z) : Prop := 0 <= z < 2 ^ 32.
Definition is_i64 (z : Z) : Prop := - 2 ^ 63 <= z < 2 ^ 63.

#[export] Instance is_u8_dec z : Decision (is_u8 z).
Proof. unfold is_u8. apply _. Defined.
#[export] Instance is_u16_dec z : Decision (is_u16 z).
Proof. unfold is_u16. apply _. Defined.
#[export] Instance is_u32_dec z : Decision (is_u32 z).
Proof. unfold is_u32. apply _. Defined.
#[export] Instance is_i64_dec z : Decision (is_i64 z).
Proof. unfold is_i64. apply _. Defined.

(** Arithmetic goals over [/] and [mod] by constants. *)
Ltac zdm := Z.to_euclidean_division_equations; lia.

(** Split a conjunction without opening the range predicates. *)
Ltac conjs := repeat match goal with |- _ /\ _ => split end.

(** Case analysis on the boolean comparisons of the code. *)
Ltac zcase :=
  repeat match goal with
  | |- context [?a <? ?b] => destruct (Z.ltb_spec a b)
  | |- context [?a <=? ?b] => destruct (Z.leb_spec a b)
  | |- context [?a =? ?b] => destruct (Z.eqb_spec a b)
  | |- context [?a >? ?b] => rewrite (Z.gtb_ltb a b)
  | |- context [?a >=? ?b] => rewrite (Z.geb_leb a b)
  | H : context [?a <? ?b] |- _ => destruct (Z.ltb_spec a b)
  | H : context [?a <=? ?b] |- _ => destruct (Z.leb_spec a b)
  | H : context [?a =? ?b] |- _ => destruct (Z.eqb_spec a b)
  | H : context [?a >? ?b] |- _ => rewrite (Z.gtb_ltb a b) in H
  | H : context [?a >=? ?b] |- _ => rewrite (Z.geb_leb a b) in H
  end.

(** A comparison whose outcome is an arithmetic fact. *)
Ltac zbool :=
  match goal with
  | |- (?a <? ?b) = true => apply (proj2 (Z.ltb_lt a b))
  | |- (?a <? ?b) = false => apply (proj2 (Z.ltb_ge a b))
  | |- (?a <=? ?b) = true => apply (proj2 (Z.leb_le a b))
  | |- (?a <=? ?b) = false => apply (proj2 (Z.leb_gt a b))
  | |- (?a =? ?b) = true => apply (proj2 (Z.eqb_eq a b))
  | |- (?a =? ?b) = false => apply (proj2 (Z.eqb_neq a b))
  | |- (?a >? ?b) = _ => rewrite (Z.gtb_ltb a b); zbool
  | |- (?a >=? ?b) = _ => rewrite (Z.geb_leb a b); zbool
  end.

Lemma u8_range z : is_u8 (u8 z).
Proof. unfold is_u8, u8. apply Z.mod_pos_bound. lia. Qed.
Lemma u16_range z : is_u16 (u16 z).
Proof. unfold is_u16, u16. apply Z.mod_pos_bound. lia. Qed.
Lemma u32_range z : is_u32 (u32 z).
Proof. unfold is_u32, u32. apply Z.mod_pos_bound. lia. Qed.
Lemma i64_range z : is_i64 (i64 z).
Proof. unfold is_i64, i64. pose proof (Z.mod_pos_bound (z + 2 ^ 63) (2 ^ 64)). lia. Qed.
Lemma u8_id z : is_u8 z -> u8 z = z.
Proof. apply Z.mod_small. Qed.
Lemma u16_id z : is_u16 z -> u16 z = z.
Proof. apply Z.mod_small. Qed.
Lemma u32_id z : is_u32 z -> u32 z = z.
Proof. apply Z.mod_small. Qed.
Lemma i64_id z : is_i64 z -> i64 z = z.
Proof. unfold is_i64, i64. intros. rewrite Z.mod_small; lia. Qed.
Lemma i32_id z : - 2 ^ 31 <= z < 2 ^ 31 -> i32 z = z.
Proof. unfold i32. intros. rewrite Z.mod_small; lia. Qed.

(** Conversions commute with addition: only the value modulo 2^64 matters. *)
Lemma i64_congr a b k : a = b + k * 2 ^ 64 -> i64 a = i64 b.
Proof.
  intros ->. unfold i64. replace (b + k * 2 ^ 64 + 2 ^ 63) with (b + 2 ^ 63 + k * 2 ^ 64) by lia.
  by rewrite Z_mod_plus_full.
Qed.
Lemma i64_add_l a b : i64 (i64 a + b) = i64 (a + b).
Proof. apply (i64_congr _ _ (- ((a + 2 ^ 63) / 2 ^ 64))). unfold i64. rewrite Z.mod_eq by lia. lia. Qed.
Lemma i64_add_r a b : i64 (a + i64 b) = i64 (a + b).
Proof. by rewrite (Z.add_comm a), i64_add_l, (Z.add_comm b). Qed.
Lemma i64_sub_r a b : i64 (a - i64 b) = i64 (a - b).
Proof. apply (i64_congr _ _ ((b + 2 ^ 63) / 2 ^ 64)). unfold i64. rewrite Z.mod_eq by lia. lia. Qed.
Lemma i64_sub_l a b : i64 (i64 a - b) = i64 (a - b).
Proof. apply i64_add_l. Qed.

Lemma i64_spec z : exists k, i64 z = z + k * 2 ^ 64.
Proof. exists (- ((z + 2 ^ 63) / 2 ^ 64)). unfold i64. rewrite Z.mod_eq by lia. lia. Qed.
Lemma i64_eq a b : (a - b) mod 2 ^ 64 = 0 -> i64 a = i64 b.
Proof. intros H. apply (i64_congr _ _ ((a - b) / 2 ^ 64)). rewrite (Z.div_mod (a - b) (2 ^ 64)) in H by lia. zdm. Qed.

(** Equality of two 64-bit expressions that agree modulo 2^64. *)
Ltac i64_solve :=
  apply i64_eq;
  repeat match goal with |- context [i64 ?z] => let k := fresh "k" in destruct (i64_spec z) as [k ->] end;
  zdm.

(** ** Bit masks *)

Lemma land_ones_mod a n : 0 <= n -> Z.land a (2 ^ n - 1) = a mod 2 ^ n.
Proof. intros. rewrite <- Z.land_ones by done. by rewrite Z.ones_equiv, Z.sub_1_r. Qed.

(** The value of a bit of a masked number. *)
Lemma testbit_mod a n i : 0 <= n -> 0 <= i -> Z.testbit (a mod 2 ^ n) i = (i <? n) && Z.testbit a i.
Proof.
  intros. destruct (Z.ltb_spec i n); simpl.
  - by apply Z.mod_pow2_bits_low.
  - apply Z.mod_pow2_bits_high. lia.
Qed.

Lemma testbit_small a n i : 0 <= a < 2 ^ n -> n <= i -> Z.testbit a i = false.
Proof.
  intros Ha Hi. destruct (Z.eq_dec a 0) as [->|]; [apply Z.bits_0|].
  apply Z.bits_above_log2; [lia|]. apply Z.log2_lt_pow2; [lia|].
  assert (2 ^ n <= 2 ^ i); [|lia]. apply Z.pow_le_mono_r; lia.
Qed.

(** Testing one bit with a mask. *)
Lemma land_pow2_eqb b n : 0 <= n -> (Z.land b (2 ^ n) =? 0) = negb (Z.testbit b n).
Proof.
  intros Hn. destruct (Z.testbit b n) eqn:E; cbn [negb].
  - zbool. intros H. assert (Z.testbit (Z.land b (2 ^ n)) n = false) as H' by (by rewrite H, Z.bits_0).
    by rewrite Z.land_spec, E, Z.pow2_bits_true in H'.
  - zbool. apply Z.bits_inj'. intros i Hi. rewrite Z.land_spec, Z.bits_0, Z.pow2_bits_eqb by done.
    destruct (Z.eqb_spec n i) as [<-|]; [by rewrite E|apply andb_false_r].
Qed.

(** Disjoint bit fields: [lor] of a value below [2^n] and a value shifted by
    [n] is a sum. *)
Lemma lor_shiftl_add a b n : 0 <= n -> 0 <= b < 2 ^ n -> Z.lor (Z.shiftl a n) b = a * 2 ^ n + b.
Proof.
  intros Hn Hb. rewrite <- Z.add_lor_land.
  rewrite Z.shiftl_mul_pow2 by lia.
  assert (Z.land (a * 2 ^ n) b = 0) as Hl; [|lia].
  apply Z.bits_inj'. intros i Hi. rewrite Z.land_spec, Z.bits_0.
  destruct (Z.ltb_spec i n).
  - by rewrite Z.mul_pow2_bits_low.
  - rewrite (testbit_small b n i) by lia. apply andb_false_r.
Qed.

(** ** Bytes, slices and big-endian words

    A [[]byte] is a [list Z] of byte values. *)

Definition bytes_ok (l : list Z) : Prop := Forall is_u8 l.

#[export] Instance bytes_ok_dec l : Decision (bytes_ok l).
Proof. unfold bytes_ok. apply _. Defined.

Definition len {A} (l : list A) : Z := Z.of_nat (length l).

(** [l[a:b]] and [l[a:]]. *)
Definition slice {A} (a b : nat) (l : list A) : list A := take (b - a) (drop a l).
Definition slice_from {A} (a : nat) (l : list A) : list A := drop a l.

(** [data[i]]: an index the code guards with a length check. *)
Definition at_ (data : list Z) (i : nat) : Z := nth i data 0.

(** [make([]byte, n)]. *)
Definition make (n : nat) : list Z := replicate n 0.

(** [copy(buf[off:], src)]: writes [min(len(buf)-off, len(src))] bytes in place. *)
Fixpoint overwrite (buf src : list Z) {struct src} : list Z :=
  match src with
  | [] => buf
  | b :: src' => match buf with [] => [] | _ :: buf' => b :: overwrite buf' src' end
  end.

Definition copy_at (buf : list Z) (off : nat) (src : list Z) : list Z :=
  take off buf ++ overwrite (drop off buf) src.

(** [binary.BigEndian.PutUint16/PutUint32] and [Uint16/Uint32]. *)
Definition be16 (v : Z) : list Z := [u8 (Z.shiftr v 8); u8 v].
Definition be32 (v : Z) : list Z :=
  [u8 (Z.shiftr v 24); u8 (Z.shiftr v 16); u8 (Z.shiftr v 8); u8 v].
Definition PutUint16 (buf : list Z) (off : nat) (v : Z) : list Z := copy_at buf off (be16 v).
Definition PutUint32 (buf : list Z) (off : nat) (v : Z) : list Z := copy_at buf off (be32 v).
Definition word16 (b0 b1 : Z) : Z := Z.lor (Z.shiftl b0 8) b1.
Definition word32 (b0 b1 b2 b3 : Z) : Z :=
  Z.lor (Z.shiftl b0 24) (Z.lor (Z.shiftl b1 16) (Z.lor (Z.shiftl b2 8) b3)).
Definition Uint16 (b : list Z) (off : nat) : Z := word16 (at_ b off) (at_ b (off + 1)).
Definition Uint32 (b : list Z) (off : nat) : Z :=
  word32 (at_ b off) (at_ b (off + 1)) (at_ b (off + 2)) (at_ b (off + 3)).

#[global] Arguments at_ : simpl never.
#[global] Arguments Uint16 : simpl never.
#[global] Arguments Uint32 : simpl never.
#[global] Arguments word16 : simpl never.
#[global] Arguments word32 : simpl never.

(** Reading fields of an explicit list of bytes. *)
Ltac read_bytes :=
  unfold Uint16, Uint32, at_, be16, be32, PutUint16, PutUint32, copy_at, make;
  cbn [app nth Nat.add Nat.sub take drop overwrite replicate].

Lemma word16_add b0 b1 : is_u8 b1 -> word16 b0 b1 = b0 * 2 ^ 8 + b1.
Proof. intros. unfold word16. by rewrite lor_shiftl_add. Qed.

Lemma word32_add b0 b1 b2 b3 :
  is_u8 b1 -> is_u8 b2 -> is_u8 b3 ->
  word32 b0 b1 b2 b3 = b0 * 2 ^ 24 + b1 * 2 ^ 16 + b2 * 2 ^ 8 + b3.
Proof.
  unfold is_u8. intros. unfold word32.
  rewrite (lor_shiftl_add b2 b3 8), (lor_shiftl_add b1 _ 16), (lor_shiftl_add b0 _ 24); lia.
Qed.

(** Decoding an encoded word gives the word back (at its width). *)
Lemma word16_be16 v : is_u16 v -> word16 (u8 (Z.shiftr v 8)) (u8 v) = v.
Proof.
  intros. rewrite word16_add by apply u8_range. rewrite Z.shiftr_div_pow2 by lia.
  unfold u8, is_u16 in *. zdm.
Qed.

Lemma word32_be32 v :
  is_u32 v -> word32 (u8 (Z.shiftr v 24)) (u8 (Z.shiftr v 16)) (u8 (Z.shiftr v 8)) (u8 v) = v.
Proof.
  intros. rewrite word32_add by apply u8_range. rewrite !Z.shiftr_div_pow2 by lia.
  unfold u8, is_u32 in *. zdm.
Qed.

(** The byte of [a * 2^8 + b] and what is above it. *)
Lemma u8_low a b : is_u8 b -> u8 (a * 2 ^ 8 + b) = b.
Proof. unfold is_u8, u8. intros. rewrite Z.add_comm, Z_mod_plus_full. by apply Z.mod_small. Qed.
Lemma shiftr_low a b m n :
  is_u8 b -> 0 <= n -> m = n + 8 -> Z.shiftr (a * 2 ^ 8 + b) m = Z.shiftr a n.
Proof.
  unfold is_u8. intros ?? ->. rewrite (Z.add_comm n 8), <- Z.shiftr_shiftr by lia.
  f_equal. rewrite Z.shiftr_div_pow2 by lia.
  rewrite Z.div_add_l, Z.div_small by lia. lia.
Qed.

Lemma be16_word16 b0 b1 : is_u8 b0 -> is_u8 b1 -> be16 (word16 b0 b1) = [b0; b1].
Proof.
  intros. rewrite word16_add by done. unfold be16.
  rewrite (shiftr_low b0 b1 8 0), u8_low, Z.shiftr_0_r, u8_id by done. done.
Qed.

(** Encoding a decoded word gives the bytes back. *)
Lemma be32_word32 b0 b1 b2 b3 :
  is_u8 b0 -> is_u8 b1 -> is_u8 b2 -> is_u8 b3 -> be32 (word32 b0 b1 b2 b3) = [b0; b1; b2; b3].
Proof.
  intros. rewrite word32_add by done.
  replace (b0 * 2 ^ 24 + b1 * 2 ^ 16 + b2 * 2 ^ 8 + b3)
    with (((b0 * 2 ^ 8 + b1) * 2 ^ 8 + b2) * 2 ^ 8 + b3) by lia.
  unfold be32. rewrite (shiftr_low _ b3 24 16), (shiftr_low _ b3 16 8), (shiftr_low _ b3 8 0) by done.
  rewrite (shiftr_low _ b2 16 8), (shiftr_low _ b2 8 0), (shiftr_low _ b1 8 0) by done.
  rewrite !Z.shiftr_0_r, !u8_low, u8_id by done. done.
Qed.

Lemma word32_range b0 b1 b2 b3 :
  is_u8 b0 -> is_u8 b1 -> is_u8 b2 -> is_u8 b3 -> is_u32 (word32 b0 b1 b2 b3).
Proof. intros. rewrite word32_add by done. unfold is_u8, is_u32 in *. lia. Qed.

Lemma word16_range b0 b1 : is_u8 b0 -> is_u8 b1 -> is_u16 (word16 b0 b1).
Proof. intros. rewrite word16_add by done. unfold is_u8, is_u16 in *. lia. Qed.

Lemma at_ok l i : bytes_ok l -> is_u8 (at_ l i).
Proof.
  unfold at_, bytes_ok, is_u8. revert i. induction l; intros [|i] H; simpl; try lia;
    inversion_clear H; auto.
Qed.

Lemma be16_ok v : bytes_ok (be16 v).
Proof. repeat constructor; apply u8_range. Qed.
Lemma be32_ok v : bytes_ok (be32 v).
Proof. repeat constructor; apply u8_range. Qed.

Lemma Uint32_range l i : bytes_ok l -> is_u32 (Uint32 l i).
Proof. intros. unfold Uint32. apply word32_range; apply at_ok; assumption. Qed.
Lemma Uint16_range l i : bytes_ok l -> is_u16 (Uint16 l i).
Proof. intros. unfold Uint16. apply word16_range; apply at_ok; assumption. Qed.

Lemma bytes_ok_app l k : bytes_ok (l ++ k) <-> bytes_ok l /\ bytes_ok k.
Proof. apply Forall_app. Qed.

Lemma bytes_ok_cons x l : bytes_ok (x :: l) <-> is_u8 x /\ bytes_ok l.
Proof. split; [by inversion 1|intros []; by constructor]. Qed.

(** The byte facts of an explicit list. *)
Ltac split_bytes :=
  repeat match goal with
  | H : bytes_ok (_ :: _) |- _ => apply bytes_ok_cons in H as [? H]
  end.

Lemma overwrite_length buf src : length (overwrite buf src) = length buf.
Proof. revert src. induction buf; intros [|]; simpl; auto. Qed.

Lemma overwrite_fit buf src :
  (length src <= length buf)%nat -> overwrite buf src = src ++ drop (length src) buf.
Proof. revert src. induction buf; intros [|] H; simpl in *; try done; [lia|]. by rewrite IHbuf by lia. Qed.

Lemma copy_at_length buf off src : length (copy_at buf off src) = length buf.
Proof. unfold copy_at. rewrite length_app, overwrite_length, <- length_app. by rewrite take_drop. Qed.

Lemma copy_at_fit buf off src :
  (off + length src <= length buf)%nat ->
  copy_at buf off src = take off buf ++ src ++ drop (off + length src) buf.
Proof.
  intros. unfold copy_at. rewrite overwrite_fit by (rewrite length_drop; lia).
  by rewrite drop_drop.
Qed.

Lemma overwrite_ok buf src : bytes_ok buf -> bytes_ok src -> bytes_ok (overwrite buf src).
Proof.
  unfold bytes_ok. intros Hb. revert src.
  induction Hb; intros src Hs; destruct Hs; simpl; auto.
Qed.

Lemma copy_at_ok buf off src : bytes_ok buf -> bytes_ok src -> bytes_ok (copy_at buf off src).
Proof.
  intros Hb Hs. unfold copy_at, bytes_ok. rewrite Forall_app. split; [by apply Forall_take|].
  apply overwrite_ok; [by apply Forall_drop|done].
Qed.

Lemma make_ok n : bytes_ok (make n).
Proof. apply Forall_replicate. unfold is_u8. lia. Qed.

(** Reading inside the first part of a concatenation. *)
Lemma at_app_l l k i : (i < length l)%nat -> at_ (l ++ k) i = at_ l i.
Proof. intros. unfold at_. by rewrite app_nth1. Qed.
Lemma at_app_r l k i : (length l <= i)%nat -> at_ (l ++ k) i = at_ k (i - length l).
Proof. intros. unfold at_. by rewrite app_nth2. Qed.
Lemma Uint32_app_l l k i : (i + 3 < length l)%nat -> Uint32 (l ++ k) i = Uint32 l i.
Proof. intros. unfold Uint32. by rewrite !at_app_l by lia. Qed.
Lemma Uint16_app_l l k i : (i + 1 < length l)%nat -> Uint16 (l ++ k) i = Uint16 l i.
Proof. intros. unfold Uint16. by rewrite !at_app_l by lia. Qed.

(** ** Errors

    A Go function returning [(T, error)] is a [result]. *)

Inductive result (E A : Type) : Type :=
| Ok (a : A)
| Err (e : E).
Arguments Ok {E A} a.
Arguments Err {E A} e.

#[export] Instance result_ret E : MRet (result E) := fun A a => Ok a.
#[export] Instance result_bind E : MBind (result E) :=
  fun A B f r => match r with Ok a => f a | Err e => Err e end.

Lemma Ok_inj {E A} (a b : A) : @Ok E A a = Ok b -> a = b.
Proof. congruence. Qed.

(** [if cond { return err }]: the guards of the decoders. *)
Definition refuse {E} (cond : bool) (e : E) : result E unit := if cond then Err e else Ok tt.

Definition is_Ok {E A} (r : result E A) : bool := match r with Ok _ => true | Err _ => false end.

(** ** Record fields

    Go assigns to the fields of a struct; a record is updated with
    [r <| f := v |>].  [Eta R] is the eta expansion of the record, from which
    the update of each field is derived. *)

Class Eta (R : Type) : Type := etaOf : R -> R.
Class Field {R T : Type} (f : R -> T) : Type := upd : (T -> T) -> R -> R.
Arguments upd {R T} f {_} _ _.

Ltac derive_field :=
  match goal with
  | |- @Field ?R ?T ?f =>
      let e := eval hnf in (@etaOf R _) in
      let e := eval hnf in e in
      match eval pattern f in e with
      | ?build _ =>
          let u := eval cbv beta in (fun (g : T -> T) (r : R) => build (fun r => g (f r)) r) in
          exact u
      end
  end.

Notation "r <| f := v |>" := (upd f (fun _ => v) r)
  (at level 1, left associativity, f at level 0, v at level 99, format "r  <| f  :=  v |>").
Notation "r <| f ::= g |>" := (upd f g r)
  (at level 1, left associativity, f at level 0, g at level 99, format "r  <| f  ::=  g |>").

(** Reading a field of an updated record. *)
Ltac is_field f r :=
  let R := type of r in
  let e := eval hnf in (_ : Eta R) in
  lazymatch e with context [f _] => constr:(tt) end.
(** The equation holds by computation for a variable record; it is stated for one
    because the given record can be a long chain of updates. *)
Lemma read_other {R T U : Type} (f : R -> T) (g : R -> U) (F : Field g) :
  (forall h r, f (@upd _ _ g F h r) = f r) -> forall h r, f (@upd _ _ g F h r) = f r.
Proof. done. Qed.
Lemma read_same {R T : Type} (f : R -> T) (F : Field f) :
  (forall h r, f (@upd _ _ f F h r) = h (f r)) -> forall h r, f (@upd _ _ f F h r) = h (f r).
Proof. done. Qed.

Ltac read_field f g F r :=
  let _ := is_field f r in
  lazymatch g with
  | f => constr:(read_same f F (fun _ _ => eq_refl))
  | _ => constr:(read_other f g F (fun _ _ => eq_refl))
  end.
Ltac fields :=
  repeat (match goal with
  | |- context [?f (@upd _ _ ?g ?F ?h ?r)] => let E := read_field f g F r in rewrite (E h r)
  end; cbv beta).
Ltac fields_in H :=
  repeat (match type of H with
  | context [?f (@upd _ _ ?g ?F ?h ?r)] => let E := read_field f g F r in rewrite (E h r) in H
  end; cbv beta in H).

Create HintDb go.
#[export] Hint Resolve u8_range u16_range u32_range i64_range at_ok be16_ok be32_ok
  Uint32_range Uint16_range make_ok copy_at_ok word32_range word16_range : go.
