(* ===== verification/Seq.v ===== *)
(** * Sequence numbers ([internal/seq/seq.go])

    SRT sequence numbers are 31-bit values held in a [uint32].  This file
    models every operation of the package, states the 31-bit circle they
    live on ([sadd], the addition modulo 2^31) and proves that the operations
    compute it.  It also holds [walk], the shape of the loops
    [for s.LessThan(limit) { ...; s = s.Inc() }] the buffers are made of, with
    the proof that its fuel is always enough. *)
From Stdlib Require Import ZArith Lia.
From stdpp Require Import base numbers list option.
From S2P Require Import Prelude.
Local Open Scope Z_scope.

Module Seq.

(** ** The operations *)

Definition Max : Z := 0x7FFFFFFF.
Definition Threshold : Z := 0x3FFFFFFF.

Definition Value (a : Z) : Z := a.

Definition Inc (a : Z) : Z := if a >=? Max then 0 else u32 (a + 1).

Definition Dec (a : Z) : Z := if a =? 0 then Max else u32 (a - 1).

Definition Add (a n : Z) : Z :=
  let sum := u32 (a + n) in
  if sum >? Max then u32 (sum - (Max + 1)) else sum.

Definition Sub (a n : Z) : Z :=
  if a >=? n then u32 (a - n) else u32 (Max + 1 - u32 (n - a)).

Definition Distance (a b : Z) : Z :=
  if a =? b then 0 else
  let d := if b >? a then u32 (b - a) else u32 (a - b) in
  if d <=? Threshold then
    if b >? a then i32 d else i32 (- i32 d)
  else
    let wrapped := u32 (u32 (Max - d) + 1) in
    if b >? a then i32 (- i32 wrapped) else i32 wrapped.

Definition LessThan (a b : Z) : bool :=
  if a =? b then false else
  let '(d, aLessNumerically) :=
    if a >? b then (u32 (a - b), false) else (u32 (b - a), true) in
  if d <=? Threshold then aLessNumerically else negb aLessNumerically.

Definition LessThanOrEqual (a b : Z) : bool := (a =? b) || LessThan a b.

Definition GreaterThan (a b : Z) : bool := if a =? b then false else negb (LessThan a b).

Definition GreaterThanOrEqual (a b : Z) : bool := (a =? b) || GreaterThan a b.

(** ** The 31-bit circle *)

Definition is_seq (a : Z) : Prop := 0 <= a < 2 ^ 31.

#[export] Instance is_seq_dec a : Decision (is_seq a).
Proof. unfold is_seq. apply _. Defined.

(** Position [a + i] on the circle, and how far ahead of [a] the number [b] is. *)
Definition sadd (a i : Z) : Z := (a + i) mod 2 ^ 31.
Definition gap (a b : Z) : Z := (b - a) mod 2 ^ 31.

Lemma sadd_seq a i : is_seq (sadd a i).
Proof. apply Z.mod_pos_bound. lia. Qed.

Lemma gap_range a b : 0 <= gap a b < 2 ^ 31.
Proof. apply Z.mod_pos_bound. lia. Qed.

Lemma sadd_0 a : is_seq a -> sadd a 0 = a.
Proof. unfold is_seq, sadd. intros. rewrite Z.add_0_r. by apply Z.mod_small. Qed.

Lemma sadd_sadd a i j : sadd (sadd a i) j = sadd a (i + j).
Proof. unfold sadd. rewrite Zplus_mod_idemp_l. f_equal. lia. Qed.

Lemma sadd_gap a b : is_seq b -> sadd a (gap a b) = b.
Proof.
  unfold is_seq, sadd, gap. intros. rewrite Zplus_mod_idemp_r.
  replace (a + (b - a)) with b by lia. by apply Z.mod_small.
Qed.

Lemma gap_sadd a i : 0 <= i < 2 ^ 31 -> gap a (sadd a i) = i.
Proof.
  unfold sadd, gap. intros. rewrite Zminus_mod_idemp_l.
  replace (a + i - a) with i by lia. by apply Z.mod_small.
Qed.

Lemma gap_self a : gap a a = 0.
Proof. unfold gap. by rewrite Z.sub_diag. Qed.

Lemma gap_0 a b : is_seq a -> is_seq b -> gap a b = 0 -> a = b.
Proof. intros Ha Hb H. rewrite <- (sadd_gap a b Hb), H. symmetry. by apply sadd_0. Qed.

Lemma Inc_sadd a : is_seq a -> Inc a = sadd a 1.
Proof. unfold is_seq, Inc, sadd, Max, u32. intros. zcase; zdm. Qed.

Lemma Dec_sadd a : is_seq a -> Dec a = sadd a (-1).
Proof. unfold is_seq, Dec, sadd, Max, u32. intros. zcase; zdm. Qed.

Lemma Inc_seq a : is_seq a -> is_seq (Inc a).
Proof. intros. rewrite Inc_sadd by done. apply sadd_seq. Qed.

Lemma Dec_seq a : is_seq a -> is_seq (Dec a).
Proof. intros. rewrite Dec_sadd by done. apply sadd_seq. Qed.

(** [Add] is correct for an offset up to 2^31, and also for a negative offset
    converted to [uint32] (the form [SendBuffer.SetMsgTTLBatch] uses). *)
Lemma Add_sadd a n : is_seq a -> - 2 ^ 31 <= n <= 2 ^ 31 -> Add a (u32 n) = sadd a n.
Proof. unfold is_seq, Add, sadd, Max, u32. intros. zcase; zdm. Qed.

Lemma Sub_sadd a n : is_seq a -> 0 <= n <= 2 ^ 31 -> Sub a n = sadd a (- n).
Proof. unfold is_seq, Sub, sadd, Max, u32. intros. zcase; zdm. Qed.

(** ** Distance and the wrap-aware order *)

(** [Distance] in terms of the circle: forward up to half of it, backward
    beyond; the antipodal number (2^30 away) is ahead of the numerically
    larger of the two. *)
Lemma Distance_gap a b :
  is_seq a -> is_seq b ->
  Distance a b =
    if (gap a b <? 2 ^ 30) || ((gap a b =? 2 ^ 30) && (b <? a)) then gap a b else gap a b - 2 ^ 31.
Proof.
  unfold is_seq, Distance, gap, Threshold, Max. intros Ha Hb.
  destruct (Z.eqb_spec a b) as [->|Hne].
  { rewrite Z.sub_diag. done. }
  rewrite !Z.gtb_ltb. destruct (Z.ltb_spec a b).
  - assert ((b - a) mod 2 ^ 31 = b - a) as -> by (apply Z.mod_small; lia).
    unfold u32, i32. rewrite (Z.mod_small (b - a)) by lia.
    rewrite (Z.mod_small (0x7FFFFFFF - (b - a))) by lia.
    rewrite (Z.mod_small (0x7FFFFFFF - (b - a) + 1)) by lia.
    zcase; simpl; zdm.
  - assert ((b - a) mod 2 ^ 31 = b - a + 2 ^ 31) as ->.
    { rewrite <- (Z_mod_plus_full _ 1). apply Z.mod_small. lia. }
    unfold u32, i32. rewrite (Z.mod_small (a - b)) by lia.
    rewrite (Z.mod_small (0x7FFFFFFF - (a - b))) by lia.
    rewrite (Z.mod_small (0x7FFFFFFF - (a - b) + 1)) by lia.
    zcase; simpl; zdm.
Qed.

Lemma LessThan_Distance a b : is_seq a -> is_seq b -> LessThan a b = (0 <? Distance a b).
Proof.
  unfold is_seq, LessThan, Distance, Threshold, Max. intros Ha Hb.
  destruct (Z.eqb_spec a b); [done|].
  rewrite !Z.gtb_ltb. destruct (Z.ltb_spec a b), (Z.ltb_spec b a); try lia.
  - unfold u32, i32. rewrite !(Z.mod_small (b - a)) by lia.
    rewrite (Z.mod_small (0x7FFFFFFF - (b - a))) by lia.
    rewrite (Z.mod_small (0x7FFFFFFF - (b - a) + 1)) by lia.
    destruct (Z.leb_spec (b - a) 0x3FFFFFFF); zcase; simpl; try done; zdm.
  - unfold u32, i32. rewrite !(Z.mod_small (a - b)) by lia.
    rewrite (Z.mod_small (0x7FFFFFFF - (a - b))) by lia.
    rewrite (Z.mod_small (0x7FFFFFFF - (a - b) + 1)) by lia.
    destruct (Z.leb_spec (a - b) 0x3FFFFFFF); zcase; simpl; try done; zdm.
Qed.

Lemma LessThan_true a b :
  is_seq a -> is_seq b -> LessThan a b = true -> 0 < gap a b <= 2 ^ 30 /\ Distance a b = gap a b.
Proof.
  intros Ha Hb. rewrite LessThan_Distance, Distance_gap by done. intros H.
  pose proof (gap_range a b). zcase; simpl in *; try lia; done.
Qed.

Lemma LessThan_intro a b :
  is_seq a -> is_seq b -> 0 < gap a b < 2 ^ 30 -> LessThan a b = true.
Proof.
  intros Ha Hb Hg. rewrite LessThan_Distance, Distance_gap by done.
  zcase; simpl in *; try lia; done.
Qed.

Lemma LessThan_false a b :
  is_seq a -> is_seq b -> LessThan a b = false -> gap a b = 0 \/ 2 ^ 30 <= gap a b.
Proof.
  intros Ha Hb H. pose proof (gap_range a b).
  destruct (decide (0 < gap a b < 2 ^ 30)); [|lia].
  by rewrite LessThan_intro in H.
Qed.

Lemma LessThan_irrefl a : LessThan a a = false.
Proof. unfold LessThan. by rewrite Z.eqb_refl. Qed.

(** ** Loops over a window of sequence numbers

    [for s.LessThan(limit) { body; s = s.Inc() }]: [body] is given the current
    sequence number and the state; [Next] goes on with the next number, [Stop]
    is the loop's [break] or [return].  The fuel is the number of sequence
    numbers between [s] and [limit]. *)

Inductive ctl (A : Type) : Type :=
| Next (a : A)
| Stop (a : A).
Arguments Next {A} a.
Arguments Stop {A} a.

Definition walk_fuel (s limit : Z) : nat := if LessThan s limit then Z.to_nat (gap s limit) else 0%nat.

Fixpoint walk_n {A} (n : nat) (limit : Z) (body : Z -> A -> ctl A) (s : Z) (a : A) : Z * A :=
  match n with
  | O => (s, a)
  | S n' =>
      if LessThan s limit then
        match body s a with
        | Next a' => walk_n n' limit body (Inc s) a'
        | Stop a' => (s, a')
        end
      else (s, a)
  end.

Definition walk {A} (limit : Z) (body : Z -> A -> ctl A) (s : Z) (a : A) : Z * A :=
  walk_n (walk_fuel s limit) limit body s a.

Lemma gap_Inc s b : is_seq s -> 0 < gap s b -> gap (Inc s) b = gap s b - 1.
Proof.
  intros Hs. rewrite Inc_sadd by done. unfold gap, sadd. intros Hg.
  rewrite Zminus_mod_idemp_r. replace (b - (s + 1)) with (b - s - 1) by lia.
  rewrite <- Zminus_mod_idemp_l. apply Z.mod_small.
  pose proof (Z.mod_pos_bound (b - s) (2 ^ 31)). lia.
Qed.

Lemma LessThan_gap_pos s b : is_seq s -> is_u32 b -> LessThan s b = true -> 0 < gap s b.
Proof.
  unfold is_seq, is_u32, LessThan, gap, Threshold. intros Hs Hb H.
  destruct (Z.eqb_spec s b); [done|].
  enough ((b - s) mod 2 ^ 31 <> 0) by (pose proof (Z.mod_pos_bound (b - s) (2 ^ 31)); lia).
  intros H0. assert (b = s + 2 ^ 31) as -> by zdm.
  rewrite Z.gtb_ltb in H. destruct (Z.ltb_spec (s + 2 ^ 31) s); [lia|].
  unfold u32 in H. replace (s + 2 ^ 31 - s) with (2 ^ 31) in H by lia. done.
Qed.

(** One step of the loop uses one unit of fuel, whatever the limit read from
    the wire (a [uint32] that need not be a valid sequence number). *)
Lemma walk_fuel_step s limit :
  is_seq s -> is_u32 limit -> LessThan s limit = true ->
  exists n, walk_fuel s limit = S n /\ (walk_fuel (Inc s) limit <= n)%nat.
Proof.
  unfold is_seq, is_u32, walk_fuel. intros Hs Hl H. rewrite H.
  assert (0 < gap s limit) as Hg by (by apply LessThan_gap_pos).
  exists (Z.to_nat (gap s limit - 1)). split; [lia|].
  destruct (LessThan (Inc s) limit); [rewrite gap_Inc by done|]; lia.
Qed.

(** The fuel is always enough: [walk] satisfies the equation of the Go loop. *)
Lemma walk_n_enough {A} limit (body : Z -> A -> ctl A) n m s a :
  is_seq s -> is_u32 limit -> (walk_fuel s limit <= n)%nat -> (walk_fuel s limit <= m)%nat ->
  walk_n n limit body s a = walk_n m limit body s a.
Proof.
  intros Hs Hl. revert m s a Hs. induction n as [|n IH]; intros m s a Hs Hn Hm.
  - destruct m; simpl; [done|]. destruct (LessThan s limit) eqn:E; [|done].
    destruct (walk_fuel_step s limit) as (k & Hk & _); [done..|lia].
  - destruct (LessThan s limit) eqn:E; [|by destruct m; simpl; rewrite E].
    destruct (walk_fuel_step s limit) as (k & Hk & Hk'); [done..|].
    destruct m as [|m]; [lia|]. simpl. rewrite E.
    destruct (body s a); [|done]. apply IH; [by apply Inc_seq|lia..].
Qed.

Lemma walk_unfold {A} limit (body : Z -> A -> ctl A) s a :
  is_seq s -> is_u32 limit ->
  walk limit body s a =
    if LessThan s limit then
      match body s a with
      | Next a' => walk limit body (Inc s) a'
      | Stop a' => (s, a')
      end
    else (s, a).
Proof.
  intros Hs Hl. unfold walk at 1. destruct (LessThan s limit) eqn:E.
  - destruct (walk_fuel_step s limit) as (n & Hn & Hn'); [done..|].
    rewrite Hn. simpl. rewrite E. destruct (body s a); [|done].
    apply walk_n_enough; auto using Inc_seq.
  - by destruct (walk_fuel s limit); simpl; rewrite ?E.
Qed.

(** Invariants of a loop. *)
Lemma walk_ind {A} (P : Z -> A -> Prop) limit (body : Z -> A -> ctl A) s a :
  is_seq s -> P s a ->
  (forall s a, is_seq s -> P s a -> LessThan s limit = true ->
     match body s a with Next a' => P (Inc s) a' | Stop a' => P s a' end) ->
  P (fst (walk limit body s a)) (snd (walk limit body s a)).
Proof.
  intros Hs HP Hstep. unfold walk. generalize (walk_fuel s limit). intros n. revert s a Hs HP.
  induction n as [|n IH]; intros s a Hs HP; [done|]. simpl.
  destruct (LessThan s limit) eqn:E; [|done]. specialize (Hstep s a Hs HP E).
  destruct (body s a); [|done]. apply IH; [by apply Inc_seq|done].
Qed.

(** How far a loop goes: at most half of the circle. *)
Lemma LessThan_gap_le s b : is_seq s -> is_u32 b -> LessThan s b = true -> gap s b <= 2 ^ 30.
Proof.
  unfold is_seq, is_u32, LessThan, gap, Threshold. intros Hs Hb H.
  destruct (Z.eqb_spec s b); [done|]. rewrite Z.gtb_ltb in H. unfold u32 in H.
  destruct (Z.ltb_spec b s).
  - destruct (Z.leb_spec ((s - b) mod 2 ^ 32) 1073741823) as [|Hd]; [done|]. rewrite Z.mod_small in Hd by lia.
    rewrite <- (Z_mod_plus_full _ 1), Z.mod_small; lia.
  - destruct (Z.leb_spec ((b - s) mod 2 ^ 32) 1073741823) as [Hd|]; [|done]. rewrite Z.mod_small in Hd by lia.
    rewrite Z.mod_small; lia.
Qed.

Lemma walk_span {A} limit (body : Z -> A -> ctl A) s a :
  is_seq s -> is_u32 limit -> exists i, 0 <= i <= 2 ^ 30 /\ fst (walk limit body s a) = sadd s i.
Proof.
  intros Hs Hl. unfold walk.
  assert (Z.of_nat (walk_fuel s limit) <= 2 ^ 30) as Hf.
  { unfold walk_fuel. destruct (LessThan s limit) eqn:E; [|lia]. pose proof (LessThan_gap_le s limit Hs Hl E).
    pose proof (gap_range s limit). lia. }
  enough (forall n s a, is_seq s -> exists i, 0 <= i <= Z.of_nat n /\ fst (walk_n n limit body s a) = sadd s i) as H.
  { destruct (H (walk_fuel s limit) s a Hs) as (i & Hi & E). exists i. split; [lia|done]. }
  clear. induction n as [|n IH]; intros s a Hs; cbn [walk_n].
  - exists 0. split; [lia|]. by rewrite sadd_0.
  - destruct (LessThan s limit); [|exists 0; split; [lia|]; by rewrite sadd_0].
    destruct (body s a); [|exists 0; split; [lia|]; by rewrite sadd_0].
    destruct (IH (Inc s) a0 (Inc_seq s Hs)) as (i & Hi & ->). exists (1 + i). split; [lia|].
    by rewrite Inc_sadd, sadd_sadd by done.
Qed.

(** ** Laws of the distance and of the order *)

Lemma Distance_bound a b : is_seq a -> is_seq b -> - 2 ^ 30 <= Distance a b <= 2 ^ 30.
Proof.
  intros Ha Hb. rewrite Distance_gap by done. pose proof (gap_range a b).
  zcase; simpl in *; lia.
Qed.

Lemma Distance_sadd a b : is_seq a -> is_seq b -> sadd a (Distance a b) = b.
Proof.
  intros Ha Hb. rewrite Distance_gap by done.
  pose proof (sadd_gap a b Hb) as Hs. destruct (_ || _); [done|]. revert Hs. unfold sadd. intros Hs.
  replace (a + (gap a b - 2 ^ 31)) with (a + gap a b + (-1) * 2 ^ 31) by lia.
  by rewrite Z_mod_plus_full.
Qed.

Lemma gap_sym a b : gap b a = (- gap a b) mod 2 ^ 31.
Proof. unfold gap. rewrite <- (Z.sub_0_l (_ mod _)), Zminus_mod_idemp_r. f_equal. lia. Qed.

Lemma Distance_antisym a b : is_seq a -> is_seq b -> Distance b a = - Distance a b.
Proof.
  intros Ha Hb. rewrite !Distance_gap, gap_sym by done. pose proof (gap_range a b).
  destruct (decide (gap a b = 0)) as [E|E]; [by rewrite E|].
  assert ((- gap a b) mod 2 ^ 31 = 2 ^ 31 - gap a b) as ->.
  { rewrite <- (Z_mod_plus_full _ 1). rewrite Z.mod_small; lia. }
  assert (a <> b) by (intros ->; by rewrite gap_self in E).
  zcase; simpl in *; lia.
Qed.

Lemma LessThan_asym a b : is_seq a -> is_seq b -> a <> b -> LessThan a b = negb (LessThan b a).
Proof.
  intros Ha Hb Hne. rewrite !LessThan_Distance, (Distance_antisym a b) by done.
  assert (Distance a b <> 0).
  { intros E. apply Hne. rewrite <- (Distance_sadd a b), E, sadd_0 by done. done. }
  zcase; simpl; lia.
Qed.

Lemma gap_trans a b c :
  is_seq b -> gap a b + gap b c < 2 ^ 31 -> gap a c = gap a b + gap b c.
Proof.
  intros Hb H. pose proof (gap_range a b). pose proof (gap_range b c).
  rewrite <- (Z.mod_small (gap a b + gap b c) (2 ^ 31)) by lia.
  unfold gap. rewrite <- Zplus_mod. f_equal. lia.
Qed.

(** [s] is outside the window of the [n] numbers from [a] on. *)
Lemma window_test a n s :
  is_seq a -> is_seq s -> 0 <= n <= 2 ^ 29 ->
  LessThan s a || LessThanOrEqual (sadd a n) s = negb (gap a s <? n).
Proof.
  intros Ha Hs Hn. pose proof (gap_range a s) as Hg.
  assert (gap (sadd a n) s = (gap a s - n) mod 2 ^ 31) as Hgn.
  { unfold gap, sadd. rewrite Zminus_mod_idemp_r, Zminus_mod_idemp_l. f_equal. lia. }
  unfold LessThanOrEqual. destruct (Z.ltb_spec (gap a s) n) as [Hlt|Hge]; cbn [negb].
  - assert (LessThan s a = false) as ->.
    { destruct (LessThan s a) eqn:E; [|done]. apply LessThan_true in E as [E _]; [|done..].
      rewrite gap_sym in E. zdm. }
    assert (gap (sadd a n) s = gap a s - n + 2 ^ 31) as Hgn'.
    { rewrite Hgn, <- (Z_mod_plus_full _ 1), Z.mod_small; lia. }
    destruct (Z.eqb_spec (sadd a n) s) as [<-|]; [rewrite gap_self in Hgn'; lia|]. cbn [orb].
    destruct (LessThan (sadd a n) s) eqn:E; [|done].
    apply LessThan_true in E as [E _]; [lia|apply sadd_seq|done].
  - destruct (LessThan s a) eqn:E1; [done|]. cbn [orb].
    destruct (Z.eqb_spec (sadd a n) s) as [|Hne]; [done|]. cbn [orb].
    rewrite Z.mod_small in Hgn by lia.
    destruct (LessThan (sadd a n) s) eqn:E2; [done|].
    apply LessThan_false in E2 as E2'; [|apply sadd_seq|done].
    destruct E2' as [E2'|E2']; [by apply gap_0 in E2'; [|apply sadd_seq|]|].
    pose proof (gap_sym a s) as Hsym. apply LessThan_false in E1 as E1'; [|done..].
    assert (n = 0) as ->.
    { rewrite <- (Z_mod_plus_full _ 1), Z.mod_small in Hsym by lia. lia. }
    rewrite sadd_0 in * by done. rewrite LessThan_asym, E1 in E2 by done. done.
Qed.

(** The [n] numbers from [a] on. *)
Fixpoint seqs (a : Z) (n : nat) : list Z :=
  match n with O => [] | S n' => a :: seqs (Inc a) n' end.

Lemma sadd_S a n : is_seq a -> sadd a (Z.of_nat (S n)) = sadd (Inc a) (Z.of_nat n).
Proof. intros. rewrite Inc_sadd, sadd_sadd by done. f_equal. lia. Qed.

Lemma seq_u32 s : is_seq s -> is_u32 s.
Proof. unfold is_seq, is_u32. lia. Qed.

Lemma seqs_lookup a n i : is_seq a -> (i < n)%nat -> seqs a n !! i = Some (sadd a (Z.of_nat i)).
Proof.
  revert a i. induction n as [|n IH]; intros a i Ha Hi; [lia|]. destruct i as [|i].
  - cbn [seqs]. by rewrite sadd_0.
  - change (seqs a (S n) !! S i) with (seqs (Inc a) n !! i). rewrite (IH (Inc a) i) by (lia || by apply Inc_seq). by rewrite sadd_S.
Qed.

Lemma seqs_app a n m : is_seq a -> seqs a (n + m) = seqs a n ++ seqs (sadd a (Z.of_nat n)) m.
Proof.
  revert a. induction n as [|n IH]; intros a Ha; cbn [Nat.add seqs app]; [by rewrite sadd_0|].
  rewrite IH by (by apply Inc_seq). by rewrite sadd_S.
Qed.

Lemma seqs_drop a n j : is_seq a -> (j <= n)%nat -> drop j (seqs a n) = seqs (sadd a (Z.of_nat j)) (n - j).
Proof.
  intros Ha Hj. replace n with (j + (n - j))%nat at 1 by lia. rewrite seqs_app by done.
  apply drop_app_length'. clear. symmetry. revert a. induction j; intros; simpl; auto.
Qed.

Lemma seqs_take a n j : take j (seqs a n) = seqs a (Nat.min j n).
Proof.
  revert a j. induction n as [|n IH]; intros a [|j]; cbn [seqs take Nat.min]; try done. by rewrite IH.
Qed.

Lemma seqs_length a n : length (seqs a n) = n.
Proof. revert a. induction n; intros; simpl; auto. Qed.

(** A loop without [break] over the [n] numbers from [a] on visits each once. *)
Lemma walk_next {A} (f : Z -> A -> A) n a st :
  is_seq a -> Z.of_nat n < 2 ^ 30 ->
  walk (sadd a (Z.of_nat n)) (fun s st => Next (f s st)) a st =
    (sadd a (Z.of_nat n), fold_left (fun st s => f s st) (seqs a n) st).
Proof.
  intros Ha. revert a st Ha. induction n as [|n IH]; intros a st Ha Hn;
    rewrite walk_unfold by (done || apply seq_u32, sadd_seq).
  - by rewrite sadd_0, LessThan_irrefl by done.
  - rewrite LessThan_intro; [|done|apply sadd_seq|rewrite gap_sadd; lia].
    rewrite sadd_S by done. by rewrite IH by (lia || by apply Inc_seq).
Qed.

(** A search: the loop stops at the first number that satisfies [p]. *)
Lemma walk_find {A} (p : Z -> bool) (g : Z -> A) n a r :
  is_seq a -> Z.of_nat n < 2 ^ 30 ->
  walk (sadd a (Z.of_nat n)) (fun s r => if p s then Stop (g s) else Next r) a r =
    match List.find p (seqs a n) with
    | Some s => (s, g s)
    | None => (sadd a (Z.of_nat n), r)
    end.
Proof.
  intros Ha. revert a r Ha. induction n as [|n IH]; intros a r Ha Hn;
    rewrite walk_unfold by (done || apply seq_u32, sadd_seq).
  - by rewrite sadd_0, LessThan_irrefl by done.
  - rewrite LessThan_intro; [|done|apply sadd_seq|rewrite gap_sadd; lia].
    cbn [seqs List.find]. destruct (p a); [done|].
    rewrite sadd_S by done. by rewrite IH by (lia || by apply Inc_seq).
Qed.

(** The position of what a search finds. *)
Lemma find_seqs p a n s :
  is_seq a -> List.find p (seqs a n) = Some s ->
  exists i, (i < n)%nat /\ s = sadd a (Z.of_nat i) /\ p s = true /\
    forall j, (j < i)%nat -> p (sadd a (Z.of_nat j)) = false.
Proof.
  intros Ha. revert a Ha. induction n as [|n IH]; intros a Ha; cbn [seqs List.find]; [done|].
  destruct (p a) eqn:E.
  - intros [= <-]. exists 0%nat. split; [lia|]. rewrite sadd_0 by done. split; [done|]. split; [done|]. lia.
  - intros H. destruct (IH (Inc a) ltac:(by apply Inc_seq) H) as (i & Hi & -> & Hp & Hj).
    exists (S i). split; [lia|]. rewrite sadd_S by done. split; [done|]. split; [done|].
    intros [|j] Hlt; [by rewrite sadd_0|]. rewrite sadd_S by done. apply Hj. lia.
Qed.

Lemma find_seqs_None p a n :
  is_seq a -> List.find p (seqs a n) = None -> forall j, (j < n)%nat -> p (sadd a (Z.of_nat j)) = false.
Proof.
  intros Ha. revert a Ha. induction n as [|n IH]; intros a Ha; cbn [seqs List.find]; [lia|].
  destruct (p a) eqn:E; [done|]. intros H [|j] Hj; [by rewrite sadd_0|].
  rewrite sadd_S by done. apply IH; [by apply Inc_seq|done|lia].
Qed.

(** The acceptance window of the receive buffer. *)
Lemma accept_test a n s :
  is_seq a -> is_seq s -> n <= 2 ^ 29 ->
  LessThan s a || ((Distance a s <? 0) || (Distance a s >=? n)) = negb (gap a s <? n).
Proof.
  intros Ha Hs Hn. pose proof (gap_range a s) as Hg.
  destruct (Z.eqb_spec a s) as [->|Hne].
  { rewrite LessThan_irrefl, gap_self. unfold Distance. rewrite Z.eqb_refl.
    rewrite Z.geb_leb. zcase; simpl; try lia; done. }
  assert (gap a s <> 0) by (intros E; by apply gap_0 in E).
  rewrite (LessThan_asym s a) by done. rewrite LessThan_Distance, Distance_gap by done.
  rewrite Z.geb_leb. zcase; simpl in *; try lia; done.
Qed.

(** ** Properties *)

(** [Distance] is the signed displacement on the 31-bit circle: adding it
    to [a] gives [b], swapping the arguments negates it, its magnitude is at
    most half the circle, and [LessThan] is exactly "the displacement is
    positive". *)
Theorem seq_distance_correct (a b : Z) :
  is_seq a -> is_seq b ->
  sadd a (Distance a b) = b /\
  Distance b a = - Distance a b /\
  - 2 ^ 30 <= Distance a b <= 2 ^ 30 /\
  LessThan a b = (0 <? Distance a b).
Proof.
  intros. auto using Distance_sadd, Distance_antisym, Distance_bound, LessThan_Distance.
Qed.

Lemma seq_distance_correct_witness :
  sadd 0x7FFFFFFE (Distance 0x7FFFFFFE 3) = 3 /\ Distance 3 0x7FFFFFFE = - Distance 0x7FFFFFFE 3 /\
  - 2 ^ 30 <= Distance 0x7FFFFFFE 3 <= 2 ^ 30 /\
  LessThan 0x7FFFFFFE 3 = (0 <? Distance 0x7FFFFFFE 3).
Proof. apply (seq_distance_correct 0x7FFFFFFE 3); unfold is_seq; lia. Defined.

(** The wrap-aware order is total and strict on sequence numbers (for
    distinct numbers exactly one precedes the other, and the four comparison
    methods agree), and it is transitive along any chain that stays within
    half the circle. *)
Theorem seq_order_total (a b c : Z) :
  is_seq a -> is_seq b -> is_seq c ->
  (a <> b -> LessThan a b = negb (LessThan b a)) /\
  LessThan a a = false /\
  GreaterThan a b = LessThan b a /\
  LessThanOrEqual a b = negb (LessThan b a) /\
  GreaterThanOrEqual a b = negb (LessThan a b) /\
  (LessThan a b = true -> LessThan b c = true -> gap a b + gap b c < 2 ^ 30 -> LessThan a c = true).
Proof.
  intros Ha Hb Hc. pose proof (LessThan_asym a b Ha Hb) as Hneg.
  unfold GreaterThanOrEqual, GreaterThan, LessThanOrEqual.
  split_and!; [done|apply LessThan_irrefl| | | |].
  1-3: destruct (Z.eqb_spec a b) as [->|Hne];
    [by rewrite ?LessThan_irrefl | rewrite (Hneg Hne); by destruct (LessThan b a)].
  intros H1 H2 H3. apply LessThan_true in H1, H2; [|done..].
  apply LessThan_intro; [done..|]. rewrite (gap_trans a b c); [lia|done|lia].
Qed.

Lemma seq_order_total_witness : LessThan 0x7FFFFFFF 5 = true.
Proof.
  destruct (seq_order_total 0x7FFFFFFF 2 5) as (_ & _ & _ & _ & _ & H); [unfold is_seq; lia..|].
  apply H; vm_compute; reflexivity.
Defined.

(** [Inc]/[Dec] and [Add]/[Sub] are the moves on the circle: they stay on
    it, undo each other, and [Distance] measures them. *)
Theorem seq_arith_circle (a n : Z) :
  is_seq a -> 0 <= n < 2 ^ 30 ->
  is_seq (Inc a) /\ Dec (Inc a) = a /\ Inc (Dec a) = a /\
  Sub (Add a n) n = a /\ Add (Sub a n) n = a /\
  Distance a (Add a n) = n /\ Distance a (Sub a n) = - n.
Proof.
  intros Ha Hn.
  assert (Add a n = sadd a n) as HA by (rewrite <- (u32_id n) at 1 by (unfold is_u32; lia); apply Add_sadd; [done|lia]).
  assert (forall x, is_seq x -> Add x n = sadd x n) as HA'.
  { intros x Hx. rewrite <- (u32_id n) at 1 by (unfold is_u32; lia). apply Add_sadd; [done|lia]. }
  pose proof (sadd_seq a n). pose proof (sadd_seq a (- n)).
  rewrite HA, !Sub_sadd, HA' by (done || lia).
  rewrite !Dec_sadd, !Inc_sadd, ?sadd_sadd by auto using Inc_seq, Dec_seq, sadd_seq.
  change (1 + -1) with 0. change (-1 + 1) with 0.
  rewrite Z.add_opp_diag_l, Z.add_opp_diag_r, !sadd_0 by done.
  split; [apply sadd_seq|]. repeat (split; [done|]). split.
  - rewrite Distance_gap, gap_sadd by (done || lia). zcase; simpl in *; lia.
  - rewrite Distance_antisym by done.
    replace a with (sadd (sadd a (- n)) n) at 2 by (rewrite sadd_sadd, Z.add_opp_diag_l; by apply sadd_0).
    rewrite Distance_gap, gap_sadd by (auto using sadd_seq; lia). zcase; simpl in *; lia.
Qed.

Lemma seq_arith_circle_witness :
  is_seq 0 /\ 0 <= 7 < 2 ^ 30 /\ Distance 0x7FFFFFFF (Add 0x7FFFFFFF 7) = 7.
Proof.
  split; [unfold is_seq; lia|split; [lia|]].
  apply (seq_arith_circle 0x7FFFFFFF 7); [unfold is_seq|]; lia.
Defined.

(** The magnitude of a distance can exceed [Threshold] (the bound the
    method's documentation gives): the two numbers half a circle apart are
    [Threshold + 1] away from each other. *)
Theorem seq_distance_exceeds_threshold :
  Distance 0 (Threshold + 1) = - (Threshold + 1) /\ Distance (Threshold + 1) 0 = Threshold + 1.
Proof. by vm_compute. Qed.

End Seq.
