(* ===== verification/Packet.v ===== *)
(** * SRT packets ([internal/packet/header.go], [packet.go], [owned.go])

    The 16-byte header codec, packets with their payload, the CIF interface
    and the ACK, NAK, SHUTDOWN and DROPREQ control information fields.
    The handshake CIF is in [Cif.v].

    [net.Addr] is modelled by the implementations the sources inspect.  The
    buffer pool ([sync.Pool]) only recycles memory: [getBuffer] always yields
    an empty slice, so a packet keeps the bytes it owns ([pooled]) and
    [Release] forgets them. *)
From Stdlib Require Import ZArith Lia.
From stdpp Require Import base numbers list option.
From S2P Require Import Prelude Seq.
Local Open Scope Z_scope.

Module Packet.

(** ** Constants *)

Definition HeaderSize : nat := 16.
Definition WireHeaderSize : Z := 44.
Definition MaxPayloadSize : Z := 1456.

Definition CtrlTypeHandshake : Z := 0x0000.
Definition CtrlTypeKeepalive : Z := 0x0001.
Definition CtrlTypeACK : Z := 0x0002.
Definition CtrlTypeNAK : Z := 0x0003.
Definition CtrlTypeWarn : Z := 0x0004.
Definition CtrlTypeShutdown : Z := 0x0005.
Definition CtrlTypeACKACK : Z := 0x0006.
Definition CtrlTypeDropReq : Z := 0x0007.
Definition CtrlTypePeerError : Z := 0x0008.
Definition CtrlTypeUser : Z := 0x7FFF.

Definition SubTypeNone : Z := 0.
Definition ExtTypeHSReq : Z := 1.
Definition ExtTypeHSRsp : Z := 2.
Definition ExtTypeKMReq : Z := 3.
Definition ExtTypeKMRsp : Z := 4.
Definition ExtTypeSID : Z := 5.
Definition ExtTypeCongestion : Z := 6.
Definition ExtTypeFilter : Z := 7.
Definition ExtTypeGroup : Z := 8.

Definition PositionMiddle : Z := 0.
Definition PositionLast : Z := 1.
Definition PositionFirst : Z := 2.
Definition PositionSingle : Z := 3.

Definition EncryptionNone : Z := 0.
Definition EncryptionEven : Z := 1.
Definition EncryptionOdd : Z := 2.
Definition EncryptionBoth : Z := 3.

(** ** Headers and packets *)

Inductive NetAddr : Type :=
| UDPAddr (ip : list Z) (port : Z)
| TCPAddr (ip : list Z) (port : Z)
| OtherAddr.

Record Header : Type := mkHeader {
  Addr : option NetAddr;
  IsControl : bool;
  ControlType : Z;
  SubType : Z;
  TypeSpecific : Z;
  SequenceNumber : Z;
  PacketPosition : Z;
  Order : bool;
  Encryption : Z;
  Retransmitted : bool;
  MessageNumber : Z;
  Timestamp : Z;
  DestinationSocketID : Z
}.

#[global] Instance eta_hdr : Eta Header := fun r =>
  mkHeader (Addr r) (IsControl r) (ControlType r) (SubType r) (TypeSpecific r) (SequenceNumber r) (PacketPosition r)
    (Order r) (Encryption r) (Retransmitted r) (MessageNumber r) (Timestamp r) (DestinationSocketID r).
#[global] Instance fld_hdr_SubType : Field SubType. Proof. derive_field. Defined.
#[global] Instance fld_hdr_TypeSpecific : Field TypeSpecific. Proof. derive_field. Defined.
#[global] Instance fld_hdr_SequenceNumber : Field SequenceNumber. Proof. derive_field. Defined.
#[global] Instance fld_hdr_PacketPosition : Field PacketPosition. Proof. derive_field. Defined.
#[global] Instance fld_hdr_Order : Field Order. Proof. derive_field. Defined.
#[global] Instance fld_hdr_Encryption : Field Encryption. Proof. derive_field. Defined.
#[global] Instance fld_hdr_Retransmitted : Field Retransmitted. Proof. derive_field. Defined.
#[global] Instance fld_hdr_MessageNumber : Field MessageNumber. Proof. derive_field. Defined.

Definition zeroHeader : Header := mkHeader None false 0 0 0 0 0 false 0 false 0 0 0.

Record Packet : Type := mkPacket {
  Hdr : Header;
  Data : list Z;
  pooled : option (list Z)
}.

#[global] Instance eta_packet : Eta Packet := fun r => mkPacket (Hdr r) (Data r) (pooled r).
#[global] Instance fld_packet_Hdr : Field Hdr. Proof. derive_field. Defined.
#[global] Instance fld_packet_Data : Field Data. Proof. derive_field. Defined.

Definition zeroPacket : Packet := mkPacket zeroHeader [] None.

(** [ErrFuel] and [ErrIndex] are not errors of the program: a loop of the model out of
    fuel, and an index or slice expression out of range, which panics. *)
Inductive PacketError : Type :=
| ErrHeaderTooShort (n : Z)
| ErrDataTooShort (n : Z)
| ErrBufferTooSmall (have needed : Z)
| ErrACKTooShort (n : Z)
| ErrNAKRangeIncomplete
| ErrNAKTooLarge (n : Z)
| ErrFuel
| ErrIndex
| ErrDropReqTooShort (n : Z)
| ErrHandshakeTooShort (n : Z)
| ErrEncryptionField (v : Z)
| ErrExtTruncated (ext have need : Z)
| ErrExtDuplicate (ext : Z)
| ErrHSLength (n : Z)
| ErrSIDTooLong (n : Z)
| ErrKMTooShort (n : Z)
| ErrKMVersion (v : Z)
| ErrKMPacketType (v : Z)
| ErrKMSign (v : Z)
| ErrKMNoKey
| ErrKMCipher (v : Z)
| ErrKMAuth (v : Z)
| ErrKMEncapsulation (v : Z)
| ErrKMKeyLength (v : Z)
| ErrKMSaltLength (v : Z)
| ErrKMSaltShort
| ErrKMWrapShort
| ErrKMLength (have expected : Z)
| ErrNilPointer.

(** ** The header codec *)

(** [Header.Marshal] writes the first 16 bytes of [buf]; a shorter buffer is
    an index panic ([None]). *)
Definition dataField (h : Header) : Z :=
  let field := Z.shiftl (Z.land (PacketPosition h) 3) 30 in
  let field := if Order h then Z.lor field (Z.shiftl 1 29) else field in
  let field := Z.lor field (Z.shiftl (Z.land (Encryption h) 3) 27) in
  let field := if Retransmitted h then Z.lor field (Z.shiftl 1 26) else field in
  Z.lor field (Z.land (MessageNumber h) 0x03FFFFFF).

Definition Header_Marshal (h : Header) (buf : list Z) : option (list Z) :=
  if len buf <? 16 then None else
  let buf :=
    if IsControl h then
      let buf := PutUint16 buf 0 (Z.lor (ControlType h) 0x8000) in
      let buf := PutUint16 buf 2 (SubType h) in
      PutUint32 buf 4 (TypeSpecific h)
    else
      let buf := PutUint32 buf 0 (Z.land (SequenceNumber h) 0x7FFFFFFF) in
      PutUint32 buf 4 (dataField h) in
  let buf := PutUint32 buf 8 (Timestamp h) in
  Some (PutUint32 buf 12 (DestinationSocketID h)).

(** [Header.Unmarshal] overwrites the fields of the receiver the packet kind
    has, and leaves the others. *)
Definition Header_Unmarshal (h : Header) (buf : list Z) : result PacketError Header :=
  if len buf <? Z.of_nat HeaderSize then Err (ErrHeaderTooShort (len buf)) else
  let isControl := negb (Z.land (at_ buf 0) 0x80 =? 0) in
  let ts := Uint32 buf 8 in
  let dst := Uint32 buf 12 in
  if isControl then
    Ok (mkHeader (Addr h) true
          (Z.land (Uint16 buf 0) 0x7FFF) (Uint16 buf 2) (Uint32 buf 4)
          (SequenceNumber h) (PacketPosition h) (Order h) (Encryption h) (Retransmitted h)
          (MessageNumber h) ts dst)
  else
    let field := Uint32 buf 4 in
    Ok (mkHeader (Addr h) false
          (ControlType h) (SubType h) (TypeSpecific h)
          (Z.land (Uint32 buf 0) 0x7FFFFFFF)
          (Z.land (Z.shiftr field 30) 3)
          (negb (Z.land (Z.shiftr field 29) 1 =? 0))
          (Z.land (Z.shiftr field 27) 3)
          (negb (Z.land (Z.shiftr field 26) 1 =? 0))
          (Z.land field 0x03FFFFFF) ts dst).

(** ** Packets *)

Definition getBuffer : list Z := [].

Definition New (addr : option NetAddr) : Packet :=
  let buf := getBuffer in
  mkPacket (mkHeader addr false 0 0 0 0 0 false 0 false 0 0 0) buf (Some buf).

Definition NewControl (addr : option NetAddr) (ctrlType destSocketID timestamp : Z) : Packet :=
  let p := New addr in
  mkPacket (mkHeader addr true ctrlType 0 0 0 0 false 0 false 0 timestamp destSocketID)
    (Data p) (pooled p).

Definition NewData (addr : option NetAddr) (seqNo timestamp destSocketID : Z) (payload : list Z) : Packet :=
  let buf := getBuffer ++ payload in
  mkPacket (mkHeader addr false 0 0 0 seqNo PositionSingle false 0 false 1 timestamp destSocketID)
    buf (Some buf).

Definition NewDataOwned (addr : option NetAddr) (seqNo timestamp destSocketID : Z) (owned : list Z) : Packet :=
  mkPacket (mkHeader addr false 0 0 0 seqNo PositionSingle false 0 false 1 timestamp destSocketID)
    owned (Some owned).

Definition setAddr (h : Header) (addr : option NetAddr) : Header :=
  mkHeader addr (IsControl h) (ControlType h) (SubType h) (TypeSpecific h) (SequenceNumber h)
    (PacketPosition h) (Order h) (Encryption h) (Retransmitted h) (MessageNumber h)
    (Timestamp h) (DestinationSocketID h).

Definition setRetransmitted (p : Packet) : Packet :=
  let h := Hdr p in
  mkPacket
    (mkHeader (Addr h) (IsControl h) (ControlType h) (SubType h) (TypeSpecific h) (SequenceNumber h)
       (PacketPosition h) (Order h) (Encryption h) true (MessageNumber h)
       (Timestamp h) (DestinationSocketID h))
    (Data p) (pooled p).

Definition Parse (rawdata : list Z) (addr : option NetAddr) : result PacketError Packet :=
  if len rawdata <? Z.of_nat HeaderSize then Err (ErrDataTooShort (len rawdata)) else
  h ← Header_Unmarshal (setAddr zeroHeader addr) (slice 0 HeaderSize rawdata);
  let payload := slice_from HeaderSize rawdata in
  if len payload >? 0 then
    let buf := getBuffer ++ payload in Ok (mkPacket h buf (Some buf))
  else Ok (mkPacket h [] None).

(** [Packet.Marshal] fills the front of the caller's buffer and returns the
    number of bytes written. *)
Definition Packet_Marshal (p : Packet) (buf : list Z) : result PacketError (Z * list Z) :=
  let needed := Z.of_nat HeaderSize + len (Data p) in
  if len buf <? needed then Err (ErrBufferTooSmall (len buf) needed) else
  match Header_Marshal (Hdr p) (slice 0 HeaderSize buf) with
  | None => Err (ErrBufferTooSmall (len buf) needed)
  | Some hdr => Ok (needed, copy_at (copy_at buf 0 hdr) HeaderSize (Data p))
  end.

Definition MarshalTo (p : Packet) : result PacketError (list Z) :=
  '(_, buf) ← Packet_Marshal p (make (HeaderSize + length (Data p)));
  Ok buf.

Definition Release (p : Packet) : Packet :=
  match pooled p with
  | Some _ => mkPacket (Hdr p) [] None
  | None => p
  end.

Definition Clone (p : Packet) : Packet :=
  let buf := getBuffer ++ Data p in mkPacket (Hdr p) buf (Some buf).

Definition SetData (p : Packet) (data : list Z) : Packet :=
  match pooled p with
  | Some b => let b := slice 0 0 b ++ data in mkPacket (Hdr p) b (Some b)
  | None => let buf := getBuffer ++ data in mkPacket (Hdr p) buf (Some buf)
  end.

Definition Len (p : Packet) : Z := len (Data p).

(** ** Lemmas on the header codec *)

Lemma mask_3 a : Z.land a 3 = a mod 2 ^ 2.
Proof. by apply (land_ones_mod a 2). Qed.
Lemma mask_1 a : Z.land a 1 = a mod 2 ^ 1.
Proof. by apply (land_ones_mod a 1). Qed.
Lemma mask_26 a : Z.land a 0x03FFFFFF = a mod 2 ^ 26.
Proof. by apply (land_ones_mod a 26). Qed.
Lemma mask_31 a : Z.land a 0x7FFFFFFF = a mod 2 ^ 31.
Proof. by apply (land_ones_mod a 31). Qed.
Lemma mask_15 a : Z.land a 0x7FFF = a mod 2 ^ 15.
Proof. by apply (land_ones_mod a 15). Qed.

(** The second data word is the sum of its bit fields. *)
Definition field_sum (pos : Z) (order : bool) (enc : Z) (rexmit : bool) (msg : Z) : Z :=
  pos * 2 ^ 30 + Z.b2z order * 2 ^ 29 + enc * 2 ^ 27 + Z.b2z rexmit * 2 ^ 26 + msg.

Lemma dataField_sum h :
  dataField h =
    field_sum (PacketPosition h mod 2 ^ 2) (Order h) (Encryption h mod 2 ^ 2) (Retransmitted h)
      (MessageNumber h mod 2 ^ 26).
Proof.
  unfold dataField, field_sum. rewrite !mask_3, mask_26.
  pose proof (Z.mod_pos_bound (PacketPosition h) (2 ^ 2)).
  pose proof (Z.mod_pos_bound (Encryption h) (2 ^ 2)).
  pose proof (Z.mod_pos_bound (MessageNumber h) (2 ^ 26)).
  destruct (Order h), (Retransmitted h); simpl Z.b2z; rewrite <- ?Z.lor_assoc;
    rewrite ?(lor_shiftl_add _ _ 26) by lia; rewrite (lor_shiftl_add _ _ 27) by lia;
    rewrite ?(lor_shiftl_add _ _ 29) by lia; rewrite (lor_shiftl_add _ _ 30) by lia; lia.
Qed.

Lemma testbit_flag v n : 0 <= n -> negb (Z.land (Z.shiftr v n) 1 =? 0) = ((v / 2 ^ n) mod 2 =? 1).
Proof.
  intros. rewrite mask_1, Z.shiftr_div_pow2 by done. change (2 ^ 1) with 2.
  pose proof (Z.mod_pos_bound (v / 2 ^ n) 2). zcase; simpl; lia.
Qed.

Lemma field_sum_inv pos order enc rexmit msg v :
  0 <= pos < 4 -> 0 <= enc < 4 -> 0 <= msg < 2 ^ 26 -> v = field_sum pos order enc rexmit msg ->
  is_u32 v /\
  Z.land (Z.shiftr v 30) 3 = pos /\ negb (Z.land (Z.shiftr v 29) 1 =? 0) = order /\
  Z.land (Z.shiftr v 27) 3 = enc /\ negb (Z.land (Z.shiftr v 26) 1 =? 0) = rexmit /\
  Z.land v 0x03FFFFFF = msg.
Proof.
  intros Hp He Hm ->. rewrite !testbit_flag, !mask_3, mask_26, !Z.shiftr_div_pow2 by lia.
  unfold field_sum, is_u32.
  destruct order, rexmit; simpl Z.b2z; split_and!; try (zcase; try done); zdm.
Qed.

Lemma field_sum_surj v :
  is_u32 v ->
  field_sum (Z.land (Z.shiftr v 30) 3) (negb (Z.land (Z.shiftr v 29) 1 =? 0))
    (Z.land (Z.shiftr v 27) 3) (negb (Z.land (Z.shiftr v 26) 1 =? 0)) (Z.land v 0x03FFFFFF) = v.
Proof.
  intros Hv. rewrite !testbit_flag, !mask_3, mask_26, !Z.shiftr_div_pow2 by lia.
  unfold field_sum, is_u32 in *.
  destruct (Z.eqb_spec ((v / 2 ^ 29) mod 2) 1), (Z.eqb_spec ((v / 2 ^ 26) mod 2) 1); simpl Z.b2z; zdm.
Qed.

(** Projections of explicit headers and packets. *)
Ltac hdr_simpl :=
  cbn [Addr IsControl ControlType SubType TypeSpecific SequenceNumber PacketPosition Order Encryption
       Retransmitted MessageNumber Timestamp DestinationSocketID Hdr Data pooled setAddr zeroHeader negb] in *.

(** What the header encoder writes. *)
Definition header_bytes (h : Header) : list Z :=
  (if IsControl h then
     be16 (Z.lor (ControlType h) 0x8000) ++ be16 (SubType h) ++ be32 (TypeSpecific h)
   else be32 (Z.land (SequenceNumber h) 0x7FFFFFFF) ++ be32 (dataField h))
  ++ be32 (Timestamp h) ++ be32 (DestinationSocketID h).

Lemma Header_Marshal_bytes h buf :
  (16 <= length buf)%nat -> Header_Marshal h buf = Some (header_bytes h ++ drop 16 buf).
Proof.
  intros H. unfold Header_Marshal, len.
  destruct (Z.ltb_spec (Z.of_nat (length buf)) 16); [lia|].
  do 16 (destruct buf as [|? buf]; [simpl in H; lia|]). f_equal. unfold header_bytes. destruct (IsControl h); reflexivity.
Qed.

Lemma header_bytes_length h : length (header_bytes h) = 16%nat.
Proof. unfold header_bytes. by destruct (IsControl h). Qed.

Lemma header_bytes_ok h : bytes_ok (header_bytes h).
Proof.
  unfold header_bytes. destruct (IsControl h); rewrite !bytes_ok_app; auto with go.
Qed.

(** A header whose fields are within their bit widths and whose other-kind
    fields are unset, as [New], [NewControl], [NewData] and [Parse] build it. *)
Definition Header_ok (h : Header) : Prop :=
  is_u32 (Timestamp h) /\ is_u32 (DestinationSocketID h) /\
  if IsControl h then
    0 <= ControlType h < 2 ^ 15 /\ is_u16 (SubType h) /\ is_u32 (TypeSpecific h) /\
    SequenceNumber h = 0 /\ PacketPosition h = 0 /\ Order h = false /\ Encryption h = 0 /\
    Retransmitted h = false /\ MessageNumber h = 0
  else
    ControlType h = 0 /\ SubType h = 0 /\ TypeSpecific h = 0 /\
    Seq.is_seq (SequenceNumber h) /\ 0 <= PacketPosition h < 4 /\ 0 <= Encryption h < 4 /\
    0 <= MessageNumber h < 2 ^ 26.

#[export] Instance Header_ok_dec h : Decision (Header_ok h).
Proof. unfold Header_ok. destruct (IsControl h); apply _. Defined.

Lemma ctrl_word_bit ct : 0 <= ct < 2 ^ 15 ->
  is_u16 (Z.lor ct 0x8000) /\ Z.land (Z.lor ct 0x8000) 0x7FFF = ct /\
  Z.land (u8 (Z.shiftr (Z.lor ct 0x8000) 8)) 0x80 <> 0.
Proof.
  intros. rewrite Z.lor_comm. change 0x8000 with (Z.shiftl 1 15).
  rewrite lor_shiftl_add, mask_15 by lia. unfold is_u16. split_and!; [lia|lia|zdm|].
  rewrite Z.shiftr_div_pow2 by lia. intros Hz.
  assert (Z.testbit (Z.land (u8 ((1 * 2 ^ 15 + ct) / 2 ^ 8)) 0x80) 7 = true) as Ht; [|by rewrite Hz in Ht].
  rewrite Z.land_spec. change (Z.testbit 0x80 7) with true. rewrite andb_true_r.
  unfold u8. rewrite Z.mod_pow2_bits_low by lia. rewrite Z.testbit_true by lia. zdm.
Qed.

Lemma data_word_bit v : Seq.is_seq v -> Z.land (u8 (Z.shiftr v 24)) 0x80 = 0.
Proof.
  unfold Seq.is_seq. intros. rewrite Z.shiftr_div_pow2 by lia.
  apply Z.bits_inj'. intros i Hi. rewrite Z.land_spec, Z.bits_0.
  change 0x80 with (2 ^ 7). rewrite Z.pow2_bits_eqb by lia.
  destruct (Z.eqb_spec 7 i) as [<-|]; [|apply andb_false_r]. rewrite andb_true_r.
  apply (testbit_small _ 7); [|lia]. unfold u8. zdm.
Qed.

(** Decoding an encoded header, followed by anything, gives the header back. *)
Lemma Header_Unmarshal_bytes h rest :
  Header_ok h ->
  Header_Unmarshal (setAddr zeroHeader (Addr h)) (header_bytes h ++ rest) = Ok h.
Proof.
  intros (Hts & Hdst & H). unfold Header_Unmarshal.
  assert ((len (header_bytes h ++ rest) <? Z.of_nat HeaderSize) = false) as ->.
  { unfold len, HeaderSize. rewrite length_app, header_bytes_length. zbool. lia. }
  destruct h as [addr ctl ct st tsp sq pos ord enc rex msg ts dst].
  unfold Header_ok, header_bytes in *. hdr_simpl.
  destruct ctl; read_bytes; hdr_simpl.
  - destruct H as (Hct & Hst & Htsp & -> & -> & -> & -> & -> & ->).
    destruct (ctrl_word_bit ct Hct) as (Hw & Hl & Hb).
    rewrite (proj2 (Z.eqb_neq _ _) Hb). hdr_simpl.
    by rewrite !word16_be16, !word32_be32, Hl by done.
  - destruct H as (-> & -> & -> & Hsq & Hpos & Henc & Hmsg).
    assert (Z.land sq 0x7FFFFFFF = sq) as Hland by (rewrite mask_31; by apply Z.mod_small).
    rewrite Hland, data_word_bit, dataField_sum by done. hdr_simpl.
    rewrite !(Z.mod_small _ _ Hmsg), (Z.mod_small pos), (Z.mod_small enc) by done.
    destruct (field_sum_inv pos ord enc rex msg _ Hpos Henc Hmsg eq_refl)
      as (Hf & H1 & H2 & H3 & H4 & H5).
    assert (is_u32 sq) by (unfold is_u32, Seq.is_seq in *; lia).
    by rewrite !word32_be32, H1, H2, H3, H4, H5, Hland by done.
Qed.

(** Encoding a decoded header gives its 16 bytes back. *)
Lemma header_bytes_Unmarshal h0 buf h :
  bytes_ok buf -> length buf = 16%nat -> Header_Unmarshal h0 buf = Ok h ->
  header_bytes h = buf.
Proof.
  intros Hb Hl. unfold Header_Unmarshal, len. rewrite Hl. change (_ <? _) with false. cbv iota.
  do 16 (destruct buf as [|? buf]; [done|]). destruct buf; [|done]. clear Hl.
  split_bytes.
  read_bytes. change 0x80 with (2 ^ 7). rewrite (land_pow2_eqb z 7), negb_involutive by done.
  destruct (Z.testbit z 7) eqn:E.
  - intros H'%Ok_inj. subst h. unfold header_bytes. hdr_simpl.
    assert (Z.lor (Z.land (word16 z z0) 0x7FFF) 0x8000 = word16 z z0) as ->.
    { rewrite Z.lor_comm. change 0x8000 with (Z.shiftl 1 15).
      rewrite mask_15, lor_shiftl_add by (try apply Z.mod_pos_bound; done).
      rewrite word16_add by done. rewrite Z.testbit_true in E by lia. unfold is_u8 in *. zdm. }
    rewrite !be16_word16, !be32_word32 by done. done.
  - intros H'%Ok_inj. subst h. unfold header_bytes. hdr_simpl.
    assert (Z.land (Z.land (word32 z z0 z1 z2) 0x7FFFFFFF) 0x7FFFFFFF = word32 z z0 z1 z2) as ->.
    { rewrite mask_31, mask_31, Z.mod_mod by lia. apply Z.mod_small.
      rewrite word32_add by done. rewrite Z.testbit_false in E by lia. unfold is_u8 in *. zdm. }
    rewrite dataField_sum. hdr_simpl.
    rewrite !mask_3, mask_26, !Z.mod_mod, <- !mask_3, <- mask_26 by lia.
    rewrite field_sum_surj by auto with go.
    rewrite !be32_word32 by done. done.
Qed.

(** What [Packet.Marshal] writes in a buffer that is large enough. *)
Lemma Packet_Marshal_bytes p buf :
  16 + len (Data p) <= len buf ->
  Packet_Marshal p buf =
    Ok (16 + len (Data p),
        header_bytes (Hdr p) ++ Data p ++ drop (16 + length (Data p)) buf).
Proof.
  unfold len. intros H. unfold Packet_Marshal, len, HeaderSize.
  change (Z.of_nat 16) with 16. destruct (Z.ltb_spec (Z.of_nat (length buf)) (16 + Z.of_nat (length (Data p)))); [lia|].
  rewrite Header_Marshal_bytes by (unfold slice; rewrite length_take, length_drop; lia).
  unfold slice. change (16 - 0)%nat with 16%nat. rewrite (drop_ge (take _ _)), app_nil_r by (rewrite length_take; lia).
  f_equal. f_equal. pose proof (header_bytes_length (Hdr p)) as Hl.
  rewrite (copy_at_fit buf 0) by (rewrite Hl; lia). change (take 0 buf) with (@nil Z).
  rewrite app_nil_l, Hl. change (0 + 16)%nat with 16%nat.
  rewrite copy_at_fit by (rewrite length_app, length_drop, Hl; lia).
  rewrite take_app_le, take_ge, drop_app_ge, drop_drop by (rewrite Hl; lia).
  rewrite Hl. do 3 f_equal. lia.
Qed.

Lemma MarshalTo_bytes p : MarshalTo p = Ok (header_bytes (Hdr p) ++ Data p).
Proof.
  unfold MarshalTo. rewrite Packet_Marshal_bytes by (unfold len, make, HeaderSize; rewrite length_replicate; lia).
  unfold mbind, result_bind. f_equal. rewrite drop_ge, app_nil_r; [done|].
  unfold make, HeaderSize. rewrite length_replicate. lia.
Qed.

(** [Parse] splits the datagram at byte 16. *)
Lemma Parse_split hdr data addr :
  length hdr = 16%nat ->
  Parse (hdr ++ data) addr =
    (h ← Header_Unmarshal (setAddr zeroHeader addr) hdr;
     Ok (mkPacket h data (match data with [] => None | _ => Some data end))).
Proof.
  intros Hl. unfold Parse, slice, slice_from, HeaderSize, len.
  rewrite length_app, Hl. change (Z.of_nat 16) with 16.
  destruct (Z.ltb_spec (Z.of_nat (16 + length data)) 16); [lia|].
  change (16 - 0)%nat with 16%nat. change (drop 0 (hdr ++ data)) with (hdr ++ data).
  rewrite take_app_le, take_ge, drop_app_ge, Hl, Nat.sub_diag, drop_0 by lia.
  unfold mbind, result_bind. destruct (Header_Unmarshal _ hdr); [|done].
  by destruct data.
Qed.

(** ** Properties of the packet codec *)

(** C13. A well-formed packet survives the wire: [MarshalTo] yields 16 bytes
    plus the payload, and [Parse] of them is the packet again (with its payload
    in a pooled buffer exactly when it is not empty), whatever the source
    address. *)
Theorem packet_marshal_parse (p : Packet) :
  Header_ok (Hdr p) ->
  exists buf, MarshalTo p = Ok buf /\ len buf = 16 + len (Data p) /\
  Parse buf (Addr (Hdr p)) =
    Ok (mkPacket (Hdr p) (Data p) (match Data p with [] => None | _ => Some (Data p) end)).
Proof.
  intros Hok. exists (header_bytes (Hdr p) ++ Data p).
  split; [apply MarshalTo_bytes|]. pose proof (header_bytes_length (Hdr p)) as Hl.
  split; [unfold len; rewrite length_app, Hl; lia|].
  rewrite Parse_split by done.
  rewrite <- (app_nil_r (header_bytes (Hdr p))), Header_Unmarshal_bytes by done. done.
Qed.

Definition witnessPacket : Packet :=
  mkPacket (mkHeader None false 0 0 0 0x7FFFFFFF 3 true 2 true 0x3FFFFFF 0xFFFFFFFF 77) [1; 2; 3] None.

Lemma packet_marshal_parse_witness :
  exists buf, MarshalTo witnessPacket = Ok buf /\ len buf = 19 /\
  Parse buf None = Ok (mkPacket (Hdr witnessPacket) [1; 2; 3] (Some [1; 2; 3])).
Proof. apply (packet_marshal_parse witnessPacket). vm_compute. intuition congruence. Defined.

(** The header codec loses nothing: every datagram of at least 16 bytes
    parses, and re-encoding the parsed packet reproduces it byte for byte. *)
Theorem packet_parse_marshal (raw : list Z) (addr : option NetAddr) :
  bytes_ok raw -> 16 <= len raw ->
  exists p, Parse raw addr = Ok p /\ MarshalTo p = Ok raw.
Proof.
  intros Hb Hl. unfold len in Hl.
  assert (length (take 16 raw) = 16%nat) as Hh by (rewrite length_take; lia).
  rewrite <- (take_drop 16 raw) in Hb |- *. apply bytes_ok_app in Hb as [Hb1 Hb2].
  rewrite Parse_split by done.
  destruct (Header_Unmarshal (setAddr zeroHeader addr) (take 16 raw)) as [h|e] eqn:E.
  - eexists. split; [done|]. rewrite MarshalTo_bytes. hdr_simpl.
    by rewrite (header_bytes_Unmarshal _ _ _ Hb1 Hh E).
  - exfalso. revert E. unfold Header_Unmarshal, len. rewrite Hh.
    change (_ <? _) with false. cbv iota. by destruct (negb _).
Qed.

Lemma packet_parse_marshal_witness :
  exists p, Parse ([0x80; 2; 0; 0] ++ replicate 12 7 ++ [9]) None = Ok p /\
            MarshalTo p = Ok ([0x80; 2; 0; 0] ++ replicate 12 7 ++ [9]).
Proof.
  apply (packet_parse_marshal ([0x80; 2; 0; 0] ++ replicate 12 7 ++ [9]) None).
  - apply (bool_decide_unpack _). vm_compute. exact I.
  - vm_compute. discriminate.
Defined.

End Packet.
