(* ===== verification/Control.v ===== *)
(** * Control information fields ([internal/packet/packet.go])

    The [CIF] interface as a type class with the law its users rely on (a
    marshalled CIF decodes to itself), the packet methods that go through the
    interface, and the ACK, NAK, SHUTDOWN and DROPREQ fields as its instances.
    The handshake field is in [Cif.v]. *)
From Stdlib Require Import ZArith Lia.
From stdpp Require Import base numbers list option.
From S2P Require Import Prelude Seq Packet.
Local Open Scope Z_scope.

Module Control.
Import Packet.

(** ** The CIF interface *)

(** [MarshalCIF] may normalise its receiver; [UnmarshalCIF] updates it. *)
Class CIF (C : Type) : Type := {
  zeroCIF : C;
  MarshalCIF : C -> C * result PacketError (list Z);
  UnmarshalCIF : C -> list Z -> result PacketError C
}.

(** What a component that sends a CIF promises to the one that receives it. *)
Class CIFLaws (C : Type) `{CIF C} : Type := {
  CIF_ok : C -> Prop;
  CIF_roundtrip : forall c, CIF_ok c ->
    exists c' data, MarshalCIF c = (c', Ok data) /\ UnmarshalCIF zeroCIF data = Ok c'
}.

Definition Packet_MarshalCIF {C} `{CIF C} (p : Packet) (c : C) : C * result PacketError Packet :=
  match MarshalCIF c with
  | (c', Ok data) => (c', Ok (SetData p data))
  | (c', Err e) => (c', Err e)
  end.

Definition Packet_UnmarshalCIF {C} `{CIF C} (p : Packet) (c : C) : result PacketError C :=
  UnmarshalCIF c (Data p).

(** ** ACK *)

Record CIFACK : Type := mkACK {
  LastACKPacketSequenceNumber : Z;
  RTT : Z;
  RTTVariance : Z;
  AvailableBufferSize : Z;
  PacketsReceivingRate : Z;
  EstimatedLinkCapacity : Z;
  ReceivingRate : Z
}.

Definition CIFACK_MarshalCIF (c : CIFACK) : list Z :=
  let buf := make 28 in
  let buf := PutUint32 buf 0 (LastACKPacketSequenceNumber c) in
  let buf := PutUint32 buf 4 (RTT c) in
  let buf := PutUint32 buf 8 (RTTVariance c) in
  let buf := PutUint32 buf 12 (AvailableBufferSize c) in
  let buf := PutUint32 buf 16 (PacketsReceivingRate c) in
  let buf := PutUint32 buf 20 (EstimatedLinkCapacity c) in
  PutUint32 buf 24 (ReceivingRate c).

Definition MarshalSmallCIF (c : CIFACK) : list Z :=
  let buf := make 16 in
  let buf := PutUint32 buf 0 (LastACKPacketSequenceNumber c) in
  let buf := PutUint32 buf 4 (RTT c) in
  let buf := PutUint32 buf 8 (RTTVariance c) in
  PutUint32 buf 12 (AvailableBufferSize c).

Definition MarshalUDTBaseCIF (c : CIFACK) : list Z :=
  let buf := make 24 in
  let buf := PutUint32 buf 0 (LastACKPacketSequenceNumber c) in
  let buf := PutUint32 buf 4 (RTT c) in
  let buf := PutUint32 buf 8 (RTTVariance c) in
  let buf := PutUint32 buf 12 (AvailableBufferSize c) in
  let buf := PutUint32 buf 16 (PacketsReceivingRate c) in
  PutUint32 buf 20 (EstimatedLinkCapacity c).

Definition MarshalV102CIF (c : CIFACK) (xmRate : Z) : list Z :=
  let buf := make 32 in
  let buf := PutUint32 buf 0 (LastACKPacketSequenceNumber c) in
  let buf := PutUint32 buf 4 (RTT c) in
  let buf := PutUint32 buf 8 (RTTVariance c) in
  let buf := PutUint32 buf 12 (AvailableBufferSize c) in
  let buf := PutUint32 buf 16 (PacketsReceivingRate c) in
  let buf := PutUint32 buf 20 (EstimatedLinkCapacity c) in
  let buf := PutUint32 buf 24 (ReceivingRate c) in
  PutUint32 buf 28 xmRate.

Definition CIFACK_UnmarshalCIF (c : CIFACK) (data : list Z) : result PacketError CIFACK :=
  if len data <? 4 then Err (ErrACKTooShort (len data)) else
  let c := mkACK (Uint32 data 0) (RTT c) (RTTVariance c) (AvailableBufferSize c)
             (PacketsReceivingRate c) (EstimatedLinkCapacity c) (ReceivingRate c) in
  let c :=
    if len data >=? 16 then
      mkACK (LastACKPacketSequenceNumber c) (Uint32 data 4) (Uint32 data 8) (Uint32 data 12)
        (PacketsReceivingRate c) (EstimatedLinkCapacity c) (ReceivingRate c)
    else c in
  let c :=
    if len data >=? 28 then
      mkACK (LastACKPacketSequenceNumber c) (RTT c) (RTTVariance c) (AvailableBufferSize c)
        (Uint32 data 16) (Uint32 data 20) (Uint32 data 24)
    else c in
  Ok c.

(** ** NAK *)

Record CIFNAK : Type := mkNAK { LossList : list Z }.

(** The inner loop of the encoder: extend the range from [end_] while the next
    number of the list is its successor (in [uint32] arithmetic). *)
Fixpoint nak_range (end_ : Z) (rest : list Z) : Z * list Z :=
  match rest with
  | x :: rest' => if x =? u32 (end_ + 1) then nak_range x rest' else (end_, rest)
  | [] => (end_, [])
  end.

(** The outer loop; each pass consumes at least one number, so the length of
    the list is enough fuel. *)
Fixpoint nak_encode (fuel : nat) (l : list Z) : list Z :=
  match fuel, l with
  | S fuel', start :: rest =>
      let '(end_, rest') := nak_range start rest in
      (if start =? end_ then [Z.land start 0x7FFFFFFF]
       else [Z.lor start 0x80000000; Z.land end_ 0x7FFFFFFF])
      ++ nak_encode fuel' rest'
  | _, _ => []
  end.

Definition CIFNAK_MarshalCIF (c : CIFNAK) : list Z :=
  concat (map be32 (nak_encode (length (LossList c)) (LossList c))).

(** Expansion of a range, appending to the loss list; more than 8192 entries is
    an error, so 8194 steps are enough whatever the peer sends. *)
Definition nakLimit : Z := 8192.

Fixpoint nak_expand (fuel : nat) (seq stop : Z) (acc : list Z) : result PacketError (list Z) :=
  match fuel with
  | O => Err ErrFuel
  | S fuel' =>
      if seq =? stop then Ok acc else
      let acc := acc ++ [seq] in
      if len acc >? nakLimit then Err (ErrNAKTooLarge (len acc)) else
      nak_expand fuel' (Z.land (u32 (seq + 1)) 0x7FFFFFFF) stop acc
  end.

Fixpoint nak_decode (acc data : list Z) {struct data} : result PacketError (list Z) :=
  match data with
  | b0 :: b1 :: b2 :: b3 :: rest =>
      let val := word32 b0 b1 b2 b3 in
      if negb (Z.land val 0x80000000 =? 0) then
        match rest with
        | c0 :: c1 :: c2 :: c3 :: rest' =>
            let start := Z.land val 0x7FFFFFFF in
            let end_ := Z.land (word32 c0 c1 c2 c3) 0x7FFFFFFF in
            acc ← nak_expand (Z.to_nat (nakLimit + 2)) start (Z.land (u32 (end_ + 1)) 0x7FFFFFFF) acc;
            nak_decode acc rest'
        | _ => Err ErrNAKRangeIncomplete
        end
      else nak_decode (acc ++ [val]) rest
  | _ => Ok acc
  end.

Definition CIFNAK_UnmarshalCIF (c : CIFNAK) (data : list Z) : result PacketError CIFNAK :=
  l ← nak_decode [] data; Ok (mkNAK l).

(** ** SHUTDOWN and DROPREQ *)

Record CIFShutdown : Type := mkShutdown {}.

Record CIFDropReq : Type := mkDropReq { FirstSeqNo : Z; LastSeqNo : Z }.

Definition CIFDropReq_MarshalCIF (c : CIFDropReq) : list Z :=
  let buf := make 8 in
  let buf := PutUint32 buf 0 (FirstSeqNo c) in
  PutUint32 buf 4 (LastSeqNo c).

Definition CIFDropReq_UnmarshalCIF (c : CIFDropReq) (data : list Z) : result PacketError CIFDropReq :=
  if len data <? 8 then Err (ErrDropReqTooShort (len data)) else
  Ok (mkDropReq (Uint32 data 0) (Uint32 data 4)).

#[export] Instance CIFACK_CIF : CIF CIFACK := {
  zeroCIF := mkACK 0 0 0 0 0 0 0;
  MarshalCIF c := (c, Ok (CIFACK_MarshalCIF c));
  UnmarshalCIF := CIFACK_UnmarshalCIF
}.
#[export] Instance CIFNAK_CIF : CIF CIFNAK := {
  zeroCIF := mkNAK [];
  MarshalCIF c := (c, Ok (CIFNAK_MarshalCIF c));
  UnmarshalCIF := CIFNAK_UnmarshalCIF
}.
#[export] Instance CIFShutdown_CIF : CIF CIFShutdown := {
  zeroCIF := mkShutdown;
  MarshalCIF c := (c, Ok []);
  UnmarshalCIF c _ := Ok c
}.
#[export] Instance CIFDropReq_CIF : CIF CIFDropReq := {
  zeroCIF := mkDropReq 0 0;
  MarshalCIF c := (c, Ok (CIFDropReq_MarshalCIF c));
  UnmarshalCIF := CIFDropReq_UnmarshalCIF
}.

(** ** Lemmas on the NAK codec *)

Lemma land_31_seq v : Seq.is_seq v -> Z.land v 0x7FFFFFFF = v.
Proof. intros. rewrite mask_31. by apply Z.mod_small. Qed.

Lemma land_u32_31 v : Z.land (u32 v) 0x7FFFFFFF = v mod 2 ^ 31.
Proof. rewrite mask_31. unfold u32. apply Z.mod_mod_divide. by exists 2. Qed.

Lemma seqZ_step m n : 0 < n -> seqZ m n = m :: seqZ (m + 1) (n - 1).
Proof. intros. rewrite seqZ_cons by done. by rewrite <- Z.add_1_r, <- Z.sub_1_r. Qed.

(** The encoder's inner loop takes the maximal run of consecutive numbers. *)
Lemma nak_range_spec e l e' rest :
  Seq.is_seq e -> Forall Seq.is_seq l -> nak_range e l = (e', rest) ->
  e <= e' /\ Seq.is_seq e' /\ l = seqZ (e + 1) (e' - e) ++ rest.
Proof.
  revert e. induction l as [|x l IH]; intros e He Hl; simpl.
  - intros [= <- <-]. rewrite Z.sub_diag. repeat split; try done; apply He.
  - apply Forall_cons_1 in Hl as [Hx Hl]. destruct (Z.eqb_spec x (u32 (e + 1))) as [Hxe|].
    + intros H. apply IH in H as (H1 & H2 & ->); [|done..].
      assert (x = e + 1) as -> by (rewrite Hxe, u32_id; unfold Seq.is_seq, is_u32 in *; lia).
      repeat split; [lia|apply H2|apply H2|].
      rewrite (seqZ_step (e + 1)) by lia. by replace (e' - e - 1) with (e' - (e + 1)) by lia.
    + intros [= <- <-]. rewrite Z.sub_diag. repeat split; try done; apply He.
Qed.

Lemma nak_range_length e l : (length (nak_range e l).2 <= length l)%nat.
Proof. revert e. induction l as [|x l IH]; intros e; simpl; [lia|]. case_match; [|simpl; lia]. etrans; [apply IH|lia]. Qed.

(** Expanding a range that fits the limit appends exactly its members. *)
Lemma nak_expand_ok n fuel s acc :
  0 <= s -> s + Z.of_nat n <= 2 ^ 31 -> len acc + Z.of_nat n <= nakLimit -> (n < fuel)%nat ->
  nak_expand fuel (s mod 2 ^ 31) ((s + Z.of_nat n) mod 2 ^ 31) acc = Ok (acc ++ seqZ s (Z.of_nat n)).
Proof.
  revert fuel s acc. induction n as [|n IH]; intros fuel s acc Hs Hn Hlen Hf; destruct fuel as [|fuel]; try lia; cbn [nak_expand].
  - rewrite Z.add_0_r, Z.eqb_refl. by rewrite app_nil_r.
  - assert (s mod 2 ^ 31 = s) as Hm by (apply Z.mod_small; lia). rewrite Hm.
    unfold nakLimit, len in *.
    assert ((s =? (s + Z.of_nat (S n)) mod 2 ^ 31) = false) as ->.
    { zbool. destruct (decide (s + Z.of_nat (S n) = 2 ^ 31)) as [E|E].
      - rewrite E, Z_mod_same_full. lia.
      - rewrite Z.mod_small; lia. }
    rewrite length_app. simpl length.
    assert ((Z.of_nat (length acc + 1) >? 8192) = false) as -> by (zbool; lia).
    rewrite land_u32_31. replace (s + Z.of_nat (S n)) with (s + 1 + Z.of_nat n) by lia.
    rewrite IH by (rewrite ?length_app; simpl; lia).
    rewrite <- app_assoc, (seqZ_step s) by lia. by replace (Z.of_nat (S n) - 1) with (Z.of_nat n) by lia.
Qed.

(** Decoding one encoded entry. *)
Lemma nak_decode_single acc v rest :
  Seq.is_seq v -> nak_decode acc (be32 v ++ rest) = nak_decode (acc ++ [v]) rest.
Proof.
  intros Hv. unfold be32. cbn [app nak_decode].
  rewrite word32_be32 by (unfold is_u32, Seq.is_seq in *; lia).
  change 0x80000000 with (2 ^ 31). rewrite land_pow2_eqb, (testbit_small v 31) by done. done.
Qed.

(** A range is expanded up to the number after its end. *)
Lemma nak_decode_expand acc s e rest :
  Seq.is_seq s -> Seq.is_seq e ->
  nak_decode acc (be32 (Z.lor s 0x80000000) ++ be32 e ++ rest) =
    (acc ← nak_expand (Z.to_nat (nakLimit + 2)) s ((e + 1) mod 2 ^ 31) acc; nak_decode acc rest).
Proof.
  unfold Seq.is_seq. intros Hs He.
  assert (Z.lor s 0x80000000 = 2 ^ 31 + s) as ->.
  { rewrite Z.lor_comm. change 0x80000000 with (Z.shiftl 1 31). rewrite lor_shiftl_add; lia. }
  unfold be32. cbn [app nak_decode]. rewrite !word32_be32 by (unfold is_u32; lia).
  change 0x80000000 with (2 ^ 31). rewrite land_pow2_eqb by done.
  assert (Z.testbit (2 ^ 31 + s) 31 = true) as -> by (rewrite Z.testbit_true by lia; zdm).
  cbn [negb]. rewrite land_u32_31, (mask_31 e), mask_31.
  replace ((2 ^ 31 + s) mod 2 ^ 31) with s by zdm. by rewrite (Z.mod_small e) by lia.
Qed.

Lemma nak_decode_range acc s e rest :
  Seq.is_seq s -> Seq.is_seq e -> s < e -> len acc + (e - s + 1) <= nakLimit ->
  nak_decode acc (be32 (Z.lor s 0x80000000) ++ be32 e ++ rest) =
    nak_decode (acc ++ seqZ s (e - s + 1)) rest.
Proof.
  intros Hs He Hlt Hlen. rewrite nak_decode_expand by done. unfold Seq.is_seq in *. rewrite <- (Z.mod_small s (2 ^ 31)) at 1 by lia.
  replace (e + 1) with (s + Z.of_nat (Z.to_nat (e - s + 1))) by lia.
  rewrite nak_expand_ok by (unfold nakLimit, len in *; lia). cbn [mbind result_bind]. by rewrite Z2Nat.id by lia.
Qed.

Lemma nak_decode_encode fuel l acc :
  Forall Seq.is_seq l -> (length l <= fuel)%nat -> len acc + len l <= nakLimit ->
  nak_decode acc (concat (map be32 (nak_encode fuel l))) = Ok (acc ++ l).
Proof.
  revert l acc. induction fuel as [|fuel IH]; intros l acc Hl Hf Hlen.
  { destruct l; [by rewrite app_nil_r|simpl in *; lia]. }
  destruct l as [|start rest]; [by rewrite app_nil_r|]. cbn [nak_encode].
  apply Forall_cons_1 in Hl as [Hs Hr].
  destruct (nak_range start rest) as [e rest'] eqn:E.
  pose proof (nak_range_length start rest) as Hle. rewrite E in Hle. simpl in Hle, Hf.
  apply nak_range_spec in E as (H1 & H2 & H3); [|done..].
  assert (start :: rest = seqZ start (e - start + 1) ++ rest') as Hall.
  { rewrite seqZ_step, H3 by lia. by replace (e - start + 1 - 1) with (e - start) by lia. }
  assert (Forall Seq.is_seq rest') as Hr' by (subst rest; by apply Forall_app in Hr as [_ ?]).
  assert (len (start :: rest) = (e - start + 1) + len rest') as Hl'.
  { rewrite Hall. unfold len. rewrite length_app, length_seqZ. lia. }
  rewrite map_app, concat_app, Hall.
  destruct (Z.eqb_spec start e) as [<-|Hne]; cbn [map concat]; rewrite app_nil_r.
  - rewrite land_31_seq, nak_decode_single by done.
    rewrite Z.sub_diag, seqZ_step, (seqZ_nil (start + 1)) by done.
    rewrite IH; [by rewrite <- app_assoc|done|lia|].
    unfold len in *. rewrite length_app. simpl in *. lia.
  - rewrite (land_31_seq e), <- app_assoc, nak_decode_range by (done || (unfold len in *; lia)).
    rewrite IH; [by rewrite <- app_assoc|done|lia|].
    unfold len in *. rewrite length_app, length_seqZ. lia.
Qed.

(** Expansion never runs out of fuel, keeps the list within the limit and
    yields sequence numbers. *)
Lemma nak_expand_safe fuel seq stop acc :
  Seq.is_seq seq -> Forall Seq.is_seq acc -> 1 <= Z.of_nat fuel -> nakLimit + 2 <= Z.of_nat fuel + len acc ->
  match nak_expand fuel seq stop acc with
  | Ok acc' => len acc' <= Z.max (len acc) nakLimit /\ Forall Seq.is_seq acc'
  | Err e => e <> ErrFuel
  end.
Proof.
  unfold nakLimit, len.
  revert seq acc. induction fuel as [|fuel IH]; intros seq acc Hs Hacc H1 H2; [lia|]. cbn [nak_expand].
  destruct (seq =? stop); [split; [lia|done]|].
  unfold nakLimit, len. rewrite length_app. simpl length.
  destruct (Z.of_nat (length acc + 1) >? 8192) eqn:E; [done|].
  rewrite Z.gtb_ltb in E. apply Z.ltb_ge in E.
  specialize (IH (Z.land (u32 (seq + 1)) 0x7FFFFFFF) (acc ++ [seq])).
  rewrite length_app in IH. simpl length in IH.
  destruct (nak_expand fuel _ stop _).
  - destruct IH as [IH1 IH2]; [|by apply Forall_app_2; auto|lia..|split; [lia|done]].
    rewrite mask_31. apply Z.mod_pos_bound. lia.
  - apply IH; [|by apply Forall_app_2; auto|lia..].
    rewrite mask_31. apply Z.mod_pos_bound. lia.
Qed.

Lemma nak_decode_safe n data acc :
  (length data <= n)%nat -> bytes_ok data -> Forall Seq.is_seq acc ->
  match nak_decode acc data with
  | Ok acc' => len acc' <= Z.max (len acc) nakLimit + len data / 4 /\ Forall Seq.is_seq acc'
  | Err e => e <> ErrFuel
  end.
Proof.
  revert data acc. induction n as [|n IH]; intros data acc Hn Hb Hacc.
  { destruct data; [|simpl in Hn; lia]. split; [|done]. change (@len Z [] / 4) with 0. lia. }
  assert (0 <= len data / 4) by (apply Z.div_pos; unfold len; lia).
  do 4 (destruct data as [|? data]; [split; [lia|done]|]).
  split_bytes. cbn [nak_decode].
  change 0x80000000 with (2 ^ 31). rewrite land_pow2_eqb, negb_involutive by done.
  destruct (Z.testbit _ 31) eqn:E.
  - do 4 (destruct data as [|? data]; [done|]). split_bytes.
    pose proof (nak_expand_safe (Z.to_nat (nakLimit + 2)) (Z.land (word32 z z0 z1 z2) 0x7FFFFFFF)
      (Z.land (u32 (Z.land (word32 z3 z4 z5 z6) 0x7FFFFFFF + 1)) 0x7FFFFFFF) acc) as Hx.
    destruct (nak_expand _ _ _ acc) as [acc'|e]; cbn [mbind result_bind].
    + destruct Hx as [Hx1 Hx2]; [rewrite mask_31; apply Z.mod_pos_bound; lia|done|unfold nakLimit, len; lia..|].
      specialize (IH data acc'). simpl in Hn. destruct (nak_decode acc' data).
      * destruct IH as [IH1 IH2]; [lia|done..|]. split; [|done].
        unfold len in *. simpl length. zdm.
      * apply IH; [lia|done..].
    + apply Hx; [rewrite mask_31; apply Z.mod_pos_bound; lia|done|unfold nakLimit, len; lia..].
  - assert (Seq.is_seq (word32 z z0 z1 z2)) as Hw.
    { rewrite word32_add in * by done. rewrite Z.testbit_false in E by lia.
      unfold Seq.is_seq, is_u8 in *. zdm. }
    specialize (IH data (acc ++ [word32 z z0 z1 z2])). simpl in Hn.
    destruct (nak_decode _ data).
    + destruct IH as [IH1 IH2]; [lia|done|by apply Forall_app_2; auto|]. split; [|done].
      unfold len in *. rewrite length_app in IH1. simpl length in *. zdm.
    + apply IH; [lia|done|by apply Forall_app_2; auto].
Qed.

(** ** The instances satisfy the interface *)

Definition CIFACK_ok (c : CIFACK) : Prop :=
  is_u32 (LastACKPacketSequenceNumber c) /\ is_u32 (RTT c) /\ is_u32 (RTTVariance c) /\
  is_u32 (AvailableBufferSize c) /\ is_u32 (PacketsReceivingRate c) /\
  is_u32 (EstimatedLinkCapacity c) /\ is_u32 (ReceivingRate c).

Lemma CIFACK_decode c0 c :
  CIFACK_ok c -> CIFACK_UnmarshalCIF c0 (CIFACK_MarshalCIF c) = Ok c.
Proof.
  intros (? & ? & ? & ? & ? & ? & ?). destruct c. unfold CIFACK_UnmarshalCIF.
  cbn -[be32 u8 Z.shiftr Uint32 at_]. read_bytes. simpl in *. by rewrite !word32_be32 by done.
Qed.

#[export] Instance CIFACK_laws : CIFLaws CIFACK.
Proof. refine {| CIF_ok := CIFACK_ok |}. intros c Hc. do 2 eexists. split; [done|]. by apply CIFACK_decode. Defined.

#[export] Instance CIFNAK_laws : CIFLaws CIFNAK.
Proof.
  refine {| CIF_ok := fun c => Forall Seq.is_seq (LossList c) /\ len (LossList c) <= nakLimit |}.
  intros [l] [Hl Hn]. do 2 eexists. split; [done|]. simpl in *.
  unfold CIFNAK_UnmarshalCIF, CIFNAK_MarshalCIF. simpl.
  by rewrite nak_decode_encode by (done || lia).
Defined.

#[export] Instance CIFShutdown_laws : CIFLaws CIFShutdown.
Proof. refine {| CIF_ok := fun _ => True |}. intros [] _. by do 2 eexists. Defined.

#[export] Instance CIFDropReq_laws : CIFLaws CIFDropReq.
Proof.
  refine {| CIF_ok := fun c => is_u32 (FirstSeqNo c) /\ is_u32 (LastSeqNo c) |}.
  intros [f l] [Hf Hl]. do 2 eexists. split; [done|]. simpl in *.
  unfold CIFDropReq_UnmarshalCIF, CIFDropReq_MarshalCIF. cbn -[be32 u8 Z.shiftr Uint32 at_].
  read_bytes. by rewrite !word32_be32 by done.
Defined.

(** ** Properties *)

(** A CIF sent in a control packet arrives unchanged, whatever
    implementation of the interface it is: [MarshalCIF] into a packet with a
    valid header, [MarshalTo], [Parse] at the peer and [UnmarshalCIF] there
    give the CIF the sender encoded, and the header is untouched. *)
Theorem cif_over_the_wire {C : Type} `{CIFLaws C} (c : C) (p : Packet) :
  CIF_ok c -> Header_ok (Hdr p) ->
  exists c' p' buf q,
    Packet_MarshalCIF p c = (c', Ok p') /\ MarshalTo p' = Ok buf /\
    Parse buf (Addr (Hdr p)) = Ok q /\ Hdr q = Hdr p /\
    Packet_UnmarshalCIF q zeroCIF = Ok c'.
Proof.
  intros Hc Hp. destruct (CIF_roundtrip c Hc) as (c' & data & Hm & Hu).
  assert (SetData p data = mkPacket (Hdr p) data (Some data)) as Hset.
  { unfold SetData. by destruct (pooled p). }
  exists c', (mkPacket (Hdr p) data (Some data)), (header_bytes (Hdr p) ++ data),
    (mkPacket (Hdr p) data (match data with [] => None | _ => Some data end)).
  unfold Packet_MarshalCIF. rewrite Hm, Hset, MarshalTo_bytes.
  split; [done|]. split; [done|]. split; [|split; [done|exact Hu]].
  rewrite Parse_split by apply header_bytes_length.
  rewrite <- (app_nil_r (header_bytes (Hdr p))), Header_Unmarshal_bytes by done. done.
Qed.

Lemma cif_over_the_wire_witness :
  exists c' p' buf q,
    Packet_MarshalCIF (NewControl None CtrlTypeNAK 9 1000) (mkNAK [3; 4; 5; 9; 0x7FFFFFFF; 0]) = (c', Ok p') /\
    MarshalTo p' = Ok buf /\ Parse buf None = Ok q /\ Hdr q = Hdr (NewControl None CtrlTypeNAK 9 1000) /\
    Packet_UnmarshalCIF q zeroCIF = Ok c'.
Proof.
  apply (cif_over_the_wire (mkNAK [3; 4; 5; 9; 0x7FFFFFFF; 0]) (NewControl None CtrlTypeNAK 9 1000)).
  - split; [|vm_compute; discriminate]. repeat constructor; vm_compute; congruence.
  - vm_compute. intuition congruence.
Defined.

(** The ACK decoder on every ACK format the encoder produces: the full
    (28-byte) and the v1.0.2 (32-byte) ACK restore all seven fields; the small
    (16-byte) and the UDT-base (24-byte) ACK restore the first four and leave
    the rest of the receiver alone; fewer than 4 bytes are refused. *)
Theorem ack_decode_formats (c0 c : CIFACK) (xmRate : Z) (data : list Z) :
  CIFACK_ok c ->
  let small := mkACK (LastACKPacketSequenceNumber c) (RTT c) (RTTVariance c) (AvailableBufferSize c)
                 (PacketsReceivingRate c0) (EstimatedLinkCapacity c0) (ReceivingRate c0) in
  CIFACK_UnmarshalCIF c0 (CIFACK_MarshalCIF c) = Ok c /\
  CIFACK_UnmarshalCIF c0 (MarshalV102CIF c xmRate) = Ok c /\
  CIFACK_UnmarshalCIF c0 (MarshalSmallCIF c) = Ok small /\
  CIFACK_UnmarshalCIF c0 (MarshalUDTBaseCIF c) = Ok small /\
  (len data < 4 -> CIFACK_UnmarshalCIF c0 data = Err (ErrACKTooShort (len data))).
Proof.
  intros Hc small. split; [by apply CIFACK_decode|].
  destruct Hc as (? & ? & ? & ? & ? & ? & ?). destruct c. subst small. simpl in *.
  split; [|split; [|split]].
  1-3: unfold CIFACK_UnmarshalCIF; cbn -[be32 u8 Z.shiftr Uint32 at_]; read_bytes;
    by rewrite !word32_be32 by done.
  intros Hl. unfold CIFACK_UnmarshalCIF. by rewrite (proj2 (Z.ltb_lt _ _) Hl).
Qed.

Lemma ack_decode_formats_witness :
  CIFACK_UnmarshalCIF (mkACK 0 0 0 0 7 8 9) (MarshalSmallCIF (mkACK 1 2 3 4 5 6 0xFFFFFFFF))
  = Ok (mkACK 1 2 3 4 7 8 9).
Proof.
  apply (ack_decode_formats (mkACK 0 0 0 0 7 8 9) (mkACK 1 2 3 4 5 6 0xFFFFFFFF) 0 []).
  vm_compute. intuition congruence.
Defined.

(** The NAK decoder is total and bounded on whatever bytes a peer sends:
    it never needs more expansion steps than the limit allows, and a loss list
    it accepts holds valid sequence numbers only, at most 8192 of them plus one
    per four bytes received. *)
Theorem nak_decode_bounded (c : CIFNAK) (data : list Z) :
  bytes_ok data ->
  match CIFNAK_UnmarshalCIF c data with
  | Ok n => len (LossList n) <= 8192 + len data / 4 /\ Forall Seq.is_seq (LossList n)
  | Err e => e <> ErrFuel
  end.
Proof.
  intros Hb. unfold CIFNAK_UnmarshalCIF.
  pose proof (nak_decode_safe (length data) data [] ltac:(done) Hb ltac:(by constructor)) as H.
  destruct (nak_decode [] data); cbn [mbind result_bind LossList]; [|done].
  unfold nakLimit in H. change (@len Z []) with 0 in H. done.
Qed.

(** Range 0..0x7FFFFFFF of a hostile peer. *)
Lemma nak_decode_bounded_witness :
  match CIFNAK_UnmarshalCIF (mkNAK []) [0x80; 0; 0; 0; 0x7F; 0xFF; 0xFF; 0xFE] with
  | Ok n => len (LossList n) <= 8192 + 2 /\ Forall Seq.is_seq (LossList n)
  | Err e => e <> ErrFuel
  end.
Proof.
  apply (nak_decode_bounded (mkNAK []) [0x80; 0; 0; 0; 0x7F; 0xFF; 0xFF; 0xFE]).
  repeat constructor; vm_compute; congruence.
Defined.

Lemma nak_encode_length fuel l : (length (nak_encode fuel l) <= length l)%nat.
Proof.
  revert l. induction fuel as [|fuel IH]; intros [|start rest]; cbn [nak_encode]; try (simpl; lia).
  destruct (nak_range start rest) as [e rest'] eqn:E. specialize (IH rest').
  rewrite length_app.
  assert (length rest' + (if (start =? e)%Z then 0 else 1) <= length rest)%nat as Hle.
  { pose proof (nak_range_length start rest) as H. rewrite E in H. simpl in H.
    destruct rest as [|x rest]; simpl in E; [injection E as <- <-; rewrite Z.eqb_refl; simpl; lia|].
    destruct (x =? u32 (start + 1)); [|injection E as <- <-; rewrite Z.eqb_refl; simpl; lia].
    pose proof (nak_range_length x rest) as H'. rewrite E in H'. simpl in H' |- *.
    destruct (start =? e); lia. }
  destruct (start =? e); simpl in *; lia.
Qed.

(** Loss-list compression is exact: any list of at most 8192 sequence
    numbers, sorted or not, is decoded to itself, and its encoding takes at most
    four bytes per lost packet. *)
Theorem nak_roundtrip (c : CIFNAK) (l : list Z) :
  Forall Seq.is_seq l -> len l <= 8192 ->
  CIFNAK_UnmarshalCIF c (CIFNAK_MarshalCIF (mkNAK l)) = Ok (mkNAK l) /\
  len (CIFNAK_MarshalCIF (mkNAK l)) <= 4 * len l.
Proof.
  intros Hl Hn. unfold CIFNAK_UnmarshalCIF, CIFNAK_MarshalCIF. cbn [LossList].
  split; [by rewrite nak_decode_encode by (done || (unfold nakLimit, len in *; simpl; lia))|].
  pose proof (nak_encode_length (length l) l) as H.
  assert (forall ws, length (concat (map be32 ws)) = (4 * length ws)%nat) as Hc.
  { induction ws as [|w ws IH]; [done|]. cbn [map concat]. rewrite length_app, IH. simpl. lia. }
  unfold len. rewrite Hc. lia.
Qed.

Lemma nak_roundtrip_witness :
  CIFNAK_MarshalCIF (mkNAK [7; 8; 9]) = [0x80; 0; 0; 7; 0; 0; 0; 9] /\
  CIFNAK_UnmarshalCIF (mkNAK []) (CIFNAK_MarshalCIF (mkNAK [7; 8; 9])) = Ok (mkNAK [7; 8; 9]).
Proof.
  split; [by vm_compute|]. apply (nak_roundtrip (mkNAK []) [7; 8; 9]);
    [repeat constructor; vm_compute; congruence|vm_compute; discriminate].
Defined.

End Control.
