(* ===== verification/Cif.v ===== *)
(** * The handshake CIF ([internal/packet/cif.go])

    The 48-byte handshake body, its extension blocks (SRT handshake, key
    material, stream ID, congestion type, packet filter, group), their encoder
    and decoder, and the proof that the decoder inverts the encoder.  Go strings
    and [net.IP] values are byte lists; a nil pointer dereference is the error
    [ErrNilPointer]. *)
From Stdlib Require Import ZArith Lia.
From stdpp Require Import base numbers list option.
From S2P Require Import Prelude Seq Packet Control.
Local Open Scope Z_scope.

Module Cif.
Import Packet Control.

(** ** Handshake types and flags *)

Definition HandshakeTypeDone : Z := 0xFFFFFFFD.
Definition HandshakeTypeAgreement : Z := 0xFFFFFFFE.
Definition HandshakeTypeConclusion : Z := 0xFFFFFFFF.
Definition HandshakeTypeWavehand : Z := 0x00000000.
Definition HandshakeTypeInduction : Z := 0x00000001.

Definition IsHandshake (h : Z) : bool :=
  (h =? HandshakeTypeDone) || (h =? HandshakeTypeAgreement) || (h =? HandshakeTypeConclusion) ||
  (h =? HandshakeTypeWavehand) || (h =? HandshakeTypeInduction).

Definition IsRejection (h : Z) : bool := negb (IsHandshake h).

Definition FlagTSBPDSend : Z := Z.shiftl 1 0.
Definition FlagTSBPDRecv : Z := Z.shiftl 1 1.
Definition FlagCrypt : Z := Z.shiftl 1 2.
Definition FlagTLPktDrop : Z := Z.shiftl 1 3.
Definition FlagPeriodicNAK : Z := Z.shiftl 1 4.
Definition FlagRexmit : Z := Z.shiftl 1 5.
Definition FlagStream : Z := Z.shiftl 1 6.
Definition FlagPacketFilter : Z := Z.shiftl 1 7.

(** ** Helpers *)

Definition appendExtension (buf : list Z) (extType : Z) (data : list Z) : list Z :=
  let hdr := PutUint16 (make 4) 0 (u16 extType) in
  let hdr := PutUint16 hdr 2 (u16 (len data / 4)) in
  (buf ++ hdr) ++ data.

(** [net.IP.To4] and [net.IP.To16] of the standard library. *)
Definition To4 (ip : list Z) : option (list Z) :=
  if len ip =? 4 then Some ip
  else if (len ip =? 16) && forallb (Z.eqb 0) (slice 0 10 ip) && (at_ ip 10 =? 0xFF) && (at_ ip 11 =? 0xFF)
  then Some (slice 12 16 ip)
  else None.

Definition To16 (ip : list Z) : list Z :=
  if len ip =? 4 then replicate 10 0 ++ [0xFF; 0xFF] ++ ip
  else if len ip =? 16 then ip
  else [].

(** [marshalIP] on the 16-byte window it is given ([nil] is the empty list). *)
Definition marshalIP (ip : list Z) : list Z :=
  let buf := make 16 in
  match ip with
  | [] => buf
  | _ =>
      match To4 ip with
      | Some ip4 => copy_at buf 0 (slice 0 4 ip4)
      | None => copy_at buf 0 (To16 ip)
      end
  end.

Definition unmarshalIP (data : list Z) : list Z :=
  let allZero := forallb (Z.eqb 0) (slice 4 16 data) in
  if allZero then slice 0 4 data else slice 0 16 data.

(** The swap loop over a slice whose length is a multiple of 4. *)
Fixpoint swap_words (data : list Z) : list Z :=
  match data with
  | b0 :: b1 :: b2 :: b3 :: rest => b3 :: b2 :: b1 :: b0 :: swap_words rest
  | l => l
  end.

Definition marshalStreamID (sid : list Z) : list Z :=
  let size := length sid in
  let rem := (size mod 4)%nat in
  let size := if Nat.eqb rem 0 then size else (size + (4 - rem))%nat in
  let data := copy_at (make size) 0 sid in
  swap_words data.

(** The decoding loop reads whole words only. *)
Fixpoint unswap_words (data : list Z) : list Z :=
  match data with
  | b0 :: b1 :: b2 :: b3 :: rest => b3 :: b2 :: b1 :: b0 :: unswap_words rest
  | _ => []
  end.

(** [strings.TrimRight(s, "\x00")]. *)
Fixpoint dropZeros (l : list Z) : list Z :=
  match l with
  | b :: l' => if b =? 0 then dropZeros l' else l
  | [] => []
  end.

Definition TrimRight0 (s : list Z) : list Z := rev (dropZeros (rev s)).

Definition unmarshalStreamID (data : list Z) : list Z := TrimRight0 (unswap_words data).

(** The slice expressions that follow read the first [n] bytes of [data]: out of range
    they panic ([ErrIndex]). *)
Definition need {A} (n : Z) (data : list Z) (r : result PacketError A) : result PacketError A :=
  if len data <? n then Err ErrIndex else r.

Lemma need_ok {A} n data (r : result PacketError A) : n <= len data -> need n data r = r.
Proof. unfold need. destruct (Z.ltb_spec (len data) n); [lia|done]. Qed.

(** ** The SRT handshake extension *)

Record CIFHandshakeExtension : Type := mkHSExt {
  SRTVersion : Z;
  SRTFlags : Z;
  RecvTSBPDDelay : Z;
  SendTSBPDDelay : Z
}.

Definition HSExt_MarshalCIF (c : CIFHandshakeExtension) : list Z :=
  let buf := make 12 in
  let buf := PutUint32 buf 0 (SRTVersion c) in
  let buf := PutUint32 buf 4 (SRTFlags c) in
  let buf := PutUint16 buf 8 (RecvTSBPDDelay c) in
  PutUint16 buf 10 (SendTSBPDDelay c).

Definition HSExt_UnmarshalCIF (data : list Z) : result PacketError CIFHandshakeExtension :=
  if len data <? 12 then Err (ErrHSLength (len data)) else
  need 12 data (Ok (mkHSExt (Uint32 data 0) (Uint32 data 4) (Uint16 data 8) (Uint16 data 10))).

(** ** Key material *)

Record CIFKeyMaterial : Type := mkKM {
  Error : Z;
  S_ : Z;
  KMVersion : Z;
  PacketType : Z;
  Sign : Z;
  KeyBasedEncryption : Z;
  KeyEncryptionKeyIndex : Z;
  Cipher : Z;
  Authentication : Z;
  StreamEncapsulation : Z;
  SLen : Z;
  KLen : Z;
  Salt : list Z;
  Wrap : list Z
}.

Definition zeroKM : CIFKeyMaterial := mkKM 0 0 0 0 0 0 0 0 0 0 0 0 [] [].

(** [buf[i] = b]. *)
Definition PutByte (buf : list Z) (i : nat) (b : Z) : list Z := copy_at buf i [b].

(** The 16 bytes before the salt. *)
Definition KM_fill (c : CIFKeyMaterial) (buf : list Z) : list Z :=
  let b := Z.land (u8 (Z.shiftl (S_ c) 7)) 0x80 in
  let b := Z.lor b (Z.land (u8 (Z.shiftl (KMVersion c) 4)) 0x70) in
  let b := Z.lor b (Z.land (PacketType c) 0x0F) in
  let buf := PutByte buf 0 b in
  let buf := PutUint16 buf 1 (Sign c) in
  let buf := PutByte buf 3 (Z.land (KeyBasedEncryption c) 0x03) in
  let buf := PutUint32 buf 4 (KeyEncryptionKeyIndex c) in
  let buf := PutByte buf 8 (Cipher c) in
  let buf := PutByte buf 9 (Authentication c) in
  let buf := PutByte buf 10 (StreamEncapsulation c) in
  let buf := PutByte buf 11 0 in
  let buf := PutUint16 buf 12 0 in
  let buf := PutByte buf 14 (u8 (SLen c / 4)) in
  PutByte buf 15 (u8 (KLen c / 4)).

Definition KM_MarshalCIF (c : CIFKeyMaterial) : list Z :=
  if negb (Error c =? 0) then PutUint32 (make 4) 0 (Error c) else
  let size := (16 + Z.to_nat (SLen c) + length (Wrap c))%nat in
  let buf := KM_fill c (make size) in
  let offset := 16%nat in
  let '(buf, offset) :=
    if SLen c >? 0 then (copy_at buf offset (Salt c), (offset + Z.to_nat (SLen c))%nat)
    else (buf, offset) in
  copy_at buf offset (Wrap c).

Definition setError (c : CIFKeyMaterial) (e : Z) : CIFKeyMaterial :=
  mkKM e (S_ c) (KMVersion c) (PacketType c) (Sign c) (KeyBasedEncryption c) (KeyEncryptionKeyIndex c)
    (Cipher c) (Authentication c) (StreamEncapsulation c) (SLen c) (KLen c) (Salt c) (Wrap c).

(** The salt and the wrapped keys, at the end of [UnmarshalCIF]. *)
Definition KM_tail (c : CIFKeyMaterial) (data : list Z) : result PacketError (list Z * list Z) :=
  let offset := 16%nat in
  '(salt, offset) ←
    (if SLen c >? 0 then
       if negb (SLen c =? 16) then Err (ErrKMSaltLength (SLen c)) else
       need (Z.of_nat offset) data (
       if len (slice_from offset data) <? SLen c then Err ErrKMSaltShort else
       Ok (overwrite (make (Z.to_nat (SLen c))) (slice_from offset data), (offset + Z.to_nat (SLen c))%nat))
     else Ok (Salt c, offset));
  need (Z.of_nat offset) data (
  let n := if KeyBasedEncryption c =? EncryptionBoth then 2 else 1 in
  let wrapLen := n * KLen c + 8 in
  if len (slice_from offset data) <? wrapLen then Err ErrKMWrapShort else
  let expectedLen := 16 + SLen c + wrapLen in
  if negb (len data =? expectedLen) then Err (ErrKMLength (len data) expectedLen) else
  Ok (salt, overwrite (make (Z.to_nat wrapLen)) (slice_from offset data))).

Definition KM_UnmarshalCIF (c : CIFKeyMaterial) (data : list Z) : result PacketError CIFKeyMaterial :=
  if len data =? 4 then need 4 data (Ok (setError c (Uint32 data 0))) else
  if len data <? 16 then Err (ErrKMTooShort (len data)) else
  need 16 data (
  let s := Z.land (Z.shiftr (at_ data 0) 7) 0x01 in
  let version := Z.land (Z.shiftr (at_ data 0) 4) 0x07 in
  let packetType := Z.land (at_ data 0) 0x0F in
  if negb (version =? 1) then Err (ErrKMVersion version) else
  if negb (packetType =? 2) then Err (ErrKMPacketType packetType) else
  let sign := Uint16 data 1 in
  if negb (sign =? 0x2029) then Err (ErrKMSign sign) else
  let kbe := Z.land (at_ data 3) 0x03 in
  if kbe =? EncryptionNone then Err ErrKMNoKey else
  let keki := Uint32 data 4 in
  let cipher := at_ data 8 in
  let auth := at_ data 9 in
  let se := at_ data 10 in
  if negb ((cipher =? 2) || (cipher =? 4)) then Err (ErrKMCipher cipher) else
  if (cipher =? 4) && negb (auth =? 1) then Err (ErrKMAuth auth) else
  if (cipher =? 2) && negb (auth =? 0) then Err (ErrKMAuth auth) else
  if negb (se =? 2) then Err (ErrKMEncapsulation se) else
  let slen := u16 (at_ data 14 * 4) in
  let klen := u16 (at_ data 15 * 4) in
  if negb ((klen =? 16) || (klen =? 24) || (klen =? 32)) then Err (ErrKMKeyLength klen) else
  let c := mkKM (Error c) s version packetType sign kbe keki cipher auth se slen klen (Salt c) (Wrap c) in
  '(salt, wrap) ← KM_tail c data;
  Ok (mkKM (Error c) s version packetType sign kbe keki cipher auth se slen klen salt wrap)).

(** ** The handshake CIF *)

Record CIFHandshake : Type := mkHS {
  Version : Z;
  EncryptionField : Z;
  ExtensionField : Z;
  InitialPacketSequenceNumber : Z;
  MaxTransmissionUnitSize : Z;
  MaxFlowWindowSize : Z;
  HandshakeType : Z;
  SRTSocketID : Z;
  SynCookie : Z;
  PeerIP : list Z;
  IsRequest : bool;
  HasHS : bool;
  SRTHS : option CIFHandshakeExtension;
  HasKM : bool;
  SRTKM : option CIFKeyMaterial;
  HasSID : bool;
  StreamID : list Z;
  HasCongestion : bool;
  CongestionType : list Z;
  HasFilter : bool;
  FilterConfig : list Z;
  HasGroup : bool;
  GroupID : Z;
  GroupType : Z;
  GroupFlags : Z;
  GroupWeight : Z
}.

Definition zeroHS : CIFHandshake :=
  mkHS 0 0 0 0 0 0 0 0 0 [] false false None false None false [] false [] false [] false 0 0 0 0.

Definition setHasSID (c : CIFHandshake) (b : bool) : CIFHandshake :=
  mkHS (Version c) (EncryptionField c) (ExtensionField c) (InitialPacketSequenceNumber c)
    (MaxTransmissionUnitSize c) (MaxFlowWindowSize c) (HandshakeType c) (SRTSocketID c) (SynCookie c)
    (PeerIP c) (IsRequest c) (HasHS c) (SRTHS c) (HasKM c) (SRTKM c) b (StreamID c)
    (HasCongestion c) (CongestionType c) (HasFilter c) (FilterConfig c)
    (HasGroup c) (GroupID c) (GroupType c) (GroupFlags c) (GroupWeight c).

Definition setEncExt (c : CIFHandshake) (enc ext : Z) : CIFHandshake :=
  mkHS (Version c) enc ext (InitialPacketSequenceNumber c)
    (MaxTransmissionUnitSize c) (MaxFlowWindowSize c) (HandshakeType c) (SRTSocketID c) (SynCookie c)
    (PeerIP c) (IsRequest c) (HasHS c) (SRTHS c) (HasKM c) (SRTKM c) (HasSID c) (StreamID c)
    (HasCongestion c) (CongestionType c) (HasFilter c) (FilterConfig c)
    (HasGroup c) (GroupID c) (GroupType c) (GroupFlags c) (GroupWeight c).

(** The receiver updates at the start of [MarshalCIF]. *)
Definition HS_normalize (c : CIFHandshake) : CIFHandshake :=
  let c := match StreamID c with [] => setHasSID c false | _ => c end in
  if (Version c =? 5) && (HandshakeType c =? HandshakeTypeConclusion) then
    let ext := 0 in
    let ext := if HasHS c then Z.lor ext 1 else ext in
    let ext := if HasKM c then Z.lor ext 2 else ext in
    let ext := if HasSID c || HasCongestion c || HasFilter c || HasGroup c then Z.lor ext 4 else ext in
    setEncExt c (EncryptionField c) ext
  else if Version c =? 4 then setEncExt c 0 2
  else c.

(** The fixed 48-byte part. *)
Definition HS_base (c : CIFHandshake) : list Z :=
  let buf := make 48 in
  let buf := PutUint32 buf 0 (Version c) in
  let buf := PutUint16 buf 4 (EncryptionField c) in
  let buf := PutUint16 buf 6 (ExtensionField c) in
  let buf := PutUint32 buf 8 (Z.land (InitialPacketSequenceNumber c) 0x7FFFFFFF) in
  let buf := PutUint32 buf 12 (MaxTransmissionUnitSize c) in
  let buf := PutUint32 buf 16 (MaxFlowWindowSize c) in
  let buf := PutUint32 buf 20 (HandshakeType c) in
  let buf := PutUint32 buf 24 (SRTSocketID c) in
  let buf := PutUint32 buf 28 (SynCookie c) in
  copy_at buf 32 (marshalIP (PeerIP c)).

Definition group_data (c : CIFHandshake) : list Z :=
  let grpData := PutUint32 (make 8) 0 (GroupID c) in
  let dataword :=
    Z.lor (Z.lor (u32 (Z.shiftl (GroupType c) 24)) (u32 (Z.shiftl (GroupFlags c) 16))) (GroupWeight c) in
  PutUint32 grpData 4 dataword.

Definition HS_MarshalCIF (c : CIFHandshake) : CIFHandshake * result PacketError (list Z) :=
  let c := HS_normalize c in
  (c,
   let buf := HS_base c in
   buf ← (if HasHS c then
            match SRTHS c with
            | None => Err ErrNilPointer
            | Some hs =>
                let hsData := HSExt_MarshalCIF hs in
                let extType := if IsRequest c then ExtTypeHSReq else ExtTypeHSRsp in
                Ok (appendExtension buf extType hsData)
            end
          else Ok buf);
   let buf := if HasSID c then appendExtension buf ExtTypeSID (marshalStreamID (StreamID c)) else buf in
   let buf := if HasCongestion c
              then appendExtension buf ExtTypeCongestion (marshalStreamID (CongestionType c)) else buf in
   let buf := if HasFilter c && negb (Nat.eqb (length (FilterConfig c)) 0)
              then appendExtension buf ExtTypeFilter (marshalStreamID (FilterConfig c)) else buf in
   let buf := if HasGroup c && negb (GroupID c =? 0)
              then appendExtension buf ExtTypeGroup (group_data c) else buf in
   if HasKM c then
     match SRTKM c with
     | None => Err ErrNilPointer
     | Some km =>
         let kmData := KM_MarshalCIF km in
         let extType := if IsRequest c then ExtTypeKMReq else ExtTypeKMRsp in
         Ok (appendExtension buf extType kmData)
     end
   else Ok buf).

(** ** Decoding *)

Definition setHS (c : CIFHandshake) (isRequest : bool) (hs : CIFHandshakeExtension) : CIFHandshake :=
  mkHS (Version c) (EncryptionField c) (ExtensionField c) (InitialPacketSequenceNumber c)
    (MaxTransmissionUnitSize c) (MaxFlowWindowSize c) (HandshakeType c) (SRTSocketID c) (SynCookie c)
    (PeerIP c) isRequest true (Some hs) (HasKM c) (SRTKM c) (HasSID c) (StreamID c)
    (HasCongestion c) (CongestionType c) (HasFilter c) (FilterConfig c)
    (HasGroup c) (GroupID c) (GroupType c) (GroupFlags c) (GroupWeight c).

Definition setKM (c : CIFHandshake) (isRequest : bool) (km : CIFKeyMaterial) : CIFHandshake :=
  mkHS (Version c) (EncryptionField c) (ExtensionField c) (InitialPacketSequenceNumber c)
    (MaxTransmissionUnitSize c) (MaxFlowWindowSize c) (HandshakeType c) (SRTSocketID c) (SynCookie c)
    (PeerIP c) isRequest (HasHS c) (SRTHS c) true (Some km) (HasSID c) (StreamID c)
    (HasCongestion c) (CongestionType c) (HasFilter c) (FilterConfig c)
    (HasGroup c) (GroupID c) (GroupType c) (GroupFlags c) (GroupWeight c).

Definition setSID (c : CIFHandshake) (sid : list Z) : CIFHandshake :=
  mkHS (Version c) (EncryptionField c) (ExtensionField c) (InitialPacketSequenceNumber c)
    (MaxTransmissionUnitSize c) (MaxFlowWindowSize c) (HandshakeType c) (SRTSocketID c) (SynCookie c)
    (PeerIP c) (IsRequest c) (HasHS c) (SRTHS c) (HasKM c) (SRTKM c) true sid
    (HasCongestion c) (CongestionType c) (HasFilter c) (FilterConfig c)
    (HasGroup c) (GroupID c) (GroupType c) (GroupFlags c) (GroupWeight c).

Definition setCongestion (c : CIFHandshake) (cc : list Z) : CIFHandshake :=
  mkHS (Version c) (EncryptionField c) (ExtensionField c) (InitialPacketSequenceNumber c)
    (MaxTransmissionUnitSize c) (MaxFlowWindowSize c) (HandshakeType c) (SRTSocketID c) (SynCookie c)
    (PeerIP c) (IsRequest c) (HasHS c) (SRTHS c) (HasKM c) (SRTKM c) (HasSID c) (StreamID c)
    true cc (HasFilter c) (FilterConfig c)
    (HasGroup c) (GroupID c) (GroupType c) (GroupFlags c) (GroupWeight c).

Definition setFilter (c : CIFHandshake) (f : list Z) : CIFHandshake :=
  mkHS (Version c) (EncryptionField c) (ExtensionField c) (InitialPacketSequenceNumber c)
    (MaxTransmissionUnitSize c) (MaxFlowWindowSize c) (HandshakeType c) (SRTSocketID c) (SynCookie c)
    (PeerIP c) (IsRequest c) (HasHS c) (SRTHS c) (HasKM c) (SRTKM c) (HasSID c) (StreamID c)
    (HasCongestion c) (CongestionType c) true f
    (HasGroup c) (GroupID c) (GroupType c) (GroupFlags c) (GroupWeight c).

Definition setGroup (c : CIFHandshake) (id ty fl w : Z) : CIFHandshake :=
  mkHS (Version c) (EncryptionField c) (ExtensionField c) (InitialPacketSequenceNumber c)
    (MaxTransmissionUnitSize c) (MaxFlowWindowSize c) (HandshakeType c) (SRTSocketID c) (SynCookie c)
    (PeerIP c) (IsRequest c) (HasHS c) (SRTHS c) (HasKM c) (SRTKM c) (HasSID c) (StreamID c)
    (HasCongestion c) (CongestionType c) (HasFilter c) (FilterConfig c)
    true id ty fl w.

(** One extension block: the [switch extType] of the decoding loop. *)
Definition HS_ext (c : CIFHandshake) (extType : Z) (extData : list Z) : result PacketError CIFHandshake :=
  let extLen := len extData in
  if (extType =? ExtTypeHSReq) || (extType =? ExtTypeHSRsp) then
    if negb (extLen =? 12) then Err (ErrHSLength extLen) else
    hs ← HSExt_UnmarshalCIF extData; Ok (setHS c (extType =? ExtTypeHSReq) hs)
  else if (extType =? ExtTypeKMReq) || (extType =? ExtTypeKMRsp) then
    km ← KM_UnmarshalCIF zeroKM extData; Ok (setKM c (extType =? ExtTypeKMReq) km)
  else if extType =? ExtTypeSID then
    if extLen >? 512 then Err (ErrSIDTooLong extLen) else
    Ok (setSID c (unmarshalStreamID extData))
  else if extType =? ExtTypeCongestion then Ok (setCongestion c (unmarshalStreamID extData))
  else if extType =? ExtTypeFilter then Ok (setFilter c (unmarshalStreamID extData))
  else if extType =? ExtTypeGroup then
    if extLen >=? 8 then
      need 8 extData (
      let dataword := Uint32 extData 4 in
      Ok (setGroup c (Uint32 extData 0) (u8 (Z.shiftr dataword 24)) (u8 (Z.shiftr dataword 16)) (u16 dataword)))
    else Ok c
  else Ok c.

(** The loop over the extension blocks; every pass consumes at least four
    bytes, so the length of the data is enough fuel. *)
Fixpoint HS_exts (fuel : nat) (c : CIFHandshake) (seenExt : Z) (pivot : list Z) :
    result PacketError CIFHandshake :=
  match fuel with
  | O => Err ErrFuel
  | S fuel' =>
      if len pivot <? 4 then Ok c else
      need 4 pivot (
      let extType := Uint16 pivot 0 in
      let extLen := Uint16 pivot 2 * 4 in
      let pivot := slice_from 4 pivot in
      if len pivot <? extLen then Err (ErrExtTruncated extType (len pivot) extLen) else
      let extBit := u32 (Z.shiftl 1 (Z.land extType 31)) in
      if negb (Z.land seenExt extBit =? 0) then Err (ErrExtDuplicate extType) else
      let seenExt := Z.lor seenExt extBit in
      need extLen pivot (
      c ← HS_ext c extType (slice 0 (Z.to_nat extLen) pivot);
      if len pivot >? extLen then HS_exts fuel' c seenExt (slice_from (Z.to_nat extLen) pivot)
      else Ok c))
  end.

(** The fixed part is decoded into the receiver, whose extension fields are
    kept until a block sets them. *)
Definition HS_fixed (c : CIFHandshake) (data : list Z) : CIFHandshake :=
  mkHS (Uint32 data 0) (Uint16 data 4) (Uint16 data 6) (Z.land (Uint32 data 8) 0x7FFFFFFF)
    (Uint32 data 12) (Uint32 data 16) (Uint32 data 20) (Uint32 data 24) (Uint32 data 28)
    (unmarshalIP (slice 32 48 data))
    (IsRequest c) (HasHS c) (SRTHS c) (HasKM c) (SRTKM c) (HasSID c) (StreamID c)
    (HasCongestion c) (CongestionType c) (HasFilter c) (FilterConfig c)
    (HasGroup c) (GroupID c) (GroupType c) (GroupFlags c) (GroupWeight c).

Definition HS_UnmarshalCIF (c : CIFHandshake) (data : list Z) : result PacketError CIFHandshake :=
  if len data <? 48 then Err (ErrHandshakeTooShort (len data)) else
  need 48 data (
  let c := HS_fixed c data in
  if HandshakeType c =? HandshakeTypeInduction then Ok c else
  if negb (HandshakeType c =? HandshakeTypeConclusion) then Ok c else
  if (ExtensionField c =? 0) || (len data <=? 48) then Ok c else
  let enc := EncryptionField c in
  if negb ((enc =? 0) || (enc =? 2) || (enc =? 3) || (enc =? 4)) then Err (ErrEncryptionField enc) else
  HS_exts (length data) c 0 (slice_from 48 data)).

#[export] Instance CIFHandshake_CIF : CIF CIFHandshake := {
  zeroCIF := zeroHS;
  MarshalCIF := HS_MarshalCIF;
  UnmarshalCIF := HS_UnmarshalCIF
}.

(** ** Stream IDs and addresses *)

Lemma list4_ind (P : list Z -> Prop) :
  P [] -> (forall a b c d l, P l -> P (a :: b :: c :: d :: l)) ->
  forall l, (length l mod 4 = 0)%nat -> P l.
Proof.
  intros H0 H4 l Hl. remember (length l) as n eqn:En. revert l En Hl.
  induction n as [n IH] using lt_wf_ind. intros l -> Hl.
  destruct l as [|a l]; [done|].
  do 3 (destruct l as [|? l]; [done|]). apply H4. apply (IH (length l)); [simpl; lia|done|].
  rewrite <- (Nat.Div0.mod_add (length l) 1 4).
  replace (length l + 1 * 4)%nat with (length (a :: z :: z0 :: z1 :: l)) by (simpl; lia). done.
Qed.

Lemma swap_words_length l : length (swap_words l) = length l.
Proof.
  remember (length l) as n eqn:En. revert l En. induction n as [n IH] using lt_wf_ind. intros l ->.
  do 4 (destruct l as [|? l]; [done|]). simpl. do 4 f_equal. apply (IH (length l)); simpl; [lia|done].
Qed.

Lemma unswap_swap l : (length l mod 4 = 0)%nat -> unswap_words (swap_words l) = l.
Proof. revert l. apply list4_ind; [done|]. intros. simpl. by f_equal; f_equal; f_equal; f_equal. Qed.

Lemma swap_words_ok l : bytes_ok l -> bytes_ok (swap_words l).
Proof.
  remember (length l) as n eqn:En. revert l En. induction n as [n IH] using lt_wf_ind. intros l -> Hb.
  do 4 (destruct l as [|? l]; [done|]). split_bytes. simpl. rewrite !bytes_ok_cons.
  repeat (split; [done|]). apply (IH (length l)); simpl; [lia|done|done].
Qed.

Definition no_trailing_zero (l : list Z) : Prop := list.last l <> Some 0.

#[export] Instance no_trailing_zero_dec l : Decision (no_trailing_zero l).
Proof. unfold no_trailing_zero. apply _. Defined.

Lemma dropZeros_replicate k l : dropZeros (replicate k 0 ++ l) = dropZeros l.
Proof. by induction k. Qed.

Lemma rev_replicate0 k : rev (replicate k 0) = replicate k 0.
Proof. induction k as [|k IH]; [done|]. simpl. by rewrite IH, <- replicate_S_end. Qed.

Lemma TrimRight0_pad l k : no_trailing_zero l -> TrimRight0 (l ++ replicate k 0) = l.
Proof.
  intros Hl. unfold TrimRight0. rewrite rev_app_distr, rev_replicate0, dropZeros_replicate.
  induction l as [|x l _] using rev_ind; [done|].
  rewrite rev_app_distr. cbn [rev app dropZeros]. destruct (Z.eqb_spec x 0) as [->|].
  - destruct Hl. unfold no_trailing_zero. by rewrite last_snoc.
  - by rewrite <- (rev_involutive (l ++ [x])), (rev_app_distr l).
Qed.

(** The encoder pads with zeros to a whole number of words. *)
Lemma marshalStreamID_pad sid :
  exists k, marshalStreamID sid = swap_words (sid ++ make k) /\
    (length (sid ++ make k) mod 4 = 0)%nat /\ (k < 4)%nat.
Proof.
  unfold marshalStreamID. set (n := length sid).
  pose proof (Nat.mod_upper_bound n 4 ltac:(lia)) as Hr. pose proof (Nat.div_mod_eq n 4) as Hd.
  exists (if Nat.eqb (n mod 4) 0 then 0 else 4 - n mod 4)%nat.
  set (k := (if Nat.eqb (n mod 4) 0 then 0 else 4 - n mod 4)%nat).
  assert ((if Nat.eqb (n mod 4) 0 then n else n + (4 - n mod 4)) = n + k)%nat as ->.
  { subst k. destruct (Nat.eqb_spec (n mod 4) 0); lia. }
  split; [|split].
  - rewrite copy_at_fit by (unfold make; rewrite length_replicate; fold n; lia).
    rewrite take_0, app_nil_l. f_equal. f_equal. unfold make. fold n. rewrite drop_replicate. f_equal. lia.
  - unfold make. rewrite length_app, length_replicate. fold n. subst k.
    destruct (Nat.eqb_spec (n mod 4) 0) as [E|E]; [by rewrite Nat.add_0_r|].
    replace (n + (4 - n mod 4))%nat with ((n / 4 + 1) * 4)%nat by lia. apply Nat.Div0.mod_mul.
  - subst k. destruct (Nat.eqb_spec (n mod 4) 0); lia.
Qed.

Lemma streamID_roundtrip sid : no_trailing_zero sid -> unmarshalStreamID (marshalStreamID sid) = sid.
Proof.
  intros Hs. destruct (marshalStreamID_pad sid) as (k & -> & Hm & _).
  unfold unmarshalStreamID. rewrite unswap_swap by done. by apply TrimRight0_pad.
Qed.

Lemma marshalStreamID_length sid :
  len (marshalStreamID sid) mod 4 = 0 /\ len sid <= len (marshalStreamID sid) < len sid + 4.
Proof.
  destruct (marshalStreamID_pad sid) as (k & -> & Hm & Hk). unfold len.
  unfold make in *. rewrite swap_words_length. rewrite length_app, length_replicate in *.
  split; [|lia]. rewrite <- (Nat2Z.inj_mod _ 4), Hm. done.
Qed.

(** The two address forms the decoder can return. *)
Definition PeerIP_ok (ip : list Z) : Prop :=
  bytes_ok ip /\
  (len ip = 4 \/
   (len ip = 16 /\ To4 ip = None /\ forallb (Z.eqb 0) (slice 4 16 ip) = false)).

Lemma marshalIP_length ip : length (marshalIP ip) = 16%nat.
Proof. unfold marshalIP. destruct ip; [done|]. case_match; by rewrite copy_at_length. Qed.

Lemma unmarshalIP_marshalIP ip : PeerIP_ok ip -> unmarshalIP (marshalIP ip) = ip.
Proof.
  intros [Hb [H4|(H16 & HTo4 & Hz)]].
  - unfold len in H4. do 4 (destruct ip as [|? ip]; [done|]). destruct ip; [|simpl in H4; lia]. done.
  - unfold marshalIP. destruct ip as [|i ip]; [done|]. rewrite HTo4.
    assert (To16 (i :: ip) = i :: ip) as ->.
    { unfold To16. rewrite H16. done. }
    assert (length (i :: ip) = 16%nat) as Hl by (unfold len in H16; lia).
    rewrite copy_at_fit by (rewrite Hl; done). rewrite Hl, take_0, app_nil_l.
    rewrite drop_ge, app_nil_r by done. unfold unmarshalIP. rewrite Hz.
    unfold slice. rewrite drop_0. by rewrite take_ge by (rewrite Hl; done).
Qed.

(** ** Key material *)

(** The key material a peer can be sent: an error word, or one or two wrapped
    keys for AES-CTR or AES-GCM. *)
Definition wrapLength (kbe klen : Z) : Z := (if kbe =? EncryptionBoth then 2 else 1) * klen + 8.

Definition KM_keys_ok (c : CIFKeyMaterial) : Prop :=
  0 <= S_ c < 2 /\ KMVersion c = 1 /\ PacketType c = 2 /\ Sign c = 0x2029 /\
  1 <= KeyBasedEncryption c <= 3 /\ is_u32 (KeyEncryptionKeyIndex c) /\
  ((Cipher c = 2 /\ Authentication c = 0) \/ (Cipher c = 4 /\ Authentication c = 1)) /\
  StreamEncapsulation c = 2 /\
  (SLen c = 0 \/ SLen c = 16) /\ (KLen c = 16 \/ KLen c = 24 \/ KLen c = 32) /\
  len (Salt c) = SLen c /\ len (Wrap c) = wrapLength (KeyBasedEncryption c) (KLen c).

Definition KM_ok (c : CIFKeyMaterial) : Prop :=
  (Error c = 0 /\ KM_keys_ok c) \/ (0 < Error c < 2 ^ 32 /\ c = setError zeroKM (Error c)).

Definition KM_header (c : CIFKeyMaterial) : list Z :=
  Z.lor (Z.lor (Z.land (u8 (Z.shiftl (S_ c) 7)) 0x80) (Z.land (u8 (Z.shiftl (KMVersion c) 4)) 0x70))
    (Z.land (PacketType c) 0x0F) ::
  be16 (Sign c) ++ [Z.land (KeyBasedEncryption c) 0x03] ++ be32 (KeyEncryptionKeyIndex c) ++
  [Cipher c; Authentication c; StreamEncapsulation c; 0; 0; 0; u8 (SLen c / 4); u8 (KLen c / 4)].

Lemma overwrite_full n src : length src = n -> overwrite (make n) src = src.
Proof.
  intros. rewrite overwrite_fit by (unfold make; rewrite length_replicate; lia).
  rewrite drop_ge, app_nil_r; [done|]. unfold make. rewrite length_replicate. lia.
Qed.

Lemma KM_fill_bytes c t : KM_fill c (make 16 ++ t) = KM_header c ++ t.
Proof. reflexivity. Qed.

Lemma copy_at_here hdr n src rest :
  length hdr = n -> copy_at (hdr ++ make (length src) ++ rest) n src = hdr ++ src ++ rest.
Proof.
  intros <-. unfold copy_at. rewrite take_app_length, drop_app_length. f_equal.
  rewrite overwrite_fit by (rewrite length_app; unfold make; rewrite length_replicate; lia).
  f_equal. rewrite drop_app_ge by (unfold make; rewrite length_replicate; lia).
  unfold make. by rewrite length_replicate, Nat.sub_diag.
Qed.

Lemma KM_MarshalCIF_bytes c :
  Error c = 0 -> 0 <= SLen c -> len (Salt c) = SLen c ->
  KM_MarshalCIF c = KM_header c ++ Salt c ++ Wrap c.
Proof.
  intros He Hs Hl. unfold KM_MarshalCIF. rewrite He. cbn [Z.eqb negb].
  assert (length (Salt c) = Z.to_nat (SLen c)) as Hl' by (unfold len in Hl; lia).
  assert (make (16 + Z.to_nat (SLen c) + length (Wrap c)) =
          make 16 ++ make (length (Salt c)) ++ make (length (Wrap c)) ++ []) as ->.
  { unfold make. rewrite app_nil_r, <- !replicate_add. f_equal. lia. }
  rewrite KM_fill_bytes. destruct (SLen c >? 0) eqn:E.
  - rewrite copy_at_here by done. rewrite app_assoc, <- Hl', copy_at_here by (rewrite length_app; done).
    by rewrite app_nil_r, <- app_assoc.
  - rewrite Z.gtb_ltb in E. apply Z.ltb_ge in E.
    destruct (Salt c); [|simpl in *; lia]. cbn [length make replicate app].
    rewrite copy_at_here by done. by rewrite app_nil_r.
Qed.

Lemma wrapLength_bound kbe klen : 16 <= klen -> 24 <= wrapLength kbe klen.
Proof. intros. unfold wrapLength. case_match; lia. Qed.

Lemma wrapLength_pos kbe klen : 0 <= klen -> 0 <= wrapLength kbe klen.
Proof. intros. unfold wrapLength. case_match; lia. Qed.

Lemma KM_tail_ok c hdr :
  length hdr = 16%nat -> KM_keys_ok c ->
  KM_tail (mkKM (Error c) (S_ c) (KMVersion c) (PacketType c) (Sign c) (KeyBasedEncryption c)
             (KeyEncryptionKeyIndex c) (Cipher c) (Authentication c) (StreamEncapsulation c)
             (SLen c) (KLen c) [] []) (hdr ++ Salt c ++ Wrap c)
  = Ok (Salt c, Wrap c).
Proof.
  intros Hh (_ & _ & _ & _ & Hkb & _ & _ & _ & Hsl & Hkl & Hsalt & Hwrap).
  unfold KM_tail, slice_from, len. cbn [SLen KLen KeyBasedEncryption Salt Wrap]. fold (wrapLength (KeyBasedEncryption c) (KLen c)).
  pose proof (wrapLength_bound (KeyBasedEncryption c) (KLen c) ltac:(lia)) as Hw.
  assert (len (hdr ++ Salt c ++ Wrap c) = 16 + SLen c + wrapLength (KeyBasedEncryption c) (KLen c)) as Hlen.
  { unfold len in *. rewrite !length_app, Hh. lia. }
  assert (drop 16 (hdr ++ Salt c ++ Wrap c) = Salt c ++ Wrap c) as Hd16.
  { by rewrite drop_app_ge, Hh, drop_0 by lia. }
  assert (forall A (r : result PacketError A) n, n <= 16 + SLen c -> need n (hdr ++ Salt c ++ Wrap c) r = r) as Hneed
    by (intros; apply need_ok; lia).
  unfold len in *.
  destruct Hsl as [Hs0|Hs16].
  - rewrite Hs0 in *. cbn [Z.gtb Z.compare].
    assert (Salt c = []) as Hsn by (apply nil_length_inv; lia).
    unfold mbind, result_bind. cbv beta iota zeta. rewrite Hneed by lia. rewrite Hd16, Hsn, app_nil_l. rewrite Hsn, app_nil_l in Hlen.
    rewrite Hwrap, Z.ltb_irrefl, Hlen, Z.add_0_r, Z.eqb_refl. cbn [negb].
    rewrite overwrite_full by lia. done.
  - rewrite Hs16 in *. cbn [Z.gtb Z.compare negb Z.eqb Pos.eqb]. rewrite Hneed by lia. rewrite Hd16.
    assert ((Z.of_nat (length (Salt c ++ Wrap c)) <? 16) = false) as -> by (rewrite length_app; zbool; lia).
    assert (drop (16 + Z.to_nat 16) (hdr ++ Salt c ++ Wrap c) = Wrap c) as Hd32.
    { rewrite drop_app_ge, Hh by lia. rewrite drop_app_ge by lia.
      replace (16 + Z.to_nat 16 - 16 - length (Salt c))%nat with 0%nat by lia. by rewrite drop_0. }
    unfold mbind, result_bind. cbv beta iota zeta. rewrite Hneed by lia. rewrite Hd32.
    rewrite Hwrap, Z.ltb_irrefl, Hlen, Z.eqb_refl. cbn [negb].
    rewrite (overwrite_full _ (Wrap c)) by lia.
    assert (overwrite (make (Z.to_nat 16)) (Salt c ++ Wrap c) = Salt c) as ->; [|done].
    clear Hd16 Hd32 Hlen. assert (length (Salt c) = 16%nat) as Hl by lia.
    destruct (Salt c) as [|? l]; [done|]. do 15 (destruct l as [|? l]; [done|]).
    destruct l; [|done]. cbn. by destruct (Wrap c).
Qed.

Lemma KM_roundtrip c : KM_ok c -> KM_UnmarshalCIF zeroKM (KM_MarshalCIF c) = Ok c.
Proof.
  intros [[He Hk]|[He Hc]].
  - pose proof Hk as (HS & HV & HP & Hsg & Hkb & Hki & Hca & Hse & Hsl & Hkl & Hsalt & Hwrap).
    rewrite KM_MarshalCIF_bytes by (done || lia).
    pose proof (KM_tail_ok c (KM_header c) eq_refl Hk) as Ht.
    pose proof (wrapLength_bound (KeyBasedEncryption c) (KLen c) ltac:(lia)) as Hw.
    assert (len (KM_header c ++ Salt c ++ Wrap c) = 16 + SLen c + wrapLength (KeyBasedEncryption c) (KLen c)) as Hlen.
    { unfold len in *. rewrite !length_app. change (length (KM_header c)) with 16%nat. lia. }
    unfold KM_UnmarshalCIF. rewrite Hlen.
    destruct (Z.eqb_spec (16 + SLen c + wrapLength (KeyBasedEncryption c) (KLen c)) 4); [lia|].
    destruct (Z.ltb_spec (16 + SLen c + wrapLength (KeyBasedEncryption c) (KLen c)) 16); [lia|].
    rewrite need_ok by lia. revert Ht. generalize (Salt c ++ Wrap c) as tail. intros tail Ht.
    assert (forall i, (i < 16)%nat -> at_ (KM_header c ++ tail) i = at_ (KM_header c) i) as Hat
      by (intros; by apply at_app_l).
    rewrite (Hat 0%nat), (Hat 3%nat), (Hat 8%nat), (Hat 9%nat), (Hat 10%nat), (Hat 14%nat), (Hat 15%nat) by lia.
    rewrite (Uint16_app_l _ _ 1), (Uint32_app_l _ _ 4) by (cbn; lia).
    assert (at_ (KM_header c) 0 = S_ c * 128 + 18) as ->.
    { unfold at_, KM_header. cbn [nth]. rewrite HV, HP.
      assert (S_ c = 0 \/ S_ c = 1) as [-> | ->] by lia; done. }
    assert (Z.land (Z.shiftr (S_ c * 128 + 18) 7) 1 = S_ c /\
            Z.land (Z.shiftr (S_ c * 128 + 18) 4) 7 = 1 /\ Z.land (S_ c * 128 + 18) 15 = 2) as (-> & -> & ->).
    { assert (S_ c = 0 \/ S_ c = 1) as [-> | ->] by lia; done. }
    assert (Uint16 (KM_header c) 1 = 0x2029) as ->.
    { unfold Uint16, at_, KM_header. cbn [nth app be16 Nat.add]. by rewrite Hsg. }
    assert (at_ (KM_header c) 3 = KeyBasedEncryption c) as ->.
    { unfold at_, KM_header. cbn [nth app be16 Nat.add]. rewrite mask_3. apply Z.mod_small. lia. }
    assert (Uint32 (KM_header c) 4 = KeyEncryptionKeyIndex c) as ->.
    { unfold Uint32, at_, KM_header. cbn [nth app be16 be32 Nat.add]. by apply word32_be32. }
    change (at_ (KM_header c) 8) with (Cipher c). change (at_ (KM_header c) 9) with (Authentication c).
    change (at_ (KM_header c) 10) with (StreamEncapsulation c).
    change (at_ (KM_header c) 14) with (u8 (SLen c / 4)). change (at_ (KM_header c) 15) with (u8 (KLen c / 4)).
    assert (u16 (u8 (SLen c / 4) * 4) = SLen c) as -> by (destruct Hsl as [-> | ->]; done).
    assert (u16 (u8 (KLen c / 4) * 4) = KLen c) as -> by (destruct Hkl as [-> |[-> | ->]]; done).
    assert (Z.land (KeyBasedEncryption c) 3 = KeyBasedEncryption c) as ->
      by (rewrite mask_3; apply Z.mod_small; lia).
    assert ((KeyBasedEncryption c =? EncryptionNone) = false) as -> by (zbool; unfold EncryptionNone; lia).
    assert (negb ((KLen c =? 16) || (KLen c =? 24) || (KLen c =? 32)) = false) as ->
      by (destruct Hkl as [-> |[-> | ->]]; done).
    rewrite Hse, HV, HP, Hsg in *. rewrite He in *. cbn [zeroKM Error Salt Wrap].
    destruct Hca as [[HC HA]|[HC HA]]; rewrite HC, HA in *; cbn [Z.eqb Pos.eqb negb andb orb];
      rewrite Ht; cbn [mbind result_bind]; f_equal; clear -He HV HP Hsg HC HA Hse;
      destruct c; simpl in *; by subst.
  - rewrite Hc. unfold KM_MarshalCIF. simpl.
    destruct (Z.eqb_spec (Error c) 0); [lia|]. simpl.
    unfold KM_UnmarshalCIF. change (len _ =? 4) with true. cbv iota. rewrite need_ok by done.
    read_bytes. unfold setError. simpl. rewrite word32_be32 by (unfold is_u32; lia). done.
Qed.

(** ** The extension loop *)

Definition ext_block (e : Z * list Z) : list Z := be16 (e.1) ++ be16 (len (e.2) / 4) ++ e.2.

Definition ext_ok (e : Z * list Z) : Prop :=
  0 <= e.1 < 32 /\ len (e.2) mod 4 = 0 /\ len (e.2) < 4 * 2 ^ 16.

Lemma appendExtension_block buf t d :
  ext_ok (t, d) -> appendExtension buf t d = buf ++ ext_block (t, d).
Proof.
  intros (Ht & Hm & Hl). simpl in *. unfold appendExtension, ext_block. simpl.
  rewrite (u16_id t) by (unfold is_u16; lia).
  rewrite (u16_id (len d / 4)) by (unfold is_u16, len in *; zdm).
  by rewrite <- !app_assoc.
Qed.

(** What the loop does on a sequence of blocks. *)
Fixpoint ext_fold (c : CIFHandshake) (l : list (Z * list Z)) : result PacketError CIFHandshake :=
  match l with
  | [] => Ok c
  | (t, d) :: l' => c ← HS_ext c t d; ext_fold c l'
  end.

Lemma ext_fold_app c l k : ext_fold c (l ++ k) = (c ← ext_fold c l; ext_fold c k).
Proof.
  revert c. induction l as [|[t d] l IH]; intros c; [done|]. cbn [app ext_fold].
  unfold mbind, result_bind in *. destruct (HS_ext c t d); auto.
Qed.

Lemma ext_block_length e : length (ext_block e) = (4 + length (e.2))%nat.
Proof. done. Qed.

Lemma HS_exts_blocks l fuel c seen :
  Forall ext_ok l -> NoDup (map fst l) ->
  Forall (fun e => Z.testbit seen (e.1) = false) l ->
  (length (concat (map ext_block l)) < fuel)%nat ->
  HS_exts fuel c seen (concat (map ext_block l)) = ext_fold c l.
Proof.
  revert fuel c seen. induction l as [|[t d] l IH]; intros fuel c seen Hok Hnd Hseen Hf.
  { destruct fuel; [lia|]. done. }
  apply Forall_cons_1 in Hok as [(Ht & Hm & Hl) Hok]. apply Forall_cons_1 in Hseen as [Hst Hseen].
  cbn [map fst] in Hnd. apply list.NoDup_cons in Hnd as [Hnt Hnd]. cbn [fst snd] in *.
  cbn [map concat] in *. rewrite length_app, ext_block_length in Hf. cbn [snd] in Hf.
  destruct fuel as [|fuel]; [lia|].
  set (rest := concat (map ext_block l)) in *.
  unfold ext_block, be16. cbn [fst snd app HS_exts ext_fold].
  rewrite (need_ok 4) by (unfold len; simpl length; lia).
  assert (is_u16 t) by (unfold is_u16; lia).
  assert (is_u16 (len d / 4)) by (unfold is_u16, len in *; zdm).
  unfold Uint16, at_, slice_from. cbn [nth Nat.add drop]. rewrite !word16_be16, !drop_0 by done.
  assert (len d / 4 * 4 = len d) as -> by zdm.
  match goal with |- context [len ?x <? 4] => assert ((len x <? 4) = false) as -> by (unfold len; simpl length; zbool; lia) end.
  assert ((len (d ++ rest) <? len d) = false) as -> by (unfold len; rewrite length_app; zbool; lia).
  assert (Z.land t 31 = t) as -> by (change 31 with (2 ^ 5 - 1); rewrite (land_ones_mod t 5) by done; apply Z.mod_small; lia).
  assert (u32 (Z.shiftl 1 t) = 2 ^ t) as ->.
  { rewrite Z.shiftl_1_l. apply u32_id. unfold is_u32. split; [lia|]. apply Z.pow_lt_mono_r; lia. }
  rewrite land_pow2_eqb, Hst by lia. cbn [negb]. rewrite need_ok by (unfold len; rewrite length_app; lia).
  assert (slice 0 (Z.to_nat (len d)) (d ++ rest) = d) as ->.
  { unfold slice, len. rewrite Nat2Z.id, Nat.sub_0_r, drop_0. apply take_app_length. }
  destruct (HS_ext c t d) as [c'|e]; [|done]. cbn [mbind result_bind].
  assert (drop (Z.to_nat (len d)) (d ++ rest) = rest) as ->.
  { unfold len. rewrite Nat2Z.id. apply drop_app_length. }
  destruct l as [|e l].
  { subst rest. cbn [map concat]. rewrite app_nil_r. unfold len. rewrite Z.gtb_ltb, Z.ltb_irrefl. done. }
  assert ((len (d ++ rest) >? len d) = true) as ->.
  { unfold len. rewrite length_app. subst rest. cbn [map concat]. rewrite length_app, ext_block_length. zbool. lia. }
  apply IH; [done|done| |lia].
  rewrite Forall_forall in Hseen |- *. intros e' He'. rewrite Z.lor_spec, (Hseen e' He'), Z.pow2_bits_eqb by lia.
  cbn [orb]. zbool. intros ->. apply Hnt. apply list_elem_of_In, in_map_iff. eauto using list_elem_of_In.
Qed.

(** ** Well-formed handshakes *)

Definition HSExt_ok (hs : CIFHandshakeExtension) : Prop :=
  is_u32 (SRTVersion hs) /\ is_u32 (SRTFlags hs) /\ is_u16 (RecvTSBPDDelay hs) /\ is_u16 (SendTSBPDDelay hs).

Definition text_ok (l : list Z) : Prop := no_trailing_zero l /\ len l < 2 ^ 18 - 4.

Definition nonempty {A} (l : list A) : bool := match l with [] => false | _ => true end.

Definition HS_base_ok (c : CIFHandshake) : Prop :=
  is_u32 (Version c) /\ is_u16 (EncryptionField c) /\ is_u16 (ExtensionField c) /\
  Seq.is_seq (InitialPacketSequenceNumber c) /\ is_u32 (MaxTransmissionUnitSize c) /\
  is_u32 (MaxFlowWindowSize c) /\ is_u32 (HandshakeType c) /\ is_u32 (SRTSocketID c) /\
  is_u32 (SynCookie c) /\ PeerIP_ok (PeerIP c).

(** Each extension is flagged when and only when its content is present. *)
Definition HS_exts_ok (c : CIFHandshake) : Prop :=
  (match SRTHS c with Some hs => HasHS c = true /\ HSExt_ok hs | None => HasHS c = false end) /\
  (match SRTKM c with Some km => HasKM c = true /\ KM_ok km | None => HasKM c = false end) /\
  (HasSID c = nonempty (StreamID c) /\ text_ok (StreamID c) /\ len (StreamID c) <= 512) /\
  ((HasCongestion c = false -> CongestionType c = []) /\ text_ok (CongestionType c)) /\
  (HasFilter c = nonempty (FilterConfig c) /\ text_ok (FilterConfig c)) /\
  (if HasGroup c
   then GroupID c <> 0 /\ is_u32 (GroupID c) /\ is_u8 (GroupType c) /\ is_u8 (GroupFlags c) /\ is_u16 (GroupWeight c)
   else GroupID c = 0 /\ GroupType c = 0 /\ GroupFlags c = 0 /\ GroupWeight c = 0) /\
  (IsRequest c = true -> HasHS c || HasKM c = true).

Definition has_exts (c : CIFHandshake) : bool :=
  HasHS c || HasKM c || HasSID c || HasCongestion c || HasFilter c || HasGroup c.

Definition HS_ok (c : CIFHandshake) : Prop :=
  HS_base_ok c /\ HS_exts_ok c /\
  (has_exts c = true ->
    Version c = 5 /\ HandshakeType c = HandshakeTypeConclusion /\
    (EncryptionField c = 0 \/ EncryptionField c = 2 \/ EncryptionField c = 3 \/ EncryptionField c = 4)).

(** The extension blocks the encoder appends, in its order. *)
Definition exts (c : CIFHandshake) : list (Z * list Z) :=
  (match SRTHS c with
   | Some hs => [(if IsRequest c then ExtTypeHSReq else ExtTypeHSRsp, HSExt_MarshalCIF hs)]
   | None => [] end) ++
  (if HasSID c then [(ExtTypeSID, marshalStreamID (StreamID c))] else []) ++
  (if HasCongestion c then [(ExtTypeCongestion, marshalStreamID (CongestionType c))] else []) ++
  (if HasFilter c then [(ExtTypeFilter, marshalStreamID (FilterConfig c))] else []) ++
  (if HasGroup c then [(ExtTypeGroup, group_data c)] else []) ++
  (match SRTKM c with
   | Some km => [(if IsRequest c then ExtTypeKMReq else ExtTypeKMRsp, KM_MarshalCIF km)]
   | None => [] end).

(** The fixed part alone. *)
Definition strip (c : CIFHandshake) : CIFHandshake :=
  mkHS (Version c) (EncryptionField c) (ExtensionField c) (InitialPacketSequenceNumber c)
    (MaxTransmissionUnitSize c) (MaxFlowWindowSize c) (HandshakeType c) (SRTSocketID c) (SynCookie c)
    (PeerIP c) false false None false None false [] false [] false [] false 0 0 0 0.

Lemma HS_base_length c : length (HS_base c) = 48%nat.
Proof. unfold HS_base, PutUint16, PutUint32. by rewrite !copy_at_length. Qed.

Definition HS_base_bytes (c : CIFHandshake) : list Z :=
  be32 (Version c) ++ be16 (EncryptionField c) ++ be16 (ExtensionField c) ++
  be32 (Z.land (InitialPacketSequenceNumber c) 0x7FFFFFFF) ++ be32 (MaxTransmissionUnitSize c) ++
  be32 (MaxFlowWindowSize c) ++ be32 (HandshakeType c) ++ be32 (SRTSocketID c) ++ be32 (SynCookie c).

Lemma HS_base_split c : HS_base c = HS_base_bytes c ++ marshalIP (PeerIP c).
Proof.
  unfold HS_base. pose proof (marshalIP_length (PeerIP c)) as Hl. revert Hl.
  generalize (marshalIP (PeerIP c)). intros ip Hl.
  change (make 48) with (make 32 ++ make 16 ++ []). rewrite <- Hl at 2.
  match goal with |- copy_at ?b 32 ip = _ => change b with (HS_base_bytes c ++ make (length ip) ++ []) end.
  rewrite copy_at_here by done. by rewrite app_nil_r.
Qed.

Lemma HS_fixed_base c rest :
  HS_base_ok c -> HS_fixed zeroHS (HS_base c ++ rest) = strip c.
Proof.
  intros (? & ? & ? & Hs & ? & ? & ? & ? & ? & Hip). unfold HS_fixed.
  pose proof (marshalIP_length (PeerIP c)) as Hl.
  assert (slice 32 48 (HS_base c ++ rest) = marshalIP (PeerIP c)) as ->.
  { unfold slice. change (48 - 32)%nat with 16%nat. rewrite HS_base_split, <- app_assoc, drop_app_ge by done.
    change (32 - length (HS_base_bytes c))%nat with 0%nat. rewrite drop_0, <- Hl. apply take_app_length. }
  rewrite unmarshalIP_marshalIP by done. rewrite HS_base_split, <- app_assoc.
  unfold HS_base_bytes. rewrite <- !app_assoc. read_bytes.
  rewrite (land_31_seq (InitialPacketSequenceNumber c)) by done.
  assert (is_u32 (InitialPacketSequenceNumber c)) by (unfold Seq.is_seq, is_u32 in *; lia).
  by rewrite !word32_be32, !word16_be16, land_31_seq by done.
Qed.

(** ** Decoding each block *)

(** The [switch] at a known extension type. *)
Ltac ext_switch :=
  unfold HS_ext, ExtTypeGroup, ExtTypeHSReq, ExtTypeHSRsp, ExtTypeKMReq, ExtTypeKMRsp, ExtTypeSID,
    ExtTypeCongestion, ExtTypeFilter;
  cbn [orb negb Z.eqb Pos.eqb]; unfold mbind, result_bind.

Lemma HS_ext_hs (c : CIFHandshake) (req : bool) (hs : CIFHandshakeExtension) :
  HSExt_ok hs ->
  HS_ext c (if req then ExtTypeHSReq else ExtTypeHSRsp) (HSExt_MarshalCIF hs) = Ok (setHS c req hs).
Proof.
  intros (? & ? & ? & ?). destruct hs as [v f r sd]. cbn [SRTVersion SRTFlags RecvTSBPDDelay SendTSBPDDelay] in *.
  assert (HSExt_UnmarshalCIF (HSExt_MarshalCIF (mkHSExt v f r sd)) = Ok (mkHSExt v f r sd)) as Hd.
  { change (HSExt_MarshalCIF (mkHSExt v f r sd)) with (be32 v ++ be32 f ++ be16 r ++ be16 sd).
    unfold HSExt_UnmarshalCIF. change (len _ <? 12) with false. cbv iota. rewrite need_ok by done. read_bytes. by rewrite !word32_be32, !word16_be16 by done. }
  destruct req; ext_switch; rewrite Hd; by change (len (HSExt_MarshalCIF _) =? 12) with true.
Qed.

Lemma HS_ext_km (c : CIFHandshake) (req : bool) (km : CIFKeyMaterial) :
  KM_ok km ->
  HS_ext c (if req then ExtTypeKMReq else ExtTypeKMRsp) (KM_MarshalCIF km) = Ok (setKM c req km).
Proof. intros Hk. destruct req; ext_switch; by rewrite KM_roundtrip. Qed.

Lemma HS_ext_sid c sid :
  no_trailing_zero sid -> len sid <= 512 -> HS_ext c ExtTypeSID (marshalStreamID sid) = Ok (setSID c sid).
Proof.
  intros Hz Hl. ext_switch. destruct (marshalStreamID_length sid) as [Hm Hb].
  assert ((len (marshalStreamID sid) >? 512) = false) as -> by (zbool; zdm).
  by rewrite streamID_roundtrip.
Qed.

Lemma HS_ext_congestion c cc :
  no_trailing_zero cc -> HS_ext c ExtTypeCongestion (marshalStreamID cc) = Ok (setCongestion c cc).
Proof. intros. ext_switch. by rewrite streamID_roundtrip. Qed.

Lemma HS_ext_filter c f :
  no_trailing_zero f -> HS_ext c ExtTypeFilter (marshalStreamID f) = Ok (setFilter c f).
Proof. intros. ext_switch. by rewrite streamID_roundtrip. Qed.

Lemma group_word ty fl w :
  is_u8 ty -> is_u8 fl -> is_u16 w ->
  exists dw, Z.lor (Z.lor (u32 (Z.shiftl ty 24)) (u32 (Z.shiftl fl 16))) w = dw /\
  is_u32 dw /\ u8 (Z.shiftr dw 24) = ty /\ u8 (Z.shiftr dw 16) = fl /\ u16 dw = w.
Proof.
  unfold is_u8, is_u16. intros Ht Hf Hw. exists (ty * 2 ^ 24 + fl * 2 ^ 16 + w). split.
  - rewrite !u32_id by (unfold is_u32; rewrite Z.shiftl_mul_pow2; lia).
    rewrite <- Z.lor_assoc, (lor_shiftl_add fl w 16), (lor_shiftl_add ty _ 24) by lia. lia.
  - rewrite !Z.shiftr_div_pow2 by lia. unfold is_u32, u8, u16. split_and!; zdm.
Qed.

Lemma HS_ext_group st c :
  is_u32 (GroupID c) -> is_u8 (GroupType c) -> is_u8 (GroupFlags c) -> is_u16 (GroupWeight c) ->
  HS_ext st ExtTypeGroup (group_data c) =
    Ok (setGroup st (GroupID c) (GroupType c) (GroupFlags c) (GroupWeight c)).
Proof.
  intros Hi Ht Hf Hw. destruct (group_word _ _ _ Ht Hf Hw) as (dw & E & Hd & H1 & H2 & H3).
  ext_switch. change (len (group_data c) >=? 8) with true. cbv iota.
  assert (group_data c = be32 (GroupID c) ++ be32 dw) as -> by (unfold group_data; by rewrite E).
  read_bytes. by rewrite !word32_be32, H1, H2, H3 by done.
Qed.

(** Folding the blocks of [c] over its fixed part rebuilds [c]. *)
Lemma ext_fold_one st t d st' : HS_ext st t d = Ok st' -> ext_fold st [(t, d)] = Ok st'.
Proof. intros H. cbn [ext_fold]. unfold mbind, result_bind. by rewrite H. Qed.

Lemma ext_fold_if (b : bool) st t d (f : CIFHandshake -> CIFHandshake) :
  (b = true -> HS_ext st t d = Ok (f st)) ->
  ext_fold st (if b then [(t, d)] else []) = Ok (if b then f st else st).
Proof. intros H. destruct b; [by apply ext_fold_one, H|done]. Qed.

Lemma ext_fold_match {A} (o : option A) st t (d : A -> list Z) (f : A -> CIFHandshake -> CIFHandshake) :
  (forall a, o = Some a -> HS_ext st t (d a) = Ok (f a st)) ->
  ext_fold st (match o with Some a => [(t, d a)] | None => [] end) =
    Ok (match o with Some a => f a st | None => st end).
Proof. intros H. destruct o; [by apply ext_fold_one, H|done]. Qed.

Lemma ext_fold_seq st l k st' : ext_fold st l = Ok st' -> ext_fold st (l ++ k) = ext_fold st' k.
Proof. intros H. by rewrite ext_fold_app, H. Qed.

Lemma ext_fold_exts c : HS_exts_ok c -> ext_fold (strip c) (exts c) = Ok c.
Proof.
  intros (Hhs & Hkm & (Hsid & [Hz1 _] & Hl1) & (Hcc & [Hz2 _]) & (Hf & [Hz3 _]) & Hg & Hreq).
  unfold exts.
  erewrite ext_fold_seq; [|apply (ext_fold_match (SRTHS c) _ _ _ (fun hs st => setHS st (IsRequest c) hs));
    intros a E; rewrite E in Hhs; destruct Hhs; by apply HS_ext_hs].
  erewrite ext_fold_seq; [|apply (ext_fold_if _ _ _ _ (fun st => setSID st (StreamID c))); intros; by apply HS_ext_sid].
  erewrite ext_fold_seq; [|apply (ext_fold_if _ _ _ _ (fun st => setCongestion st (CongestionType c)));
    intros; by apply HS_ext_congestion].
  erewrite ext_fold_seq; [|apply (ext_fold_if _ _ _ _ (fun st => setFilter st (FilterConfig c)));
    intros; by apply HS_ext_filter].
  erewrite ext_fold_seq; [|apply (ext_fold_if _ _ _ _
      (fun st => setGroup st (GroupID c) (GroupType c) (GroupFlags c) (GroupWeight c)));
    intros E; rewrite E in Hg; destruct Hg as (? & ? & ? & ? & ?); by apply HS_ext_group].
  erewrite (ext_fold_match (SRTKM c) _ _ KM_MarshalCIF (fun km st => setKM st (IsRequest c) km))
    by (intros a E; rewrite E in Hkm; destruct Hkm; by apply HS_ext_km).
  f_equal. clear Hz1 Hl1 Hz2 Hz3.
  destruct c as [v ef xf isn mtu fw ht sid sc ip req hhs hs hkm km hsid strid hcc cc hf fc hg gid gt gf gw].
  simpl in *. subst hsid hf.
  assert (hhs = match hs with Some _ => true | None => false end) as -> by (by destruct hs as [?|]; [destruct Hhs|]).
  assert (hkm = match km with Some _ => true | None => false end) as -> by (by destruct km as [?|]; [destruct Hkm|]).
  assert (req = true -> hs = None -> km = None -> False) as Hr by (intros -> -> ->; by specialize (Hreq eq_refl)).
  destruct hs, km, strid, hcc, fc, hg; simpl; rewrite ?(Hcc eq_refl); destruct_and?; subst; try done;
    destruct req; try done; by destruct Hr.
Qed.

(** ** The handshake on the wire *)

Lemma KM_MarshalCIF_length km :
  KM_ok km -> len (KM_MarshalCIF km) mod 4 = 0 /\ len (KM_MarshalCIF km) <= 104.
Proof.
  intros [[He Hk]|[He ->]].
  - destruct Hk as (_ & _ & _ & _ & _ & _ & _ & _ & Hsl & Hkl & Hsalt & Hwrap).
    rewrite KM_MarshalCIF_bytes by (done || lia). unfold len in *. rewrite !length_app.
    change (length (KM_header km)) with 16%nat.
    replace (Z.of_nat _) with (16 + SLen km + wrapLength (KeyBasedEncryption km) (KLen km)) by lia.
    unfold wrapLength. case_match; destruct Hsl as [-> | ->], Hkl as [-> |[-> | ->]]; done.
  - unfold KM_MarshalCIF. simpl. destruct (Z.eqb_spec (Error km) 0); [lia|done].
Qed.

Lemma text_ext_ok t l : 0 <= t < 32 -> text_ok l -> ext_ok (t, marshalStreamID l).
Proof. intros Ht [_ Hl]. destruct (marshalStreamID_length l). unfold ext_ok. simpl. lia. Qed.

Lemma exts_ok c : HS_exts_ok c -> Forall ext_ok (exts c).
Proof.
  intros (Hhs & Hkm & (_ & Hs & _) & (_ & Hc) & (_ & Hf) & _ & _).
  unfold exts. rewrite !Forall_app. repeat split.
  - destruct (SRTHS c); constructor; [|constructor]. by destruct (IsRequest c).
  - destruct (HasSID c); constructor; [by apply text_ext_ok|constructor].
  - destruct (HasCongestion c); constructor; [by apply text_ext_ok|constructor].
  - destruct (HasFilter c); constructor; [by apply text_ext_ok|constructor].
  - destruct (HasGroup c); constructor; [done|constructor].
  - destruct (SRTKM c) as [km|]; constructor; [|constructor]. destruct Hkm as [_ Hkm].
    destruct (KM_MarshalCIF_length km Hkm). unfold ext_ok. simpl. split; [by destruct (IsRequest c)|lia].
Qed.

Lemma exts_NoDup c : NoDup (map fst (exts c)).
Proof.
  unfold exts. rewrite !map_app.
  destruct (SRTHS c), (SRTKM c), (IsRequest c), (HasSID c), (HasCongestion c), (HasFilter c), (HasGroup c);
    apply (bool_decide_unpack _); vm_compute; exact I.
Qed.

(** The encoder sends the fixed part and the blocks, in order. *)
Lemma HS_MarshalCIF_blocks c :
  HS_exts_ok (HS_normalize c) ->
  HS_MarshalCIF c =
    (HS_normalize c, Ok (HS_base (HS_normalize c) ++ concat (map ext_block (exts (HS_normalize c))))).
Proof.
  unfold HS_MarshalCIF. generalize (HS_normalize c). clear c. intros c Hok. f_equal.
  pose proof (exts_ok c Hok) as Hx. destruct Hok as (Hhs & Hkm & (Hsid & _) & _ & (Hf & _) & Hg & _).
  assert (HasFilter c && negb (Nat.eqb (length (FilterConfig c)) 0) = HasFilter c) as ->.
  { rewrite Hf. by destruct (FilterConfig c). }
  assert (HasGroup c && negb (GroupID c =? 0) = HasGroup c) as ->.
  { destruct (HasGroup c); [|done]. destruct (Z.eqb_spec (GroupID c) 0); [|done]. by destruct Hg. }
  unfold exts in *. rewrite !Forall_app in Hx. destruct Hx as (H1 & H2 & H3 & H4 & H5 & H6).
  rewrite !map_app, !concat_app. unfold mbind, result_bind.
  destruct (SRTHS c) as [hs|]; [destruct Hhs as [-> _]|rewrite Hhs];
  (destruct (SRTKM c) as [km|]; [destruct Hkm as [-> _]|rewrite Hkm]);
  destruct (HasSID c), (HasCongestion c), (HasFilter c), (HasGroup c);
  rewrite ?Forall_singleton in *; rewrite ?appendExtension_block by done; f_equal;
  cbn [map concat]; by rewrite ?app_nil_r, <- ?app_assoc.
Qed.

(** The receiver updates only touch the encryption and extension fields. *)
Lemma HS_normalize_eq c :
  HasSID c = nonempty (StreamID c) -> is_u16 (EncryptionField c) -> is_u16 (ExtensionField c) ->
  exists enc ext, HS_normalize c = setEncExt c enc ext /\ is_u16 enc /\ is_u16 ext /\
    (Version c = 5 -> HandshakeType c = HandshakeTypeConclusion ->
       enc = EncryptionField c /\ (has_exts c = true -> ext <> 0)).
Proof.
  intros Hsid He Hx. unfold HS_normalize.
  assert ((match StreamID c with [] => setHasSID c false | _ => c end) = c) as ->.
  { destruct (StreamID c) eqn:E; [|done]. destruct c; simpl in *; by subst. }
  destruct ((Version c =? 5) && (HandshakeType c =? HandshakeTypeConclusion)) eqn:E.
  - eexists _, _. split; [done|]. split; [done|]. unfold has_exts.
    destruct (HasHS c), (HasKM c), (HasSID c || HasCongestion c || HasFilter c || HasGroup c) eqn:E';
      (split; [done|]); intros _ _; (split; [done|]); try (intros _; by vm_compute).
    intros H. destruct (HasSID c), (HasCongestion c), (HasFilter c), (HasGroup c); done.
  - assert (~ (Version c = 5 /\ HandshakeType c = HandshakeTypeConclusion)) as Hn.
    { intros [H1 H2]. by rewrite H1, H2 in E. }
    destruct (Version c =? 4) eqn:E4.
    + exists 0, 2. repeat (split; [done|]). intros; by destruct Hn.
    + exists (EncryptionField c), (ExtensionField c). repeat (split; [by destruct c|]). intros; by destruct Hn.
Qed.

Lemma HS_normalize_ok c :
  HS_ok c -> HS_ok (HS_normalize c) /\ (has_exts c = true -> ExtensionField (HS_normalize c) <> 0) /\
    has_exts (HS_normalize c) = has_exts c.
Proof.
  intros ((? & He & Hx & Hb) & Hok & Hv). pose proof Hok as (_ & _ & (Hsid & _) & _).
  destruct (HS_normalize_eq c Hsid He Hx) as (enc & ext & -> & ? & ? & Hc).
  unfold HS_ok, HS_base_ok, HS_exts_ok, has_exts, setEncExt in *. simpl in *.
  split; [|split; [|done]].
  - split; [tauto|]. split; [tauto|]. intros Hh. destruct (Hv Hh) as (H5 & Hct & ?).
    destruct (Hc H5 Hct) as [-> _]. tauto.
  - intros Hh. destruct (Hv Hh) as (H5 & Hct & ?). by apply Hc.
Qed.

Lemma exts_nil c : HS_exts_ok c -> has_exts c = false -> exts c = [] /\ c = strip c.
Proof.
  intros Hok Hn. pose proof (ext_fold_exts c Hok) as Hx.
  assert (exts c = []) as E.
  { destruct Hok as (Hhs & Hkm & _). unfold exts, has_exts in *.
    destruct (SRTHS c); [destruct Hhs as [E _]; by rewrite E in Hn|]. destruct (SRTKM c); [destruct Hkm as [E _]; by rewrite E, orb_true_r in Hn|].
    rewrite Hhs, Hkm in Hn. simpl in Hn.
    destruct (HasSID c), (HasCongestion c), (HasFilter c), (HasGroup c); done. }
  rewrite E in *. split; [done|]. apply Ok_inj in Hx. done.
Qed.

Lemma exts_bytes_pos c : exts c <> [] -> (4 <= length (concat (map ext_block (exts c))))%nat.
Proof.
  destruct (exts c) as [|e l]; [done|]. intros _. cbn [map concat].
  rewrite length_app, ext_block_length. lia.
Qed.

(** Decoding what the encoder sends. *)
Lemma HS_UnmarshalCIF_blocks c :
  HS_ok c -> (has_exts c = true -> ExtensionField c <> 0) ->
  HS_UnmarshalCIF zeroHS (HS_base c ++ concat (map ext_block (exts c))) = Ok c.
Proof.
  intros (Hb & Hok & Hv) Hx. unfold HS_UnmarshalCIF.
  set (tail := concat (map ext_block (exts c))). rewrite HS_fixed_base by done.
  assert (len (HS_base c ++ tail) = 48 + len tail) as Hl by (unfold len; rewrite length_app, HS_base_length; lia).
  assert (0 <= len tail) by (unfold len; lia).
  rewrite Hl. destruct (Z.ltb_spec (48 + len tail) 48); [lia|]. rewrite need_ok by lia. unfold strip.
  cbn [HandshakeType ExtensionField EncryptionField]. fold (strip c).
  destruct (has_exts c) eqn:Eh.
  - destruct (Hv eq_refl) as (_ & -> & Henc). specialize (Hx eq_refl).
    assert (exts c <> []) as Hne.
    { intros E. pose proof (ext_fold_exts c Hok) as Hf. rewrite E in Hf. apply Ok_inj in Hf.
      rewrite <- Hf in Eh. done. }
    pose proof (exts_bytes_pos c Hne) as Hp. fold tail in Hp.
    cbn [Z.eqb Pos.eqb negb HandshakeTypeConclusion HandshakeTypeInduction].
    destruct (Z.eqb_spec (ExtensionField c) 0); [done|]. cbn [orb].
    destruct (Z.leb_spec (48 + len tail) 48); [unfold len in *; lia|].
    assert (negb ((EncryptionField c =? 0) || (EncryptionField c =? 2) || (EncryptionField c =? 3) ||
                  (EncryptionField c =? 4)) = false) as -> by (by destruct Henc as [-> |[-> |[-> | ->]]]).
    unfold slice_from. rewrite <- (HS_base_length c), drop_app_length. unfold tail.
    rewrite HS_exts_blocks; [by apply ext_fold_exts|by apply exts_ok|apply exts_NoDup| |].
    + apply Forall_forall. intros. apply Z.bits_0.
    + rewrite length_app, HS_base_length. lia.
  - destruct (exts_nil c Hok Eh) as [E Es]. subst tail. rewrite E. cbn [map concat].
    change (len []) with 0. rewrite Z.add_0_r, Z.leb_refl, orb_true_r.
    rewrite <- Es. by repeat case_match.
Qed.

(** ** Decoding untrusted bytes *)

(** What the code may rely on after a successful decode. *)
Definition KM_decoded (km : CIFKeyMaterial) : Prop :=
  (Error km = 0 /\ KM_keys_ok km) \/ (is_u32 (Error km) /\ km = setError zeroKM (Error km)).

Definition HS_decoded (c : CIFHandshake) : Prop :=
  is_u32 (Version c) /\ is_u16 (EncryptionField c) /\ is_u16 (ExtensionField c) /\
  Seq.is_seq (InitialPacketSequenceNumber c) /\ is_u32 (SRTSocketID c) /\ is_u32 (SynCookie c) /\
  (is_u32 (MaxTransmissionUnitSize c) /\ is_u32 (MaxFlowWindowSize c) /\ is_u32 (HandshakeType c)) /\
  (len (PeerIP c) = 4 \/ len (PeerIP c) = 16) /\
  (match SRTHS c with Some hs => HasHS c = true /\ HSExt_ok hs | None => HasHS c = false end) /\
  (match SRTKM c with Some km => HasKM c = true /\ KM_decoded km | None => HasKM c = false end) /\
  len (StreamID c) <= 512 /\
  is_u32 (GroupID c) /\ is_u8 (GroupType c) /\ is_u8 (GroupFlags c) /\ is_u16 (GroupWeight c).

Lemma KM_tail_sound c data salt wrap :
  KM_tail c data = Ok (salt, wrap) -> 0 <= SLen c -> 0 <= KLen c -> Salt c = [] ->
  (SLen c = 0 \/ SLen c = 16) /\ len salt = SLen c /\
  len wrap = wrapLength (KeyBasedEncryption c) (KLen c).
Proof.
  intros H Hs Hk Hn. unfold KM_tail, need, mbind, result_bind in H.
  fold (wrapLength (KeyBasedEncryption c) (KLen c)) in H.
  pose proof (wrapLength_pos (KeyBasedEncryption c) (KLen c) Hk).
  destruct (Z.gtb_spec (SLen c) 0).
  - destruct (Z.eqb_spec (SLen c) 16) as [E|]; [|done]. cbn [negb] in H. rewrite E in H |- *.
    do 4 (destruct (_ <? _) in H; [done|]). destruct (negb _) in H; [done|].
    apply Ok_inj, pair_equal_spec in H as [<- <-]. unfold len. rewrite !overwrite_length. unfold make.
    rewrite !length_replicate. lia.
  - do 2 (destruct (_ <? _) in H; [done|]). destruct (negb _) in H; [done|].
    apply Ok_inj, pair_equal_spec in H as [<- <-]. unfold len. rewrite !overwrite_length, Hn. unfold make.
    rewrite !length_replicate. simpl. lia.
Qed.

Lemma KM_UnmarshalCIF_sound data km :
  bytes_ok data -> KM_UnmarshalCIF zeroKM data = Ok km -> KM_decoded km.
Proof.
  intros Hd H. unfold KM_UnmarshalCIF in H.
  destruct (Z.eqb_spec (len data) 4).
  { rewrite need_ok in H by lia. apply Ok_inj in H as <-. right. split; [|done]. simpl. by apply Uint32_range. }
  destruct (Z.ltb_spec (len data) 16); [done|]. rewrite need_ok in H by lia.
  destruct (Z.eqb_spec (Z.land (Z.shiftr (at_ data 0) 4) 7) 1) as [HV|]; [|done]. cbn [negb] in H.
  destruct (Z.eqb_spec (Z.land (at_ data 0) 15) 2) as [HP|]; [|done]. cbn [negb] in H.
  destruct (Z.eqb_spec (Uint16 data 1) 0x2029) as [Hsg|]; [|done]. cbn [negb] in H.
  destruct (Z.eqb_spec (Z.land (at_ data 3) 3) EncryptionNone) as [|Hkb]; [done|].
  destruct ((at_ data 8 =? 2) || (at_ data 8 =? 4)) eqn:HC; [|done]. cbn [negb] in H.
  destruct ((at_ data 8 =? 4) && negb (at_ data 9 =? 1)) eqn:HA4; [done|].
  destruct ((at_ data 8 =? 2) && negb (at_ data 9 =? 0)) eqn:HA2; [done|].
  destruct (Z.eqb_spec (at_ data 10) 2) as [Hse|]; [|done]. cbn [negb] in H.
  set (kl := u16 (at_ data 15 * 4)) in *. set (sl := u16 (at_ data 14 * 4)) in *.
  destruct ((kl =? 16) || (kl =? 24) || (kl =? 32)) eqn:Hkl; [|done]. cbn [negb] in H.
  unfold mbind, result_bind in H.
  match type of H with context [KM_tail ?k _] => destruct (KM_tail k data) as [[salt wrap]|] eqn:Ht; [|done] end.
  assert (is_u16 kl) as Hk1 by apply u16_range. assert (is_u16 sl) as Hs1 by apply u16_range.
  destruct (KM_tail_sound _ _ _ _ Ht) as (Hsl & Hsalt & Hwrap); simpl in *; [unfold is_u16 in *; lia..|done|].
  apply Ok_inj in H as <-. left. split; [done|]. unfold KM_keys_ok.
  cbn [S_ KMVersion PacketType Sign KeyBasedEncryption KeyEncryptionKeyIndex Cipher Authentication
       StreamEncapsulation SLen KLen Salt Wrap].
  rewrite !orb_true_iff, !Z.eqb_eq in *. rewrite !andb_false_iff, !negb_false_iff, !Z.eqb_eq, !Z.eqb_neq in *.
  rewrite mask_1, mask_3 in *. unfold EncryptionNone in *.
  split; [apply (Z.mod_pos_bound _ (2 ^ 1)); lia|]. repeat (split; [done|]).
  split; [change (2 ^ 2) with 4 in *; pose proof (Z.mod_pos_bound (at_ data 3) 4); lia|].
  split; [by apply Uint32_range|]. split; [lia|]. repeat (split; [done || tauto|]). done.
Qed.

(** Outcomes that are no errors of the program. *)
Definition sound_error (e : PacketError) : Prop := e <> ErrFuel /\ e <> ErrIndex.

Lemma KM_UnmarshalCIF_errors c data e : KM_UnmarshalCIF c data = Err e -> sound_error e.
Proof.
  unfold KM_UnmarshalCIF. destruct (Z.eqb_spec (len data) 4); [by rewrite need_ok by lia|].
  destruct (Z.ltb_spec (len data) 16); [by intros [= <-]|]. rewrite need_ok by lia. unfold KM_tail. cbv zeta.
  repeat (match goal with |- context [if ?b then Err _ else _] =>
    lazymatch b with context [SLen] => fail | _ => destruct b; [by intros [= <-]|] end end).
  cbn [SLen KLen KeyBasedEncryption Salt]. set (sl := u16 (at_ data 14 * 4)). set (kl := u16 (at_ data 15 * 4)).
  destruct (Z.gtb_spec sl 0); cbn [mbind result_bind].
  - destruct (Z.eqb_spec sl 16) as [->|]; cbn [negb]; [|by intros [= <-]]. rewrite (need_ok 16) by lia.
    destruct (Z.ltb_spec (len (slice_from 16 data)) 16) as [|Hs]; [by intros [= <-]|]. cbn [mbind result_bind].
    rewrite need_ok by (unfold len, slice_from in *; rewrite length_drop in Hs; lia).
    repeat (match goal with |- context [if ?b then Err _ else _] => destruct b; [by intros [= <-]|] end). done.
  - rewrite need_ok by lia. repeat (match goal with |- context [if ?b then Err _ else _] => destruct b; [by intros [= <-]|] end). done.
Qed.

Lemma HS_ext_errors c t d e : HS_ext c t d = Err e -> sound_error e.
Proof.
  unfold HS_ext, HSExt_UnmarshalCIF. cbv zeta.
  destruct (_ || _).
  { destruct (Z.eqb_spec (len d) 12) as [E|]; cbn [negb]; [|by intros [= <-]]. rewrite E. cbn [Z.ltb Z.compare Pos.compare Pos.compare_cont].
    rewrite need_ok by lia. done. }
  destruct (_ || _).
  { pose proof (KM_UnmarshalCIF_errors zeroKM d) as H. destruct (KM_UnmarshalCIF zeroKM d); [done|]. intros [= <-]. by apply H. }
  destruct (t =? ExtTypeSID); [destruct (_ >? _); [by intros [= <-]|done]|].
  destruct (t =? ExtTypeCongestion); [done|]. destruct (t =? ExtTypeFilter); [done|]. destruct (t =? ExtTypeGroup); [|done].
  destruct (Z.geb_spec (len d) 8); [by rewrite need_ok by lia|done].
Qed.

Lemma TrimRight0_length l : len (TrimRight0 l) <= len l.
Proof.
  unfold TrimRight0, len. rewrite length_rev. rewrite <- (length_rev l). generalize (rev l). clear l.
  intros l. induction l as [|x l IH]; cbn [dropZeros]; [done|]. destruct (x =? 0); simpl in *; lia.
Qed.

Lemma unswap_words_length l : (length (unswap_words l) <= length l)%nat.
Proof.
  remember (length l) as n eqn:En. revert l En. induction n as [n IH] using lt_wf_ind. intros l ->.
  do 4 (destruct l as [|? l]; [simpl; lia|]). cbn [unswap_words length].
  pose proof (IH (length l) ltac:(simpl; lia) l eq_refl). lia.
Qed.

Lemma HS_ext_sound c t d c' :
  bytes_ok d -> HS_decoded c -> HS_ext c t d = Ok c' -> HS_decoded c'.
Proof.
  intros Hd (? & ? & ? & ? & ? & ? & (? & ? & ?) & ? & Hhs & Hkm & ? & ? & ? & ? & ?) Hr. unfold HS_ext, mbind, result_bind in Hr.
  destruct (_ || _) in Hr.
  { destruct (negb _) in Hr; [done|]. unfold HSExt_UnmarshalCIF in Hr. destruct (Z.ltb_spec (len d) 12) in Hr; [done|]. rewrite need_ok in Hr by lia.
    apply Ok_inj in Hr as <-. unfold HS_decoded, HSExt_ok. simpl. conjs; try done; auto with go. }
  destruct (_ || _) in Hr.
  { destruct (KM_UnmarshalCIF zeroKM d) eqn:E; [|done]. apply Ok_inj in Hr as <-.
    apply KM_UnmarshalCIF_sound in E; [|done]. unfold HS_decoded. simpl. tauto. }
  destruct (_ =? _) in Hr.
  { destruct (Z.gtb_spec (len d) 512); [done|]. apply Ok_inj in Hr as <-. unfold HS_decoded. simpl.
    assert (len (unmarshalStreamID d) <= 512) by (unfold unmarshalStreamID;
      pose proof (TrimRight0_length (unswap_words d)); pose proof (unswap_words_length d); unfold len in *; lia).
    tauto. }
  destruct (_ =? _) in Hr; [apply Ok_inj in Hr as <-; unfold HS_decoded; simpl; tauto|].
  destruct (_ =? _) in Hr; [apply Ok_inj in Hr as <-; unfold HS_decoded; simpl; tauto|].
  destruct (_ =? _) in Hr; [|apply Ok_inj in Hr as <-; unfold HS_decoded; tauto].
  destruct (Z.geb_spec (len d) 8) in Hr; [rewrite need_ok in Hr by lia|]; apply Ok_inj in Hr as <-; unfold HS_decoded; [|tauto]. simpl.
  conjs; try done; auto with go.
Qed.

Lemma slice_ok a b l : bytes_ok l -> bytes_ok (slice a b l).
Proof. intros. by apply Forall_take, Forall_drop. Qed.

Lemma HS_exts_sound fuel c seen data :
  bytes_ok data -> HS_decoded c -> (length data < fuel)%nat ->
  match HS_exts fuel c seen data with Ok c' => HS_decoded c' | Err e => sound_error e end.
Proof.
  revert c seen data. induction fuel as [|fuel IH]; intros c seen data Hd Hc Hf; [lia|].
  cbn [HS_exts]. destruct (Z.ltb_spec (len data) 4) as [|Hl]; [done|].
  rewrite need_ok by lia. cbv zeta.
  destruct (Z.ltb_spec (len (slice_from 4 data)) (Uint16 data 2 * 4)); [done|]. destruct (negb _); [done|].
  assert (bytes_ok (slice_from 4 data)) as Hd4 by (by apply Forall_drop).
  rewrite need_ok by lia. unfold mbind, result_bind.
  destruct (HS_ext _ _ _) as [c'|e] eqn:E; [|by apply HS_ext_errors in E].
  apply HS_ext_sound in E; [|by apply slice_ok|done].
  destruct (_ >? _); [|done]. apply IH; [by apply Forall_drop|done|].
  unfold slice_from. rewrite !length_drop. unfold len in *. lia.
Qed.

Lemma HS_UnmarshalCIF_sound data :
  bytes_ok data ->
  match HS_UnmarshalCIF zeroHS data with Ok c => HS_decoded c | Err e => sound_error e end.
Proof.
  intros Hd. unfold HS_UnmarshalCIF. destruct (Z.ltb_spec (len data) 48) as [|Hl]; [done|]. rewrite need_ok by lia.
  assert (HS_decoded (HS_fixed zeroHS data)) as Hf.
  { unfold HS_decoded, HS_fixed. simpl. conjs; try done; auto with go.
    - rewrite mask_31. apply (Z.mod_pos_bound _ (2 ^ 31)). lia.
    - unfold unmarshalIP, slice, len in *. case_match; rewrite length_take, length_drop, length_take, length_drop; lia. }
  repeat (match goal with |- context [if ?b then _ else _] => destruct b; try done end).
  apply HS_exts_sound; [by apply Forall_drop|done|]. unfold slice_from, len in *. rewrite length_drop. lia.
Qed.

Lemma HS_over_wire c :
  HS_ok c -> exists data, HS_MarshalCIF c = (HS_normalize c, Ok data) /\ HS_UnmarshalCIF zeroHS data = Ok (HS_normalize c).
Proof.
  intros Hok. destruct (HS_normalize_ok c Hok) as (Hn & Hx & Heq).
  eexists. split; [apply HS_MarshalCIF_blocks, Hn|].
  apply HS_UnmarshalCIF_blocks; [done|]. by rewrite Heq.
Qed.

(** ** Claims *)

(** C14. Handshakes survive the wire: encoding a well-formed handshake (any
    combination of HS, KM, stream ID, congestion, filter and group extensions)
    succeeds, and decoding the bytes yields exactly the handshake the encoder
    normalised (its extension field recomputed), extensions included. *)
Theorem handshake_roundtrip (c : CIFHandshake) :
  HS_ok c ->
  exists data, HS_MarshalCIF c = (HS_normalize c, Ok data) /\
    HS_UnmarshalCIF zeroHS data = Ok (HS_normalize c).
Proof.
  exact (HS_over_wire c).
Qed.

(** A caller's conclusion with HS, stream ID, congestion and group extensions. *)
Definition sampleHS : CIFHandshake :=
  mkHS 5 2 0 77 1500 8192 HandshakeTypeConclusion 42 99 [10; 0; 0; 1]
    true true (Some (mkHSExt 0x010500 0xBF 120 120)) false None true [115; 114; 116; 47; 49]
    true [102; 105; 108; 101] false [] true 7 1 0 3.

Lemma handshake_roundtrip_witness :
  HS_ok sampleHS /\ is_Ok (snd (HS_MarshalCIF sampleHS)) = true /\
  ExtensionField (HS_normalize sampleHS) = 5.
Proof.
  assert (HS_ok sampleHS) as Hok.
  { unfold HS_ok, HS_base_ok, HS_exts_ok, PeerIP_ok, HSExt_ok, text_ok.
    conjs; first [apply (bool_decide_unpack _); vm_compute; exact I|left; done|vm_compute; done|idtac].
    all: try (intros; simpl; conjs; apply (bool_decide_unpack _); vm_compute; exact I). }
  split; [done|]. destruct (handshake_roundtrip sampleHS Hok) as (d & Hd & _). rewrite Hd. done.
Defined.

(** C15. Decoding is safe on untrusted bytes: for any byte string the handshake
    decoder returns (its loop bound is never reached) without an index or slice
    expression out of range, in the fixed part, the extension blocks and the key
    material; and what it accepts has every number in the range of its field, a
    sequence number of 31 bits, an address of 4 or 16 bytes, a stream ID of at most
    512 bytes and key material that is either an error word or passes every check of
    the KM message (cipher/authentication pair, key and salt length, exact total
    length). *)
Theorem handshake_decode_safe (data : list Z) :
  bytes_ok data ->
  match HS_UnmarshalCIF zeroHS data with
  | Ok c => HS_decoded c
  | Err e => e <> ErrFuel /\ e <> ErrIndex
  end.
Proof. apply HS_UnmarshalCIF_sound. Qed.

Lemma handshake_decode_safe_witness :
  is_Ok (HS_UnmarshalCIF zeroHS (make 48)) = true /\
  match HS_UnmarshalCIF zeroHS (make 48) with Ok c => HS_decoded c | Err e => sound_error e end.
Proof. split; [by vm_compute|]. apply (handshake_decode_safe (make 48)), make_ok. Defined.

(** The duplicate check folds extension types modulo 32: an extension of
    an unknown type, which the decoder otherwise skips, makes it refuse the
    handshake as carrying a duplicate when a known extension agrees with it
    modulo 32 (here type 40 beside the group extension, type 8). *)
Theorem handshake_ext_collision :
  let fixed := HS_base (setEncExt sampleHS 0 4) in
  let known := ext_block (ExtTypeGroup, make 8) in
  let unknown := ext_block (40, make 4) in
  is_Ok (HS_UnmarshalCIF zeroHS (fixed ++ known)) = true /\
  is_Ok (HS_UnmarshalCIF zeroHS (fixed ++ unknown)) = true /\
  HS_UnmarshalCIF zeroHS (fixed ++ known ++ unknown) = Err (ErrExtDuplicate 40).
Proof. by vm_compute. Qed.

End Cif.
