(* ===== verification/Clock.v ===== *)
(** * Time ([internal/clock/timestamp.go], [internal/clock/clock.go])

    [Timestamp] and [Microseconds] are [int64] values; the wire carries the
    low 32 bits of a timestamp.  The operations are modelled at 64 bits, with
    the recovery of a full timestamp from a wire one, and the clock interface
    as a class that the mock clock of the package implements. *)
From Stdlib Require Import ZArith Lia.
From stdpp Require Import base numbers.
From S2P Require Import Prelude.
Local Open Scope Z_scope.

Module Clock.

(** ** Durations *)

Definition Millisecond : Z := 1000.
Definition Second : Z := 1000 * Millisecond.
Definition Minute : Z := 60 * Second.

(** A [time.Duration] counts nanoseconds; its [Microseconds()] truncates. *)
Definition Duration (d : Z) : Z := i64 (d * 1000).
Definition FromDuration (d : Z) : Z := Z.quot d 1000.

Definition Abs (d : Z) : Z := if d <? 0 then i64 (- d) else d.

(** ** Timestamps *)

Definition Add (t d : Z) : Z := i64 (t + d).
Definition Sub (t other : Z) : Z := i64 (t - other).
Definition Before (t other : Z) : bool := t <? other.
Definition After (t other : Z) : bool := t >? other.
Definition IsZero (t : Z) : bool := t =? 0.
Definition SRTTimestamp (t : Z) : Z := u32 t.

Definition srtTimestampWrapPeriod : Z := 2 ^ 32.
Definition SRTTimestampWrapPeriod : Z := srtTimestampWrapPeriod.

Definition FromSRTTimestamp (srtTS reference : Z) : Z :=
  let refLow := u32 reference in
  let base := i64 (reference - refLow) in
  let candidate := i64 (base + srtTS) in
  let diff := Sub candidate reference in
  if diff >? Z.quot srtTimestampWrapPeriod 2 then i64 (i64 (base - srtTimestampWrapPeriod) + srtTS)
  else if diff <? Z.quot (- srtTimestampWrapPeriod) 2 then i64 (i64 (base + srtTimestampWrapPeriod) + srtTS)
  else candidate.

(** ** The clock interface *)

Class Clock (C : Type) := Now : C -> Z.

(** [RealClock] is the system clock, relative to its creation. [since] stands
    for [time.Since], in nanoseconds. *)
Definition RealClock_Now (since : Z -> Z) (epoch : Z) : Z := FromDuration (since epoch).

Record MockClock : Type := mkMock { now : Z }.
Definition NewMockClock : MockClock := mkMock 0.
#[export] Instance MockClock_Now : Clock MockClock := now.
Definition Set_ (c : MockClock) (t : Z) : MockClock := mkMock t.
Definition Advance (c : MockClock) (d : Z) : MockClock := mkMock (Add (now c) d).

(** ** Lemmas *)

(** Away from the ends of the 64-bit range nothing overflows. *)
Definition sane (t : Z) : Prop := - 2 ^ 62 <= t <= 2 ^ 62.

Lemma FromSRTTimestamp_eq srtTS r :
  is_u32 srtTS -> sane r ->
  forall c, c = r - r mod 2 ^ 32 + srtTS ->
  FromSRTTimestamp srtTS r =
    if c - r >? 2 ^ 31 then c - 2 ^ 32 else if c - r <? - 2 ^ 31 then c + 2 ^ 32 else c.
Proof.
  unfold is_u32, sane, FromSRTTimestamp, Sub, srtTimestampWrapPeriod, u32. intros Ht Hr c ->.
  change (Z.quot (2 ^ 32) 2) with (2 ^ 31). change (Z.quot (- 2 ^ 32) 2) with (- 2 ^ 31).
  pose proof (Z.mod_pos_bound r (2 ^ 32) ltac:(lia)).
  rewrite !(i64_id (r - r mod 2 ^ 32)) by (unfold is_i64; lia).
  rewrite !(i64_id (r - r mod 2 ^ 32 + srtTS)) by (unfold is_i64; lia).
  rewrite (i64_id (_ - r)) by (unfold is_i64; lia).
  rewrite !(i64_id (r - r mod 2 ^ 32 - 2 ^ 32)), !(i64_id (r - r mod 2 ^ 32 + 2 ^ 32)) by (unfold is_i64; lia).
  zcase; try lia; rewrite i64_id by (unfold is_i64; lia); lia.
Qed.

(** ** Claims *)

(** A wire timestamp is recovered as the nearest one: the result has the
    32 bits that were sent, no other timestamp with these bits is nearer to the
    reference, and a timestamp less than 2^31 microseconds (35 minutes) away
    from the reference is recovered exactly. *)
Theorem srt_timestamp_recovery (srtTS reference t : Z) :
  is_u32 srtTS -> sane reference ->
  let r := FromSRTTimestamp srtTS reference in
  SRTTimestamp r = srtTS /\
  (SRTTimestamp t = srtTS -> Z.abs (r - reference) <= Z.abs (t - reference)) /\
  (SRTTimestamp t = srtTS -> Z.abs (t - reference) < 2 ^ 31 -> r = t).
Proof.
  intros Ht Hr. cbv zeta. rewrite (FromSRTTimestamp_eq srtTS reference Ht Hr _ eq_refl). unfold is_u32, sane, SRTTimestamp, u32 in *.
  zcase; (split; [|split; intros]); zdm.
Qed.

Lemma srt_timestamp_recovery_witness :
  SRTTimestamp (2 ^ 32 + 5) = 5 /\ FromSRTTimestamp 5 (2 ^ 32 - 100) = 2 ^ 32 + 5.
Proof.
  split; [done|].
  destruct (srt_timestamp_recovery 5 (2 ^ 32 - 100) (2 ^ 32 + 5)) as (_ & _ & H);
    [unfold is_u32; lia|unfold sane; lia|]. apply H; [done|lia].
Defined.

End Clock.
