(* ===== verification/Tsbpd.v ===== *)
(** * Timestamp-based packet delivery ([internal/tsbpd/tsbpd.go])

    The [Timer] turns the 32-bit timestamp of a data packet into the local
    time at which the packet is due.  Modelled: the whole timer (delivery
    times, the two-phase wrap state machine, the drift tracer with its
    overdrift rule, the group synchronisation).  The abstract contract is the
    unwrapped sender clock: [tracks] relates a timer to the newest sender time
    it has seen, and every packet near that time gets the delivery time of its
    full, unwrapped timestamp. *)
From Stdlib Require Import ZArith Lia.
From stdpp Require Import base numbers list.
From S2P Require Import Prelude Clock.
Local Open Scope Z_scope.

Module Tsbpd.

Definition maxTimestamp : Z := 0xFFFFFFFF.
Definition timestampWrap : Z := 2 ^ 32.
Definition wrapThreshold : Z := 30 * Clock.Second.
Definition driftMaxSamples : Z := 1000.
Definition driftMaxValue : Z := 5000.

Record Timer : Type := mkTimer {
  delay : Z;
  timeBase : Z;
  driftEnabled : bool;
  driftSum : Z;
  driftCount : Z;
  driftOffset : Z;
  firstRTT : Z;
  wrapPeriod : bool;
  wrapOffset : Z
}.

Definition New (delay timeBase : Z) : Timer := mkTimer delay timeBase true 0 0 0 (-1) false 0.

Definition SetDriftEnabled (t : Timer) (enabled : bool) : Timer :=
  mkTimer (delay t) (timeBase t) enabled (driftSum t) (driftCount t) (driftOffset t) (firstRTT t)
    (wrapPeriod t) (wrapOffset t).

(** ** Delivery times *)

(** [fullTS]: the packet's timestamp on the unwrapped sender clock. *)
Definition fullTS (t : Timer) (pktTimestamp : Z) : Z :=
  let offset := wrapOffset t in
  let offset :=
    if wrapPeriod t && (pktTimestamp <=? 2 * wrapThreshold) then i64 (offset + timestampWrap) else offset in
  i64 (offset + pktTimestamp).

Definition deliveryTimeLocked (t : Timer) (pktTimestamp : Z) : Z :=
  Clock.Add (timeBase t) (i64 (i64 (fullTS t pktTimestamp + delay t) + driftOffset t)).

Definition DeliveryTime (t : Timer) (pktTimestamp : Z) : Z := deliveryTimeLocked t pktTimestamp.

Definition IsReady (t : Timer) (pktTimestamp now : Z) : bool :=
  let delivery := DeliveryTime t pktTimestamp in
  negb (Clock.Before now delivery).

(** ** The wrap state machine *)

Definition setWrap (t : Timer) (period : bool) (offset : Z) : Timer :=
  mkTimer (delay t) (timeBase t) (driftEnabled t) (driftSum t) (driftCount t) (driftOffset t) (firstRTT t)
    period offset.

Definition UpdateWrap (t : Timer) (pktTimestamp : Z) : Timer :=
  let ts := pktTimestamp in
  if negb (wrapPeriod t) then
    if ts >? maxTimestamp - wrapThreshold then setWrap t true (wrapOffset t) else t
  else
    if (ts >=? wrapThreshold) && (ts <=? 2 * wrapThreshold)
    then setWrap t false (i64 (wrapOffset t + timestampWrap)) else t.

(** ** Drift *)

(** The drift of one sample: arrival, less the expected arrival, less half the
    change of the round trip. *)
Definition driftOf (t : Timer) (firstRTT' pktTimestamp localRecvTime rttSample : Z) : Z :=
  let expectedArrival := Clock.Add (timeBase t) (fullTS t pktTimestamp) in
  let rttDelta :=
    if (rttSample >=? 0) && (firstRTT' >=? 0) then Z.quot (i64 (rttSample - firstRTT')) 2 else 0 in
  i64 (Clock.Sub localRecvTime expectedArrival - rttDelta).

Definition OnACK (t : Timer) (pktTimestamp localRecvTime rttSample : Z) : Timer :=
  if negb (driftEnabled t) then t else
  let firstRTT' := if firstRTT t =? -1 then rttSample else firstRTT t in
  let drift := driftOf t firstRTT' pktTimestamp localRecvTime rttSample in
  let driftSum' := i64 (driftSum t + drift) in
  let driftCount' := i64 (driftCount t + 1) in
  if driftCount' >=? driftMaxSamples then
    let avgDrift := Z.quot driftSum' driftCount' in
    let '(timeBase', avgDrift) :=
      if avgDrift >? driftMaxValue
      then (Clock.Add (timeBase t) driftMaxValue, i64 (avgDrift - driftMaxValue))
      else if avgDrift <? - driftMaxValue
      then (Clock.Add (timeBase t) (- driftMaxValue), i64 (avgDrift + driftMaxValue))
      else (timeBase t, avgDrift) in
    mkTimer (delay t) timeBase' (driftEnabled t) 0 0 avgDrift firstRTT' (wrapPeriod t) (wrapOffset t)
  else
    mkTimer (delay t) (timeBase t) (driftEnabled t) driftSum' driftCount' (driftOffset t) firstRTT'
      (wrapPeriod t) (wrapOffset t).

Definition SetTimeBase (t : Timer) (tb : Z) : Timer :=
  mkTimer (delay t) tb (driftEnabled t) (driftSum t) (driftCount t) (driftOffset t) (firstRTT t)
    (wrapPeriod t) (wrapOffset t).

Definition SetDelay (t : Timer) (d : Z) : Timer :=
  mkTimer d (timeBase t) (driftEnabled t) (driftSum t) (driftCount t) (driftOffset t) (firstRTT t)
    (wrapPeriod t) (wrapOffset t).

Definition Delay (t : Timer) : Z := delay t.
Definition DriftOffset (t : Timer) : Z := driftOffset t.

(** ** Groups *)

Record GroupTimeBase : Type := mkGTB { TimeBase : Z; WrapPeriod : bool; Drift : Z }.

Definition GetInternalTimeBase (t : Timer) : GroupTimeBase :=
  mkGTB (timeBase t) (wrapPeriod t) (driftOffset t).

Definition ApplyGroupDrift (t : Timer) (tb : GroupTimeBase) : Timer :=
  mkTimer (delay t) (TimeBase tb) (driftEnabled t) (driftSum t) (driftCount t) (Drift tb) (firstRTT t)
    (WrapPeriod tb) (wrapOffset t).

Definition ApplyGroupTime (t : Timer) (tb : GroupTimeBase) (d : Z) : Timer :=
  mkTimer d (TimeBase tb) (driftEnabled t) (driftSum t) (driftCount t) (Drift tb) (firstRTT t)
    (WrapPeriod tb) (wrapOffset t).

(** ** The unwrapped sender clock *)

(** The phase of a timer that has seen the sender clock reach [m]: in the wrap
    period within 30 seconds of a multiple of 2^32, and otherwise between two
    such zones; the first zone may start anywhere in the first period. *)
Inductive tracks (m : Z) (t : Timer) : Prop :=
| tracks_between (e : Z) :
    wrapPeriod t = false -> wrapOffset t = i64 (e * timestampWrap) ->
    0 <= e -> (e = 0 /\ 0 <= m \/ e * timestampWrap + wrapThreshold <= m) ->
    m < (e + 1) * timestampWrap - wrapThreshold ->
    tracks m t
| tracks_wrapping (e : Z) :
    wrapPeriod t = true -> wrapOffset t = i64 (e * timestampWrap) ->
    0 <= e -> (e + 1) * timestampWrap - wrapThreshold <= m < (e + 1) * timestampWrap + wrapThreshold ->
    tracks m t.

(** A packet sent at [x] may arrive when the newest one was sent at [m]:
    reordering and silence are both shorter than 30 seconds. *)
Definition arrives (m x : Z) : Prop := 0 <= x /\ m - wrapThreshold < x <= m + wrapThreshold.

#[export] Instance arrives_dec m x : Decision (arrives m x).
Proof. unfold arrives. apply _. Defined.

Fixpoint arrivals (m : Z) (xs : list Z) : Prop :=
  match xs with
  | [] => True
  | x :: xs' => arrives m x /\ arrivals (Z.max m x) xs'
  end.

Definition wire (x : Z) : Z := Clock.SRTTimestamp x.

Ltac tsbpd_unfold :=
  unfold arrives, wire, Clock.SRTTimestamp, timestampWrap, wrapThreshold, maxTimestamp, Clock.Second,
    Clock.Millisecond, u32 in *.

(** The wire timestamp of a time in period [e]. *)
Lemma wire_period e x : e * 2 ^ 32 <= x < (e + 1) * 2 ^ 32 -> x mod 2 ^ 32 = x - e * 2 ^ 32.
Proof.
  intros. replace x with (x - e * 2 ^ 32 + e * 2 ^ 32) at 1 by lia.
  rewrite Z_mod_plus_full. apply Z.mod_small. lia.
Qed.

Lemma tracks_step m x t : tracks m t -> arrives m x -> tracks (Z.max m x) (UpdateWrap t (wire x)).
Proof.
  intros [e Hp Ho He Hlo Hhi|e Hp Ho He Hm] Hx; tsbpd_unfold; unfold UpdateWrap; rewrite Hp; cbn [negb].
  - assert (e * 2 ^ 32 <= x < (e + 1) * 2 ^ 32) as Hxe by lia.
    pose proof (wire_period e x Hxe) as Hw. tsbpd_unfold. rewrite Hw.
    rewrite Z.gtb_ltb. destruct (Z.ltb_spec (0xFFFFFFFF - 30 * (1000 * 1000)) (x - e * 2 ^ 32)).
    + apply (tracks_wrapping _ _ e); tsbpd_unfold; try done; lia.
    + apply (tracks_between _ _ e); tsbpd_unfold; try done; lia.
  - destruct (Z.ltb_spec x ((e + 1) * 2 ^ 32)).
    + pose proof (wire_period e x ltac:(lia)) as Hw. tsbpd_unfold. rewrite Hw.
      destruct (Z.leb_spec (x - e * 2 ^ 32) (2 * (30 * (1000 * 1000)))); [lia|].
      rewrite andb_false_r. apply (tracks_wrapping _ _ e); tsbpd_unfold; try done; lia.
    + pose proof (wire_period (e + 1) x ltac:(lia)) as Hw. tsbpd_unfold. rewrite Hw.
      rewrite Z.geb_leb. destruct (Z.leb_spec (30 * (1000 * 1000)) (x - (e + 1) * 2 ^ 32)); cbn [andb].
      * destruct (Z.leb_spec (x - (e + 1) * 2 ^ 32) (2 * (30 * (1000 * 1000)))); [|lia].
        apply (tracks_between _ _ (e + 1)); tsbpd_unfold; try done; simpl; try lia.
        rewrite Ho, i64_add_l. f_equal. lia.
      * apply (tracks_wrapping _ _ e); tsbpd_unfold; try done; lia.
Qed.

(** The timer's idea of a nearby packet's time is its true sender time. *)
Lemma tracks_fullTS m x t : tracks m t -> arrives m x -> fullTS t (wire x) = i64 x.
Proof.
  intros [e Hp Ho He Hlo Hhi|e Hp Ho He Hm] Hx; tsbpd_unfold; unfold fullTS; rewrite Hp, Ho; tsbpd_unfold;
    cbn [andb].
  - rewrite (wire_period e x) by lia. rewrite i64_add_l. f_equal. lia.
  - destruct (Z.ltb_spec x ((e + 1) * 2 ^ 32)).
    + rewrite (wire_period e x) by lia.
      destruct (Z.leb_spec (x - e * 2 ^ 32) (2 * (30 * (1000 * 1000)))); [lia|].
      rewrite i64_add_l. f_equal. lia.
    + rewrite (wire_period (e + 1) x) by lia.
      destruct (Z.leb_spec (x - (e + 1) * 2 ^ 32) (2 * (30 * (1000 * 1000)))); [|lia].
      i64_solve.
Qed.

Lemma UpdateWrap_frame t ts :
  let t' := UpdateWrap t ts in
  timeBase t' = timeBase t /\ delay t' = delay t /\ driftOffset t' = driftOffset t.
Proof. unfold UpdateWrap. by repeat case_match. Qed.

Lemma deliveryTime_eq t ts full :
  fullTS t ts = i64 full ->
  DeliveryTime t ts = i64 (timeBase t + full + delay t + driftOffset t).
Proof.
  intros H. unfold DeliveryTime, deliveryTimeLocked, Clock.Add. rewrite H. i64_solve.
Qed.

(** ** Runs *)

Definition run_wrap (t : Timer) (xs : list Z) : Timer := fold_left UpdateWrap (map wire xs) t.

Lemma New_tracks d tb m : 0 <= m < timestampWrap - wrapThreshold -> tracks m (New d tb).
Proof. intros H. apply (tracks_between _ _ 0); tsbpd_unfold; try done; lia. Qed.

(** One drift sample: packet timestamp, arrival, RTT. *)
Definition sample : Type := Z * Z * Z.
Definition step_sample (t : Timer) (s : sample) : Timer := OnACK t (s.1.1) (s.1.2) (s.2).
Definition measured (t : Timer) (s : sample) : Z :=
  driftOf t (if firstRTT t =? -1 then s.2 else firstRTT t) (s.1.1) (s.1.2) (s.2).

Fixpoint drifts (t : Timer) (ss : list sample) : list Z :=
  match ss with
  | [] => []
  | s :: ss' => measured t s :: drifts (step_sample t s) ss'
  end.

Definition sum_list (l : list Z) : Z := fold_right Z.add 0 l.

(** Inside an epoch the samples only accumulate. *)
Lemma step_sample_accumulate t s :
  driftEnabled t = true -> 0 <= driftCount t -> driftCount t + 1 < driftMaxSamples ->
  step_sample t s =
    mkTimer (delay t) (timeBase t) true (i64 (driftSum t + measured t s)) (driftCount t + 1) (driftOffset t)
      (if firstRTT t =? -1 then s.2 else firstRTT t) (wrapPeriod t) (wrapOffset t).
Proof.
  intros He H0 Hc. unfold step_sample, OnACK, measured, driftMaxSamples in *. rewrite He. cbn [negb].
  rewrite (i64_id (driftCount t + 1)) by (unfold is_i64; lia).
  rewrite Z.geb_leb. destruct (Z.leb_spec 1000 (driftCount t + 1)); [lia|done].
Qed.

Lemma quot_bound x : is_i64 x -> - 2 ^ 62 <= Z.quot x 1000 <= 2 ^ 62.
Proof.
  unfold is_i64. intros. pose proof (Z.quot_rem' x 1000). pose proof (Z.rem_bound_abs x 1000). lia.
Qed.

(** The last sample of an epoch moves the average into base and offset. *)
Lemma step_sample_epoch t s :
  driftEnabled t = true -> driftCount t + 1 = driftMaxSamples -> Clock.sane (timeBase t) ->
  is_i64 (driftSum t + measured t s) ->
  let t' := step_sample t s in
  let avg := Z.quot (driftSum t + measured t s) driftMaxSamples in
  driftCount t' = 0 /\ driftSum t' = 0 /\
  timeBase t' + driftOffset t' = timeBase t + avg /\
  Z.abs (timeBase t' - timeBase t) <= driftMaxValue /\
  (Z.abs avg <= driftMaxValue -> timeBase t' = timeBase t) /\
  delay t' = delay t /\ wrapOffset t' = wrapOffset t /\ wrapPeriod t' = wrapPeriod t.
Proof.
  intros He Hc Hs Hi. cbv zeta. unfold step_sample, OnACK, measured, driftMaxSamples, driftMaxValue, Clock.Add, Clock.sane in *.
  rewrite He, Hc. cbn [negb]. change (i64 1000) with 1000. change (1000 >=? 1000) with true. cbv iota.
  set (d := driftOf t _ _ _ _) in *. rewrite (i64_id (driftSum t + d)) by done.
  pose proof (quot_bound _ Hi).
  set (avg := Z.quot (driftSum t + d) 1000) in *.
  rewrite (i64_id (timeBase t + 5000)), (i64_id (timeBase t + - (5000))), (i64_id (avg - 5000)), (i64_id (avg + 5000))
    by (unfold is_i64; lia).
  rewrite Z.gtb_ltb. destruct (Z.ltb_spec 5000 avg); [|destruct (Z.ltb_spec avg (- (5000)))];
    simpl; split_and!; done || lia.
Qed.

Definition run_drift (t : Timer) (ss : list sample) : Timer := fold_left step_sample ss t.

Lemma sum_list_bound l b : Forall (fun d => Z.abs d <= b) l -> Z.abs (sum_list l) <= b * len l.
Proof.
  induction 1 as [|d l Hd _ IH]; [unfold len; simpl; lia|]. unfold len in *. simpl length. unfold sum_list in *. cbn [fold_right]. lia.
Qed.

Lemma run_drift_accumulate t ss :
  driftEnabled t = true -> 0 <= driftCount t -> driftCount t + len ss < driftMaxSamples ->
  Z.abs (driftSum t) <= 2 ^ 50 * driftCount t ->
  Forall (fun d => Z.abs d <= 2 ^ 50) (drifts t ss) ->
  let t' := run_drift t ss in
  driftCount t' = driftCount t + len ss /\ driftSum t' = driftSum t + sum_list (drifts t ss) /\
  timeBase t' = timeBase t /\ driftOffset t' = driftOffset t /\ driftEnabled t' = true /\
  delay t' = delay t /\ wrapOffset t' = wrapOffset t /\ wrapPeriod t' = wrapPeriod t.
Proof.
  cbv zeta. unfold run_drift. revert t. induction ss as [|s ss IH]; intros t He H0 Hc Hb Hd.
  { unfold len, sum_list. simpl. rewrite !Z.add_0_r. repeat (split; [done|]). done. }
  cbn [drifts] in *. apply Forall_cons_1 in Hd as [Hm Hd]. unfold len in *. simpl length in Hc.
  rewrite Nat2Z.inj_succ in Hc. cbn [fold_left].
  assert (i64 (driftSum t + measured t s) = driftSum t + measured t s) as Hi
    by (apply i64_id; unfold is_i64, driftMaxSamples in *; lia).
  pose proof (step_sample_accumulate t s He H0 ltac:(lia)) as Hs. rewrite Hi in Hs.
  assert (driftEnabled (step_sample t s) = true) by (by rewrite Hs).
  assert (driftCount (step_sample t s) = driftCount t + 1) as Hc1 by (by rewrite Hs).
  assert (driftSum (step_sample t s) = driftSum t + measured t s) as Hs1 by (by rewrite Hs).
  destruct (IH (step_sample t s)) as (-> & -> & -> & -> & -> & -> & -> & ->); rewrite ?Hc1, ?Hs1; try done; try lia.
  rewrite Hs. simpl length. unfold sum_list. cbn [fold_right]. simpl. repeat (split; [lia || done|]). done.
Qed.

Lemma drifts_snoc t ss s : drifts t (ss ++ [s]) = drifts t ss ++ [measured (run_drift t ss) s].
Proof. revert t. induction ss as [|x ss IH]; intros t; [done|]. cbn [app drifts]. by rewrite IH. Qed.

Lemma run_drift_snoc t ss s : run_drift t (ss ++ [s]) = step_sample (run_drift t ss) s.
Proof. unfold run_drift. by rewrite fold_left_app. Qed.

Lemma drifts_length t ss : length (drifts t ss) = length ss.
Proof. revert t. induction ss; intros; simpl; auto. Qed.

Lemma sum_list_snoc l d : sum_list (l ++ [d]) = sum_list l + d.
Proof. unfold sum_list. induction l; simpl; lia. Qed.

(** ** Claims *)

(** What reaches the timer: a packet sent at [x], or a drift sample. *)
Inductive tevent : Type := Arrival (x : Z) | Sampled (s : sample).
Definition step_event (t : Timer) (e : tevent) : Timer :=
  match e with Arrival x => UpdateWrap t (wire x) | Sampled s => step_sample t s end.
Definition run_events (t : Timer) (es : list tevent) : Timer := fold_left step_event es t.
Definition sentTimes (es : list tevent) : list Z := omap (fun e => match e with Arrival x => Some x | Sampled _ => None end) es.

Lemma step_sample_wrap t s :
  let t' := step_sample t s in wrapPeriod t' = wrapPeriod t /\ wrapOffset t' = wrapOffset t /\ delay t' = delay t.
Proof. cbv zeta. unfold step_sample, OnACK. by repeat case_match; simplify_eq. Qed.

Lemma tracks_wrap m t t' : wrapPeriod t' = wrapPeriod t -> wrapOffset t' = wrapOffset t -> tracks m t -> tracks m t'.
Proof.
  intros E1 E2 [e H1 H2 H3 H4 H5|e H1 H2 H3 H4]; [apply (tracks_between _ _ e)|apply (tracks_wrapping _ _ e)]; rewrite ?E1, ?E2; done.
Qed.

Lemma run_events_tracks es : forall m t, tracks m t -> arrivals m (sentTimes es) ->
  tracks (fold_left Z.max (sentTimes es) m) (run_events t es) /\ delay (run_events t es) = delay t.
Proof.
  induction es as [|[x|s] es IH]; intros m t Ht Hx; [done| |].
  - destruct Hx as [Hx Hxs]. destruct (IH _ _ (tracks_step m x t Ht Hx) Hxs) as [H1 H2]. split; [exact H1|].
    unfold run_events in *. cbn [fold_left step_event]. rewrite H2. apply UpdateWrap_frame.
  - destruct (step_sample_wrap t s) as (E1 & E2 & E3). destruct (IH m (step_sample t s)) as [H1 H2]; [by apply (tracks_wrap m t)|done|].
    split; [exact H1|]. unfold run_events in *. cbn [fold_left step_event]. by rewrite H2.
Qed.

(** C33. Unwrapping is exact across any number of 32-bit wraps: from a new timer on,
    when the first packet was sent in the first period of the sender's clock and not
    in its last 30 seconds, and as long as reordering and silence on the link stay
    under 30 seconds, after any sequence of packets and drift samples a packet near
    the newest one is due at the time base + its full 64-bit sender time + the
    latency + the drift offset, where base and offset are what the drift tracer made
    of them and are untouched while there are no samples; it is ready exactly from
    then on; and its own drift sample without a round trip measures its delay
    against base + sender time. *)
Theorem tsbpd_delivery_exact (d tb m x : Z) (es : list tevent) :
  0 <= m < timestampWrap - wrapThreshold -> arrivals m (sentTimes es) -> arrives (fold_left Z.max (sentTimes es) m) x ->
  let t := run_events (New d tb) es in
  let due := timeBase t + x + d + driftOffset t in
  DeliveryTime t (wire x) = i64 due /\
  (forall now, is_i64 due -> IsReady t (wire x) now = (due <=? now)) /\
  (forall f local, driftOf t f (wire x) local (-1) = i64 (local - (timeBase t + x))) /\
  ((forall s, Sampled s ∉ es) -> timeBase t = tb /\ driftOffset t = 0).
Proof.
  intros Hm Hxs Hx t due. destruct (run_events_tracks es m (New d tb) (New_tracks d tb m Hm) Hxs) as [Ht Hd]. fold t in Ht, Hd.
  pose proof (tracks_fullTS _ _ _ Ht Hx) as Hf.
  assert (DeliveryTime t (wire x) = i64 due) as E by (rewrite (deliveryTime_eq t (wire x) x Hf), Hd; done).
  split; [done|]. split; [|split].
  - intros now Hi. unfold IsReady, Clock.Before. rewrite E, i64_id by done. by rewrite <- Z.leb_antisym.
  - intros f local. unfold driftOf. rewrite Hf. cbn [Z.geb Z.compare andb]. unfold Clock.Sub, Clock.Add. i64_solve.
  - clear -t. intros Hn. assert (forall t0 : Timer, timeBase (run_events t0 es) = timeBase t0 /\ driftOffset (run_events t0 es) = driftOffset t0) as H; [|apply (H (New d tb))].
    induction es as [|[x|s] es IH]; intros t0; [done| |by destruct (Hn s); left].
    destruct (IH (fun s Hs => Hn s (list_elem_of_further _ _ _ Hs)) (UpdateWrap t0 (wire x))) as [H1 H2].
    destruct (UpdateWrap_frame t0 (wire x)) as (F1 & _ & F3). cbn in *. rewrite <- F1, <- F3. done.
Qed.

(** A stream crossing the first wrap in 20-second steps, every packet 8 ms late in
    a thousand samples of the last one. *)
Definition wrapEvents : list tevent :=
  map Arrival [4280000000; 4300000000; 4320000000; 4340000000; 4330000000] ++ replicate 1000 (Sampled (wire 4340000000, 4340009000, -1)).
Lemma tsbpd_delivery_exact_witness :
  DeliveryTime (run_events (New 120000 1000) wrapEvents) (wire 4345000000) = 1000 + 4345000000 + 120000 + 8000 /\
  driftOffset (run_events (New 120000 1000) wrapEvents) = 3000.
Proof.
  destruct (tsbpd_delivery_exact 120000 1000 4262000000 4345000000 wrapEvents) as [H _].
  - done.
  - assert (sentTimes wrapEvents = [4280000000; 4300000000; 4320000000; 4340000000; 4330000000]) as -> by (vm_compute; reflexivity).
    cbn [arrivals]. conjs; apply (bool_decide_unpack _); vm_compute; exact I.
  - apply (bool_decide_unpack _); vm_compute; exact I.
  - split; [rewrite H; vm_compute; reflexivity|vm_compute; reflexivity].
Defined.

(** The drift tracer corrects by the mean: over an epoch of 1000 samples
    the time base and the drift offset together move to base + the average
    measured drift (the previous offset is replaced), the base itself by at
    most 5 ms and only when the average exceeds 5 ms; the epoch counters are
    reset and the wrap state is untouched. *)
Theorem tsbpd_drift_epoch (t : Timer) (ss : list sample) :
  driftEnabled t = true -> driftCount t = 0 -> driftSum t = 0 -> Clock.sane (timeBase t) ->
  len ss = driftMaxSamples -> Forall (fun d => Z.abs d <= 2 ^ 50) (drifts t ss) ->
  let t' := run_drift t ss in
  let avg := Z.quot (sum_list (drifts t ss)) driftMaxSamples in
  driftCount t' = 0 /\ driftSum t' = 0 /\
  timeBase t' + driftOffset t' = timeBase t + avg /\
  Z.abs (timeBase t' - timeBase t) <= driftMaxValue /\
  (Z.abs avg <= driftMaxValue -> timeBase t' = timeBase t) /\
  wrapOffset t' = wrapOffset t /\ wrapPeriod t' = wrapPeriod t.
Proof.
  intros He Hc Hs Hsane Hlen Hd. cbv zeta.
  destruct ss as [|s ss _] using rev_ind; [done|].
  rewrite drifts_snoc, run_drift_snoc, sum_list_snoc in *. apply Forall_app in Hd as [Hd Hm].
  apply Forall_cons_1 in Hm as [Hm _].
  assert (len ss = 999) as Hl by (unfold len, driftMaxSamples in *; rewrite length_app in Hlen; simpl in Hlen; lia).
  destruct (run_drift_accumulate t ss) as (Hc' & Hs' & Htb & Hdo & He' & Hdl & Hwo & Hwp);
    rewrite ?Hc, ?Hs, ?Hl in *; try done.
  pose proof (sum_list_bound _ _ Hd) as Hb. unfold len in Hb. rewrite drifts_length in Hb. fold (len ss) in Hb.
  rewrite Hl in Hb.
  destruct (step_sample_epoch (run_drift t ss) s He') as (H1 & H2 & H3 & H4 & H5 & H6 & H7 & H8);
    [by rewrite Hc'|by rewrite Htb|rewrite Hs'; unfold is_i64; lia|].
  rewrite Htb, Hs', Hwo, Hwp, Z.add_0_l in *. split_and!; done || lia.
Qed.

(** Every packet 8 ms late: 5 ms go to the base, 3 ms to the offset. *)
Lemma tsbpd_drift_epoch_witness :
  let t' := run_drift (New 120000 1000) (replicate 1000 (500, 9500, -1)) in
  timeBase t' + driftOffset t' = 1000 + 8000 /\ timeBase t' = 6000.
Proof.
  assert (Forall (fun d => Z.abs d <= 2 ^ 50) (drifts (New 120000 1000) (replicate 1000 (500, 9500, -1)))) as Hd.
  { apply (bool_decide_unpack _). vm_compute. exact I. }
  pose proof (tsbpd_drift_epoch (New 120000 1000) (replicate 1000 (500, 9500, -1))
                eq_refl eq_refl eq_refl ltac:(unfold Clock.sane; simpl; lia) eq_refl Hd) as H.
  destruct H as (_ & _ & H & _). split; [|vm_compute; reflexivity].
  refine (eq_trans H _). vm_compute. reflexivity.
Defined.

(** Joining a group aligns delivery times only up to the wrap offset,
    which is not part of the group state: a member that adopts a reference
    timer's state computes delivery times that differ from the reference's by
    exactly the difference of their wrap offsets. *)
Theorem tsbpd_group_time_offset (t r : Timer) (ts : Z) :
  DeliveryTime (ApplyGroupTime t (GetInternalTimeBase r) (Delay r)) ts =
    i64 (DeliveryTime r ts + (wrapOffset t - wrapOffset r)).
Proof.
  unfold DeliveryTime, deliveryTimeLocked, fullTS, Clock.Add, Delay. simpl.
  destruct (wrapPeriod r && (ts <=? 2 * wrapThreshold)); i64_solve.
Qed.

(** So a member that joins a group after the group's timers have wrapped
    is not synchronised: it schedules every packet 2^32 microseconds (71.6
    minutes) before the reference member does. *)
Theorem tsbpd_group_join_after_wrap :
  let r := run_wrap (New 120000 0) [4280000000; 4300000000; 4320000000; 4340000000] in
  let joined := ApplyGroupTime (New 120000 0) (GetInternalTimeBase r) (Delay r) in
  tracks 4340000000 r /\
  DeliveryTime r (wire 4341000000) = 4341000000 + 120000 /\
  DeliveryTime joined (wire 4341000000) = 4341000000 + 120000 - 2 ^ 32.
Proof.
  split; [|by vm_compute]. apply (tracks_between _ _ 1); vm_compute; intuition congruence.
Qed.

End Tsbpd.
