(* ===== verification/Ring.v ===== *)
(** * Ring buffers indexed by sequence number

    Both packet buffers ([internal/buffer/send.go], [internal/buffer/recv.go])
    keep their entries in a slice whose length is a power of two and find the
    slot of a sequence number with a mask.  This file models that indexing and
    [nextPow2], and relates a slice to the queue of entries it stands for:
    [holds mask l a q] says that the slots of [l], read from sequence number
    [a] on, are the entries of [q] followed by empty ones. *)
From Stdlib Require Import ZArith Lia.
From stdpp Require Import base numbers list.
From S2P Require Import Prelude Seq.
Local Open Scope Z_scope.

Module Ring.

(** [nextPow2] of [send.go]: [n--], smear the top bit, [n++]. *)
Definition nextPow2 (n : Z) : Z :=
  if n <=? 1 then 1 else
  let n := n - 1 in
  let n := Z.lor n (Z.shiftr n 1) in
  let n := Z.lor n (Z.shiftr n 2) in
  let n := Z.lor n (Z.shiftr n 4) in
  let n := Z.lor n (Z.shiftr n 8) in
  let n := Z.lor n (Z.shiftr n 16) in
  n + 1.

(** [int(uint32(s)) & mask]. *)
Definition slot (mask s : Z) : nat := Z.to_nat (Z.land s mask).

(** [entries[idx]] and [entries[idx] = v]; a slot is always inside the slice. *)
Definition get {A} (zero : A) (mask : Z) (l : list A) (s : Z) : A := nth (slot mask s) l zero.
Definition set {A} (mask : Z) (l : list A) (s : Z) (v : A) : list A := <[slot mask s := v]> l.

(** ** The smallest power of two *)

(** The top [w] bits below [2^(p+1)] are set and nothing is above. *)
Definition top_ones (p w m : Z) : Prop :=
  0 <= m < 2 ^ (p + 1) /\ forall i, 0 <= i -> p - w < i <= p -> Z.testbit m i = true.

Lemma lor_bound a b n : 0 <= n -> 0 <= a < 2 ^ n -> 0 <= b < 2 ^ n -> 0 <= Z.lor a b < 2 ^ n.
Proof.
  intros Hn Ha Hb. assert (0 <= Z.lor a b) by (apply Z.lor_nonneg; lia). split; [done|].
  destruct (Z.eq_dec (Z.lor a b) 0) as [->|]; [lia|]. apply Z.log2_lt_pow2; [lia|].
  rewrite Z.log2_lor by lia. apply Z.max_lub_lt.
  - destruct (Z.eq_dec a 0) as [->|].
    + assert (0 < b) by (rewrite Z.lor_0_l in *; lia). pose proof (Z.log2_lt_pow2 b n). pose proof (Z.log2_nonneg b).
      change (Z.log2 0) with 0. lia.
    + apply Z.log2_lt_pow2; lia.
  - destruct (Z.eq_dec b 0) as [->|].
    + assert (0 < a) by (rewrite Z.lor_0_r in *; lia). pose proof (Z.log2_lt_pow2 a n). pose proof (Z.log2_nonneg a).
      change (Z.log2 0) with 0. lia.
    + apply Z.log2_lt_pow2; lia.
Qed.

Lemma smear p w m : 0 <= p -> 1 <= w -> top_ones p w m -> top_ones p (2 * w) (Z.lor m (Z.shiftr m w)).
Proof.
  intros Hp Hw [Hm Hb]. split.
  - apply lor_bound; [lia|lia|]. rewrite Z.shiftr_div_pow2 by lia.
    assert (0 < 2 ^ w) by lia. split; [apply Z.div_pos; lia|].
    apply Z.le_lt_trans with m; [|lia]. apply Z.div_le_upper_bound; [lia|]. nia.
  - intros i Hi Hr. rewrite Z.lor_spec, Z.shiftr_spec by lia.
    destruct (Z.ltb_spec (p - w) i); [by rewrite Hb by lia|].
    rewrite (Hb (i + w)) by lia. apply orb_true_r.
Qed.

Lemma top_ones_full p w m : 0 <= p -> p < w -> top_ones p w m -> m = 2 ^ (p + 1) - 1.
Proof.
  intros Hp Hw [Hm Hb]. rewrite Z.sub_1_r, <- Z.ones_equiv. apply Z.bits_inj'. intros i Hi.
  destruct (Z.ltb_spec i (p + 1)).
  - rewrite Z.ones_spec_low, Hb by lia. done.
  - rewrite Z.ones_spec_high, (testbit_small m (p + 1)) by lia. done.
Qed.

Lemma nextPow2_eq n : 1 < n <= 2 ^ 32 -> nextPow2 n = 2 ^ (Z.log2 (n - 1) + 1).
Proof.
  intros Hn. unfold nextPow2. destruct (Z.leb_spec n 1); [lia|].
  set (p := Z.log2 (n - 1)). assert (0 <= p) by apply Z.log2_nonneg.
  assert (p < 32) as Hp by (apply Z.log2_lt_pow2; lia).
  assert (top_ones p 1 (n - 1)) as H1.
  { pose proof (Z.log2_spec (n - 1) ltac:(lia)) as Hs. fold p in Hs. rewrite <- Z.add_1_r in Hs.
    split; [lia|]. intros i Hi Hr. replace i with p by lia. apply Z.bit_log2. lia. }
  apply (smear p 1) in H1; [|lia..]. apply (smear p 2) in H1; [|lia..].
  apply (smear p 4) in H1; [|lia..]. apply (smear p 8) in H1; [|lia..].
  apply (smear p 16) in H1; [|lia..]. apply (top_ones_full p 32) in H1; [|lia..]. lia.
Qed.

Lemma nextPow2_pow29 n : n <= 2 ^ 29 -> exists k, 0 <= k <= 29 /\ nextPow2 n = 2 ^ k.
Proof.
  intros Hn. destruct (Z.leb_spec n 1).
  - exists 0. unfold nextPow2. destruct (Z.leb_spec n 1); [done|lia].
  - exists (Z.log2 (n - 1) + 1). rewrite nextPow2_eq by lia. split; [|done].
    pose proof (Z.log2_nonneg (n - 1)). assert (Z.log2 (n - 1) < 29) by (apply Z.log2_lt_pow2; lia). lia.
Qed.

(** ** Slots of a window *)

Section Slots.
Context {A : Type} (zero : A) (k : Z) (Hk : 0 <= k <= 30).

Implicit Types (l q : list A).

Lemma cap_pos : 0 < 2 ^ k.
Proof. lia. Qed.

Lemma cap_split : 2 ^ 31 = 2 ^ (31 - k) * 2 ^ k.
Proof. rewrite <- Z.pow_add_r by lia. f_equal. lia. Qed.

(** The slot of the [i]-th number after [a]. *)
Lemma slot_sadd a i : slot (2 ^ k - 1) (Seq.sadd a i) = Z.to_nat ((a + i) mod 2 ^ k).
Proof.
  unfold slot, Seq.sadd. rewrite land_ones_mod by lia. f_equal.
  rewrite cap_split. assert (0 < 2 ^ (31 - k)) by lia. pose proof cap_pos.
  rewrite (Z.mul_comm (2 ^ (31 - k))), Z.rem_mul_r by lia.
  rewrite (Z.mul_comm (2 ^ k)), Z_mod_plus_full. apply Zmod_mod.
Qed.

Lemma slot_range s : (slot (2 ^ k - 1) s < Z.to_nat (2 ^ k))%nat.
Proof.
  unfold slot. rewrite land_ones_mod by lia. pose proof cap_pos.
  pose proof (Z.mod_pos_bound s (2 ^ k)). lia.
Qed.

Lemma slot_ne a i j :
  0 <= i < 2 ^ k -> 0 <= j < 2 ^ k -> i <> j -> slot (2 ^ k - 1) (Seq.sadd a i) <> slot (2 ^ k - 1) (Seq.sadd a j).
Proof.
  intros Hi Hj Hne. rewrite !slot_sadd. pose proof cap_pos.
  pose proof (Z.mod_pos_bound (a + i) (2 ^ k)). pose proof (Z.mod_pos_bound (a + j) (2 ^ k)).
  intros E. assert ((a + i) mod 2 ^ k = (a + j) mod 2 ^ k) as E' by lia. apply Hne.
  rewrite !Z.mod_eq in E' by lia. set (x := (a + i) / 2 ^ k) in *. set (y := (a + j) / 2 ^ k) in *.
  destruct (Z.lt_trichotomy x y) as [?|[?|?]]; [|subst|]; nia.
Qed.

Lemma slot_ne_head a i :
  Seq.is_seq a -> 0 < i < 2 ^ k -> slot (2 ^ k - 1) a <> slot (2 ^ k - 1) (Seq.sadd a i).
Proof. intros Ha Hi. rewrite <- (Seq.sadd_0 a Ha) at 1. apply slot_ne; lia. Qed.

Lemma get_set_eq l s v : len l = 2 ^ k -> get zero (2 ^ k - 1) (set (2 ^ k - 1) l s v) s = v.
Proof.
  intros Hl. unfold get, set. rewrite nth_lookup, list_lookup_insert_eq; [done|].
  pose proof (slot_range s). unfold len in Hl. lia.
Qed.

Lemma get_set_ne l s t v : slot (2 ^ k - 1) s <> slot (2 ^ k - 1) t -> get zero (2 ^ k - 1) (set (2 ^ k - 1) l s v) t = get zero (2 ^ k - 1) l t.
Proof. intros H. unfold get, set. by rewrite !nth_lookup, list_lookup_insert_ne. Qed.

Lemma set_length l s v : len (set (2 ^ k - 1) l s v) = len l.
Proof. unfold len, set. by rewrite length_insert. Qed.

(** [l], read from [a], is [q] followed by empty slots. *)
Definition holds (l : list A) (a : Z) (q : list A) : Prop :=
  len l = 2 ^ k /\ len q <= 2 ^ k /\
  forall i, 0 <= i < 2 ^ k -> get zero (2 ^ k - 1) l (Seq.sadd a i) = nth (Z.to_nat i) q zero.

Lemma get_zero_periodic l a : get zero (2 ^ k - 1) l (Seq.sadd a (2 ^ k)) = get zero (2 ^ k - 1) l (Seq.sadd a 0).
Proof.
  unfold get. rewrite !slot_sadd. do 2 f_equal. rewrite Z.add_0_r.
  rewrite <- (Z.mul_1_l (2 ^ k)) at 1. by rewrite Z_mod_plus_full.
Qed.

Lemma holds_make a : holds (replicate (Z.to_nat (2 ^ k)) zero) a [].
Proof.
  pose proof cap_pos. split; [unfold len; rewrite length_replicate; lia|]. split; [unfold len; simpl; lia|].
  intros i Hi. unfold get. rewrite !nth_lookup.
  rewrite lookup_replicate_2; [|apply slot_range]. by rewrite lookup_nil.
Qed.

Lemma holds_get l a q i : holds l a q -> 0 <= i < 2 ^ k -> get zero (2 ^ k - 1) l (Seq.sadd a i) = nth (Z.to_nat i) q zero.
Proof. intros (_ & _ & H). apply H. Qed.

Lemma holds_push l a q v :
  holds l a q -> len q < 2 ^ k -> holds (set (2 ^ k - 1) l (Seq.sadd a (len q)) v) a (q ++ [v]).
Proof.
  intros (Hl & Hq & H) Hlt. split; [by rewrite set_length|].
  split; [unfold len in *; rewrite length_app; simpl; lia|]. intros i Hi.
  destruct (Z.eq_dec i (len q)) as [->|].
  - rewrite get_set_eq by done. unfold len. rewrite Nat2Z.id, app_nth2, Nat.sub_diag by lia. done.
  - rewrite get_set_ne by (apply slot_ne; unfold len in *; lia). rewrite H by done.
    unfold len in *. destruct (Z.ltb_spec i (Z.of_nat (length q))).
    + rewrite app_nth1 by lia. done.
    + rewrite !nth_overflow; [done|rewrite length_app; simpl; lia|lia].
Qed.

(** Emptying the first slot and moving on. *)
Lemma holds_pop l a e q : holds l a (e :: q) -> holds (set (2 ^ k - 1) l (Seq.sadd a 0) zero) (Seq.sadd a 1) q.
Proof.
  intros (Hl & Hq & H). pose proof cap_pos. unfold len in Hq. simpl length in Hq.
  split; [by rewrite set_length|]. split; [unfold len; lia|]. intros i Hi. rewrite Seq.sadd_sadd.
  destruct (Z.eq_dec i (2 ^ k - 1)) as [->|].
  - replace (1 + (2 ^ k - 1)) with (2 ^ k) by lia. rewrite get_zero_periodic, get_set_eq by done.
    rewrite nth_overflow by lia. done.
  - rewrite get_set_ne by (apply slot_ne; lia). rewrite H by lia.
    replace (Z.to_nat (1 + i)) with (S (Z.to_nat i)) by lia. done.
Qed.

(** Moving on over a slot that is empty already. *)
Lemma holds_skip l a q : holds l a (zero :: q) -> holds l (Seq.sadd a 1) q.
Proof.
  intros (Hl & Hq & H). pose proof cap_pos. unfold len in Hq. simpl length in Hq.
  split; [done|]. split; [unfold len; lia|]. intros i Hi. rewrite Seq.sadd_sadd.
  destruct (Z.eq_dec i (2 ^ k - 1)) as [->|].
  - replace (1 + (2 ^ k - 1)) with (2 ^ k) by lia. rewrite get_zero_periodic, H by lia.
    rewrite (nth_overflow q) by lia. done.
  - rewrite H by lia. replace (Z.to_nat (1 + i)) with (S (Z.to_nat i)) by lia. done.
Qed.

Lemma holds_set l a q i v :
  holds l a q -> 0 <= i < len q -> holds (set (2 ^ k - 1) l (Seq.sadd a i) v) a (<[Z.to_nat i := v]> q).
Proof.
  intros (Hl & Hq & H) Hi. split; [by rewrite set_length|].
  split; [unfold len in *; by rewrite length_insert|]. intros j Hj.
  destruct (Z.eq_dec j i) as [->|].
  - rewrite get_set_eq by done. rewrite nth_lookup, list_lookup_insert_eq; [done|unfold len in *; lia].
  - rewrite get_set_ne by (apply slot_ne; lia). rewrite H, !nth_lookup by done.
    rewrite list_lookup_insert_ne; [done|lia].
Qed.

(** A ring of empty slots can be restarted anywhere. *)
Lemma holds_restart l a q b :
  holds l a q -> (forall i, nth i q zero = zero) -> Seq.is_seq b -> holds l b [].
Proof.
  intros (Hl & Hq & H) Hz Hb. pose proof cap_pos as Hp. split; [done|]. split; [unfold len; simpl; lia|].
  intros i Hi. pose proof (Z.mod_pos_bound (b + i - a) (2 ^ k) Hp).
  assert (get zero (2 ^ k - 1) l (Seq.sadd b i) = get zero (2 ^ k - 1) l (Seq.sadd a ((b + i - a) mod 2 ^ k))) as ->.
  { unfold get. rewrite !slot_sadd. do 2 f_equal. rewrite Zplus_mod_idemp_r. f_equal. lia. }
  rewrite H, Hz by lia. by destruct (Z.to_nat i).
Qed.

(** Holes after the last entry. *)
Lemma holds_extend l a q n :
  holds l a q -> len q + Z.of_nat n <= 2 ^ k -> holds l a (q ++ replicate n zero).
Proof.
  intros (Hl & Hq & H) Hn. split; [done|]. unfold len in *. split; [rewrite length_app, length_replicate; lia|].
  intros i Hi. rewrite H by done. destruct (Z.ltb_spec i (Z.of_nat (length q))).
  - by rewrite app_nth1 by lia.
  - rewrite app_nth2 by lia. rewrite nth_overflow by lia.
    generalize (Z.to_nat i - length q)%nat. clear. intros j. revert j. induction n; intros [|j]; simpl; auto.
Qed.

End Slots.

#[global] Arguments holds {A} zero k l a q.

(** [nextPow2] rounds a requested capacity (up to 2^32) up to the smallest
    power of two that is not smaller. *)
Theorem nextPow2_least (n : Z) :
  n <= 2 ^ 32 ->
  exists k, 0 <= k <= 32 /\ nextPow2 n = 2 ^ k /\ n <= 2 ^ k /\
    (forall j, 0 <= j -> n <= 2 ^ j -> 2 ^ k <= 2 ^ j).
Proof.
  intros Hn. destruct (Z.leb_spec n 1).
  - exists 0. unfold nextPow2. destruct (Z.leb_spec n 1); [|lia]. repeat (split; [lia|]). intros. lia.
  - pose proof (Z.log2_nonneg (n - 1)). pose proof (Z.log2_spec (n - 1) ltac:(lia)) as [Hlo Hhi].
    assert (Z.log2 (n - 1) < 32) by (apply Z.log2_lt_pow2; lia).
    exists (Z.log2 (n - 1) + 1). rewrite nextPow2_eq by lia. split; [lia|]. split; [done|].
    rewrite <- Z.add_1_r in Hhi. split; [lia|]. intros j Hj Hnj. apply Z.pow_le_mono_r; [lia|].
    enough (Z.log2 (n - 1) < j) by lia. apply Z.log2_lt_pow2; lia.
Qed.

Lemma nextPow2_least_witness : nextPow2 8000 = 8192 /\ exists k, 0 <= k <= 32 /\ nextPow2 8000 = 2 ^ k.
Proof.
  split; [done|]. destruct (nextPow2_least 8000 ltac:(lia)) as (k & ? & ? & _). eauto.
Defined.

End Ring.
