(* ===== verification/SendBuffer.v ===== *)
(** * The send buffer ([internal/buffer/send.go])

    A ring of packets awaiting acknowledgement.  Every operation of
    [SendBuffer] is modelled on the ring itself (slots, mask, start and next
    sequence number, size).  The contract is a queue: [rep sb a q] says that
    the buffer starting at sequence number [a] holds exactly the entries [q],
    in sequence order, a hole being an entry released out of order; each
    operation is shown to do to the queue what its comment says. *)
From Stdlib Require Import ZArith Lia.
From stdpp Require Import base numbers list option.
From S2P Require Import Prelude Seq Packet Clock Ring.
Import Packet(Packet, zeroPacket, Clone, Release, setRetransmitted).
Local Open Scope Z_scope.

Module SendBuffer.

Record sendEntry : Type := mkSE {
  pkt : Packet;
  used : bool;
  sentAt : Z;
  rexmitTime : Z;
  msgTTL : Z
}.

Definition zeroSE : sendEntry := mkSE zeroPacket false 0 0 0.

Record SendBuffer : Type := mkSB {
  entries : list sendEntry;
  mask : Z;
  startSeq : Z;
  nextSeq : Z;
  size : Z
}.

(** [sb.entries[idx]] and [sb.entries[idx] = e]. *)
Definition entry (sb : SendBuffer) (s : Z) : sendEntry := Ring.get zeroSE (mask sb) (entries sb) s.
Definition put (sb : SendBuffer) (s : Z) (e : sendEntry) : SendBuffer :=
  mkSB (Ring.set (mask sb) (entries sb) s e) (mask sb) (startSeq sb) (nextSeq sb) (size sb).

Definition setStart (sb : SendBuffer) (s : Z) : SendBuffer :=
  mkSB (entries sb) (mask sb) s (nextSeq sb) (size sb).
Definition setNext (sb : SendBuffer) (s : Z) : SendBuffer :=
  mkSB (entries sb) (mask sb) (startSeq sb) s (size sb).
Definition setSize (sb : SendBuffer) (n : Z) : SendBuffer :=
  mkSB (entries sb) (mask sb) (startSeq sb) (nextSeq sb) n.

Definition NewSendBuffer (capacity initialSeq : Z) : SendBuffer :=
  let cap2 := Ring.nextPow2 capacity in
  mkSB (replicate (Z.to_nat cap2) zeroSE) (cap2 - 1) initialSeq initialSeq 0.

(** ** Insertion *)

(** The body shared by [Push] and the loop of [PushBatch]. *)
Definition push1 (ts : Z) (sb : SendBuffer) (p : Packet) : SendBuffer :=
  let sb := put sb (nextSeq sb) (mkSE p true ts 0 0) in
  let sb := setNext sb (Seq.Inc (nextSeq sb)) in
  setSize sb (size sb + 1).

Definition Push (sb : SendBuffer) (p : Packet) (sentAt : list Z) : bool * SendBuffer :=
  if size sb >=? len (entries sb) then (false, sb) else
  let ts := match sentAt with t :: _ => t | [] => 0 end in
  (true, push1 ts sb p).

Definition PushBatch (sb : SendBuffer) (pkts : list Packet) (sentAt : Z) : bool * SendBuffer :=
  if size sb + len pkts >? len (entries sb) then (false, sb) else
  (true, fold_left (push1 sentAt) pkts sb).

(** ** Release *)

(** [if used { Release; clear; count++; size-- }] for the slot of [s]. *)
Definition release1 (s : Z) (sb : SendBuffer) (count : Z) : SendBuffer * Z :=
  if used (entry sb s) then (setSize (put sb s zeroSE) (size sb - 1), count + 1) else (sb, count).

Definition release_body (s : Z) (st : SendBuffer * Z) : Seq.ctl (SendBuffer * Z) :=
  let '(sb, count) := st in
  if size sb >? 0 then
    let '(sb, count) := release1 s sb count in
    Seq.Next (setStart sb (Seq.Inc s), count)
  else Seq.Stop (sb, count).

Definition ACK (sb : SendBuffer) (ackSeq : Z) : Z * SendBuffer :=
  let '(_, (sb, count)) := Seq.walk ackSeq release_body (startSeq sb) (sb, 0) in
  (count, sb).

Definition DropUntil (sb : SendBuffer) (upTo : Z) : Z * SendBuffer :=
  let '(_, (sb, count)) := Seq.walk upTo release_body (startSeq sb) (sb, 0) in
  (count, sb).

(** ** Retransmission *)

Definition outOfRange (sb : SendBuffer) (s : Z) : bool :=
  Seq.LessThan s (startSeq sb) || Seq.LessThanOrEqual (nextSeq sb) s.

Definition rexmitClone (e : sendEntry) : Packet := setRetransmitted (Clone (pkt e)).

Definition NAK (sb : SendBuffer) (lossSeqs : list Z) : list Packet :=
  fold_left (fun retransmit s =>
    if outOfRange sb s then retransmit
    else if used (entry sb s) then retransmit ++ [rexmitClone (entry sb s)]
    else retransmit) lossSeqs [].

Definition setRexmit (e : sendEntry) (t : Z) : sendEntry :=
  mkSE (pkt e) (used e) (sentAt e) t (msgTTL e).

Definition rexmitGate (rtt rttVar : Z) : Z :=
  let g := i64 (rtt - i64 (4 * rttVar)) in if g <? 0 then 0 else g.

(** One pass of the [NAKTimed] loop. *)
Definition nakTimed1 (now timeNAK : Z) (st : SendBuffer * list Packet) (s : Z) : SendBuffer * list Packet :=
  let '(sb, retransmit) := st in
  if outOfRange sb s then (sb, retransmit) else
  let e := entry sb s in
  if negb (used e) then (sb, retransmit) else
  if negb (Clock.IsZero (rexmitTime e)) && negb (Clock.Before (rexmitTime e) timeNAK)
  then (sb, retransmit)
  else (put sb s (setRexmit e now), retransmit ++ [rexmitClone e]).

Definition NAKTimed (sb : SendBuffer) (lossSeqs : list Z) (now rtt rttVar : Z) : SendBuffer * list Packet :=
  let timeNAK := Clock.Add now (i64 (- rexmitGate rtt rttVar)) in
  fold_left (nakTimed1 now timeNAK) lossSeqs (sb, []).

Definition Get (sb : SendBuffer) (seqNo : Z) : Packet * bool :=
  if outOfRange sb seqNo then (zeroPacket, false) else
  if negb (used (entry sb seqNo)) then (zeroPacket, false) else
  (Clone (pkt (entry sb seqNo)), true).

Definition GetAllUnacked (sb : SendBuffer) : list Packet :=
  if size sb =? 0 then [] else
  snd (Seq.walk (nextSeq sb) (fun s pkts =>
         Seq.Next (if used (entry sb s) then pkts ++ [rexmitClone (entry sb s)] else pkts))
       (startSeq sb) []).

(** ** Accessors *)

Definition Size (sb : SendBuffer) : Z := size sb.
Definition OldestSentAt (sb : SendBuffer) : Z :=
  if size sb =? 0 then 0 else
  let e := entry sb (startSeq sb) in
  if negb (used e) then 0 else sentAt e.
Definition Capacity (sb : SendBuffer) : Z := len (entries sb).
Definition Available (sb : SendBuffer) : Z := len (entries sb) - size sb.
Definition StartSeq (sb : SendBuffer) : Z := startSeq sb.
Definition NextSeq (sb : SendBuffer) : Z := nextSeq sb.

Definition OverrideNextSeq (sb : SendBuffer) (nextSeq : Z) : bool * SendBuffer :=
  if size sb =? 0 then (true, setNext (setStart sb nextSeq) nextSeq)
  else (true, setNext sb nextSeq).

Definition OldestSendTime (sb : SendBuffer) : Z :=
  if size sb =? 0 then 0 else sentAt (entry sb (startSeq sb)).

(** ** Deadlines *)

(** The effective deadline of a head packet, in microseconds. *)
Definition deadline (thresh : Z) (e : sendEntry) : Z :=
  let eff := thresh in
  if msgTTL e >? 0 then
    let ttlUs := Z.quot (msgTTL e) 1000 in
    if (eff =? 0) || (ttlUs <? eff) then ttlUs else eff
  else eff.

(** [for sb.size > 0]: every pass that goes on decrements the size, which
    bounds the fuel. *)
Fixpoint dropTooLate_loop (fuel : nat) (now thresh : Z) (sb : SendBuffer) (dropped last : Z) :
    SendBuffer * Z * Z :=
  match fuel with
  | O => (sb, dropped, last)
  | S fuel' =>
      if size sb >? 0 then
        let e := entry sb (startSeq sb) in
        if negb (used e) then (sb, dropped, last) else
        let eff := deadline thresh e in
        if eff <=? 0 then (sb, dropped, last) else
        if i64 (now - sentAt e) <=? eff then (sb, dropped, last) else
        let last := startSeq sb in
        let sb := put sb (startSeq sb) zeroSE in
        let sb := setSize sb (size sb - 1) in
        let sb := setStart sb (Seq.Inc (startSeq sb)) in
        dropTooLate_loop fuel' now thresh sb (dropped + 1) last
      else (sb, dropped, last)
  end.

Definition DropTooLateSend (sb : SendBuffer) (now thresh : Z) : SendBuffer * (Z * Z * Z) :=
  let first := startSeq sb in
  let '(sb', dropped, last) := dropTooLate_loop (Z.to_nat (size sb)) now thresh sb 0 0 in
  (sb', (dropped, first, last)).

Definition ttlExpired (now : Z) (e : sendEntry) : bool :=
  used e && (msgTTL e >? 0) && (i64 (now - sentAt e) >? Z.quot (msgTTL e) 1000).

(** The body of the first loop. *)
Definition expire1 (now s : Z) (st : SendBuffer * Z) : SendBuffer * Z :=
  let '(sb, dropped) := st in
  if ttlExpired now (entry sb s) then (setSize (put sb s zeroSE) (size sb - 1), dropped + 1)
  else (sb, dropped).

Definition DropExpiredTTL (sb : SendBuffer) (now : Z) : Z * SendBuffer :=
  let '(_, (sb, dropped)) :=
    Seq.walk (nextSeq sb) (fun s st => Seq.Next (expire1 now s st)) (startSeq sb) (sb, 0) in
  let '(_, sb) :=
    Seq.walk (nextSeq sb) (fun s sb =>
      if used (entry sb s) then Seq.Stop sb else Seq.Next (setStart sb (Seq.Inc s))) (startSeq sb) sb in
  (dropped, sb).

(** ** Per-message TTL *)

Definition setTTL (e : sendEntry) (ttl : Z) : sendEntry :=
  mkSE (pkt e) (used e) (sentAt e) (rexmitTime e) ttl.

Definition setTTL_at (ttl s : Z) (sb : SendBuffer) : SendBuffer :=
  if used (entry sb s) then put sb s (setTTL (entry sb s) ttl) else sb.

Definition SetMsgTTL (sb : SendBuffer) (ttl : Z) : SendBuffer :=
  if size sb =? 0 then sb else
  let prevSeq := Seq.Dec (nextSeq sb) in
  setTTL_at ttl prevSeq sb.

Definition SetMsgTTLBatch (sb : SendBuffer) (ttl n : Z) : SendBuffer :=
  if (size sb =? 0) || (n <=? 0) then sb else
  fold_left (fun sb (i : nat) => setTTL_at ttl (Seq.Add (nextSeq sb) (u32 (- n + Z.of_nat i))) sb)
    (seq 0 (Z.to_nat n)) sb.

(** ** The queue a buffer stands for *)

Definition b2z (b : bool) : Z := if b then 1 else 0.

Fixpoint count_used (q : list sendEntry) : Z :=
  match q with [] => 0 | e :: q' => b2z (used e) + count_used q' end.

(** A slot is a packet or it is empty. *)
Definition entry_ok (e : sendEntry) : Prop := used e = true \/ e = zeroSE.

Record rep (k : Z) (sb : SendBuffer) (q : list sendEntry) : Prop := mkRep {
  rep_k : 0 <= k <= 29;
  rep_mask : mask sb = 2 ^ k - 1;
  rep_holds : Ring.holds zeroSE k (entries sb) (startSeq sb) q;
  rep_start : Seq.is_seq (startSeq sb);
  rep_next : nextSeq sb = Seq.sadd (startSeq sb) (len q);
  rep_size : size sb = count_used q;
  rep_ok : Forall entry_ok q
}.

Lemma count_used_bound q : 0 <= count_used q <= len q.
Proof.
  unfold len. induction q as [|e q IH]; cbn [count_used length]; [lia|].
  destruct (used e); cbn [b2z]; lia.
Qed.

Lemma count_used_app q r : count_used (q ++ r) = count_used q + count_used r.
Proof. induction q; cbn [count_used app]; lia. Qed.

Lemma count_used_zero q : Forall entry_ok q -> count_used q = 0 -> q = replicate (length q) zeroSE.
Proof.
  induction 1 as [|e q [He|He] _ IH]; intros H; [done|..]; cbn [count_used] in H;
    pose proof (count_used_bound q); subst; rewrite ?He in H; cbn [b2z] in H; [lia|].
  cbn [length replicate]. f_equal. apply IH. simpl in H. lia.
Qed.

Lemma rep_k30 {k sb q} : rep k sb q -> 0 <= k <= 30.
Proof. intros [? ? ? ? ? ? ?]. lia. Qed.

Lemma rep_len {k sb q} : rep k sb q -> 0 <= len q <= 2 ^ k /\ 2 ^ k <= 2 ^ 29 /\ len (entries sb) = 2 ^ k.
Proof.
  intros [Hk _ (Hl & Hq & _) _ _ _ _]. split; [unfold len in *; lia|].
  split; [apply Z.pow_le_mono_r; lia|done].
Qed.

Lemma rep_entry {k sb q} i :
  rep k sb q -> 0 <= i < 2 ^ k -> entry sb (Seq.sadd (startSeq sb) i) = nth (Z.to_nat i) q zeroSE.
Proof. intros H Hi. unfold entry. rewrite (rep_mask _ _ _ H). apply (rep_holds _ _ _ H). done. Qed.

Lemma rep_head {k sb e q} : rep k sb (e :: q) -> entry sb (startSeq sb) = e.
Proof.
  intros H. rewrite <- (Seq.sadd_0 (startSeq sb)) by apply (rep_start _ _ _ H).
  rewrite (rep_entry 0 H); [done|]. pose proof (Ring.cap_pos k (rep_k30 H)). lia.
Qed.

Lemma NewSendBuffer_rep capacity s :
  capacity <= 2 ^ 29 -> Seq.is_seq s ->
  exists k, 2 ^ k = Ring.nextPow2 capacity /\ rep k (NewSendBuffer capacity s) [].
Proof.
  intros Hc Hs. destruct (Ring.nextPow2_pow29 capacity Hc) as (k & Hk & E).
  exists k. split; [done|]. unfold NewSendBuffer. rewrite E.
  constructor; simpl; try done; [|by rewrite Seq.sadd_0].
  apply Ring.holds_make. lia.
Qed.

(** ** Push *)

Lemma push1_rep k sb q p ts :
  rep k sb q -> len q < 2 ^ k -> rep k (push1 ts sb p) (q ++ [mkSE p true ts 0 0]).
Proof.
  intros H Hlt. pose proof H as [Hk Hm Hh Hs Hn Hz Ho]. unfold push1, put. 
  constructor; simpl; try done.
  - rewrite Hm, Hn. apply Ring.holds_push; [lia|done|done].
  - rewrite Hn, Seq.Inc_sadd, Seq.sadd_sadd by apply Seq.sadd_seq.
    f_equal. unfold len. rewrite length_app. simpl. lia.
  - rewrite count_used_app. simpl. lia.
  - apply Forall_app. split; [done|]. constructor; [by left|constructor].
Qed.

Definition pushed (ts : Z) (p : Packet) : sendEntry := mkSE p true ts 0 0.

Lemma push_fold_rep k sb q pkts ts :
  rep k sb q -> len q + len pkts <= 2 ^ k -> rep k (fold_left (push1 ts) pkts sb) (q ++ map (pushed ts) pkts).
Proof.
  revert sb q. induction pkts as [|p pkts IH]; intros sb q H Hl.
  - cbn [map]. by rewrite app_nil_r.
  - unfold len in *. simpl length in Hl. cbn [fold_left map].
    replace (q ++ pushed ts p :: map (pushed ts) pkts) with ((q ++ [pushed ts p]) ++ map (pushed ts) pkts)
      by (by rewrite <- app_assoc).
    apply IH; [apply push1_rep; [done|unfold len; lia]|]. rewrite length_app. simpl. lia.
Qed.

(** ** Release *)

(** At most [n] entries, as long as a packet is left. *)
Fixpoint release (n : nat) (q : list sendEntry) : Z * list sendEntry :=
  match n, q with
  | S n', e :: q' =>
      if 0 <? count_used q then let '(c, q'') := release n' q' in (b2z (used e) + c, q'') else (0, q)
  | _, _ => (0, q)
  end.

Lemma release1_rep k sb e q c :
  rep k sb (e :: q) ->
  exists sb', release1 (startSeq sb) sb c = (sb', c + b2z (used e)) /\
    rep k (setStart sb' (Seq.Inc (startSeq sb))) q.
Proof.
  intros H. pose proof H as [Hk Hm Hh Hs Hn Hz Ho]. apply Forall_cons_1 in Ho as [He Ho].
  unfold release1. rewrite (rep_head H).
  assert (Seq.sadd (startSeq sb) (len (e :: q)) = Seq.sadd (Seq.Inc (startSeq sb)) (len q)) as Hn'.
  { rewrite Seq.Inc_sadd, Seq.sadd_sadd by done. f_equal. unfold len. simpl length. lia. }
  rewrite Hn' in Hn. cbn [count_used] in Hz.
  destruct He as [He| ->]; [rewrite He in *|simpl]; eexists; (split; [by cbn [b2z]; rewrite ?Z.add_0_r|]).
  - constructor; simpl; try done; [|by apply Seq.Inc_seq|simpl in Hz; lia].
    rewrite Hm, Seq.Inc_sadd by done. rewrite <- (Seq.sadd_0 (startSeq sb)) at 1 by done.
    apply (Ring.holds_pop zeroSE k ltac:(lia) _ _ e). done.
  - constructor; simpl; try done; [|by apply Seq.Inc_seq].
    rewrite Seq.Inc_sadd by done. apply (Ring.holds_skip zeroSE k ltac:(lia)). done.
Qed.

Lemma walk_fuel_Inc s lim :
  Seq.is_seq s -> Seq.is_seq lim -> Seq.LessThan s lim = true ->
  Seq.walk_fuel s lim = S (Seq.walk_fuel (Seq.Inc s) lim).
Proof.
  intros Hs Hl H. destruct (Seq.LessThan_true _ _ Hs Hl H) as [Hg _]. unfold Seq.walk_fuel. rewrite H.
  pose proof (Seq.gap_Inc s lim Hs ltac:(lia)) as Hi.
  destruct (Seq.LessThan (Seq.Inc s) lim) eqn:E; [rewrite Hi; lia|].
  apply Seq.LessThan_false in E; [|by apply Seq.Inc_seq|done]. lia.
Qed.

Lemma release_walk k sb q lim c :
  rep k sb q -> Seq.is_seq lim ->
  let '(n, q') := release (Seq.walk_fuel (startSeq sb) lim) q in
  exists s sb', Seq.walk lim release_body (startSeq sb) (sb, c) = (s, (sb', c + n)) /\ rep k sb' q' /\
    startSeq sb' = Seq.sadd (startSeq sb) (len q - len q').
Proof.
  intros H Hl. revert sb c H. induction q as [|e q IH]; intros sb c H.
  - assert (release (Seq.walk_fuel (startSeq sb) lim) [] = (0, [])) as -> by (by destruct (Seq.walk_fuel _ _)).
    rewrite Seq.walk_unfold by (apply (rep_start _ _ _ H) || by apply Seq.seq_u32).
    exists (startSeq sb), sb. rewrite Z.add_0_r, Z.sub_diag, Seq.sadd_0 by apply (rep_start _ _ _ H).
    destruct (Seq.LessThan (startSeq sb) lim); [|done]. unfold release_body.
    rewrite (rep_size _ _ _ H). done.
  - pose proof (rep_start _ _ _ H) as Hs. rewrite Seq.walk_unfold by (done || by apply Seq.seq_u32).
    destruct (Seq.LessThan (startSeq sb) lim) eqn:E.
    + rewrite (walk_fuel_Inc _ _ Hs Hl E). cbn [release]. unfold release_body at 1.
      rewrite (rep_size _ _ _ H), Z.gtb_ltb. destruct (0 <? count_used (e :: q)).
      * destruct (release1_rep k sb e q c H) as (sb1 & -> & H1).
        specialize (IH (setStart sb1 (Seq.Inc (startSeq sb))) (c + b2z (used e)) H1). simpl startSeq in IH.
        destruct (release (Seq.walk_fuel (Seq.Inc (startSeq sb)) lim) q) as [n q'].
        destruct IH as (s & sb' & Hw & Hr & Hst). exists s, sb'. rewrite Hw. split; [f_equal; f_equal; lia|].
        split; [done|]. rewrite Hst, Seq.Inc_sadd, Seq.sadd_sadd by done. f_equal. unfold len. simpl length. lia.
      * exists (startSeq sb), sb. rewrite Z.add_0_r, Z.sub_diag, Seq.sadd_0 by done. done.
    + unfold Seq.walk_fuel. rewrite E. exists (startSeq sb), sb.
      rewrite Z.add_0_r, Z.sub_diag, Seq.sadd_0 by done. done.
Qed.

(** With no holes this is the prefix the caller asked for. *)
Lemma release_all_used n q :
  Forall (fun e => used e = true) q -> release n q = (Z.min (Z.of_nat n) (len q), drop n q).
Proof.
  intros H. revert n. induction H as [|e q He Hq IH]; intros n.
  - destruct n; cbn [release drop]; f_equal; unfold len; simpl; lia.
  - destruct n as [|n]; cbn [release]; [f_equal; unfold len; simpl; lia|].
    cbn [count_used drop]. pose proof (count_used_bound q). rewrite He, IH. cbn [b2z].
    destruct (Z.ltb_spec 0 (1 + count_used q)); [|lia]. f_equal. unfold len. simpl length. lia.
Qed.

(** Any 32-bit word as the limit releases some prefix of a window without holes. *)
Lemma release_walk_any k q lim : is_u32 lim -> forall sb c,
  rep k sb q -> Forall (fun e => used e = true) q ->
  exists j s sb', (j <= length q)%nat /\ Seq.walk lim release_body (startSeq sb) (sb, c) = (s, (sb', c + Z.of_nat j)) /\
    rep k sb' (drop j q) /\ startSeq sb' = Seq.sadd (startSeq sb) (Z.of_nat j).
Proof.
  intros Hl. induction q as [|e q IH]; intros sb c H Hf; pose proof (rep_start _ _ _ H) as Hs;
    rewrite Seq.walk_unfold by done.
  - exists 0%nat, (startSeq sb), sb. rewrite Z.add_0_r, Seq.sadd_0, drop_0 by done. split; [done|].
    split; [|done]. destruct (Seq.LessThan _ lim); [|done]. unfold release_body. by rewrite (rep_size _ _ _ H).
  - apply Forall_cons_1 in Hf as [He Hf]. pose proof (count_used_bound q).
    destruct (Seq.LessThan _ lim).
    + unfold release_body at 1. rewrite (rep_size _ _ _ H), Z.gtb_ltb. cbn [count_used]. rewrite He. cbn [b2z].
      destruct (Z.ltb_spec 0 (1 + count_used q)); [|lia].
      destruct (release1_rep k sb e q c H) as (sb1 & -> & Hr1). rewrite He in *. cbn [b2z] in *.
      destruct (IH (setStart sb1 (Seq.Inc (startSeq sb))) (c + 1) Hr1 Hf) as (j & s & sb' & Hj & Hw & Hr & Hst).
      simpl startSeq in Hw, Hst. exists (S j), s, sb'. cbn [length drop]. split; [lia|]. rewrite Hw.
      split; [f_equal; f_equal; lia|]. split; [done|]. by rewrite Hst, Seq.sadd_S.
    + exists 0%nat, (startSeq sb), sb. rewrite Z.add_0_r, Seq.sadd_0, drop_0 by done. split; [lia|done].
Qed.

(** ** Lookup and retransmission *)

Definition lookup_entry (a : Z) (q : list sendEntry) (s : Z) : option sendEntry :=
  if Seq.gap a s <? len q then
    let e := nth (Z.to_nat (Seq.gap a s)) q zeroSE in if used e then Some e else None
  else None.

Lemma outOfRange_gap k sb q s :
  rep k sb q -> Seq.is_seq s -> outOfRange sb s = negb (Seq.gap (startSeq sb) s <? len q).
Proof.
  intros H Hs. pose proof (rep_len H) as (? & ? & ?). unfold outOfRange. rewrite (rep_next _ _ _ H).
  apply Seq.window_test; [apply (rep_start _ _ _ H)|done|lia].
Qed.

Lemma entry_gap k sb q s :
  rep k sb q -> Seq.is_seq s -> Seq.gap (startSeq sb) s < len q ->
  entry sb s = nth (Z.to_nat (Seq.gap (startSeq sb) s)) q zeroSE.
Proof.
  intros H Hs Hg. pose proof (rep_len H). pose proof (Seq.gap_range (startSeq sb) s).
  rewrite <- (Seq.sadd_gap (startSeq sb) s Hs) at 1. apply (rep_entry _ H). lia.
Qed.

Lemma NAK_rep k sb q losses :
  rep k sb q -> Forall Seq.is_seq losses ->
  NAK sb losses = omap (fun s => rexmitClone <$> lookup_entry (startSeq sb) q s) losses.
Proof.
  intros H Hl. unfold NAK. rewrite <- (app_nil_l (omap _ _)).
  generalize (@nil Packet) at 2 3. induction Hl as [|s losses Hs _ IH]; intros acc; cbn [fold_left omap list_omap].
  - by rewrite app_nil_r.
  - rewrite (outOfRange_gap k sb q s) by done. unfold lookup_entry.
    destruct (Z.ltb_spec (Seq.gap (startSeq sb) s) (len q)); cbn [negb]; [|by apply IH].
    rewrite (entry_gap k sb q s) by done. destruct (used _); cbn [fmap option_fmap option_map]; [|by apply IH].
    rewrite IH, <- app_assoc. done.
Qed.

Lemma Get_rep k sb q s :
  rep k sb q -> Seq.is_seq s ->
  Get sb s = match lookup_entry (startSeq sb) q s with
             | Some e => (Clone (pkt e), true)
             | None => (zeroPacket, false)
             end.
Proof.
  intros H Hs. unfold Get, lookup_entry. rewrite (outOfRange_gap k sb q s) by done.
  destruct (Z.ltb_spec (Seq.gap (startSeq sb) s) (len q)); cbn [negb]; [|done].
  rewrite (entry_gap k sb q s) by done. by destruct (used _).
Qed.

(** Replacing the entry at a known place of the queue. *)
Lemma rep_update k sb q1 e q2 e' :
  rep k sb (q1 ++ e :: q2) -> entry_ok e' ->
  rep k (setSize (put sb (Seq.sadd (startSeq sb) (len q1)) e') (size sb - b2z (used e) + b2z (used e')))
    (q1 ++ e' :: q2).
Proof.
  intros H He. pose proof (rep_len H) as (Hl & _ & _). pose proof H as [Hk Hm Hh Hs Hn Hz Ho].
  rewrite count_used_app in Hz. cbn [count_used] in Hz.
  apply Forall_app in Ho as [Ho1 Ho2]. apply Forall_cons_1 in Ho2 as [_ Ho2].
  constructor; simpl; try done.
  - rewrite Hm.
    replace (q1 ++ e' :: q2) with (<[Z.to_nat (len q1) := e']> (q1 ++ e :: q2)).
    + apply Ring.holds_set; [lia|done|]. unfold len in *. rewrite length_app in *. simpl in *. lia.
    + unfold len. rewrite Nat2Z.id. rewrite insert_app_r_alt by done. by rewrite Nat.sub_diag.
  - rewrite Hn. f_equal. unfold len. rewrite !length_app. done.
  - rewrite count_used_app. cbn [count_used]. lia.
  - apply Forall_app. split; [done|]. by constructor.
Qed.

Lemma setSize_id sb n : size sb = n -> setSize sb n = sb.
Proof. intros <-. by destruct sb. Qed.

Lemma put_size sb s e : size (put sb s e) = size sb.
Proof. done. Qed.

(** The same for an entry that stays a packet. *)
Lemma rep_update_used k sb q1 e q2 e' :
  rep k sb (q1 ++ e :: q2) -> used e = true -> used e' = true ->
  rep k (put sb (Seq.sadd (startSeq sb) (len q1)) e') (q1 ++ e' :: q2).
Proof.
  intros H He He'. pose proof (rep_update k sb q1 e q2 e' H (or_introl He')) as Hr.
  rewrite He, He' in Hr. rewrite setSize_id in Hr; [done|]. rewrite put_size. lia.
Qed.

Lemma nth_split_at {A} (d : A) q i :
  (i < length q)%nat -> exists q1 q2, q = q1 ++ nth i q d :: q2 /\ length q1 = i.
Proof. intros Hi. destruct (nth_split q d Hi) as (q1 & q2 & ? & ?). eauto. Qed.

(** Reading the window in order gives the queue. *)
Lemma rep_entries k sb q : rep k sb q -> map (entry sb) (Seq.seqs (startSeq sb) (length q)) = q.
Proof.
  intros H. pose proof (rep_len H) as (Hl & _ & _). apply list_eq_same_length with (length q).
  { done. } { by rewrite length_map, Seq.seqs_length. }
  intros i x y Hi. rewrite list_lookup_fmap, Seq.seqs_lookup by (done || apply (rep_start _ _ _ H)).
  cbn [fmap option_fmap option_map]. intros [= <-] Hy. unfold len in Hl.
  rewrite (rep_entry _ H) by lia. rewrite Nat2Z.id, nth_lookup, Hy. done.
Qed.

Lemma fold_collect {A B C} (p : B -> bool) (g : A -> B) (h : B -> C) l acc :
  fold_left (fun acc s => if p (g s) then acc ++ [h (g s)] else acc) l acc =
    acc ++ map h (List.filter p (map g l)).
Proof.
  revert acc. induction l as [|x l IH]; intros acc; cbn [fold_left map List.filter]; [by rewrite app_nil_r|].
  rewrite IH. destruct (p (g x)); [|done]. cbn [map]. by rewrite <- app_assoc.
Qed.

Lemma count_used_none q : count_used q = 0 -> List.filter used q = [].
Proof.
  induction q as [|e q IH]; [done|]. cbn [count_used List.filter]. pose proof (count_used_bound q).
  destruct (used e); cbn [b2z]; [lia|]. intros. apply IH. lia.
Qed.

Lemma GetAllUnacked_rep k sb q :
  rep k sb q -> GetAllUnacked sb = map rexmitClone (List.filter used q).
Proof.
  intros H. pose proof (rep_len H) as (Hl & Hc & _). unfold GetAllUnacked. rewrite (rep_size _ _ _ H).
  destruct (Z.eqb_spec (count_used q) 0) as [E|_]; [by rewrite count_used_none|].
  rewrite (rep_next _ _ _ H). unfold len.
  rewrite (Seq.walk_next (fun s pkts => if used (entry sb s) then pkts ++ [rexmitClone (entry sb s)] else pkts))
    by (apply (rep_start _ _ _ H) || (unfold len in *; lia)).
  cbn [snd]. rewrite (fold_collect used (entry sb)). by rewrite (rep_entries k).
Qed.

(** ** The retransmission gate *)

Definition eligible (timeNAK : Z) (e : sendEntry) : bool :=
  Clock.IsZero (rexmitTime e) || Clock.Before (rexmitTime e) timeNAK.

Lemma lookup_entry_split a q s e :
  lookup_entry a q s = Some e ->
  used e = true /\ Seq.gap a s < len q /\ nth (Z.to_nat (Seq.gap a s)) q zeroSE = e.
Proof.
  unfold lookup_entry. destruct (Z.ltb_spec (Seq.gap a s) (len q)); [|done].
  destruct (used _) eqn:E; [|done]. by intros [= <-].
Qed.

Lemma nakTimed1_rep k sb q now tn out s :
  rep k sb q -> Seq.is_seq s ->
  match lookup_entry (startSeq sb) q s with
  | Some e =>
      if eligible tn e then
        exists sb', nakTimed1 now tn (sb, out) s = (sb', out ++ [rexmitClone e]) /\ startSeq sb' = startSeq sb /\
          rep k sb' (<[Z.to_nat (Seq.gap (startSeq sb) s) := setRexmit e now]> q)
      else nakTimed1 now tn (sb, out) s = (sb, out)
  | None => nakTimed1 now tn (sb, out) s = (sb, out)
  end.
Proof.
  intros H Hs. unfold nakTimed1. rewrite (outOfRange_gap k sb q s) by done.
  destruct (lookup_entry _ _ _) as [e|] eqn:E.
  - apply lookup_entry_split in E as (Hu & Hg & He).
    destruct (Z.ltb_spec (Seq.gap (startSeq sb) s) (len q)); [|lia]. cbn [negb].
    rewrite (entry_gap k sb q s), He, Hu by done. cbn [negb]. unfold eligible.
    rewrite <- negb_orb. destruct (_ || _); cbn [negb]; [|done]. eexists. split; [done|]. split; [done|].
    pose proof (Seq.gap_range (startSeq sb) s). unfold len in Hg.
    destruct (nth_split_at zeroSE q (Z.to_nat (Seq.gap (startSeq sb) s)) ltac:(lia)) as (q1 & q2 & Hq & Hl1).
    rewrite He in Hq. rewrite Hq in H |- *.
    assert (<[Z.to_nat (Seq.gap (startSeq sb) s) := setRexmit e now]> (q1 ++ e :: q2) = q1 ++ setRexmit e now :: q2)
      as -> by (rewrite <- Hl1, insert_app_r_alt, Nat.sub_diag; done).
    rewrite <- (Seq.sadd_gap (startSeq sb) s Hs) at 1.
    replace (Seq.gap (startSeq sb) s) with (len q1) by (unfold len; lia).
    by apply (rep_update_used k sb q1 e q2).
  - unfold lookup_entry in E. destruct (Z.ltb_spec (Seq.gap (startSeq sb) s) (len q)); cbn [negb]; [|done].
    rewrite (entry_gap k sb q s) by done. by destruct (used _).
Qed.

(** ** Deadlines *)

Definition tooLate (now thresh : Z) (e : sendEntry) : bool :=
  used e && (0 <? deadline thresh e) && (deadline thresh e <? i64 (now - sentAt e)).

Fixpoint prefix_len (p : sendEntry -> bool) (q : list sendEntry) : nat :=
  match q with e :: q' => if p e then S (prefix_len p q') else 0%nat | [] => 0%nat end.

Lemma rep_pop k sb e q :
  rep k sb (e :: q) -> used e = true ->
  rep k (setStart (setSize (put sb (startSeq sb) zeroSE) (size sb - 1)) (Seq.Inc (startSeq sb))) q.
Proof.
  intros H He. destruct (release1_rep k sb e q 0 H) as (sb' & Hr & Hq). unfold release1 in Hr.
  rewrite (rep_head H), He in Hr. by injection Hr as <-.
Qed.

Lemma dropTooLate_rep k sb q now thresh fuel dropped last :
  rep k sb q -> (Z.to_nat (size sb) <= fuel)%nat ->
  let n := prefix_len (tooLate now thresh) q in
  exists sb', dropTooLate_loop fuel now thresh sb dropped last =
    (sb', dropped + Z.of_nat n, if Nat.eqb n 0 then last else Seq.sadd (startSeq sb) (Z.of_nat n - 1)) /\
    rep k sb' (drop n q) /\ startSeq sb' = Seq.sadd (startSeq sb) (Z.of_nat n).
Proof.
  cbv zeta. revert sb q dropped last. induction fuel as [|fuel IH]; intros sb q dropped last H Hf;
    pose proof (rep_start _ _ _ H) as Hs; pose proof (rep_size _ _ _ H) as Hz.
  - assert (prefix_len (tooLate now thresh) q = 0%nat) as ->.
    { destruct q as [|e q]; [done|]. cbn [prefix_len count_used] in *. unfold tooLate.
      pose proof (count_used_bound q). destruct (used e); [simpl in Hz; lia|done]. }
    exists sb. cbn. rewrite Z.add_0_r, Seq.sadd_0 by done. done.
  - cbn [dropTooLate_loop]. destruct q as [|e q].
    { exists sb. rewrite Hz. cbn. rewrite Z.add_0_r, Seq.sadd_0 by done. done. }
    rewrite (rep_head H). cbn [prefix_len].
    pose proof (count_used_bound q) as Hcb. cbn [count_used] in Hz.
    rewrite (Z.leb_antisym 0 (deadline thresh e)), (Z.leb_antisym (deadline thresh e)).
    destruct (tooLate now thresh e) eqn:Et; unfold tooLate in Et.
    2: { exists sb. cbn [Nat.eqb drop]. rewrite Z.add_0_r, Seq.sadd_0 by done. split; [|done].
         destruct (size sb >? 0); [|done]. destruct (used e); [|done].
         destruct (0 <? deadline thresh e); [|done]. cbn [andb] in Et. by rewrite Et. }
    apply andb_true_iff in Et as [Et Hdl]. apply andb_true_iff in Et as [Hu Hdp]. rewrite Hu, Hdp, Hdl in *.
    assert ((size sb >? 0) = true) as -> by (cbn [b2z] in Hz; zbool; lia). cbn [negb].
    pose proof (rep_pop k sb e q H Hu) as H1.
    destruct (IH _ _ (dropped + 1) (startSeq sb) H1) as (sb' & Hr & Hq & Hst); [simpl; cbn [b2z] in Hz; lia|].
    exists sb'. cbn [startSeq setStart] in Hr, Hst. cbn [Nat.eqb drop].
    rewrite Seq.Inc_sadd, Seq.sadd_sadd in Hst by done. split; [|split; [done|rewrite Hst; f_equal; lia]].
    change (startSeq (setSize (put sb (startSeq sb) zeroSE) (size (put sb (startSeq sb) zeroSE) - 1))) with (startSeq sb).
    change (size (put sb (startSeq sb) zeroSE)) with (size sb). rewrite Hr. f_equal; [f_equal; lia|].
    rewrite Seq.Inc_sadd, Seq.sadd_sadd by done.
    destruct (prefix_len (tooLate now thresh) q); cbn [Nat.eqb]; [by rewrite Seq.sadd_0|f_equal; lia].
Qed.

Lemma len_snoc {A} (q : list A) x : len (q ++ [x]) = len q + 1.
Proof. unfold len. rewrite length_app. simpl. lia. Qed.

Lemma snoc_app {A} (q : list A) x r : (q ++ [x]) ++ r = q ++ x :: r.
Proof. by rewrite <- app_assoc. Qed.

Lemma rep_entry_at k sb q1 e q2 :
  rep k sb (q1 ++ e :: q2) -> entry sb (Seq.sadd (startSeq sb) (len q1)) = e.
Proof.
  intros H. pose proof (rep_len H) as (Hl & _). unfold len in *. rewrite length_app in Hl. simpl in Hl.
  rewrite (rep_entry _ H) by lia. rewrite Nat2Z.id, app_nth2, Nat.sub_diag by lia. done.
Qed.

(** Dropping the expired entries in place... *)
Definition expire (now : Z) (e : sendEntry) : sendEntry := if ttlExpired now e then zeroSE else e.

Definition count_expired (now : Z) (q : list sendEntry) : Z := len (List.filter (ttlExpired now) q).

Lemma expire_fold k sb q1 q2 now d :
  rep k sb (q1 ++ q2) ->
  exists sb', fold_left (fun st s => expire1 now s st) (Seq.seqs (Seq.sadd (startSeq sb) (len q1)) (length q2)) (sb, d)
      = (sb', d + count_expired now q2) /\
    rep k sb' (q1 ++ map (expire now) q2) /\ startSeq sb' = startSeq sb.
Proof.
  revert sb q1 d. induction q2 as [|e q2 IH]; intros sb q1 d H.
  - exists sb. cbn [length Seq.seqs fold_left map]. unfold count_expired, len. simpl. rewrite Z.add_0_r. done.
  - cbn [length Seq.seqs fold_left map]. rewrite Seq.Inc_sadd, Seq.sadd_sadd by apply Seq.sadd_seq.
    unfold expire1 at 2. rewrite (rep_entry_at k sb q1 e q2) by done. unfold expire at 1, count_expired.
    cbn [List.filter]. destruct (ttlExpired now e) eqn:E.
    + assert (used e = true) as Hu by (unfold ttlExpired in E; by destruct (used e)).
      pose proof (rep_update k sb q1 e q2 zeroSE H (or_intror eq_refl)) as H1.
      rewrite Hu in H1. cbn [b2z used zeroSE] in H1. rewrite Z.add_0_r in H1.
      rewrite <- snoc_app in H1. rewrite <- (len_snoc q1 zeroSE).
      destruct (IH _ _ (d + 1) H1) as (sb' & Hf & Hr & Hs). exists sb'. cbn [startSeq setSize put] in Hf, Hs.
      rewrite Hf. split; [f_equal; unfold count_expired, len; simpl length; lia|].
      rewrite snoc_app in Hr. done.
    + rewrite <- (len_snoc q1 e). rewrite <- snoc_app in H.
      destruct (IH _ _ d H) as (sb' & Hf & Hr & Hs). exists sb'. rewrite Hf. split; [done|].
      rewrite snoc_app in Hr. done.
Qed.

(** ... and then skipping the holes at the front. *)
Fixpoint skip_unused (q : list sendEntry) : list sendEntry :=
  match q with e :: q' => if used e then q else skip_unused q' | [] => [] end.

Lemma skip_walk k sb q :
  rep k sb q ->
  exists s sb', Seq.walk (nextSeq sb) (fun s sb =>
      if used (entry sb s) then Seq.Stop sb else Seq.Next (setStart sb (Seq.Inc s))) (startSeq sb) sb = (s, sb') /\
    rep k sb' (skip_unused q) /\ nextSeq sb' = nextSeq sb.
Proof.
  revert sb. induction q as [|e q IH]; intros sb H; pose proof (rep_start _ _ _ H) as Hs;
    pose proof (rep_len H) as (Hl & Hc & _).
  - rewrite Seq.walk_unfold by (done || (rewrite (rep_next _ _ _ H); apply Seq.seq_u32, Seq.sadd_seq)).
    assert (Seq.LessThan (startSeq sb) (nextSeq sb) = false) as ->.
    { rewrite (rep_next _ _ _ H). unfold len. simpl length. by rewrite Seq.sadd_0, Seq.LessThan_irrefl. }
    exists (startSeq sb), sb. done.
  - rewrite Seq.walk_unfold by (done || (rewrite (rep_next _ _ _ H); apply Seq.seq_u32, Seq.sadd_seq)).
    assert (Seq.LessThan (startSeq sb) (nextSeq sb) = true) as ->.
    { rewrite (rep_next _ _ _ H). apply Seq.LessThan_intro; [done|apply Seq.sadd_seq|].
      rewrite Seq.gap_sadd; unfold len in *; simpl length in *; lia. }
    rewrite (rep_head H). cbn [skip_unused]. destruct (used e) eqn:Hu; [by exists (startSeq sb), sb|].
    destruct (release1_rep k sb e q 0 H) as (sb1 & Hr & H1). unfold release1 in Hr.
    rewrite (rep_head H), Hu in Hr. injection Hr as <-.
    destruct (IH _ H1) as (s & sb' & Hw & Hq & Hn). exists s, sb'. done.
Qed.

Lemma DropExpiredTTL_rep k sb q now :
  rep k sb q ->
  exists sb', DropExpiredTTL sb now = (count_expired now q, sb') /\
    rep k sb' (skip_unused (map (expire now) q)) /\ nextSeq sb' = nextSeq sb.
Proof.
  intros H. pose proof (rep_start _ _ _ H) as Hs. pose proof (rep_len H) as (Hl & Hc & _).
  unfold DropExpiredTTL. pose proof (rep_next _ _ _ H) as Hn. unfold len in Hn. rewrite Hn.
  rewrite (Seq.walk_next (expire1 now)) by (done || (unfold len in *; lia)).
  destruct (expire_fold k sb [] q now 0 H) as (sb1 & Hf & H1 & Hs1).
  change (len []) with 0 in Hf. rewrite Seq.sadd_0 in Hf by done. rewrite Hf.
  destruct (skip_walk k sb1 _ H1) as (s & sb2 & Hw & H2 & Hn2). rewrite Hw. exists sb2. split; [done|].
  split; [done|]. rewrite Hn2, (rep_next _ _ _ H1), Hs1. f_equal. unfold len.
  simpl. by rewrite length_map.
Qed.

(** ** TTL marks and sequence overrides *)

Definition withTTL (ttl : Z) (e : sendEntry) : sendEntry := if used e then setTTL e ttl else e.

Lemma setTTL_rep k sb q1 e q2 ttl :
  rep k sb (q1 ++ e :: q2) ->
  rep k (setTTL_at ttl (Seq.sadd (startSeq sb) (len q1)) sb) (q1 ++ withTTL ttl e :: q2).
Proof.
  intros H. unfold setTTL_at, withTTL. rewrite (rep_entry_at k sb q1 e q2) by done.
  destruct (used e) eqn:Hu; [|done]. by apply (rep_update_used k sb q1 e q2).
Qed.

Lemma setTTL_frame ttl s sb :
  startSeq (setTTL_at ttl s sb) = startSeq sb /\ nextSeq (setTTL_at ttl s sb) = nextSeq sb.
Proof. unfold setTTL_at. by destruct (used _). Qed.

Lemma setTTL_fold k sb q0 q2 ttl n (j : nat) :
  rep k sb (q0 ++ q2) -> Z.of_nat j + len q2 = n ->
  rep k (fold_left (fun sb (i : nat) => setTTL_at ttl (Seq.Add (nextSeq sb) (u32 (- n + Z.of_nat i))) sb)
           (seq j (length q2)) sb) (q0 ++ map (withTTL ttl) q2).
Proof.
  revert sb q0 j. induction q2 as [|e q2 IH]; intros sb q0 j H Hj; [done|].
  pose proof (rep_len H) as (Hl & Hc & _). cbn [length seq fold_left map].
  unfold len in Hl, Hj. rewrite length_app in Hl. simpl length in Hl, Hj.
  assert (Seq.Add (nextSeq sb) (u32 (- n + Z.of_nat j)) = Seq.sadd (startSeq sb) (len q0)) as ->.
  { rewrite (rep_next _ _ _ H), Seq.Add_sadd, Seq.sadd_sadd by (apply Seq.sadd_seq || lia).
    f_equal. unfold len. rewrite length_app. simpl length. lia. }
  pose proof (setTTL_rep k sb q0 e q2 ttl H) as H1. rewrite <- snoc_app in H1 |- *.
  apply IH; [done|]. unfold len. lia.
Qed.

Lemma SetMsgTTLBatch_rep k sb q0 q2 ttl :
  rep k sb (q0 ++ q2) -> 0 < size sb ->
  rep k (SetMsgTTLBatch sb ttl (len q2)) (q0 ++ map (withTTL ttl) q2).
Proof.
  intros H Hz. unfold SetMsgTTLBatch. destruct (Z.eqb_spec (size sb) 0); [lia|]. cbn [orb].
  destruct (Z.leb_spec (len q2) 0) as [Hle|_].
  - destruct q2; [done|unfold len in Hle; simpl in Hle; lia].
  - unfold len at 2. rewrite Nat2Z.id. apply setTTL_fold; [done|lia].
Qed.

Lemma SetMsgTTL_rep k sb q e ttl :
  rep k sb (q ++ [e]) -> used e = true -> rep k (SetMsgTTL sb ttl) (q ++ [setTTL e ttl]).
Proof.
  intros H Hu. pose proof (count_used_bound q). unfold SetMsgTTL.
  destruct (Z.eqb_spec (size sb) 0) as [Hz|_].
  { rewrite (rep_size _ _ _ H), count_used_app in Hz. simpl in Hz. rewrite Hu in Hz. simpl in Hz. lia. }
  assert (Seq.Dec (nextSeq sb) = Seq.sadd (startSeq sb) (len q)) as ->.
  { rewrite (rep_next _ _ _ H), Seq.Dec_sadd, Seq.sadd_sadd, len_snoc by apply Seq.sadd_seq. f_equal. lia. }
  pose proof (setTTL_rep k sb q e [] ttl H) as H1. unfold withTTL in H1. by rewrite Hu in H1.
Qed.

(** Overriding the next sequence number: an empty buffer restarts there; a
    non-empty one keeps its packets and gets a gap of holes, as long as the
    window still fits the ring. *)
Lemma nth_replicate_zero n i : nth i (replicate n zeroSE) zeroSE = zeroSE.
Proof. revert i. induction n; intros [|i]; simpl; auto. Qed.

Lemma count_used_replicate n : count_used (replicate n zeroSE) = 0.
Proof. induction n as [|n IH]; [done|]. cbn [replicate count_used]. by rewrite IH. Qed.

Lemma OverrideNextSeq_empty k sb q s :
  rep k sb q -> Seq.is_seq s -> size sb = 0 ->
  rep k (snd (OverrideNextSeq sb s)) [] /\ startSeq (snd (OverrideNextSeq sb s)) = s.
Proof.
  intros H Hs Hz0. pose proof H as [Hk Hm Hh Hst Hn Hz Ho]. unfold OverrideNextSeq. rewrite Hz0.
  split; [|done]. constructor; simpl; try done; [|by rewrite Seq.sadd_0].
  apply (Ring.holds_restart zeroSE k ltac:(lia) _ (startSeq sb) q); [done| |done].
  rewrite (count_used_zero q Ho) by lia. apply nth_replicate_zero.
Qed.

Lemma OverrideNextSeq_gap k sb q s :
  rep k sb q -> Seq.is_seq s -> size sb <> 0 ->
  let g := Seq.gap (nextSeq sb) s in
  len q + g <= 2 ^ k ->
  rep k (snd (OverrideNextSeq sb s)) (q ++ replicate (Z.to_nat g) zeroSE) /\
  startSeq (snd (OverrideNextSeq sb s)) = startSeq sb.
Proof.
  intros H Hs Hz0 g Hg. pose proof H as [Hk Hm Hh Hst Hn Hz Ho]. unfold OverrideNextSeq.
  pose proof (Seq.gap_range (nextSeq sb) s) as Hgr. fold g in Hgr.
  destruct (Z.eqb_spec (size sb) 0); [done|]. split; [|done]. constructor; simpl; try done.
  - apply Ring.holds_extend; [lia|done|lia].
  - unfold len. rewrite length_app, length_replicate, Nat2Z.inj_add, Z2Nat.id by lia.
    rewrite <- Seq.sadd_sadd. fold (len q). rewrite <- Hn. symmetry. by apply Seq.sadd_gap.
  - rewrite count_used_app, count_used_replicate. lia.
  - apply Forall_app. split; [done|]. apply Forall_replicate. by right.
Qed.

(** ** The retransmission gate over a loss list *)

Definition entry_at (sb : SendBuffer) (q : list sendEntry) (s : Z) : sendEntry :=
  nth (Z.to_nat (Seq.gap (startSeq sb) s)) q zeroSE.

Lemma nakTimed1_other k sb q now tn out s :
  rep k sb q -> Seq.is_seq s ->
  exists sb' q' out', nakTimed1 now tn (sb, out) s = (sb', out') /\ rep k sb' q' /\
    startSeq sb' = startSeq sb /\ len q' = len q /\ (forall x, x ∈ out -> x ∈ out') /\
    (forall t, Seq.is_seq t -> t <> s -> lookup_entry (startSeq sb) q' t = lookup_entry (startSeq sb) q t) /\
    (forall e, lookup_entry (startSeq sb) q s = Some e ->
       if eligible tn e then
         rexmitClone e ∈ out' /\ lookup_entry (startSeq sb) q' s = Some (setRexmit e now)
       else lookup_entry (startSeq sb) q' s = Some e).
Proof.
  intros H Hs. pose proof (nakTimed1_rep k sb q now tn out s H Hs) as Hr.
  destruct (lookup_entry _ _ _) as [e|] eqn:El; [destruct (eligible tn e) eqn:Ee|].
  - destruct Hr as (sb' & Hr & Hst & Hrep). eexists sb', _, _. split; [done|]. split; [done|].
    split; [done|]. split; [unfold len; by rewrite length_insert|].
    pose proof (lookup_entry_split _ _ _ _ El) as (Hu & Hg & He).
    pose proof (Seq.gap_range (startSeq sb) s) as Hgs.
    split; [intros x Hx; apply elem_of_app; by left|]. split.
    + intros t Ht Hne. unfold lookup_entry. unfold len. rewrite length_insert.
      rewrite !nth_lookup, list_lookup_insert_ne; [done|].
      intros E. apply Hne. pose proof (Seq.gap_range (startSeq sb) t).
      rewrite <- (Seq.sadd_gap (startSeq sb) t Ht), <- (Seq.sadd_gap (startSeq sb) s Hs). f_equal. lia.
    + intros e' [= <-]. rewrite Ee. split; [apply elem_of_app; right; by left|].
      unfold lookup_entry, len in *. rewrite length_insert.
      destruct (Z.ltb_spec (Seq.gap (startSeq sb) s) (Z.of_nat (length q))); [|lia].
      rewrite nth_lookup, list_lookup_insert_eq by lia. simpl. by rewrite Hu.
  - eexists sb, q, out. rewrite Hr. repeat (split; [done|]). intros e' [= <-]. by rewrite Ee.
  - eexists sb, q, out. rewrite Hr. repeat (split; [done|]). done.
Qed.

(** What a pass over a loss list does to one sequence number [s]. *)
Lemma nakTimed_fold k now tn losses s : forall sb q out,
  rep k sb q -> Forall Seq.is_seq losses -> Seq.is_seq s -> now <> 0 -> tn <= now ->
  exists sb' q' out', fold_left (nakTimed1 now tn) losses (sb, out) = (sb', out') /\ rep k sb' q' /\
    startSeq sb' = startSeq sb /\ len q' = len q /\ (forall x, x ∈ out -> x ∈ out') /\
    (forall e, lookup_entry (startSeq sb) q s = Some e ->
       if eligible tn e && bool_decide (s ∈ losses) then
         rexmitClone e ∈ out' /\ lookup_entry (startSeq sb) q' s = Some (setRexmit e now)
       else lookup_entry (startSeq sb) q' s = Some e).
Proof.
  intros sb q out H Hl Hs Hnow Htn. revert sb q out H. induction Hl as [|x losses Hx Hl IH]; intros sb q out H.
  - exists sb, q, out. repeat (split; [done|]). intros e He. by rewrite andb_false_r.
  - destruct (nakTimed1_other k sb q now tn out x H Hx) as (sb1 & q1 & out1 & E1 & H1 & Hst1 & Hl1 & Hin1 & Hne1 & Heq1).
    destruct (IH sb1 q1 out1 H1) as (sb' & q' & out' & E' & H' & Hst' & Hl' & Hin' & Hs').
    exists sb', q', out'. cbn [fold_left]. rewrite E1, E'. split; [done|]. split; [done|].
    rewrite Hst1 in *. split; [done|]. split; [lia|]. split; [auto|]. intros e He.
    destruct (decide (x = s)) as [->|Hne].
    + rewrite (bool_decide_eq_true_2 (s ∈ s :: losses)) by (by left). rewrite andb_true_r.
      specialize (Heq1 e He). destruct (eligible tn e) eqn:Ee.
      * destruct Heq1 as [Ho He1]. specialize (Hs' _ He1).
        assert (eligible tn (setRexmit e now) = false) as En.
        { unfold eligible, Clock.IsZero, Clock.Before. simpl. zcase; simpl; try lia; done. }
        rewrite En in Hs'. split; [auto|done].
      * specialize (Hs' _ Heq1). by rewrite Ee in Hs'.
    + rewrite <- (Hne1 s Hs) in He by done. specialize (Hs' e He).
      rewrite (bool_decide_ext (s ∈ x :: losses) (s ∈ losses)); [done|].
      rewrite elem_of_cons. split; [intros [->|]; [done|by auto]|by auto].
Qed.

(** ** Reachable buffers *)

(** The operations that leave no hole in the window.  Two leave one: an override of
    the next number while packets are in flight, and [DropExpiredTTL] when it takes a
    packet from between two others; both are apart ([send_override_overwrites_head],
    [send_ttl_overwrites_head]). *)
Inductive step : SendBuffer -> SendBuffer -> Prop :=
| step_push sb p ts : step sb (snd (Push sb p ts))
| step_batch sb pkts ts : step sb (snd (PushBatch sb pkts ts))
| step_ack sb s : is_u32 s -> step sb (snd (ACK sb s))
| step_drop_until sb s : is_u32 s -> step sb (snd (DropUntil sb s))
| step_nak sb losses now rtt rttVar : Forall Seq.is_seq losses -> step sb (fst (NAKTimed sb losses now rtt rttVar))
| step_too_late sb now thresh : step sb (fst (DropTooLateSend sb now thresh))
| step_ttl sb ttl : step sb (SetMsgTTL sb ttl)
| step_ttl_batch sb ttl n : n <= size sb -> step sb (SetMsgTTLBatch sb ttl n)
| step_restart sb s : Seq.is_seq s -> size sb = 0 -> step sb (snd (OverrideNextSeq sb s)).

Inductive reachable (capacity s0 : Z) : SendBuffer -> Prop :=
| reach_new : reachable capacity s0 (NewSendBuffer capacity s0)
| reach_step sb sb' : reachable capacity s0 sb -> step sb sb' -> reachable capacity s0 sb'.

(** Every slot of the window holds a packet. *)
Definition full (q : list sendEntry) : Prop := Forall (fun e => used e = true) q.

Lemma full_size k sb q : rep k sb q -> full q -> size sb = len q.
Proof.
  intros H Hf. rewrite (rep_size _ _ _ H). clear H. unfold len. induction Hf as [|e q He _ IH]; [done|].
  cbn [count_used length]. rewrite He, IH. cbn [b2z]. lia.
Qed.

(** A pass over a loss list keeps the queue, whatever the times are. *)
Lemma nakTimed_keeps k now tn losses : forall sb q out,
  rep k sb q -> full q -> Forall Seq.is_seq losses ->
  exists sb' q' out', fold_left (nakTimed1 now tn) losses (sb, out) = (sb', out') /\ rep k sb' q' /\ full q' /\
    len q' = len q /\ startSeq sb' = startSeq sb /\ map pkt q' = map pkt q.
Proof.
  induction losses as [|s losses IH]; intros sb q out H Hu Hl; [by exists sb, q, out|].
  apply Forall_cons_1 in Hl as [Hs Hl]. cbn [fold_left].
  pose proof (nakTimed1_rep k sb q now tn out s H Hs) as Hr.
  destruct (lookup_entry _ _ _) as [e|] eqn:Ee; [|rewrite Hr; by apply IH].
  destruct (eligible tn e); [|rewrite Hr; by apply IH]. destruct Hr as (sb' & -> & Hst & H').
  apply lookup_entry_split in Ee as (Hue & Hg & He). pose proof (Seq.gap_range (startSeq sb) s) as Hg0.
  set (i := Z.to_nat _) in *.
  assert (q !! i = Some e) as Hi.
  { destruct (nth_lookup_or_length q i zeroSE) as [Hi|Hi]; [by rewrite Hi, He|unfold i, len in *; lia]. }
  destruct (IH sb' _ (out ++ [rexmitClone e]) H') as (sb2 & q2 & out2 & E2 & R2 & U2 & L2 & S2 & P2); [|done|].
  - apply Forall_insert; [done|]. done.
  - exists sb2, q2, out2. split_and!; try done; [rewrite L2; unfold len; by rewrite length_insert|congruence|].
    rewrite P2. change (map pkt) with (fmap (M := list) pkt). rewrite list_fmap_insert.
    apply list_insert_id. by rewrite list_lookup_fmap, Hi.
Qed.

Lemma rep_gap k sb q : rep k sb q -> Seq.gap (startSeq sb) (nextSeq sb) = len q.
Proof.
  intros H. pose proof (rep_len H) as (? & ? & _). rewrite (rep_next _ _ _ H). apply Seq.gap_sadd. lia.
Qed.

Lemma Push_rep k sb q p ts :
  rep k sb q -> len q < 2 ^ k ->
  exists t, Push sb p ts = (true, push1 t sb p) /\ rep k (push1 t sb p) (q ++ [pushed t p]).
Proof.
  intros H Hlt. pose proof (rep_len H) as (_ & _ & Hc). pose proof (count_used_bound q).
  unfold Push. rewrite (rep_size _ _ _ H), Hc, Z.geb_leb. destruct (Z.leb_spec (2 ^ k) (count_used q)); [lia|].
  eexists. split; [done|]. by apply push1_rep.
Qed.

Lemma PushBatch_rep k sb q pkts ts :
  rep k sb q -> len q + len pkts <= 2 ^ k ->
  exists sb', PushBatch sb pkts ts = (true, sb') /\ rep k sb' (q ++ map (pushed ts) pkts).
Proof.
  intros H Hlt. pose proof (rep_len H) as (_ & _ & Hc). pose proof (count_used_bound q).
  unfold PushBatch. rewrite (rep_size _ _ _ H), Hc, Z.gtb_ltb.
  destruct (Z.ltb_spec (2 ^ k) (count_used q + len pkts)); [lia|].
  eexists. split; [done|]. by apply push_fold_rep.
Qed.

Lemma ACK_rep k sb q s :
  rep k sb q -> Seq.is_seq s ->
  let '(n, q') := release (Seq.walk_fuel (startSeq sb) s) q in
  exists sb', ACK sb s = (n, sb') /\ rep k sb' q' /\ startSeq sb' = Seq.sadd (startSeq sb) (len q - len q').
Proof.
  intros H Hs. pose proof (release_walk k sb q s 0 H Hs) as Hr.
  destruct (release _ q) as [n q']. destruct Hr as (s' & sb' & Hw & Hr & Hst).
  exists sb'. unfold ACK. rewrite Hw. done.
Qed.

Lemma DropTooLateSend_rep k sb q now thresh :
  rep k sb q ->
  let n := prefix_len (tooLate now thresh) q in
  exists sb', DropTooLateSend sb now thresh =
    (sb', (Z.of_nat n, startSeq sb, if Nat.eqb n 0 then 0 else Seq.sadd (startSeq sb) (Z.of_nat n - 1))) /\
    rep k sb' (drop n q) /\ startSeq sb' = Seq.sadd (startSeq sb) (Z.of_nat n).
Proof.
  intros H. cbv zeta. unfold DropTooLateSend.
  destruct (dropTooLate_rep k sb q now thresh (Z.to_nat (size sb)) 0 0 H (le_n _)) as (sb' & -> & Hr & Hs).
  exists sb'. done.
Qed.

Lemma full_withTTL ttl q : full q -> full (map (withTTL ttl) q).
Proof.
  unfold full. induction 1 as [|e q He _ IH]; constructor; [|exact IH]. unfold withTTL. by rewrite He.
Qed.

(** Setting the lifetime of the last packets keeps the window full. *)
Lemma SetMsgTTLBatch_full k sb q ttl n :
  rep k sb q -> full q -> n <= size sb -> exists q', rep k (SetMsgTTLBatch sb ttl n) q' /\ full q'.
Proof.
  intros H Hf Hn. pose proof (full_size k sb q H Hf) as Hz.
  destruct (Z.leb_spec n 0) as [Hn0|Hn0].
  { exists q. unfold SetMsgTTLBatch. destruct (Z.leb_spec n 0); [|lia]. by rewrite orb_true_r. }
  rewrite <- (take_drop (Z.to_nat (len q - n)) q) in H, Hf. apply Forall_app in Hf as [H1 H2].
  set (q0 := take _ _) in *. set (q2 := drop _ _) in *.
  assert (n = len q2) as Hn2 by (unfold q2, len in *; rewrite length_drop; lia).
  rewrite Hn2.
  exists (q0 ++ map (withTTL ttl) q2). split; [apply SetMsgTTLBatch_rep; [done|lia]|].
  apply Forall_app. split; [done|]. by apply full_withTTL.
Qed.

Lemma SetMsgTTL_full k sb q ttl : rep k sb q -> full q -> exists q', rep k (SetMsgTTL sb ttl) q' /\ full q'.
Proof.
  intros H Hf. destruct q as [|e q _] using rev_ind.
  - exists []. unfold SetMsgTTL. rewrite (rep_size _ _ _ H). done.
  - apply Forall_app in Hf as [Hf He]. apply Forall_cons_1 in He as [He _].
    exists (q ++ [setTTL e ttl]). split; [by apply SetMsgTTL_rep|]. apply Forall_app. split; [done|]. by constructor.
Qed.

Lemma timeNAK_le now rtt rttVar :
  is_i64 (now - rexmitGate rtt rttVar) ->
  Clock.Add now (i64 (- rexmitGate rtt rttVar)) = now - rexmitGate rtt rttVar /\ 0 <= rexmitGate rtt rttVar.
Proof.
  intros H. unfold Clock.Add. rewrite i64_add_r. split; [by apply i64_id|].
  unfold rexmitGate. destruct (Z.ltb_spec (i64 (rtt - i64 (4 * rttVar))) 0); lia.
Qed.

Lemma full_drop n q : full q -> full (drop n q).
Proof. apply Forall_drop. Qed.

(** On a full window the buffer's own test of its size is the test that the ring has room. *)
Lemma Push_full k sb q p ts : rep k sb q -> full q -> exists q', rep k (snd (Push sb p ts)) q' /\ full q'.
Proof.
  intros H Hf. pose proof (full_size k sb q H Hf) as Hz. pose proof (rep_len H) as (_ & _ & Hc).
  destruct (Z.ltb_spec (len q) (2 ^ k)) as [Hlt|Hge].
  - destruct (Push_rep k sb q p ts H Hlt) as (t & -> & Hr). exists (q ++ [pushed t p]). split; [done|].
    apply Forall_app. split; [done|]. by constructor.
  - exists q. unfold Push. rewrite Hz, Hc, Z.geb_leb. by destruct (Z.leb_spec (2 ^ k) (len q)); [|lia].
Qed.

Lemma PushBatch_full k sb q pkts ts :
  rep k sb q -> full q -> exists q', rep k (snd (PushBatch sb pkts ts)) q' /\ full q'.
Proof.
  intros H Hf. pose proof (full_size k sb q H Hf) as Hz. pose proof (rep_len H) as (_ & _ & Hc).
  destruct (Z.leb_spec (len q + len pkts) (2 ^ k)) as [Hle|Hgt].
  - destruct (PushBatch_rep k sb q pkts ts H Hle) as (sb' & -> & Hr). exists (q ++ map (pushed ts) pkts).
    split; [done|]. apply Forall_app. split; [done|]. clear. induction pkts; by constructor.
  - exists q. unfold PushBatch. rewrite Hz, Hc, Z.gtb_ltb.
    by destruct (Z.ltb_spec (2 ^ k) (len q + len pkts)); [|lia].
Qed.

Lemma ACK_any k sb q s :
  rep k sb q -> full q -> is_u32 s ->
  exists j sb', (j <= length q)%nat /\ ACK sb s = (Z.of_nat j, sb') /\ rep k sb' (drop j q) /\
    startSeq sb' = Seq.sadd (startSeq sb) (Z.of_nat j).
Proof.
  intros H Hf Hs. destruct (release_walk_any k q s Hs sb 0 H Hf) as (j & s' & sb' & Hj & Hw & Hr & Hst).
  exists j, sb'. unfold ACK. rewrite Hw. done.
Qed.

Lemma ACK_full k sb q s :
  rep k sb q -> full q -> is_u32 s -> exists q', rep k (snd (ACK sb s)) q' /\ full q'.
Proof.
  intros H Hf Hs. destruct (ACK_any k sb q s H Hf Hs) as (j & sb' & _ & -> & Hr & _).
  eexists. split; [exact Hr|]. by apply full_drop.
Qed.

Lemma step_full k sb sb' q : rep k sb q -> full q -> step sb sb' -> exists q', rep k sb' q' /\ full q'.
Proof.
  intros H Hf Hst. destruct Hst as [sb p ts|sb pkts ts|sb s Hs|sb s Hs|sb losses now rtt rttVar Hl
                                   |sb now thresh|sb ttl|sb ttl n Hn|sb s Hs Hz].
  - by apply (Push_full k sb q).
  - by apply (PushBatch_full k sb q).
  - by apply (ACK_full k sb q).
  - by apply (ACK_full k sb q).
  - unfold NAKTimed.
    destruct (nakTimed_keeps k now (Clock.Add now (i64 (- rexmitGate rtt rttVar))) losses sb q [] H Hf Hl)
      as (sb' & q' & out & E & Hr & Hf' & _). rewrite E. by exists q'.
  - destruct (DropTooLateSend_rep k sb q now thresh H) as (sb' & -> & Hr & _).
    eexists. split; [exact Hr|]. by apply full_drop.
  - by apply (SetMsgTTL_full k sb q).
  - by apply (SetMsgTTLBatch_full k sb q).
  - destruct (OverrideNextSeq_empty k sb q s H Hs Hz) as [Hr _]. exists []. split; [exact Hr|constructor].
Qed.

(** ** Claims *)

(** A data packet with sequence number [n] and one byte of payload. *)
Definition samplePkt (n : Z) : Packet := Packet.NewData None n 0 1 [n].

(** A ring of four slots starting just before the wrap of the sequence space. *)
Definition sampleSB : SendBuffer :=
  snd (PushBatch (NewSendBuffer 3 0x7FFFFFFE) [samplePkt 0x7FFFFFFE; samplePkt 0x7FFFFFFF; samplePkt 0] 50).

Definition sampleQ : list sendEntry :=
  map (pushed 50) [samplePkt 0x7FFFFFFE; samplePkt 0x7FFFFFFF; samplePkt 0].

Lemma sampleSB_rep : rep 2 sampleSB sampleQ.
Proof.
  destruct (NewSendBuffer_rep 3 0x7FFFFFFE ltac:(lia) ltac:(unfold Seq.is_seq; lia)) as (k & Ek & Hr).
  assert (k = 2) as ->.
  { apply (Z.pow_inj_r 2); [lia| |lia|exact Ek]. destruct Hr as [? ? ? ? ? ? ?]. lia. }
  destruct (PushBatch_rep 2 _ [] [samplePkt 0x7FFFFFFE; samplePkt 0x7FFFFFFF; samplePkt 0] 50 Hr) as (sb' & E & H);
    [by vm_compute|]. unfold sampleSB. by rewrite E.
Qed.

(** C12. The ring implements a queue of packets without holes: from a new buffer of any
    capacity up to 2^29 at any initial sequence number, every buffer reached by
    [Push], [PushBatch], [ACK], [DropUntil], [NAKTimed], [DropTooLateSend], [SetMsgTTL],
    [SetMsgTTLBatch] (for at most the packets buffered) and [OverrideNextSeq] of an empty
    buffer, in any order, stands for a queue (the words acknowledged are any 32-bit words,
    the numbers reported lost and overridden to any 31-bit ones): its slots,
    read from the start, are the queue, each holds a packet, the next sequence number
    is start + length, and the size is the length, so that the full-buffer test of
    [Push], which looks only at the size, never lets a packet overwrite another one: a
    push is refused and changes nothing when the ring is full, and appends otherwise.  Wraps of the ring and of the sequence space are included.  The two
    operations that make holes, [OverrideNextSeq] with packets in flight and
    [DropExpiredTTL], are not steps: after them the same tests do let a push overwrite
    the head, which [send_override_overwrites_head] and [send_ttl_overwrites_head]
    show. *)
Theorem send_buffer_invariant (capacity s0 : Z) (sb : SendBuffer) :
  capacity <= 2 ^ 29 -> Seq.is_seq s0 -> reachable capacity s0 sb ->
  exists k q, 2 ^ k = Ring.nextPow2 capacity /\ rep k sb q /\ full q /\ size sb = len q /\
    forall p ts, if len q <? 2 ^ k then exists t sb', Push sb p ts = (true, sb') /\ rep k sb' (q ++ [pushed t p])
                 else Push sb p ts = (false, sb).
Proof.
  intros Hc Hs Hr.
  assert (exists k q, 2 ^ k = Ring.nextPow2 capacity /\ rep k sb q /\ full q) as (k & q & E & H & Hf).
  { induction Hr as [|sb sb' _ (k & q & E & H & Hf) Hst].
    - destruct (NewSendBuffer_rep capacity s0 Hc Hs) as (k & E & Hr). exists k, []. split_and!; [done|done|constructor].
    - destruct (step_full k sb sb' q H Hf Hst) as (q' & H' & Hf'). by exists k, q'. }
  pose proof (full_size k sb q H Hf) as Hz. pose proof (rep_len H) as (_ & _ & Hl).
  exists k, q. split_and!; try done. intros p ts. destruct (Z.ltb_spec (len q) (2 ^ k)) as [Hlt|Hge].
  - destruct (Push_rep k sb q p ts H Hlt) as (t & E' & Hr'). by exists t, (push1 t sb p).
  - unfold Push. rewrite Hz, Hl, Z.geb_leb. by destruct (Z.leb_spec (2 ^ k) (len q)); [|lia].
Qed.

Lemma send_buffer_invariant_witness :
  let sb := snd (ACK (SetMsgTTLBatch (snd (Push (NewSendBuffer 3 5) (samplePkt 5) [9])) 7 1) 6) in
  exists k q, 2 ^ k = Ring.nextPow2 3 /\ rep k sb q /\ full q /\ size sb = len q.
Proof.
  destruct (send_buffer_invariant 3 5
    (snd (ACK (SetMsgTTLBatch (snd (Push (NewSendBuffer 3 5) (samplePkt 5) [9])) 7 1) 6)))
    as (k & q & E & H & Hf & Hz & _); [lia|unfold Seq.is_seq; lia| |by exists k, q].
  eapply reach_step; [|apply step_ack; unfold is_u32; lia].
  eapply reach_step; [|by apply step_ttl_batch].
  eapply reach_step; [apply reach_new|apply step_push].
Defined.

(** Push and PushBatch append: a packet is accepted exactly when the
    buffer is not full, lands behind the packets already queued with the next
    sequence number, and a batch that does not fit changes nothing. *)
Theorem send_push_appends (k : Z) (sb : SendBuffer) (q : list sendEntry) (pkts : list Packet) (ts : Z) :
  rep k sb q ->
  (len q + len pkts <= 2 ^ k ->
     exists sb', PushBatch sb pkts ts = (true, sb') /\ rep k sb' (q ++ map (pushed ts) pkts)) /\
  (size sb + len pkts > 2 ^ k -> PushBatch sb pkts ts = (false, sb)) /\
  (forall p t, len q < 2 ^ k ->
     exists sb', Push sb p [t] = (true, sb') /\ rep k sb' (q ++ [pushed t p]) /\ startSeq sb' = startSeq sb) /\
  (forall p t, size sb = 2 ^ k -> Push sb p t = (false, sb)).
Proof.
  intros H. pose proof (rep_len H) as (_ & _ & Hc). split; [by apply PushBatch_rep|]. split; [|split].
  - intros Hgt. unfold PushBatch. rewrite Hc, Z.gtb_ltb.
    destruct (Z.ltb_spec (2 ^ k) (size sb + len pkts)); [done|lia].
  - intros p t Hlt. destruct (Push_rep k sb q p [t] H Hlt) as (t' & E & Hr).
    unfold Push in *. destruct (_ >=? _); [done|]. exists (push1 t sb p). split; [done|].
    split; [by apply push1_rep|done].
  - intros p t Hz. unfold Push. rewrite Hc, Hz, Z.geb_leb, Z.leb_refl. done.
Qed.

Lemma send_push_appends_witness :
  exists sb', Push sampleSB (samplePkt 1) [60] = (true, sb') /\
    rep 2 sb' (sampleQ ++ [pushed 60 (samplePkt 1)]) /\ startSeq sb' = startSeq sampleSB.
Proof. apply (send_push_appends 2 sampleSB sampleQ [] 0 sampleSB_rep). by vm_compute. Defined.

(** An acknowledgement releases exactly the packets before it: with no
    holes, [ACK s] drops the packets from the start up to but not including
    [s] (all of them if [s] is beyond the buffer, none if it is old), returns
    their number and moves the start there; [DropUntil] does the same. *)
Theorem send_ack_releases (k : Z) (sb : SendBuffer) (q : list sendEntry) (s : Z) :
  rep k sb q -> Seq.is_seq s -> Forall (fun e => used e = true) q ->
  let n := if Seq.LessThan (startSeq sb) s then Seq.gap (startSeq sb) s else 0 in
  exists sb', ACK sb s = (Z.min n (len q), sb') /\ DropUntil sb s = (Z.min n (len q), sb') /\
    rep k sb' (drop (Z.to_nat n) q) /\ startSeq sb' = Seq.sadd (startSeq sb) (Z.min n (len q)).
Proof.
  intros H Hs Hu. pose proof (ACK_rep k sb q s H Hs) as Hr. rewrite release_all_used in Hr by done.
  pose proof (Seq.gap_range (startSeq sb) s). cbv zeta.
  assert (Z.of_nat (Seq.walk_fuel (startSeq sb) s) =
          if Seq.LessThan (startSeq sb) s then Seq.gap (startSeq sb) s else 0) as Hn.
  { unfold Seq.walk_fuel. destruct (Seq.LessThan _ _); lia. }
  rewrite <- Hn. rewrite Nat2Z.id. destruct Hr as (sb' & E & Hr & Hst). exists sb'.
  change (DropUntil sb s) with (ACK sb s). repeat (split; [done|]). rewrite Hst. f_equal.
  unfold len. rewrite length_drop. lia.
Qed.

Lemma send_ack_releases_witness :
  exists sb', ACK sampleSB 0 = (2, sb') /\ rep 2 sb' [pushed 50 (samplePkt 0)].
Proof.
  destruct (send_ack_releases 2 sampleSB sampleQ 0 sampleSB_rep) as (sb' & E & _ & Hr & _);
    [unfold Seq.is_seq; lia|repeat constructor|]. exists sb'. split; [exact E|exact Hr].
Defined.

(** C35. Retransmission is exact: NAK returns, for each reported sequence number
    that is in the buffer and in the order reported, a clone of that packet with
    the retransmitted flag set and nothing for the others; Get finds a packet
    iff it is in the window and not released; the blind retransmission returns
    every unacknowledged packet in order. *)
Theorem send_retransmit_exact (k : Z) (sb : SendBuffer) (q : list sendEntry) (losses : list Z) (s : Z) :
  rep k sb q -> Forall Seq.is_seq losses -> Seq.is_seq s ->
  NAK sb losses = omap (fun s => rexmitClone <$> lookup_entry (startSeq sb) q s) losses /\
  Get sb s = match lookup_entry (startSeq sb) q s with
             | Some e => (Clone (pkt e), true)
             | None => (zeroPacket, false)
             end /\
  GetAllUnacked sb = map rexmitClone (List.filter used q).
Proof.
  intros H Hl Hs. split; [by apply (NAK_rep k)|]. split; [by apply (Get_rep k)|by apply (GetAllUnacked_rep k)].
Qed.

Lemma send_retransmit_exact_witness :
  NAK sampleSB [0; 5; 0x7FFFFFFE] = map (fun n => setRetransmitted (Clone (samplePkt n))) [0; 0x7FFFFFFE].
Proof.
  destruct (send_retransmit_exact 2 sampleSB sampleQ [0; 5; 0x7FFFFFFE] 0 sampleSB_rep) as [E _];
    [repeat constructor; unfold Seq.is_seq; lia|unfold Seq.is_seq; lia|]. rewrite E. reflexivity.
Defined.

(** The retransmission gate holds: a reported packet that is due is
    retransmitted once per NAK however often it is listed, and no later NAK
    retransmits it again while [now' - (RTT - 4 RTTVar)] has not passed the
    time of that retransmission. *)
Theorem send_nak_gate (k : Z) (sb : SendBuffer) (q : list sendEntry) (losses : list Z)
    (s now rtt rttVar : Z) (e : sendEntry) :
  rep k sb q -> Forall Seq.is_seq losses -> s ∈ losses -> 0 < now -> is_i64 (now - rexmitGate rtt rttVar) ->
  lookup_entry (startSeq sb) q s = Some e -> eligible (now - rexmitGate rtt rttVar) e = true ->
  let '(sb1, out) := NAKTimed sb losses now rtt rttVar in
  rexmitClone e ∈ out /\
  (forall now' rtt' rttVar', is_i64 (now' - rexmitGate rtt' rttVar') ->
     now' - rexmitGate rtt' rttVar' <= now -> NAKTimed sb1 [s] now' rtt' rttVar' = (sb1, [])).
Proof.
  intros H Hl Hin Hnow Hi He Hel. assert (Seq.is_seq s) as Hs by (by apply (proj1 (list.Forall_forall _ _) Hl)).
  destruct (timeNAK_le now rtt rttVar Hi) as [Ht Hp]. unfold NAKTimed at 1. rewrite Ht.
  destruct (nakTimed_fold k now (now - rexmitGate rtt rttVar) losses s sb q [] H Hl Hs)
    as (sb1 & q1 & out & E & H1 & Hst & _ & _ & Hlook); [lia..|]. rewrite E.
  specialize (Hlook e He). rewrite Hel, bool_decide_eq_true_2 in Hlook by done. destruct Hlook as [Ho He1].
  split; [done|]. intros now' rtt' rttVar' Hi' Hle. destruct (timeNAK_le now' rtt' rttVar' Hi') as [Ht' _].
  unfold NAKTimed. rewrite Ht'. cbn [fold_left].
  pose proof (nakTimed1_rep k sb1 q1 now' (now' - rexmitGate rtt' rttVar') [] s H1 Hs) as Hr.
  rewrite Hst, He1 in Hr.
  assert (eligible (now' - rexmitGate rtt' rttVar') (setRexmit e now) = false) as En.
  { unfold eligible, Clock.IsZero, Clock.Before. simpl. zcase; simpl; try lia; done. }
  by rewrite En in Hr.
Qed.

Lemma send_nak_gate_witness :
  snd (NAKTimed sampleSB [0; 0] 1000 100 0) = [rexmitClone (pushed 50 (samplePkt 0))] /\
  NAKTimed (fst (NAKTimed sampleSB [0; 0] 1000 100 0)) [0] 1050 100 0 =
    (fst (NAKTimed sampleSB [0; 0] 1000 100 0), []).
Proof.
  split; [by vm_compute|].
  assert (Forall Seq.is_seq [0; 0]) as Hl by (repeat constructor; unfold Seq.is_seq; lia).
  assert (forall now, 0 <= now < 2 ^ 40 -> is_i64 (now - rexmitGate 100 0)) as Hi
    by (change (rexmitGate 100 0) with 100; unfold is_i64; lia).
  pose proof (send_nak_gate 2 sampleSB sampleQ [0; 0] 0 1000 100 0 (pushed 50 (samplePkt 0)) sampleSB_rep Hl
                ltac:(by left) ltac:(lia) (Hi 1000 ltac:(lia)) eq_refl eq_refl) as H.
  destruct (NAKTimed sampleSB [0; 0] 1000 100 0) as [sb1 out]. destruct H as [_ H]. cbn [fst].
  apply H; [apply Hi; lia|]. change (rexmitGate 100 0) with 100. lia.
Defined.

(** The too-late drop removes exactly the head run of expired packets:
    the longest prefix of packets older than their deadline (the smaller of
    threshold and message TTL, when either is set) leaves the queue, and the
    reported range is its first and last sequence number. *)
Theorem send_too_late_drop (k : Z) (sb : SendBuffer) (q : list sendEntry) (now thresh : Z) :
  rep k sb q ->
  let n := prefix_len (tooLate now thresh) q in
  exists sb', DropTooLateSend sb now thresh =
    (sb', (Z.of_nat n, startSeq sb, if Nat.eqb n 0 then 0 else Seq.sadd (startSeq sb) (Z.of_nat n - 1))) /\
    rep k sb' (drop n q) /\ startSeq sb' = Seq.sadd (startSeq sb) (Z.of_nat n) /\
    Forall (fun e => tooLate now thresh e = true) (take n q) /\
    (forall e, nth_error q n = Some e -> tooLate now thresh e = false).
Proof.
  intros H. cbv zeta. destruct (DropTooLateSend_rep k sb q now thresh H) as (sb' & E & Hr & Hs).
  exists sb'. repeat (split; [done|]). clear. induction q as [|e q IH]; cbn [prefix_len]; [done|].
  destruct (tooLate now thresh e) eqn:Et; cbn [take nth_error].
  - destruct IH as [IH1 IH2]. split; [by constructor|done].
  - split; [constructor|]. by intros e' [= <-].
Qed.

Lemma send_too_late_drop_witness :
  exists sb', DropTooLateSend sampleSB 1000 900 = (sb', (3, 0x7FFFFFFE, 0)) /\ rep 2 sb' [].
Proof.
  destruct (send_too_late_drop 2 sampleSB sampleQ 1000 900 sampleSB_rep) as (sb' & E & Hr & _).
  exists sb'. split; [exact E|exact Hr].
Defined.

(** Skipping ahead in a non-empty buffer can lose a packet: after an
    override to a sequence number a whole ring ahead, the size still shows free
    slots, Push reports success, and the packet lands in the slot of the
    unacknowledged head: a NAK for the head then retransmits the new packet in
    its place. *)
Theorem send_override_overwrites_head :
  let sb0 := snd (Push (NewSendBuffer 4 0) (samplePkt 0) [10]) in
  let '(ok, sb1) := Push (snd (OverrideNextSeq sb0 4)) (samplePkt 4) [20] in
  Get sb0 0 = (Clone (samplePkt 0), true) /\ ok = true /\ size sb1 = 2 /\
  NAK sb1 [0] = [setRetransmitted (Clone (samplePkt 4))].
Proof. by vm_compute. Qed.

(** [DropExpiredTTL] takes packets out of the middle of the window and lowers the
    size: a full ring of four whose second packet expires then accepts a fifth packet,
    which lands in the slot of the unacknowledged head. *)
Theorem send_ttl_overwrites_head :
  let sb0 := snd (PushBatch (NewSendBuffer 4 0) [samplePkt 0; samplePkt 1; samplePkt 2; samplePkt 3] 10) in
  let sb1 := setTTL_at 5 1 sb0 in
  let '(n, sb2) := DropExpiredTTL sb1 100 in
  let '(ok, sb3) := Push sb2 (samplePkt 4) [100] in
  fst (Push sb1 (samplePkt 4) [100]) = false /\ n = 1 /\ startSeq sb2 = 0 /\ ok = true /\ startSeq sb3 = 0 /\
  NAK sb2 [0] = [setRetransmitted (Clone (samplePkt 0))] /\
  NAK sb3 [0] = [setRetransmitted (Clone (samplePkt 4))].
Proof. by vm_compute. Qed.

End SendBuffer.
