(* ===== verification/RecvBuffer.v ===== *)
(** * The receive buffer ([internal/buffer/recv.go])

    A ring of received packets, read in order, by message or when their
    delivery time has come.  Every operation of [RecvBuffer] is modelled on the
    ring: insertion with duplicate and gap detection, the in-order, message and
    out-of-order readers, the drops, the loss list and the acknowledgement
    number.  The callbacks [onRead] and [onDrop] act on a state [T] that the
    operations thread (for a connection, the delivery timer); the delivery time
    of a packet is a function the caller passes. *)
From Stdlib Require Import ZArith Lia Sorting.Sorted.
From stdpp Require Import base numbers list option.
From S2P Require Import Prelude Seq Packet Clock Ring.
Import Packet(Packet, zeroPacket, Hdr, Order, PacketPosition, MessageNumber, SequenceNumber, Timestamp,
  PositionSingle, PositionFirst, PositionLast).
Local Open Scope Z_scope.

Module RecvBuffer.

Inductive EntryState : Type := EntryEmpty | EntryAvailable | EntryRead | EntryDrop.

#[export] Instance EntryState_eq_dec : EqDecision EntryState.
Proof. solve_decision. Defined.

Definition is_avail (st : EntryState) : bool := match st with EntryAvailable => true | _ => false end.
Definition is_empty (st : EntryState) : bool := match st with EntryEmpty => true | _ => false end.

Record recvEntry : Type := mkRE { pkt : Packet; state : EntryState; arrivalTS : Z }.
Definition zeroRE : recvEntry := mkRE zeroPacket EntryEmpty 0.
Definition dropRE : recvEntry := mkRE zeroPacket EntryDrop 0.

Record RecvBuffer (T : Type) : Type := mkRB {
  entries : list recvEntry;
  mask : Z;
  startSeq : Z;
  maxSeq : Z;
  size : Z;
  numOutOfOrderPkts : Z;
  firstReadableOOO : Z;
  messageAPI : bool;
  onRead : option (Z -> T -> T);
  onDrop : option (Z -> T -> T);
  lossListBuf : list Z
}.
Arguments mkRB {T}.
Arguments entries {T}.
Arguments mask {T}.
Arguments startSeq {T}.
Arguments maxSeq {T}.
Arguments size {T}.
Arguments numOutOfOrderPkts {T}.
Arguments firstReadableOOO {T}.
Arguments messageAPI {T}.
Arguments onRead {T}.
Arguments onDrop {T}.
Arguments lossListBuf {T}.

Section Operations.
Context {T : Type}.
Implicit Types (rb : RecvBuffer T) (t : T).

(** ** Field updates *)

Definition setEntries rb l : RecvBuffer T :=
  mkRB l (mask rb) (startSeq rb) (maxSeq rb) (size rb) (numOutOfOrderPkts rb) (firstReadableOOO rb)
    (messageAPI rb) (onRead rb) (onDrop rb) (lossListBuf rb).
Definition setStart rb s : RecvBuffer T :=
  mkRB (entries rb) (mask rb) s (maxSeq rb) (size rb) (numOutOfOrderPkts rb) (firstReadableOOO rb)
    (messageAPI rb) (onRead rb) (onDrop rb) (lossListBuf rb).
Definition setMax rb s : RecvBuffer T :=
  mkRB (entries rb) (mask rb) (startSeq rb) s (size rb) (numOutOfOrderPkts rb) (firstReadableOOO rb)
    (messageAPI rb) (onRead rb) (onDrop rb) (lossListBuf rb).
Definition setSize rb n : RecvBuffer T :=
  mkRB (entries rb) (mask rb) (startSeq rb) (maxSeq rb) n (numOutOfOrderPkts rb) (firstReadableOOO rb)
    (messageAPI rb) (onRead rb) (onDrop rb) (lossListBuf rb).
Definition setNumOOO rb n : RecvBuffer T :=
  mkRB (entries rb) (mask rb) (startSeq rb) (maxSeq rb) (size rb) n (firstReadableOOO rb)
    (messageAPI rb) (onRead rb) (onDrop rb) (lossListBuf rb).
Definition setFirstOOO rb i : RecvBuffer T :=
  mkRB (entries rb) (mask rb) (startSeq rb) (maxSeq rb) (size rb) (numOutOfOrderPkts rb) i
    (messageAPI rb) (onRead rb) (onDrop rb) (lossListBuf rb).
Definition setLossBuf rb l : RecvBuffer T :=
  mkRB (entries rb) (mask rb) (startSeq rb) (maxSeq rb) (size rb) (numOutOfOrderPkts rb) (firstReadableOOO rb)
    (messageAPI rb) (onRead rb) (onDrop rb) l.

(** [rb.entries[int(uint32(s)) & rb.mask]], read and written; [entryAt] and
    [putAt] take a slot index. *)
Definition entry rb (s : Z) : recvEntry := Ring.get zeroRE (mask rb) (entries rb) s.
Definition put rb (s : Z) (e : recvEntry) : RecvBuffer T := setEntries rb (Ring.set (mask rb) (entries rb) s e).
Definition entryAt rb (i : Z) : recvEntry := nth (Z.to_nat i) (entries rb) zeroRE.
Definition putAt rb (i : Z) (e : recvEntry) : RecvBuffer T := setEntries rb (<[Z.to_nat i := e]> (entries rb)).
Definition index rb (s : Z) : Z := Z.land s (mask rb).

Definition availAt rb (s : Z) : bool := is_avail (state (entry rb s)).

Definition NewRecvBuffer (capacity initialSeq : Z) : RecvBuffer T :=
  let cap2 := Ring.nextPow2 capacity in
  mkRB (replicate (Z.to_nat cap2) zeroRE) (cap2 - 1) initialSeq initialSeq 0 0 (-1) false None None [].

Definition SetMessageAPI rb (enabled : bool) : RecvBuffer T :=
  mkRB (entries rb) (mask rb) (startSeq rb) (maxSeq rb) (size rb) (numOutOfOrderPkts rb) (firstReadableOOO rb)
    enabled (onRead rb) (onDrop rb) (lossListBuf rb).
Definition SetOnRead rb (fn : option (Z -> T -> T)) : RecvBuffer T :=
  mkRB (entries rb) (mask rb) (startSeq rb) (maxSeq rb) (size rb) (numOutOfOrderPkts rb) (firstReadableOOO rb)
    (messageAPI rb) fn (onDrop rb) (lossListBuf rb).
Definition SetOnDrop rb (fn : option (Z -> T -> T)) : RecvBuffer T :=
  mkRB (entries rb) (mask rb) (startSeq rb) (maxSeq rb) (size rb) (numOutOfOrderPkts rb) (firstReadableOOO rb)
    (messageAPI rb) (onRead rb) fn (lossListBuf rb).

(** [if fn != nil { fn(ts) }]. *)
Definition call (fn : option (Z -> T -> T)) (ts : Z) t : T :=
  match fn with Some f => f ts t | None => t end.

(** ** Filler *)

Definition filler_body (s : Z) rb : Seq.ctl (RecvBuffer T) :=
  match state (entry rb s) with
  | EntryDrop | EntryRead => Seq.Next (setStart (put rb s zeroRE) (Seq.Inc s))
  | _ => Seq.Stop rb
  end.

Definition releaseFillerEntries rb : RecvBuffer T :=
  snd (Seq.walk (maxSeq rb) filler_body (startSeq rb) rb).

(** ** Loops over slot indices

    The scans of the out-of-order reader go round the ring from slot to slot;
    [finished] is false if the fuel (the number of slots) ran out. *)
Fixpoint ring_loop {A} (fuel : nat) (next : Z -> Z) (body : Z -> A -> Seq.ctl A) (pos : Z) (a : A) : A * bool :=
  match fuel with
  | O => (a, false)
  | S fuel' =>
      match body pos a with
      | Seq.Next a' => ring_loop fuel' next body (next pos) a'
      | Seq.Stop a' => (a', true)
      end
  end.

Definition nextPos rb (pos : Z) : Z := Z.land (pos + 1) (mask rb).
Definition prevPos rb (pos : Z) : Z := Z.land (pos - 1 + len (entries rb)) (mask rb).
Definition ringFuel rb : nat := length (entries rb).

Definition isEnd (p : Packet) : bool :=
  (PacketPosition (Hdr p) =? PositionLast) || (PacketPosition (Hdr p) =? PositionSingle).
Definition isBegin (p : Packet) : bool :=
  (PacketPosition (Hdr p) =? PositionFirst) || (PacketPosition (Hdr p) =? PositionSingle).

(** The loop state is the value returned; the first slot looked at is the one
    after [startPos]. *)
Definition scanRight_body rb (msgNo lastPos pos : Z) (_ : Z) : Seq.ctl Z :=
  let e := entryAt rb pos in
  if negb (is_avail (state e)) then Seq.Stop (-1) else
  if negb (MessageNumber (Hdr (pkt e)) =? msgNo) then Seq.Stop (-1) else
  if isEnd (pkt e) then Seq.Stop pos else
  if pos =? lastPos then Seq.Stop (-1) else Seq.Next (-1).

Definition scanNotInOrderMessageRight rb (startPos msgNo : Z) : Z :=
  let maxOff := Seq.Distance (startSeq rb) (Seq.Dec (maxSeq rb)) in
  if maxOff <=? 0 then -1 else
  let lastPos := Z.land (startSeq rb + maxOff) (mask rb) in
  if startPos =? lastPos then -1 else
  fst (ring_loop (ringFuel rb) (nextPos rb) (scanRight_body rb msgNo lastPos) (nextPos rb startPos) (-1)).

Definition scanLeft_body rb (msgNo startIdx pos : Z) (_ : Z) : Seq.ctl Z :=
  let e := entryAt rb pos in
  if negb (is_avail (state e)) then Seq.Stop (-1) else
  if negb (MessageNumber (Hdr (pkt e)) =? msgNo) then Seq.Stop (-1) else
  if isBegin (pkt e) then Seq.Stop pos else
  if pos =? startIdx then Seq.Stop (-1) else Seq.Next (-1).

Definition scanNotInOrderMessageLeft rb (startPos msgNo : Z) : Z :=
  let startIdx := index rb (startSeq rb) in
  if startPos =? startIdx then -1 else
  fst (ring_loop (ringFuel rb) (prevPos rb) (scanLeft_body rb msgNo startIdx) (prevPos rb startPos) (-1)).

Definition check_body rb (endPos pos : Z) (st : Z * bool) : Seq.ctl (Z * bool) :=
  let '(msgNo, _) := st in
  if pos =? endPos then Seq.Stop (msgNo, false) else
  let e := entryAt rb pos in
  if negb (is_avail (state e)) then Seq.Stop (msgNo, false) else
  if Order (Hdr (pkt e)) then Seq.Stop (msgNo, false) else
  if negb (msgNo =? -1) && negb (MessageNumber (Hdr (pkt e)) =? msgNo) then Seq.Stop (msgNo, false) else
  let msgNo := if msgNo =? -1 then MessageNumber (Hdr (pkt e)) else msgNo in
  if isEnd (pkt e) then Seq.Stop (msgNo, true) else Seq.Next (msgNo, false).

Definition checkFirstReadableOutOfOrder rb : bool :=
  if (numOutOfOrderPkts rb <=? 0) || (firstReadableOOO rb <? 0) then false else
  if startSeq rb =? maxSeq rb then false else
  let maxOff := Seq.Distance (startSeq rb) (maxSeq rb) in
  let endPos := Z.land (startSeq rb + maxOff) (mask rb) in
  snd (fst (ring_loop (S (ringFuel rb)) (nextPos rb) (check_body rb endPos) (firstReadableOOO rb) (-1, false))).

Definition canReadInOrder rb : bool := availAt rb (startSeq rb).

(** State of the rescan: packets left to look at, first slot and number of the
    message being followed, result. *)
Record rescan : Type := mkRescan { oooRemain : Z; posFirst : Z; msgNo : Z; found : Z }.

Definition update_body rb (lastPos pos : Z) (st : rescan) : Seq.ctl rescan :=
  if oooRemain st <=? 0 then Seq.Stop st else
  let e := entryAt rb pos in
  let reset n := let st' := mkRescan n (-1) (-1) (found st) in
                 if pos =? lastPos then Seq.Stop st' else Seq.Next st' in
  if negb (is_avail (state e)) then reset (oooRemain st) else
  if Order (Hdr (pkt e)) then reset (oooRemain st) else
  let remain := oooRemain st - 1 in
  let '(pf, mn) :=
    if isBegin (pkt e) then (pos, MessageNumber (Hdr (pkt e))) else (posFirst st, msgNo st) in
  if negb (MessageNumber (Hdr (pkt e)) =? mn) then reset remain else
  if isEnd (pkt e) && (pf >=? 0) then Seq.Stop (mkRescan remain pf mn pf) else
  let st' := mkRescan remain pf mn (found st) in
  if pos =? lastPos then Seq.Stop st' else Seq.Next st'.

Definition updateFirstReadableOutOfOrder rb : RecvBuffer T :=
  if canReadInOrder rb || (numOutOfOrderPkts rb <=? 0) || (firstReadableOOO rb >=? 0) then rb else
  if startSeq rb =? maxSeq rb then rb else
  let maxOff := Seq.Distance (startSeq rb) (maxSeq rb) in
  if maxOff <=? 0 then rb else
  let lastPos := Z.land (startSeq rb + maxOff - 1) (mask rb) in
  let startIdx := index rb (startSeq rb) in
  let '(st, _) := ring_loop (S (ringFuel rb)) (nextPos rb) (update_body rb lastPos) startIdx
                    (mkRescan (numOutOfOrderPkts rb) (-1) (-1) (-1)) in
  if found st >=? 0 then setFirstOOO rb (found st) else rb.

Definition onInsertNotInOrderPacket rb (insertPos : Z) : RecvBuffer T :=
  if numOutOfOrderPkts rb =? 0 then rb else
  if firstReadableOOO rb >=? 0 then rb else
  let p := pkt (entryAt rb insertPos) in
  let pp := PacketPosition (Hdr p) in
  let mn := MessageNumber (Hdr p) in
  if pp =? PositionSingle then setFirstOOO rb insertPos else
  let hasLast := (pp =? PositionLast) || (scanNotInOrderMessageRight rb insertPos mn >=? 0) in
  if negb hasLast then rb else
  let firstPktPos :=
    if pp =? PositionFirst then insertPos else scanNotInOrderMessageLeft rb insertPos mn in
  if firstPktPos <? 0 then rb else setFirstOOO rb firstPktPos.

(** ** Insertion *)

Record InsertResult : Type := mkIR { Inserted : bool; GapStart : Z; GapEnd : Z }.

Definition HasGap (r : InsertResult) : bool :=
  Inserted r && (negb (GapStart r =? 0) || negb (GapEnd r =? 0)).

Definition Insert rb (p : Packet) (arrival : Z) : InsertResult * RecvBuffer T :=
  let s := SequenceNumber (Hdr p) in
  if Seq.LessThan s (startSeq rb) then (mkIR false 0 0, rb) else
  let dist := Seq.Distance (startSeq rb) s in
  if (dist <? 0) || (dist >=? len (entries rb) - 1) then (mkIR false 0 0, rb) else
  if negb (is_empty (state (entry rb s))) then (mkIR false 0 0, rb) else
  let result :=
    if negb (maxSeq rb =? startSeq rb) && Seq.LessThan (maxSeq rb) s
    then mkIR true (Seq.Value (maxSeq rb)) (Seq.Value (Seq.Dec s)) else mkIR true 0 0 in
  let rb := put rb s (mkRE p EntryAvailable arrival) in
  let rb := setSize rb (size rb + 1) in
  let next := Seq.Inc s in
  let rb := if Seq.LessThan (maxSeq rb) next || (maxSeq rb =? startSeq rb) then setMax rb next else rb in
  let rb :=
    if messageAPI rb && negb (Order (Hdr p)) then
      onInsertNotInOrderPacket (setNumOOO rb (numOutOfOrderPkts rb + 1)) (index rb s)
    else rb in
  (result, rb).

(** ** Reading *)

(** Taking the head packet out: clear its slot, advance, count. *)
Definition takeHead rb : RecvBuffer T :=
  let s := startSeq rb in
  let rb := put rb s zeroRE in
  let rb := setStart rb (Seq.Inc s) in
  setSize rb (size rb - 1).

Definition ReadNext rb : Packet * bool * RecvBuffer T :=
  let e := entry rb (startSeq rb) in
  if negb (is_avail (state e)) then (zeroPacket, false, rb) else
  (pkt e, true, takeHead rb).

(** [if rb.numOutOfOrderPkts > 0 && !p.Header.Order { rb.numOutOfOrderPkts-- }]. *)
Definition decOOO rb (p : Packet) : RecvBuffer T :=
  if (numOutOfOrderPkts rb >? 0) && negb (Order (Hdr p)) then setNumOOO rb (numOutOfOrderPkts rb - 1) else rb.

(** The end of every in-order read. *)
Definition afterRead rb : RecvBuffer T :=
  let rb := releaseFillerEntries rb in
  if messageAPI rb then updateFirstReadableOutOfOrder rb else rb.

(** The scan for the end of a message; [count] packets have been accepted. *)
Inductive scan : Type := ScanIncomplete | ScanMismatch | ScanEnd (count : nat).

Fixpoint scanMessage (fuel : nat) rb (msgNo s : Z) (count : nat) : scan :=
  match fuel with
  | O => ScanIncomplete
  | S fuel' =>
      let e := entry rb s in
      if negb (is_avail (state e)) then ScanIncomplete else
      if negb (MessageNumber (Hdr (pkt e)) =? msgNo) then ScanMismatch else
      let count := S count in
      if isEnd (pkt e) then ScanEnd count else
      let s := Seq.Inc s in
      if Z.of_nat count >? len (entries rb) then ScanIncomplete else
      scanMessage fuel' rb msgNo s count
  end.

Fixpoint consume (count : nat) rb (pkts : list Packet) : list Packet * RecvBuffer T :=
  match count with
  | O => (pkts, rb)
  | S count' =>
      let p := pkt (entry rb (startSeq rb)) in
      consume count' (takeHead (decOOO rb p)) (pkts ++ [p])
  end.

Definition readMessageInOrder rb : list Packet * bool * RecvBuffer T :=
  let p := pkt (entry rb (startSeq rb)) in
  let pp := PacketPosition (Hdr p) in
  if pp =? PositionSingle then ([p], true, afterRead (takeHead (decOOO rb p))) else
  if negb (pp =? PositionFirst) then ([], false, afterRead (takeHead (decOOO rb p))) else
  match scanMessage (length (entries rb) + 2) rb (MessageNumber (Hdr p)) (startSeq rb) 0 with
  | ScanIncomplete => ([], false, rb)
  | ScanMismatch => ([], false, afterRead (takeHead (decOOO rb p)))
  | ScanEnd count => let '(pkts, rb) := consume count rb [] in (pkts, true, afterRead rb)
  end.

(** The out-of-order read: [Some] when the end of the message was taken. *)
Definition readOOO_body (pos : Z) (st : RecvBuffer T * list Packet * bool) :
    Seq.ctl (RecvBuffer T * list Packet * bool) :=
  let '(rb, pkts, _) := st in
  let e := entryAt rb pos in
  if negb (is_avail (state e)) then Seq.Stop (setFirstOOO rb (-1), pkts, false) else
  let p := pkt e in
  let pkts := pkts ++ [p] in
  let rb := decOOO rb p in
  let rb := putAt rb pos (mkRE zeroPacket EntryRead (arrivalTS e)) in
  let rb := setSize rb (size rb - 1) in
  if isEnd p then Seq.Stop (rb, pkts, true) else
  if len pkts >? len (entries rb) then Seq.Stop (setFirstOOO rb (-1), pkts, false) else
  Seq.Next (rb, pkts, false).

Definition readMessageOutOfOrder rb : list Packet * bool * RecvBuffer T :=
  if firstReadableOOO rb <? 0 then ([], false, rb) else
  let '(rb', pkts, ok, _) :=
    ring_loop (S (ringFuel rb)) (nextPos rb) readOOO_body (firstReadableOOO rb) (rb, [], false) in
  if ok then
    (pkts, true, updateFirstReadableOutOfOrder (releaseFillerEntries (setFirstOOO rb' (-1))))
  else ([], false, rb').

Definition readMessageLocked rb : list Packet * bool * RecvBuffer T :=
  if negb (canReadInOrder rb) && (firstReadableOOO rb <? 0) then ([], false, rb) else
  if canReadInOrder rb then readMessageInOrder rb else readMessageOutOfOrder rb.

Definition ReadMessage rb : list Packet * bool * RecvBuffer T := readMessageLocked rb.

Definition HasAvailablePackets rb : bool :=
  if canReadInOrder rb then true else (numOutOfOrderPkts rb >? 0) && (firstReadableOOO rb >=? 0).

(** ** Timed reading *)

Definition ReadTSBPD rb (now : Z) (deliveryTime : Z -> Z) t : Packet * bool * RecvBuffer T * T :=
  let e := entry rb (startSeq rb) in
  if negb (is_avail (state e)) then (zeroPacket, false, rb, t) else
  let dt := deliveryTime (Timestamp (Hdr (pkt e))) in
  if Clock.Before now dt then (zeroPacket, false, rb, t) else
  let t := call (onRead rb) (Timestamp (Hdr (pkt e))) t in
  (pkt e, true, takeHead rb, t).

Definition ReadMessageTSBPD rb (now : Z) (deliveryTime : Z -> Z) t : list Packet * bool * RecvBuffer T * T :=
  let e := entry rb (startSeq rb) in
  if negb (is_avail (state e)) then ([], false, rb, t) else
  let dt := deliveryTime (Timestamp (Hdr (pkt e))) in
  if Clock.Before now dt then ([], false, rb, t) else
  let t := call (onRead rb) (Timestamp (Hdr (pkt e))) t in
  ([pkt e], true, takeHead rb, t).

(** ** Dropping *)

Definition drop_body (s : Z) (st : RecvBuffer T * Z * T) : Seq.ctl (RecvBuffer T * Z * T) :=
  let '(rb, count, t) := st in
  let e := entry rb s in
  let '(rb, count, t) :=
    match state e with
    | EntryAvailable =>
        let t := call (onDrop rb) (Timestamp (Hdr (pkt e))) t in
        let rb :=
          if messageAPI rb && negb (Order (Hdr (pkt e))) then
            let rb := setNumOOO rb (numOutOfOrderPkts rb - 1) in
            if index rb s =? firstReadableOOO rb then setFirstOOO rb (-1) else rb
          else rb in
        (setSize rb (size rb - 1), count + 1, t)
    | EntryEmpty => (rb, count + 1, t)
    | _ => (rb, count, t)
    end in
  Seq.Next (setStart (put rb s dropRE) (Seq.Inc s), count, t).

Definition Drop rb (upTo : Z) t : Z * RecvBuffer T * T :=
  let '(_, (rb, count, t)) := Seq.walk upTo drop_body (startSeq rb) (rb, 0, t) in
  let rb := releaseFillerEntries rb in
  let rb :=
    if messageAPI rb then
      let rb := if negb (checkFirstReadableOutOfOrder rb) then setFirstOOO rb (-1) else rb in
      updateFirstReadableOutOfOrder rb
    else rb in
  (count, rb, t).

(** The delivery time of the nearest available packet after the head; zero if
    there is none. *)
Definition refDelivery rb (deliveryTime : Z -> Z) (head : Z) : Z :=
  snd (Seq.walk (maxSeq rb) (fun s ref =>
         if availAt rb s then Seq.Stop (deliveryTime (Timestamp (Hdr (pkt (entry rb s)))))
         else Seq.Next ref) (Seq.Inc head) 0).

Definition tooLate_body (now : Z) (deliveryTime : Z -> Z) (s : Z) (st : RecvBuffer T * Z) :
    Seq.ctl (RecvBuffer T * Z) :=
  let '(rb, dropped) := st in
  if availAt rb s then Seq.Stop (rb, dropped) else
  let ref := refDelivery rb deliveryTime s in
  if ref =? 0 then Seq.Stop (rb, dropped) else
  if Clock.Before now ref then Seq.Stop (rb, dropped) else
  Seq.Next (setStart (put rb s dropRE) (Seq.Inc s), dropped + 1).

Definition DropTooLate rb (now : Z) (deliveryTime : Z -> Z) : Z * RecvBuffer T :=
  let '(_, (rb, dropped)) :=
    Seq.walk (maxSeq rb) (tooLate_body now deliveryTime) (startSeq rb) (rb, 0) in
  (dropped, releaseFillerEntries rb).

(** ** Reports *)

Definition GenerateLossList rb : list Z * RecvBuffer T :=
  if startSeq rb =? maxSeq rb then ([], rb) else
  let '(_, buf) := Seq.walk (maxSeq rb) (fun s buf =>
      Seq.Next (if is_empty (state (entry rb s)) then buf ++ [Seq.Value s] else buf)) (startSeq rb) [] in
  (buf, setLossBuf rb buf).

Definition ACKSequence rb : Z :=
  fst (Seq.walk (maxSeq rb) (fun s (u : unit) =>
         if is_empty (state (entry rb s)) then Seq.Stop tt else Seq.Next u) (startSeq rb) tt).

Definition Size rb : Z := size rb.
Definition Capacity rb : Z := len (entries rb) - 1.

Definition span_body rb (s : Z) (st : Z * Z * bool) : Z * Z * bool :=
  let '(oldest, newest, first) := st in
  if negb (availAt rb s) then st else
  let ts := Timestamp (Hdr (pkt (entry rb s))) in
  if first then (ts, ts, false) else
  let oldest := if i32 (ts - oldest) <? 0 then ts else oldest in
  let newest := if i32 (ts - newest) >? 0 then ts else newest in
  (oldest, newest, false).

Definition BufferedTimeSpan rb : Z :=
  if size rb <? 2 then 0 else
  let '(_, (oldest, newest, _)) :=
    Seq.walk (maxSeq rb) (fun s st => Seq.Next (span_body rb s st)) (startSeq rb) (0, 0, true) in
  u32 (newest - oldest).

Definition AvailableSize rb (lastAck : Z) : Z :=
  let cap := len (entries rb) - 1 in
  if negb (Seq.LessThan (startSeq rb) lastAck) then cap else
  let used := Seq.Distance (startSeq rb) lastAck in
  if used >? cap then 0 else cap - used + 1.

Definition StartSeq rb : Z := startSeq rb.
Definition MaxSeq rb : Z := maxSeq rb.
Definition IsEmpty rb : bool := size rb =? 0.

Definition PeekNextAvailableTimestamp rb : Z * bool :=
  snd (Seq.walk (maxSeq rb) (fun s r =>
         if availAt rb s then Seq.Stop (Timestamp (Hdr (pkt (entry rb s))), true) else Seq.Next r)
       (startSeq rb) (0, false)).

Definition SetInitialRcvSeq rb (newISN : Z) : RecvBuffer T :=
  let rb := setEntries rb (map (fun _ => zeroRE) (entries rb)) in
  let rb := setMax (setStart rb newISN) newISN in
  setFirstOOO (setNumOOO (setSize rb 0) 0) (-1).

End Operations.

(** ** The invariant of the ring *)

Definition b2z (b : bool) : Z := if b then 1 else 0.

Definition count_avail (l : list recvEntry) : Z := len (List.filter (fun e => is_avail (state e)) l).

(** Every packet in the ring sits in the slot of its own sequence number,
    inside the window the buffer accepts; the size counts the packets.  Slots
    without a packet may be marked read or dropped, also behind the start. *)
Record rinv {T} (k : Z) (rb : RecvBuffer T) : Prop := mkRinv {
  ri_k : 0 <= k <= 29;
  ri_mask : mask rb = 2 ^ k - 1;
  ri_len : len (entries rb) = 2 ^ k;
  ri_start : Seq.is_seq (startSeq rb);
  ri_max : Seq.is_seq (maxSeq rb);
  ri_avail : forall i, 0 <= i < 2 ^ k -> availAt rb (Seq.sadd (startSeq rb) i) = true ->
    i < 2 ^ k - 1 /\ SequenceNumber (Hdr (pkt (entry rb (Seq.sadd (startSeq rb) i)))) = Seq.sadd (startSeq rb) i;
  ri_size : size rb = count_avail (entries rb)
}.

Section Invariant.
Context {T : Type}.
Implicit Types (rb : RecvBuffer T).

(** The fields the invariant speaks of. *)
Lemma rinv_frame k rb rb' :
  entries rb' = entries rb -> mask rb' = mask rb -> startSeq rb' = startSeq rb -> maxSeq rb' = maxSeq rb ->
  size rb' = size rb -> rinv k rb -> rinv k rb'.
Proof.
  intros He Hm Hs Hx Hz [? ? ? ? ? Ha ?]. constructor; unfold availAt, entry in *; rewrite ?He, ?Hm, ?Hs, ?Hx, ?Hz; done.
Qed.

Lemma count_avail_insert l i e d :
  (i < length l)%nat ->
  count_avail (<[i := e]> l) =
    count_avail l - b2z (is_avail (state (nth i l d))) + b2z (is_avail (state e)).
Proof.
  unfold count_avail, len. revert i. induction l as [|x l IH]; intros [|i] Hi; simpl in Hi; try lia.
  - change (<[0%nat := e]> (x :: l)) with (e :: l). cbn [List.filter nth].
    destruct (is_avail (state x)), (is_avail (state e)); simpl length; cbn [b2z]; lia.
  - change (<[S i := e]> (x :: l)) with (x :: <[i := e]> l). cbn [List.filter nth].
    specialize (IH i ltac:(lia)). destruct (is_avail (state x)); simpl length; lia.
Qed.

Lemma rinv_k30 {k rb} : rinv k rb -> 0 <= k <= 30 /\ 0 < 2 ^ k <= 2 ^ 29.
Proof. intros [? ? ? ? ? ? ?]. split; [lia|]. split; [lia|]. apply Z.pow_le_mono_r; lia. Qed.

Lemma slot_lt {k rb} s : rinv k rb -> (Ring.slot (mask rb) s < length (entries rb))%nat.
Proof.
  intros H. destruct (rinv_k30 H) as [Hk _]. rewrite (ri_mask _ _ H). pose proof (Ring.slot_range k Hk s).
  pose proof (ri_len _ _ H). unfold len in *. lia.
Qed.

Lemma count_put {k rb} s e :
  rinv k rb -> count_avail (entries (put rb s e)) = size rb - b2z (availAt rb s) + b2z (is_avail (state e)).
Proof.
  intros H. unfold put, availAt, entry, Ring.get, Ring.set. simpl.
  rewrite (count_avail_insert _ _ _ zeroRE) by (by apply (slot_lt s H)). by rewrite (ri_size _ _ H).
Qed.

(** The head leaves the window. *)
Lemma rinv_advance k rb e :
  rinv k rb -> is_avail (state e) = false ->
  rinv k (setSize (setStart (put rb (startSeq rb) e) (Seq.Inc (startSeq rb)))
            (size rb - b2z (availAt rb (startSeq rb)))).
Proof.
  intros H He. destruct (rinv_k30 H) as [Hk Hp]. pose proof (count_put (startSeq rb) e H) as Hc.
  pose proof H as [? Hm Hl Hs Hx Ha Hz]. constructor; simpl; try done.
  - unfold len in *. unfold Ring.set. by rewrite length_insert.
  - by apply Seq.Inc_seq.
  - intros i Hi. unfold availAt, entry. simpl. rewrite Hm, Seq.Inc_sadd, Seq.sadd_sadd by done.
    destruct (Z.eq_dec i (2 ^ k - 1)) as [->|].
    + replace (1 + (2 ^ k - 1)) with (2 ^ k) by lia. rewrite Ring.get_zero_periodic, Seq.sadd_0 by done.
      rewrite Ring.get_set_eq by done. by rewrite He.
    + rewrite Ring.get_set_ne by (apply Ring.slot_ne_head; done || lia).
      intros Hav. split; [lia|]. destruct (Ha (1 + i)) as [_ Hseq]; [lia| |].
      * unfold availAt, entry. by rewrite Hm.
      * unfold entry in Hseq. by rewrite Hm in Hseq.
  - rewrite He in Hc. simpl in Hc. simpl. lia.
Qed.

Lemma advance_start k rb : rinv k rb -> Seq.Inc (startSeq rb) = Seq.sadd (startSeq rb) 1.
Proof. intros H. apply Seq.Inc_sadd, H. Qed.

Lemma setSize_same rb n : size rb = n -> setSize rb n = rb.
Proof. intros <-. by destruct rb. Qed.

Definition seqOf (p : Packet) : Z := SequenceNumber (Hdr p).

(** [rb'] is [rb] with the start moved [n] sequence numbers ahead and no packet
    added. *)
Record adv (k : Z) rb rb' (n : Z) : Prop := mkAdv {
  adv_inv : rinv k rb';
  adv_start : startSeq rb' = Seq.sadd (startSeq rb) n;
  adv_n : 0 <= n;
  adv_mode : messageAPI rb' = messageAPI rb;
  adv_ooo : messageAPI rb = false -> firstReadableOOO rb' = firstReadableOOO rb;
  adv_sub : forall e, e ∈ entries rb' -> is_avail (state e) = true -> e ∈ entries rb;
  adv_past : forall e, e ∈ entries rb' -> is_avail (state e) = true -> n <= Seq.gap (startSeq rb) (seqOf (pkt e))
}.

(** A packet of the ring is at the distance from the start that its number says. *)
Lemma elem_position k rb e : rinv k rb -> e ∈ entries rb -> is_avail (state e) = true ->
  exists i, 0 <= i < 2 ^ k - 1 /\ entry rb (Seq.sadd (startSeq rb) i) = e /\ seqOf (pkt e) = Seq.sadd (startSeq rb) i.
Proof.
  intros H (j & Hj)%list_elem_of_lookup Ha. destruct (rinv_k30 H) as [Hk Hp]. pose proof (lookup_lt_Some _ _ _ Hj) as Hl.
  pose proof (ri_len _ _ H) as Hn. unfold len in Hn.
  set (i := (Z.of_nat j - startSeq rb) mod 2 ^ k). pose proof (Z.mod_pos_bound (Z.of_nat j - startSeq rb) (2 ^ k) ltac:(lia)) as Hi.
  fold i in Hi.
  assert (entry rb (Seq.sadd (startSeq rb) i) = e) as Ee.
  { unfold entry, Ring.get. rewrite (ri_mask _ _ H), (Ring.slot_sadd k Hk). unfold i. rewrite Zplus_mod_idemp_r.
    replace (startSeq rb + (Z.of_nat j - startSeq rb)) with (Z.of_nat j) by lia.
    rewrite Z.mod_small, Nat2Z.id by lia. by apply nth_lookup_Some. }
  destruct (ri_avail _ _ H i) as [Hi1 Hs]; [lia|unfold availAt; by rewrite Ee|]. exists i. rewrite Ee in Hs. split; [lia|]. done.
Qed.

(** A short move leaves only packets behind which it stopped. *)
Lemma past_of_inv k rb rb' n : rinv k rb' -> startSeq rb' = Seq.sadd (startSeq rb) n -> 0 <= n -> n + 2 ^ k <= 2 ^ 31 ->
  forall e, e ∈ entries rb' -> is_avail (state e) = true -> n <= Seq.gap (startSeq rb) (seqOf (pkt e)).
Proof.
  intros H Hs Hn Hk e He Ha. destruct (elem_position k rb' e H He Ha) as (i & Hi & _ & ->). rewrite Hs, Seq.sadd_sadd, Seq.gap_sadd; lia.
Qed.

Lemma adv_refl k rb : rinv k rb -> adv k rb rb 0.
Proof. intros H. constructor; try done; [by rewrite Seq.sadd_0 by apply H|]. intros e _ _. apply Seq.gap_range. Qed.

Lemma adv_trans k rb1 rb2 rb3 n m : adv k rb1 rb2 n -> adv k rb2 rb3 m -> adv k rb1 rb3 (n + m).
Proof.
  intros [? Hs ? Hm Ho Hsub Hp] [? Hs' ? Hm' Ho' Hsub' Hp']. constructor; [done|by rewrite Hs', Hs, Seq.sadd_sadd|lia| | | |].
  - by rewrite Hm'.
  - intros E. rewrite Ho' by (by rewrite Hm). auto.
  - auto.
  - intros e He Ha. specialize (Hp e (Hsub' e He Ha) Ha). specialize (Hp' e He Ha).
    pose proof (Seq.gap_range (startSeq rb1) (seqOf (pkt e))). rewrite Hs in Hp'. revert Hp'.
    unfold Seq.gap, Seq.sadd in *. rewrite Zminus_mod_idemp_r. set (g := (seqOf (pkt e) - startSeq rb1) mod 2 ^ 31) in *.
    replace (seqOf (pkt e) - (startSeq rb1 + n)) with ((seqOf (pkt e) - startSeq rb1) - n) by lia.
    rewrite <- Zminus_mod_idemp_l. fold g. rewrite Z.mod_small by lia. lia.
Qed.

Lemma adv_frame k rb rb' :
  rinv k rb -> entries rb' = entries rb -> mask rb' = mask rb -> startSeq rb' = startSeq rb ->
  maxSeq rb' = maxSeq rb -> size rb' = size rb -> messageAPI rb' = messageAPI rb ->
  (messageAPI rb = false -> firstReadableOOO rb' = firstReadableOOO rb) -> adv k rb rb' 0.
Proof.
  intros H He Hm Hs Hx Hz Ha Ho. constructor; [by apply (rinv_frame k rb)|rewrite Hs, Seq.sadd_0 by apply H; done|lia|done|done|by rewrite He|].
  intros e _ _. apply Seq.gap_range.
Qed.

Lemma elem_of_set (m : Z) l s (e x : recvEntry) : x ∈ Ring.set m l s e -> x = e \/ x ∈ l.
Proof.
  unfold Ring.set. intros (i & Hi)%list_elem_of_lookup. apply list_lookup_insert_Some in Hi as [(_ & -> & _)|(_ & Hi)].
  - by left.
  - right. by apply list_elem_of_lookup_2 in Hi.
Qed.

Lemma put_sub rb s e x :
  is_avail (state e) = false -> x ∈ entries (put rb s e) -> is_avail (state x) = true -> x ∈ entries rb.
Proof. intros He Hx Ha. apply elem_of_set in Hx as [->|]; [by rewrite He in Ha|done]. Qed.

Lemma takeHead_adv k rb : rinv k rb -> availAt rb (startSeq rb) = true -> adv k rb (takeHead rb) 1.
Proof.
  intros H Ha. pose proof (rinv_advance k rb zeroRE H eq_refl) as Hr. rewrite Ha in Hr.
  assert (startSeq (takeHead rb) = Seq.sadd (startSeq rb) 1) as E by (simpl; apply Seq.Inc_sadd, H).
  constructor; try done; [intros e; by apply put_sub|]. apply (past_of_inv k); [done|done|lia|destruct (rinv_k30 H); lia].
Qed.

(** A slot without a packet leaves the window, its mark replaced. *)
Lemma skip_adv k rb e :
  rinv k rb -> availAt rb (startSeq rb) = false -> is_avail (state e) = false ->
  adv k rb (setStart (put rb (startSeq rb) e) (Seq.Inc (startSeq rb))) 1.
Proof.
  intros H Ha He. pose proof (rinv_advance k rb e H He) as Hr. rewrite Ha in Hr. simpl in Hr.
  rewrite Z.sub_0_r in Hr. rewrite setSize_same in Hr by done.
  constructor; try done; [simpl; apply Seq.Inc_sadd, H|intros x; by apply put_sub|].
  apply (past_of_inv k); [done|simpl; apply Seq.Inc_sadd, H|lia|destruct (rinv_k30 H); lia].
Qed.

Lemma releaseFillerEntries_adv k rb : rinv k rb -> exists n, adv k rb (releaseFillerEntries rb) n.
Proof.
  intros H. unfold releaseFillerEntries.
  enough (startSeq (snd (Seq.walk (maxSeq rb) filler_body (startSeq rb) rb)) =
            fst (Seq.walk (maxSeq rb) filler_body (startSeq rb) rb) /\
          exists n, adv k rb (snd (Seq.walk (maxSeq rb) filler_body (startSeq rb) rb)) n) as [_ Hx] by done.
  apply (Seq.walk_ind (fun s rb' => startSeq rb' = s /\ exists n, adv k rb rb' n)).
  - apply H.
  - split; [done|]. exists 0. by apply adv_refl.
  - intros s rb' _ (<- & n & Hn) _. unfold filler_body.
    destruct (state (entry rb' (startSeq rb'))) eqn:E; try (split; [done|by exists n]).
    all: split; [done|]; exists (n + 1); apply (adv_trans _ _ rb'); [done|].
    all: apply skip_adv; [apply Hn|unfold availAt; by rewrite E|done].
Qed.

Lemma decOOO_frame k rb p : rinv k rb -> adv k rb (decOOO rb p) 0.
Proof. intros H. unfold decOOO. destruct (_ && _); [by apply adv_frame|by apply adv_refl]. Qed.

Lemma updateFirst_adv k rb : rinv k rb -> adv k rb (if messageAPI rb then updateFirstReadableOutOfOrder rb else rb) 0.
Proof.
  intros H. destruct (messageAPI rb) eqn:Em; [|by apply adv_refl].
  unfold updateFirstReadableOutOfOrder.
  repeat match goal with |- context [if ?b then rb else _] => destruct b; [by apply adv_refl|] end.
  destruct (ring_loop _ _ _ _ _) as [st b]. destruct (found st >=? 0); [|by apply adv_refl].
  apply adv_frame; try done. by rewrite Em.
Qed.

Lemma afterRead_adv k rb : rinv k rb -> exists n, adv k rb (afterRead rb) n.
Proof.
  intros H. destruct (releaseFillerEntries_adv k rb H) as [n Hn]. exists (n + 0). unfold afterRead.
  eapply adv_trans; [done|]. apply updateFirst_adv, Hn.
Qed.

(** ** Readers *)

(** The move of a read, counted in packets: fillers are few. *)
Lemma releaseFiller_span rb : Seq.is_seq (startSeq rb) -> Seq.is_seq (maxSeq rb) ->
  exists i, 0 <= i <= 2 ^ 30 /\ startSeq (releaseFillerEntries rb) = Seq.sadd (startSeq rb) i.
Proof.
  intros Hs Hm. unfold releaseFillerEntries.
  destruct (Seq.walk_span (maxSeq rb) filler_body (startSeq rb) rb Hs (Seq.seq_u32 _ Hm)) as (i & Hi & E). exists i. split; [done|].
  rewrite <- E. apply (Seq.walk_ind (fun s rb' => startSeq rb' = s)); [done|done|].
  intros s rb' _ <- _. unfold filler_body. by destruct (state (entry rb' (startSeq rb'))).
Qed.

Lemma afterRead_span k rb : rinv k rb -> exists i, 0 <= i <= 2 ^ 30 /\ startSeq (afterRead rb) = Seq.sadd (startSeq rb) i.
Proof.
  intros H. destruct (releaseFiller_span rb) as (i & Hi & E); [apply H|apply H|]. exists i. split; [done|]. rewrite <- E. unfold afterRead.
  destruct (releaseFillerEntries_adv k rb H) as [n Hn]. pose proof (updateFirst_adv k _ (adv_inv _ _ _ _ Hn)) as Hu.
  rewrite (adv_start _ _ _ _ Hu), Seq.sadd_0; [done|apply Hn].
Qed.

(** A read hands out the packets [out], which are the next ones in sequence. *)
Definition reads (k : Z) rb (out : list Packet) rb' : Prop :=
  exists n, adv k rb rb' n /\ map seqOf out = Seq.seqs (startSeq rb) (length out) /\
    (len out <= n /\ len out <= Seq.gap (startSeq rb) (startSeq rb')) /\
    forall p, p ∈ out -> exists e, e ∈ entries rb /\ is_avail (state e) = true /\ pkt e = p.

Lemma reads_nothing k rb rb' n : adv k rb rb' n -> reads k rb [] rb'.
Proof.
  intros H. exists n. split; [done|]. split; [done|].
  split; [pose proof (Seq.gap_range (startSeq rb) (startSeq rb')); destruct H; unfold len; simpl; lia|].
  intros p Hp. by apply not_elem_of_nil in Hp.
Qed.

Lemma entry_elem k rb s : rinv k rb -> entry rb s ∈ entries rb.
Proof.
  intros H. unfold entry, Ring.get. rewrite nth_lookup.
  destruct (lookup_lt_is_Some_2 (entries rb) (Ring.slot (mask rb) s) (slot_lt s H)) as [e He].
  rewrite He. simpl. by apply list_elem_of_lookup_2 in He.
Qed.

Lemma head_seq k rb : rinv k rb -> availAt rb (startSeq rb) = true -> seqOf (pkt (entry rb (startSeq rb))) = startSeq rb.
Proof.
  intros H Ha. destruct (rinv_k30 H) as [_ Hp]. pose proof (ri_avail _ _ H 0 ltac:(lia)) as Hs.
  rewrite Seq.sadd_0 in Hs by apply H. by apply Hs.
Qed.

Lemma takeHead_reads k rb : rinv k rb -> availAt rb (startSeq rb) = true ->
  reads k rb [pkt (entry rb (startSeq rb))] (takeHead rb).
Proof.
  intros H Ha. exists 1. split; [by apply takeHead_adv|].
  split; [simpl; f_equal; by apply (head_seq k)|].
  split; [rewrite (adv_start _ _ _ _ (takeHead_adv k rb H Ha)), Seq.gap_sadd; unfold len; simpl; lia|].
  intros p ->%list_elem_of_singleton. eauto using entry_elem.
Qed.

Lemma entry_decOOO rb p s : entry (decOOO rb p) s = entry rb s.
Proof. unfold decOOO. by destruct (_ && _). Qed.
Lemma startSeq_decOOO rb p : startSeq (decOOO rb p) = startSeq rb.
Proof. unfold decOOO. by destruct (_ && _). Qed.

Lemma takeHead_entry k rb i :
  rinv k rb -> 0 < i < 2 ^ k ->
  entry (takeHead rb) (Seq.sadd (startSeq rb) i) = entry rb (Seq.sadd (startSeq rb) i).
Proof.
  intros H Hi. unfold entry. simpl. rewrite (ri_mask _ _ H). destruct (rinv_k30 H) as [Hk _].
  apply Ring.get_set_ne. apply Ring.slot_ne_head; [done|apply H|done].
Qed.

(** Taking [count] available packets from the head. *)
Lemma consume_spec k count : forall rb pkts,
  rinv k rb -> (forall i, 0 <= i < Z.of_nat count -> availAt rb (Seq.sadd (startSeq rb) i) = true) ->
  let '(pkts', rb') := consume count rb pkts in
  pkts' = pkts ++ map (fun s => pkt (entry rb s)) (Seq.seqs (startSeq rb) count) /\
  adv k rb rb' (Z.of_nat count).
Proof.
  induction count as [|count IH]; intros rb pkts H Ha.
  - cbn [consume Seq.seqs map]. rewrite app_nil_r. split; [done|]. by apply adv_refl.
  - cbn [consume Seq.seqs map]. set (p := pkt (entry rb (startSeq rb))).
    assert (availAt rb (startSeq rb) = true) as Ha0.
    { rewrite <- (Seq.sadd_0 (startSeq rb)) by apply H. apply Ha. lia. }
    pose proof (decOOO_frame k rb p H) as Hd.
    assert (adv k rb (takeHead (decOOO rb p)) 1) as Ht.
    { replace 1 with (0 + 1) by lia. eapply adv_trans; [done|]. apply takeHead_adv; [apply Hd|].
      unfold availAt. by rewrite entry_decOOO, startSeq_decOOO. }
    assert (forall i, 0 <= i < Z.of_nat count ->
      entry (takeHead (decOOO rb p)) (Seq.sadd (startSeq (takeHead (decOOO rb p))) i) =
      entry rb (Seq.sadd (startSeq rb) (i + 1))) as He.
    { intros i Hi. rewrite (adv_start _ _ _ _ Ht), Seq.sadd_sadd, (Z.add_comm i).
      rewrite <- (startSeq_decOOO rb p). rewrite (takeHead_entry k);
        [by rewrite entry_decOOO|apply Hd|].
      split; [lia|]. destruct (Z.ltb_spec (1 + i) (2 ^ k)); [done|].
      destruct (rinv_k30 H) as [_ Hp].
      destruct (ri_avail _ _ H (2 ^ k - 1)) as [? _]; [lia|apply Ha; lia|lia]. }
    specialize (IH (takeHead (decOOO rb p)) (pkts ++ [p])).
    destruct (consume count (takeHead (decOOO rb p)) (pkts ++ [p])) as [pkts' rb'].
    destruct IH as [-> Hadv]; [apply Ht|intros i Hi; unfold availAt; rewrite He by done; apply Ha; lia|].
    split; [|replace (Z.of_nat (S count)) with (1 + Z.of_nat count) by lia; by eapply adv_trans].
    rewrite <- app_assoc. do 2 f_equal.
    apply list_eq. intros j. rewrite !list_lookup_fmap.
    assert (startSeq (takeHead (decOOO rb p)) = Seq.Inc (startSeq rb)) as Hst
      by (unfold takeHead; simpl; by rewrite startSeq_decOOO).
    destruct (decide (j < count)%nat) as [Hj|Hj].
    + rewrite !Seq.seqs_lookup by (done || apply Ht || apply Seq.Inc_seq, H). cbn [fmap option_fmap option_map].
      rewrite He by lia. rewrite Seq.Inc_sadd, Seq.sadd_sadd by apply H. by rewrite (Z.add_comm 1).
    + rewrite !lookup_ge_None_2 by (rewrite Seq.seqs_length; lia). done.
Qed.

Lemma seqs_map_seqOf k rb count :
  rinv k rb -> (forall i, 0 <= i < Z.of_nat count -> availAt rb (Seq.sadd (startSeq rb) i) = true) ->
  map seqOf (map (fun s => pkt (entry rb s)) (Seq.seqs (startSeq rb) count)) = Seq.seqs (startSeq rb) count.
Proof.
  intros H Ha. apply list_eq. intros j. rewrite !list_lookup_fmap. destruct (rinv_k30 H) as [_ Hp].
  destruct (decide (j < count)%nat) as [Hj|Hj].
  - rewrite !Seq.seqs_lookup by (done || apply H). cbn [fmap option_fmap option_map]. f_equal.
    assert (Z.of_nat j < 2 ^ k).
    { destruct (Z.ltb_spec (Z.of_nat j) (2 ^ k)); [done|].
      destruct (ri_avail _ _ H (2 ^ k - 1)) as [? _]; [lia|apply Ha; lia|lia]. }
    apply (ri_avail _ _ H); [lia|]. apply Ha. lia.
  - rewrite !lookup_ge_None_2 by (rewrite Seq.seqs_length; lia). done.
Qed.

(** What the scan for the end of a message has verified. *)
Lemma scanMessage_spec fuel rb mn a j c :
  Seq.is_seq a -> scanMessage fuel rb mn (Seq.sadd a (Z.of_nat j)) j = ScanEnd c ->
  (j < c)%nat /\ forall i, (j <= i < c)%nat ->
    let e := entry rb (Seq.sadd a (Z.of_nat i)) in
    is_avail (state e) = true /\ MessageNumber (Hdr (pkt e)) = mn /\ isEnd (pkt e) = Nat.eqb (S i) c.
Proof.
  intros Ha. revert j. induction fuel as [|fuel IH]; intros j H; [done|]. cbn [scanMessage] in H.
  set (e := entry rb (Seq.sadd a (Z.of_nat j))) in *.
  destruct (is_avail (state e)) eqn:E1; [|done]. cbn [negb] in H.
  destruct (Z.eqb_spec (MessageNumber (Hdr (pkt e))) mn) as [E2|]; [|done]. cbn [negb] in H.
  destruct (isEnd (pkt e)) eqn:E3.
  - injection H as <-. split; [lia|]. intros i Hi. assert (i = j) as -> by lia. cbv zeta. fold e.
    rewrite Nat.eqb_refl. done.
  - destruct (_ >? _); [done|]. rewrite Seq.Inc_sadd, Seq.sadd_sadd in H by apply Seq.sadd_seq.
    replace (Z.of_nat j + 1) with (Z.of_nat (S j)) in H by lia. apply IH in H as [Hlt H].
    split; [lia|]. intros i Hi. destruct (decide (i = j)) as [->|]; [|apply H; lia].
    cbv zeta. fold e. rewrite E1, E3. split; [done|]. split; [done|].
    symmetry. apply Nat.eqb_neq. lia.
Qed.

Lemma readMessageInOrder_reads k rb :
  rinv k rb -> canReadInOrder rb = true ->
  let '(out, ok, rb') := readMessageInOrder rb in reads k rb out rb' /\ (ok = false -> out = []).
Proof.
  intros H Ha. unfold readMessageInOrder. set (p := pkt (entry rb (startSeq rb))).
  pose proof (decOOO_frame k rb p H) as Hd.
  assert (adv k rb (takeHead (decOOO rb p)) 1) as Ht.
  { replace 1 with (0 + 1) by lia. eapply adv_trans; [done|]. apply takeHead_adv; [apply Hd|].
    unfold availAt. by rewrite entry_decOOO, startSeq_decOOO. }
  destruct (afterRead_adv k (takeHead (decOOO rb p))) as [n Hn]; [apply Ht|].
  assert (adv k rb (afterRead (takeHead (decOOO rb p))) (1 + n)) as Han by (by eapply adv_trans).
  destruct (_ =? PositionSingle).
  { split; [|done]. exists (1 + n). split; [done|].
    split; [simpl; f_equal; by apply (head_seq k)|]. split.
    { destruct (afterRead_span k (takeHead (decOOO rb p))) as (i & Hi & ->); [apply Ht|].
      rewrite (adv_start _ _ _ _ Ht), Seq.sadd_sadd, Seq.gap_sadd by lia. destruct Hn; unfold len; simpl; lia. }
    intros q ->%list_elem_of_singleton. exists (entry rb (startSeq rb)). by eauto using entry_elem. }
  destruct (negb _); [split; [by eapply reads_nothing|done]|].
  destruct (scanMessage _ _ _ _ _) as [| |count] eqn:E.
  - split; [|done]. eapply reads_nothing, adv_refl, H.
  - split; [|done]. by eapply reads_nothing.
  - rewrite <- (Seq.sadd_0 (startSeq rb)) in E by apply H. apply (scanMessage_spec _ _ _ (startSeq rb) 0%nat) in E as [_ E];
      [|apply H].
    assert (forall i, 0 <= i < Z.of_nat count -> availAt rb (Seq.sadd (startSeq rb) i) = true) as Hav.
    { intros i Hi. rewrite <- (Z2Nat.id i) by lia. apply (E (Z.to_nat i)). lia. }
    pose proof (consume_spec k count rb [] H Hav) as Hc. destruct (consume count rb []) as [pkts rb'].
    destruct Hc as [-> Hc]. split; [|done]. destruct (afterRead_adv k rb') as [m Hm]; [apply Hc|].
    eexists. split; [by eapply adv_trans|]. rewrite app_nil_l, length_map, Seq.seqs_length.
    split; [by apply (seqs_map_seqOf k)|].
    split.
    { assert (Z.of_nat count <= 2 ^ k) as Hck.
      { destruct (Z.leb_spec (Z.of_nat count) (2 ^ k)); [done|]. destruct (rinv_k30 H) as [_ Hp].
        destruct (ri_avail _ _ H (2 ^ k - 1)) as [? _]; [lia|apply Hav; lia|lia]. }
      destruct (afterRead_span k rb') as (i & Hi & ->); [apply Hc|]. destruct (rinv_k30 H) as [_ Hp].
      rewrite (adv_start _ _ _ _ Hc), Seq.sadd_sadd, Seq.gap_sadd by lia.
      unfold len; rewrite length_map, Seq.seqs_length; destruct Hm; lia. }
    intros q (x & -> & Hx)%list_elem_of_fmap. exists (entry rb x). split; [by eapply entry_elem|].
    split; [|done]. apply list_elem_of_lookup in Hx as [i Hi].
    pose proof (lookup_lt_Some _ _ _ Hi) as Hlt. rewrite Seq.seqs_length in Hlt.
    rewrite Seq.seqs_lookup in Hi by (done || apply H). injection Hi as <-. apply Hav. lia.
Qed.

(** ** Insertion *)

Lemma onInsert_frame rb i :
  let rb' := onInsertNotInOrderPacket rb i in
  entries rb' = entries rb /\ mask rb' = mask rb /\ startSeq rb' = startSeq rb /\ maxSeq rb' = maxSeq rb /\
  size rb' = size rb /\ messageAPI rb' = messageAPI rb.
Proof. unfold onInsertNotInOrderPacket. cbv zeta. by repeat match goal with |- context [if ?b then _ else _] => destruct b end. Qed.

(** The packet is stored. *)
Definition stored rb (p : Packet) (arrival : Z) : RecvBuffer T :=
  let s := seqOf p in
  let rb := setSize (put rb s (mkRE p EntryAvailable arrival)) (size rb + 1) in
  if Seq.LessThan (maxSeq rb) (Seq.Inc s) || (maxSeq rb =? startSeq rb) then setMax rb (Seq.Inc s) else rb.

Lemma stored_frame rb p arrival :
  mask (stored rb p arrival) = mask rb /\ startSeq (stored rb p arrival) = startSeq rb /\
  size (stored rb p arrival) = size rb + 1 /\ messageAPI (stored rb p arrival) = messageAPI rb /\
  firstReadableOOO (stored rb p arrival) = firstReadableOOO rb.
Proof. unfold stored. by destruct (_ || _). Qed.

Definition gapOf rb (s : Z) : InsertResult :=
  if negb (maxSeq rb =? startSeq rb) && Seq.LessThan (maxSeq rb) s
  then mkIR true (maxSeq rb) (Seq.Dec s) else mkIR true 0 0.

Lemma gapOf_inserted rb s : Inserted (gapOf rb s) = true.
Proof. unfold gapOf. by destruct (_ && _). Qed.

Lemma Insert_eq k rb p arrival :
  rinv k rb -> Seq.is_seq (seqOf p) ->
  exists rb', Insert rb p arrival =
    (if (Seq.gap (startSeq rb) (seqOf p) <? 2 ^ k - 1) && is_empty (state (entry rb (seqOf p)))
     then (gapOf rb (seqOf p), rb') else (mkIR false 0 0, rb)) /\
    entries rb' = entries (stored rb p arrival) /\ mask rb' = mask rb /\ startSeq rb' = startSeq rb /\
    maxSeq rb' = maxSeq (stored rb p arrival) /\ size rb' = size rb + 1 /\ messageAPI rb' = messageAPI rb /\
    (messageAPI rb = false -> firstReadableOOO rb' = firstReadableOOO rb).
Proof.
  intros H Hs. destruct (rinv_k30 H) as [_ Hp].
  pose proof (Seq.accept_test (startSeq rb) (2 ^ k - 1) (seqOf p) ltac:(apply H) Hs ltac:(lia)) as Ht.
  unfold Insert. fold (seqOf p). rewrite (ri_len _ _ H).
  set (rb1 := if messageAPI (stored rb p arrival) && negb (Order (Hdr p)) then
      onInsertNotInOrderPacket (setNumOOO (stored rb p arrival) (numOutOfOrderPkts (stored rb p arrival) + 1))
        (index (stored rb p arrival) (seqOf p)) else stored rb p arrival).
  exists rb1.
  destruct (stored_frame rb p arrival) as (E1 & E2 & E3 & E4 & E5).
  split.
  - destruct (Seq.gap (startSeq rb) (seqOf p) <? 2 ^ k - 1); cbn [negb] in Ht.
    + apply orb_false_iff in Ht as [-> ->]. cbn [andb]. by destruct (is_empty _).
    + destruct (Seq.LessThan _ _); [done|]. cbn [orb] in Ht. by rewrite Ht.
  - subst rb1. destruct (onInsert_frame (setNumOOO (stored rb p arrival) (numOutOfOrderPkts (stored rb p arrival) + 1))
      (index (stored rb p arrival) (seqOf p))) as (F1 & F2 & F3 & F4 & F5 & F6).
    destruct (messageAPI (stored rb p arrival)) eqn:Em; cbn [andb];
      [|split_and!; auto; congruence].
    rewrite E4 in Em. destruct (negb (Order (Hdr p))).
    + rewrite F1, F2, F3, F4, F5, F6. simpl. split_and!; auto; congruence.
    + split_and!; auto; congruence.
Qed.

Lemma stored_max_seq rb p arrival :
  Seq.is_seq (seqOf p) -> Seq.is_seq (maxSeq rb) -> Seq.is_seq (maxSeq (stored rb p arrival)).
Proof. intros Hs Hm. unfold stored. destruct (_ || _); simpl; [by apply Seq.Inc_seq|done]. Qed.

Lemma stored_entries rb p arrival :
  entries (stored rb p arrival) = Ring.set (mask rb) (entries rb) (seqOf p) (mkRE p EntryAvailable arrival).
Proof. unfold stored. by destruct (_ || _). Qed.

Lemma Insert_adv k rb p arrival :
  rinv k rb -> Seq.is_seq (seqOf p) ->
  let rb' := snd (Insert rb p arrival) in
  rinv k rb' /\ startSeq rb' = startSeq rb /\ messageAPI rb' = messageAPI rb /\
  (messageAPI rb = false -> firstReadableOOO rb' = firstReadableOOO rb) /\
  (forall e, e ∈ entries rb' -> is_avail (state e) = true -> e ∈ entries rb \/ pkt e = p).
Proof.
  intros H Hs. destruct (rinv_k30 H) as [Hk Hp].
  destruct (Insert_eq k rb p arrival H Hs) as (rb' & -> & He & Hm & Hst & Hmx & Hz & Hapi & Hooo).
  destruct (Z.ltb_spec (Seq.gap (startSeq rb) (seqOf p)) (2 ^ k - 1)) as [Hlt|]; [|cbn [andb snd]; split_and!; by auto].
  destruct (is_empty (state (entry rb (seqOf p)))) eqn:Ee; cbn [andb snd]; [|split_and!; by auto].
  pose proof (Seq.gap_range (startSeq rb) (seqOf p)) as Hg. set (d := Seq.gap (startSeq rb) (seqOf p)) in *.
  assert (seqOf p = Seq.sadd (startSeq rb) d) as Hd by (symmetry; by apply Seq.sadd_gap).
  rewrite stored_entries, (ri_mask _ _ H) in He.
  split; [|split; [done|]; split; [done|]; split; [done|];
    rewrite He; intros e Hin _; apply elem_of_set in Hin as [->|]; [by right|by left]].
  pose proof (count_put (seqOf p) (mkRE p EntryAvailable arrival) H) as Hc. simpl in Hc.
  pose proof H as [? Hmk Hl Hss Hmxs Ha Hsz]. constructor; [done|by rewrite Hm| | | | |].
  - rewrite He, Ring.set_length; done.
  - by rewrite Hst.
  - rewrite Hmx. by apply stored_max_seq.
  - rewrite Hst. intros i Hi. unfold availAt, entry. rewrite He, Hm, Hmk.
    destruct (Z.eq_dec i d) as [->|Hne].
    + rewrite <- Hd. rewrite Ring.get_set_eq by done. intros _. split; [done|]. exact eq_refl.
    + rewrite Ring.get_set_ne by (rewrite Hd; apply Ring.slot_ne; lia).
      unfold availAt, entry in Ha. rewrite Hmk in Ha. by apply Ha.
  - rewrite Hz, He. rewrite Hmk in Hc. rewrite Hc. unfold availAt.
    destruct (state (entry rb (seqOf p))); try done. simpl. lia.
Qed.

(** ** Drops *)

Lemma Drop_adv k rb upTo t :
  rinv k rb -> let '(_, rb', _) := Drop rb upTo t in exists n, adv k rb rb' n.
Proof.
  intros H. unfold Drop.
  destruct (Seq.walk upTo drop_body (startSeq rb) (rb, 0, t)) as [s [[rb1 count] t1]] eqn:E.
  assert (startSeq rb1 = s /\ exists n, adv k rb rb1 n) as [_ [n Hn]].
  { pose proof (Seq.walk_ind (fun s (st : RecvBuffer T * Z * T) =>
        startSeq (st.1.1) = s /\ exists n, adv k rb (st.1.1) n) upTo drop_body (startSeq rb) (rb, 0, t)) as Hw.
    rewrite E in Hw. apply Hw; clear Hw E; [apply H|split; [done|]; exists 0; by apply adv_refl|].
    clear s rb1 count t1. intros s [[rb1 count] t1] _ (<- & n & Hn) _. cbn [fst snd] in *.
    pose proof (adv_inv _ _ _ _ Hn) as H1. unfold drop_body.
    assert (availAt rb1 (startSeq rb1) = false ->
      adv k rb (setStart (put rb1 (startSeq rb1) dropRE) (Seq.Inc (startSeq rb1))) (n + 1)) as Hskip.
    { intros Ha. eapply adv_trans; [done|]. by apply skip_adv. }
    destruct (state (entry rb1 (startSeq rb1))) eqn:Est; cbn [fst snd];
      try (split; [done|]; exists (n + 1); apply Hskip; unfold availAt; by rewrite Est).
    set (rb2 := if messageAPI rb1 && _ then _ else rb1).
    assert (adv k rb1 rb2 0 /\ size rb2 = size rb1 /\ startSeq rb2 = startSeq rb1 /\ entries rb2 = entries rb1 /\ mask rb2 = mask rb1)
      as (Hf & Hz & Hss & Hee & Hmm).
    { subst rb2. destruct (messageAPI rb1) eqn:Em; cbn [andb]; [|split; [by apply adv_refl|done]].
      destruct (negb (Order _)); [|split; [by apply adv_refl|done]].
      destruct (_ =? _); (split; [|done]); apply adv_frame; try done; by rewrite Em. }
    split; [done|]. exists (n + (0 + 1)). eapply adv_trans; [done|]. eapply adv_trans; [done|].
    pose proof (rinv_advance k rb2 dropRE (adv_inv _ _ _ _ Hf) eq_refl) as Hr.
    assert (availAt rb2 (startSeq rb2) = true) as Hav.
    { unfold availAt, entry. rewrite Hss, Hee, Hmm. unfold entry in Est. by rewrite Est. }
    rewrite Hav, Hss in Hr. rewrite <- Hss.
    rewrite <- Hss in Hr at 1 2.
    constructor; [exact Hr|simpl; apply Seq.Inc_sadd, Hf|lia|done|done|intros e; by apply put_sub|].
    apply (past_of_inv k); [exact Hr|simpl; apply Seq.Inc_sadd, Hf|lia|destruct (rinv_k30 H); lia]. }
  destruct (releaseFillerEntries_adv k rb1) as [m Hm]; [apply Hn|].
  exists (n + m + 0). eapply adv_trans; [by eapply adv_trans|].
  destruct (messageAPI (releaseFillerEntries rb1)) eqn:Em; [|apply adv_refl, Hm].
  set (rb2 := if negb (checkFirstReadableOutOfOrder _) then _ else _).
  assert (adv k (releaseFillerEntries rb1) rb2 0 /\ messageAPI rb2 = true) as [H2 Em2].
  { subst rb2. destruct (negb _); [|split; [apply adv_refl, Hm|done]].
    split; [|done]. apply adv_frame; try done; [apply Hm|by rewrite Em]. }
  replace 0 with (0 + 0) by done. eapply adv_trans; [done|].
  pose proof (updateFirst_adv k rb2 (adv_inv _ _ _ _ H2)) as Hu. by rewrite Em2 in Hu.
Qed.

Lemma ReadTSBPD_reads k rb now dt t :
  rinv k rb ->
  let '(p, ok, rb', _) := ReadTSBPD rb now dt t in reads k rb (if ok then [p] else []) rb'.
Proof.
  intros H. unfold ReadTSBPD. fold (availAt rb (startSeq rb)).
  destruct (availAt rb (startSeq rb)) eqn:Ha; cbn [negb]; [|eapply reads_nothing, adv_refl, H].
  destruct (Clock.Before _ _); [eapply reads_nothing, adv_refl, H|]. by apply takeHead_reads.
Qed.

Lemma ReadMessageTSBPD_reads k rb now dt t :
  rinv k rb -> let '(out, _, rb', _) := ReadMessageTSBPD rb now dt t in reads k rb out rb'.
Proof.
  intros H. unfold ReadMessageTSBPD. fold (availAt rb (startSeq rb)).
  destruct (availAt rb (startSeq rb)) eqn:Ha; cbn [negb]; [|eapply reads_nothing, adv_refl, H].
  destruct (Clock.Before _ _); [eapply reads_nothing, adv_refl, H|]. by apply takeHead_reads.
Qed.

Lemma ReadNext_reads k rb :
  rinv k rb -> let '(p, ok, rb') := ReadNext rb in reads k rb (if ok then [p] else []) rb'.
Proof.
  intros H. unfold ReadNext. fold (availAt rb (startSeq rb)).
  destruct (availAt rb (startSeq rb)) eqn:Ha; cbn [negb]; [by apply takeHead_reads|eapply reads_nothing, adv_refl, H].
Qed.

Lemma ReadMessage_reads k rb :
  rinv k rb -> firstReadableOOO rb < 0 ->
  let '(out, _, rb') := ReadMessage rb in reads k rb out rb'.
Proof.
  intros H Ho. unfold ReadMessage, readMessageLocked.
  destruct (Z.ltb_spec (firstReadableOOO rb) 0); [|lia].
  destruct (canReadInOrder rb) eqn:Ec; cbn [negb andb]; [|eapply reads_nothing, adv_refl, H].
  pose proof (readMessageInOrder_reads k rb H Ec) as Hr. destruct (readMessageInOrder rb) as [[out ok] rb'].
  apply Hr.
Qed.

Lemma DropTooLate_adv k rb now dt :
  rinv k rb -> exists n, adv k rb (snd (DropTooLate rb now dt)) n.
Proof.
  intros H. unfold DropTooLate.
  destruct (Seq.walk (maxSeq rb) (tooLate_body now dt) (startSeq rb) (rb, 0)) as [s [rb1 d]] eqn:E.
  assert (startSeq rb1 = s /\ exists n, adv k rb rb1 n) as [_ [n Hn]].
  { pose proof (Seq.walk_ind (fun s (st : RecvBuffer T * Z) => startSeq (st.1) = s /\ exists n, adv k rb (st.1) n)
        (maxSeq rb) (tooLate_body now dt) (startSeq rb) (rb, 0)) as Hw.
    rewrite E in Hw. apply Hw; clear Hw E; [apply H|split; [done|]; exists 0; by apply adv_refl|].
    clear s rb1 d. intros s [rb1 d] _ (<- & n & Hn) _. cbn [fst snd] in *. unfold tooLate_body.
    destruct (availAt rb1 (startSeq rb1)) eqn:Ha; [by eauto|].
    destruct (_ =? 0); [by eauto|]. destruct (Clock.Before _ _); [by eauto|].
    split; [done|]. exists (n + 1). eapply adv_trans; [done|]. apply skip_adv; [apply Hn|done|done]. }
  destruct (releaseFillerEntries_adv k rb1) as [m Hm]; [apply Hn|]. exists (n + m). by eapply adv_trans.
Qed.

(** ** Runs

    One operation of the receiver, with the packets it hands out and the packet
    that arrived. *)
Inductive rstep : RecvBuffer T -> list Packet -> list Packet -> RecvBuffer T -> Prop :=
| rs_insert rb p arrival :
    Seq.is_seq (seqOf p) -> rstep rb [p] [] (snd (Insert rb p arrival))
| rs_next rb p ok rb' : ReadNext rb = (p, ok, rb') -> rstep rb [] (if ok then [p] else []) rb'
| rs_message rb out ok rb' : ReadMessage rb = (out, ok, rb') -> rstep rb [] out rb'
| rs_tsbpd rb now dt t p ok rb' t' :
    ReadTSBPD rb now dt t = (p, ok, rb', t') -> rstep rb [] (if ok then [p] else []) rb'
| rs_message_tsbpd rb now dt t out ok rb' t' :
    ReadMessageTSBPD rb now dt t = (out, ok, rb', t') -> rstep rb [] out rb'
| rs_drop rb upTo t n rb' t' : Drop rb upTo t = (n, rb', t') -> rstep rb [] [] rb'
| rs_too_late rb now dt : rstep rb [] [] (snd (DropTooLate rb now dt)).

(** In-order mode: the message API is off and no out-of-order message is known. *)
Definition inorder rb : Prop := messageAPI rb = false /\ firstReadableOOO rb < 0.

(** Positions on the unbounded number line.  [base] is the position of the start of
    the window; a packet stands at the first position from there on that has its
    number. *)
Definition located (base : Z) rb (p : Packet) : Z * Packet := (base + Seq.gap (startSeq rb) (seqOf p), p).

(** A run that tells the position of every packet that arrives, at that moment, and
    of every packet handed out, at that moment; the window itself tells how far it
    has moved. *)
Inductive prun : Z -> RecvBuffer T -> list (Z * Packet) -> list (Z * Packet) -> Z -> RecvBuffer T -> Prop :=
| pr_nil base rb : prun base rb [] [] base rb
| pr_cons base rb i1 o1 rb1 i2 o2 last rb2 :
    rstep rb i1 o1 rb1 -> prun (base + Seq.gap (startSeq rb) (startSeq rb1)) rb1 i2 o2 last rb2 ->
    prun base rb (map (located base rb) i1 ++ i2) (map (located base rb) o1 ++ o2) last rb2.

(** What one operation does to the packets it finds, hands out and leaves. *)
Record rmoves (k : Z) rb (ins out : list Packet) rb' : Prop := mkMoves {
  mv_inv : rinv k rb';
  mv_mode : inorder rb';
  mv_seqs : map seqOf out = Seq.seqs (startSeq rb) (length out);
  mv_len : len out <= Seq.gap (startSeq rb) (startSeq rb');
  mv_out : forall p, p ∈ out -> exists e, e ∈ entries rb /\ is_avail (state e) = true /\ pkt e = p;
  mv_kept : forall e, e ∈ entries rb' -> is_avail (state e) = true ->
    e ∈ entries rb /\ Seq.gap (startSeq rb) (startSeq rb') <= Seq.gap (startSeq rb) (seqOf (pkt e)) \/
    pkt e ∈ ins /\ startSeq rb' = startSeq rb
}.

Lemma reads_moves k rb ins out rb' : inorder rb -> reads k rb out rb' -> rmoves k rb ins out rb'.
Proof.
  intros [Hapi Hooo] (n & [Hi Hs Hn Hm Ho Hsub Hpast] & Hseq & [_ Hl] & Hin). constructor; try done.
  - split; [by rewrite Hm|by rewrite Ho].
  - intros e He Ha. left. split; [by apply Hsub|]. specialize (Hpast e He Ha). pose proof (Seq.gap_range (startSeq rb) (seqOf (pkt e))).
    rewrite Hs, Seq.gap_sadd; lia.
Qed.

Lemma rstep_moves k rb ins out rb' : rinv k rb -> inorder rb -> rstep rb ins out rb' -> rmoves k rb ins out rb'.
Proof.
  intros H Hm Hst. pose proof Hm as [Hapi Hooo].
  destruct Hst as [rb p arrival Hs|rb p ok rb' E|rb out ok rb' E|rb now dt t p ok rb' t' E|rb now dt t out ok rb' t' E
                  |rb upTo t n rb' t' E|rb now dt].
  - destruct (Insert_adv k rb p arrival H Hs) as (Hi & Hs' & Hmode & Ho & Hsub).
    constructor; [done|split; [by rewrite Hmode|by rewrite Ho]|done|apply Seq.gap_range| |].
    + intros q Hq; by apply not_elem_of_nil in Hq.
    + intros e He Ha. destruct (Hsub e He Ha) as [He'|<-].
      * left. split; [done|]. rewrite Hs', Seq.gap_self. apply Seq.gap_range.
      * right. split; [by apply list_elem_of_singleton|done].
  - apply reads_moves; [done|]. pose proof (ReadNext_reads k rb H) as Hr. by rewrite E in Hr.
  - apply reads_moves; [done|]. pose proof (ReadMessage_reads k rb H Hooo) as Hr. by rewrite E in Hr.
  - apply reads_moves; [done|]. pose proof (ReadTSBPD_reads k rb now dt t H) as Hr. by rewrite E in Hr.
  - apply reads_moves; [done|]. pose proof (ReadMessageTSBPD_reads k rb now dt t H) as Hr. by rewrite E in Hr.
  - apply reads_moves; [done|]. pose proof (Drop_adv k rb upTo t H) as Hr. rewrite E in Hr. destruct Hr. by eapply reads_nothing.
  - apply reads_moves; [done|]. destruct (DropTooLate_adv k rb now dt H). by eapply reads_nothing.
Qed.

(** Strictly increasing, from [lo] on and below [hi]. *)
Definition increasing (lo hi : Z) (ps : list Z) : Prop :=
  StronglySorted Z.lt ps /\ Forall (fun i => lo <= i < hi) ps.

Lemma increasing_app lo mid hi ps qs :
  lo <= mid <= hi -> increasing lo mid ps -> increasing mid hi qs -> increasing lo hi (ps ++ qs).
Proof.
  intros Hm [Hs1 Hb1] [Hs2 Hb2]. split.
  - revert Hb1. induction Hs1 as [|x ps Hs1 IH Hx]; intros Hb1; simpl; [done|].
    apply Forall_cons_1 in Hb1 as [Hbx Hb1]. constructor; [by apply IH|]. apply Forall_app. split; [done|].
    eapply list.Forall_impl; [exact Hb2|]. simpl. lia.
  - apply Forall_app. split; (eapply list.Forall_impl; [exact Hb1 || exact Hb2|]); simpl; lia.
Qed.

Lemma increasing_seqZ a n m : 0 <= n -> a + n <= m -> increasing a m (seqZ a n).
Proof.
  intros H0 Hm. split.
  - rewrite <- (Z2Nat.id n) by lia. clear. revert a. induction (Z.to_nat n) as [|j IH]; intros a; [constructor|].
    rewrite seqZ_cons by lia. replace (Z.pred (Z.of_nat (S j))) with (Z.of_nat j) by lia.
    constructor; [apply IH|]. apply list.Forall_forall. intros x Hx%elem_of_seqZ. lia.
  - apply list.Forall_forall. intros x Hx%elem_of_seqZ. lia.
Qed.

(** Consecutive packets from the start stand at consecutive positions. *)
Lemma located_seqs base rb out : Seq.is_seq (startSeq rb) -> map seqOf out = Seq.seqs (startSeq rb) (length out) -> len out <= 2 ^ 31 ->
  map fst (map (located base rb) out) = seqZ base (len out).
Proof.
  intros Hs Hq Hl. apply list_eq. intros i. rewrite map_map, list_lookup_fmap. unfold located. cbn [fst].
  destruct (out !! i) as [p|] eqn:E.
  - pose proof (lookup_lt_Some _ _ _ E) as Hi. unfold len in *. rewrite lookup_seqZ_lt by lia. cbn. f_equal. f_equal.
    assert (map seqOf out !! i = Some (seqOf p)) as E2 by (by rewrite list_lookup_fmap, E).
    rewrite Hq, Seq.seqs_lookup in E2 by done. injection E2 as <-. rewrite Seq.gap_sadd; lia.
  - apply lookup_ge_None in E. cbn. symmetry. apply lookup_seqZ_ge. unfold len. lia.
Qed.

(** A packet the window moves toward keeps its position. *)
Lemma located_move base rb rb' p : Seq.gap (startSeq rb) (startSeq rb') <= Seq.gap (startSeq rb) (seqOf p) ->
  located (base + Seq.gap (startSeq rb) (startSeq rb')) rb' p = located base rb p.
Proof.
  intros Hg. unfold located. f_equal. enough (Seq.gap (startSeq rb') (seqOf p) = Seq.gap (startSeq rb) (seqOf p) - Seq.gap (startSeq rb) (startSeq rb')) by lia.
  pose proof (Seq.gap_range (startSeq rb) (seqOf p)). pose proof (Seq.gap_range (startSeq rb) (startSeq rb')).
  unfold Seq.gap in *. set (x := seqOf p) in *. set (a := startSeq rb) in *. set (b := startSeq rb') in *.
  replace (x - b) with ((x - a) - (b - a)) by lia. rewrite Zminus_mod. apply Z.mod_small. lia.
Qed.

(** Everything a run hands out, in order, once, and where it arrived. *)
Lemma prun_delivers k base rb ins outs last rb' :
  prun base rb ins outs last rb' -> rinv k rb -> inorder rb ->
  base <= last /\ increasing base last (map fst outs) /\
  (forall x, x ∈ outs -> x ∈ ins \/ exists e, e ∈ entries rb /\ is_avail (state e) = true /\ x = located base rb (pkt e)).
Proof.
  induction 1 as [base rb|base rb i1 o1 rb1 i2 o2 last rb2 Hst Hrun IH]; intros H Ho.
  { split; [done|]. split; [split; constructor|]. intros x Hx. by apply not_elem_of_nil in Hx. }
  destruct (rstep_moves k rb i1 o1 rb1 H Ho Hst) as [H1 Ho1 Hseq Hl Hout Hkept]. destruct (IH H1 Ho1) as (Hb & Hinc & Hin).
  pose proof (Seq.gap_range (startSeq rb) (startSeq rb1)) as Hg. set (d := Seq.gap (startSeq rb) (startSeq rb1)) in *.
  assert (0 <= len o1) by (unfold len; lia). split; [lia|]. split.
  { rewrite map_app. apply (increasing_app _ (base + d)); [lia| |done].
    rewrite located_seqs; [|apply H|done|lia]. apply increasing_seqZ; lia. }
  intros x [Hx|Hx]%elem_of_app.
  - right. apply list_elem_of_fmap in Hx as (p & -> & Hp). destruct (Hout p Hp) as (e & He & Ha & <-). by exists e.
  - destruct (Hin x Hx) as [Hi|(e & He & Ha & ->)]; [left; apply elem_of_app; by right|].
    destruct (Hkept e He Ha) as [[He' Hd]|[Hp Es]].
    + right. exists e. split; [done|]. split; [done|]. by apply located_move.
    + left. apply elem_of_app. left. unfold d. rewrite Es, Seq.gap_self, Z.add_0_r. unfold located. rewrite Es.
      by apply (list_elem_of_fmap_2 (located base rb)).
Qed.

(** ** Reports *)

Lemma GenerateLossList_eq rb w :
  Seq.is_seq (startSeq rb) -> maxSeq rb = Seq.sadd (startSeq rb) (Z.of_nat w) -> Z.of_nat w < 2 ^ 30 ->
  fst (GenerateLossList rb) =
    List.filter (fun s => is_empty (state (entry rb s))) (Seq.seqs (startSeq rb) w).
Proof.
  intros Hs Hm Hw. unfold GenerateLossList. destruct (Z.eqb_spec (startSeq rb) (maxSeq rb)) as [E|_].
  - destruct w as [|w]; [done|]. exfalso. rewrite Hm in E. apply (f_equal (Seq.gap (startSeq rb))) in E.
    rewrite Seq.gap_self, Seq.gap_sadd in E by lia. lia.
  - rewrite Hm, Seq.walk_next by done. cbn [fst]. rewrite <- (app_nil_l (List.filter _ _)).
    generalize (@nil Z) at 2 3. generalize (Seq.seqs (startSeq rb) w). intros l.
    induction l as [|x l IH]; intros acc; cbn [fold_left List.filter]; [by rewrite app_nil_r|].
    rewrite IH. unfold Seq.Value. destruct (is_empty _); [by rewrite <- app_assoc|done].
Qed.

Lemma ACKSequence_eq rb w :
  Seq.is_seq (startSeq rb) -> maxSeq rb = Seq.sadd (startSeq rb) (Z.of_nat w) -> Z.of_nat w < 2 ^ 30 ->
  ACKSequence rb =
    match List.find (fun s => is_empty (state (entry rb s))) (Seq.seqs (startSeq rb) w) with
    | Some s => s
    | None => maxSeq rb
    end.
Proof.
  intros Hs Hm Hw. unfold ACKSequence. rewrite Hm.
  pose proof (Seq.walk_find (fun s => is_empty (state (entry rb s))) (fun _ => tt) w (startSeq rb) tt Hs Hw) as Hf.
  rewrite Hf. by destruct (List.find _ _).
Qed.

Lemma find_filter {A} (p : A -> bool) l : List.find p l = head (List.filter p l).
Proof. induction l as [|x l IH]; [done|]. cbn [List.find List.filter]. by destruct (p x). Qed.

(** ** Skipping what is too late *)

Lemma find_ext_in {A} (p q : A -> bool) l :
  (forall x, x ∈ l -> p x = q x) -> List.find p l = List.find q l.
Proof.
  induction l as [|x l IH]; intros H; [done|]. cbn [List.find]. rewrite (H x) by (by left).
  destruct (q x); [done|]. apply IH. intros y Hy. apply H. by right.
Qed.

(** Marking the head leaves the other slots of the window alone. *)
Lemma skip_entry k rb e i :
  rinv k rb -> 0 < i < 2 ^ k ->
  entry (setStart (put rb (startSeq rb) e) (Seq.Inc (startSeq rb))) (Seq.sadd (startSeq rb) i) =
    entry rb (Seq.sadd (startSeq rb) i).
Proof.
  intros H Hi. unfold entry. simpl. rewrite (ri_mask _ _ H). destruct (rinv_k30 H) as [Hk _].
  apply Ring.get_set_ne. apply Ring.slot_ne_head; [done|apply H|done].
Qed.

Lemma refDelivery_eq rb dt head w :
  Seq.is_seq head -> maxSeq rb = Seq.sadd head (Z.of_nat (S w)) -> Z.of_nat w < 2 ^ 30 ->
  refDelivery rb dt head =
    match List.find (availAt rb) (Seq.seqs (Seq.Inc head) w) with
    | Some s => dt (Timestamp (Hdr (pkt (entry rb s))))
    | None => 0
    end.
Proof.
  intros Hs Hm Hw. unfold refDelivery. rewrite Hm, Seq.sadd_S by done.
  rewrite (Seq.walk_find (availAt rb)) by (done || by apply Seq.Inc_seq). by destruct (List.find _ _).
Qed.

(** The first available packet is at [m] and is due: everything before it is
    skipped. *)
Lemma tooLate_walk k now dt m : forall rb w c s,
  rinv k rb -> maxSeq rb = Seq.sadd (startSeq rb) (Z.of_nat w) -> Z.of_nat w < 2 ^ k ->
  List.find (availAt rb) (Seq.seqs (startSeq rb) w) = Some s -> s = Seq.sadd (startSeq rb) (Z.of_nat m) ->
  (m < w)%nat ->
  let d := dt (Timestamp (Hdr (pkt (entry rb s)))) in
  d <> 0 -> d <= now ->
  exists rb', Seq.walk (maxSeq rb) (tooLate_body now dt) (startSeq rb) (rb, c) = (s, (rb', c + Z.of_nat m)) /\
    startSeq rb' = s /\ entry rb' s = entry rb s /\ maxSeq rb' = maxSeq rb /\ rinv k rb'.
Proof.
  induction m as [|m IH]; intros rb w c s H Hm Hw Hf Hs Hlt d Hd0 Hdn;
    destruct (rinv_k30 H) as [_ Hp]; destruct w as [|w]; try lia;
    rewrite Seq.walk_unfold by (apply H || apply Seq.seq_u32, H);
    (assert (Seq.LessThan (startSeq rb) (maxSeq rb) = true) as -> by
      (rewrite Hm; apply Seq.LessThan_intro; [apply H|apply Seq.sadd_seq|rewrite Seq.gap_sadd; lia]));
    unfold tooLate_body at 1; cbn [Seq.seqs List.find] in Hf.
  - rewrite Seq.sadd_0 in Hs by apply H. subst s. destruct (availAt rb (startSeq rb)) eqn:Ha.
    + exists rb. rewrite Z.add_0_r. done.
    + exfalso. apply Seq.find_seqs in Hf as (i & Hi & E & _); [|by apply Seq.Inc_seq, H].
      rewrite Seq.Inc_sadd, Seq.sadd_sadd in E by apply H. apply (f_equal (Seq.gap (startSeq rb))) in E.
      rewrite Seq.gap_self, Seq.gap_sadd in E by lia. lia.
  - destruct (availAt rb (startSeq rb)) eqn:Ha.
    { exfalso. injection Hf as Hf. rewrite Hs in Hf. apply (f_equal (Seq.gap (startSeq rb))) in Hf.
      rewrite Seq.gap_self, Seq.gap_sadd in Hf by lia. lia. }
    rewrite (refDelivery_eq rb dt (startSeq rb) w) by (done || apply H || lia). rewrite Hf. fold d.
    destruct (Z.eqb_spec d 0); [done|]. unfold Clock.Before. destruct (Z.ltb_spec now d); [lia|].
    set (rb1 := setStart (put rb (startSeq rb) dropRE) (Seq.Inc (startSeq rb))).
    pose proof (skip_adv k rb dropRE H Ha eq_refl) as Hadv. fold rb1 in Hadv.
    assert (forall i, 0 < i < 2 ^ k -> entry rb1 (Seq.sadd (startSeq rb) i) = entry rb (Seq.sadd (startSeq rb) i))
      as He by (intros; by apply (skip_entry k)).
    assert (List.find (availAt rb1) (Seq.seqs (Seq.Inc (startSeq rb)) w) = Some s) as Hf1.
    { rewrite <- Hf. apply find_ext_in. intros x (i & Hi)%list_elem_of_lookup.
      pose proof (lookup_lt_Some _ _ _ Hi) as Hil. rewrite Seq.seqs_length in Hil.
      rewrite Seq.seqs_lookup in Hi by (done || apply Seq.Inc_seq, H). injection Hi as <-.
      rewrite Seq.Inc_sadd, Seq.sadd_sadd by apply H. unfold availAt. rewrite He by lia. done. }
    rewrite Seq.sadd_S in Hs, Hm by apply H.
    assert (entry rb1 s = entry rb s) as Hes.
    { rewrite Hs, Seq.Inc_sadd, Seq.sadd_sadd by apply H. apply He. lia. }
    destruct (IH rb1 w (c + 1) s (adv_inv _ _ _ _ Hadv) Hm ltac:(lia) Hf1 Hs ltac:(lia)) as (rb' & Hr & Hst & Hen & Hmx & Hi);
      [by rewrite Hes..|].
    exists rb'. change (maxSeq rb1) with (maxSeq rb) in *. change (startSeq rb1) with (Seq.Inc (startSeq rb)) in Hr.
    rewrite Hr. split; [do 2 f_equal; lia|]. rewrite Hen. done.
Qed.

(** A head with nothing due behind it stays. *)
Lemma tooLate_stop now dt rb w :
  Seq.is_seq (startSeq rb) -> maxSeq rb = Seq.sadd (startSeq rb) (Z.of_nat w) -> Z.of_nat w < 2 ^ 30 ->
  match List.find (availAt rb) (Seq.seqs (startSeq rb) w) with
  | Some s => let d := dt (Timestamp (Hdr (pkt (entry rb s)))) in s = startSeq rb \/ d = 0 \/ now < d
  | None => True
  end ->
  Seq.walk (maxSeq rb) (tooLate_body now dt) (startSeq rb) (rb, 0) = (startSeq rb, (rb, 0)).
Proof.
  intros Hs Hm Hw Hf. rewrite Seq.walk_unfold by (done || (rewrite Hm; apply Seq.seq_u32, Seq.sadd_seq)).
  destruct w as [|w].
  { rewrite Hm, Seq.sadd_0, Seq.LessThan_irrefl by done. done. }
  destruct (Seq.LessThan _ _); [|done]. unfold tooLate_body. cbn [Seq.seqs List.find] in Hf.
  destruct (availAt rb (startSeq rb)) eqn:Ha; [done|].
  rewrite (refDelivery_eq rb dt (startSeq rb) w) by (done || lia).
  destruct (List.find _ _) as [s|] eqn:E; [|done]. destruct Hf as [-> |[->|Hlt]]; [|done|].
  - apply Seq.find_seqs in E as (i & _ & _ & E & _); [|by apply Seq.Inc_seq]. by rewrite Ha in E.
  - destruct (_ =? 0); [done|]. unfold Clock.Before.
    destruct (Z.ltb_spec now (dt (Timestamp (Hdr (pkt (entry rb s)))))); [done|lia].
Qed.

Lemma releaseFiller_avail k rb :
  rinv k rb -> availAt rb (startSeq rb) = true -> releaseFillerEntries rb = rb.
Proof.
  intros H Ha. unfold releaseFillerEntries. rewrite Seq.walk_unfold by (apply H || apply Seq.seq_u32, H).
  destruct (Seq.LessThan _ _); [|done]. unfold filler_body, availAt in *.
  by destruct (state (entry rb (startSeq rb))).
Qed.

Lemma Insert_onRead rb p arrival : onRead (snd (Insert rb p arrival)) = onRead rb.
Proof.
  unfold Insert, onInsertNotInOrderPacket. cbv zeta.
  repeat (match goal with |- context [if ?b then _ else _] => destruct b end; try done).
Qed.

Lemma releaseFiller_onRead rb : Seq.is_seq (startSeq rb) -> onRead (releaseFillerEntries rb) = onRead rb.
Proof.
  intros Hs. unfold releaseFillerEntries.
  apply (Seq.walk_ind (fun _ rb' => onRead rb' = onRead rb) (maxSeq rb) filler_body (startSeq rb) rb Hs eq_refl).
  intros s rb' _ Hr _. unfold filler_body. by destruct (state (entry rb' s)).
Qed.

Lemma DropTooLate_onRead k rb now dt :
  rinv k rb -> onRead (snd (DropTooLate rb now dt)) = onRead rb.
Proof.
  intros H. unfold DropTooLate.
  pose proof (Seq.walk_ind (fun s (st : RecvBuffer T * Z) =>
      onRead (st.1) = onRead rb /\ startSeq (st.1) = s /\ Seq.is_seq s)
    (maxSeq rb) (tooLate_body now dt) (startSeq rb) (rb, 0)) as Hw.
  destruct (Seq.walk _ _ _ _) as [s [rb1 d]]. cbn [fst snd] in *. destruct Hw as (Hr & Hst & Hs).
  - apply H.
  - by split; [|split; [|apply H]].
  - intros s' [rb' d'] Hs' (Hr & Hst & _) _. unfold tooLate_body. cbn [fst snd] in *.
    destruct (availAt rb' s'); [done|]. destruct (_ =? 0); [done|]. destruct (Clock.Before _ _); [done|].
    split; [done|]. split; [done|]. by apply Seq.Inc_seq.
  - rewrite releaseFiller_onRead; [done|]. by rewrite Hst.
Qed.

(** ** Out-of-order scans terminate *)

Lemma ring_loop_finishes {A} fuel (next : Z -> Z) (body : Z -> A -> Seq.ctl A) m : forall pos a stop,
  Nat.iter m next pos = stop -> (m < fuel)%nat ->
  (forall a, exists a', body stop a = Seq.Stop a') ->
  snd (ring_loop fuel next body pos a) = true.
Proof.
  revert m. induction fuel as [|fuel IH]; intros m pos a stop Hm Hlt Hstop; [lia|]. cbn [ring_loop].
  destruct m as [|m].
  - simpl in Hm. subst pos. destruct (Hstop a) as [a' ->]. done.
  - destruct (body pos a) as [a'|a'] eqn:E; [|done]. apply (IH m _ _ stop); [|lia|done].
    rewrite <- Hm, Nat.iter_succ_r. done.
Qed.

Lemma iter_nextPos k rb m pos :
  rinv k rb -> 0 <= pos < 2 ^ k -> Nat.iter m (nextPos rb) pos = (pos + Z.of_nat m) mod 2 ^ k.
Proof.
  intros H Hp. destruct (rinv_k30 H) as [Hk Hc]. induction m as [|m IH].
  - simpl. rewrite Z.add_0_r. symmetry. by apply Z.mod_small.
  - cbn [Nat.iter nat_rect]. change (nat_rect _ pos (fun _ => nextPos rb) m) with (Nat.iter m (nextPos rb) pos).
    rewrite IH. unfold nextPos. rewrite (ri_mask _ _ H), land_ones_mod by lia.
    rewrite Zplus_mod_idemp_l. f_equal. lia.
Qed.

Lemma iter_prevPos k rb m pos :
  rinv k rb -> 0 <= pos < 2 ^ k -> Nat.iter m (prevPos rb) pos = (pos - Z.of_nat m) mod 2 ^ k.
Proof.
  intros H Hp. destruct (rinv_k30 H) as [Hk Hc]. induction m as [|m IH].
  - simpl. rewrite Z.sub_0_r. symmetry. by apply Z.mod_small.
  - cbn [Nat.iter nat_rect]. change (nat_rect _ pos (fun _ => prevPos rb) m) with (Nat.iter m (prevPos rb) pos).
    rewrite IH. unfold prevPos. rewrite (ri_mask _ _ H), (ri_len _ _ H), land_ones_mod by lia.
    replace ((pos - Z.of_nat m) mod 2 ^ k - 1 + 2 ^ k) with ((pos - Z.of_nat m) mod 2 ^ k + (2 ^ k - 1)) by lia.
    rewrite Zplus_mod_idemp_l. rewrite <- (Z_mod_plus_full (pos - Z.of_nat (S m)) 1). f_equal. lia.
Qed.

(** From any slot every slot is reached in less than a turn, both ways. *)
Lemma reach_next k rb pos stop :
  rinv k rb -> 0 <= pos < 2 ^ k -> 0 <= stop < 2 ^ k ->
  exists m, (m < ringFuel rb)%nat /\ Nat.iter m (nextPos rb) pos = stop.
Proof.
  intros H Hp Hs. destruct (rinv_k30 H) as [Hk Hc]. pose proof (ri_len _ _ H) as Hl. unfold len in Hl.
  pose proof (Z.mod_pos_bound (stop - pos) (2 ^ k) ltac:(lia)).
  exists (Z.to_nat ((stop - pos) mod 2 ^ k)). split; [unfold ringFuel; lia|].
  rewrite (iter_nextPos k) by done. rewrite Z2Nat.id, Zplus_mod_idemp_r by lia.
  replace (pos + (stop - pos)) with stop by lia. by apply Z.mod_small.
Qed.

Lemma reach_prev k rb pos stop :
  rinv k rb -> 0 <= pos < 2 ^ k -> 0 <= stop < 2 ^ k ->
  exists m, (m < ringFuel rb)%nat /\ Nat.iter m (prevPos rb) pos = stop.
Proof.
  intros H Hp Hs. destruct (rinv_k30 H) as [Hk Hc]. pose proof (ri_len _ _ H) as Hl. unfold len in Hl.
  pose proof (Z.mod_pos_bound (pos - stop) (2 ^ k) ltac:(lia)).
  exists (Z.to_nat ((pos - stop) mod 2 ^ k)). split; [unfold ringFuel; lia|].
  rewrite (iter_prevPos k) by done. rewrite Z2Nat.id, Zminus_mod_idemp_r by lia.
  replace (pos - (pos - stop)) with stop by lia. by apply Z.mod_small.
Qed.

Lemma mask_range k rb z : rinv k rb -> 0 <= Z.land z (mask rb) < 2 ^ k.
Proof.
  intros H. destruct (rinv_k30 H) as [Hk Hc]. rewrite (ri_mask _ _ H), land_ones_mod by lia.
  apply Z.mod_pos_bound. lia.
Qed.

(** The four scans never use up their fuel. *)
Lemma scans_finish k rb mn pos z st b :
  rinv k rb -> 0 <= pos < 2 ^ k -> let stop := Z.land z (mask rb) in
  snd (ring_loop (ringFuel rb) (nextPos rb) (scanRight_body rb mn stop) (nextPos rb pos) (-1)) = true /\
  snd (ring_loop (ringFuel rb) (prevPos rb) (scanLeft_body rb mn stop) (prevPos rb pos) (-1)) = true /\
  snd (ring_loop (S (ringFuel rb)) (nextPos rb) (check_body rb stop) pos (-1, b)) = true /\
  snd (ring_loop (S (ringFuel rb)) (nextPos rb) (update_body rb stop) pos st) = true.
Proof.
  intros H Hp stop. pose proof (mask_range k rb z H) as Hs. fold stop in Hs.
  assert (0 <= nextPos rb pos < 2 ^ k) as Hn by (apply (mask_range k rb), H).
  assert (0 <= prevPos rb pos < 2 ^ k) as Hv by (apply (mask_range k rb), H).
  destruct (reach_next k rb (nextPos rb pos) stop H Hn Hs) as (m1 & Hm1 & E1).
  destruct (reach_prev k rb (prevPos rb pos) stop H Hv Hs) as (m2 & Hm2 & E2).
  destruct (reach_next k rb pos stop H Hp Hs) as (m3 & Hm3 & E3).
  split; [|split; [|split]].
  - apply (ring_loop_finishes _ _ _ m1 _ _ stop E1 Hm1). intros a. unfold scanRight_body. rewrite Z.eqb_refl.
    repeat case_match; eauto.
  - apply (ring_loop_finishes _ _ _ m2 _ _ stop E2 Hm2). intros a. unfold scanLeft_body. rewrite Z.eqb_refl.
    repeat case_match; eauto.
  - apply (ring_loop_finishes _ _ _ m3 _ _ stop E3); [lia|]. intros [a c]. unfold check_body. rewrite Z.eqb_refl. eauto.
  - apply (ring_loop_finishes _ _ _ m3 _ _ stop E3); [lia|]. intros a. unfold update_body. rewrite Z.eqb_refl.
    repeat match goal with |- context [if ?b then _ else _] => destruct b end; eauto.
Qed.

(** The guard on the number of packets bounds the out-of-order read. *)
Lemma readOOO_finishes fuel (next : Z -> Z) pos (rb : RecvBuffer T) pkts b :
  (length (entries rb) + 1 - length pkts <= fuel)%nat -> (length pkts <= length (entries rb))%nat ->
  snd (ring_loop fuel next readOOO_body pos (rb, pkts, b)) = true.
Proof.
  revert pos rb pkts b. induction fuel as [|fuel IH]; intros pos rb pkts b Hf Hl; [lia|].
  cbn [ring_loop]. unfold readOOO_body at 1. destruct (negb _); [done|].
  set (p := pkt (entryAt rb pos)).
  set (rb1 := setSize (putAt (decOOO rb p) pos (mkRE zeroPacket EntryRead (arrivalTS (entryAt rb pos)))) _).
  assert (length (entries rb1) = length (entries rb)) as El.
  { subst rb1. simpl. rewrite length_insert. unfold decOOO. by destruct (_ && _). }
  destruct (isEnd p); [done|]. unfold len. rewrite length_app, El, Z.gtb_ltb. simpl length.
  destruct (Z.ltb_spec (Z.of_nat (length (entries rb))) (Z.of_nat (length pkts + 1))); [done|].
  apply IH; rewrite El, length_app; simpl; lia.
Qed.

(** ** Fresh buffers *)

Lemma get_replicate (m s : Z) n : Ring.get zeroRE m (replicate n zeroRE) s = zeroRE.
Proof. unfold Ring.get. generalize (Ring.slot m s). induction n; intros [|j]; simpl; auto. Qed.

Lemma count_avail_empty n : count_avail (replicate n zeroRE) = 0.
Proof. unfold count_avail, len. by induction n. Qed.

Lemma zero_rinv k rb :
  0 <= k <= 29 -> mask rb = 2 ^ k - 1 -> entries rb = replicate (Z.to_nat (2 ^ k)) zeroRE -> size rb = 0 ->
  Seq.is_seq (startSeq rb) -> Seq.is_seq (maxSeq rb) -> rinv k rb.
Proof.
  intros Hk Hm He Hz Hs Hx. assert (0 < 2 ^ k) by lia.
  constructor; try done.
  - rewrite He. unfold len. rewrite length_replicate. lia.
  - intros i Hi. unfold availAt, entry. by rewrite He, get_replicate.
  - by rewrite He, count_avail_empty.
Qed.

Lemma NewRecvBuffer_rinv capacity s0 :
  capacity <= 2 ^ 29 -> Seq.is_seq s0 ->
  exists k, 2 ^ k = Ring.nextPow2 capacity /\ rinv k (NewRecvBuffer (T := T) capacity s0).
Proof.
  intros Hc Hs. destruct (Ring.nextPow2_pow29 capacity Hc) as (k & Hk & E). exists k. split; [done|].
  unfold NewRecvBuffer. rewrite E. by apply zero_rinv.
Qed.

Lemma fresh_rinv k capacity s0 :
  2 ^ k = Ring.nextPow2 capacity -> 0 <= k -> capacity <= 2 ^ 29 -> Seq.is_seq s0 ->
  rinv k (NewRecvBuffer (T := T) capacity s0).
Proof.
  intros Ek H0 Hc Hs. destruct (NewRecvBuffer_rinv capacity s0 Hc Hs) as (k' & Ek' & Hr).
  replace k with k'; [done|]. destruct Hr as [? _ _ _ _ _ _]. apply (Z.pow_inj_r 2); lia.
Qed.

Lemma map_zero (l : list recvEntry) : map (fun _ => zeroRE) l = replicate (length l) zeroRE.
Proof. induction l; simpl; congruence. Qed.

Lemma SetInitialRcvSeq_rinv k rb s : rinv k rb -> Seq.is_seq s -> rinv k (SetInitialRcvSeq rb s).
Proof.
  intros H Hs. pose proof H as [Hk Hm Hl _ _ _ _]. apply zero_rinv; try done. simpl.
  rewrite map_zero. f_equal. unfold len in Hl. lia.
Qed.

(** ** Messages *)

(** [out] is one message: consecutive packets with one message number, of which
    the first begins it and exactly the last ends it. *)
Definition is_message (out : list Packet) : Prop :=
  match out with
  | [] => False
  | p :: _ =>
      isBegin p = true /\ Forall (fun q => MessageNumber (Hdr q) = MessageNumber (Hdr p)) out /\
      forall i q, out !! i = Some q -> isEnd q = Nat.eqb (S i) (length out)
  end.

Lemma readMessageInOrder_message k rb out rb' :
  rinv k rb -> readMessageInOrder rb = (out, true, rb') -> is_message out.
Proof.
  intros H. unfold readMessageInOrder. set (p := pkt (entry rb (startSeq rb))).
  destruct (Z.eqb_spec (PacketPosition (Hdr p)) PositionSingle) as [E|_].
  { intros Hr. injection Hr as <- _. split; [unfold isBegin; by rewrite E|]. split; [by constructor|].
    intros [|i] q; [|done]. intros Hq. injection Hq as <-. unfold isEnd. by rewrite E. }
  destruct (Z.eqb_spec (PacketPosition (Hdr p)) PositionFirst) as [E|]; [|done]. cbn [negb].
  destruct (scanMessage _ _ _ _ _) as [| |count] eqn:Es; try done.
  rewrite <- (Seq.sadd_0 (startSeq rb)) in Es by apply H.
  apply (scanMessage_spec _ _ _ (startSeq rb) 0%nat) in Es as [Hc Es]; [|apply H].
  assert (forall i, 0 <= i < Z.of_nat count -> availAt rb (Seq.sadd (startSeq rb) i) = true) as Hav.
  { intros i Hi. rewrite <- (Z2Nat.id i) by lia. apply (Es (Z.to_nat i)). lia. }
  pose proof (consume_spec k count rb [] H Hav) as Hcs. destruct (consume count rb []) as [pkts rb1].
  destruct Hcs as [-> _]. intros Hr. injection Hr as <- _. cbn [app].
  destruct count as [|count]; [lia|]. cbn [Seq.seqs map]. unfold is_message. fold p.
  change (p :: map (fun s => pkt (entry rb s)) (Seq.seqs (Seq.Inc (startSeq rb)) count))
    with (map (fun s => pkt (entry rb s)) (Seq.seqs (startSeq rb) (S count))).
  assert (forall i q, map (fun s => pkt (entry rb s)) (Seq.seqs (startSeq rb) (S count)) !! i = Some q ->
    MessageNumber (Hdr q) = MessageNumber (Hdr p) /\ isEnd q = Nat.eqb (S i) (S count)) as Hall.
  { intros i q Hq. pose proof (lookup_lt_Some _ _ _ Hq) as Hi. rewrite length_map, Seq.seqs_length in Hi.
    rewrite list_lookup_fmap, Seq.seqs_lookup in Hq by (done || apply H). injection Hq as <-.
    destruct (Es i ltac:(lia)) as (_ & Hm & He). done. }
  split; [unfold isBegin; by rewrite E|]. split.
  - apply Forall_lookup. intros i q Hq. by apply (Hall i q).
  - intros i q Hq. rewrite length_map, Seq.seqs_length. by apply (Hall i q).
Qed.

End Invariant.

(** ** Claims *)

(** A data packet with sequence number [n], timestamp [ts], position and message. *)
Definition samplePkt (n ts pos mn : Z) : Packet :=
  Packet.mkPacket (Packet.mkHeader None false 0 0 0 n pos false 0 false mn ts 1) [n] None.

Definition single (n : Z) : Packet := samplePkt n (10 * n) PositionSingle 1.

(** C5. Delivery is in order and at most once: whatever packets arrive (reordered,
    duplicated, lost) and however inserts, reads of every kind, drops and too-late
    skips interleave, in in-order mode the packets handed to the application stand
    at strictly increasing positions, none of them beyond what the window has
    passed, and each was handed out at the position where it arrived.  Positions
    are counted on the unbounded line by the moves of the window: a packet stands
    at the first position from the start of the window on that has its number, so a
    second delivery, or one behind the start, would stand elsewhere. *)
Theorem recv_in_order_once {T : Type} (capacity s0 last : Z) (ins outs : list (Z * Packet)) (rb : RecvBuffer T) :
  capacity <= 2 ^ 29 -> Seq.is_seq s0 -> prun 0 (NewRecvBuffer capacity s0) ins outs last rb ->
  StronglySorted Z.lt (map fst outs) /\ Forall (fun x => 0 <= fst x < last) outs /\ (forall x, x ∈ outs -> x ∈ ins).
Proof.
  intros Hc Hs Hr. destruct (NewRecvBuffer_rinv (T := T) capacity s0 Hc Hs) as (k & _ & Hk).
  destruct (prun_delivers k _ _ ins outs last rb Hr Hk) as (_ & [Hinc Hb] & Hin).
  { split; [done|]. simpl. lia. }
  split; [done|]. split; [by rewrite Forall_map in Hb|].
  intros x Hx. destruct (Hin x Hx) as [|(e & He & Ha & _)]; [done|].
  apply elem_of_replicate in He as [-> _]. done.
Qed.

(** Arrivals 1, 0, 1 and then two reads. *)
Definition run0 : RecvBuffer unit := NewRecvBuffer 4 0.
Definition run1 : RecvBuffer unit := snd (Insert run0 (single 1) 5).
Definition run2 : RecvBuffer unit := snd (Insert run1 (single 0) 6).
Definition run3 : RecvBuffer unit := snd (Insert run2 (single 1) 7).
Definition run4 : RecvBuffer unit := snd (ReadNext run3).
Definition run5 : RecvBuffer unit := snd (ReadNext run4).

Lemma recv_in_order_once_witness :
  StronglySorted Z.lt (map fst [(0, single 0); (1, single 1)]) /\
  forall x, x ∈ [(0, single 0); (1, single 1)] -> x ∈ [(1, single 1); (0, single 0); (1, single 1)].
Proof.
  assert (Seq.is_seq 0 /\ Seq.is_seq 1) as [H0 H1] by (unfold Seq.is_seq; lia).
  assert (prun 0 run0 [(1, single 1); (0, single 0); (1, single 1)] [(0, single 0); (1, single 1)] 2 run5) as R.
  { refine (pr_cons 0 run0 [single 1] [] run1 [(0, single 0); (1, single 1)] _ _ _ (rs_insert _ (single 1) 5 H1) _).
    refine (pr_cons 0 run1 [single 0] [] run2 [(1, single 1)] _ _ _ (rs_insert _ (single 0) 6 H0) _).
    refine (pr_cons 0 run2 [single 1] [] run3 [] _ _ _ (rs_insert _ (single 1) 7 H1) _).
    assert (ReadNext run3 = (single 0, true, run4)) as E3 by (vm_compute; reflexivity).
    assert (ReadNext run4 = (single 1, true, run5)) as E4 by (vm_compute; reflexivity).
    refine (pr_cons 0 run3 [] [single 0] run4 [] [(1, single 1)] _ _ (rs_next _ (single 0) true run4 E3) _).
    refine (pr_cons 1 run4 [] [single 1] run5 [] [] _ _ (rs_next _ (single 1) true run5 E4) _). exact (pr_nil 2 run5). }
  destruct (recv_in_order_once (T := unit) 4 0 2 _ _ run5 ltac:(lia) H0 R) as (H & _ & K). exact (conj H K).
Defined.

(** C34. Insert accepts a packet iff its sequence number is less than capacity
    ahead of the start and its slot is free; an accepted packet is stored in
    its own slot, every other slot of the ring is untouched and the size grows
    by one; a refused packet (old, duplicate, too far ahead) changes nothing.
    While the highest received number is in the window, the reported range is
    exactly the numbers between it and the packet, and a gap is announced exactly
    when there is one, unless the number 0 is all that is missing, which is never
    announced ([recv_gap_zero_hidden]). *)
Theorem recv_insert_exact {T : Type} (k : Z) (rb : RecvBuffer T) (p : Packet) (arrival : Z) :
  rinv k rb -> Seq.is_seq (seqOf p) ->
  let d := Seq.gap (startSeq rb) (seqOf p) in
  let '(r, rb') := Insert rb p arrival in
  Inserted r = (d <? 2 ^ k - 1) && is_empty (state (entry rb (seqOf p))) /\
  (Inserted r = false -> rb' = rb) /\
  (Inserted r = true ->
     rinv k rb' /\ entry rb' (seqOf p) = mkRE p EntryAvailable arrival /\ size rb' = size rb + 1 /\
     (forall s, Ring.slot (mask rb) s <> Ring.slot (mask rb) (seqOf p) -> entry rb' s = entry rb s) /\
     (forall w, maxSeq rb = Seq.sadd (startSeq rb) w -> 0 < w < 2 ^ k ->
        (w < d -> GapStart r = maxSeq rb /\ GapEnd r = Seq.sadd (startSeq rb) (d - 1) /\
           HasGap r = negb ((maxSeq rb =? 0) && (d =? w + 1))) /\
        (d <= w -> HasGap r = false))).
Proof.
  intros H Hs. destruct (rinv_k30 H) as [Hk Hp]. pose proof (Insert_adv k rb p arrival H Hs) as [Hi _].
  destruct (Insert_eq k rb p arrival H Hs) as (rb' & E & He & Hm & Hst & Hmx & Hz & Hapi & Hooo).
  cbv zeta. rewrite E in Hi |- *. clear E. set (d := Seq.gap (startSeq rb) (seqOf p)) in *.
  destruct ((d <? 2 ^ k - 1) && is_empty (state (entry rb (seqOf p)))) eqn:Ea; [|done].
  rewrite gapOf_inserted. split; [done|]. split; [done|]. intros _.
  split; [done|]. rewrite stored_entries in He. unfold entry. rewrite He, Hm, (ri_mask _ _ H).
  split; [by apply Ring.get_set_eq; [|apply H]|]. split; [done|].
  split; [intros s Hne; by apply Ring.get_set_ne|].
  pose proof (Seq.gap_range (startSeq rb) (seqOf p)) as Hg. fold d in Hg.
  assert (seqOf p = Seq.sadd (startSeq rb) d) as Hd by (symmetry; by apply Seq.sadd_gap).
  apply andb_true_iff in Ea as [Ea _]. apply Z.ltb_lt in Ea.
  intros w Hw Hwr. unfold gapOf.
  assert ((maxSeq rb =? startSeq rb) = false) as ->.
  { zbool. intros E. apply (f_equal (Seq.gap (startSeq rb))) in E.
    rewrite Hw, Seq.gap_sadd, Seq.gap_self in E by lia. lia. }
  assert (Seq.gap (maxSeq rb) (seqOf p) = (d - w) mod 2 ^ 31) as Hgm.
  { rewrite Hw, Hd. unfold Seq.gap, Seq.sadd. rewrite Zminus_mod_idemp_l, Zminus_mod_idemp_r. f_equal. lia. }
  split; intros Hc; cbn [negb andb].
  - rewrite Seq.LessThan_intro; [|apply H|done|rewrite Hgm, Z.mod_small; lia].
    assert (Seq.Dec (seqOf p) = Seq.sadd (startSeq rb) (d - 1)) as Hdec by (rewrite Seq.Dec_sadd, Hd, Seq.sadd_sadd by done; f_equal).
    split; [done|]. split; [exact Hdec|]. unfold HasGap. cbn [Inserted GapStart GapEnd andb]. rewrite Hdec.
    destruct (Z.eqb_spec (maxSeq rb) 0) as [E0|]; [|done]. cbn [negb orb andb]. f_equal. apply eq_bool_prop_intro.
    rewrite !Is_true_true, !Z.eqb_eq. rewrite <- E0, Hw. split; [intros E|intros ->; f_equal; lia].
    apply (f_equal (Seq.gap (startSeq rb))) in E. rewrite !Seq.gap_sadd in E by lia. lia.
  - destruct (Seq.LessThan (maxSeq rb) (seqOf p)) eqn:El; [|done].
    apply Seq.LessThan_true in El as [El _]; [|apply H|done]. rewrite Hgm in El.
    destruct (Z.eq_dec d w) as [E|]; [replace (d - w) with 0 in El by lia; rewrite Zmod_0_l in El; lia|].
    rewrite <- (Z_mod_plus_full _ 1), Z.mod_small in El; lia.
Qed.

Definition gapBuf : RecvBuffer unit := snd (Insert (NewRecvBuffer 8 100) (single 100) 1).

Lemma gapBuf_rinv : rinv 3 gapBuf.
Proof.
  apply (Insert_adv 3 (NewRecvBuffer 8 100) (single 100) 1); [|split; vm_compute; congruence].
  apply fresh_rinv; [reflexivity|lia|lia|unfold Seq.is_seq; lia].
Qed.

Lemma recv_insert_exact_witness :
  GapStart (fst (Insert gapBuf (single 104) 2)) = 101 /\ GapEnd (fst (Insert gapBuf (single 104) 2)) = 103 /\
  HasGap (fst (Insert gapBuf (single 104) 2)) = true.
Proof.
  assert (Seq.is_seq (seqOf (single 104))) as Hs by (split; vm_compute; congruence).
  assert (Inserted (fst (Insert gapBuf (single 104) 2)) = true) as Hi by (vm_compute; reflexivity).
  assert (maxSeq gapBuf = Seq.sadd (startSeq gapBuf) 1) as Hm by (vm_compute; reflexivity).
  pose proof (recv_insert_exact 3 gapBuf (single 104) 2 gapBuf_rinv Hs) as Hx. cbv zeta in Hx.
  destruct (Insert gapBuf (single 104) 2) as [r rb']. cbn [fst] in *. destruct Hx as (_ & _ & Hx).
  destruct (Hx Hi) as (_ & _ & _ & _ & Hw). destruct (Hw 1 Hm ltac:(lia)) as [Hg _].
  apply Hg. vm_compute. reflexivity.
Defined.

(** Packets 2^31 - 1 and 1 arrive: the range of the missing number 0 looks like no
    gap at all. *)
Definition wrapBuf : RecvBuffer unit := snd (Insert (NewRecvBuffer 8 (2 ^ 31 - 1)) (single (2 ^ 31 - 1)) 1).
Theorem recv_gap_zero_hidden :
  let '(r, rb) := Insert wrapBuf (single 1) 2 in
  Inserted r = true /\ HasGap r = false /\ fst (GenerateLossList rb) = [0].
Proof. vm_compute. done. Qed.

(** Acknowledgement and loss report describe the window exactly: the loss
    list is the sequence of numbers between the start and the highest received
    one whose slot is empty, and the acknowledgement number is the first of
    them, or one past the highest received number when nothing is missing. *)
Theorem recv_ack_and_losses {T : Type} (rb : RecvBuffer T) (w : nat) :
  Seq.is_seq (startSeq rb) -> maxSeq rb = Seq.sadd (startSeq rb) (Z.of_nat w) -> Z.of_nat w < 2 ^ 30 ->
  let losses := fst (GenerateLossList rb) in
  losses = List.filter (fun s => is_empty (state (entry rb s))) (Seq.seqs (startSeq rb) w) /\
  ACKSequence rb = match losses with [] => maxSeq rb | s :: _ => s end.
Proof.
  intros Hs Hm Hw. cbv zeta. rewrite (GenerateLossList_eq rb w), (ACKSequence_eq rb w), find_filter by done.
  split; [done|]. by destruct (List.filter _ _).
Qed.

Definition lossBuf : RecvBuffer unit :=
  snd (Insert (snd (Insert (NewRecvBuffer 8 0x7FFFFFFE) (single 0x7FFFFFFE) 1)) (single 1) 2).

Lemma recv_ack_and_losses_witness :
  fst (GenerateLossList lossBuf) = [0x7FFFFFFF; 0] /\ ACKSequence lossBuf = 0x7FFFFFFF.
Proof.
  destruct (recv_ack_and_losses lossBuf 4) as [Hl Ha]; [split; vm_compute; congruence|vm_compute; reflexivity|lia|].
  rewrite Ha, Hl. split; vm_compute; reflexivity.
Defined.

(** C36. Too-late skipping unblocks the reader and drops no packet that is there: if the
    first available packet is due, exactly the missing numbers before it are
    skipped and the next timed read returns that packet; otherwise (a delivery time
    of 0 counts as not due) nothing is counted as dropped. *)
Theorem recv_too_late_skip {T : Type} (k : Z) (rb : RecvBuffer T) (now : Z) (dt : Z -> Z) (w : nat) (t : T) :
  rinv k rb -> maxSeq rb = Seq.sadd (startSeq rb) (Z.of_nat w) -> Z.of_nat w < 2 ^ k ->
  let '(n, rb') := DropTooLate rb now dt in
  match List.find (availAt rb) (Seq.seqs (startSeq rb) w) with
  | Some s =>
      let e := entry rb s in
      let d := dt (Timestamp (Hdr (pkt e))) in
      if negb (d =? 0) && (d <=? now)
      then n = Seq.gap (startSeq rb) s /\ ReadTSBPD rb' now dt t = (pkt e, true, takeHead rb', call (onRead rb') (Timestamp (Hdr (pkt e))) t)
      else n = 0
  | None => n = 0
  end.
Proof.
  intros H Hm Hw. destruct (rinv_k30 H) as [_ Hp]. unfold DropTooLate.
  pose proof (tooLate_stop now dt rb w ltac:(apply H) Hm ltac:(lia)) as Hstop.
  destruct (List.find _ _) as [s|] eqn:Ef; [|by rewrite Hstop].
  set (d := dt _) in *. destruct (Z.eqb_spec d 0) as [Hd|Hd]; cbn [negb andb]; [rewrite Hstop; [done|by auto]|].
  destruct (Z.leb_spec d now) as [Hn|Hn]; [|rewrite Hstop; [done|by auto]].
  pose proof Ef as Ef'. apply Seq.find_seqs in Ef' as (m & Hlt & Hs & Ha & _); [|apply H].
  destruct (tooLate_walk k now dt m rb w 0 s H Hm Hw Ef Hs Hlt Hd Hn) as (rb' & -> & Hst & He & Hmx & Hi).
  assert (availAt rb' (startSeq rb') = true) as Ha' by (unfold availAt; by rewrite Hst, He).
  rewrite (releaseFiller_avail k rb' Hi Ha'). split.
  - rewrite Hs, Seq.gap_sadd by lia. done.
  - unfold ReadTSBPD. unfold availAt in Ha'. rewrite Ha'. cbn [negb]. rewrite Hst, He. fold d.
    unfold Clock.Before. destruct (Z.ltb_spec now d); [lia|done].
Qed.

Definition lateBuf : RecvBuffer unit := snd (Insert (NewRecvBuffer 8 100) (single 103) 1).

Lemma lateBuf_rinv : rinv 3 lateBuf.
Proof.
  apply (Insert_adv 3 (NewRecvBuffer 8 100) (single 103) 1); [|split; vm_compute; congruence].
  apply fresh_rinv; [reflexivity|lia|lia|unfold Seq.is_seq; lia].
Qed.

Lemma recv_too_late_skip_witness : fst (DropTooLate lateBuf 1100 (fun ts => ts + 50)) = 3.
Proof.
  assert (maxSeq lateBuf = Seq.sadd (startSeq lateBuf) 4) as Hm by (vm_compute; reflexivity).
  pose proof (recv_too_late_skip 3 lateBuf 1100 (fun ts => ts + 50) 4 tt lateBuf_rinv Hm ltac:(lia)) as Hx.
  destruct (DropTooLate lateBuf 1100 (fun ts => ts + 50)) as [n rb'].
  assert (List.find (availAt lateBuf) (Seq.seqs (startSeq lateBuf) 4) = Some 103) as E by (vm_compute; reflexivity).
  rewrite E in Hx. change (n = 3 /\ ReadTSBPD rb' 1100 (fun ts => ts + 50) tt = (single 103, true, takeHead rb', call (onRead rb') 1030 tt)) in Hx.
  apply Hx.
Defined.

(** A message is read whole or not at all: what ReadMessage returns in
    in-order mode is a sequence of consecutive packets from the start that carry
    one message number, begins with a first (or single) packet, ends with the
    only last (or single) packet in it; on failure nothing is returned. *)
Theorem recv_message_whole {T : Type} (k : Z) (rb rb' : RecvBuffer T) (out : list Packet) (ok : bool) :
  rinv k rb -> firstReadableOOO rb < 0 -> ReadMessage rb = (out, ok, rb') ->
  rinv k rb' /\ map seqOf out = Seq.seqs (startSeq rb) (length out) /\
  (if ok then is_message out else out = []).
Proof.
  intros H Ho E. pose proof (ReadMessage_reads k rb H Ho) as Hr. rewrite E in Hr.
  destruct Hr as (n & Hadv & Hseq & _). split; [apply Hadv|]. split; [done|].
  unfold ReadMessage, readMessageLocked in E. destruct (Z.ltb_spec (firstReadableOOO rb) 0); [|lia].
  destruct (canReadInOrder rb) eqn:Ec; cbn [negb andb] in E; [|by injection E as <- <- _].
  pose proof (readMessageInOrder_reads k rb H Ec) as Hr. rewrite E in Hr. destruct Hr as [_ Hr].
  destruct ok; [by eapply readMessageInOrder_message|by apply Hr].
Qed.

Definition msgBuf : RecvBuffer unit :=
  snd (Insert (snd (Insert (NewRecvBuffer 4 7) (samplePkt 7 0 PositionFirst 3) 1)) (samplePkt 8 0 PositionLast 3) 2).

Lemma msgBuf_rinv : rinv 2 msgBuf.
Proof.
  apply (Insert_adv 2 (snd (Insert (NewRecvBuffer 4 7) (samplePkt 7 0 PositionFirst 3) 1))); [|split; vm_compute; congruence].
  apply Insert_adv; [|split; vm_compute; congruence].
  apply fresh_rinv; [reflexivity|lia|lia|unfold Seq.is_seq; lia].
Qed.

Lemma recv_message_whole_witness :
  is_message [samplePkt 7 0 PositionFirst 3; samplePkt 8 0 PositionLast 3].
Proof.
  assert (ReadMessage msgBuf = ([samplePkt 7 0 PositionFirst 3; samplePkt 8 0 PositionLast 3], true,
            snd (ReadMessage msgBuf))) as E by (vm_compute; reflexivity).
  apply (recv_message_whole 2 msgBuf _ _ true msgBuf_rinv ltac:(vm_compute; reflexivity) E).
Defined.

(** A drop leaves marks behind: after a DROPREQ the slots of the dropped
    numbers stay marked although the window has moved past them, so a new packet
    that is inside the window but falls into such a slot (one ring later) is
    refused as a duplicate, and since the slot is not empty it is not reported
    lost either. *)
Theorem recv_stale_drop_mark :
  let rb0 := snd (Insert (NewRecvBuffer (T := unit) 4 0) (single 0) 1) in
  let '(n, rb1, _) := Drop rb0 3 tt in
  let '(r, rb2) := Insert rb1 (single 4) 9 in
  let '(r5, rb3) := Insert rb2 (single 5) 9 in
  n = 3 /\ startSeq rb1 = 3 /\ Seq.gap (startSeq rb1) 4 < 4 - 1 /\ size rb1 = 0 /\
  Inserted r = false /\ rb2 = rb1 /\ fst (GenerateLossList rb1) = [].
Proof. by vm_compute. Qed.

(** A drop beyond the highest received number leads to a false gap: the
    next packet inserted reports the numbers from the old maximum on, all of
    which lie before the start of the window, as newly lost. *)
Theorem recv_gap_after_drop :
  let rb0 := snd (Insert (NewRecvBuffer (T := unit) 64 0) (single 0) 1) in
  let '(_, rb1, _) := Drop rb0 10 tt in
  let '(r, _) := Insert rb1 (single 10) 9 in
  startSeq rb1 = 10 /\ HasGap r = true /\ GapStart r = 1 /\ GapEnd r = 9.
Proof. by vm_compute. Qed.

(** The out-of-order scans terminate: on any well-formed ring the scans to
    the right and to the left, the re-check and the re-scan of the ring, and the
    out-of-order read itself all stop within one turn of the ring. *)
Theorem recv_scans_terminate {T : Type} (k : Z) (rb : RecvBuffer T) (mn pos z : Z) (st : rescan) :
  rinv k rb -> 0 <= pos < 2 ^ k ->
  let stop := Z.land z (mask rb) in
  snd (ring_loop (ringFuel rb) (nextPos rb) (scanRight_body rb mn stop) (nextPos rb pos) (-1)) = true /\
  snd (ring_loop (ringFuel rb) (prevPos rb) (scanLeft_body rb mn stop) (prevPos rb pos) (-1)) = true /\
  snd (ring_loop (S (ringFuel rb)) (nextPos rb) (check_body rb stop) pos (-1, false)) = true /\
  snd (ring_loop (S (ringFuel rb)) (nextPos rb) (update_body rb stop) pos st) = true /\
  snd (ring_loop (S (ringFuel rb)) (nextPos rb) readOOO_body pos (rb, [], false)) = true.
Proof.
  intros H Hp. destruct (scans_finish k rb mn pos z st false H Hp) as (H1 & H2 & H3 & H4).
  repeat (split; [done|]). apply readOOO_finishes; unfold ringFuel; simpl; lia.
Qed.

Lemma recv_scans_terminate_witness :
  snd (ring_loop (S (ringFuel msgBuf)) (nextPos msgBuf) readOOO_body 3 (msgBuf, [], false)) = true.
Proof. apply (recv_scans_terminate 2 msgBuf 0 3 0 (mkRescan 0 0 0 0) msgBuf_rinv). lia. Defined.

End RecvBuffer.
