(* ===== verification/Fifo.v ===== *)
(** * The core's queues ([internal/core/fifo.go])

    A slice with a head index that is reset when it drains.  [contents] is the
    queue it stands for; push appends to it and pop removes its first element. *)
From Stdlib Require Import ZArith Lia.
From stdpp Require Import base numbers list.
From S2P Require Import Prelude.
Local Open Scope Z_scope.

Module Fifo.

Record fifo (A : Type) : Type := mkFifo { items : list A; head : nat }.
Arguments mkFifo {A}.
Arguments items {A}.
Arguments head {A}.

Section Operations.
Context {A : Type} (zero : A).
Implicit Types (q : fifo A).

Definition empty : fifo A := mkFifo [] 0.

Definition push q (v : A) : fifo A := mkFifo (items q ++ [v]) (head q).

Definition reset q : fifo A := mkFifo [] 0.

Definition pop q : A * bool * fifo A :=
  if Nat.leb (length (items q)) (head q) then (zero, false, reset q) else
  let v := nth (head q) (items q) zero in
  let q := mkFifo (<[head q := zero]> (items q)) (S (head q)) in
  let q := if Nat.leb (length (items q)) (head q) then reset q else q in
  (v, true, q).

Definition len q : Z := Z.of_nat (length (items q)) - Z.of_nat (head q).

(** ** The queue *)

Definition contents q : list A := drop (head q) (items q).

Definition wf q : Prop := (head q <= length (items q))%nat.

Lemma push_wf q v : wf q -> wf (push q v).
Proof. unfold wf. simpl. rewrite length_app. simpl. lia. Qed.

Lemma push_contents q v : wf q -> contents (push q v) = contents q ++ [v].
Proof. unfold wf, contents. simpl. intros H. by rewrite drop_app_le. Qed.

Lemma len_contents q : wf q -> len q = Z.of_nat (length (contents q)).
Proof. unfold wf, len, contents. rewrite length_drop. lia. Qed.

(** Popping takes the first element; a queue found empty is reset. *)
Lemma pop_next q :
  let '(v, ok, q') := pop q in
  match contents q with
  | [] => ok = false /\ q' = empty
  | x :: l => v = x /\ ok = true /\ contents q' = l
  end.
Proof.
  unfold contents, pop. destruct (Nat.leb_spec (length (items q)) (head q)) as [Hle|Hlt].
  - rewrite drop_ge by done. done.
  - destruct (lookup_lt_is_Some_2 (items q) (head q) Hlt) as [x Hx].
    rewrite (drop_S _ x) by done. rewrite nth_lookup, Hx. cbn [items head]. rewrite length_insert.
    destruct (Nat.leb_spec (length (items q)) (S (head q))); split; [done| |done|].
    + split; [done|]. simpl. by rewrite drop_ge.
    + cbn [items head]. split; [done|]. apply drop_insert_lt. lia.
Qed.

Lemma pop_contents q :
  wf q ->
  let '(v, ok, q') := pop q in
  wf q' /\
  match contents q with
  | [] => ok = false /\ contents q' = []
  | x :: l => v = x /\ ok = true /\ contents q' = l
  end.
Proof.
  intros H. pose proof (pop_next q) as Hn. destruct (pop q) as [[v ok] q'] eqn:E. split.
  - revert E. unfold pop, wf in *. destruct (Nat.leb_spec (length (items q)) (head q)); [by intros [= _ _ <-]|].
    cbn [items head]. rewrite length_insert. destruct (Nat.leb_spec (length (items q)) (S (head q))); intros [= _ _ <-]; [done|].
    cbn [items head]. rewrite length_insert. lia.
  - destruct (contents q); [destruct Hn as [-> ->]|]; done.
Qed.

End Operations.

End Fifo.
