(* ===== verification/Output.v ===== *)
(** * Effects of a connection ([internal/core/output.go], [timer.go], [event.go])

    The core performs no I/O: it queues outputs (packets to send and timers to
    arm) that the host performs, and events for the application. *)
From Stdlib Require Import ZArith.
From stdpp Require Import base numbers list.
From S2P Require Import Prelude Packet.
Import Packet(Packet).
Local Open Scope Z_scope.

Module Output.

Inductive TimerID : Type :=
| TimerHandshake
| TimerACK
| TimerNAK
| TimerEXP
| TimerTSBPD
| TimerSndPacing
| TimerLinger
| TimerKeepalive
| TimerPeerIdle
| TimerKMRefresh.

#[global] Instance TimerID_eq_dec : EqDecision TimerID.
Proof. solve_decision. Defined.

(** [Owned] says whether the host owns the packet's buffer. *)
Inductive Output : Type :=
| SendPacket (p : Packet) (Owned : bool)
| SetTimer (id : TimerID) (deadline : Z)
| ClearTimer (id : TimerID).

(** The errors a [Failed] event carries. *)
Inductive ConnError : Type :=
| ErrPeerIdle
| RejectError (code : Z)
| ErrNotHSv5 (version extField : Z)
| ErrPeerISN (isn : Z)
| ErrISNEcho (got want : Z)
| ErrFlowWindow (n : Z)
| ErrNoKeyMaterial
| ErrRefused.

Record DataReceived : Type := mkData {
  d_Data : list Z;
  d_Seq : Z;
  d_MsgNo : Z;
  d_Boundary : Z
}.

Inductive Event : Type :=
| Connected (peerSocketID : Z)
| EData (d : DataReceived)
| Failed (err : ConnError)
| Closed
| KeyRefreshNeeded (keySize : Z).

(** What is visible of a queue of outputs. *)
Definition isSend (o : Output) : bool := match o with SendPacket _ _ => true | _ => false end.
Definition armed (id : TimerID) (o : Output) : bool :=
  match o with SetTimer i _ => bool_decide (i = id) | _ => false end.

End Output.
