(* ===== verification/PayloadPool.v ===== *)
(** * Recycled payloads ([internal/core/payloadpool.go])

    The copies of received payloads that [emitData] hands to the application come
    from a bounded pool of arrays.  The arrays are shared: here they live in a heap,
    a slice names its array, and recycling one that is still in use would change
    what its reader sees.  The session copies out before it puts back, which is
    enough. *)
From Stdlib Require Import ZArith Lia.
From stdpp Require Import base numbers list option gmap relations.
From S2P Require Import Prelude Packet.
Local Open Scope Z_scope.

Module PayloadPool.

Definition payloadClass : Z := Packet.MaxPayloadSize.
Definition payloadPoolMaxRetained : Z := 4096.

(** A slice from the start of an array: the array, its length and its capacity. *)
Record slice : Type := mkSlice { arr : nat; length_ : Z; cap : Z }.

(** The arrays with their contents, the next one to allocate, and the channel. *)
Record Heap : Type := mkHeap { mem : gmap nat (list Z); fresh : nat; payloadPool : list slice }.
#[global] Instance eta_heap : Eta Heap := fun h => mkHeap (mem h) (fresh h) (payloadPool h).
#[global] Instance fld_h_mem : Field mem. Proof. derive_field. Defined.
#[global] Instance fld_h_fresh : Field fresh. Proof. derive_field. Defined.
#[global] Instance fld_h_pool : Field payloadPool. Proof. derive_field. Defined.

(** [make([]byte, n, c)]: zeros. *)
Definition makeSlice (n c : Z) (h : Heap) : slice * Heap :=
  (mkSlice (fresh h) n c, h <| mem ::= <[fresh h := make (Z.to_nat c)]> |> <| fresh ::= S |>).

Definition getPayload (n : Z) (h : Heap) : slice * Heap :=
  if n >? payloadClass then makeSlice n n h else
  match payloadPool h with
  | b :: rest => (mkSlice (arr b) n (cap b), h <| payloadPool := rest |>)
  | [] => makeSlice n payloadClass h
  end.

Definition PutPayload (b : slice) (h : Heap) : Heap :=
  if negb (cap b =? payloadClass) then h else
  let b := mkSlice (arr b) 0 (cap b) in
  if len (payloadPool h) <? payloadPoolMaxRetained then h <| payloadPool ::= fun q => q ++ [b] |> else h.

(** What a slice shows, and [copy(b, data)] into one that is long enough. *)
Definition contents (b : slice) (h : Heap) : list Z := take (Z.to_nat (length_ b)) (default [] (mem h !! arr b)).
Definition copyInto (b : slice) (data : list Z) (h : Heap) : Heap :=
  h <| mem ::= <[arr b := overwrite (default [] (mem h !! arr b)) data]> |>.

(** The payload of [emitData]. *)
Definition emitPayload (data : list Z) (h : Heap) : slice * Heap :=
  let '(b, h) := getPayload (len data) h in (b, copyInto b data h).

(** ** Who holds what *)

(** The payloads that were emitted and not put back, with what they must show. *)
Definition held : Type := list (slice * list Z).

Inductive pstep : Heap * held -> Heap * held -> Prop :=
| p_emit data b h h' live : emitPayload data h = (b, h') -> pstep (h, live) (h', live ++ [(b, data)])
(* A reassembled message has a buffer of its own. *)
| p_message data b h h' live : makeSlice (len data) (len data) h = (b, h') -> pstep (h, live) (copyInto b data h', live ++ [(b, data)])
| p_put l1 b data l2 h : pstep (h, l1 ++ (b, data) :: l2) (PutPayload b h, l1 ++ l2).

(** Every array in the pool or held is held once, exists, and is large enough. *)
Record pinv (h : Heap) (live : held) : Prop := mkPinv {
  pi_nodup : NoDup (map arr (payloadPool h) ++ map (fun x => arr (fst x)) live);
  pi_mem : forall b, b ∈ payloadPool h \/ b ∈ map fst live -> (arr b < fresh h)%nat /\ exists l, mem h !! arr b = Some l /\ len l = cap b;
  pi_pool : Forall (fun b => cap b = payloadClass) (payloadPool h);
  pi_size : len (payloadPool h) <= payloadPoolMaxRetained;
  pi_live : Forall (fun x => contents (fst x) h = snd x) live
}.

Lemma overwrite_take buf src : (length src <= length buf)%nat -> take (length src) (overwrite buf src) = src /\ length (overwrite buf src) = length buf.
Proof.
  revert src. induction buf as [|x buf IH]; intros [|y src] H; simpl in *; try done; try lia.
  destruct (IH src ltac:(lia)) as [E1 E2]. by rewrite E1, E2.
Qed.

(** A slice of an array that nobody else has, filled with [data]. *)
Lemma emit_inv h live b data l :
  NoDup (map arr (payloadPool h) ++ map (fun x => arr (fst x)) live ++ [arr b]) ->
  (forall x, x ∈ payloadPool h \/ x ∈ map fst live -> (arr x < fresh h)%nat /\ exists l, mem h !! arr x = Some l /\ len l = cap x) ->
  Forall (fun b => cap b = payloadClass) (payloadPool h) -> len (payloadPool h) <= payloadPoolMaxRetained ->
  Forall (fun x => contents (fst x) h = snd x) live ->
  (arr b < fresh h)%nat -> mem h !! arr b = Some l -> len l = cap b -> len data <= cap b -> length_ b = len data ->
  pinv (copyInto b data h) (live ++ [(b, data)]).
Proof.
  intros Hn Hm Hp Hs Hl Hf Hb Hc Hd Hlen. destruct (overwrite_take l data) as [E1 E2]; [unfold len in *; lia|].
  assert (forall x, x ∈ payloadPool h \/ x ∈ map fst live -> arr x <> arr b) as Hne.
  { intros x Hx E. rewrite app_assoc in Hn. apply NoDup_app in Hn as (_ & Hd' & _). apply (Hd' (arr x)); [|rewrite E; by apply list_elem_of_singleton].
    apply elem_of_app. destruct Hx as [Hx|Hx]; [left; by apply list_elem_of_fmap_2|right].
    apply list_elem_of_fmap in Hx as (y & -> & Hy). by apply (list_elem_of_fmap_2 (fun z => arr (fst z))). }
  constructor; unfold copyInto; fields.
  - by rewrite map_app.
  - intros x Hx. rewrite map_app, elem_of_app in Hx. rewrite Hb.
    destruct (decide (arr x = arr b)) as [E|E].
    + rewrite E, lookup_insert_eq. split; [done|]. exists (overwrite l data). split; [done|].
      destruct Hx as [Hx|[Hx|Hx]]; [by destruct (Hne x); [left|]|by destruct (Hne x); [right|]|].
      apply list_elem_of_singleton in Hx as ->. cbn [fst]. unfold len in *. lia.
    + rewrite lookup_insert_ne by done. apply Hm. destruct Hx as [Hx|[Hx|Hx]]; [by left|by right|].
      apply list_elem_of_singleton in Hx. cbn [fst] in Hx. by subst x.
  - done.
  - done.
  - apply Forall_app. split.
    + apply Forall_forall. intros [x d] Hx. rewrite Forall_forall in Hl. rewrite <- (Hl _ Hx). unfold contents. fields. cbn [fst].
      rewrite lookup_insert_ne; [done|]. intros E. apply (Hne x); [|done]. right. by apply (list_elem_of_fmap_2 fst live (x, d)).
    + constructor; [|constructor]. cbn [fst snd]. unfold contents. fields. rewrite lookup_insert_eq, Hb, Hlen. cbn [default].
      unfold len. by rewrite Nat2Z.id.
Qed.

Lemma make_inv h live n c data : pinv h live -> n = len data -> n <= c ->
  let '(b, h') := makeSlice n c h in pinv (copyInto b data h') (live ++ [(b, data)]).
Proof.
  intros [Hn Hm Hp Hs Hl] -> Hc. unfold makeSlice. pose proof (Zle_0_nat (length data)).
  assert (forall x, x ∈ payloadPool h \/ x ∈ map fst live -> arr x <> fresh h) as Hne by (intros x Hx E; apply Hm in Hx as [Hx _]; lia).
  apply (emit_inv _ _ _ _ (make (Z.to_nat c))); fields; cbn [arr length_ cap]; try done; try lia.
  - rewrite app_assoc. apply NoDup_app. split; [done|]. split; [|apply NoDup_singleton]. intros x Hx ->%list_elem_of_singleton.
    apply elem_of_app in Hx as [Hx|Hx]; apply list_elem_of_fmap in Hx as (y & E & Hy); [by apply (Hne y); [left|]|].
    apply (Hne (fst y)); [right; by apply list_elem_of_fmap_2|done].
  - intros x Hx. destruct (Hm x Hx) as [Hlt (l & E & Hlen)]. split; [lia|]. exists l. rewrite lookup_insert_ne by (intros E'; by apply (Hne x)). done.
  - apply Forall_forall. intros [x d] Hx. rewrite Forall_forall in Hl. rewrite <- (Hl _ Hx). unfold contents. fields. cbn [fst].
    rewrite lookup_insert_ne; [done|]. intros E. apply (Hne x); [|done]. right. by apply (list_elem_of_fmap_2 fst live (x, d)).
  - by rewrite lookup_insert_eq.
  - unfold len, make in *. rewrite length_replicate. lia.
Qed.

(** An array from the pool. *)
Lemma recycle_inv h live b rest data : pinv h live -> payloadPool h = b :: rest -> len data <= payloadClass ->
  pinv (copyInto (mkSlice (arr b) (len data) (cap b)) data (h <| payloadPool := rest |>)) (live ++ [(mkSlice (arr b) (len data) (cap b), data)]).
Proof.
  intros [Hn Hm Hp Hs Hl] Eb Hd. rewrite Eb in *. apply Forall_cons in Hp as [Hc Hp].
  destruct (Hm b) as [Hlt (l & El & Hlen)]; [left; by left|].
  apply (emit_inv _ _ _ _ l); fields; cbn [arr length_ cap]; try done.
  - cbn [map] in Hn. rewrite <- app_comm_cons, Permutation_cons_append, <- app_assoc in Hn. exact Hn.
  - intros x Hx. apply Hm. destruct Hx as [Hx|Hx]; [left; by right|by right].
  - unfold len in *. simpl in Hs. lia.
  - by rewrite Hc.
Qed.

Lemma put_inv h l1 b data l2 : pinv h (l1 ++ (b, data) :: l2) -> pinv (PutPayload b h) (l1 ++ l2).
Proof.
  intros [Hn Hm Hp Hs Hl]. rewrite map_app in Hn, Hm. cbn [map fst] in Hn, Hm.
  assert (pinv h (l1 ++ l2)) as H0.
  { constructor; try done.
    - rewrite map_app. rewrite app_assoc in *. apply NoDup_app in Hn as (N1 & N2 & N3). apply NoDup_cons in N3 as [N3 N4].
      apply NoDup_app. split; [done|]. split; [|done]. intros x Hx Hx2. apply (N2 x Hx). by right.
    - intros x Hx. apply Hm. rewrite map_app, elem_of_app in Hx. destruct Hx as [Hx|[Hx|Hx]]; [by left|right; apply elem_of_app; by left|].
      right. apply elem_of_app. right. by right.
    - apply Forall_app in Hl as [Hl1 Hl2]. apply Forall_cons in Hl2 as [_ Hl2]. by apply Forall_app. }
  unfold PutPayload. destruct (Z.eqb_spec (cap b) payloadClass) as [Hc|]; [|done]. cbn [negb]. cbv zeta.
  destruct (Z.ltb_spec (len (payloadPool h)) payloadPoolMaxRetained); [|done]. destruct H0 as [N0 M0 P0 S0 L0].
  constructor; fields; try done.
  - rewrite map_app. cbn [map arr]. rewrite <- app_assoc. rewrite map_app.
    rewrite <- Permutation_middle in Hn. exact Hn.
  - intros x Hx. rewrite elem_of_app in Hx. destruct Hx as [[Hx|Hx]|Hx]; [apply M0; by left| |apply M0; by right].
    apply list_elem_of_singleton in Hx as ->. cbn [arr cap]. apply (Hm b). right. apply elem_of_app. right. by left.
  - apply Forall_app. split; [done|]. by constructor.
  - unfold len in *. rewrite length_app. cbn [length]. lia.
Qed.

Lemma pstep_inv s s' : pstep s s' -> pinv (fst s) (snd s) -> pinv (fst s') (snd s').
Proof.
  intros St H. destruct St as [data b h h' live E|data b h h' live E|l1 b data l2 h]; cbn [fst snd] in *; [| |by eapply put_inv].
  - unfold emitPayload, getPayload in E. destruct (Z.gtb_spec (len data) payloadClass).
    + pose proof (make_inv h live (len data) (len data) data H eq_refl ltac:(lia)) as Hi. destruct (makeSlice _ _ h) as [b0 h0]. by simplify_eq.
    + destruct (payloadPool h) as [|b0 rest] eqn:Ep.
      * pose proof (make_inv h live (len data) payloadClass data H eq_refl ltac:(lia)) as Hi. destruct (makeSlice _ _ h) as [b1 h1]. by simplify_eq.
      * simplify_eq. by apply recycle_inv.
  - pose proof (make_inv h live (len data) (len data) data H eq_refl ltac:(lia)) as Hi. by rewrite E in Hi.
Qed.

Definition heap0 : Heap := mkHeap ∅ 0 [].

(** Recycling is invisible: however payloads are emitted and put back, each of them
    once and by the one that holds it, a payload shows the bytes it was made from
    until it is put back; and the pool retains at most 4096 arrays of the largest
    packet's size. *)
Theorem payload_pool_sound (h : Heap) (live : held) :
  rtc pstep (heap0, []) (h, live) ->
  Forall (fun x => contents (fst x) h = snd x) live /\
  Forall (fun b => cap b = payloadClass) (payloadPool h) /\ len (payloadPool h) <= payloadPoolMaxRetained.
Proof.
  intros R. assert (pinv h live) as [_ _ Hp Hs Hl]; [|done].
  assert (pinv (fst (heap0, @nil (slice * list Z))) (snd (heap0, @nil (slice * list Z)))) as H0.
  { constructor; cbn; try done; [constructor|]. intros b [Hb|Hb]; by apply not_elem_of_nil in Hb. }
  change (pinv (fst (h, live)) (snd (h, live))). revert H0. induction R as [|x y z St _ IH]; [done|]. intros Hx. by apply IH, (pstep_inv x).
Qed.

(** Two payloads; the first is put back and its array serves the third. *)
Definition run3 : Heap * held :=
  let '(b1, h1) := emitPayload [1; 2] heap0 in
  let '(b2, h2) := emitPayload [3] h1 in
  let '(b3, h3) := emitPayload [4; 5; 6] (PutPayload b1 h2) in
  (h3, [(b2, [3]); (b3, [4; 5; 6])]).

Lemma run3_reached : rtc pstep (heap0, []) run3.
Proof.
  unfold run3. destruct (emitPayload [1; 2] heap0) as [b1 h1] eqn:E1. destruct (emitPayload [3] h1) as [b2 h2] eqn:E2.
  destruct (emitPayload [4; 5; 6] (PutPayload b1 h2)) as [b3 h3] eqn:E3.
  eapply rtc_l; [exact (p_emit _ _ _ _ [] E1)|]. eapply rtc_l; [exact (p_emit _ _ _ _ _ E2)|].
  eapply rtc_l; [exact (p_put [] b1 [1; 2] [(b2, [3])] h2)|]. eapply rtc_l; [exact (p_emit _ _ _ _ _ E3)|]. apply rtc_refl.
Qed.

Lemma payload_pool_sound_witness :
  map (fun x => (arr (fst x), contents (fst x) (fst run3))) (snd run3) = [(1%nat, [3]); (0%nat, [4; 5; 6])] /\
  Forall (fun x => contents (fst x) (fst run3) = snd x) (snd run3).
Proof.
  split; [vm_compute; reflexivity|]. pose proof run3_reached as R. destruct run3 as [h live]. apply (payload_pool_sound h live R).
Defined.

(** The rule is needed: put back while it is still queued, a payload changes under
    its reader. *)
Lemma early_put_corrupts :
  let '(b1, h1) := emitPayload [1; 2] heap0 in
  let '(_, h2) := emitPayload [7; 8] (PutPayload b1 h1) in
  contents b1 h1 = [1; 2] /\ contents b1 h2 = [7; 8].
Proof. vm_compute. done. Qed.

End PayloadPool.
