(* ===== verification/Delivery.v ===== *)
(** * Handing packets to the application ([internal/core/conn.go])

    The end of the receive path of a connection: [deliver], [deliverTSBPD] and
    [emitData]/[emitMessage], over the receive buffer, the delivery timer and
    the event queue.  The client side is proved against an interface,
    [PlayoutTimer] with its laws: a timer that follows the sender's clock and
    knows when a packet is due.  [Tsbpd.Timer] implements it. *)
From Stdlib Require Import ZArith Lia Sorting.Sorted.
From stdpp Require Import base numbers list option.
From S2P Require Import Prelude Seq Packet Clock Tsbpd Ring RecvBuffer Fifo Output.
Import Packet(Packet, Hdr, Data, Timestamp, SequenceNumber, MessageNumber, PacketPosition, Release).
Import Output(Output, Event, EData, SetTimer, TimerTSBPD, DataReceived, mkData).
Import RecvBuffer(RecvBuffer, ReadNext, ReadTSBPD, DropTooLate, PeekNextAvailableTimestamp, rinv, seqOf,
  startSeq, entries, onRead, availAt, is_avail, state, pkt, entry).
Local Open Scope Z_scope.

Module Delivery.

(** ** The interface of the delivery timer *)

(** [dueTime] is [DeliveryTime], [seen] is [UpdateWrap]. *)
Class PlayoutTimer (T : Type) : Type := {
  dueTime : T -> Z -> Z;
  seen : Z -> T -> T
}.

(** [follows m b t]: the newest packet was sent at [m] on the sender's clock,
    and sender time 0 plays out at local time [b].  A packet near [m] is due at
    [b] plus its sender time, and showing it to the timer keeps it on track. *)
Class PlayoutLaws (T : Type) {P : PlayoutTimer T} : Type := {
  follows : Z -> Z -> T -> Prop;
  follows_due m b t x :
    follows m b t -> Tsbpd.arrives m x -> is_i64 (b + x) -> dueTime t (Tsbpd.wire x) = b + x;
  follows_seen m b t x :
    follows m b t -> Tsbpd.arrives m x -> follows (Z.max m x) b (seen (Tsbpd.wire x) t)
}.

#[export] Instance Timer_Playout : PlayoutTimer Tsbpd.Timer := {
  dueTime := Tsbpd.DeliveryTime;
  seen ts t := Tsbpd.UpdateWrap t ts
}.

#[export] Program Instance Timer_Laws : PlayoutLaws Tsbpd.Timer := {
  follows m b t :=
    Tsbpd.tracks m t /\ b = Tsbpd.timeBase t + Tsbpd.delay t + Tsbpd.driftOffset t
}.
Next Obligation.
  intros m b t x [Ht ->] Hx Hi. cbn [dueTime Timer_Playout].
  rewrite (Tsbpd.deliveryTime_eq t _ x) by (by apply (Tsbpd.tracks_fullTS m)).
  replace (Tsbpd.timeBase t + x + Tsbpd.delay t + Tsbpd.driftOffset t)
    with (Tsbpd.timeBase t + Tsbpd.delay t + Tsbpd.driftOffset t + x) by lia.
  by apply i64_id.
Qed.
Next Obligation.
  intros m b t x [Ht ->] Hx. cbn [seen Timer_Playout]. split; [by apply Tsbpd.tracks_step|].
  by destruct (Tsbpd.UpdateWrap_frame t (Tsbpd.wire x)) as (-> & -> & ->).
Qed.

Section Path.
Context {T : Type} {P : PlayoutTimer T}.

(** The fields of [Conn] the delivery functions use. *)
Record Path : Type := mkPath {
  recvBuf : RecvBuffer T;
  tsbpdTimer : T;
  recvDropped : Z;
  events : Fifo.fifo Event;
  outputs : Fifo.fifo Output
}.

Definition dataOf (p : Packet) : DataReceived :=
  mkData (Data p) (SequenceNumber (Hdr p)) (MessageNumber (Hdr p)) (PacketPosition (Hdr p)).

Definition emitData (c : Path) (p : Packet) : Path :=
  mkPath (recvBuf c) (tsbpdTimer c) (recvDropped c) (Fifo.push (events c) (EData (dataOf p))) (outputs c).

(** [pkts[0]] of an empty message is an index panic ([None]). *)
Definition emitMessage (c : Path) (pkts : list Packet) : option Path :=
  match pkts with
  | [] => None
  | first :: _ =>
      let data := concat (map Data pkts) in
      Some (mkPath (recvBuf c) (tsbpdTimer c) (recvDropped c)
        (Fifo.push (events c)
           (EData (mkData data (SequenceNumber (Hdr first)) (MessageNumber (Hdr first)) (PacketPosition (Hdr first)))))
        (outputs c))
  end.

Definition withBuf (c : Path) (rb : RecvBuffer T) (t : T) : Path :=
  mkPath rb t (recvDropped c) (events c) (outputs c).

(** The loops end when a read fails; every read that succeeds takes a packet
    out of the buffer, whose size bounds the fuel.  The flag says the loop ended
    by itself. *)
Fixpoint deliver_loop (fuel : nat) (c : Path) : Path * bool :=
  match fuel with
  | O => (c, false)
  | S fuel' =>
      let '(p, ok, rb) := ReadNext (recvBuf c) in
      let c := withBuf c rb (tsbpdTimer c) in
      if negb ok then (c, true) else deliver_loop fuel' (emitData c p)
  end.

Definition deliver (c : Path) : Path * bool :=
  deliver_loop (S (Z.to_nat (RecvBuffer.size (recvBuf c)))) c.

(** [dt] is the method of the live timer: it sees the updates of [onRead]. *)
Fixpoint deliverTSBPD_loop (fuel : nat) (now : Z) (c : Path) : Path * bool :=
  match fuel with
  | O => (c, false)
  | S fuel' =>
      let '(p, ok, rb, t) := ReadTSBPD (recvBuf c) now (dueTime (tsbpdTimer c)) (tsbpdTimer c) in
      let c := withBuf c rb t in
      if negb ok then (c, true) else deliverTSBPD_loop fuel' now (emitData c p)
  end.

Definition deliverTSBPD (now : Z) (c : Path) : Path * bool :=
  let '(dropped, rb) := DropTooLate (recvBuf c) now (dueTime (tsbpdTimer c)) in
  let c := withBuf c rb (tsbpdTimer c) in
  let c := if dropped >? 0
           then mkPath (recvBuf c) (tsbpdTimer c) (u64 (recvDropped c + u64 dropped)) (events c) (outputs c)
           else c in
  let '(c, fin) := deliverTSBPD_loop (S (Z.to_nat (RecvBuffer.size (recvBuf c)))) now c in
  let '(ts, ok) := PeekNextAvailableTimestamp (recvBuf c) in
  (if ok then mkPath (recvBuf c) (tsbpdTimer c) (recvDropped c) (events c)
                (Fifo.push (outputs c) (SetTimer TimerTSBPD (dueTime (tsbpdTimer c) ts)))
   else c, fin).

(** ** What the playout loop delivers *)

(** The packets waiting in the buffer have arrived recently, and the newest
    arrival was sent at [m]. *)
Definition buffered (m b : Z) (rb : RecvBuffer T) : Prop :=
  forall e, e ∈ entries rb -> is_avail (state e) = true ->
    exists x, Timestamp (Hdr (pkt e)) = Tsbpd.wire x /\ Tsbpd.arrives m x /\ x <= m /\ is_i64 (b + x).

(** When a packet was sent, seen from [m]: the latest time up to [m] that has its
    wire timestamp. *)
Definition sentAt (m : Z) (p : Packet) : Z := m - (m - Timestamp (Hdr p)) mod 2 ^ 32.

Lemma sentAt_eq m x p : Timestamp (Hdr p) = Tsbpd.wire x -> Tsbpd.arrives m x -> x <= m -> sentAt m p = x.
Proof.
  intros E Ha Hx. unfold sentAt. rewrite E. unfold Tsbpd.wire, Clock.SRTTimestamp, u32. rewrite Zminus_mod_idemp_r, Z.mod_small; [lia|].
  unfold Tsbpd.arrives, Tsbpd.wrapThreshold, Clock.Second, Clock.Millisecond in Ha. lia.
Qed.

Lemma avail_size {U} k (rb : RecvBuffer U) :
  rinv k rb -> availAt rb (startSeq rb) = true -> 1 <= RecvBuffer.size rb.
Proof.
  intros H Ha. rewrite (RecvBuffer.ri_size _ _ H). unfold RecvBuffer.count_avail, len.
  pose proof (RecvBuffer.entry_elem k rb (startSeq rb) H) as He.
  destruct (List.filter _ (entries rb)) eqn:E; [|simpl; lia]. exfalso.
  assert (In (entry rb (startSeq rb)) (List.filter (fun e => is_avail (state e)) (entries rb))) as Hin.
  { apply filter_In. split; [by apply list_elem_of_In|done]. }
  by rewrite E in Hin.
Qed.

Context {L : PlayoutLaws T}.

Lemma deliverTSBPD_loop_spec k m b now fuel : forall c : Path,
  rinv k (recvBuf c) -> onRead (recvBuf c) = Some seen -> follows m b (tsbpdTimer c) ->
  buffered m b (recvBuf c) -> Fifo.wf (events c) -> (Z.to_nat (RecvBuffer.size (recvBuf c)) < fuel)%nat ->
  exists c' out, deliverTSBPD_loop fuel now c = (c', true) /\
    Fifo.contents (events c') = Fifo.contents (events c) ++ map (fun p => EData (dataOf p)) out /\
    map seqOf out = Seq.seqs (startSeq (recvBuf c)) (length out) /\
    Forall (fun p => b + sentAt m p <= now) out /\
    (availAt (recvBuf c') (startSeq (recvBuf c')) = true ->
       now < b + sentAt m (pkt (entry (recvBuf c') (startSeq (recvBuf c'))))) /\
    rinv k (recvBuf c') /\ follows m b (tsbpdTimer c').
Proof.
  induction fuel as [|fuel IH]; intros c H Hr Hf Hb Hw Hfuel; [lia|].
  cbn [deliverTSBPD_loop]. unfold ReadTSBPD. fold (availAt (recvBuf c) (startSeq (recvBuf c))).
  set (e := entry (recvBuf c) (startSeq (recvBuf c))).
  destruct (availAt (recvBuf c) (startSeq (recvBuf c))) eqn:Ha; cbn [negb].
  2: { eexists _, []. split; [done|]. cbn [map app]. rewrite app_nil_r. split; [done|]. split; [done|].
       split; [constructor|]. simpl. rewrite Ha. done. }
  pose proof (RecvBuffer.entry_elem k (recvBuf c) (startSeq (recvBuf c)) H) as He. fold e in He.
  destruct (Hb e He Ha) as (x & Hts & Harr & Hxm & Hi).
  rewrite Hts, (follows_due m b (tsbpdTimer c) x Hf Harr Hi). unfold Clock.Before.
  destruct (Z.ltb_spec now (b + x)) as [Hlt|Hge]; cbn [negb].
  { eexists _, []. split; [done|]. cbn [map app]. rewrite app_nil_r. split; [done|]. split; [done|].
    split; [constructor|]. simpl. split; [|done]. intros _. fold e. by rewrite (sentAt_eq m x). }
  rewrite Hr. cbn [RecvBuffer.call].
  pose proof (RecvBuffer.takeHead_adv k (recvBuf c) H Ha) as Hadv.
  pose proof (avail_size k (recvBuf c) H Ha) as Hsz.
  set (c1 := emitData _ (pkt e)).
  destruct (IH c1) as (c' & out & Hloop & Hc & Hs & Hdue & Hhead & Hinv & Hfol); subst c1; cbn [recvBuf tsbpdTimer events emitData withBuf] in *.
  - apply Hadv.
  - done.
  - pose proof (follows_seen m b (tsbpdTimer c) x Hf Harr) as Hfs. rewrite Z.max_l in Hfs by done. done.
  - intros e' He' Ha'. apply Hb; [|done]. by apply (RecvBuffer.adv_sub _ _ _ _ Hadv).
  - by apply Fifo.push_wf.
  - simpl. lia.
  - exists c', (pkt e :: out). rewrite Hloop. split; [done|].
    rewrite Hc, Fifo.push_contents by done. cbn [map]. rewrite <- app_assoc. split; [done|].
    split.
    { cbn [length Seq.seqs]. f_equal; [by apply (RecvBuffer.head_seq k)|]. rewrite Hs. done. }
    split; [|done]. constructor; [|done]. by rewrite (sentAt_eq m x).
Qed.

End Path.
Arguments Path : clear implicits.

(** ** Claims *)

(** C11. Playout is timely, ordered and complete: when the timer follows the
    sender's clock (the newest packet was sent at [m]) and the buffered packets were
    sent in the 30 seconds before that, one run of [deliverTSBPD] terminates and
    emits consecutive packets only, none of them before its playout time, which is
    the base [b] (time base, latency and drift) + the time it was sent at, starting
    behind what was skipped as too late; afterwards the packet at the head of the
    buffer, if there is one, is not due yet. *)
Theorem playout_timely {T : Type} {P : PlayoutTimer T} {L : PlayoutLaws T} (k m b now : Z) (c : Path T) :
  rinv k (recvBuf c) -> onRead (recvBuf c) = Some seen -> follows m b (tsbpdTimer c) ->
  buffered m b (recvBuf c) -> Fifo.wf (events c) ->
  exists c' n out, deliverTSBPD now c = (c', true) /\ 0 <= n /\
    Fifo.contents (events c') = Fifo.contents (events c) ++ map (fun p => EData (dataOf p)) out /\
    map seqOf out = Seq.seqs (Seq.sadd (startSeq (recvBuf c)) n) (length out) /\
    Forall (fun p => b + sentAt m p <= now) out /\
    (availAt (recvBuf c') (startSeq (recvBuf c')) = true ->
       now < b + sentAt m (pkt (entry (recvBuf c') (startSeq (recvBuf c'))))) /\
    rinv k (recvBuf c') /\ follows m b (tsbpdTimer c').
Proof.
  intros H Hr Hf Hb Hw. unfold deliverTSBPD.
  destruct (RecvBuffer.DropTooLate_adv k (recvBuf c) now (dueTime (tsbpdTimer c)) H) as [n Hn].
  pose proof (RecvBuffer.DropTooLate_onRead k (recvBuf c) now (dueTime (tsbpdTimer c)) H) as Hr'.
  destruct (DropTooLate _ _ _) as [dropped rb]. cbn [snd] in *. rewrite Hr in Hr'.
  assert (buffered m b rb) as Hb' by (intros e He Ha; apply Hb; [by apply (RecvBuffer.adv_sub _ _ _ _ Hn)|done]).
  set (c1 := if dropped >? 0 then _ else withBuf c rb (tsbpdTimer c)).
  assert (recvBuf c1 = rb /\ tsbpdTimer c1 = tsbpdTimer c /\ events c1 = events c) as (E1 & E2 & E3)
    by (subst c1; by destruct (dropped >? 0)).
  destruct (deliverTSBPD_loop_spec k m b now (S (Z.to_nat (RecvBuffer.size (recvBuf c1)))) c1)
    as (c' & out & -> & Hc & Hs & Hdue & Hhead & Hinv & Hfol);
    rewrite ?E1, ?E2, ?E3 in *; try done; [apply Hn|lia|].
  rewrite (RecvBuffer.adv_start _ _ _ _ Hn) in Hs. pose proof (RecvBuffer.adv_n _ _ _ _ Hn).
  destruct (PeekNextAvailableTimestamp (recvBuf c')) as [ts [|]]; eexists _, n, out; (split; [done|]); done.
Qed.

(** A connection with two packets sent at 10 and 20 and a latency of 100. *)
Definition samplePath : Path Tsbpd.Timer :=
  let rb := RecvBuffer.SetOnRead (RecvBuffer.NewRecvBuffer 8 1) (Some seen) in
  let rb := snd (RecvBuffer.Insert rb (RecvBuffer.single 1) 12) in
  let rb := snd (RecvBuffer.Insert rb (RecvBuffer.single 2) 22) in
  mkPath rb (Tsbpd.New 100 0) 0 Fifo.empty Fifo.empty.

Lemma samplePath_rinv : rinv 3 (recvBuf samplePath).
Proof.
  unfold samplePath. cbn [recvBuf].
  apply RecvBuffer.Insert_adv; [|split; vm_compute; congruence].
  apply RecvBuffer.Insert_adv; [|split; vm_compute; congruence].
  eapply RecvBuffer.rinv_frame, RecvBuffer.fresh_rinv; try reflexivity; try lia. unfold Seq.is_seq. lia.
Qed.

Lemma samplePath_buffered : buffered 20 100 (recvBuf samplePath).
Proof.
  intros e He Ha. assert (Timestamp (Hdr (pkt e)) = 10 \/ Timestamp (Hdr (pkt e)) = 20) as Ht.
  { apply list_elem_of_In in He. vm_compute in He.
    repeat (destruct He as [<-|He]; [try done; vm_compute; tauto|]). done. }
  destruct Ht as [Ht|Ht]; [exists 10|exists 20]; (split; [done|]);
    unfold Tsbpd.arrives, Tsbpd.wrapThreshold, Clock.Second, Clock.Millisecond, is_i64; lia.
Qed.

Lemma playout_timely_witness :
  exists c' n out, deliverTSBPD 115 samplePath = (c', true) /\ 0 <= n /\
    Forall (fun p => 100 + sentAt 20 p <= 115) out.
Proof.
  destruct (playout_timely 3 20 100 115 samplePath samplePath_rinv) as (c' & n & out & E & Hn & _ & _ & Hd & _).
  - unfold samplePath. cbn [recvBuf]. by rewrite !RecvBuffer.Insert_onRead.
  - split; [apply (Tsbpd.New_tracks 100 0 20); vm_compute; intuition congruence|reflexivity].
  - apply samplePath_buffered.
  - apply Nat.le_refl.
  - exists c', n, out. split; [exact E|]. split; [exact Hn|exact Hd].
Defined.

End Delivery.
