(* ===== verification/FilterConfig.v ===== *)
(** * Packet filter configuration ([internal/filter/filter.go])

    The parameters of the row/column FEC filter as they are exchanged in the
    handshake's filter extension: [ParseConfig], [FormatConfig],
    [NegotiateConfig] and the registry of filter factories.  Go strings are
    Rocq strings; [strings.Split], [strings.SplitN] with limit 2,
    [strconv.Atoi] and the [%d] verb are modelled as far as the code uses
    them.  Theorems: the text format round-trips and whatever is accepted is a
    valid configuration. *)
From Stdlib Require Import ZArith Lia String Ascii.
From stdpp Require Import base numbers list option strings.
From S2P Require Import Prelude.
Local Open Scope Z_scope.

Module FilterConfig.
Local Open Scope string_scope.
Local Open Scope Z_scope.

(** ** Strings *)

(** [strings.Split(s, string(sep))]. *)
Fixpoint Split (sep : ascii) (s : string) : list string :=
  match s with
  | "" => [""]
  | String c s' =>
      if Ascii.eqb c sep then "" :: Split sep s'
      else match Split sep s' with
           | [] => [String c ""]
           | p :: ps => String c p :: ps
           end
  end.

(** [strings.SplitN(s, string(sep), 2)]. *)
Fixpoint SplitN2 (sep : ascii) (s : string) : list string :=
  match s with
  | "" => [""]
  | String c s' =>
      if Ascii.eqb c sep then ["" ; s']
      else match SplitN2 sep s' with
           | [] => [String c ""]
           | p :: ps => String c p :: ps
           end
  end.

Definition digit (c : ascii) : option Z :=
  let n := Z.of_N (N_of_ascii c) in
  if (48 <=? n) && (n <=? 57) then Some (n - 48) else None.

Fixpoint parseDigits (s : string) (acc : Z) : option Z :=
  match s with
  | "" => Some acc
  | String c s' => match digit c with Some d => parseDigits s' (acc * 10 + d) | None => None end
  end.

(** [strconv.Atoi] for a 64-bit [int]; the error value only carries text. *)
Definition Atoi (s : string) : option Z :=
  let '(neg, body) :=
    match s with
    | String "-" s' => (true, s')
    | String "+" s' => (false, s')
    | _ => (false, s)
    end in
  match body with
  | "" => None
  | _ =>
      match parseDigits body 0 with
      | None => None
      | Some n =>
          let z := if neg : bool then - n else n in
          if (- 2 ^ 63 <=? z) && (z <? 2 ^ 63) then Some z else None
      end
  end.

(** The [%d] verb for a 64-bit [int]: at most 19 digits. *)
Definition digitChar (d : Z) : ascii := ascii_of_N (Z.to_N (48 + d)).

Fixpoint fmtDigits (fuel : nat) (n : Z) (acc : string) : string :=
  match fuel with
  | O => acc
  | S fuel' =>
      let acc := String (digitChar (n mod 10)) acc in
      if n <? 10 then acc else fmtDigits fuel' (n / 10) acc
  end.

Definition fmtD (z : Z) : string :=
  if z <? 0 then String "-" (fmtDigits 20 (- z) "") else fmtDigits 20 z "".

(** ** Configuration *)

Inductive ARQLevel : Type := ARQAlways | ARQOnReq | ARQNever.
Inductive Layout : Type := LayoutStaircase | LayoutEven.

#[export] Instance ARQLevel_eq_dec : EqDecision ARQLevel.
Proof. solve_decision. Defined.
#[export] Instance Layout_eq_dec : EqDecision Layout.
Proof. solve_decision. Defined.

Record Config : Type := mkConfig {
  Cols : Z;
  Rows : Z;
  layout : Layout;
  ARQ : ARQLevel;
  ColsOnly : bool
}.

Inductive FilterError : Type :=
| ErrEmptyConfig
| ErrUnknownFilter (name : string)
| ErrInvalidParameter (part : string)
| ErrColsValue (val : string)
| ErrColsRange (v : Z)
| ErrRowsValue (val : string)
| ErrRowsRange (v : Z)
| ErrLayout (val : string)
| ErrARQ (val : string)
| ErrUnknownParameter (key : string)
| ErrColsMandatory
| ErrColsMismatch (local peer : Z)
| ErrRowsMismatch (local peer : Z)
| ErrLayoutMismatch
| ErrARQMismatch.

(** ** Registry

    [registry] maps filter names to factories, [F] being the type of
    factories; [init] registers the built-in one. *)
Section Registry.
Context {F : Type}.

Definition registry : Type := list (string * F).

Definition Register (name : string) (factory : F) (r : registry) : registry := (name, factory) :: r.

Fixpoint Lookup (r : registry) (name : string) : option F :=
  match r with
  | [] => None
  | (n, f) :: r' => if String.eqb n name then Some f else Lookup r' name
  end.

Definition FilterName (config : string) : string :=
  match SplitN2 "," config with [] => "" | p :: _ => p end.

(** ** Parsing *)

Definition setCols (c : Config) (v : Z) : Config := mkConfig v (Rows c) (layout c) (ARQ c) (ColsOnly c).
Definition setRows (c : Config) (v : Z) : Config := mkConfig (Cols c) v (layout c) (ARQ c) (ColsOnly c).
Definition setLayout (c : Config) (l : Layout) : Config := mkConfig (Cols c) (Rows c) l (ARQ c) (ColsOnly c).
Definition setARQ (c : Config) (a : ARQLevel) : Config := mkConfig (Cols c) (Rows c) (layout c) a (ColsOnly c).

(** One [key:value] parameter: the body of the loop over [parts[1:]]. *)
Definition parseParam (st : Config * bool) (part : string) : result FilterError (Config * bool) :=
  let '(cfg, hasCols) := st in
  match SplitN2 ":" part with
  | [key; val] =>
      if String.eqb key "cols" then
        match Atoi val with
        | None => Err (ErrColsValue val)
        | Some v => if (v <? 2) then Err (ErrColsRange v) else Ok (setCols cfg v, true)
        end
      else if String.eqb key "rows" then
        match Atoi val with
        | None => Err (ErrRowsValue val)
        | Some v => if (v <=? 0) then Err (ErrRowsRange v) else Ok (setRows cfg v, hasCols)
        end
      else if String.eqb key "layout" then
        if String.eqb val "staircase" then Ok (setLayout cfg LayoutStaircase, hasCols)
        else if String.eqb val "even" then Ok (setLayout cfg LayoutEven, hasCols)
        else Err (ErrLayout val)
      else if String.eqb key "arq" then
        if String.eqb val "always" then Ok (setARQ cfg ARQAlways, hasCols)
        else if String.eqb val "onreq" then Ok (setARQ cfg ARQOnReq, hasCols)
        else if String.eqb val "never" then Ok (setARQ cfg ARQNever, hasCols)
        else Err (ErrARQ val)
      else Err (ErrUnknownParameter key)
  | _ => Err (ErrInvalidParameter part)
  end.

Fixpoint parseParams (parts : list string) (st : Config * bool) : result FilterError (Config * bool) :=
  match parts with
  | [] => Ok st
  | p :: ps => st' ← parseParam st p; parseParams ps st'
  end.

Definition ParseConfig (r : registry) (s : string) : result FilterError Config :=
  if String.eqb s "" then Err ErrEmptyConfig else
  match Split "," s with
  | [] => Err ErrEmptyConfig
  | filterName :: params =>
      if negb (String.eqb filterName "fec") && match Lookup r filterName with None => true | Some _ => false end
      then Err (ErrUnknownFilter filterName) else
      '(cfg, hasCols) ← parseParams params (mkConfig 0 1 LayoutStaircase ARQOnReq false, false);
      if negb hasCols then Err ErrColsMandatory else Ok cfg
  end.
End Registry.
#[global] Arguments registry F : clear implicits.

(** ** Formatting and negotiation *)

Definition FormatConfig (c : Config) : string :=
  "fec" ++ ",cols:" ++ fmtD (Cols c)
    ++ (if Rows c >? 1 then ",rows:" ++ fmtD (Rows c) else "")
    ++ match layout c with LayoutEven => ",layout:even" | LayoutStaircase => ",layout:staircase" end
    ++ match ARQ c with ARQAlways => ",arq:always" | ARQNever => ",arq:never" | ARQOnReq => ",arq:onreq" end.

Definition NegotiateConfig (local peer : Config) : result FilterError Config :=
  if negb (Cols local =? Cols peer) then Err (ErrColsMismatch (Cols local) (Cols peer)) else
  if negb (Rows local =? Rows peer) then Err (ErrRowsMismatch (Rows local) (Rows peer)) else
  if bool_decide (layout local <> layout peer) then Err ErrLayoutMismatch else
  if bool_decide (ARQ local <> ARQ peer) then Err ErrARQMismatch else
  Ok local.

Definition ExtraHeaderSize : nat := 4.

(** A configuration as the text format can express it. *)
Definition Config_ok (c : Config) : Prop :=
  2 <= Cols c < 2 ^ 63 /\ 1 <= Rows c < 2 ^ 63 /\ ColsOnly c = false.

#[local] Arguments String.append : simpl nomatch.

(** ** Splitting *)

Fixpoint nochar (sep : ascii) (s : string) : bool :=
  match s with "" => true | String c s' => negb (Ascii.eqb c sep) && nochar sep s' end.

Lemma Split_cut sep a b : nochar sep a = true -> Split sep (a ++ String sep b) = a :: Split sep b.
Proof.
  induction a as [|c a IH]; simpl; [by rewrite Ascii.eqb_refl|].
  intros [Hc Ha]%andb_prop. destruct (Ascii.eqb c sep); [done|]. by rewrite IH.
Qed.

Lemma Split_last sep a : nochar sep a = true -> Split sep a = [a].
Proof.
  induction a as [|c a IH]; simpl; [done|].
  intros [Hc Ha]%andb_prop. destruct (Ascii.eqb c sep); [done|]. by rewrite IH.
Qed.

Lemma nochar_app sep a b : nochar sep (a ++ b) = nochar sep a && nochar sep b.
Proof. induction a as [|c a IH]; simpl; [done|]. by rewrite IH, andb_assoc. Qed.

Lemma append_nil_r (s : string) : s ++ "" = s.
Proof. induction s; simpl; congruence. Qed.
Lemma append_assoc (a b c : string) : (a ++ b) ++ c = a ++ b ++ c.
Proof. induction a; simpl; congruence. Qed.

(** The text after the filter name: every parameter behind a comma. *)
Fixpoint params_text (ps : list string) : string :=
  match ps with [] => "" | p :: ps' => String "," (p ++ params_text ps') end.

Lemma Split_params p ps :
  Forall (fun q => nochar "," q = true) (p :: ps) -> Split "," (p ++ params_text ps) = p :: ps.
Proof.
  revert p. induction ps as [|q ps IH]; intros p H; apply Forall_cons_1 in H as [Hp H]; simpl.
  - rewrite append_nil_r. by apply Split_last.
  - rewrite Split_cut by done. by rewrite IH.
Qed.

(** ** Decimal numbers *)

Lemma digit_digitChar d : 0 <= d <= 9 -> digit (digitChar d) = Some d.
Proof.
  intros H. assert (d = 0 \/ d = 1 \/ d = 2 \/ d = 3 \/ d = 4 \/ d = 5 \/ d = 6 \/ d = 7 \/ d = 8 \/ d = 9) as E by lia.
  repeat destruct E as [->|E]; try reflexivity. by subst.
Qed.

Lemma parse_fmtDigits fuel n s :
  0 <= n < 10 ^ Z.of_nat fuel -> parseDigits (fmtDigits fuel n s) 0 = parseDigits s n.
Proof.
  revert n s. induction fuel as [|fuel IH]; intros n s Hn.
  { simpl in *. by replace n with 0 by lia. }
  rewrite Nat2Z.inj_succ, Z.pow_succ_r in Hn by lia. cbn [fmtDigits].
  assert (0 <= n mod 10 <= 9) as Hd by (pose proof (Z.mod_pos_bound n 10); lia).
  destruct (Z.ltb_spec n 10).
  - cbn [parseDigits]. rewrite digit_digitChar by done. f_equal. rewrite Z.mod_small; lia.
  - rewrite IH by zdm. cbn [parseDigits]. rewrite digit_digitChar by done. f_equal. zdm.
Qed.

(** A printed number starts with a digit and holds nothing but digits. *)
Lemma fmtDigits_head fuel n s :
  0 <= n -> exists d s', 0 <= d <= 9 /\ fmtDigits (S fuel) n s = String (digitChar d) s'.
Proof.
  revert n s. induction fuel as [|fuel IH]; intros n s Hn; cbn [fmtDigits];
    assert (0 <= n mod 10 <= 9) as Hd by (pose proof (Z.mod_pos_bound n 10); lia);
    destruct (Z.ltb_spec n 10); eauto. apply IH. zdm.
Qed.

Lemma fmtDigits_nochar sep fuel n s :
  0 <= n -> digit sep = None -> nochar sep s = true -> nochar sep (fmtDigits fuel n s) = true.
Proof.
  revert n s. induction fuel as [|fuel IH]; intros n s Hn Hsep Hs; cbn [fmtDigits]; [done|].
  assert (nochar sep (String (digitChar (n mod 10)) s) = true) as H.
  { simpl. rewrite Hs, andb_true_r. destruct (Ascii.eqb_spec (digitChar (n mod 10)) sep) as [<-|]; [|done].
    rewrite digit_digitChar in Hsep; [done|]. pose proof (Z.mod_pos_bound n 10). lia. }
  destruct (Z.ltb_spec n 10); [done|]. apply IH; [zdm|done..].
Qed.

Lemma Atoi_unsigned s n d s' :
  s = String (digitChar d) s' -> 0 <= d <= 9 -> parseDigits s 0 = Some n -> 0 <= n < 2 ^ 63 -> Atoi s = Some n.
Proof.
  intros -> Hd Hp Hn.
  assert (Atoi (String (digitChar d) s') =
    match parseDigits (String (digitChar d) s') 0 with
    | None => None
    | Some n => if (- 2 ^ 63 <=? n) && (n <? 2 ^ 63) then Some n else None
    end) as ->.
  { assert (d = 0 \/ d = 1 \/ d = 2 \/ d = 3 \/ d = 4 \/ d = 5 \/ d = 6 \/ d = 7 \/ d = 8 \/ d = 9) as E by lia.
    repeat destruct E as [->|E]; try reflexivity. by subst. }
  rewrite Hp. destruct (Z.leb_spec (- 2 ^ 63) n), (Z.ltb_spec n (2 ^ 63)); done || lia.
Qed.

Lemma Atoi_fmtD z : 0 <= z < 2 ^ 63 -> Atoi (fmtD z) = Some z.
Proof.
  intros Hz. unfold fmtD. destruct (Z.ltb_spec z 0); [lia|].
  destruct (fmtDigits_head 19 z "") as (d & s' & Hd & E); [lia|].
  eapply Atoi_unsigned; [done|done| |done]. rewrite parse_fmtDigits; [done|].
  change (10 ^ Z.of_nat 20) with 100000000000000000000. lia.
Qed.

Lemma fmtD_nochar sep z : 0 <= z -> digit sep = None -> nochar sep (fmtD z) = true.
Proof. intros. unfold fmtD. destruct (Z.ltb_spec z 0); [lia|]. by apply fmtDigits_nochar. Qed.

(** ** Properties *)

Definition layout_param (l : Layout) : string :=
  match l with LayoutEven => "layout:even" | LayoutStaircase => "layout:staircase" end.
Definition arq_param (a : ARQLevel) : string :=
  match a with ARQAlways => "arq:always" | ARQNever => "arq:never" | ARQOnReq => "arq:onreq" end.
Definition params (c : Config) : list string :=
  ("cols:" ++ fmtD (Cols c)) ::
  (if Rows c >? 1 then ["rows:" ++ fmtD (Rows c)] else []) ++ [layout_param (layout c); arq_param (ARQ c)].

Lemma FormatConfig_params c : FormatConfig c = "fec" ++ params_text (params c).
Proof.
  unfold FormatConfig, params. destruct (Rows c >? 1), (layout c), (ARQ c); simpl;
    repeat (f_equal; try reflexivity); rewrite ?append_assoc; simpl; reflexivity.
Qed.

Lemma params_nocomma c : Config_ok c -> Forall (fun q => nochar "," q = true) ("fec" :: params c).
Proof.
  intros (Hc & Hr & _). unfold params. destruct (Rows c >? 1), (layout c), (ARQ c); simpl;
    repeat constructor; simpl; by rewrite ?fmtD_nochar by (lia || done).
Qed.

Lemma parseParam_cols st v :
  2 <= v < 2 ^ 63 -> parseParam st ("cols:" ++ fmtD v) = Ok (setCols (fst st) v, true).
Proof. intros. destruct st. cbn. rewrite Atoi_fmtD by lia. by destruct (Z.ltb_spec v 2); [lia|]. Qed.
Lemma parseParam_rows st v :
  1 <= v < 2 ^ 63 -> parseParam st ("rows:" ++ fmtD v) = Ok (setRows (fst st) v, snd st).
Proof. intros. destruct st. cbn. rewrite Atoi_fmtD by lia. by destruct (Z.leb_spec v 0); [lia|]. Qed.

Definition defaults : Config := mkConfig 0 1 LayoutStaircase ARQOnReq false.

Lemma parseParams_params c : Config_ok c -> parseParams (params c) (defaults, false) = Ok (c, true).
Proof.
  intros (Hc & Hr & Ho). unfold params. destruct c as [cols rows l a o].
  cbn [Cols Rows layout ARQ ColsOnly parseParams] in *. subst o.
  rewrite parseParam_cols by done. cbn [mbind result_bind fst setCols].
  destruct (Z.gtb_spec rows 1).
  - cbn [app parseParams]. rewrite parseParam_rows by done. by destruct l, a.
  - replace rows with 1 by lia. by destruct l, a.
Qed.

(** What a parameter can do to the configuration. *)
Lemma Atoi_range s v : Atoi s = Some v -> is_i64 v.
Proof.
  unfold Atoi. set (nb := match s with String "-" s' => (true, s') | String "+" s' => (false, s') | _ => (false, s) end).
  destruct nb as [neg [|ch body]]; [done|]. destruct (parseDigits _ _) as [n|]; [|done]. cbv zeta.
  destruct (Z.leb_spec (- 2 ^ 63) (if neg then - n else n)), (Z.ltb_spec (if neg then - n else n) (2 ^ 63)); try done.
  intros [= <-]. done.
Qed.

Definition partial_ok (st : Config * bool) : Prop :=
  (snd st = true -> 2 <= Cols (fst st) < 2 ^ 63) /\ 1 <= Rows (fst st) < 2 ^ 63 /\ ColsOnly (fst st) = false.

Lemma parseParam_ok st part st' : partial_ok st -> parseParam st part = Ok st' -> partial_ok st'.
Proof.
  destruct st as [c b]. unfold partial_ok. cbn [fst snd]. intros (Hc & Hr & Ho). unfold parseParam.
  destruct (SplitN2 ":" part) as [|key [|val [|]]]; try done.
  destruct (String.eqb key "cols").
  { destruct (Atoi val) as [v|] eqn:E; [|done]. apply Atoi_range in E as []. destruct (Z.ltb_spec v 2); [done|].
    intros [= <-]. simpl. auto with lia. }
  destruct (String.eqb key "rows").
  { destruct (Atoi val) as [v|] eqn:E; [|done]. apply Atoi_range in E as []. destruct (Z.leb_spec v 0); [done|].
    intros [= <-]. simpl. auto with lia. }
  repeat (case_match; try done); by intros [= <-].
Qed.

Lemma parseParams_ok parts st st' : partial_ok st -> parseParams parts st = Ok st' -> partial_ok st'.
Proof.
  revert st. induction parts as [|p ps IH]; intros st Hst; cbn [parseParams]; [by intros [= <-]|].
  destruct (parseParam st p) as [st1|] eqn:E; [|done]. apply IH. by eapply parseParam_ok.
Qed.

(** The filter configuration survives negotiation: parsing the text of a
    valid configuration gives it back, so two peers with the same
    configuration agree on it; and whatever text is accepted, the result has
    at least two columns and one row (the bounds the FEC code divides by). *)
Theorem fec_config_roundtrip {F : Type} (r : registry F) (c c' : Config) (s : string) :
  (Config_ok c -> ParseConfig r (FormatConfig c) = Ok c /\ NegotiateConfig c c = Ok c) /\
  (ParseConfig r s = Ok c' -> Config_ok c').
Proof.
  split.
  - intros Hc. split.
    + rewrite FormatConfig_params. unfold ParseConfig. cbn [String.append String.eqb].
      change (String "f" (String "e" (String "c" (params_text (params c))))) with ("fec" ++ params_text (params c)).
      rewrite Split_params by (by apply params_nocomma).
      cbn [String.eqb Ascii.eqb Bool.eqb negb andb].
      change (mkConfig 0 1 LayoutStaircase ARQOnReq false) with defaults.
      by rewrite parseParams_params by done.
    + unfold NegotiateConfig. rewrite !Z.eqb_refl. simpl. by rewrite !bool_decide_eq_false_2 by naive_solver.
  - unfold ParseConfig. destruct (String.eqb s ""); [done|]. destruct (Split "," s) as [|name ps]; [done|].
    destruct (_ && _); [done|].
    destruct (parseParams ps _) as [[cfg b]|] eqn:E; [|done]. simpl. destruct b; [|done]. intros [= <-].
    apply parseParams_ok in E as (H1 & H2 & H3); [|by unfold partial_ok; simpl; auto with lia].
    unfold Config_ok. simpl in *. auto.
Qed.

Lemma fec_config_roundtrip_witness :
  let c := mkConfig 10 5 LayoutEven ARQNever false in
  ParseConfig (F := unit) [] (FormatConfig c) = Ok c /\
  FormatConfig c = "fec,cols:10,rows:5,layout:even,arq:never" /\
  Config_ok (mkConfig 20 1 LayoutStaircase ARQOnReq false).
Proof.
  split; [|split].
  - apply (fec_config_roundtrip (F := unit) [] (mkConfig 10 5 LayoutEven ARQNever false) defaults ""). unfold Config_ok. simpl. lia.
  - reflexivity.
  - apply (fec_config_roundtrip (F := unit) [] defaults _ "fec,cols:20"). reflexivity.
Defined.
End FilterConfig.
