(* ===== verification/Fec.v ===== *)
(** * Forward error correction: groups and sender ([internal/filter/fec.go])

    [fecGroup] accumulates the XOR of the lengths, flags, timestamps and
    payloads of the packets of a row or column; [FECSender] feeds every data
    packet into its row and column and emits a control packet when a group is
    complete.  The XOR state of a group is described by its observations
    ([obs]): each field, and each payload byte, is the XOR of the same field of
    the packets clipped into it. *)
From Stdlib Require Import ZArith Lia.
From stdpp Require Import base numbers list option.
From S2P Require Import Prelude Seq FilterConfig.
Import FilterConfig(Config, Cols, Rows, layout, ARQ, ColsOnly, LayoutEven, LayoutStaircase, ExtraHeaderSize,
  ARQAlways, ARQOnReq, ARQNever).
Local Open Scope Z_scope.

Module Fec.

(** ** Helpers *)

Definition seqDiff (base s : Z) : Z := Seq.Distance base s.
Definition seqAdd (base offset : Z) : Z := Seq.Value (Seq.Add base offset).

(** [int8(x)]. *)
Definition i8 (z : Z) : Z := (z + 2 ^ 7) mod 2 ^ 8 - 2 ^ 7.

(** ** Groups *)

Record fecGroup : Type := mkGroup {
  base : Z;
  step : Z;
  collected : Z;
  hasFEC : bool;
  lengthClip : Z;
  flagClip : Z;
  timestampClip : Z;
  payloadClip : list Z
}.

Definition newGroup (base step : Z) (payloadSize : nat) : fecGroup :=
  mkGroup base step 0 false 0 0 0 (make payloadSize).

Definition reset (g : fecGroup) (newBase : Z) : fecGroup :=
  mkGroup newBase (step g) 0 false 0 0 0 (make (length (payloadClip g))).

(** The XOR loop over the payload: it ends with the shorter of the two. *)
Fixpoint xorBytes (clip payload : list Z) : list Z :=
  match clip, payload with
  | c :: cs, p :: ps => Z.lxor c p :: xorBytes cs ps
  | _, _ => clip
  end.

Definition clipData (g : fecGroup) (length flags timestamp : Z) (payload : list Z) : fecGroup :=
  mkGroup (base g) (step g) (collected g) (hasFEC g)
    (Z.lxor (lengthClip g) length) (Z.lxor (flagClip g) flags) (Z.lxor (timestampClip g) timestamp)
    (xorBytes (payloadClip g) payload).

Definition clipPacket (g : fecGroup) (payloadLen encFlag timestamp : Z) (payload : list Z) : fecGroup :=
  clipData g (u16 payloadLen) encFlag timestamp payload.

Definition clipFECPacket (g : fecGroup) (timestamp : Z) (fecPayload : list Z) : fecGroup :=
  if (length fecPayload <? ExtraHeaderSize)%nat then g else
  clipData g (Uint16 fecPayload 2) (at_ fecPayload 1) timestamp (slice_from ExtraHeaderSize fecPayload).

(** [g.collected++] and [g.hasFEC = true]. *)
Definition collect (g : fecGroup) : fecGroup :=
  mkGroup (base g) (step g) (collected g + 1) (hasFEC g) (lengthClip g) (flagClip g) (timestampClip g) (payloadClip g).
Definition setFEC (g : fecGroup) : fecGroup :=
  mkGroup (base g) (step g) (collected g) true (lengthClip g) (flagClip g) (timestampClip g) (payloadClip g).

(** ** Sender *)

Record pendingFECPacket : Type := mkPending {
  pdata : list Z;
  groupIndex : Z;
  timestamp : Z;
  seqNo : Z
}.

(** A [nil] slice of columns and an empty one behave alike: every access is
    guarded by [vertGX < len(s.cols)]. *)
Record FECSender : Type := mkSender {
  cfg : Config;
  payloadSize : nat;
  row : fecGroup;
  cols : list fecGroup;
  sndBase : Z;
  lastSeqNo : Z;
  pendingFEC : list pendingFECPacket
}.

Definition sizeRow (c : Config) : Z := Cols c.
Definition sizeCol (c : Config) : Z := Rows c.
Definition matrixSize (c : Config) : Z := Cols c * Rows c.

(** The offsets of the column bases from the base of the matrix: [i] in the
    even layout, staggered by [1 + sizeRow] and starting over after [Rows]
    columns in the staircase layout. *)
Fixpoint staircase (c : Config) (n : nat) (i offset : Z) : list Z :=
  match n with
  | O => []
  | S n' =>
      offset :: staircase c n' (i + 1)
        (if Z.rem i (Rows c) =? Rows c - 1 then i + 1 else offset + (1 + sizeRow c))
  end.

Definition columnBaseOffsets (c : Config) : list Z :=
  match layout c with
  | LayoutEven => map Z.of_nat (seq 0 (Z.to_nat (Cols c)))
  | LayoutStaircase => staircase c (Z.to_nat (Cols c)) 0 0
  end.

Definition configureColumns (c : Config) (payloadSize : nat) (isn : Z) : list fecGroup :=
  map (fun off => newGroup (seqAdd isn (u32 off)) (sizeRow c) payloadSize) (columnBaseOffsets c).

Definition NewFECSender (c : Config) (payloadSize : nat) (isn : Z) : FECSender :=
  mkSender c payloadSize (newGroup isn 1 payloadSize)
    (if Rows c >? 1 then configureColumns c payloadSize isn else []) isn isn [].

Definition setPending (s : FECSender) (l : list pendingFECPacket) : FECSender :=
  mkSender (cfg s) (payloadSize s) (row s) (cols s) (sndBase s) (lastSeqNo s) l.
Definition setLast (s : FECSender) (n : Z) : FECSender :=
  mkSender (cfg s) (payloadSize s) (row s) (cols s) (sndBase s) n (pendingFEC s).
Definition setRow (s : FECSender) (g : fecGroup) : FECSender :=
  mkSender (cfg s) (payloadSize s) g (cols s) (sndBase s) (lastSeqNo s) (pendingFEC s).
Definition setBase (s : FECSender) (b : Z) : FECSender :=
  mkSender (cfg s) (payloadSize s) (row s) (cols s) b (lastSeqNo s) (pendingFEC s).
Definition zeroGroup : fecGroup := mkGroup 0 0 0 false 0 0 0 [].
Definition col (s : FECSender) (i : Z) : fecGroup := nth (Z.to_nat i) (cols s) zeroGroup.
Definition putCol (s : FECSender) (i : Z) (g : fecGroup) : FECSender :=
  mkSender (cfg s) (payloadSize s) (row s) (<[Z.to_nat i := g]> (cols s)) (sndBase s) (lastSeqNo s) (pendingFEC s).

Definition resetRowForNext (s : FECSender) : FECSender :=
  let newBase := seqAdd (base (row s)) (u32 (sizeRow (cfg s))) in
  setBase (setRow s (reset (row s) newBase)) newBase.

Definition resetColumnForNext (s : FECSender) (colIdx : Z) : FECSender :=
  let newBase := seqAdd (base (col s colIdx)) (u32 (matrixSize (cfg s))) in
  putCol s colIdx (reset (col s colIdx) newBase).

(** The payload of the control packet for a group. *)
Definition fecData (payloadSize : nat) (g : fecGroup) (groupIndex : Z) : list Z :=
  let data := make (ExtraHeaderSize + payloadSize) in
  let data := copy_at data 0 [u8 groupIndex] in
  let data := copy_at data 1 [flagClip g] in
  let data := PutUint16 data 2 (lengthClip g) in
  copy_at data ExtraHeaderSize (payloadClip g).

Definition emitFEC (s : FECSender) (g : fecGroup) (groupIndex lastDataSeqNo : Z) : FECSender :=
  setPending s (pendingFEC s ++
    [mkPending (fecData (payloadSize s) g groupIndex) groupIndex (timestampClip g) lastDataSeqNo]).

(** Feeding a packet into its column, and emitting a complete column. *)
Definition inCols (s : FECSender) (vertGX : Z) : bool := (vertGX >=? 0) && (vertGX <? len (cols s)).

Definition feedColumn (s : FECSender) (baseOff seqNo timestamp encFlag : Z) (payload : list Z) : FECSender :=
  if sizeCol (cfg s) >=? 2 then
    let vertGX := Z.rem baseOff (sizeRow (cfg s)) in
    if inCols s vertGX then
      let vertOff := seqDiff (base (col s vertGX)) seqNo in
      if vertOff >=? 0 then
        let vertPos := Z.quot vertOff (sizeRow (cfg s)) in
        let s := if vertPos >=? sizeCol (cfg s) then resetColumnForNext s vertGX else s in
        putCol s vertGX (collect (clipPacket (col s vertGX) (len payload) encFlag timestamp payload))
      else s
    else s
  else s.

Definition emitColumn (s : FECSender) (baseOff seqNo : Z) : FECSender :=
  if sizeCol (cfg s) >=? 2 then
    let vertGX := Z.rem baseOff (sizeRow (cfg s)) in
    if inCols s vertGX && (collected (col s vertGX) >=? sizeCol (cfg s)) then
      resetColumnForNext (emitFEC s (col s vertGX) (i8 vertGX) seqNo) vertGX
    else s
  else s.

Definition FeedSource (s : FECSender) (seqNo timestamp encFlag : Z) (payload : list Z) : FECSender :=
  let s := setLast (setPending s []) seqNo in
  let baseOff := seqDiff (sndBase s) seqNo in
  let '(s, baseOff) :=
    if baseOff >=? sizeRow (cfg s)
    then let s := resetRowForNext s in (s, seqDiff (sndBase s) seqNo)
    else (s, baseOff) in
  let s := setRow s (collect (clipPacket (row s) (len payload) encFlag timestamp payload)) in
  let s := feedColumn s baseOff seqNo timestamp encFlag payload in
  let s := emitColumn s baseOff seqNo in
  if collected (row s) >=? sizeRow (cfg s) then
    resetRowForNext (if ColsOnly (cfg s) then s else emitFEC s (row s) (-1) seqNo)
  else s.

Definition PackControlPacket (s : FECSender) : option (list Z * Z * Z * Z) * FECSender :=
  match pendingFEC s with
  | [] => (None, s)
  | p :: rest => (Some (pdata p, groupIndex p, seqNo p, timestamp p), setPending s rest)
  end.

(** ** Sequence arithmetic *)

Lemma seqDiff_sadd isn i j : Z.abs (j - i) < 2 ^ 30 -> seqDiff (Seq.sadd isn i) (Seq.sadd isn j) = j - i.
Proof.
  intros H. unfold seqDiff. rewrite Seq.Distance_gap by apply Seq.sadd_seq.
  assert (Seq.gap (Seq.sadd isn i) (Seq.sadd isn j) = (j - i) mod 2 ^ 31) as ->.
  { unfold Seq.gap, Seq.sadd. rewrite <- Zminus_mod. f_equal. lia. }
  destruct (decide (0 <= j - i)).
  - rewrite Z.mod_small by lia. destruct (Z.ltb_spec (j - i) (2 ^ 30)); [done|lia].
  - rewrite <- (Z_mod_plus_full _ 1), Z.mod_small by lia.
    destruct (Z.ltb_spec (j - i + 1 * 2 ^ 31) (2 ^ 30)); [lia|].
    destruct (Z.eqb_spec (j - i + 1 * 2 ^ 31) (2 ^ 30)); simpl; lia.
Qed.

Lemma seqAdd_sadd isn x y : 0 <= y < 2 ^ 31 -> seqAdd (Seq.sadd isn x) (u32 y) = Seq.sadd isn (x + y).
Proof. intros. unfold seqAdd, Seq.Value. rewrite Seq.Add_sadd by (apply Seq.sadd_seq || lia). apply Seq.sadd_sadd. Qed.

Lemma sadd_inj isn i j : Z.abs (j - i) < 2 ^ 30 -> Seq.sadd isn i = Seq.sadd isn j -> i = j.
Proof. intros H E. pose proof (seqDiff_sadd isn i j H) as D. rewrite E in D. unfold seqDiff, Seq.Distance in D.
  rewrite Z.eqb_refl in D. lia. Qed.

(** ** Observations of a group

    A source packet of the stream, and the fields of a group and of a packet
    that are combined by XOR. *)
Record src : Type := mkSrc { sTs : Z; sFlag : Z; sPayload : list Z }.

Inductive obs : Type := OLen | OFlag | OTs | OByte (i : nat).

Definition obsG (g : fecGroup) (o : obs) : Z :=
  match o with
  | OLen => lengthClip g
  | OFlag => flagClip g
  | OTs => timestampClip g
  | OByte i => at_ (payloadClip g) i
  end.

Definition obsP (s : src) (o : obs) : Z :=
  match o with
  | OLen => u16 (len (sPayload s))
  | OFlag => sFlag s
  | OTs => sTs s
  | OByte i => at_ (sPayload s) i
  end.

Definition visible (n : nat) (o : obs) : Prop := match o with OByte i => (i < n)%nat | _ => True end.

Definition clipSrc (g : fecGroup) (s : src) : fecGroup :=
  clipPacket g (len (sPayload s)) (sFlag s) (sTs s) (sPayload s).

Lemma xorBytes_length clip p : length (xorBytes clip p) = length clip.
Proof. revert p. induction clip; intros [|]; simpl; auto. Qed.

Lemma xorBytes_at clip p i : (i < length clip)%nat -> at_ (xorBytes clip p) i = Z.lxor (at_ clip i) (at_ p i).
Proof.
  unfold at_. revert p i. induction clip as [|c clip IH]; intros [|x p] [|i] H; simpl in *; try lia; try done;
    rewrite ?Z.lxor_0_r; [done..|]. apply IH. lia.
Qed.

Lemma obs_clip g s o :
  visible (length (payloadClip g)) o -> obsG (clipSrc g s) o = Z.lxor (obsG g o) (obsP s o).
Proof. destruct o; simpl; try done. apply xorBytes_at. Qed.

Lemma obs_new b st n o : obsG (newGroup b st n) o = 0.
Proof.
  destruct o; simpl; try done. unfold at_, make. revert i. induction n; intros [|i]; simpl; auto.
Qed.

(** XOR of [f 0 .. f (n-1)]. *)
Fixpoint xs (n : nat) (f : nat -> Z) : Z := match n with O => 0 | S n' => Z.lxor (xs n' f) (f n') end.

Lemma xs_ext n f g : (forall i, (i < n)%nat -> f i = g i) -> xs n f = xs n g.
Proof. induction n; simpl; intros H; [done|]. rewrite IHn by auto with lia. by rewrite H by lia. Qed.

Lemma xs_lxor n f g : xs n (fun i => Z.lxor (f i) (g i)) = Z.lxor (xs n f) (xs n g).
Proof.
  induction n; simpl; [done|]. rewrite IHn, !Z.lxor_assoc. f_equal.
  rewrite <- (Z.lxor_assoc (f n)), (Z.lxor_comm (f n) (xs n g)), Z.lxor_assoc. done.
Qed.

(** Only one of the terms is not zero. *)
Lemma xs_single n f j : (j < n)%nat -> (forall i, (i < n)%nat -> i <> j -> f i = 0) -> xs n f = f j.
Proof.
  induction n as [|n IH]; simpl; intros Hj H; [lia|]. destruct (decide (j = n)) as [->|].
  - rewrite (xs_ext n f (fun _ => 0)) by auto with lia.
    assert (xs n (fun _ => 0) = 0) as -> by (clear; induction n; simpl; [done|by rewrite IHn]). done.
  - rewrite IH by auto with lia. rewrite (H n) by lia. apply Z.lxor_0_r.
Qed.

Lemma xs_zero n f : (forall i, (i < n)%nat -> f i = 0) -> xs n f = 0.
Proof. induction n; simpl; intros H; [done|]. rewrite IHn, H by auto with lia. done. Qed.

(** The group that has clipped the [n] packets from position [start] on. *)
Fixpoint clipRun (g : fecGroup) (D : nat -> src) (start n : nat) : fecGroup :=
  match n with O => g | S n' => collect (clipSrc (clipRun g D start n') (D (start + n')%nat)) end.

Lemma clipRun_spec g D start n :
  base (clipRun g D start n) = base g /\ step (clipRun g D start n) = step g /\
  collected (clipRun g D start n) = collected g + Z.of_nat n /\
  length (payloadClip (clipRun g D start n)) = length (payloadClip g).
Proof.
  induction n as [|n (H1 & H2 & H3 & H4)]; simpl; [split_and!; lia || done|].
  rewrite xorBytes_length. split_and!; try done. lia.
Qed.

Lemma clipRun_obs b st ps D start n o :
  visible ps o -> obsG (clipRun (newGroup b st ps) D start n) o = xs n (fun i => obsP (D (start + i)%nat) o).
Proof.
  intros Ho. induction n as [|n IH]; simpl; [apply obs_new|].
  pose proof (clipRun_spec (newGroup b st ps) D start n) as (_ & _ & _ & Hl).
  rewrite <- IH, <- obs_clip; [by destruct o|].
  rewrite Hl. simpl. unfold make. by rewrite length_replicate.
Qed.

Lemma clipRun_length_u16 b st ps D start n : is_u16 (lengthClip (clipRun (newGroup b st ps) D start n)).
Proof.
  induction n as [|n IH]; [done|]. simpl. unfold is_u16 in *.
  pose proof (u16_range (len (sPayload (D (start + n)%nat)))) as Hu. unfold is_u16 in Hu.
  split; [apply Z.lxor_nonneg; lia|].
  set (a := lengthClip _) in *. set (b' := u16 _) in *.
  destruct (Z.eq_dec (Z.lxor a b') 0) as [->|]; [lia|].
  apply Z.log2_lt_pow2; [assert (0 <= Z.lxor a b') by (apply Z.lxor_nonneg; lia); lia|].
  pose proof (Z.log2_lxor a b' ltac:(lia) ltac:(lia)).
  assert (Z.log2 a < 16) by (destruct (Z.eq_dec a 0) as [->|]; [done|apply Z.log2_lt_pow2; lia]).
  assert (Z.log2 b' < 16) by (destruct (Z.eq_dec b' 0) as [->|]; [done|apply Z.log2_lt_pow2; lia]). lia.
Qed.

(** ** The control packet of a group *)

Lemma fecData_eq ps g idx :
  length (payloadClip g) = ps ->
  fecData ps g idx = [u8 idx; flagClip g; u8 (Z.shiftr (lengthClip g) 8); u8 (lengthClip g)] ++ payloadClip g.
Proof.
  intros <-. unfold fecData, PutUint16, make, ExtraHeaderSize.
  cbn [Nat.add replicate copy_at take drop app overwrite be16].
  unfold copy_at. cbn [take drop app overwrite be16].
  rewrite take_0, drop_0, overwrite_fit by (rewrite length_replicate; lia).
  rewrite drop_ge, app_nil_r by (rewrite length_replicate; lia). done.
Qed.

(** Clipping the control packet of [gx] is clipping all of its packets. *)
Lemma obs_clipFEC g gx ts idx o :
  length (payloadClip gx) = length (payloadClip g) -> is_u16 (lengthClip gx) -> timestampClip gx = ts ->
  visible (length (payloadClip g)) o ->
  obsG (clipFECPacket g ts (fecData (length (payloadClip g)) gx idx)) o = Z.lxor (obsG g o) (obsG gx o).
Proof.
  intros Hl Hu <- Ho. rewrite fecData_eq by done. unfold clipFECPacket, ExtraHeaderSize.
  cbn [app length Nat.ltb Nat.leb]. unfold clipData, Uint16, at_, slice_from. cbn [nth drop Nat.add].
  rewrite word16_be16 by done. destruct o; simpl; try done. by apply xorBytes_at.
Qed.

(** ** A stream of packets through the sender *)

Lemma feedColumn_row s bo q ts fl p :
  row (feedColumn s bo q ts fl p) = row s /\ cfg (feedColumn s bo q ts fl p) = cfg s /\
  payloadSize (feedColumn s bo q ts fl p) = payloadSize s /\ sndBase (feedColumn s bo q ts fl p) = sndBase s.
Proof. unfold feedColumn. repeat case_match; done. Qed.

Lemma emitColumn_row s bo q :
  row (emitColumn s bo q) = row s /\ cfg (emitColumn s bo q) = cfg s /\
  payloadSize (emitColumn s bo q) = payloadSize s /\ sndBase (emitColumn s bo q) = sndBase s.
Proof. unfold emitColumn. repeat case_match; done. Qed.

Section Stream.
Context (c : Config) (ps : nat) (isn : Z) (D : nat -> src) (n : nat).
Context (Hn : Cols c = Z.of_nat n) (Hn2 : (2 <= n)%nat) (Hmax : Z.of_nat n < 2 ^ 20) (Hisn : Seq.is_seq isn).

(** The sender after the first [k] packets of the stream. *)
Fixpoint feedStream (k : nat) : FECSender :=
  match k with
  | O => NewFECSender c ps isn
  | S k' => FeedSource (feedStream k') (Seq.sadd isn (Z.of_nat k')) (sTs (D k')) (sFlag (D k')) (sPayload (D k'))
  end.

(** The complete group of row [r]. *)
Definition rowBase (r : nat) : Z := Seq.sadd isn (Z.of_nat (r * n)).
Definition rowStart (r : nat) : fecGroup := newGroup (rowBase r) 1 ps.
Definition rowSum (r : nat) : fecGroup := clipRun (rowStart r) D (r * n) n.

(** [k = r * n + j]: row [r] is open and has clipped its first [j] packets. *)
Definition sender_at (r j : nat) (s : FECSender) : Prop :=
  cfg s = c /\ payloadSize s = ps /\ sndBase s = rowBase r /\ row s = clipRun (rowStart r) D (r * n) j.

Lemma sender_start : sender_at 0 0 (NewFECSender c ps isn).
Proof. unfold sender_at, rowStart, rowBase. simpl. by rewrite Seq.sadd_0. Qed.

Lemma reset_row r s :
  cfg s = c -> sndBase s = rowBase r -> row s = rowSum r ->
  row (resetRowForNext s) = rowStart (S r) /\ sndBase (resetRowForNext s) = rowBase (S r).
Proof.
  intros Hc Hb Hr. destruct (clipRun_spec (rowStart r) D (r * n) n) as (H1 & H2 & _ & H4).
  fold (rowSum r) in *. rewrite <- Hr in *.
  assert (seqAdd (base (row s)) (u32 (sizeRow (cfg s))) = rowBase (S r)) as HB.
  { rewrite H1, Hc. unfold sizeRow. rewrite Hn. cbn [base rowStart newGroup]. unfold rowBase.
    rewrite seqAdd_sadd by lia. f_equal. lia. }
  unfold resetRowForNext. rewrite HB. cbn [row sndBase setBase setRow]. split; [|done].
  unfold reset. rewrite H2, H4. unfold rowStart, newGroup, make. cbn [payloadClip step]. by rewrite length_replicate.
Qed.

(** One packet of the stream: the row takes it in, the columns leave the row
    alone, and the row is closed when it is full. *)
Lemma FeedSource_row r j s k :
  sender_at r j s -> (j < n)%nat -> k = (r * n + j)%nat ->
  exists s3, cfg s3 = c /\ payloadSize s3 = ps /\ sndBase s3 = rowBase r /\
    row s3 = clipRun (rowStart r) D (r * n) (S j) /\
    FeedSource s (Seq.sadd isn (Z.of_nat k)) (sTs (D k)) (sFlag (D k)) (sPayload (D k)) =
      if collected (row s3) >=? sizeRow (cfg s3)
      then resetRowForNext (if ColsOnly (cfg s3) then s3 else emitFEC s3 (row s3) (-1) (Seq.sadd isn (Z.of_nat k)))
      else s3.
Proof.
  intros (Hc & Hps & Hb & Hr) Hj ->. set (k := (r * n + j)%nat). unfold FeedSource. cbv zeta.
  assert (seqDiff (sndBase (setLast (setPending s []) (Seq.sadd isn (Z.of_nat k)))) (Seq.sadd isn (Z.of_nat k))
            = Z.of_nat j) as ->.
  { cbn [sndBase setLast setPending]. rewrite Hb. unfold rowBase. rewrite seqDiff_sadd; lia. }
  assert ((Z.of_nat j >=? sizeRow (cfg (setLast (setPending s []) (Seq.sadd isn (Z.of_nat k))))) = false) as ->.
  { cbn [cfg setLast setPending]. unfold sizeRow. rewrite Hc, Hn. zbool. lia. }
  eexists. split_and!; [..|reflexivity].
  - rewrite (proj1 (proj2 (emitColumn_row _ _ _))), (proj1 (proj2 (feedColumn_row _ _ _ _ _ _))). done.
  - rewrite (proj1 (proj2 (proj2 (emitColumn_row _ _ _)))), (proj1 (proj2 (proj2 (feedColumn_row _ _ _ _ _ _)))). done.
  - rewrite (proj2 (proj2 (proj2 (emitColumn_row _ _ _)))), (proj2 (proj2 (proj2 (feedColumn_row _ _ _ _ _ _)))). done.
  - rewrite (proj1 (emitColumn_row _ _ _)), (proj1 (feedColumn_row _ _ _ _ _ _)).
    cbn [row setRow setLast setPending]. by rewrite Hr.
Qed.

Lemma sender_step r j s k :
  sender_at r j s -> (j < n)%nat -> k = (r * n + j)%nat ->
  let s' := FeedSource s (Seq.sadd isn (Z.of_nat k)) (sTs (D k)) (sFlag (D k)) (sPayload (D k)) in
  if decide (S j = n)
  then sender_at (S r) 0 s' /\
       (ColsOnly c = false -> list.last (pendingFEC s') =
         Some (mkPending (fecData ps (rowSum r) (-1)) (-1) (timestampClip (rowSum r)) (Seq.sadd isn (Z.of_nat k))))
  else sender_at r (S j) s'.
Proof.
  intros Hs Hj Hk. cbv zeta. destruct (FeedSource_row r j s k Hs Hj Hk) as (s3 & HC & HP & HB & HR & ->).
  destruct (clipRun_spec (rowStart r) D (r * n) (S j)) as (_ & _ & Hcol & _). rewrite <- HR in Hcol.
  rewrite Hcol, HC. unfold sizeRow. rewrite Hn. cbn [collected rowStart newGroup].
  destruct (Z.geb_spec (0 + Z.of_nat (S j)) (Z.of_nat n)), (decide (S j = n)) as [E|E]; try lia; [|by split_and!].
  rewrite E in HR. fold (rowSum r) in HR.
  assert (forall s', cfg s' = c -> payloadSize s' = ps -> sndBase s' = rowBase r -> row s' = rowSum r ->
            sender_at (S r) 0 (resetRowForNext s')) as Hreset.
  { intros s' Q1 Q2 Q3 Q4. destruct (reset_row r s' Q1 Q3 Q4) as [R1 R2]. by split_and!. }
  split; [destruct (ColsOnly c); by apply Hreset|].
  intros ->. unfold resetRowForNext, emitFEC. cbn [pendingFEC setBase setRow setPending].
  by rewrite last_snoc, HP, HR.
Qed.

Lemma feedStream_at k : sender_at (k / n) (k mod n) (feedStream k).
Proof.
  induction k as [|k IH].
  { rewrite Nat.Div0.div_0_l, Nat.Div0.mod_0_l. apply sender_start. }
  pose proof (Nat.mod_upper_bound k n ltac:(lia)) as Hm.
  pose proof (Nat.div_mod_eq k n) as Hk.
  pose proof (sender_step (k / n) (k mod n) (feedStream k) k IH Hm ltac:(lia)) as H. cbv zeta in H.
  change (FeedSource (feedStream k) _ _ _ _) with (feedStream (S k)) in H.
  destruct (decide (S (k mod n) = n)) as [E|E].
  - destruct H as [H _]. replace (S k / n)%nat with (S (k / n)).
    2:{ apply (Nat.div_unique _ _ _ 0); [lia|]. lia. }
    replace (S k mod n)%nat with 0%nat; [done|]. apply (Nat.mod_unique _ _ (S (k / n))); lia.
  - replace (S k / n)%nat with (k / n)%nat by (apply (Nat.div_unique _ _ _ (S (k mod n))); lia).
    replace (S k mod n)%nat with (S (k mod n)); [done|]. apply (Nat.mod_unique _ _ (k / n)%nat); lia.
Qed.

(** The row FEC packet: it is the last one pending when row [r] is complete. *)
Lemma feedStream_rowFEC r :
  ColsOnly c = false ->
  list.last (pendingFEC (feedStream ((r + 1) * n))) =
    Some (mkPending (fecData ps (rowSum r) (-1)) (-1) (timestampClip (rowSum r))
            (Seq.sadd isn (Z.of_nat (r * n + (n - 1))))).
Proof.
  intros Hc. pose proof (feedStream_at (r * n + (n - 1))) as H.
  replace ((r * n + (n - 1)) / n)%nat with r in H by (apply (Nat.div_unique _ _ _ (n - 1)); lia).
  replace ((r * n + (n - 1)) mod n)%nat with (n - 1)%nat in H by (apply (Nat.mod_unique _ _ r); lia).
  pose proof (sender_step _ _ _ _ H ltac:(lia) eq_refl) as H'. cbv zeta in H'.
  destruct (decide (S (n - 1) = n)); [|lia]. destruct H' as [_ H'].
  replace ((r + 1) * n)%nat with (S (r * n + (n - 1))) by lia. by apply H'.
Qed.
End Stream.
End Fec.
