(* ===== verification/FecReceiver.v ===== *)
(** * Forward error correction: receiver ([internal/filter/fec.go])

    [FECReceiver] keeps a sliding window of row groups and a deque of column
    groups, clips every arriving packet into its groups, and rebuilds a packet
    when its group misses exactly one; a rebuilt packet is fed into the group
    of the other dimension, which may rebuild the next one.  The Go code's
    pointers into the slices are read before the slices are extended, so
    groups are passed as values; the received cells are a finite map. *)
From Stdlib Require Import ZArith Lia.
From stdpp Require Import base numbers list option gmap.
From S2P Require Import Prelude Seq FilterConfig Fec.
Import FilterConfig(Config, mkConfig, Cols, Rows, layout, ARQ, ColsOnly, LayoutEven, LayoutStaircase, ExtraHeaderSize,
  ARQAlways, ARQOnReq, ARQNever).
Import Fec(fecGroup, newGroup, clipPacket, clipFECPacket, collect, setFEC, base, step, collected, hasFEC, lengthClip,
  flagClip, timestampClip, payloadClip, zeroGroup, seqAdd, seqDiff, i8, sizeRow, sizeCol, matrixSize,
  columnBaseOffsets).
Local Open Scope Z_scope.

Module FecReceiver.

Definition fecMaxRcvHistory : Z := 10.

Record RecoveredPacket : Type := mkRP {
  SeqNo : Z;
  Timestamp : Z;
  EncFlag : Z;
  Retransmitted : bool;
  Payload : list Z
}.

Record rcvGroup : Type := mkRG { grp : fecGroup; dismissed : bool }.

Record FECReceiver : Type := mkRcv {
  cfg : Config;
  payloadSize : nat;
  rowGroups : list rcvGroup;
  colGroups : list rcvGroup;
  colSeries : Z;
  colBaseISN : Z;
  colBaseOff : list Z;
  cells : gmap Z bool;
  cellBase : Z;
  rebuilt : list RecoveredPacket;
  Supplied : Z;
  Extra : Z
}.

Definition setRows (r : FECReceiver) (l : list rcvGroup) : FECReceiver :=
  mkRcv (cfg r) (payloadSize r) l (colGroups r) (colSeries r) (colBaseISN r) (colBaseOff r) (cells r) (cellBase r)
    (rebuilt r) (Supplied r) (Extra r).
Definition setColumns (r : FECReceiver) (l : list rcvGroup) (n : Z) : FECReceiver :=
  mkRcv (cfg r) (payloadSize r) (rowGroups r) l n (colBaseISN r) (colBaseOff r) (cells r) (cellBase r)
    (rebuilt r) (Supplied r) (Extra r).
Definition setColBase (r : FECReceiver) (isn : Z) : FECReceiver :=
  mkRcv (cfg r) (payloadSize r) (rowGroups r) (colGroups r) (colSeries r) isn (colBaseOff r) (cells r) (cellBase r)
    (rebuilt r) (Supplied r) (Extra r).
Definition setCells (r : FECReceiver) (m : gmap Z bool) : FECReceiver :=
  mkRcv (cfg r) (payloadSize r) (rowGroups r) (colGroups r) (colSeries r) (colBaseISN r) (colBaseOff r) m (cellBase r)
    (rebuilt r) (Supplied r) (Extra r).
Definition setCellBase (r : FECReceiver) (b : Z) : FECReceiver :=
  mkRcv (cfg r) (payloadSize r) (rowGroups r) (colGroups r) (colSeries r) (colBaseISN r) (colBaseOff r) (cells r) b
    (rebuilt r) (Supplied r) (Extra r).
Definition setRebuilt (r : FECReceiver) (l : list RecoveredPacket) (supplied : Z) : FECReceiver :=
  mkRcv (cfg r) (payloadSize r) (rowGroups r) (colGroups r) (colSeries r) (colBaseISN r) (colBaseOff r) (cells r)
    (cellBase r) l supplied (Extra r).
Definition setExtra (r : FECReceiver) (n : Z) : FECReceiver :=
  mkRcv (cfg r) (payloadSize r) (rowGroups r) (colGroups r) (colSeries r) (colBaseISN r) (colBaseOff r) (cells r)
    (cellBase r) (rebuilt r) (Supplied r) n.

(** [r.cells[s]]: false for an absent key. *)
Definition cell (r : FECReceiver) (s : Z) : bool := default false (cells r !! s).

Definition zeroRG : rcvGroup := mkRG zeroGroup false.
Definition rowAt (r : FECReceiver) (i : Z) : rcvGroup := nth (Z.to_nat i) (rowGroups r) zeroRG.
Definition colAt (r : FECReceiver) (i : Z) : rcvGroup := nth (Z.to_nat i) (colGroups r) zeroRG.
Definition putRow (r : FECReceiver) (i : Z) (g : rcvGroup) : FECReceiver :=
  setRows r (<[Z.to_nat i := g]> (rowGroups r)).
Definition putColumn (r : FECReceiver) (i : Z) (g : rcvGroup) : FECReceiver :=
  setColumns r (<[Z.to_nat i := g]> (colGroups r)) (colSeries r).
Definition newRG (base step : Z) (payloadSize : nat) : rcvGroup := mkRG (newGroup base step payloadSize) false.
Definition onGroup (f : fecGroup -> fecGroup) (g : rcvGroup) : rcvGroup := mkRG (f (grp g)) (dismissed g).

(** ** Construction *)

Definition extendColumnSeries (r : FECReceiver) (seriesBase : Z) : FECReceiver :=
  setColumns r
    (colGroups r ++
     map (fun off => newRG (seqAdd seriesBase (u32 off)) (Cols (cfg r)) (payloadSize r)) (columnBaseOffsets (cfg r)))
    (colSeries r + 1).

Definition NewFECReceiver (c : Config) (payloadSize : nat) (isn : Z) : FECReceiver :=
  let initialRows := if Rows c >? 1 then Rows c + 1 else 2 in
  let rows := map (fun i => newRG (seqAdd isn (u32 (Z.of_nat i * Cols c))) 1 payloadSize)
                (seq 0 (Z.to_nat initialRows)) in
  let r := mkRcv c payloadSize rows [] 0 0 [] ∅ isn [] 0 0 in
  if Rows c >? 1 then
    extendColumnSeries
      (mkRcv c payloadSize rows [] 0 isn (columnBaseOffsets c) ∅ isn [] 0 0) isn
  else r.

(** ** Cells *)

Definition markCell (r : FECReceiver) (seqNo : Z) (received : bool) : FECReceiver :=
  if received then setCells r (<[seqNo := true]> (cells r)) else r.

Definition unmarkCell (r : FECReceiver) (seqNo : Z) : FECReceiver := setCells r (delete seqNo (cells r)).

Definition cleanCells (r : FECReceiver) : FECReceiver :=
  match rowGroups r with
  | [] => r
  | g :: _ =>
      let newBase := base (grp g) in
      setCellBase (setCells r (filter (fun kv => ~ seqDiff newBase kv.1 < 0) (cells r))) newBase
  end.

(** ** Group look-up *)

Definition extendRow (r : FECReceiver) : FECReceiver :=
  let nextBase := seqAdd (base (grp (rowAt r (len (rowGroups r) - 1)))) (u32 (sizeRow (cfg r))) in
  setRows r (rowGroups r ++ [newRG nextBase 1 (payloadSize r)]).

(** The index is -1 when there is no group; the loop that extends the rows
    runs [rowIdx + 1 - len] times. *)
Definition getRowGroupIndex (r : FECReceiver) (seqNo : Z) : Z * FECReceiver :=
  if len (rowGroups r) =? 0 then (-1, r) else
  let off := seqDiff (base (grp (rowAt r 0))) seqNo in
  if off <? 0 then (-1, r) else
  let rowIdx := Z.quot off (sizeRow (cfg r)) in
  if rowIdx >=? fecMaxRcvHistory * sizeCol (cfg r) then (-1, r) else
  (rowIdx, Nat.iter (Z.to_nat (rowIdx + 1 - len (rowGroups r))) extendRow r).

Definition nextSeriesOf (r : FECReceiver) : FECReceiver :=
  extendColumnSeries r (seqAdd (colBaseISN r) (u32 (colSeries r * matrixSize (cfg r)))).

Definition getColumnGroupIndex (r : FECReceiver) (seqNo : Z) : Z * FECReceiver :=
  if len (colGroups r) =? 0 then (-1, r) else
  let off := seqDiff (colBaseISN r) seqNo in
  if off <? 0 then (-1, r) else
  let colIdx := Z.rem off (sizeRow (cfg r)) in
  if (colIdx <? 0) || (colIdx >=? Cols (cfg r)) then (-1, r) else
  let adj := off - nth (Z.to_nat colIdx) (colBaseOff r) 0 in
  if adj <? 0 then (-1, r) else
  let series := Z.quot adj (matrixSize (cfg r)) in
  if series <? 0 then (-1, r) else
  let currentMaxSeries := colSeries r - 1 in
  let neededSeries := series - currentMaxSeries in
  if (series >? currentMaxSeries) && (colSeries r + neededSeries >? fecMaxRcvHistory) then (-1, r) else
  let r := if series >? currentMaxSeries then Nat.iter (Z.to_nat neededSeries) nextSeriesOf r else r in
  let firstSeriesOff := seqDiff (colBaseISN r) (base (grp (colAt r 0))) in
  let firstSeries := if firstSeriesOff >? 0 then Z.quot firstSeriesOff (matrixSize (cfg r)) else 0 in
  let localSeries := series - firstSeries in
  if localSeries <? 0 then (-1, r) else
  let gIdx := localSeries * Cols (cfg r) + colIdx in
  if (gIdx <? 0) || (gIdx >=? len (colGroups r)) then (-1, r) else (gIdx, r).

Definition getColumnGroupIndexByColX (r : FECReceiver) (colx : Z) : Z :=
  if (colx <? 0) || (colx >=? len (colGroups r)) then -1 else colx.

Definition isColumnMember (r : FECReceiver) (g : rcvGroup) (seqNo : Z) : bool :=
  let off := seqDiff (base (grp g)) seqNo in
  (off >=? 0) && (Z.rem off (sizeRow (cfg r)) =? 0) && (Z.quot off (sizeRow (cfg r)) <? sizeCol (cfg r)).

(** The first missing member of a group with the given stride, or -1. *)
Definition firstLost (r : FECReceiver) (g : rcvGroup) (stride n : Z) : Z :=
  default (-1) (List.find (fun s => negb (cell r s))
    (map (fun i => seqAdd (base (grp g)) (u32 (Z.of_nat i * stride))) (seq 0 (Z.to_nat n)))).

Definition findLostInRow (r : FECReceiver) (g : rcvGroup) : Z := firstLost r g 1 (sizeRow (cfg r)).
Definition findLostInColumn (r : FECReceiver) (g : rcvGroup) : Z :=
  firstLost r g (sizeRow (cfg r)) (sizeCol (cfg r)).

(** ** Rebuilding *)

Inductive groupType : Type := groupHoriz | groupVert | groupSingle.

Definition RebuildFn : Type := FECReceiver -> rcvGroup -> Z -> groupType -> FECReceiver * bool.

(** The recursive calls of [rebuild] go through the two cross functions. *)
Definition crossRebuildHorizontal (rebuild : RebuildFn) (r : FECReceiver) (seqNo : Z) (rp : RecoveredPacket) :
    FECReceiver * bool :=
  let '(rowIdx, r) := getRowGroupIndex r seqNo in
  if rowIdx <? 0 then (r, true) else
  let g := onGroup (fun g => collect (clipPacket g (len (Payload rp)) (EncFlag rp) (Timestamp rp) (Payload rp)))
             (rowAt r rowIdx) in
  let r := putRow r rowIdx g in
  if hasFEC (grp g) && (collected (grp g) =? sizeRow (cfg r) - 1) then
    let lostSeq := findLostInRow r g in
    if lostSeq >=? 0 then rebuild r g (u32 lostSeq) groupHoriz else (r, true)
  else (r, true).

Definition crossRebuildVertical (rebuild : RebuildFn) (r : FECReceiver) (seqNo : Z) (rp : RecoveredPacket) :
    FECReceiver * bool :=
  let '(colIdx, r) := getColumnGroupIndex r seqNo in
  if colIdx <? 0 then (r, true) else
  if negb (isColumnMember r (colAt r colIdx) seqNo) then (r, true) else
  let g := onGroup (fun g => collect (clipPacket g (len (Payload rp)) (EncFlag rp) (Timestamp rp) (Payload rp)))
             (colAt r colIdx) in
  let r := putColumn r colIdx g in
  if hasFEC (grp g) && (collected (grp g) =? sizeCol (cfg r) - 1) then
    let lostSeq := findLostInColumn r g in
    if lostSeq >=? 0 then rebuild r g (u32 lostSeq) groupVert else (r, true)
  else (r, true).

(** The boolean tells whether the recursion finished within the fuel. *)
Fixpoint rebuild (fuel : nat) (r : FECReceiver) (g : rcvGroup) (seqNo : Z) (tp : groupType) :
    FECReceiver * bool :=
  match fuel with
  | O => (r, false)
  | S fuel' =>
      let length := lengthClip (grp g) in
      if length >? Z.of_nat (payloadSize r) then (r, true) else
      let rp := mkRP seqNo (timestampClip (grp g)) (flagClip (grp g)) false
                  (take (Z.to_nat length) (payloadClip (grp g))) in
      let r := setRebuilt r (rebuilt r ++ [rp]) (Supplied r + 1) in
      let r := markCell r seqNo true in
      match tp with
      | groupSingle => (r, true)
      | groupHoriz => crossRebuildVertical (rebuild fuel') r seqNo rp
      | groupVert => crossRebuildHorizontal (rebuild fuel') r seqNo rp
      end
  end.

(** Every level of the recursion completes a group whose FEC packet is there. *)
Definition rebuildFuel (r : FECReceiver) : nat := S (length (rowGroups r) + length (colGroups r)).

(** ** Feeding packets into groups *)

Definition rowType (r : FECReceiver) : groupType := if Rows (cfg r) <=? 1 then groupSingle else groupHoriz.

Definition tryRow (r : FECReceiver) (g : rcvGroup) : FECReceiver * bool :=
  let lostSeq := findLostInRow r g in
  if lostSeq >=? 0 then rebuild (rebuildFuel r) r g (u32 lostSeq) (rowType r) else (r, true).

Definition tryColumn (r : FECReceiver) (g : rcvGroup) : FECReceiver * bool :=
  let lostSeq := findLostInColumn r g in
  if lostSeq >=? 0 then rebuild (rebuildFuel r) r g (u32 lostSeq) groupVert else (r, true).

(** The results: whether the packet was placed, the state, and whether every
    recursion finished. *)
Definition hangHorizontalData (r : FECReceiver) (seqNo timestamp encFlag : Z) (payload : list Z) :
    bool * FECReceiver * bool :=
  let '(rowIdx, r) := getRowGroupIndex r seqNo in
  if rowIdx <? 0 then (false, r, true) else
  let g := onGroup (fun g => collect (clipPacket g (len payload) encFlag timestamp payload)) (rowAt r rowIdx) in
  let r := putRow r rowIdx g in
  let '(r, fin) :=
    if hasFEC (grp g) && (collected (grp g) =? sizeRow (cfg r) - 1) then tryRow r g else (r, true) in
  (true, r, fin).

Definition hangHorizontalFEC (r : FECReceiver) (seqNo timestamp : Z) (fecPayload : list Z) : FECReceiver * bool :=
  let '(rowIdx, r) := getRowGroupIndex r seqNo in
  if rowIdx <? 0 then (r, true) else
  if hasFEC (grp (rowAt r rowIdx)) then (r, true) else
  let g := onGroup (fun g => clipFECPacket (setFEC g) timestamp fecPayload) (rowAt r rowIdx) in
  let r := putRow r rowIdx g in
  if collected (grp g) =? sizeRow (cfg r) - 1 then tryRow r g else (r, true).

Definition hangVerticalData (r : FECReceiver) (seqNo timestamp encFlag : Z) (payload : list Z) :
    bool * FECReceiver * bool :=
  let '(colIdx, r) := getColumnGroupIndex r seqNo in
  if colIdx <? 0 then (false, r, true) else
  if negb (isColumnMember r (colAt r colIdx) seqNo) then (false, r, true) else
  let g := onGroup (fun g => collect (clipPacket g (len payload) encFlag timestamp payload)) (colAt r colIdx) in
  let r := putColumn r colIdx g in
  let '(r, fin) :=
    if hasFEC (grp g) && (collected (grp g) =? sizeCol (cfg r) - 1) then tryColumn r g else (r, true) in
  (true, r, fin).

Definition hangVerticalFEC (r : FECReceiver) (seqNo timestamp : Z) (fecPayload : list Z) (colx : Z) :
    FECReceiver * bool :=
  let '(colIdx, r) := getColumnGroupIndex r seqNo in
  if colIdx <? 0 then (r, true) else
  if hasFEC (grp (colAt r colIdx)) then (r, true) else
  let g := onGroup (fun g => clipFECPacket (setFEC g) timestamp fecPayload) (colAt r colIdx) in
  let r := putColumn r colIdx g in
  if collected (grp g) =? sizeCol (cfg r) - 1 then tryColumn r g else (r, true).

(** ** Window maintenance and loss reports *)

Definition fullReset (r : FECReceiver) (seqNo : Z) : FECReceiver :=
  let rowSize := if sizeRow (cfg r) <=? 0 then 1 else sizeRow (cfg r) in
  let newBase := u32 (seqNo - u32 (Z.rem seqNo rowSize)) in
  let r := setRows r [newRG newBase 1 (payloadSize r)] in
  let r := setColBase (setColumns r [] 0) newBase in
  let r := if Rows (cfg r) >? 1 then extendColumnSeries r newBase else r in
  setCells r ∅.

(** [for off >= threshold && len(r.rowGroups) > 1]: [gs] is [r.rowGroups]. *)
Fixpoint dropOldRows (threshold seqNo off : Z) (gs : list rcvGroup) (r : FECReceiver) : FECReceiver :=
  match gs with
  | _ :: ((g2 :: _) as rest) =>
      if off >=? threshold then
        dropOldRows threshold seqNo (seqDiff (base (grp g2)) seqNo) rest (cleanCells (setRows r rest))
      else r
  | _ => r
  end.

Fixpoint trimColumns (fuel : nat) (minHistory : Z) (r : FECReceiver) : FECReceiver :=
  match fuel with
  | O => r
  | S fuel' =>
      if (colSeries r >? minHistory) && (len (colGroups r) >? Cols (cfg r)) then
        trimColumns fuel' minHistory (setColumns r (drop (Z.to_nat (Cols (cfg r))) (colGroups r)) (colSeries r - 1))
      else r
  end.

Definition checkLargeDrop (r : FECReceiver) (seqNo : Z) : FECReceiver :=
  if len (rowGroups r) =? 0 then r else
  let off := seqDiff (base (grp (rowAt r 0))) seqNo in
  if off <? 0 then r else
  let matSz := matrixSize (cfg r) in
  if (matSz >? 0) && (Z.quot off matSz >=? fecMaxRcvHistory) then fullReset r seqNo else
  let threshold := if Rows (cfg r) <=? 1 then sizeRow (cfg r) * 2 else matSz * 2 in
  let r := dropOldRows threshold seqNo off (rowGroups r) r in
  if Rows (cfg r) >? 1 then
    let minHistory := match layout (cfg r) with LayoutStaircase => 4 | LayoutEven => 2 end in
    trimColumns (Z.to_nat (colSeries r - minHistory)) minHistory r
  else r.

(** The members of a group that are missing. *)
Definition groupLosses (r : FECReceiver) (base stride n : Z) : list Z :=
  List.filter (fun s => negb (cell r s))
    (map (fun i => seqAdd base (u32 (Z.of_nat i * stride))) (seq 0 (Z.to_nat n))).

(** Whether [seq] has passed a column: it is [mindist] beyond its base and at
    or beyond its last member. *)
Definition columnPast (c : Config) (g : rcvGroup) (seqNo : Z) : bool :=
  let mindist := match layout c with LayoutStaircase => matrixSize c * 2 | LayoutEven => matrixSize c end in
  let colOffset := seqDiff (base (grp g)) seqNo in
  negb (colOffset <? mindist) && negb (colOffset - (sizeCol c - 1) * sizeRow c <? 0).

Definition dismissOldColumns (r : FECReceiver) (seqNo : Z) : list Z * FECReceiver :=
  let past g := negb (dismissed g) && columnPast (cfg r) g seqNo in
  (concat (map (fun g => if past g then groupLosses r (base (grp g)) (step (grp g)) (sizeCol (cfg r)) else [])
             (colGroups r)),
   setColumns r (map (fun g => if past g then mkRG (grp g) true else g) (colGroups r)) (colSeries r)).

Definition collectLossReport (r : FECReceiver) : list Z * FECReceiver :=
  match ARQ (cfg r) with
  | ARQAlways | ARQNever => ([], r)
  | ARQOnReq =>
      if len (rowGroups r) <? 2 then ([], r) else
      let last := grp (rowAt r (len (rowGroups r) - 1)) in
      let latestSeq := seqAdd (base last) (u32 (collected last)) in
      let past := len (rowGroups r) - 2 - 1 in
      let progress := seqDiff (base (grp (rowAt r 1))) latestSeq in
      if (past <? 0) && (progress <=? Z.quot (sizeRow (cfg r)) 3) then ([], r) else
      let nRemove := Z.to_nat ((if past <? 0 then 0 else past) + 1) in
      let losses := concat (map (fun g => if dismissed g then [] else groupLosses r (base (grp g)) 1 (sizeRow (cfg r)))
                      (take nRemove (rowGroups r))) in
      let rows := map (fun g => mkRG (grp g) true) (take nRemove (rowGroups r)) ++ drop nRemove (rowGroups r) in
      if (nRemove <? length (rowGroups r))%nat
      then (losses, cleanCells (setRows r (drop nRemove rows)))
      else (losses, setRows r rows)
  end.

(** ** Receive *)

Record Received : Type := mkReceived {
  recovered : list RecoveredPacket;
  lossReport : list Z;
  passThrough : bool
}.

Definition receiveFEC (r : FECReceiver) (seqNo timestamp : Z) (payload : list Z) : Received * FECReceiver * bool :=
  let r := setExtra r (Extra r + 1) in
  let r := markCell r seqNo false in
  if (length payload <? ExtraHeaderSize)%nat then (mkReceived [] [] false, r, true) else
  let colx := i8 (at_ payload 0) in
  let '(r, colLosses, fin) :=
    if colx =? -1 then let '(r, fin) := hangHorizontalFEC r seqNo timestamp payload in (r, [], fin)
    else
      let '(r, fin) := hangVerticalFEC r seqNo timestamp payload colx in
      let '(colLosses, r) := dismissOldColumns r seqNo in
      (r, match ARQ (cfg r) with ARQOnReq => colLosses | _ => [] end, fin) in
  let '(rowLosses, r) := collectLossReport r in
  (mkReceived (rebuilt r) (colLosses ++ rowLosses) false, r, fin).

Definition receiveData (r : FECReceiver) (seqNo timestamp encFlag : Z) (payload : list Z) :
    Received * FECReceiver * bool :=
  let cellOff := seqDiff (cellBase r) seqNo in
  if (cellOff <? 0) || cell r seqNo then (mkReceived [] [] true, r, true) else
  let r := markCell r seqNo true in
  let '(okH, r, finH) := hangHorizontalData r seqNo timestamp encFlag payload in
  let '(okV, losses, r, finV) :=
    if Rows (cfg r) >? 1 then
      let '(okV, r, finV) := hangVerticalData r seqNo timestamp encFlag payload in
      let '(colLosses, r) := dismissOldColumns r seqNo in
      (okV, match ARQ (cfg r) with ARQOnReq => colLosses | _ => [] end, r, finV)
    else (true, [], r, true) in
  let r := if negb okH && negb okV then unmarkCell r seqNo else r in
  (mkReceived (rebuilt r) losses true, r, finH && finV).

Definition Receive (r : FECReceiver) (seqNo timestamp encFlag msgNo : Z) (payload : list Z) :
    Received * FECReceiver * bool :=
  let r := setRebuilt r [] (Supplied r) in
  let r := checkLargeDrop r seqNo in
  if msgNo =? 0 then receiveFEC r seqNo timestamp payload
  else receiveData r seqNo timestamp encFlag payload.

(** ** Counting *)

Fixpoint cnt (n : nat) (f : nat -> bool) : nat :=
  match n with O => O | S n' => (cnt n' f + if f n' then 1 else 0)%nat end.

Lemma cnt_ext n f g : (forall i, (i < n)%nat -> f i = g i) -> cnt n f = cnt n g.
Proof. induction n; simpl; intros H; [done|]. rewrite IHn by auto with lia. by rewrite H by lia. Qed.

Lemma cnt_le n f : (cnt n f <= n)%nat.
Proof. induction n; simpl; [done|]. destruct (f n); lia. Qed.

Lemma cnt_all n f : cnt n f = n -> forall i, (i < n)%nat -> f i = true.
Proof.
  induction n; simpl; intros H i Hi; [lia|]. pose proof (cnt_le n f).
  destruct (f n) eqn:E; [|lia]. destruct (decide (i = n)) as [->|]; [done|]. apply IHn; lia.
Qed.

(** All but one. *)
Lemma cnt_one n f :
  S (cnt n f) = n -> exists j, (j < n)%nat /\ f j = false /\ forall i, (i < n)%nat -> i <> j -> f i = true.
Proof.
  induction n as [|n IH]; simpl; intros H; [lia|]. destruct (f n) eqn:E.
  - destruct (IH ltac:(lia)) as (j & Hj & Hf & Ho). exists j. split_and!; [lia|done|].
    intros i Hi Hne. destruct (decide (i = n)) as [->|]; [done|]. apply Ho; lia.
  - exists n. split_and!; [lia|done|]. intros i Hi Hne. apply (cnt_all n f); lia.
Qed.

Lemma cnt_set n f g j :
  (j < n)%nat -> f j = false -> g j = true -> (forall i, (i < n)%nat -> i <> j -> g i = f i) ->
  cnt n g = S (cnt n f).
Proof.
  induction n as [|n IH]; simpl; intros Hj Hf Hg Ho; [lia|]. destruct (decide (j = n)) as [->|].
  - rewrite Hf, Hg. rewrite (cnt_ext n g f) by auto with lia. lia.
  - rewrite IH by auto with lia. rewrite (Ho n) by lia. lia.
Qed.

(** The XOR of the marked terms, when one more is marked. *)
Lemma xs_set n (f g : nat -> bool) (v : nat -> Z) j :
  (j < n)%nat -> f j = false -> g j = true -> (forall i, (i < n)%nat -> i <> j -> g i = f i) ->
  Fec.xs n (fun i => if g i then v i else 0) = Z.lxor (Fec.xs n (fun i => if f i then v i else 0)) (v j).
Proof.
  intros Hj Hf Hg Ho.
  assert (v j = Fec.xs n (fun i => if Nat.eqb i j then v i else 0)) as ->.
  { rewrite (Fec.xs_single n _ j Hj); [by rewrite Nat.eqb_refl|]. intros i _ Hi. by destruct (Nat.eqb_spec i j). }
  rewrite <- Fec.xs_lxor. apply Fec.xs_ext. intros i Hi.
  destruct (Nat.eqb_spec i j) as [->|Hne]; [by rewrite Hf, Hg|]. rewrite Ho by done. by rewrite Z.lxor_0_r.
Qed.

(** The first hit of a search over [f 0 .. f (n-1)]. *)
Lemma find_map_seq {A} (p : A -> bool) (f : nat -> A) n j :
  (j < n)%nat -> p (f j) = true -> (forall i, (i < j)%nat -> p (f i) = false) ->
  List.find p (map f (seq 0 n)) = Some (f j).
Proof.
  enough (forall a, (a <= j < a + n)%nat -> p (f j) = true -> (forall i, (a <= i < j)%nat -> p (f i) = false) ->
    List.find p (map f (seq a n)) = Some (f j)) as H.
  { intros. apply H; auto with lia. }
  induction n as [|n IH]; intros a Ha Hp Ho; [lia|]. simpl.
  destruct (decide (a = j)) as [->|]; [by rewrite Hp|]. rewrite Ho by lia. apply IH; auto with lia.
Qed.

(** ** The row dimension

    A row-only receiver ([Rows = 1]) of the stream [D]: position [p] of the
    stream has sequence number [sq p], row [k] holds the positions [k * n] to
    [k * n + n - 1]. *)
Section Rows.
Context (c : Config) (ps : nat) (isn : Z) (D : nat -> Fec.src) (n : nat).
Context (Hn : Cols c = Z.of_nat n) (Hn2 : (2 <= n)%nat) (Hmax : Z.of_nat n < 2 ^ 20) (Hisn : Seq.is_seq isn).
Context (Hrows : Rows c = 1) (Hps : Z.of_nat ps < 2 ^ 16).
Context (HD : forall p, (length (Fec.sPayload (D p)) <= ps)%nat).

Definition sq (p : nat) : Z := Seq.sadd isn (Z.of_nat p).

(** The packet as it was sent. *)
Definition original (p : nat) : RecoveredPacket :=
  mkRP (sq p) (Fec.sTs (D p)) (Fec.sFlag (D p)) false (Fec.sPayload (D p)).

(** The group of row [k], whose members [mk] have been received: it has
    clipped exactly these, and the FEC packet if that has arrived. *)
Record group_sum (mk : nat -> bool) (k : nat) (g : fecGroup) : Prop := mkSum {
  gs_collected : collected g = Z.of_nat (cnt n mk);
  gs_obs : forall o, Fec.visible ps o ->
    Fec.obsG g o = Z.lxor (Fec.xs n (fun i => if mk i then Fec.obsP (D (k * n + i)) o else 0))
                     (if hasFEC g then Fec.xs n (fun i => Fec.obsP (D (k * n + i)) o) else 0)
}.

(** A group in its window: besides, it is not one short of complete when its
    FEC packet is there, or it has been completed by a rebuild. *)
Definition group_ok (mk : nat -> bool) (k : nat) (g : fecGroup) : Prop :=
  (group_sum mk k g /\ (hasFEC g = true -> S (cnt n mk) <> n)) \/
  (hasFEC g = true /\ forall i, (i < n)%nat -> mk i = true).

Definition marks (r : FECReceiver) (k i : nat) : bool := cell r (sq (k * n + i)).

(** The window: rows [b], [b+1], .. around the newest position [m]. *)
Record window (m b : nat) (r : FECReceiver) : Prop := mkWindow {
  w_cfg : cfg r = c;
  w_ps : payloadSize r = ps;
  w_rows : rowGroups r <> [];
  w_base : forall i g, rowGroups r !! i = Some g ->
    base (grp g) = sq ((b + i) * n) /\ length (payloadClip (grp g)) = ps;
  w_cellBase : cellBase r = sq (b * n);
  w_cells : forall s v, cells r !! s = Some v ->
    v = true /\ exists p, s = sq p /\ (b * n <= p < (b + length (rowGroups r)) * n)%nat;
  w_last : ((b + length (rowGroups r)) * n <= m + 2 * n)%nat;
  w_first : (m < (b + 10) * n)%nat
}.

Definition groups_ok (b : nat) (r : FECReceiver) : Prop :=
  forall i g, rowGroups r !! i = Some g -> group_ok (marks r (b + i)) (b + i) (grp g).

Lemma sq_inj p q : Z.abs (Z.of_nat q - Z.of_nat p) < 2 ^ 30 -> sq p = sq q -> p = q.
Proof. unfold sq. intros H E. apply Fec.sadd_inj in E; lia. Qed.

Lemma sq_diff p q : Z.abs (Z.of_nat q - Z.of_nat p) < 2 ^ 30 -> seqDiff (sq p) (sq q) = Z.of_nat q - Z.of_nat p.
Proof. apply Fec.seqDiff_sadd. Qed.

Lemma sq_add p k : Z.of_nat k < 2 ^ 31 -> seqAdd (sq p) (u32 (Z.of_nat k)) = sq (p + k).
Proof. intros. unfold sq. rewrite Fec.seqAdd_sadd by lia. f_equal. lia. Qed.

Lemma sq_range p : 0 <= sq p < 2 ^ 31.
Proof. apply Seq.sadd_seq. Qed.

Lemma group_ok_ext mk mk' k g :
  (forall i, (i < n)%nat -> mk' i = mk i) -> group_ok mk k g -> group_ok mk' k g.
Proof.
  intros E [[[Hc Ho] Hne]|[Hf Ha]]; [left|right].
  - rewrite <- (cnt_ext n mk' mk E) in *. split; [|done]. split; [done|]. intros o Hv. rewrite Ho by done.
    f_equal. apply Fec.xs_ext. intros i Hi. by rewrite E.
  - split; [done|]. intros i Hi. rewrite E by done. auto.
Qed.

(** The window is small: at most 12 rows. *)
Lemma window_small m b r : window m b r -> Z.of_nat (length (rowGroups r) * n) <= 12 * Z.of_nat n.
Proof. intros [_ _ _ _ _ _ Hl Hf]. nia. Qed.

(** Two positions of the window with the same sequence number are the same. *)
Lemma window_inj m b r p q :
  window m b r -> (b * n <= p < (b + length (rowGroups r)) * n)%nat ->
  Z.abs (Z.of_nat q - Z.of_nat (b * n)) < 2 ^ 29 -> sq p = sq q -> p = q.
Proof. intros Hw Hp Hq. pose proof (window_small m b r Hw). apply sq_inj. lia. Qed.

(** A position outside of the window is not marked. *)
Lemma cell_outside m b r q :
  window m b r -> Z.abs (Z.of_nat q - Z.of_nat (b * n)) < 2 ^ 29 ->
  ~ (b * n <= q < (b + length (rowGroups r)) * n)%nat -> cell r (sq q) = false.
Proof.
  intros Hw Hq Ho. unfold cell. destruct (cells r !! sq q) as [v|] eqn:E; [|done].
  destruct (w_cells _ _ _ Hw _ _ E) as (_ & p & Es & Hp).
  rewrite (window_inj m b r p q) in Hp; done.
Qed.

(** *** Dropping rows from the front *)
Lemma cleanCells_cell m b r k q :
  window m b r -> (k < length (rowGroups r))%nat ->
  let r' := cleanCells (setRows r (drop k (rowGroups r))) in
  ((b + k) * n <= q)%nat -> Z.abs (Z.of_nat q - Z.of_nat (b * n)) < 2 ^ 29 ->
  cell r' (sq q) = cell r (sq q).
Proof.
  intros Hw Hk r' Hq Hd. pose proof (window_small m b r Hw).
  destruct (lookup_lt_is_Some_2 (rowGroups r) k Hk) as [g Hg].
  destruct (w_base _ _ _ Hw _ _ Hg) as [Hb _].
  unfold r', cleanCells. cbn [rowGroups setRows]. rewrite (drop_S _ g k Hg).
  unfold cell. cbn [cells setCellBase setCells setRows].
  destruct (cells r !! sq q) as [v|] eqn:E.
  - rewrite (proj2 (map_lookup_filter_Some _ _ _ v)); [done|]. split; [done|]. simpl. rewrite Hb, sq_diff; lia.
  - by rewrite (proj2 (map_lookup_filter_None _ _ _)) by (by left).
Qed.

Lemma drop_rows m b r k :
  window m b r -> groups_ok b r -> (k < length (rowGroups r))%nat ->
  let r' := cleanCells (setRows r (drop k (rowGroups r))) in
  window m (b + k) r' /\ groups_ok (b + k) r' /\ rebuilt r' = rebuilt r.
Proof.
  intros Hw Hg Hk r'. pose proof (window_small m b r Hw) as Hs.
  destruct (lookup_lt_is_Some_2 (rowGroups r) k Hk) as [g0 Hg0].
  destruct (w_base _ _ _ Hw _ _ Hg0) as [Hb0 _].
  assert (rowGroups r' = drop k (rowGroups r)) as HR.
  { unfold r', cleanCells. cbn [rowGroups setRows]. by rewrite (drop_S _ g0 k Hg0). }
  assert (rebuilt r' = rebuilt r /\ cfg r' = cfg r /\ payloadSize r' = payloadSize r /\ cellBase r' = sq ((b + k) * n))
    as (E1 & E2 & E3 & E4).
  { unfold r', cleanCells. cbn [rowGroups setRows]. rewrite (drop_S _ g0 k Hg0). by rewrite <- Hb0. }
  split_and!; [split|..|done]; rewrite ?HR, ?length_drop, ?E2, ?E3, ?E4.
  - apply Hw.
  - apply Hw.
  - intros E. apply (f_equal length) in E. rewrite length_drop in E. simpl in E. lia.
  - intros i g. rewrite lookup_drop. intros Hi. rewrite <- Nat.add_assoc. by apply (w_base _ _ _ Hw).
  - done.
  - intros s v. unfold r', cleanCells. cbn [rowGroups setRows]. rewrite (drop_S _ g0 k Hg0).
    cbn [cells setCellBase setCells setRows]. intros [Hc Hd]%map_lookup_filter_Some. simpl in Hd.
    destruct (w_cells _ _ _ Hw _ _ Hc) as (Hv & p & -> & Hp). split; [done|]. exists p. split; [done|].
    rewrite Hb0, sq_diff in Hd; nia.
  - pose proof (w_last _ _ _ Hw). lia.
  - pose proof (w_first _ _ _ Hw). lia.
  - intros i g. rewrite HR, lookup_drop. intros Hi. rewrite <- Nat.add_assoc.
    apply (group_ok_ext (marks r (b + (k + i)))); [|by apply Hg].
    intros j Hj. unfold marks. apply lookup_lt_Some in Hi.
    apply (cleanCells_cell m b r k); [done|done|nia|nia].
Qed.

Lemma dropOldRows_ok m b r threshold s off :
  window m b r -> groups_ok b r ->
  let r' := dropOldRows threshold s off (rowGroups r) r in
  exists k, window m (b + k) r' /\ groups_ok (b + k) r' /\ rebuilt r' = rebuilt r.
Proof.
  intros Hw Hg. cbv zeta. remember (rowGroups r) as gs eqn:E. symmetry in E. revert b r off Hw Hg E.
  induction gs as [|g1 gs IH]; intros b r off Hw Hg E; [by destruct (w_rows _ _ _ Hw)|].
  simpl. destruct gs as [|g2 gs]; [exists O; by rewrite Nat.add_0_r|].
  destruct (off >=? threshold); [|exists O; by rewrite Nat.add_0_r].
  destruct (drop_rows m b r 1) as (Hw' & Hg' & Hr'); [done|done|rewrite E; simpl; lia|]. rewrite E in *.
  change (drop 1 (g1 :: g2 :: gs)) with (g2 :: gs) in *.
  destruct (IH (b + 1)%nat _ (seqDiff (base (grp g2)) s) Hw' Hg' eq_refl) as (k & Hw2 & Hg2 & Hr2).
  exists (S k). replace (b + S k)%nat with (b + 1 + k)%nat by lia. by rewrite Hr2.
Qed.

(** The row of the first group. *)
Lemma window_head m b r : window m b r -> base (grp (rowAt r 0)) = sq (b * n).
Proof.
  intros Hw. unfold rowAt. simpl. pose proof (w_rows _ _ _ Hw). pose proof (w_base _ _ _ Hw 0) as H0.
  destruct (rowGroups r) as [|g gs]; [done|]. destruct (H0 g eq_refl) as [E _].
  rewrite Nat.add_0_r in E. exact E.
Qed.

Lemma len_rows m b r : window m b r -> 0 < len (rowGroups r).
Proof. intros Hw. pose proof (w_rows _ _ _ Hw). unfold len. destruct (rowGroups r); [done|simpl; lia]. Qed.

(** [near]: how far apart the newest position and an arriving one may be. *)
Definition near (p m : nat) : Prop := Z.abs (Z.of_nat p - Z.of_nat m) < 2 ^ 28.

Lemma near_base m b r p : window m b r -> near p m -> Z.abs (Z.of_nat p - Z.of_nat (b * n)) < 2 ^ 29.
Proof.
  unfold near. intros Hw Hp. pose proof (len_rows m b r Hw). unfold len in *.
  pose proof (w_last _ _ _ Hw). pose proof (w_first _ _ _ Hw). nia.
Qed.

(** Without a jump of ten rows the window only moves forward. *)
Lemma checkLargeDrop_ok m b r p :
  window m b r -> groups_ok b r -> near p m -> (p < (b + 10) * n)%nat ->
  let r' := checkLargeDrop r (sq p) in
  exists k, window m (b + k) r' /\ groups_ok (b + k) r' /\ rebuilt r' = rebuilt r.
Proof.
  intros Hw Hg Hp Hj. cbv zeta. unfold checkLargeDrop.
  pose proof (len_rows m b r Hw). pose proof (near_base m b r p Hw Hp).
  destruct (Z.eqb_spec (len (rowGroups r)) 0); [lia|]. rewrite (window_head m b r Hw), sq_diff by lia.
  destruct (Z.ltb_spec (Z.of_nat p - Z.of_nat (b * n)) 0); [exists O; by rewrite Nat.add_0_r|].
  unfold matrixSize. rewrite (w_cfg _ _ _ Hw), Hn, Hrows, Z.mul_1_r.
  assert (Z.quot (Z.of_nat p - Z.of_nat (b * n)) (Z.of_nat n) < 10) as Hq by (apply Z.quot_lt_upper_bound; nia).
  assert ((Z.quot (Z.of_nat p - Z.of_nat (b * n)) (Z.of_nat n) >=? fecMaxRcvHistory) = false) as ->.
  { unfold fecMaxRcvHistory. zbool. lia. }
  rewrite andb_false_r. simpl.
  destruct (dropOldRows_ok m b r (sizeRow c * 2) (sq p) (Z.of_nat p - Z.of_nat (b * n)) Hw Hg) as (k & Hw' & Hg' & Hr').
  rewrite (w_cfg _ _ _ Hw'), Hrows. simpl. eauto.
Qed.

(** *** Extending the rows *)
Lemma extendRow_ok m b r :
  window m b r -> groups_ok b r ->
  let r' := extendRow r in
  ((b + S (length (rowGroups r))) * n <= m + 2 * n)%nat ->
  window m b r' /\ groups_ok b r' /\ length (rowGroups r') = S (length (rowGroups r)).
Proof.
  intros Hw Hg r' Hl. pose proof (len_rows m b r Hw) as Hpos. pose proof (window_small m b r Hw) as Hsm.
  set (L := length (rowGroups r)) in *.
  assert (rowGroups r' = rowGroups r ++ [newRG (sq ((b + L) * n)) 1 ps]) as HR.
  { unfold r', extendRow. cbn [rowGroups setRows]. rewrite (w_ps _ _ _ Hw). repeat f_equal.
    unfold rowAt. replace (Z.to_nat (len (rowGroups r) - 1)) with (L - 1)%nat by (unfold len, L in *; lia).
    destruct (lookup_lt_is_Some_2 (rowGroups r) (L - 1)) as [g Eg]; [unfold len, L in *; lia|].
    rewrite (nth_lookup_Some _ _ _ _ Eg). destruct (w_base _ _ _ Hw _ _ Eg) as [-> _].
    unfold sizeRow. rewrite (w_cfg _ _ _ Hw), Hn, sq_add by lia. f_equal.
    unfold len in Hpos. fold L in Hpos. nia. }
  assert (length (rowGroups r') = S L) as HL by (rewrite HR, length_app; simpl; unfold L; lia).
  split_and!; [split|..|done].
  - apply Hw.
  - apply Hw.
  - rewrite HR. by destruct (rowGroups r).
  - rewrite HR. intros i g [H|[Hi H]]%lookup_app_Some; [by apply (w_base _ _ _ Hw)|].
    apply list_lookup_singleton_Some in H as [Ei <-]. simpl. unfold make. rewrite length_replicate.
    split; [|done]. f_equal. unfold L. f_equal. lia.
  - apply Hw.
  - intros s v Hs. destruct (w_cells _ _ _ Hw s v Hs) as (Hv & p & Ep & Hp). split; [done|]. exists p.
    split; [done|]. rewrite HL. fold L in Hp. nia.
  - rewrite HL. lia.
  - apply Hw.
  - intros i g. rewrite HR. intros [H|[Hi H]]%lookup_app_Some; [by apply Hg|].
    apply list_lookup_singleton_Some in H as [Ei <-]. fold L in Hi, Ei. assert (i = L) as -> by lia.
    assert (forall j, (j < n)%nat -> marks r' (b + L) j = false) as Hm.
    { intros j Hj. unfold marks. change (cell r' (sq ((b + L) * n + j))) with (cell r (sq ((b + L) * n + j))).
      apply (cell_outside m b); [done|nia|]. fold L. nia. }
    left. rewrite (cnt_ext n _ (fun _ => false)) by done.
    assert (forall k, cnt k (fun _ => false) = 0%nat) as Hz by (clear; induction k; simpl; lia). rewrite Hz.
    split; [|simpl; lia]. split; [by rewrite (cnt_ext n _ (fun _ => false)), Hz|]. intros o Ho. simpl.
    rewrite Fec.obs_new, Fec.xs_zero; [done|]. intros j Hj. by rewrite Hm.
Qed.

Lemma window_mono m m' b r : window m b r -> (m <= m' < (b + 10) * n)%nat -> window m' b r.
Proof. intros [] Hm. split; try done; lia. Qed.

Lemma extendRows_ok k m b r :
  window m b r -> groups_ok b r -> ((b + (length (rowGroups r) + k)) * n <= m + 2 * n)%nat ->
  let r' := Nat.iter k extendRow r in
  window m b r' /\ groups_ok b r' /\ length (rowGroups r') = (length (rowGroups r) + k)%nat /\
  rebuilt r' = rebuilt r /\ cells r' = cells r.
Proof.
  intros Hw Hg. cbv zeta. induction k as [|k IH]; intros Hk.
  { simpl. rewrite Nat.add_0_r. done. }
  destruct (IH ltac:(nia)) as (Hw' & Hg' & Hl & Hr & Hc).
  change (Nat.iter (S k) extendRow r) with (extendRow (Nat.iter k extendRow r)).
  destruct (extendRow_ok m b _ Hw' Hg') as (Hw2 & Hg2 & Hl2); [rewrite Hl; nia|].
  split_and!; try done. rewrite Hl2, Hl. lia.
Qed.

(** Where the packet at position [p] goes. *)
Lemma getRowGroupIndex_ok m b r p :
  window m b r -> groups_ok b r -> near p m -> (p < (b + 10) * n)%nat -> (b * n <= p)%nat ->
  exists x r', getRowGroupIndex r (sq p) = (Z.of_nat x, r') /\ (b + x = p / n)%nat /\
    (x < length (rowGroups r'))%nat /\ window (Nat.max m p) b r' /\ groups_ok b r' /\
    rebuilt r' = rebuilt r /\ cells r' = cells r.
Proof.
  intros Hw Hg Hp Hj Hb. unfold getRowGroupIndex.
  pose proof (len_rows m b r Hw). pose proof (near_base m b r p Hw Hp).
  destruct (Z.eqb_spec (len (rowGroups r)) 0); [lia|]. rewrite (window_head m b r Hw), sq_diff by lia.
  destruct (Z.ltb_spec (Z.of_nat p - Z.of_nat (b * n)) 0); [lia|].
  unfold sizeRow, sizeCol. rewrite (w_cfg _ _ _ Hw), Hn, Hrows.
  pose proof (Nat.div_mod_eq p n) as Hdm. pose proof (Nat.mod_upper_bound p n ltac:(lia)) as Hmu.
  assert (b <= p / n)%nat as Hbq by (apply Nat.div_le_lower_bound; lia).
  assert (Z.quot (Z.of_nat p - Z.of_nat (b * n)) (Z.of_nat n) = Z.of_nat (p / n - b)) as ->.
  { rewrite Z.quot_div_nonneg by lia. symmetry. apply (Z.div_unique _ _ _ (Z.of_nat (p mod n))); nia. }
  assert (p / n < b + 10)%nat as Hq by nia.
  assert ((Z.of_nat (p / n - b) >=? fecMaxRcvHistory * 1) = false) as -> by (unfold fecMaxRcvHistory; zbool; lia).
  pose proof (window_mono m (Nat.max m p) b r Hw ltac:(pose proof (w_first _ _ _ Hw); lia)) as Hw'.
  pose proof (w_last _ _ _ Hw') as Hlast.
  set (k := Z.to_nat (Z.of_nat (p / n - b) + 1 - len (rowGroups r))).
  destruct (extendRows_ok k (Nat.max m p) b r Hw' Hg) as (A1 & A2 & A3 & A4 & A5).
  { unfold k, len. nia. }
  exists (p / n - b)%nat, (Nat.iter k extendRow r). split_and!; try done; [lia|].
  rewrite A3. unfold k, len in *. lia.
Qed.

Lemma getRowGroupIndex_old m b r p :
  window m b r -> near p m -> (p < b * n)%nat -> getRowGroupIndex r (sq p) = (-1, r).
Proof.
  intros Hw Hp Hb. unfold getRowGroupIndex. pose proof (len_rows m b r Hw). pose proof (near_base m b r p Hw Hp).
  destruct (Z.eqb_spec (len (rowGroups r)) 0); [lia|]. rewrite (window_head m b r Hw), sq_diff by lia.
  destruct (Z.ltb_spec (Z.of_nat p - Z.of_nat (b * n)) 0); [done|lia].
Qed.

(** The cells play no part in it. *)
Lemma getRowGroupIndex_cells r s M :
  getRowGroupIndex (setCells r M) s = (fst (getRowGroupIndex r s), setCells (snd (getRowGroupIndex r s)) M).
Proof.
  unfold getRowGroupIndex. cbn [rowGroups cfg setCells]. unfold rowAt. cbn [rowGroups setCells].
  repeat case_match; try done. simpl. f_equal.
  generalize (Z.to_nat (Z.quot (seqDiff (base (grp (nth (Z.to_nat 0) (rowGroups r) zeroRG))) s) (sizeRow (cfg r))
    + 1 - len (rowGroups r))). intros k. induction k as [|k IH]; [done|]. simpl. by rewrite IH.
Qed.

(** *** One more packet in a row *)

(** Marking a position of row [x] changes no other row. *)
Lemma mark_other m b r x y i j :
  window m b r -> (x < length (rowGroups r))%nat -> (y < length (rowGroups r))%nat -> (i < n)%nat -> (j < n)%nat ->
  marks (markCell r (sq ((b + x) * n + j)) true) (b + y) i =
    if decide (x = y /\ i = j) then true else marks r (b + y) i.
Proof.
  intros Hw Hx Hy Hi Hj. unfold marks, cell, markCell. cbn [cells setCells].
  destruct (decide (sq ((b + x) * n + j) = sq ((b + y) * n + i))) as [E|E].
  - rewrite E, lookup_insert_eq. simpl. destruct (decide _) as [|Hne]; [done|]. exfalso. apply Hne.
    apply (window_inj m b r) in E; [|done|nia|pose proof (window_small m b r Hw); nia].
    assert (x = y) as -> by nia. split; [done|]. lia.
  - rewrite lookup_insert_ne by done. destruct (decide _) as [[-> ->]|]; done.
Qed.

(** A group one short of complete with its FEC packet holds the missing packet. *)
Lemma group_recover mk k g j :
  group_sum mk k g -> hasFEC g = true -> length (payloadClip g) = ps ->
  (j < n)%nat -> mk j = false -> (forall i, (i < n)%nat -> i <> j -> mk i = true) ->
  let d := D (k * n + j) in
  lengthClip g = len (Fec.sPayload d) /\ timestampClip g = Fec.sTs d /\ flagClip g = Fec.sFlag d /\
  take (Z.to_nat (lengthClip g)) (payloadClip g) = Fec.sPayload d.
Proof.
  intros [_ Ho] Hf Hlen Hj Hm Hall d.
  assert (forall o, Fec.visible ps o -> Fec.obsG g o = Fec.obsP d o) as Hobs.
  { intros o Hv. rewrite Ho, Hf by done. rewrite <- Fec.xs_lxor.
    rewrite (Fec.xs_single n _ j Hj); [by rewrite Hm|]. intros i Hi Hne. rewrite Hall by done. apply Z.lxor_nilpotent. }
  assert (lengthClip g = len (Fec.sPayload d)) as HL.
  { etrans; [apply (Hobs Fec.OLen I)|]. simpl. apply u16_id. pose proof (HD (k * n + j)). unfold is_u16, len, d. lia. }
  split_and!; [done|apply (Hobs Fec.OTs I)|apply (Hobs Fec.OFlag I)|].
  pose proof (HD (k * n + j)) as Hd. fold d in Hd.
  rewrite HL. unfold len. rewrite Nat2Z.id. apply (List.nth_ext _ _ 0 0).
  - rewrite length_take. lia.
  - intros i Hi. rewrite length_take in Hi.
    pose proof (Hobs (Fec.OByte i) ltac:(simpl; lia)) as Hb. simpl in Hb. unfold at_ in Hb.
    rewrite <- Hb. symmetry. rewrite <- (take_drop (length (Fec.sPayload d)) (payloadClip g)) at 1.
    rewrite app_nth1; [done|]. rewrite length_take. lia.
Qed.

Lemma mark_window m b r p :
  window m b r -> (b * n <= p < (b + length (rowGroups r)) * n)%nat -> window m b (markCell r (sq p) true).
Proof.
  intros Hw Hp. split; try apply Hw. intros s v. unfold markCell. cbn [cells setCells rowGroups].
  destruct (decide (s = sq p)) as [->|Hne].
  - rewrite lookup_insert_eq. intros [= <-]. eauto.
  - rewrite lookup_insert_ne by done. apply Hw.
Qed.

Lemma put_window m b r x g0 g :
  window m b r -> rowGroups r !! x = Some g0 -> base (grp g) = base (grp g0) ->
  length (payloadClip (grp g)) = length (payloadClip (grp g0)) -> window m b (putRow r (Z.of_nat x) g).
Proof.
  intros Hw Hx Hb Hl. assert (length (rowGroups (putRow r (Z.of_nat x) g)) = length (rowGroups r)) as HL.
  { unfold putRow. cbn [rowGroups setRows]. apply length_insert. }
  split; try apply Hw; rewrite ?HL; try apply Hw.
  - intros E. rewrite E in HL. pose proof (len_rows m b r Hw). unfold len in *. simpl in HL. lia.
  - intros i h. unfold putRow. cbn [rowGroups setRows]. rewrite Nat2Z.id.
    intros [(-> & <- & _)|[Hne Hi]]%list_lookup_insert_Some; [|by apply (w_base _ _ _ Hw)].
    rewrite Hb, Hl. by apply (w_base _ _ _ Hw).
Qed.

(** The packets a receiver may hand out: sent, and not received so far. *)
Definition recoverable (r : FECReceiver) (q : RecoveredPacket) : Prop :=
  exists p, q = original p /\ cell r (sq p) = false.

(** A row that has just changed is rebuilt if it can be. *)
Lemma settle m b r x g :
  window m b r -> rowGroups r !! x = Some g ->
  (forall i h, i <> x -> rowGroups r !! i = Some h -> group_ok (marks r (b + i)) (b + i) (grp h)) ->
  group_sum (marks r (b + x)) (b + x) (grp g) ->
  let res := if hasFEC (grp g) && (collected (grp g) =? sizeRow (cfg r) - 1) then tryRow r g else (r, true) in
  snd res = true /\ window m b (fst res) /\ groups_ok b (fst res) /\
  exists new, rebuilt (fst res) = rebuilt r ++ new /\ Forall (recoverable r) new.
Proof.
  intros Hw Hx Hoth Hsum. cbv zeta. pose proof (lookup_lt_Some _ _ _ Hx) as Hxl.
  destruct (w_base _ _ _ Hw _ _ Hx) as [Hb Hl]. unfold sizeRow. rewrite (w_cfg _ _ _ Hw), Hn.
  rewrite (gs_collected _ _ _ Hsum).
  destruct (hasFEC (grp g) && (Z.of_nat (cnt n (marks r (b + x))) =? Z.of_nat n - 1)) eqn:E.
  - apply andb_prop in E as [Hf Hc%Z.eqb_eq].
    destruct (cnt_one n (marks r (b + x))) as (j & Hj & Hmj & Hall); [lia|].
    destruct (group_recover _ _ _ j Hsum Hf Hl Hj Hmj Hall) as (R1 & R2 & R3 & R4).
    assert (findLostInRow r g = sq ((b + x) * n + j)) as HL.
    { unfold findLostInRow, firstLost, sizeRow. rewrite (w_cfg _ _ _ Hw), Hn, Nat2Z.id, Hb.
      rewrite (find_map_seq _ _ n j); [| |rewrite Z.mul_1_r, sq_add by lia; unfold marks in Hmj; by rewrite Hmj|].
      - simpl. rewrite Z.mul_1_r, sq_add by lia. done.
      - done.
      - intros i Hi. rewrite Z.mul_1_r, sq_add by lia.
        pose proof (Hall i ltac:(lia) ltac:(lia)) as Ha. unfold marks in Ha. by rewrite Ha. }
    unfold tryRow. rewrite HL. pose proof (sq_range ((b + x) * n + j)) as Hsq.
    destruct (Z.geb_spec (sq ((b + x) * n + j)) 0); [|lia].
    unfold rowType. rewrite (w_cfg _ _ _ Hw), Hrows. unfold rebuildFuel. cbn [Z.leb Z.compare Pos.compare Pos.compare_cont rebuild].
    rewrite (w_ps _ _ _ Hw), u32_id by (unfold is_u32; lia).
    pose proof (HD ((b + x) * n + j)) as Hd.
    destruct (Z.gtb_spec (lengthClip (grp g)) (Z.of_nat ps)); [unfold len in R1; lia|].
    cbn [fst snd]. set (r1 := setRebuilt r _ _).
    assert (window m b r1) as Hw1 by (split; apply Hw).
    split_and!; [done|apply mark_window; [done|change (rowGroups r1) with (rowGroups r); nia]| |].
    + intros i h Hi. change (rowGroups (markCell r1 _ true)) with (rowGroups r) in Hi.
      pose proof (lookup_lt_Some _ _ _ Hi) as Hil.
      assert (forall i', (i' < n)%nat -> marks (markCell r1 (sq ((b + x) * n + j)) true) (b + i) i' =
                if decide (x = i /\ i' = j) then true else marks r (b + i) i') as Hmk.
      { intros i' Hi'. by rewrite (mark_other m b r1 x i i' j) by done. }
      destruct (decide (x = i)) as [<-|Hne].
      * right. rewrite Hx in Hi. injection Hi as <-. split; [done|]. intros i' Hi'. rewrite Hmk by done.
        destruct (decide _) as [|Hd']; [done|]. apply Hall; [done|tauto].
      * apply (group_ok_ext (marks r (b + i))); [|by apply Hoth].
        intros i' Hi'. rewrite Hmk by done. destruct (decide _) as [[]|]; done.
    + eexists. split; [reflexivity|]. repeat constructor. exists ((b + x) * n + j)%nat.
      split; [|exact Hmj]. unfold original. by rewrite R2, R3, R4.
  - cbn [fst snd]. split_and!; [done|done| |exists []; by rewrite app_nil_r].
    intros i h Hi. destruct (decide (i = x)) as [->|Hne]; [|by apply Hoth].
    rewrite Hx in Hi. injection Hi as <-. left. split; [done|]. intros Hf. rewrite Hf in E. simpl in E.
    apply Z.eqb_neq in E. lia.
Qed.

(** *** Arriving packets *)

Definition outcome (m b : nat) (r r' : FECReceiver) : Prop :=
  window m b r' /\ groups_ok b r' /\ exists new, rebuilt r' = rebuilt r ++ new /\ Forall (recoverable r) new.

Lemma rowAt_lookup r x g : rowGroups r !! x = Some g -> rowAt r (Z.of_nat x) = g.
Proof. intros H. unfold rowAt. rewrite Nat2Z.id. by apply nth_lookup_Some. Qed.

Lemma lookup_putRow r x y g h :
  rowGroups (putRow r (Z.of_nat x) g) !! y = Some h ->
  (x = y /\ h = g) \/ (x <> y /\ rowGroups r !! y = Some h).
Proof.
  unfold putRow. cbn [rowGroups setRows]. rewrite Nat2Z.id.
  intros [(-> & <- & _)|[Hne Hi]]%list_lookup_insert_Some; auto.
Qed.

(** Clipping a received packet into the sums of its row. *)
Lemma group_sum_data mk mk' k g j :
  group_sum mk k g -> length (payloadClip g) = ps -> (j < n)%nat -> mk j = false -> mk' j = true ->
  (forall i, (i < n)%nat -> i <> j -> mk' i = mk i) ->
  group_sum mk' k (collect (Fec.clipSrc g (D (k * n + j)))).
Proof.
  intros [Hc Ho] Hl Hj Hf Ht Hother. split.
  - simpl. rewrite Hc, (cnt_set n mk mk' j) by done. lia.
  - intros o Hv. change (Fec.obsG (collect (Fec.clipSrc g (D (k * n + j)))) o) with (Fec.obsG (Fec.clipSrc g (D (k * n + j))) o).
    rewrite Fec.obs_clip, Ho by (rewrite ?Hl; done). change (hasFEC (collect (Fec.clipSrc g (D (k * n + j))))) with (hasFEC g).
    rewrite (xs_set n mk mk' (fun i => Fec.obsP (D (k * n + i)) o) j) by done.
    rewrite !Z.lxor_assoc. f_equal. apply Z.lxor_comm.
Qed.

Lemma hangHorizontalData_ok m b r p :
  window m b r -> groups_ok b r -> near p m -> (b * n <= p < (b + 10) * n)%nat -> cell r (sq p) = false ->
  exists r', hangHorizontalData (markCell r (sq p) true) (sq p) (Fec.sTs (D p)) (Fec.sFlag (D p)) (Fec.sPayload (D p))
    = (true, r', true) /\ outcome (Nat.max m p) b r r'.
Proof.
  intros Hw Hg Hp Hj Hc. unfold hangHorizontalData, markCell. rewrite getRowGroupIndex_cells.
  destruct (getRowGroupIndex_ok m b r p) as (x & r1 & -> & Hx & Hxl & Hw1 & Hg1 & Hr1 & Hc1); [done|done|done|lia|lia|].
  cbn [fst snd]. destruct (Z.ltb_spec (Z.of_nat x) 0); [lia|]. rewrite <- Hc1.
  change (setCells r1 (<[sq p:=true]> (cells r1))) with (markCell r1 (sq p) true).
  destruct (lookup_lt_is_Some_2 _ _ Hxl) as [g Eg]. rewrite (rowAt_lookup _ x g) by done.
  set (r2 := markCell r1 (sq p) true). set (g' := onGroup _ g). set (r3 := putRow r2 (Z.of_nat x) g').
  pose proof (Nat.div_mod_eq p n) as Hdm. pose proof (Nat.mod_upper_bound p n ltac:(lia)) as Hmu.
  set (j := (p mod n)%nat) in *. assert (p = (b + x) * n + j)%nat as Ep by (rewrite Hx; lia).
  assert (cell r1 (sq p) = false) as Hc1' by (unfold cell in *; by rewrite Hc1).
  assert (window (Nat.max m p) b r2) as Hw2 by (apply mark_window; [done|nia]).
  assert (forall y i, (y < length (rowGroups r1))%nat -> (i < n)%nat ->
            marks r3 (b + y) i = if decide (x = y /\ i = j) then true else marks r1 (b + y) i) as Hmk.
  { intros y i Hy Hi. change (marks r3 (b + y) i) with (marks r2 (b + y) i). unfold r2.
    rewrite Ep. by apply (mark_other (Nat.max m p)). }
  destruct (w_base _ _ _ Hw1 _ _ Eg) as [Hgb Hgl].
  assert (rowGroups r3 !! x = Some g') as Hx3.
  { unfold r3, putRow. cbn [rowGroups setRows]. rewrite Nat2Z.id. by rewrite list_lookup_insert_eq. }
  destruct (settle (Nat.max m p) b r3 x g') as (S1 & S2 & S3 & new & S4 & S5).
  - apply (put_window _ _ _ _ g); [done|done|done|]. unfold g'. cbn [onGroup grp collect clipPacket Fec.clipData payloadClip].
    apply Fec.xorBytes_length.
  - done.
  - intros i h Hi Hl. apply lookup_putRow in Hl as [[? _]|[_ Hl]]; [congruence|].
    apply (group_ok_ext (marks r1 (b + i))); [|by apply Hg1].
    intros i' Hi'. rewrite Hmk; [|by apply lookup_lt_Some in Hl|done]. destruct (decide _) as [[? _]|]; [congruence|done].
  - assert (marks r1 (b + x) j = false) as Hmj by (unfold marks; by rewrite <- Ep).
    destruct (Hg1 x g Eg) as [[Hsum _]|[_ Hall]]; [|by rewrite Hall in Hmj].
    unfold g'. cbn [onGroup grp]. rewrite Ep.
    apply (group_sum_data (marks r1 (b + x))); [done|done|done|done|..].
    + rewrite Hmk by done. by rewrite decide_True.
    + intros i Hi Hne. rewrite Hmk by done. rewrite decide_False by tauto. done.
  - set (res := if hasFEC (grp g') && _ then _ else _) in *. destruct res as [r4 fin]. simpl in S1, S2, S3, S4. subst fin.
    exists r4. split; [done|]. split; [done|]. split; [done|]. exists new.
    change (rebuilt r3) with (rebuilt r1) in S4. rewrite S4, Hr1. split; [done|].
    eapply Forall_impl; [exact S5|]. intros q (pq & -> & Hq). exists pq. split; [done|].
    unfold r3, r2, cell, markCell in Hq. cbn [cells putRow setRows setCells] in Hq.
    unfold cell. rewrite <- Hc1. destruct (decide (sq pq = sq p)) as [E|E]; [by rewrite E, lookup_insert_eq in Hq|].
    by rewrite lookup_insert_ne in Hq.
Qed.

(** The row FEC packet of row [k], as the sender emits it. *)
Definition rowFEC (k : nat) : list Z := Fec.fecData ps (Fec.rowSum ps isn D n k) (-1).
Definition rowFECts (k : nat) : Z := timestampClip (Fec.rowSum ps isn D n k).

Lemma rowSum_length k : length (payloadClip (Fec.rowSum ps isn D n k)) = ps.
Proof.
  unfold Fec.rowSum. destruct (Fec.clipRun_spec (Fec.rowStart ps isn n k) D (k * n) n) as (_ & _ & _ & ->).
  simpl. unfold make. apply length_replicate.
Qed.

Lemma rowFEC_header k : (length (rowFEC k) <? ExtraHeaderSize)%nat = false /\ i8 (at_ (rowFEC k) 0) = -1.
Proof. unfold rowFEC. rewrite Fec.fecData_eq by apply rowSum_length. done. Qed.

Lemma group_sum_fec mk k g :
  group_sum mk k g -> length (payloadClip g) = ps -> hasFEC g = false ->
  group_sum mk k (clipFECPacket (setFEC g) (rowFECts k) (rowFEC k)).
Proof.
  intros [Hc Ho] Hl Hf.
  assert (collected (clipFECPacket (setFEC g) (rowFECts k) (rowFEC k)) = collected g /\
          hasFEC (clipFECPacket (setFEC g) (rowFECts k) (rowFEC k)) = true) as [E1 E2].
  { unfold clipFECPacket. destruct (rowFEC_header k) as [-> _]. done. }
  split; [by rewrite E1|]. intros o Hv. rewrite E2.
  pose proof (Fec.obs_clipFEC (setFEC g) (Fec.rowSum ps isn D n k) (rowFECts k) (-1) o) as H.
  cbn [setFEC payloadClip] in H. rewrite Hl in H. unfold rowFEC.
  rewrite H; [|apply rowSum_length|apply Fec.clipRun_length_u16|done|done].
  unfold Fec.rowSum at 1, Fec.rowStart. rewrite Fec.clipRun_obs by done.
  change (Fec.obsG (setFEC g) o) with (Fec.obsG g o). by rewrite Ho, Hf, Z.lxor_0_r by done.
Qed.

Lemma clipFEC_shape g ts d :
  base (clipFECPacket g ts d) = base g /\ length (payloadClip (clipFECPacket g ts d)) = length (payloadClip g) /\
  hasFEC (clipFECPacket g ts d) = hasFEC g.
Proof. unfold clipFECPacket. destruct (_ <? _)%nat; [done|]. simpl. by rewrite Fec.xorBytes_length. Qed.

Lemma hangHorizontalFEC_ok m b r k :
  let p := (k * n + (n - 1))%nat in
  window m b r -> groups_ok b r -> near p m -> (p < (b + 10) * n)%nat ->
  exists r', hangHorizontalFEC r (sq p) (rowFECts k) (rowFEC k) = (r', true) /\
    outcome (if decide (b * n <= p)%nat then Nat.max m p else m) b r r'.
Proof.
  intros p Hw Hg Hp Hj. unfold hangHorizontalFEC. destruct (decide (b * n <= p)%nat) as [Hb|Hb].
  2:{ rewrite (getRowGroupIndex_old m b r p) by (done || lia). simpl. exists r. split; [done|].
      split; [done|]. split; [done|]. exists []. by rewrite app_nil_r. }
  destruct (getRowGroupIndex_ok m b r p) as (x & r1 & -> & Hx & Hxl & Hw1 & Hg1 & Hr1 & Hc1); [done..|].
  destruct (Z.ltb_spec (Z.of_nat x) 0); [lia|].
  destruct (lookup_lt_is_Some_2 _ _ Hxl) as [g Eg]. rewrite (rowAt_lookup _ x g) by done.
  assert (forall l, Forall (recoverable r1) l -> Forall (recoverable r) l) as Hrec.
  { intros l Hl. eapply Forall_impl; [exact Hl|]. intros q (pq & -> & Hq). exists pq. unfold cell in *. by rewrite <- Hc1. }
  destruct (hasFEC (grp g)) eqn:Hf.
  { exists r1. split; [done|]. split; [done|]. split; [done|]. exists []. by rewrite app_nil_r. }
  assert (p / n = k)%nat as Hk by (symmetry; apply (Nat.div_unique _ _ _ (n - 1)); unfold p; lia).
  destruct (w_base _ _ _ Hw1 _ _ Eg) as [Hgb Hgl].
  set (g' := onGroup _ g). set (r3 := putRow r1 (Z.of_nat x) g').
  destruct (clipFEC_shape (setFEC (grp g)) (rowFECts k) (rowFEC k)) as (C1 & C2 & C3).
  assert (rowGroups r3 !! x = Some g') as Hx3.
  { unfold r3, putRow. cbn [rowGroups setRows]. rewrite Nat2Z.id. by rewrite list_lookup_insert_eq. }
  destruct (settle (Nat.max m p) b r3 x g') as (S1 & S2 & S3 & new & S4 & S5).
  - by apply (put_window _ _ _ _ g).
  - done.
  - intros i h Hi Hl. apply lookup_putRow in Hl as [[? _]|[_ Hl]]; [congruence|]. by apply Hg1.
  - destruct (Hg1 x g Eg) as [[Hsum _]|[Hf' _]]; [|congruence]. rewrite Hx, Hk in *.
    by apply group_sum_fec.
  - assert (hasFEC (grp g') = true) as HF by exact C3. rewrite HF in *. cbn [andb] in *.
    set (res := if collected (grp g') =? _ then _ else _) in *. destruct res as [r4 fin]. simpl in S1, S2, S3, S4. subst fin.
    exists r4. split; [done|]. split; [done|]. split; [done|]. exists new.
    change (rebuilt r3) with (rebuilt r1) in S4. rewrite S4, Hr1. split; [done|]. by apply Hrec.
Qed.

(** The loss report drops complete rows only. *)
Lemma collectLossReport_ok m b r :
  window m b r -> groups_ok b r ->
  exists k, window m (b + k) (snd (collectLossReport r)) /\ groups_ok (b + k) (snd (collectLossReport r)) /\
    rebuilt (snd (collectLossReport r)) = rebuilt r.
Proof.
  intros Hw Hg. unfold collectLossReport. destruct (ARQ (cfg r)); try (exists O; by rewrite Nat.add_0_r).
  destruct (Z.ltb_spec (len (rowGroups r)) 2); [exists O; by rewrite Nat.add_0_r|].
  destruct (_ && _); [exists O; by rewrite Nat.add_0_r|].
  set (k := Z.to_nat _).
  assert (k < length (rowGroups r))%nat as Hk.
  { unfold k, len in *. destruct (Z.ltb_spec (Z.of_nat (length (rowGroups r)) - 2 - 1) 0); lia. }
  rewrite (proj2 (Nat.ltb_lt _ _) Hk).
  assert (drop k (map (fun g => mkRG (grp g) true) (take k (rowGroups r)) ++ drop k (rowGroups r)) = drop k (rowGroups r)) as ->.
  { rewrite drop_app_ge; rewrite length_map, length_take, Nat.min_l by lia; [by rewrite Nat.sub_diag|lia]. }
  exists k. apply drop_rows; done.
Qed.

(** *** Runs *)

(** What arrives: a packet of the stream (with its message number) or the row
    FEC packet the sender emitted for a row. *)
Inductive event : Type := Data (p : nat) (msgNo : Z) | RowFEC (k : nat).

Definition pos (e : event) : nat := match e with Data p _ => p | RowFEC k => (k * n + (n - 1))%nat end.

Definition deliver (r : FECReceiver) (e : event) : Received * FECReceiver * bool :=
  match e with
  | Data p mn => Receive r (sq p) (Fec.sTs (D p)) (Fec.sFlag (D p)) mn (Fec.sPayload (D p))
  | RowFEC k =>
      match list.last (Fec.pendingFEC (Fec.feedStream c ps isn D ((k + 1) * n))) with
      | Some f => Receive r (Fec.seqNo f) (Fec.timestamp f) 0 0 (Fec.pdata f)
      | None => (mkReceived [] [] false, r, true)
      end
  end.

(** Not ten rows or more ahead of the window: no full reset. *)
Definition noJump (r : FECReceiver) (e : event) : Prop :=
  seqDiff (base (grp (rowAt r 0))) (sq (pos e)) < fecMaxRcvHistory * Cols c.

Definition isData (e : event) : Prop := match e with Data _ mn => mn <> 0 | RowFEC _ => True end.

(** [m] is the newest position so far; an arriving packet is within 2^28 of it. *)
Inductive frun : nat -> FECReceiver -> list RecoveredPacket -> Prop :=
| frun_start : frun 0 (NewFECReceiver c ps isn) []
| frun_step m r out e o r' fin :
    frun m r out -> near (pos e) m -> noJump r e -> isData e -> deliver r e = (o, r', fin) ->
    frun (Nat.max m (pos e)) r' (out ++ recovered o).

Context (Hco : ColsOnly c = false).

Lemma deliver_RowFEC r k : deliver r (RowFEC k) = Receive r (sq (pos (RowFEC k))) (rowFECts k) 0 0 (rowFEC k).
Proof. unfold deliver. by rewrite Fec.feedStream_rowFEC by done. Qed.

Lemma outcome_refl m b r : window m b r -> groups_ok b r -> outcome m b r r.
Proof. intros. split; [done|]. split; [done|]. exists []. by rewrite app_nil_r. Qed.

Lemma outcome_originals m b r r' : outcome m b r r' -> rebuilt r = [] -> Forall (fun q => exists p, q = original p) (rebuilt r').
Proof.
  intros (_ & _ & new & -> & H) ->. eapply Forall_impl; [exact H|]. intros q (p & -> & _). eauto.
Qed.

Lemma receiveData_ok m b r p :
  window m b r -> groups_ok b r -> near p m -> (p < (b + 10) * n)%nat -> rebuilt r = [] ->
  exists o r', receiveData r (sq p) (Fec.sTs (D p)) (Fec.sFlag (D p)) (Fec.sPayload (D p)) = (o, r', true) /\
    window (Nat.max m p) b r' /\ groups_ok b r' /\ Forall (fun q => exists p, q = original p) (recovered o).
Proof.
  intros Hw Hg Hp Hj Hr. unfold receiveData. pose proof (near_base m b r p Hw Hp).
  rewrite (w_cellBase _ _ _ Hw), sq_diff by lia.
  destruct (Z.ltb_spec (Z.of_nat p - Z.of_nat (b * n)) 0).
  { eexists _, r. split; [reflexivity|]. split; [|done]. apply (window_mono m); [done|].
    pose proof (w_first _ _ _ Hw). lia. }
  destruct (cell r (sq p)) eqn:E.
  { eexists _, r. split; [reflexivity|]. split; [|done]. apply (window_mono m); [done|].
    pose proof (w_first _ _ _ Hw). lia. }
  cbn [orb]. destruct (hangHorizontalData_ok m b r p) as (r' & -> & Ho); [done|done|done|lia|done|].
  pose proof Ho as (Hw' & Hg' & _). rewrite (w_cfg _ _ _ Hw'), Hrows. simpl.
  eexists _, r'. split; [reflexivity|]. split; [done|]. split; [done|]. by apply (outcome_originals _ _ _ _ Ho).
Qed.

Lemma receiveFEC_ok m b r k :
  let p := pos (RowFEC k) in
  window m b r -> groups_ok b r -> near p m -> (p < (b + 10) * n)%nat -> rebuilt r = [] ->
  exists o r' b', receiveFEC r (sq p) (rowFECts k) (rowFEC k) = (o, r', true) /\
    window (Nat.max m p) b' r' /\ groups_ok b' r' /\ Forall (fun q => exists p, q = original p) (recovered o).
Proof.
  intros p Hw Hg Hp Hj Hr. unfold receiveFEC. destruct (rowFEC_header k) as [-> ->]. cbn [Z.eqb Pos.eqb markCell].
  set (r0 := setExtra r _). assert (window m b r0) as Hw0 by (split; apply Hw).
  destruct (hangHorizontalFEC_ok m b r0 k) as (r1 & E & Ho); [done|done|done|done|]. fold p in E, Ho.
  change (k * n + (n - 1))%nat with p in E, Ho. rewrite E. pose proof Ho as (Hw1 & Hg1 & _).
  assert (window (Nat.max m p) b r1) as Hw2.
  { destruct (decide _); [done|]. apply (window_mono m); [done|]. pose proof (w_first _ _ _ Hw). lia. }
  destruct (collectLossReport_ok _ b r1 Hw2 Hg1) as (k' & Hw3 & Hg3 & Hr3).
  destruct (collectLossReport r1) as [losses r2]. cbn [snd app] in *.
  eexists _, r2, (b + k')%nat. split; [reflexivity|]. split; [done|]. split; [done|]. simpl. rewrite Hr3.
  by apply (outcome_originals _ _ r0 r1 Ho).
Qed.

Lemma deliver_ok m b r e :
  window m b r -> groups_ok b r -> near (pos e) m -> noJump r e -> isData e ->
  exists o r' b', deliver r e = (o, r', true) /\ window (Nat.max m (pos e)) b' r' /\ groups_ok b' r' /\
    Forall (fun q => exists p, q = original p) (recovered o).
Proof.
  intros Hw Hg Hp Hj Hd. pose proof (near_base m b r _ Hw Hp).
  unfold noJump in Hj. rewrite (window_head m b r Hw), sq_diff, Hn in Hj by lia. unfold fecMaxRcvHistory in Hj.
  set (r0 := setRebuilt r [] (Supplied r)). assert (window m b r0) as Hw0 by (split; apply Hw).
  destruct (checkLargeDrop_ok m b r0 (pos e)) as (k & Hw1 & Hg1 & Hr1); [done|done|done|nia|].
  destruct e as [p mn|kf].
  - unfold deliver, Receive. fold r0. destruct (Z.eqb_spec mn 0); [done|]. cbn [pos] in *.
    destruct (receiveData_ok m (b + k) (checkLargeDrop r0 (sq p)) p) as (o & r' & E & W & G & F); [done|done|done|nia|done|].
    exists o, r', (b + k)%nat. by split_and!.
  - rewrite deliver_RowFEC. unfold Receive. fold r0. cbn [Z.eqb].
    apply (receiveFEC_ok m (b + k)); [done|done|done|nia|done].
Qed.

Lemma start_ok : window 0 0 (NewFECReceiver c ps isn) /\ groups_ok 0 (NewFECReceiver c ps isn).
Proof.
  unfold NewFECReceiver. cbv zeta. rewrite Hrows, Hn. change (1 >? 1) with false. cbv iota.
  change (Z.to_nat 2) with 2%nat. cbn [seq map]. set (r := mkRcv _ _ _ _ _ _ _ _ _ _ _ _).
  assert (forall i g, rowGroups r !! i = Some g -> g = newRG (sq (i * n)) 1 ps) as Hgrp.
  { assert (isn = sq 0) as Ei by (unfold sq; by rewrite Seq.sadd_0).
    intros [|[|i]] g; cbn [r rowGroups lookup list_lookup]; [intros [= <-]..|done].
    - f_equal. change (u32 (Z.of_nat 0 * Z.of_nat n)) with (u32 (Z.of_nat 0)). rewrite Ei, sq_add by lia. done.
    - f_equal. replace (Z.of_nat 1 * Z.of_nat n) with (Z.of_nat (1 * n)) by lia. rewrite Ei, sq_add by lia. done. }
  split; [split; try done|].
  - intros i g Hi. rewrite (Hgrp i g Hi). simpl. unfold make. by rewrite length_replicate.
  - simpl. unfold sq. by rewrite Seq.sadd_0.
  - lia.
  - intros i g Hi. rewrite (Hgrp i g Hi). left.
    assert (forall k, cnt k (fun _ => false) = 0%nat) as Hz by (clear; induction k; simpl; lia).
    rewrite (cnt_ext n _ (fun _ => false)), Hz by done. split; [|simpl; lia].
    split; [by rewrite (cnt_ext n _ (fun _ => false)), Hz by done|]. intros o Ho. simpl. rewrite Fec.obs_new.
    by rewrite Fec.xs_zero.
Qed.

Lemma frun_ok m r out :
  frun m r out -> (exists b, window m b r /\ groups_ok b r) /\ Forall (fun q => exists p, q = original p) out.
Proof.
  induction 1 as [|m r out e o r' fin _ [(b & Hw & Hg) IH] Hp Hj Hd E].
  - split; [exists O; apply start_ok|done].
  - destruct (deliver_ok m b r e Hw Hg Hp Hj Hd) as (o' & r2 & b' & E' & Hw' & Hg' & Ho).
    rewrite E in E'. injection E' as -> -> ->. split; [eauto|]. by apply Forall_app.
Qed.

(** The number of missing packets of a row. *)
Lemma groupLosses_length b r g :
  base (grp g) = sq (b * n) ->
  length (groupLosses r (base (grp g)) 1 (Cols c)) = (n - cnt n (marks r b))%nat.
Proof.
  intros ->. unfold groupLosses. rewrite Hn, Nat2Z.id.
  assert (forall k, (k <= n)%nat ->
    length (List.filter (fun s => negb (cell r s)) (map (fun i => seqAdd (sq (b * n)) (u32 (Z.of_nat i * 1))) (seq 0 k)))
      = (k - cnt k (marks r b))%nat) as H; [|by apply H].
  induction k as [|k IH]; intros Hk; [done|].
  rewrite seq_S, map_app, List.filter_app, length_app, IH by lia. cbn [map List.filter Nat.add cnt].
  rewrite Z.mul_1_r, sq_add by lia. fold (marks r b k). pose proof (cnt_le k (marks r b)).
  destruct (marks r b k); simpl; lia.
Qed.

(** In every row whose FEC packet has arrived, not exactly one is missing. *)
Lemma window_complete m b r g :
  window m b r -> groups_ok b r -> g ∈ rowGroups r -> hasFEC (grp g) = true ->
  length (groupLosses r (base (grp g)) 1 (Cols c)) <> 1%nat.
Proof.
  intros Hw Hg [i Hi]%list_elem_of_lookup Hf. destruct (w_base _ _ _ Hw _ _ Hi) as [Hb _].
  rewrite (groupLosses_length (b + i) r g Hb). pose proof (cnt_le n (marks r (b + i))).
  destruct (Hg i g Hi) as [[_ Hne]|[_ Hall]]; [specialize (Hne Hf); lia|].
  rewrite (cnt_ext n _ (fun _ => true)) by done.
  assert (forall k, cnt k (fun _ => true) = k) as -> by (clear; induction k; simpl; lia). lia.
Qed.
End Rows.

(** ** Termination of the rebuild recursion *)

(** A group that can still trigger a rebuild: its FEC packet is there and it
    has not reached the count at which the rebuild happens. *)
Definition armed (sz : Z) (g : rcvGroup) : bool := hasFEC (grp g) && (collected (grp g) <? sz - 1).
Definition armedCount (r : FECReceiver) : nat :=
  (length (List.filter (armed (sizeRow (cfg r))) (rowGroups r)) +
   length (List.filter (armed (sizeCol (cfg r))) (colGroups r)))%nat.

Lemma filter_insert_drop {A} (f : A -> bool) (l : list A) i x y :
  l !! i = Some x -> f x = true -> f y = false ->
  length (List.filter f l) = S (length (List.filter f (<[i := y]> l))).
Proof.
  intros Hi Hx Hy. revert i Hi. induction l as [|a l IH]; intros [|i]; simpl; try done.
  - intros [= ->]. by rewrite Hx, Hy.
  - intros Hi. destruct (f a); simpl; by rewrite (IH i Hi).
Qed.

Lemma filter_insert_keep {A} (f : A -> bool) (l : list A) i x y :
  l !! i = Some x -> (f y = true -> f x = true) ->
  (length (List.filter f (<[i := y]> l)) <= length (List.filter f l))%nat.
Proof.
  intros Hi Hf. revert i Hi. induction l as [|a l IH]; intros [|i]; simpl; try done.
  - intros [= ->]. destruct (f y), (f x); simpl; try lia; discriminate (Hf eq_refl).
  - intros Hi. specialize (IH i Hi). destruct (f a); simpl; lia.
Qed.

(** Looking a group up may append new groups, which are not armed. *)
Lemma getRowGroupIndex_armed r s :
  cfg (snd (getRowGroupIndex r s)) = cfg r /\ armedCount (snd (getRowGroupIndex r s)) = armedCount r.
Proof.
  unfold getRowGroupIndex. repeat case_match; try done. cbn [snd].
  generalize (Z.to_nat (Z.quot (seqDiff (base (grp (rowAt r 0))) s) (sizeRow (cfg r)) + 1 - len (rowGroups r))).
  intros k. induction k as [|k [IH1 IH2]]; [done|].
  change (Nat.iter (S k) extendRow r) with (extendRow (Nat.iter k extendRow r)).
  split; [exact IH1|]. rewrite <- IH2. unfold armedCount at 1, extendRow. cbn [rowGroups colGroups cfg setRows].
  rewrite List.filter_app, length_app. simpl. unfold armedCount. lia.
Qed.

Lemma extendColumnSeries_armed r s :
  cfg (extendColumnSeries r s) = cfg r /\ armedCount (extendColumnSeries r s) = armedCount r.
Proof.
  split; [done|]. unfold armedCount, extendColumnSeries. cbn [rowGroups colGroups cfg setColumns].
  rewrite List.filter_app, length_app. f_equal. rewrite <- (Nat.add_0_r (length (List.filter _ (colGroups r)))) at 2.
  f_equal. induction (columnBaseOffsets (cfg r)) as [|o l IH]; [done|]. done.
Qed.

Lemma getColumnGroupIndex_armed r s :
  cfg (snd (getColumnGroupIndex r s)) = cfg r /\ armedCount (snd (getColumnGroupIndex r s)) = armedCount r.
Proof.
  assert (forall k, cfg (Nat.iter k nextSeriesOf r) = cfg r /\ armedCount (Nat.iter k nextSeriesOf r) = armedCount r) as H.
  { induction k as [|k [IH1 IH2]]; [done|].
    change (Nat.iter (S k) nextSeriesOf r) with (nextSeriesOf (Nat.iter k nextSeriesOf r)).
    unfold nextSeriesOf at 1 3. by destruct (extendColumnSeries_armed (Nat.iter k nextSeriesOf r)
      (seqAdd (colBaseISN (Nat.iter k nextSeriesOf r)) (u32 (colSeries (Nat.iter k nextSeriesOf r) * matrixSize (cfg (Nat.iter k nextSeriesOf r))))))
      as [-> ->]. }
  unfold getColumnGroupIndex. cbv zeta. repeat case_match; cbn [snd]; auto.
Qed.

(** Reaching the count disarms the group. *)
Lemma disarm sz (l : list rcvGroup) i (f : fecGroup -> fecGroup) :
  let g' := onGroup f (nth i l zeroRG) in
  hasFEC (f zeroGroup) = false -> (forall g, hasFEC (f g) = hasFEC g /\ collected (f g) = collected g + 1) ->
  hasFEC (grp g') && (collected (grp g') =? sz - 1) = true ->
  length (List.filter (armed sz) l) = S (length (List.filter (armed sz) (<[i := g']> l))).
Proof.
  intros g' H0 Hf [Hh Hc%Z.eqb_eq]%andb_prop. destruct (lookup_lt_is_Some_2 l i) as [g Hg].
  { destruct (decide (i < length l)%nat) as [|Hge]; [done|]. exfalso. unfold g' in Hh.
    rewrite nth_overflow in Hh by lia. simpl in Hh. congruence. }
  assert (grp g' = f (grp g)) as E by (unfold g'; by rewrite (nth_lookup_Some _ _ _ _ Hg)).
  rewrite E in Hh, Hc. destruct (Hf (grp g)) as [F1 F2]. rewrite F1 in Hh. rewrite F2 in Hc.
  apply (filter_insert_drop _ _ _ g); [done|unfold armed; rewrite Hh; simpl; zbool; lia|].
  unfold armed. rewrite E, F1, F2, Hh. simpl. zbool. lia.
Qed.

Definition finishes (rb : RebuildFn) (k : nat) : Prop :=
  forall r g q tp, (armedCount r < k)%nat -> snd (rb r g q tp) = true.

Lemma crossRebuildHorizontal_total rb r s rp :
  finishes rb (armedCount r) -> snd (crossRebuildHorizontal rb r s rp) = true.
Proof.
  intros H. unfold crossRebuildHorizontal. pose proof (getRowGroupIndex_armed r s) as [Hc Ha].
  destruct (getRowGroupIndex r s) as [idx r1]. cbn [snd] in *. destruct (idx <? 0); [done|].
  cbv zeta. set (f := fun g : fecGroup => _). set (g' := onGroup f (rowAt r1 idx)).
  destruct (hasFEC (grp g') && _) eqn:E; [|done]. destruct (_ >=? 0); [|done]. apply H. rewrite <- Ha.
  unfold armedCount, putRow. cbn [rowGroups colGroups cfg setRows].
  rewrite (disarm (sizeRow (cfg r1)) (rowGroups r1) (Z.to_nat idx) f); [|done|done|exact E]. unfold g', rowAt. lia.
Qed.

Lemma crossRebuildVertical_total rb r s rp :
  finishes rb (armedCount r) -> snd (crossRebuildVertical rb r s rp) = true.
Proof.
  intros H. unfold crossRebuildVertical. pose proof (getColumnGroupIndex_armed r s) as [Hc Ha].
  destruct (getColumnGroupIndex r s) as [idx r1]. cbn [snd] in *. destruct (idx <? 0); [done|].
  destruct (negb _); [done|].
  cbv zeta. set (f := fun g : fecGroup => _). set (g' := onGroup f (colAt r1 idx)).
  destruct (hasFEC (grp g') && _) eqn:E; [|done]. destruct (_ >=? 0); [|done]. apply H. rewrite <- Ha.
  unfold armedCount, putColumn. cbn [rowGroups colGroups cfg setColumns].
  rewrite (disarm (sizeCol (cfg r1)) (colGroups r1) (Z.to_nat idx) f); [|done|done|exact E]. unfold g', colAt. lia.
Qed.

Lemma rebuild_total fuel : finishes (rebuild fuel) fuel.
Proof.
  induction fuel as [|fuel IH]; intros r g q tp Hr; [lia|]. cbn [rebuild].
  destruct (_ >? _); [done|]. cbv zeta.
  assert (forall r', armedCount r' = armedCount r -> finishes (rebuild fuel) (armedCount r')) as Hf.
  { intros r' E r2 g2 q2 tp2 H2. apply IH. lia. }
  destruct tp; [by apply crossRebuildVertical_total, Hf|by apply crossRebuildHorizontal_total, Hf|done].
Qed.

Lemma rebuildFuel_enough r g q tp : snd (rebuild (rebuildFuel r) r g q tp) = true.
Proof.
  apply rebuild_total. unfold armedCount, rebuildFuel.
  pose proof (List.filter_length_le (armed (sizeRow (cfg r))) (rowGroups r)).
  pose proof (List.filter_length_le (armed (sizeCol (cfg r))) (colGroups r)). lia.
Qed.

Lemma tryRow_total r g : snd (tryRow r g) = true.
Proof. unfold tryRow. case_match; [apply rebuildFuel_enough|done]. Qed.
Lemma tryColumn_total r g : snd (tryColumn r g) = true.
Proof. unfold tryColumn. case_match; [apply rebuildFuel_enough|done]. Qed.

Lemma hangHorizontalData_total r s ts fl d : snd (hangHorizontalData r s ts fl d) = true.
Proof.
  unfold hangHorizontalData. destruct (getRowGroupIndex r s) as [i r1]. destruct (i <? 0); [done|]. cbv zeta.
  set (r2 := putRow _ _ _). set (g := onGroup _ _). destruct (_ && _); [|done].
  pose proof (tryRow_total r2 g) as H. by destruct (tryRow r2 g).
Qed.
Lemma hangVerticalData_total r s ts fl d : snd (hangVerticalData r s ts fl d) = true.
Proof.
  unfold hangVerticalData. destruct (getColumnGroupIndex r s) as [i r1]. destruct (i <? 0); [done|].
  destruct (negb _); [done|]. cbv zeta.
  set (r2 := putColumn _ _ _). set (g := onGroup _ _). destruct (_ && _); [|done].
  pose proof (tryColumn_total r2 g) as H. by destruct (tryColumn r2 g).
Qed.
Lemma hangHorizontalFEC_total r s ts d : snd (hangHorizontalFEC r s ts d) = true.
Proof.
  unfold hangHorizontalFEC. destruct (getRowGroupIndex r s) as [i r1]. destruct (i <? 0); [done|].
  destruct (hasFEC _); [done|]. cbv zeta. destruct (_ =? _); [apply tryRow_total|done].
Qed.
Lemma hangVerticalFEC_total r s ts d x : snd (hangVerticalFEC r s ts d x) = true.
Proof.
  unfold hangVerticalFEC. destruct (getColumnGroupIndex r s) as [i r1]. destruct (i <? 0); [done|].
  destruct (hasFEC _); [done|]. cbv zeta. destruct (_ =? _); [apply tryColumn_total|done].
Qed.

(** ** Properties *)

(** C32. Row FEC is sound and complete: whatever packets of a stream and row
    FEC packets made by the sender arrive (in any order, with any losses and
    duplicates, as long as nothing jumps ten rows ahead), every packet the
    row-only receiver hands out as recovered is the packet that was sent, with
    its sequence number, timestamp, flags and payload; and after every arrival
    no row in the window whose FEC packet is there has exactly one packet
    missing: it has been recovered. *)
Theorem fec_row_recovery (c : Config) (ps : nat) (isn : Z) (D : nat -> Fec.src) (n m : nat)
    (r : FECReceiver) (out : list RecoveredPacket) :
  Cols c = Z.of_nat n -> (2 <= n)%nat -> Z.of_nat n < 2 ^ 20 -> Rows c = 1 -> ColsOnly c = false ->
  Seq.is_seq isn -> Z.of_nat ps < 2 ^ 16 -> (forall p, (length (Fec.sPayload (D p)) <= ps)%nat) ->
  frun c ps isn D n m r out ->
  Forall (fun q => exists p, q = original isn D p) out /\
  (forall g, g ∈ rowGroups r -> hasFEC (grp g) = true -> length (groupLosses r (base (grp g)) 1 (Cols c)) <> 1%nat).
Proof.
  intros Hn Hn2 Hmax Hrows Hco Hisn Hps HD Hrun.
  destruct (frun_ok c ps isn D n Hn Hn2 Hmax Hisn Hrows Hps HD Hco m r out Hrun) as [(b & Hw & Hg) Ho].
  split; [done|]. intros g Hin Hf. by eapply window_complete.
Qed.

(** A stream with a byte of payload per packet. *)
Definition stream (p : nat) : Fec.src := Fec.mkSrc (1000 + Z.of_nat p) 0 [Z.of_nat p].
Definition rows2 : Config := mkConfig 2 1 LayoutStaircase ARQAlways false.

(** The first packet of a row and the row's FEC packet give the second. *)
Definition rec0 : FECReceiver := NewFECReceiver rows2 4 100.
Definition rec1 : FECReceiver := snd (fst (deliver rows2 4 100 stream 2 rec0 (Data 0 1))).
Definition rec2 : FECReceiver := snd (fst (deliver rows2 4 100 stream 2 rec1 (RowFEC 0))).
Definition out2 : list RecoveredPacket := [] ++ recovered (fst (fst (deliver rows2 4 100 stream 2 rec1 (RowFEC 0)))).

Lemma rec_run : frun rows2 4 100 stream 2 (Nat.max (Nat.max 0 0) 1) rec2 out2.
Proof.
  unfold out2. refine (frun_step rows2 4 100 stream 2 (Nat.max 0 0) rec1 [] (RowFEC 0)
    (fst (fst (deliver rows2 4 100 stream 2 rec1 (RowFEC 0)))) rec2 true _ _ _ I _).
  - refine (frun_step rows2 4 100 stream 2 0 rec0 [] (Data 0 1)
      (fst (fst (deliver rows2 4 100 stream 2 rec0 (Data 0 1)))) rec1 true _ _ _ _ _).
    + apply frun_start.
    + unfold near. simpl. lia.
    + vm_compute. reflexivity.
    + simpl. lia.
    + vm_compute. reflexivity.
  - unfold near. simpl. lia.
  - vm_compute. reflexivity.
  - vm_compute. reflexivity.
Qed.

Lemma fec_row_recovery_witness :
  map (fun q => (SeqNo q, Payload q)) out2 = [(101, [1])] /\ Forall (fun q => exists p, q = original 100 stream p) out2.
Proof.
  split; [vm_compute; reflexivity|].
  refine (proj1 (fec_row_recovery rows2 4 100 stream 2 _ rec2 out2 eq_refl _ eq_refl eq_refl eq_refl _ eq_refl _
    rec_run)).
  - lia.
  - unfold Seq.is_seq. lia.
  - intros p. simpl. lia.
Defined.

(** C37. The recursive recovery terminates: for every receiver state and every
    packet, in any configuration, the chain of rebuilds across rows and
    columns ends within the number of groups being tracked. *)
Theorem fec_receive_total (r : FECReceiver) (seqNo timestamp encFlag msgNo : Z) (payload : list Z) :
  snd (Receive r seqNo timestamp encFlag msgNo payload) = true.
Proof.
  unfold Receive. cbv zeta. set (r0 := checkLargeDrop _ _). destruct (msgNo =? 0).
  - unfold receiveFEC. cbv zeta. destruct (_ <? _)%nat; [done|]. set (r1 := markCell _ _ _). destruct (_ =? -1).
    + pose proof (hangHorizontalFEC_total r1 seqNo timestamp payload) as H.
      destruct (hangHorizontalFEC r1 seqNo timestamp payload) as [r2 fin]. by destruct (collectLossReport r2).
    + set (x := i8 _). pose proof (hangVerticalFEC_total r1 seqNo timestamp payload x) as H.
      destruct (hangVerticalFEC r1 seqNo timestamp payload x) as [r2 fin].
      destruct (dismissOldColumns r2 seqNo) as [l r3]. by destruct (collectLossReport r3).
  - unfold receiveData. destruct (_ || _); [done|]. cbv zeta. set (r1 := markCell _ _ _).
    pose proof (hangHorizontalData_total r1 seqNo timestamp encFlag payload) as H.
    destruct (hangHorizontalData r1 seqNo timestamp encFlag payload) as [[okH r2] fin]. simpl in H. subst fin.
    destruct (_ >? 1); [|done].
    pose proof (hangVerticalData_total r2 seqNo timestamp encFlag payload) as H.
    destruct (hangVerticalData r2 seqNo timestamp encFlag payload) as [[okV r3] fin]. simpl in H. subst fin.
    by destruct (dismissOldColumns r3 seqNo).
Qed.

(** After a jump of ten rows the rows are aligned to multiples of the row
    size instead of to the initial sequence number: the next row FEC packet is
    then clipped into a row that is not the sender's, and the receiver hands
    out a packet that was never sent (here the contents of position 22 under
    the sequence number of position 24, which the genuine packet cannot
    replace any more, its cell being marked). *)
Theorem fec_reset_phantom :
  let step r e := snd (fst (deliver rows2 4 1 stream 2 r e)) in
  let r2 := step (step (NewFECReceiver rows2 4 1) (Data 21 1)) (Data 23 1) in
  let '(o, r3, _) := deliver rows2 4 1 stream 2 r2 (RowFEC 11) in
  recovered o = [mkRP (sq 1 24) (Fec.sTs (stream 22)) (Fec.sFlag (stream 22)) false (Fec.sPayload (stream 22))] /\
  recovered o <> [original 1 stream 24] /\ cell r3 (sq 1 24) = true.
Proof. vm_compute. split; [reflexivity|]. split; [congruence|reflexivity]. Qed.

(** ** Two dimensions

    A transmission in which the packets in [lost] are lost and everything else
    arrives in order, FEC packets included. *)
Definition receiveAll (fs : list Fec.pendingFECPacket) (st : FECReceiver * list RecoveredPacket * list Z) :
    FECReceiver * list RecoveredPacket * list Z :=
  fold_left (fun st f =>
    let '(r, out, losses) := st in
    let '(o, r, _) := Receive r (Fec.seqNo f) (Fec.timestamp f) 0 0 (Fec.pdata f) in
    (r, out ++ recovered o, losses ++ lossReport o)) fs st.

Fixpoint transmit (c : Config) (ps : nat) (isn : Z) (D : nat -> Fec.src) (lost : list nat) (k : nat) :
    FECReceiver * list RecoveredPacket * list Z :=
  match k with
  | O => (NewFECReceiver c ps isn, [], [])
  | S p =>
      let '(r, out, losses) := transmit c ps isn D lost p in
      let st := if bool_decide (p ∈ lost) then (r, out, losses) else
        let '(o, r, _) := Receive r (sq isn p) (Fec.sTs (D p)) (Fec.sFlag (D p)) 1 (Fec.sPayload (D p)) in
        (r, out ++ recovered o, losses ++ lossReport o) in
      receiveAll (Fec.pendingFEC (Fec.feedStream c ps isn D (S p))) st
  end.

(** Column FEC stops working after a few matrices: the number of tracked
    column series is used both as a count and as the index of the next series,
    so once old series are trimmed the new groups get the wrong bases.  In a
    2x2 matrix both packets of a lost row are recovered through the columns in
    the first three matrices, and in none of the following seven, although
    every other packet and every FEC packet arrives. *)
Theorem fec_columns_stop :
  let c := mkConfig 2 2 LayoutEven ARQAlways false in
  let recovery k := map SeqNo (snd (fst (transmit c 4 0 stream [2 * k; 2 * k + 1]%nat (2 * k + 8)))) in
  (forall k, (k < 6)%nat -> recovery k = [Z.of_nat (2 * k); Z.of_nat (2 * k + 1)]) /\
  (forall k, (6 <= k < 20)%nat -> recovery k = []).
Proof.
  cbv zeta. split; intros k Hk.
  - do 6 (destruct k as [|k]; [vm_compute; reflexivity|]). lia.
  - do 20 (destruct k as [|k]; [lia || (vm_compute; reflexivity)|]). lia.
Qed.

(** In the default mode ([arq:onreq]) a receiver with several rows starts
    with rows that have not been sent yet, and the first loss report dismisses
    one of them: without any loss, the FEC packet of the first row makes it
    report the whole second row (packets 4 to 7, still to be sent) as lost and
    discard them from its window, and a few packets later it hands out a
    packet that was never sent (number 0 with the contents of number 4). *)
Theorem fec_onreq_premature :
  let c := mkConfig 4 3 LayoutStaircase ARQOnReq false in
  let '(r4, _, losses4) := transmit c 4 0 stream [] 4 in
  let '(_, out9, _) := transmit c 4 0 stream [] 9 in
  losses4 = [4; 5; 6; 7] /\ cellBase r4 = 8 /\
  out9 = [mkRP (sq 0 0) (Fec.sTs (stream 4)) (Fec.sFlag (stream 4)) false (Fec.sPayload (stream 4))].
Proof. vm_compute. auto. Qed.
End FecReceiver.
