(* ===== verification/Crypto.v ===== *)
(** * Encryption ([internal/crypto/crypto.go], [internal/crypto/keywrap.go])

    The RFC 3394 key wrap, the crypto context with its two key slots, the key
    material messages and payload encryption.  The cryptographic primitives of
    Go's standard library (the AES block cipher, the CTR key stream, GCM and
    PBKDF2) are operations of the class [Primitives], with what the code relies
    on in [PrimitiveLaws] (decryption inverts encryption and the sizes of the
    results); random bytes are arguments.  A cached [cipher.Block] or
    [cipher.AEAD] is the key it was created from; a nil key is the empty list.
    The mutex has no counterpart: each method holds it for its whole body. *)
From Stdlib Require Import ZArith Lia.
From stdpp Require Import base numbers list option.
From S2P Require Import Prelude Packet Cif.
Import Packet(EncryptionNone, EncryptionEven, EncryptionOdd, EncryptionBoth).
Import Cif(CIFKeyMaterial, mkKM, KeyBasedEncryption, Cipher, Salt, Wrap).
Local Open Scope Z_scope.

Module Crypto.

(** ** Primitives *)

Class Primitives : Type := {
  aesEncrypt : list Z -> list Z -> list Z;
  aesDecrypt : list Z -> list Z -> list Z;
  (** the first bytes of [cipher.NewCTR(aes(key), iv)]'s key stream *)
  ctrStream : list Z -> list Z -> nat -> list Z;
  gcmSeal : list Z -> list Z -> list Z -> list Z -> list Z;
  gcmOpen : list Z -> list Z -> list Z -> list Z -> option (list Z);
  (** [pbkdf2.Key(sha1.New, passphrase, salt, iterations, keyLength)] *)
  pbkdf2 : list Z -> list Z -> Z -> nat -> list Z
}.

Class PrimitiveLaws {P : Primitives} : Prop := {
  aes_inverse : forall key b, length b = 16%nat -> bytes_ok b -> aesDecrypt key (aesEncrypt key b) = b;
  aes_block : forall key b, length b = 16%nat -> bytes_ok b ->
    length (aesEncrypt key b) = 16%nat /\ bytes_ok (aesEncrypt key b);
  ctr_length : forall key iv n, length (ctrStream key iv n) = n;
  gcm_inverse : forall key nonce data aad, gcmOpen key nonce (gcmSeal key nonce data aad) aad = Some data;
  gcm_length : forall key nonce data aad, length (gcmSeal key nonce data aad) = (length data + 16)%nat;
  pbkdf2_length : forall pass salt iter n, length (pbkdf2 pass salt iter n) = n
}.

(** [binary.BigEndian.Uint64] of the first 8 bytes, and [PutUint64]. *)
Definition Uint64 (b : list Z) : Z := Z.lor (Z.shiftl (Uint32 b 0) 32) (Uint32 b 4).
Definition be64 (v : Z) : list Z := be32 (Z.shiftr v 32) ++ be32 v.

(** [a[i] ^= b[i]] over two arrays. *)
Definition xorLists (a b : list Z) : list Z := zip_with Z.lxor a b.

Inductive CryptoError : Type :=
| ErrKeySize (n : Z)
| ErrRandom
| ErrInvalidKey
| ErrInvalidPassphrase
| ErrAuthFailed
| ErrUnwrappedLength (got want : Z)
| ErrWrapPlaintext
| ErrUnwrapCiphertext
| ErrUnwrapFailed.

Definition CipherCTR : Z := 2.
Definition CipherGCM : Z := 4.
Definition AuthNone : Z := 0.
Definition AuthGCM : Z := 1.
Definition GCMTagSize : Z := 16.
Definition GCMNonceSize : nat := 12.

Section Crypto.
Context {P : Primitives}.

(** [aes.NewCipher]: an error unless the key has 16, 24 or 32 bytes. *)
Definition NewCipher (key : list Z) : result CryptoError (list Z) :=
  let n := len key in
  if (n =? 16) || (n =? 24) || (n =? 32) then Ok key else Err (ErrKeySize n).

(** ** Key wrap *)

Definition defaultIV : list Z := replicate 8 0xA6.

(** One step of the wrapping loops: [j] is the round, [i] the block. *)
Definition wrapStep (key : list Z) (n j : nat) (st : list Z * list Z) (i : nat) : list Z * list Z :=
  let '(a, r) := st in
  let b := aesEncrypt key (a ++ slice (i * 8) ((i + 1) * 8) r) in
  let t := Z.of_nat (n * j + i + 1) in
  (be64 (Z.lxor (Uint64 (take 8 b)) t), copy_at r (i * 8) (drop 8 b)).

Definition unwrapStep (key : list Z) (n j : nat) (st : list Z * list Z) (i : nat) : list Z * list Z :=
  let '(a, r) := st in
  let t := Z.of_nat (n * j + i + 1) in
  let b := aesDecrypt key (be64 (Z.lxor (Uint64 a) t) ++ slice (i * 8) ((i + 1) * 8) r) in
  (take 8 b, copy_at r (i * 8) (drop 8 b)).

Definition wrapRound (key : list Z) (n : nat) (st : list Z * list Z) (j : nat) : list Z * list Z :=
  fold_left (wrapStep key n j) (seq 0 n) st.
Definition unwrapRound (key : list Z) (n : nat) (st : list Z * list Z) (j : nat) : list Z * list Z :=
  fold_left (unwrapStep key n j) (rev (seq 0 n)) st.

Definition KeyWrap (kek plaintext : list Z) : result CryptoError (list Z) :=
  if negb (Z.rem (len plaintext) 8 =? 0) || (len plaintext =? 0) then Err ErrWrapPlaintext else
  block ← NewCipher kek;
  let n := Nat.div (length plaintext) 8 in
  let '(a, r) := fold_left (wrapRound block n) (seq 0 6) (defaultIV, plaintext) in
  Ok (a ++ r).

Definition KeyUnwrap (kek ciphertext : list Z) : result CryptoError (list Z) :=
  if negb (Z.rem (len ciphertext) 8 =? 0) || (len ciphertext <? 16) then Err ErrUnwrapCiphertext else
  block ← NewCipher kek;
  let n := (Nat.div (length ciphertext) 8 - 1)%nat in
  let '(a, r) := fold_left (unwrapRound block n) (rev (seq 0 6)) (take 8 ciphertext, drop 8 ciphertext) in
  if bool_decide (a <> defaultIV) then Err ErrUnwrapFailed else Ok r.

(** ** The context *)

Record Context : Type := mkCtx {
  mode : Z;
  keyLength : Z;
  salt : list Z;
  evenSEK : list Z;
  oddSEK : list Z;
  evenCipher : option (list Z);
  oddCipher : option (list Z);
  evenAEAD : option (list Z);
  oddAEAD : option (list Z);
  useGcm153 : bool
}.

Definition setMode_ (c : Context) (m : Z) : Context :=
  mkCtx m (keyLength c) (salt c) (evenSEK c) (oddSEK c) (evenCipher c) (oddCipher c) (evenAEAD c) (oddAEAD c) (useGcm153 c).
Definition setSalt (c : Context) (s : list Z) : Context :=
  mkCtx (mode c) (keyLength c) s (evenSEK c) (oddSEK c) (evenCipher c) (oddCipher c) (evenAEAD c) (oddAEAD c) (useGcm153 c).
Definition setEven (c : Context) (sek : list Z) (block aead : option (list Z)) : Context :=
  mkCtx (mode c) (keyLength c) (salt c) sek (oddSEK c) block (oddCipher c) aead (oddAEAD c) (useGcm153 c).
Definition setOdd (c : Context) (sek : list Z) (block aead : option (list Z)) : Context :=
  mkCtx (mode c) (keyLength c) (salt c) (evenSEK c) sek (evenCipher c) block (evenAEAD c) aead (useGcm153 c).

(** [generateSEK]; [rand] is what [rand.Read] delivers, [None] an error. *)
Definition GenerateSEK (c : Context) (rand : option (list Z)) (key : Z) : result CryptoError Context :=
  match rand with
  | None => Err ErrRandom
  | Some sek =>
      block ← NewCipher sek;
      let aead := if mode c =? CipherGCM then Some block else None in
      if key =? EncryptionEven then Ok (setEven c sek (Some block) aead)
      else if key =? EncryptionOdd then Ok (setOdd c sek (Some block) aead)
      else Err ErrInvalidKey
  end.

Definition NewWithMode (keyLength mode : Z) (randSalt randEven randOdd : option (list Z)) :
    result CryptoError Context :=
  if negb ((keyLength =? 16) || (keyLength =? 24) || (keyLength =? 32)) then Err (ErrKeySize keyLength) else
  match randSalt with
  | None => Err ErrRandom
  | Some s =>
      let c := mkCtx mode keyLength s [] [] None None None None false in
      c ← GenerateSEK c randEven EncryptionEven;
      GenerateSEK c randOdd EncryptionOdd
  end.

Definition New (keyLength : Z) (randSalt randEven randOdd : option (list Z)) : result CryptoError Context :=
  NewWithMode keyLength CipherCTR randSalt randEven randOdd.

Definition SetMode (c : Context) (m : Z) : Context :=
  if mode c =? m then c else
  let c := setMode_ c m in
  if m =? CipherGCM then
    let c := match evenCipher c with Some b => setEven c (evenSEK c) (evenCipher c) (Some b) | None => c end in
    match oddCipher c with Some b => setOdd c (oddSEK c) (oddCipher c) (Some b) | None => c end
  else c.

Definition SetGCM153 (c : Context) (enabled : bool) : Context :=
  mkCtx (mode c) (keyLength c) (salt c) (evenSEK c) (oddSEK c) (evenCipher c) (oddCipher c) (evenAEAD c) (oddAEAD c) enabled.

Definition ClearSEK (c : Context) (key : Z) : Context :=
  if key =? EncryptionEven then setEven c [] None None
  else if key =? EncryptionOdd then setOdd c [] None None
  else c.

(** ** Payloads *)

Definition cipherOf (c : Context) (key : Z) : option (list Z) :=
  if key =? EncryptionEven then evenCipher c else if key =? EncryptionOdd then oddCipher c else None.
Definition aeadOf (c : Context) (key : Z) : option (list Z) :=
  if key =? EncryptionEven then evenAEAD c else if key =? EncryptionOdd then oddAEAD c else None.

(** The CTR initial counter block: the sequence number at offset 10, XORed
    with the first 14 bytes of the salt. *)
Definition ctrIV (salt : list Z) (seqNo : Z) : list Z :=
  let ctr := PutUint32 (make 16) 10 seqNo in
  xorLists (take 14 ctr) (take 14 salt) ++ drop 14 ctr.

Definition buildGCMNonce (salt : list Z) (seqNo : Z) (legacy : bool) : list Z :=
  if legacy then
    let iv := PutUint32 (make 16) 12 seqNo in
    slice 4 16 (xorLists iv salt)
  else xorLists (PutUint32 (make GCMNonceSize) 8 seqNo) (take GCMNonceSize salt).

Definition xorPayload (c : Context) (data : list Z) (key seqNo : Z) : result CryptoError (list Z) :=
  match cipherOf c key with
  | None => Err ErrInvalidKey
  | Some block => Ok (xorLists data (ctrStream block (ctrIV (salt c) seqNo) (length data)))
  end.

Definition aadOf (header : list Z) : list Z := if len header >=? 16 then slice 0 16 header else [].

Definition encryptGCM (c : Context) (data header : list Z) (key seqNo : Z) : result CryptoError (list Z) :=
  match aeadOf c key with
  | None => Err ErrInvalidKey
  | Some aead => Ok (gcmSeal aead (buildGCMNonce (salt c) seqNo (useGcm153 c)) data (aadOf header))
  end.

Definition decryptGCM (c : Context) (data header : list Z) (key seqNo : Z) : result CryptoError (list Z) :=
  match aeadOf c key with
  | None => Err ErrInvalidKey
  | Some aead =>
      if len data <? GCMTagSize then Err ErrAuthFailed else
      match gcmOpen aead (buildGCMNonce (salt c) seqNo (useGcm153 c)) data (aadOf header) with
      | None => Err ErrAuthFailed
      | Some plaintext => Ok plaintext
      end
  end.

Definition EncryptPayload (c : Context) (data header : list Z) (key seqNo : Z) : result CryptoError (list Z) :=
  if mode c =? CipherGCM then encryptGCM c data header key seqNo else xorPayload c data key seqNo.

Definition DecryptPayload (c : Context) (data header : list Z) (key seqNo : Z) : result CryptoError (list Z) :=
  if mode c =? CipherGCM then decryptGCM c data header key seqNo else xorPayload c data key seqNo.

(** ** Key material *)

Definition calculateKEK (passphrase salt : list Z) (keyLength : Z) : list Z :=
  pbkdf2 passphrase (drop 8 salt) 2048 (Z.to_nat keyLength).

(** The key(s) of the slot(s), as the plaintext of the key wrap. *)
Definition keyPlaintext (c : Context) (key : Z) : list Z :=
  let k := Z.to_nat (keyLength c) in
  let n := if key =? EncryptionBoth then 2%nat else 1%nat in
  let plaintext := make (n * k) in
  if key =? EncryptionEven then copy_at plaintext 0 (evenSEK c)
  else if key =? EncryptionOdd then copy_at plaintext 0 (oddSEK c)
  else if key =? EncryptionBoth then
    copy_at (overwrite (take k plaintext) (evenSEK c) ++ drop k plaintext) k (oddSEK c)
  else plaintext.

(** Every field of the message is set, so the argument's fields do not matter
    (apart from [Error], which the callers leave zero). *)
Definition MarshalKM (c : Context) (passphrase : list Z) (key : Z) : result CryptoError CIFKeyMaterial :=
  if key =? EncryptionNone then Err ErrInvalidKey else
  let gcm := mode c =? CipherGCM in
  wrap ← KeyWrap (calculateKEK passphrase (salt c) (keyLength c)) (keyPlaintext c key);
  Ok (mkKM 0 0 1 2 0x2029 key 0 (if gcm then CipherGCM else CipherCTR) (if gcm then AuthGCM else AuthNone) 2 16
        (u16 (keyLength c)) (overwrite (make 16) (salt c)) wrap).

(** The context is updated in place: it is returned on errors too. *)
Definition UnmarshalKM (c : Context) (km : CIFKeyMaterial) (passphrase : list Z) : Context * result CryptoError unit :=
  if KeyBasedEncryption km =? EncryptionNone then (c, Err ErrInvalidKey) else
  let c := if len (Salt km) =? 16 then setSalt c (overwrite (salt c) (Salt km)) else c in
  let c := setMode_ c (if Cipher km =? CipherGCM then CipherGCM else CipherCTR) in
  let k := Z.to_nat (keyLength c) in
  match KeyUnwrap (calculateKEK passphrase (salt c) (keyLength c)) (Wrap km) with
  | Err _ => (c, Err ErrInvalidPassphrase)
  | Ok plaintext =>
      let kbe := KeyBasedEncryption km in
      let n := if kbe =? EncryptionBoth then 2 else 1 in
      let expectedLen := n * keyLength c in
      if negb (len plaintext =? expectedLen) then (c, Err (ErrUnwrappedLength (len plaintext) expectedLen)) else
      let gcm := mode c =? CipherGCM in
      let even := overwrite (make k) plaintext in
      let oddB := overwrite (make k) (drop k plaintext) in
      if kbe =? EncryptionEven then
        match NewCipher even with
        | Ok b => (setEven c even (Some b) (if gcm then Some b else evenAEAD c), Ok tt)
        | Err e => (setEven c even None (evenAEAD c), Err e)
        end
      else if kbe =? EncryptionOdd then
        match NewCipher even with
        | Ok b => (setOdd c even (Some b) (if gcm then Some b else oddAEAD c), Ok tt)
        | Err e => (setOdd c even None (oddAEAD c), Err e)
        end
      else if kbe =? EncryptionBoth then
        let even := overwrite (make k) (take k plaintext) in
        match NewCipher even with
        | Err e => (setOdd (setEven c even None (evenAEAD c)) oddB (oddCipher c) (oddAEAD c), Err e)
        | Ok b =>
            let c := setEven c even (Some b) (evenAEAD c) in
            match NewCipher oddB with
            | Err e => (setOdd c oddB None (oddAEAD c), Err e)
            | Ok b' =>
                let c := setOdd c oddB (Some b') (oddAEAD c) in
                (if gcm then setOdd (setEven c even (Some b) (Some b)) oddB (Some b') (Some b') else c, Ok tt)
            end
        end
      else (c, Ok tt)
  end.

(** ** 64-bit words *)

Lemma Uint64_be64 v : 0 <= v < 2 ^ 64 -> Uint64 (be64 v) = v.
Proof.
  intros Hv. unfold Uint64, be64. rewrite (Uint32_app_l (be32 (Z.shiftr v 32))) by (simpl; lia).
  assert (Uint32 (be32 (Z.shiftr v 32) ++ be32 v) 4 = Uint32 (be32 v) 0) as -> by reflexivity.
  assert (Uint32 (be32 (Z.shiftr v 32)) 0 = Z.shiftr v 32) as ->.
  { unfold Uint32, at_, be32. cbn [nth Nat.add]. apply word32_be32.
    unfold is_u32. rewrite Z.shiftr_div_pow2 by lia. zdm. }
  assert (Uint32 (be32 v) 0 = v mod 2 ^ 32) as ->.
  { unfold Uint32, at_, be32. cbn [nth Nat.add]. rewrite word32_add by apply u8_range.
    rewrite !Z.shiftr_div_pow2 by lia. unfold u8. zdm. }
  rewrite lor_shiftl_add; [|lia|apply Z.mod_pos_bound; lia]. rewrite Z.shiftr_div_pow2 by lia. zdm.
Qed.

Lemma Uint64_range a : bytes_ok a -> 0 <= Uint64 a < 2 ^ 64.
Proof.
  intros Ha. pose proof (Uint32_range a 0 Ha) as H0. pose proof (Uint32_range a 4 Ha) as H4. unfold is_u32 in *.
  unfold Uint64. rewrite lor_shiftl_add by lia. lia.
Qed.

Lemma be64_Uint64 a : length a = 8%nat -> bytes_ok a -> be64 (Uint64 a) = a.
Proof.
  intros Hl Ha. do 8 (destruct a as [|? a]; [done|]). destruct a; [|done]. split_bytes.
  unfold Uint64, Uint32, at_. cbn [nth Nat.add]. unfold be64.
  set (hi := word32 z z0 z1 z2). set (lo := word32 z3 z4 z5 z6).
  assert (is_u32 hi) as Hh by (by apply word32_range). assert (is_u32 lo) as Hlo by (by apply word32_range).
  unfold is_u32 in *. rewrite lor_shiftl_add by lia.
  assert (Z.shiftr (hi * 2 ^ 32 + lo) 32 = hi) as ->.
  { rewrite Z.shiftr_div_pow2, Z.div_add_l, Z.div_small by lia. lia. }
  assert (be32 (hi * 2 ^ 32 + lo) = be32 lo) as ->.
  { unfold be32. rewrite !Z.shiftr_div_pow2 by lia. unfold u8.
    assert (forall a b c d a' b' c' d' : Z, a = a' -> b = b' -> c = c' -> d = d' -> [a; b; c; d] = [a'; b'; c'; d']) as E
      by (by intros; subst).
    apply E; zdm. }
  unfold hi, lo. by rewrite !be32_word32.
Qed.

Lemma be64_shape v : length (be64 v) = 8%nat /\ bytes_ok (be64 v).
Proof. split; [done|]. apply bytes_ok_app. split; apply be32_ok. Qed.

Lemma lxor_range a b : 0 <= a < 2 ^ 64 -> 0 <= b < 2 ^ 64 -> 0 <= Z.lxor a b < 2 ^ 64.
Proof.
  intros Ha Hb. assert (0 <= Z.lxor a b) by (apply Z.lxor_nonneg; lia). split; [done|].
  destruct (Z.eq_dec (Z.lxor a b) 0) as [->|]; [lia|]. apply Z.log2_lt_pow2; [lia|].
  pose proof (Z.log2_lxor a b ltac:(lia) ltac:(lia)).
  assert (Z.log2 a < 64) by (destruct (Z.eq_dec a 0) as [->|]; [done|apply Z.log2_lt_pow2; lia]).
  assert (Z.log2 b < 64) by (destruct (Z.eq_dec b 0) as [->|]; [done|apply Z.log2_lt_pow2; lia]). lia.
Qed.

Lemma lxor_twice a b : Z.lxor (Z.lxor a b) b = a.
Proof. by rewrite Z.lxor_assoc, Z.lxor_nilpotent, Z.lxor_0_r. Qed.

(** ** Unwrapping inverts wrapping *)

(** Undoing the steps of a loop in reverse order. *)
Lemma fold_undo {A B} (I : A -> Prop) (f g : A -> B -> A) (l : list B) (s : A) :
  I s -> (forall s x, x ∈ l -> I s -> I (f s x) /\ g (f s x) x = s) ->
  I (fold_left f l s) /\ fold_left g (rev l) (fold_left f l s) = s.
Proof.
  intros Hs. induction l as [|x l IH] using rev_ind; intros H; [done|].
  destruct IH as [IH1 IH2]; [intros s' y Hy; apply H, elem_of_app; by left|].
  rewrite fold_left_app, rev_app_distr. simpl.
  destruct (H (fold_left f l s) x) as [H1 H2]; [apply elem_of_app; right; by apply list_elem_of_singleton|done|]. by rewrite H2.
Qed.

Definition wrapState (n : nat) (st : list Z * list Z) : Prop :=
  length (fst st) = 8%nat /\ bytes_ok (fst st) /\ length (snd st) = (8 * n)%nat /\ bytes_ok (snd st).

Lemma slice_shape (r : list Z) a : (a + 8 <= length r)%nat -> bytes_ok r ->
  length (slice a (a + 8) r) = 8%nat /\ bytes_ok (slice a (a + 8) r).
Proof.
  intros. unfold slice. replace (a + 8 - a)%nat with 8%nat by lia. split.
  - rewrite length_take, length_drop. lia.
  - by apply Forall_take, Forall_drop.
Qed.

Lemma slice_copy_at (r x : list Z) a : (a + 8 <= length r)%nat -> length x = 8%nat ->
  slice a (a + 8) (copy_at r a x) = x /\ copy_at (copy_at r a x) a (slice a (a + 8) r) = r.
Proof.
  intros Hr Hx. assert (copy_at r a x = take a r ++ x ++ drop (a + 8) r) as ->.
  { rewrite copy_at_fit by lia. by rewrite Hx. }
  assert (length (take a r) = a) as Ht by (rewrite length_take; lia).
  split.
  - unfold slice. rewrite drop_app_ge by lia. rewrite Ht, Nat.sub_diag, drop_0.
    replace (a + 8 - a)%nat with (length x) by lia. apply take_app_length.
  - unfold slice. replace (a + 8 - a)%nat with 8%nat by lia.
    assert (length (take 8 (drop a r)) = 8%nat) as Hs by (rewrite length_take, length_drop; lia).
    rewrite copy_at_fit by (rewrite !length_app, length_drop; lia). rewrite Hs.
    rewrite take_app_le by lia. rewrite (take_ge (take a r)) by lia.
    rewrite drop_app_ge by lia. rewrite Ht, drop_app_ge by lia. rewrite Hx.
    replace (a + 8 - a - 8)%nat with 0%nat by lia. rewrite drop_0.
    assert (drop (a + 8) r = drop 8 (drop a r)) as -> by (rewrite drop_drop; f_equal; lia).
    rewrite (take_drop 8 (drop a r)). apply take_drop.
Qed.

Context {L : PrimitiveLaws}.

Lemma wrapStep_inverse key n j st i :
  Z.of_nat n < 2 ^ 20 -> (j < 6)%nat -> (i < n)%nat -> wrapState n st ->
  wrapState n (wrapStep key n j st i) /\ unwrapStep key n j (wrapStep key n j st i) i = st.
Proof.
  intros Hn Hj Hi (Ha & Hab & Hr & Hrb). destruct st as [a r]. cbn [fst snd] in *. unfold wrapStep, unwrapStep.
  replace ((i + 1) * 8)%nat with (i * 8 + 8)%nat by lia.
  destruct (slice_shape r (i * 8)) as [Hs Hsb]; [lia|done|].
  set (blk := a ++ slice (i * 8) (i * 8 + 8) r).
  assert (length blk = 16%nat /\ bytes_ok blk) as [Hbl Hbb].
  { unfold blk. rewrite length_app, Ha, Hs. split; [done|]. by apply bytes_ok_app. }
  destruct (aes_block key blk Hbl Hbb) as [Hel Heb]. pose proof (aes_inverse key blk Hbl Hbb) as Hinv.
  set (b := aesEncrypt key blk) in *. set (t := Z.of_nat (n * j + i + 1)).
  assert (0 <= t < 2 ^ 64) as Ht by (unfold t; nia).
  assert (length (take 8 b) = 8%nat /\ bytes_ok (take 8 b)) as [Hh Hhb] by (split; [rewrite length_take; lia|by apply Forall_take]).
  assert (length (drop 8 b) = 8%nat /\ bytes_ok (drop 8 b)) as [Hl Hlb] by (split; [rewrite length_drop; lia|by apply Forall_drop]).
  destruct (slice_copy_at r (drop 8 b) (i * 8)) as [S1 S2]; [lia|done|].
  split.
  - unfold wrapState. cbn [fst snd]. destruct (be64_shape (Z.lxor (Uint64 (take 8 b)) t)) as [B1 B2].
    split; [done|]. split; [done|]. rewrite copy_at_length. split; [done|]. by apply copy_at_ok.
  - rewrite S1, Uint64_be64, lxor_twice by (apply lxor_range; [by apply Uint64_range|done]).
    rewrite be64_Uint64 by done. rewrite take_drop, Hinv. unfold blk.
    rewrite take_app_le by lia. rewrite take_ge by lia. rewrite drop_app_ge by lia. rewrite Ha. simpl (drop (8 - 8) _).
    rewrite drop_0. by rewrite S2.
Qed.

Lemma wrapRound_inverse key n st j :
  Z.of_nat n < 2 ^ 20 -> (j < 6)%nat -> wrapState n st ->
  wrapState n (wrapRound key n st j) /\ unwrapRound key n (wrapRound key n st j) j = st.
Proof.
  intros Hn Hj Hst. apply (fold_undo (wrapState n)); [done|].
  intros s i Hi%elem_of_seq Hs. apply wrapStep_inverse; (done || lia).
Qed.

Lemma wrap_inverse key n st :
  Z.of_nat n < 2 ^ 20 -> wrapState n st ->
  wrapState n (fold_left (wrapRound key n) (seq 0 6) st) /\
  fold_left (unwrapRound key n) (rev (seq 0 6)) (fold_left (wrapRound key n) (seq 0 6) st) = st.
Proof.
  intros Hn Hst. apply (fold_undo (wrapState n)); [done|].
  intros s j Hj%elem_of_seq Hs. apply wrapRound_inverse; (done || lia).
Qed.

Lemma KeyWrap_KeyUnwrap kek plaintext n :
  length plaintext = (8 * n)%nat -> (0 < n)%nat -> Z.of_nat n < 2 ^ 20 -> bytes_ok plaintext -> is_Ok (NewCipher kek) = true ->
  exists wrap, KeyWrap kek plaintext = Ok wrap /\ length wrap = (8 * n + 8)%nat /\ bytes_ok wrap /\
    KeyUnwrap kek wrap = Ok plaintext.
Proof.
  intros Hl Hn Hmax Hb Hk. unfold KeyWrap, KeyUnwrap, len. rewrite Hl.
  assert (NewCipher kek = Ok kek) as Hkek by (unfold NewCipher in *; case_match; done).
  assert (Z.rem (Z.of_nat (8 * n)) 8 = 0) as ->.
  { replace (Z.of_nat (8 * n)) with (Z.of_nat n * 8) by lia. by apply Z.rem_mul. }
  destruct (Z.eqb_spec (Z.of_nat (8 * n)) 0); [lia|]. rewrite Hkek. cbn [Z.eqb negb orb mbind result_bind].
  rewrite (Nat.mul_comm 8 n), Nat.div_mul by lia.
  assert (wrapState n (defaultIV, plaintext)) as Hst.
  { split; [done|]. split; [|split; [simpl; lia|done]]. simpl. unfold bytes_ok, is_u8. apply (bool_decide_unpack _). by vm_compute. }
  destruct (wrap_inverse kek n _ Hmax Hst) as [(W1 & W2 & W3 & W4) W5].
  destruct (fold_left (wrapRound kek n) (seq 0 6) (defaultIV, plaintext)) as [a r]. cbn [fst snd] in *.
  assert (length (a ++ r) = (8 * n + 8)%nat) as Hal by (rewrite length_app; lia).
  eexists. split; [reflexivity|]. split; [lia|]. split; [by apply bytes_ok_app|].
  rewrite Hal. replace (Z.of_nat (8 * n + 8)) with (Z.of_nat (n + 1) * 8) by lia.
  rewrite Z.rem_mul by lia. destruct (Z.ltb_spec (Z.of_nat (n + 1) * 8) 16); [lia|]. cbn [Z.eqb negb orb].
  replace ((8 * n + 8) / 8 - 1)%nat with n.
  2:{ replace (8 * n + 8)%nat with ((n + 1) * 8)%nat by lia. rewrite Nat.div_mul by lia. lia. }
  rewrite take_app_le, (take_ge a) by lia. rewrite drop_app_ge, W1 by lia. simpl (8 - 8)%nat. rewrite drop_0, W5.
  by rewrite bool_decide_eq_false_2 by tauto.
Qed.

(** ** Slots *)

Definition sekOf (c : Context) (key : Z) : list Z := if key =? EncryptionEven then evenSEK c else oddSEK c.

(** A slot that can encrypt: its key, its cipher and, in GCM mode, its AEAD. *)
Definition slot_ok (c : Context) (slot : Z) : Prop :=
  len (sekOf c slot) = keyLength c /\ bytes_ok (sekOf c slot) /\ cipherOf c slot = Some (sekOf c slot) /\
  (mode c = CipherGCM -> aeadOf c slot = Some (sekOf c slot)).

Definition is_slot (slot : Z) : Prop := slot = EncryptionEven \/ slot = EncryptionOdd.

(** Comparisons of two given key flags. *)
Ltac slot_tests :=
  repeat match goal with
  | |- context [?a =? ?b] => let v := eval vm_compute in (a =? b) in match v with true => idtac | false => idtac end;
      change (a =? b) with v
  | H : context [?a =? ?b] |- _ => let v := eval vm_compute in (a =? b) in match v with true => idtac | false => idtac end;
      change (a =? b) with v in H
  end; cbv iota in *.

Definition ctx_base (c : Context) : Prop :=
  (keyLength c = 16 \/ keyLength c = 24 \/ keyLength c = 32) /\ (mode c = CipherCTR \/ mode c = CipherGCM) /\
  len (salt c) = 16 /\ bytes_ok (salt c).

Lemma NewCipher_ok c sek :
  ctx_base c -> len sek = keyLength c -> NewCipher sek = Ok sek.
Proof. intros (Hk & _) Hl. unfold NewCipher. rewrite Hl. destruct Hk as [->|[-> | ->]]; done. Qed.

Lemma NewCipher_kek c pass s : ctx_base c -> is_Ok (NewCipher (calculateKEK pass s (keyLength c))) = true.
Proof.
  intros (Hk & _). unfold NewCipher, calculateKEK, len. rewrite pbkdf2_length.
  destruct Hk as [->|[-> | ->]]; done.
Qed.

(** Overwriting a whole buffer. *)
Lemma overwrite_all (buf src : list Z) : length src = length buf -> overwrite buf src = src.
Proof. intros H. rewrite overwrite_fit by lia. by rewrite H, drop_all, app_nil_r. Qed.

Lemma keyPlaintext_one c slot : is_slot slot -> slot_ok c slot -> keyPlaintext c slot = sekOf c slot.
Proof.
  intros [-> | ->] (Hl & _); unfold keyPlaintext, sekOf, copy_at, make in *;
    slot_tests; rewrite take_0, drop_0;
    apply overwrite_all; rewrite length_replicate; unfold len in Hl; lia.
Qed.

Lemma keyPlaintext_both c :
  slot_ok c EncryptionEven -> slot_ok c EncryptionOdd -> keyPlaintext c EncryptionBoth = evenSEK c ++ oddSEK c.
Proof.
  intros (He & _) (Ho & _). unfold sekOf in *. cbn in He, Ho. unfold len in *. unfold keyPlaintext. cbn [Z.eqb Pos.eqb].
  change (EncryptionBoth =? EncryptionEven) with false. change (EncryptionBoth =? EncryptionOdd) with false.
  change (EncryptionBoth =? EncryptionBoth) with true. cbv iota. set (k := Z.to_nat (keyLength c)).
  unfold make. rewrite take_replicate, drop_replicate.
  replace (k `min` (2 * k))%nat with k by lia. replace (2 * k - k)%nat with k by lia.
  rewrite (overwrite_all (replicate k 0)) by (rewrite length_replicate; lia).
  unfold copy_at. rewrite take_app_le by lia. rewrite (take_ge (evenSEK c)) by lia.
  rewrite drop_app_ge by lia. replace (k - length (evenSEK c))%nat with 0%nat by lia. rewrite drop_0.
  by rewrite overwrite_all by (rewrite length_replicate; lia).
Qed.

(** ** Generating keys keeps the slots usable *)
Lemma GenerateSEK_ok c sek slot :
  ctx_base c -> is_slot slot -> len sek = keyLength c -> bytes_ok sek ->
  exists c', GenerateSEK c (Some sek) slot = Ok c' /\ ctx_base c' /\ sekOf c' slot = sek /\ slot_ok c' slot /\
    (forall s, is_slot s -> s <> slot -> slot_ok c s -> slot_ok c' s /\ sekOf c' s = sekOf c s).
Proof.
  intros Hb Hslot Hl Hbytes. unfold GenerateSEK. rewrite (NewCipher_ok c sek Hb Hl). cbn [mbind result_bind].
  destruct Hslot as [-> | ->]; cbn; eexists; (split; [reflexivity|]); (split; [done|]); (split; [done|]).
  - split; [split_and!; try done; simpl; intros ->; done|]. intros s [-> | ->] Hs Hok; done.
  - split; [split_and!; try done; simpl; intros ->; done|]. intros s [-> | ->] Hs Hok; done.
Qed.

(** ** What a peer installs *)
Lemma len_make16 (s : list Z) : len s = 16 -> overwrite (make 16) s = s.
Proof. intros H. apply overwrite_all. unfold len in H. simpl. lia. Qed.

(** The context of a peer after the salt and the mode of a message have been adopted. *)
Lemma adopt c' km :
  len (salt c') = 16 -> len (Salt km) = 16 -> overwrite (salt c') (Salt km) = Salt km.
Proof. intros H1 H2. apply overwrite_all. unfold len in *. lia. Qed.

Lemma xor_cancel (data s : list Z) : length s = length data -> xorLists (xorLists data s) s = data.
Proof.
  unfold xorLists. revert s. induction data as [|x data IH]; intros [|y s] H; simpl in *; try done.
  by rewrite lxor_twice, IH by lia.
Qed.

(** Two contexts that share the key of a slot, the salt and the mode. *)
Lemma decrypt_encrypt c c' slot data header seqNo :
  is_slot slot -> slot_ok c slot -> slot_ok c' slot -> sekOf c' slot = sekOf c slot ->
  salt c' = salt c -> mode c' = mode c -> useGcm153 c' = useGcm153 c ->
  exists ct, EncryptPayload c data header slot seqNo = Ok ct /\ DecryptPayload c' ct header slot seqNo = Ok data.
Proof.
  intros Hslot (_ & _ & Hc & Ha) (_ & _ & Hc' & Ha') Hs Hsalt Hm Hg. unfold EncryptPayload, DecryptPayload.
  rewrite Hm. destruct (Z.eqb_spec (mode c) CipherGCM) as [E|E].
  - unfold encryptGCM, decryptGCM. rewrite Ha, Ha', Hs, Hsalt, Hg by congruence. eexists. split; [reflexivity|].
    unfold len, GCMTagSize. rewrite gcm_length. destruct (Z.ltb_spec (Z.of_nat (length data + 16)) 16); [lia|].
    by rewrite gcm_inverse.
  - unfold xorPayload. rewrite Hc, Hc', Hs, Hsalt. eexists. split; [reflexivity|]. f_equal.
    assert (length (xorLists data (ctrStream (sekOf c slot) (ctrIV (salt c) seqNo) (length data))) = length data) as Hl.
    { unfold xorLists. rewrite length_zip_with, ctr_length. lia. }
    rewrite Hl. apply xor_cancel. apply ctr_length.
Qed.

(** The wrapped key(s): the message is well-formed and unwraps to them. *)
Lemma MarshalKM_ok c pass key :
  ctx_base c -> 1 <= key <= 3 -> bytes_ok (keyPlaintext c key) ->
  len (keyPlaintext c key) = (if key =? EncryptionBoth then 2 else 1) * keyLength c ->
  exists km, MarshalKM c pass key = Ok km /\ Cif.KM_ok km /\ KeyBasedEncryption km = key /\ Salt km = salt c /\
    Cipher km = mode c /\
    KeyUnwrap (calculateKEK pass (salt c) (keyLength c)) (Wrap km) = Ok (keyPlaintext c key).
Proof.
  intros Hb Hkey Hbytes Hlen. pose proof Hb as (Hk & Hm & Hs & Hsb).
  set (n := Z.to_nat (len (keyPlaintext c key) / 8)).
  assert (length (keyPlaintext c key) = (8 * n)%nat /\ (0 < n)%nat /\ Z.of_nat n < 2 ^ 20) as (Hn & Hn0 & Hnm).
  { unfold n. rewrite Hlen. unfold len in Hlen. destruct (key =? EncryptionBoth), Hk as [E|[E|E]]; rewrite E in *;
      vm_compute (Z.to_nat (_ / 8)); lia. }
  destruct (KeyWrap_KeyUnwrap (calculateKEK pass (salt c) (keyLength c)) (keyPlaintext c key) n) as (w & W1 & W2 & W3 & W4);
    [done..|by apply NewCipher_kek|].
  unfold MarshalKM. destruct (Z.eqb_spec key EncryptionNone); [unfold EncryptionNone in *; lia|].
  rewrite W1. cbn [mbind result_bind]. eexists. split; [reflexivity|]. cbn [KeyBasedEncryption Salt Cipher Wrap].
  rewrite len_make16 by done.
  assert (u16 (keyLength c) = keyLength c) as Hu by (destruct Hk as [->|[-> | ->]]; done).
  split; [left; split; [done|]|split_and!; try done; destruct Hm as [-> | ->]; done].
  rewrite Hu. unfold Cif.KM_keys_ok. cbn [Cif.S_ Cif.KMVersion Cif.PacketType Cif.Sign KeyBasedEncryption
    Cif.KeyEncryptionKeyIndex Cipher Cif.Authentication Cif.StreamEncapsulation Cif.SLen Cif.KLen Salt Wrap].
  split_and!; try lia; try done.
  - destruct Hm as [-> | ->]; [left|right]; done.
  - unfold Cif.wrapLength. unfold len in *. rewrite W2. lia.
Qed.

(** The bytes of the plaintext, for the keys of the slots named by [key]. *)
Definition slots_ok (c : Context) (key : Z) : Prop :=
  (is_slot key /\ slot_ok c key) \/
  (key = EncryptionBoth /\ slot_ok c EncryptionEven /\ slot_ok c EncryptionOdd).

Lemma keyPlaintext_shape c key :
  slots_ok c key ->
  1 <= key <= 3 /\ bytes_ok (keyPlaintext c key) /\
  len (keyPlaintext c key) = (if key =? EncryptionBoth then 2 else 1) * keyLength c.
Proof.
  intros [[Hs Hok]|(-> & He & Ho)].
  - rewrite keyPlaintext_one by done. pose proof Hok as (Hl & Hb & _).
    destruct Hs as [-> | ->]; slot_tests; split_and!; try done; lia.
  - rewrite keyPlaintext_both by done. destruct He as (El & Eb & _), Ho as (Ol & Ob & _). unfold sekOf in *. slot_tests.
    split; [unfold EncryptionBoth; lia|]. split; [by apply bytes_ok_app|]. unfold len in *. rewrite length_app. lia.
Qed.

(** A peer with the passphrase installs what was announced. *)
Lemma UnmarshalKM_ok c c' pass key slot :
  ctx_base c -> is_slot slot -> slots_ok c key -> (key = slot \/ key = EncryptionBoth) ->
  keyLength c' = keyLength c -> len (salt c') = 16 ->
  exists km c'', MarshalKM c pass key = Ok km /\ Cif.KM_ok km /\ UnmarshalKM c' km pass = (c'', Ok tt) /\
    salt c'' = salt c /\ mode c'' = mode c /\ useGcm153 c'' = useGcm153 c' /\
    slot_ok c'' slot /\ sekOf c'' slot = sekOf c slot.
Proof.
  intros Hb Hslot Hok Hkey Hkl Hsl. destruct (keyPlaintext_shape c key Hok) as (Hk & Hbytes & Hlen).
  destruct (MarshalKM_ok c pass key Hb Hk Hbytes Hlen) as (km & HM & HKM & M1 & M2 & M3 & HU).
  pose proof Hb as (HkL & Hm & Hs & Hsb).
  exists km. unfold UnmarshalKM. rewrite M1, M2, Hs, M3. destruct (Z.eqb_spec key EncryptionNone) as [->|]; [unfold EncryptionNone in *; lia|].
  change (16 =? 16) with true. cbv iota. rewrite (overwrite_all (salt c') (salt c)) by (unfold len in *; lia).
  set (c1 := setMode_ _ _).
  assert (mode c1 = mode c) as Hm1 by (destruct Hm as [E|E]; unfold c1; rewrite E; done).
  assert (salt c1 = salt c /\ keyLength c1 = keyLength c /\ useGcm153 c1 = useGcm153 c') as (Hs1' & Hk1 & Hg1) by done.
  clearbody c1. rewrite Hs1', Hk1, HU, Hlen, Z.eqb_refl. cbn [negb]. rewrite Hm1.
  set (k := Z.to_nat (keyLength c)).
  assert (forall s, is_slot s -> slot_ok c s -> length (sekOf c s) = k /\ NewCipher (sekOf c s) = Ok (sekOf c s)) as Hsek.
  { intros s Hs' (Hl & _). split; [unfold len in Hl; lia|by apply (NewCipher_ok c)]. }
  destruct Hok as [[Hs1 Hok]|(-> & He & Ho)].
  - assert (key = slot) as ->.
    { destruct Hkey as [|E]; [done|]. destruct Hs1 as [E'|E']; rewrite E' in E; discriminate. }
    rewrite keyPlaintext_one by done. destruct (Hsek slot Hslot Hok) as [Hl HN]. destruct Hok as (L1 & L2 & _).
    rewrite overwrite_all by (unfold make; rewrite length_replicate; done). rewrite HN.
    destruct Hslot as [-> | ->]; slot_tests; (eexists; split; [done|]; split; [done|]; split; [reflexivity|]);
      unfold slot_ok, sekOf in *; slot_tests; cbn; rewrite ?Hk1, Hm1; (split_and!; try done);
      intros E; rewrite E; done.
  - rewrite keyPlaintext_both by done. destruct (Hsek _ (or_introl eq_refl) He) as [E1 E2].
    destruct (Hsek _ (or_intror eq_refl) Ho) as [O1 O2]. destruct He as (L1 & L2 & _), Ho as (P1 & P2 & _).
    unfold sekOf in E1, E2, O1, O2, L1, L2, P1, P2. slot_tests.
    rewrite take_app_le, (take_ge (evenSEK c)) by lia. rewrite drop_app_ge by lia. rewrite E1, Nat.sub_diag, drop_0.
    rewrite !(overwrite_all (make k)) by (unfold make; rewrite length_replicate; done). rewrite E2, O2.
    destruct Hm as [E|E]; rewrite E; slot_tests; (eexists; split; [done|]; split; [done|]; split; [reflexivity|]);
      destruct Hslot as [-> | ->]; unfold slot_ok, sekOf; slot_tests; cbn; rewrite ?Hk1, Hm1, ?E; (split_and!; done).
Qed.

(** ** Properties *)

Lemma xorLists_inj (a x y : list Z) :
  length x = length a -> length y = length a -> xorLists a x = xorLists a y -> x = y.
Proof.
  unfold xorLists. revert x y. induction a as [|u a IH]; intros [|v x] [|w y]; simpl; try done.
  intros Hx Hy [= H1 H2]. f_equal; [|apply IH; auto].
  rewrite <- (Z.lxor_0_l v), <- (Z.lxor_0_l w), <- (Z.lxor_nilpotent u), !Z.lxor_assoc. by rewrite H1.
Qed.

(** RFC 3394 key wrap: unwrapping with the same key-encryption key gives
    back any plaintext of one or more 8-byte blocks, and the wrapped form is 8
    bytes longer. *)
Theorem keywrap_roundtrip (kek plaintext : list Z) (n : nat) :
  length plaintext = (8 * n)%nat -> (0 < n)%nat -> Z.of_nat n < 2 ^ 20 -> bytes_ok plaintext ->
  is_Ok (NewCipher kek) = true ->
  exists wrap, KeyWrap kek plaintext = Ok wrap /\ length wrap = (8 * n + 8)%nat /\ KeyUnwrap kek wrap = Ok plaintext.
Proof.
  intros. destruct (KeyWrap_KeyUnwrap kek plaintext n) as (w & W1 & W2 & _ & W4); [done..|]. eauto.
Qed.

(** C16. Key exchange works: the key material made for one or both slots of a
    context survives its encoding, a peer with the same passphrase, key length
    and GCM variant ([useGcm153]) accepts it whatever keys and mode it had before, and from then on
    decrypts every payload encrypted with an announced slot, in CTR and in GCM
    mode. *)
Theorem km_exchange_decrypts (c c' : Context) (pass data header : list Z) (key slot seqNo : Z) :
  ctx_base c -> is_slot slot -> slots_ok c key -> (key = slot \/ key = EncryptionBoth) ->
  keyLength c' = keyLength c -> len (salt c') = 16 -> useGcm153 c' = useGcm153 c ->
  exists km c'' ct,
    MarshalKM c pass key = Ok km /\ Cif.KM_UnmarshalCIF Cif.zeroKM (Cif.KM_MarshalCIF km) = Ok km /\
    UnmarshalKM c' km pass = (c'', Ok tt) /\
    EncryptPayload c data header slot seqNo = Ok ct /\ DecryptPayload c'' ct header slot seqNo = Ok data.
Proof.
  intros Hb Hslot Hok Hkey Hkl Hsl Hg.
  destruct (UnmarshalKM_ok c c' pass key slot Hb Hslot Hok Hkey Hkl Hsl) as (km & c'' & M & K & U & S1 & S2 & S3 & S4 & S5).
  assert (slot_ok c slot) as Hs.
  { destruct Hok as [[Hk Hs]|(_ & He & Ho)]; [|by destruct Hslot as [-> | ->]].
    destruct Hkey as [->|E]; [done|]. exfalso. destruct Hk as [E'|E']; rewrite E' in E; revert E; vm_compute; congruence. }
  destruct (decrypt_encrypt c c'' slot data header seqNo) as (ct & E & D); [done..|congruence|].
  exists km, c'', ct. split_and!; try done. by apply Cif.KM_roundtrip.
Qed.

(** A rejected key message is not without effect: when the unwrapping
    fails (a wrong passphrase, or a forged message), the context has already
    taken over the message's salt, so the initial counter of every packet
    encrypted or decrypted afterwards differs from the peer's. *)
Theorem km_reject_changes_salt (c : Context) (km : CIFKeyMaterial) (pass : list Z) (e : CryptoError) :
  KeyBasedEncryption km <> EncryptionNone -> len (Salt km) = 16 -> len (salt c) = 16 ->
  KeyUnwrap (calculateKEK pass (Salt km) (keyLength c)) (Wrap km) = Err e ->
  exists c1, UnmarshalKM c km pass = (c1, Err ErrInvalidPassphrase) /\ salt c1 = Salt km /\
    (take 14 (Salt km) <> take 14 (salt c) -> forall seqNo, ctrIV (salt c1) seqNo <> ctrIV (salt c) seqNo).
Proof.
  intros Hk Hs Hc Hu. unfold UnmarshalKM. destruct (Z.eqb_spec (KeyBasedEncryption km) EncryptionNone); [done|].
  rewrite Hs. change (16 =? 16) with true. cbv iota. rewrite (overwrite_all (salt c)) by (unfold len in *; lia).
  cbn [salt keyLength setMode_ setSalt]. rewrite Hu. eexists. split; [reflexivity|]. split; [done|].
  intros Hne seqNo E. cbn [salt setMode_ setSalt] in E. apply Hne. unfold ctrIV in E.
  assert (length (take 14 (PutUint32 (make 16) 10 seqNo)) = 14%nat) as Hl by (rewrite length_take; unfold PutUint32; rewrite copy_at_length; done).
  apply app_inj_1 in E as [E _].
  - apply (xorLists_inj (take 14 (PutUint32 (make 16) 10 seqNo))); [..|exact E]; rewrite Hl, length_take; unfold len in *; lia.
  - unfold xorLists. rewrite !length_zip_with, !Hl, !length_take. unfold len in *. lia.
Qed.
End Crypto.

(** A concrete instance of the primitives. *)
#[export] Instance toy : Primitives := {
  aesEncrypt _ b := rev b;
  aesDecrypt _ b := rev b;
  ctrStream _ iv n := map (fun i => at_ iv (i mod 16)) (seq 0 n);
  gcmSeal _ _ data _ := data ++ make 16;
  gcmOpen _ _ data _ := Some (take (length data - 16) data);
  pbkdf2 _ _ _ n := make n
}.

#[export] Instance toy_laws : PrimitiveLaws.
Proof.
  split.
  - intros key b _ _. apply rev_involutive.
  - intros key b Hl Hb. simpl. rewrite length_rev. split; [done|]. by apply Forall_rev.
  - intros. simpl. by rewrite length_map, length_seq.
  - intros. simpl. rewrite length_app. change (length (make 16)) with 16%nat.
    replace (length data + 16 - 16)%nat with (length data) by lia. by rewrite take_app_length.
  - intros. simpl. by rewrite length_app.
  - intros. simpl. unfold make. by rewrite length_replicate.
Qed.

Definition toyCtx : Context :=
  let even := replicate 16 7 in let odd := replicate 16 9 in
  mkCtx CipherGCM 16 (replicate 16 1) even odd (Some even) (Some odd) (Some even) (Some odd) false.
Definition toyPeer : Context := mkCtx CipherCTR 16 (replicate 16 0) [] [] None None None None false.

Lemma keywrap_roundtrip_witness :
  exists wrap, KeyWrap (replicate 16 5) (replicate 24 3) = Ok wrap /\ KeyUnwrap (replicate 16 5) wrap = Ok (replicate 24 3).
Proof.
  destruct (keywrap_roundtrip (replicate 16 5) (replicate 24 3) 3) as (w & W1 & _ & W3).
  - reflexivity.
  - lia.
  - reflexivity.
  - apply (bool_decide_unpack _). vm_compute. exact I.
  - reflexivity.
  - exists w. split; [exact W1|exact W3].
Defined.

Lemma toyCtx_ok : ctx_base toyCtx /\ slots_ok toyCtx EncryptionBoth.
Proof.
  assert (bytes_ok (replicate 16 7) /\ bytes_ok (replicate 16 9) /\ bytes_ok (replicate 16 1)) as (H7 & H9 & H1)
    by (split_and!; apply (bool_decide_unpack _); vm_compute; exact I).
  split; [split; [by left|]; split; [by right|]; done|]. right. split; [done|]. by split.
Qed.

Lemma km_exchange_decrypts_witness :
  exists km c'' ct, MarshalKM toyCtx [1] EncryptionBoth = Ok km /\ UnmarshalKM toyPeer km [1] = (c'', Ok tt) /\
    EncryptPayload toyCtx [42] [] EncryptionOdd 5 = Ok ct /\ DecryptPayload c'' ct [] EncryptionOdd 5 = Ok [42].
Proof.
  destruct (km_exchange_decrypts toyCtx toyPeer [1] [42] [] EncryptionBoth EncryptionOdd 5) as (km & c'' & ct & H1 & _ & H3 & H4 & H5).
  - exact (proj1 toyCtx_ok).
  - right. reflexivity.
  - exact (proj2 toyCtx_ok).
  - right. reflexivity.
  - reflexivity.
  - reflexivity.
  - reflexivity.
  - exists km, c'', ct. split; [exact H1|]. split; [exact H3|]. split; [exact H4|exact H5].
Defined.

(** A forged message: any wrap that does not unwrap. *)
Definition forgedKM : CIFKeyMaterial :=
  mkKM 0 0 1 2 0x2029 EncryptionEven 0 CipherGCM AuthGCM 2 16 16 (replicate 16 99) (replicate 24 0).

Lemma km_reject_changes_salt_witness :
  exists c1, UnmarshalKM toyCtx forgedKM [1] = (c1, Err ErrInvalidPassphrase) /\ salt c1 = replicate 16 99.
Proof.
  destruct (km_reject_changes_salt toyCtx forgedKM [1] ErrUnwrapFailed) as (c1 & H1 & H2 & _).
  - vm_compute. congruence.
  - reflexivity.
  - reflexivity.
  - vm_compute. reflexivity.
  - exists c1. split; [exact H1|exact H2].
Defined.
End Crypto.
