(* ===== verification/Float64.v ===== *)
(** * IEEE 754 double precision (Go's [float64])

    Go's floating-point arithmetic on the specification floats of the Standard
    Library: 53 bits of precision and exponents up to 1024, round to nearest
    even.  Every operation is computed exactly as the hardware does.  A literal
    of the source is the correctly rounded quotient of two exact integers.  The
    functions of Go's [math] package that IEEE 754 does not specify bit for bit
    ([Pow], [Log10]) are operations of the class [GoMath]. *)
From Stdlib Require Import ZArith Lia SpecFloat.
From stdpp Require Import base numbers.
From S2P Require Import Prelude.
Local Open Scope Z_scope.

Module Float64.

Definition f64 : Type := spec_float.

Definition fadd (x y : f64) : f64 := SFadd 53 1024 x y.
Definition fsub (x y : f64) : f64 := SFsub 53 1024 x y.
Definition fmul (x y : f64) : f64 := SFmul 53 1024 x y.
Definition fdiv (x y : f64) : f64 := SFdiv 53 1024 x y.
Definition flt (x y : f64) : bool := SFltb x y.
Definition fle (x y : f64) : bool := SFleb x y.
Definition feq (x y : f64) : bool := SFeqb x y.

(** [float64(z)], and the literal [n / d]. *)
Definition ofZ (z : Z) : f64 := binary_normalize 53 1024 z 0 false.
Definition lit (n d : Z) : f64 := fdiv (ofZ n) (ofZ d).

(** [math.Min]: minus infinity first, then NaN, then the zeros. *)
Definition fmin (x y : f64) : f64 :=
  match x, y with
  | S754_infinity true, _ | _, S754_infinity true => S754_infinity true
  | S754_nan, _ | _, S754_nan => S754_nan
  | S754_zero sx, S754_zero sy => S754_zero (sx || sy)
  | _, _ => if flt x y then x else y
  end.

(** The integer part towards zero and towards plus infinity.  The conversion of
    a NaN or an infinity to an integer is left to the implementation; this is
    what amd64 does. *)
Definition trunc (x : f64) : Z :=
  match x with
  | S754_finite s m e =>
      let n := if 0 <=? e then Zpos m * 2 ^ e else Zpos m / 2 ^ (- e) in
      if s then - n else n
  | S754_zero _ => 0
  | _ => - 2 ^ 63
  end.
Definition ceilZ (x : f64) : Z :=
  match x with
  | S754_finite s m e =>
      let n := (if s then -1 else 1) * Zpos m in
      if 0 <=? e then n * 2 ^ e else - (- n / 2 ^ (- e))
  | S754_zero _ => 0
  | _ => - 2 ^ 63
  end.

(** [math.Ceil]. *)
Definition fceil (x : f64) : f64 :=
  match x with
  | S754_finite s _ _ => binary_normalize 53 1024 (ceilZ x) 0 s
  | _ => x
  end.

(** [int64(x)], [int(x)] and [uint32(x)]. *)
Definition toInt (x : f64) : Z := if decide (is_i64 (trunc x)) then trunc x else - 2 ^ 63.
Definition toU32 (x : f64) : Z := u32 (toInt x).

Class GoMath : Type := {
  Pow : f64 -> f64 -> f64;
  Log10 : f64 -> f64;
  (** [rand.Intn(n)]: the value of the [k]-th call *)
  Intn : nat -> Z -> Z
}.

(** An instance, for concrete runs. *)
Definition toyMath : GoMath := {| Pow x _ := x; Log10 x := x; Intn _ _ := 0 |}.

(** ** Signs *)

Definition fpos (x : f64) : Prop := x = S754_infinity false \/ exists m e, x = S754_finite false m e.

Lemma flt_pos x : flt (ofZ 0) x = true -> fpos x.
Proof.
  unfold flt, ofZ. cbn [binary_normalize]. destruct x as [s|s| |s m e]; unfold SFltb; simpl; try done.
  - destruct s; [done|]. by left.
  - destruct s; [done|]. right. by exists m, e.
Qed.

(** Nothing divided by a positive number is nothing. *)
Lemma fdiv_zero x s : fpos x -> fdiv (S754_zero s) x = S754_zero s.
Proof. intros [->|(m & e & ->)]; unfold fdiv; simpl; by rewrite xorb_false_r. Qed.

Example lit_103 : lit 103 100 = S754_finite false 4638707616191611 (-52).
Proof. reflexivity. Qed.
Example ceil_ex : (ceilZ (lit 5 2), ceilZ (lit (-5) 2), trunc (lit (-5) 2)) = (3, -2, -2).
Proof. reflexivity. Qed.

End Float64.
