(* ===== verification/Congestion.v ===== *)
(** * Congestion control ([internal/congestion])

    The two controllers behind the [Controller] interface: [LiveCC], the
    fixed-rate pacer of live mode ([live.go]), and [FileCC], the window-based
    controller of file mode ([file.go]), with the probe-pair and delivery-rate
    estimators they share ([probe.go], [delivery.go]).  [Controller] is the
    interface value: one of the two controllers, its methods dispatching on it.
    The mutexes and atomics have no counterpart: the core is single-threaded. *)
From Stdlib Require Import ZArith Lia.
From stdpp Require Import base numbers list sorting.
From S2P Require Import Prelude Seq Packet Clock Float64.
Import Float64(f64, GoMath, Intn, Pow, Log10, ofZ, lit, fadd, fsub, fmul, fdiv, flt, fle, feq, fmin, fceil, ceilZ,
  toInt, toU32).
Local Open Scope Z_scope.

Module Congestion.

Definition DefaultMaxBW : Z := Z.quot 1_000_000_000 8.
Definition DefaultOverhead : Z := 25.
Definition DefaultPacketSize : Z := 1316.
Definition ProbeInterval : Z := 16.
Definition MaxInt : Z := 2 ^ 63 - 1.

(** [slices.Sort] of ints. *)
Definition Sort (l : list Z) : list Z := merge_sort Z.le l.

(** [replica[n/2]] of a sorted copy. *)
Definition median (l : list Z) : Z := nth (Nat.div (length l) 2) (Sort l) 0.

(** The bounds of the filters: [v > median>>3 && v < median<<3]. *)
Definition inBand (m v : Z) : bool := (v >? Z.shiftr m 3) && (v <? i64 (Z.shiftl m 3)).

(** ** Probe pairs *)

Definition probeWindowSize : nat := 16.

Record probeEstimator : Type := mkProbe {
  lastSentSeq : Z;
  maxPayloadSize : Z;
  probe1Time : Z;
  probe1Seq : Z;
  probe1Valid : bool;
  probeWindow : list Z;
  probePtr : nat;
  initialized : bool
}.
#[global] Instance eta_probe : Eta probeEstimator := fun p =>
  mkProbe (lastSentSeq p) (maxPayloadSize p) (probe1Time p) (probe1Seq p) (probe1Valid p) (probeWindow p)
    (probePtr p) (initialized p).
#[global] Instance fld_lastSentSeq : Field lastSentSeq. Proof. derive_field. Defined.
#[global] Instance fld_probe1Time : Field probe1Time. Proof. derive_field. Defined.
#[global] Instance fld_probe1Seq : Field probe1Seq. Proof. derive_field. Defined.
#[global] Instance fld_probe1Valid : Field probe1Valid. Proof. derive_field. Defined.
#[global] Instance fld_probeWindow : Field probeWindow. Proof. derive_field. Defined.
#[global] Instance fld_probePtr : Field probePtr. Proof. derive_field. Defined.
#[global] Instance fld_initialized : Field initialized. Proof. derive_field. Defined.

Definition initProbeWindow (maxPayloadSize : Z) : probeEstimator :=
  mkProbe 0 maxPayloadSize 0 0 false (replicate probeWindowSize 1000) 0 false.

Definition probe_onPacketSent (pe : probeEstimator) (seqNo : Z) : probeEstimator := pe <| lastSentSeq := seqNo |>.

Definition isProbePacket (pe : probeEstimator) : bool := Z.rem (lastSentSeq pe) ProbeInterval =? 0.

Definition probe1 (pe : probeEstimator) (seqNo arrivalTime : Z) : probeEstimator :=
  pe <| probe1Time := arrivalTime |> <| probe1Seq := seqNo |> <| probe1Valid := true |>.

Definition probe2 (pe : probeEstimator) (seqNo size arrivalTime : Z) : probeEstimator :=
  if negb (probe1Valid pe) then pe else
  let expectedSeq := if probe1Seq pe =? 0x7FFFFFFF then 0 else u32 (probe1Seq pe + 1) in
  if negb (seqNo =? expectedSeq) then pe else
  let pe := pe <| probe1Valid := false |> in
  let timediff := Clock.Sub arrivalTime (probe1Time pe) in
  if timediff <=? 0 then pe else
  let normalized :=
    if (maxPayloadSize pe >? 0) && (size >? 0) && negb (size =? maxPayloadSize pe)
    then Z.quot (i64 (timediff * maxPayloadSize pe)) size else timediff in
  let pe := pe <| probeWindow ::= <[probePtr pe := normalized]> |> in
  let pe := pe <| probePtr ::= S |> in
  if Nat.leb probeWindowSize (probePtr pe) then pe <| probePtr := 0%nat |> <| initialized := true |> else pe.

Definition probe_onPacketReceived (pe : probeEstimator) (seqNo size arrivalTime : Z) : probeEstimator :=
  let inorder16 := Z.rem seqNo ProbeInterval in
  let pe := if inorder16 =? 0 then probe1 pe seqNo arrivalTime else pe in
  if inorder16 =? 1 then probe2 pe seqNo size arrivalTime else pe.

(** The sum and the count of the filtered values, with the median once more;
    [None] where the filter returns 0. *)
Definition peakRangeSum (window : list Z) : option (Z * Z) :=
  if Nat.eqb (length window) 0 then None else
  let m := median window in
  if m <=? 0 then None else
  let '(sum, count) :=
    fold_left (fun st v => if inBand m v then (i64 (st.1 + v), st.2 + 1) else st) window (0, 0) in
  Some (i64 (sum + m), count + 1).

Definition peakRangeFilter (window : list Z) : f64 :=
  match peakRangeSum window with
  | None => ofZ 0
  | Some (sum, count) => fdiv (ofZ sum) (ofZ count)
  end.

Definition estimatedBandwidth (pe : probeEstimator) : Z :=
  let avg := peakRangeFilter (probeWindow pe) in
  if fle avg (ofZ 0) then 0 else toU32 (fceil (fdiv (ofZ 1_000_000) avg)).

(** ** Delivery rate *)

Definition deliveryWindowSize : nat := 16.

Record deliveryEstimator : Type := mkDelivery {
  de_maxPayloadSize : Z;
  lastArrivalTime : Z;
  hasLastArrival : bool;
  pktWindow : list Z;
  bytesWindow : list Z;
  pktPtr : nat;
  de_initialized : bool
}.

Definition initDeliveryWindow (maxPayloadSize : Z) : deliveryEstimator :=
  mkDelivery maxPayloadSize 0 false (replicate deliveryWindowSize 1_000_000)
    (replicate deliveryWindowSize maxPayloadSize) 0 false.

Definition delivery_onPktArrival (de : deliveryEstimator) (size arrivalTime : Z) : deliveryEstimator :=
  if negb (hasLastArrival de) then
    mkDelivery (de_maxPayloadSize de) arrivalTime true (pktWindow de) (bytesWindow de) (pktPtr de) (de_initialized de)
  else
    let interval := Clock.Sub arrivalTime (lastArrivalTime de) in
    let w := <[pktPtr de := interval]> (pktWindow de) in
    let b := <[pktPtr de := size]> (bytesWindow de) in
    if Nat.leb deliveryWindowSize (S (pktPtr de))
    then mkDelivery (de_maxPayloadSize de) arrivalTime true w b 0 true
    else mkDelivery (de_maxPayloadSize de) arrivalTime true w b (S (pktPtr de)) (de_initialized de).

(** The sum of the intervals in the band, their number and the bytes. *)
Definition deliverySums (m : Z) (timeWindow bytesWindow : list Z) : Z * Z * Z :=
  fold_left (fun '(sum, count, total) '(v, b) =>
    if inBand m v then (i64 (sum + v), u32 (count + 1), u64 (total + u64 b)) else (sum, count, total))
    (zip timeWindow bytesWindow) (0, 0, 0).

Definition deliveryRateFilter (timeWindow bytesWindow : list Z) : Z * Z :=
  let n := length timeWindow in
  if Nat.eqb n 0 then (0, 0) else
  let m := median timeWindow in
  if m <=? 0 then (0, 0) else
  let '(sum, count, totalBytes) := deliverySums m timeWindow bytesWindow in
  if count <=? Z.of_nat (Nat.div n 2) then (0, 0) else
  let totalBytes := u64 (totalBytes + u64 (Packet.WireHeaderSize * count)) in
  let avgInterval := fdiv (ofZ sum) (ofZ count) in
  if fle avgInterval (ofZ 0) then (0, 0) else
  let pkts := toU32 (fceil (fdiv (ofZ 1_000_000) avgInterval)) in
  let bytesPS := toU32 (fceil (fdiv (fmul (ofZ 1_000_000) (ofZ totalBytes)) (ofZ sum))) in
  (pkts, bytesPS).

Definition getPktRcvSpeed (de : deliveryEstimator) : Z * Z :=
  if negb (de_initialized de) then (0, 0) else deliveryRateFilter (pktWindow de) (bytesWindow de).

(** ** Live mode *)

Record LiveCC : Type := mkLive {
  atomicMaxBW : Z;
  atomicAvgPayloadSize : Z;
  atomicLastSentSeq : Z;
  l_overhead : Z;
  l_packetSize : Z;
  l_probe : probeEstimator;
  l_delivery : deliveryEstimator
}.
#[global] Instance eta_live : Eta LiveCC := fun c =>
  mkLive (atomicMaxBW c) (atomicAvgPayloadSize c) (atomicLastSentSeq c) (l_overhead c) (l_packetSize c)
    (l_probe c) (l_delivery c).
#[global] Instance fld_atomicMaxBW : Field atomicMaxBW. Proof. derive_field. Defined.
#[global] Instance fld_atomicAvg : Field atomicAvgPayloadSize. Proof. derive_field. Defined.
#[global] Instance fld_atomicLast : Field atomicLastSentSeq. Proof. derive_field. Defined.
#[global] Instance fld_l_overhead : Field l_overhead. Proof. derive_field. Defined.
#[global] Instance fld_l_probe : Field l_probe. Proof. derive_field. Defined.
#[global] Instance fld_l_delivery : Field l_delivery. Proof. derive_field. Defined.

Definition NewLiveCC (maxBW packetSize : Z) : LiveCC :=
  let maxBW := if maxBW <=? 0 then DefaultMaxBW else maxBW in
  let packetSize := if packetSize <=? 0 then DefaultPacketSize else packetSize in
  mkLive maxBW packetSize 0 DefaultOverhead packetSize (initProbeWindow packetSize) (initDeliveryWindow packetSize).

Definition live_PacketInterval (cc : LiveCC) : Z :=
  let maxBW := atomicMaxBW cc in
  if maxBW <=? 0 then Clock.Millisecond else
  let pktSize := i64 (atomicAvgPayloadSize cc + Packet.WireHeaderSize) in
  let interval := Z.quot (i64 (Clock.Second * pktSize)) maxBW in
  if interval <=? 0 then 1 else interval.

Definition live_OnPacketSent (cc : LiveCC) (seqNo size : Z) : LiveCC :=
  let cc := cc <| atomicLastSentSeq := seqNo |> in
  if size >? 0 then
    let old := atomicAvgPayloadSize cc in
    cc <| atomicAvgPayloadSize := Z.quot (i64 (i64 (old * 127) + size)) 128 |>
  else cc.

Definition live_IsProbePacket (cc : LiveCC) : bool := Z.rem (atomicLastSentSeq cc) ProbeInterval =? 0.

Definition live_UpdateBandwidth (cc : LiveCC) (maxBW inputBW : Z) : LiveCC :=
  if maxBW >? 0 then cc <| atomicMaxBW := maxBW |> else
  if inputBW >? 0 then
    let ohead := l_overhead cc in
    let extra := i64 (i64 (Z.quot inputBW 100 * ohead) + Z.quot (i64 (Z.rem inputBW 100 * ohead)) 100) in
    if inputBW >? i64 (MaxInt - extra) then cc <| atomicMaxBW := MaxInt |>
    else cc <| atomicMaxBW := i64 (inputBW + extra) |>
  else cc.

Definition clampPct (pct : Z) : Z :=
  let pct := if pct <? 0 then 0 else pct in
  if pct >? 100 then 100 else pct.

Definition live_SetOverhead (cc : LiveCC) (pct : Z) : LiveCC := cc <| l_overhead := clampPct pct |>.

Inductive TransError : Type := ErrPayloadSize (size max : Z).

Definition live_CheckTransArgs (cc : LiveCC) (msgAPI : bool) (size : Z) (isWrite : bool) : result TransError unit :=
  if isWrite && msgAPI then
    if size >? l_packetSize cc then Err (ErrPayloadSize size (l_packetSize cc)) else Ok tt
  else Ok tt.

(** ** File mode *)

Record FileCC : Type := mkFile {
  cwnd : f64;
  maxCWND : f64;
  sndPeriod : f64;
  slowStart : bool;
  lastAck : Z;
  lastRCTime : Z;
  rcInit : bool;
  loss : bool;
  lastDecSeq : Z;
  lastDecPeriod : f64;
  nakCount : Z;
  avgNAKNum : Z;
  decCount : Z;
  decRandom : Z;
  deliveryRate : f64;
  bwEstimate : f64;
  f_rtt : f64;
  f_lastSentSeq : Z;
  sndLossLength : Z;
  f_maxBW : Z;
  f_overhead : Z;
  f_packetSize : Z;
  f_probe : probeEstimator;
  f_delivery : deliveryEstimator;
  draws : nat
}.
#[global] Instance eta_file : Eta FileCC := fun r =>
  mkFile (cwnd r) (maxCWND r) (sndPeriod r) (slowStart r) (lastAck r) (lastRCTime r) (rcInit r) (loss r)
    (lastDecSeq r) (lastDecPeriod r) (nakCount r) (avgNAKNum r) (decCount r) (decRandom r) (deliveryRate r)
    (bwEstimate r) (f_rtt r) (f_lastSentSeq r) (sndLossLength r) (f_maxBW r) (f_overhead r) (f_packetSize r)
    (f_probe r) (f_delivery r) (draws r).
#[global] Instance fld_file_cwnd : Field cwnd. Proof. derive_field. Defined.
#[global] Instance fld_file_maxCWND : Field maxCWND. Proof. derive_field. Defined.
#[global] Instance fld_file_sndPeriod : Field sndPeriod. Proof. derive_field. Defined.
#[global] Instance fld_file_slowStart : Field slowStart. Proof. derive_field. Defined.
#[global] Instance fld_file_lastAck : Field lastAck. Proof. derive_field. Defined.
#[global] Instance fld_file_lastRCTime : Field lastRCTime. Proof. derive_field. Defined.
#[global] Instance fld_file_rcInit : Field rcInit. Proof. derive_field. Defined.
#[global] Instance fld_file_loss : Field loss. Proof. derive_field. Defined.
#[global] Instance fld_file_lastDecSeq : Field lastDecSeq. Proof. derive_field. Defined.
#[global] Instance fld_file_lastDecPeriod : Field lastDecPeriod. Proof. derive_field. Defined.
#[global] Instance fld_file_nakCount : Field nakCount. Proof. derive_field. Defined.
#[global] Instance fld_file_avgNAKNum : Field avgNAKNum. Proof. derive_field. Defined.
#[global] Instance fld_file_decCount : Field decCount. Proof. derive_field. Defined.
#[global] Instance fld_file_decRandom : Field decRandom. Proof. derive_field. Defined.
#[global] Instance fld_file_deliveryRate : Field deliveryRate. Proof. derive_field. Defined.
#[global] Instance fld_file_bwEstimate : Field bwEstimate. Proof. derive_field. Defined.
#[global] Instance fld_file_f_rtt : Field f_rtt. Proof. derive_field. Defined.
#[global] Instance fld_file_f_lastSentSeq : Field f_lastSentSeq. Proof. derive_field. Defined.
#[global] Instance fld_file_sndLossLength : Field sndLossLength. Proof. derive_field. Defined.
#[global] Instance fld_file_f_maxBW : Field f_maxBW. Proof. derive_field. Defined.
#[global] Instance fld_file_f_overhead : Field f_overhead. Proof. derive_field. Defined.
#[global] Instance fld_file_f_packetSize : Field f_packetSize. Proof. derive_field. Defined.
#[global] Instance fld_file_f_probe : Field f_probe. Proof. derive_field. Defined.
#[global] Instance fld_file_f_delivery : Field f_delivery. Proof. derive_field. Defined.
#[global] Instance fld_file_draws : Field draws. Proof. derive_field. Defined.

Definition fileCCInitialCWND : f64 := ofZ 16.
Definition fileCCInitialPeriod : f64 := ofZ 1.
Definition fileCCRCInterval : Z := 10_000.
Definition fileCCLossIncrease : f64 := lit 103 100.
Definition fileCCBeta : f64 := lit 15 10_000_000.
Definition fileCCMaxDecCount : Z := 5.
Definition fileCCLossThreshold : f64 := ofZ 20.
Definition fileCCShareFactor : f64 := lit 3 100.
(** The constant expression [1-fileCCShareFactor] is exact before rounding. *)
Definition fileCCKeepFactor : f64 := lit 97 100.
Definition mega : f64 := ofZ 1_000_000.

Definition NewFileCC (maxBW packetSize fc isn : Z) : FileCC :=
  let packetSize := if packetSize <=? 0 then DefaultPacketSize else packetSize in
  let fc := if fc <=? 0 then 8192 else fc in
  mkFile fileCCInitialCWND (ofZ fc) fileCCInitialPeriod true (Seq.Value (Seq.Dec isn)) 0 false false
    (Seq.Value (Seq.Dec (Seq.Dec isn))) fileCCInitialPeriod 0 0 0 1 (ofZ 0) (ofZ 0) (ofZ 0) 0 0 maxBW DefaultOverhead
    packetSize (initProbeWindow packetSize) (initDeliveryWindow packetSize) 0.

Definition file_PacketInterval (cc : FileCC) : Z :=
  let period := if flt (sndPeriod cc) (ofZ 1) then ofZ 1 else sndPeriod cc in
  toInt period.

Definition seqLen (seq1 seq2 : Z) : Z := Z.land (u32 (u32 (seq2 - seq1) + 0x80000000)) 0x7FFFFFFF.
Definition seqCmp (a b : Z) : Z := i32 (i32 a - i32 b).

Definition exitSlowStart (cc : FileCC) : FileCC :=
  if flt (ofZ 0) (deliveryRate cc) then cc <| sndPeriod := fdiv mega (deliveryRate cc) |>
  else if flt (ofZ 0) (f_rtt cc) then cc <| sndPeriod := fdiv (cwnd cc) (fadd (f_rtt cc) (ofZ fileCCRCInterval)) |>
  else cc.

Definition mssOf (cc : FileCC) : f64 :=
  let mss := fadd (ofZ (f_packetSize cc)) (ofZ Packet.WireHeaderSize) in
  if fle mss (ofZ Packet.WireHeaderSize) then fadd (ofZ DefaultPacketSize) (ofZ Packet.WireHeaderSize) else mss.

Definition enforceMaxBW (cc : FileCC) : FileCC :=
  if f_maxBW cc <=? 0 then cc else
  let minSP := fdiv mega (fdiv (ofZ (f_maxBW cc)) (mssOf cc)) in
  if flt (sndPeriod cc) minSP then cc <| sndPeriod := minSP |> else cc.

Section FileCC.
Context {M : GoMath}.

Definition rateIncrease (cc : FileCC) : FileCC :=
  if fle (sndPeriod cc) (ofZ 0) then cc else
  let lossBW := fmul (ofZ 2) (fdiv mega (lastDecPeriod cc)) in
  let bwPktPS := fmin lossBW (bwEstimate cc) in
  let bwPktPS := if fle bwPktPS (ofZ 0) then lossBW else bwPktPS in
  let B := fsub bwPktPS (fdiv mega (sndPeriod cc)) in
  let B := if flt (lastDecPeriod cc) (sndPeriod cc) && flt (fdiv bwPktPS (ofZ 9)) B then fdiv bwPktPS (ofZ 9) else B in
  let mss := mssOf cc in
  let inc :=
    if fle B (ofZ 0) then fdiv (ofZ 1) mss else
    let inc := fdiv (fmul (Pow (ofZ 10) (fceil (Log10 (fmul (fmul B mss) (ofZ 8))))) fileCCBeta) mss in
    if flt inc (fdiv (ofZ 1) mss) then fdiv (ofZ 1) mss else inc in
  cc <| sndPeriod := fdiv (fmul (sndPeriod cc) (ofZ fileCCRCInterval))
                          (fadd (fmul (sndPeriod cc) inc) (ofZ fileCCRCInterval)) |>.

Definition file_OnACK (now ackSeqNo rtt bandwidth rate : Z) (cc : FileCC) : FileCC :=
  let cc := if rtt >? 0 then cc <| f_rtt := ofZ rtt |> else cc in
  let cc := if bandwidth >? 0 then cc <| bwEstimate := ofZ bandwidth |> else cc in
  let cc := if rate >? 0 then cc <| deliveryRate := ofZ rate |> else cc in
  if negb (rcInit cc) then cc <| rcInit := true |> <| lastRCTime := now |> else
  if Clock.Sub now (lastRCTime cc) <? fileCCRCInterval then cc else
  let cc := cc <| lastRCTime := now |> in
  let cc :=
    if slowStart cc then
      let acked := seqLen (lastAck cc) ackSeqNo in
      let cc := if acked >? 0 then cc <| cwnd := fadd (cwnd cc) (ofZ acked) |> else cc in
      let cc := cc <| lastAck := ackSeqNo |> in
      if flt (maxCWND cc) (cwnd cc) then exitSlowStart (cc <| slowStart := false |>) else cc
    else
      let cc := if flt (ofZ 0) (deliveryRate cc)
                then cc <| cwnd := fadd (fmul (fdiv (deliveryRate cc) mega) (fadd (f_rtt cc) (ofZ fileCCRCInterval))) (ofZ 16) |>
                else cc in
      if loss cc then cc <| loss := false |> else rateIncrease cc in
  enforceMaxBW cc.

Definition file_OnTimeout (cc : FileCC) : FileCC :=
  if slowStart cc then exitSlowStart (cc <| slowStart := false |>) else cc.

Definition SetSndLossLength (cc : FileCC) (n : Z) : FileCC := cc <| sndLossLength := n |>.

(** The 2% check of [OnNAK]: the reported loss is too small to react to. *)
Definition belowThreshold (cc : FileCC) : bool :=
  if flt (ofZ 0) (sndPeriod cc) && flt (ofZ 0) (f_rtt cc) then
    let pktsInFlight := fdiv (f_rtt cc) (sndPeriod cc) in
    if flt (ofZ 0) pktsInFlight then
      flt (fdiv (fmul (ofZ (sndLossLength cc)) (ofZ 1000)) pktsInFlight) fileCCLossThreshold
    else false
  else false.

Definition newEpoch (cc : FileCC) : FileCC :=
  let cc := cc <| lastDecPeriod := sndPeriod cc |> <| sndPeriod := fceil (fmul (sndPeriod cc) fileCCLossIncrease) |> in
  let cc := cc <| avgNAKNum := toInt (fceil (fadd (fmul (ofZ (avgNAKNum cc)) fileCCKeepFactor)
                                                  (fmul (ofZ (nakCount cc)) fileCCShareFactor))) |> in
  let cc := cc <| nakCount := 1 |> <| decCount := 1 |> <| lastDecSeq := f_lastSentSeq cc |> in
  if avgNAKNum cc >? 1 then cc <| decRandom := i64 (Intn (draws cc) (avgNAKNum cc) + 1) |> <| draws ::= S |>
  else cc <| decRandom := 1 |>.

Definition withinEpoch (cc : FileCC) : FileCC :=
  if decCount cc <? fileCCMaxDecCount then
    let cc := cc <| decCount := i64 (decCount cc + 1) |> <| nakCount := i64 (nakCount cc + 1) |> in
    if (decRandom cc >? 0) && (Z.rem (nakCount cc) (decRandom cc) =? 0) then
      cc <| sndPeriod := fceil (fmul (sndPeriod cc) fileCCLossIncrease) |> <| lastDecSeq := f_lastSentSeq cc |>
    else cc
  else cc.

Definition file_OnNAK (lossSeqs : list Z) (cc : FileCC) : FileCC :=
  match lossSeqs with
  | [] => cc
  | lossBegin :: _ =>
      let cc := if slowStart cc then exitSlowStart (cc <| slowStart := false |>) else cc in
      let cc := cc <| loss := true |> in
      if belowThreshold cc then cc <| lastDecPeriod := sndPeriod cc |> else
      let cc := if seqCmp lossBegin (lastDecSeq cc) >? 0 then newEpoch cc else withinEpoch cc in
      enforceMaxBW cc
  end.

Definition file_OnPacketSent (cc : FileCC) (seqNo size : Z) : FileCC :=
  cc <| f_lastSentSeq := seqNo |> <| f_probe ::= fun p => probe_onPacketSent p seqNo |>.

Definition file_CongestionWindow (cc : FileCC) : Z :=
  let w := toInt (cwnd cc) in if w <? 2 then 2 else w.

Definition file_SetOverhead (cc : FileCC) (pct : Z) : FileCC := cc <| f_overhead := clampPct pct |>.

(** ** The interface *)

Inductive Controller : Type := Live (cc : LiveCC) | File (cc : FileCC).

Definition isLive (c : Controller) : bool := match c with Live _ => true | File _ => false end.

Definition PacketInterval (c : Controller) : Z :=
  match c with Live cc => live_PacketInterval cc | File cc => file_PacketInterval cc end.
Definition OnACK (now ackSeqNo rtt bandwidth rate : Z) (c : Controller) : Controller :=
  match c with Live cc => Live cc | File cc => File (file_OnACK now ackSeqNo rtt bandwidth rate cc) end.
Definition OnNAK (lossSeqs : list Z) (c : Controller) : Controller :=
  match c with Live cc => Live cc | File cc => File (file_OnNAK lossSeqs cc) end.
Definition OnTimeout (c : Controller) : Controller :=
  match c with Live cc => Live cc | File cc => File (file_OnTimeout cc) end.
Definition OnPacketSent (seqNo size : Z) (c : Controller) : Controller :=
  match c with Live cc => Live (live_OnPacketSent cc seqNo size) | File cc => File (file_OnPacketSent cc seqNo size) end.
Definition OnPacketReceived (seqNo size arrivalTime : Z) (c : Controller) : Controller :=
  match c with
  | Live cc => Live (cc <| l_probe ::= fun p => probe_onPacketReceived p seqNo size arrivalTime |>)
  | File cc => File (cc <| f_probe ::= fun p => probe_onPacketReceived p seqNo size arrivalTime |>)
  end.
Definition OnPktArrival (size arrivalTime : Z) (c : Controller) : Controller :=
  match c with
  | Live cc => Live (cc <| l_delivery ::= fun d => delivery_onPktArrival d size arrivalTime |>)
  | File cc => File (cc <| f_delivery ::= fun d => delivery_onPktArrival d size arrivalTime |>)
  end.
Definition SetMaxBandwidth (bw : Z) (c : Controller) : Controller :=
  match c with Live cc => Live (cc <| atomicMaxBW := bw |>) | File cc => File (cc <| f_maxBW := bw |>) end.
Definition SetOverhead (pct : Z) (c : Controller) : Controller :=
  match c with Live cc => Live (live_SetOverhead cc pct) | File cc => File (file_SetOverhead cc pct) end.
Definition IsProbePacket (c : Controller) : bool :=
  match c with Live cc => live_IsProbePacket cc | File cc => isProbePacket (f_probe cc) end.
Definition EstimatedBandwidth (c : Controller) : Z :=
  match c with Live cc => estimatedBandwidth (l_probe cc) | File cc => estimatedBandwidth (f_probe cc) end.
Definition DeliveryRate (c : Controller) : Z * Z :=
  match c with Live cc => getPktRcvSpeed (l_delivery cc) | File cc => getPktRcvSpeed (f_delivery cc) end.
Definition UpdateBandwidth (maxBW inputBW : Z) (c : Controller) : Controller :=
  match c with Live cc => Live (live_UpdateBandwidth cc maxBW inputBW) | File cc => File cc end.
Definition MaxBandwidth (c : Controller) : Z :=
  match c with Live cc => atomicMaxBW cc | File cc => f_maxBW cc end.
Definition CongestionWindow (c : Controller) : Z :=
  match c with Live _ => MaxInt | File cc => file_CongestionWindow cc end.
Definition MinNAKInterval (c : Controller) : Z := match c with Live _ => 20_000 | File _ => 0 end.
Definition UpdateNAKInterval (nakIntUS : Z) (c : Controller) : Z :=
  match c with Live _ => Z.quot nakIntUS 2 | File _ => nakIntUS end.
Definition CheckTransArgs (msgAPI : bool) (size : Z) (isWrite : bool) (c : Controller) : result TransError unit :=
  match c with Live cc => live_CheckTransArgs cc msgAPI size isWrite | File _ => Ok tt end.
Definition ACKMaxPackets (c : Controller) : Z := 0.
Definition ACKTimeoutUS (c : Controller) : Z := 0.

End FileCC.

End Congestion.
