(* ===== verification/Pacing.v ===== *)
(** * The controllers over a run ([internal/congestion])

    Live mode paces at the configured rate whatever the sizes of the packets; the
    overhead is computed without overflow.  File mode is shown never to slow down
    on a loss report, since the length of the loss list it looks at is never set,
    and its comparison of sequence numbers to be the circular one only within
    half the circle. *)
From Stdlib Require Import ZArith Lia SpecFloat.
From stdpp Require Import base numbers list option relations.
From S2P Require Import Prelude Seq Packet Clock Float64 Congestion.
Import Float64.
Import Congestion.
Local Open Scope Z_scope.

Module Pacing.

Section Controllers.
Context {M : GoMath}.

(** ** What the connection does with its controller *)

Section Steps.
Variables lo hi : Z.

(** The sizes of the packets sent are between [lo] and [hi]. *)
Inductive cstep : Controller -> Controller -> Prop :=
| cs_ack now s rtt bw rate c : cstep c (OnACK now s rtt bw rate c)
| cs_nak l c : cstep c (OnNAK l c)
| cs_timeout c : cstep c (OnTimeout c)
| cs_sent s size c : lo <= size <= hi -> cstep c (OnPacketSent s size c)
| cs_received s size t c : cstep c (OnPacketReceived s size t c)
| cs_arrival size t c : cstep c (OnPktArrival size t c)
| cs_max bw c : 0 < bw <= MaxInt -> cstep c (SetMaxBandwidth bw c)
| cs_overhead pct c : cstep c (SetOverhead pct c)
| cs_update maxBW inputBW c : maxBW <= MaxInt -> inputBW <= MaxInt -> cstep c (UpdateBandwidth maxBW inputBW c).

End Steps.

(** ** The overhead *)

Lemma clampPct_range pct : 0 <= clampPct pct <= 100.
Proof. unfold clampPct. cbv zeta. destruct (Z.ltb_spec pct 0); case_match; lia. Qed.

(** The overhead in two parts is the overhead, rounded down. *)
Lemma overhead_split x o : 0 <= x -> 0 <= o -> x / 100 * o + (x mod 100) * o / 100 = x * o / 100.
Proof.
  intros Hx Ho. replace (x * o) with (x mod 100 * o + (x / 100 * o) * 100).
  - rewrite Z.div_add by lia. lia.
  - pose proof (Z.div_mod x 100). nia.
Qed.

Lemma UpdateBandwidth_exact cc inputBW :
  0 < inputBW <= MaxInt -> 0 <= l_overhead cc <= 100 ->
  atomicMaxBW (live_UpdateBandwidth cc 0 inputBW) = Z.min MaxInt (inputBW + inputBW * l_overhead cc / 100).
Proof.
  intros Hb Ho. unfold live_UpdateBandwidth. change (0 >? 0) with false. cbv iota zeta.
  destruct (Z.gtb_spec inputBW 0); [|lia].
  rewrite Z.quot_div_nonneg, Z.rem_mod_nonneg by lia. set (o := l_overhead cc) in *. clearbody o.
  pose proof (overhead_split inputBW o ltac:(lia) ltac:(lia)) as E.
  assert (0 <= inputBW / 100 * o <= inputBW) as B1.
  { pose proof (Z.mul_div_le inputBW 100). pose proof (Z.div_pos inputBW 100). nia. }
  assert (0 <= inputBW mod 100 * o <= 9900) as B2 by (pose proof (Z.mod_pos_bound inputBW 100); nia).
  assert (0 <= (inputBW mod 100 * o) / 100 <= 99) as B3.
  { split; [apply Z.div_pos; lia|]. apply Z.div_le_upper_bound; lia. }
  assert (0 <= inputBW * o / 100 <= inputBW) as B4.
  { split; [apply Z.div_pos; nia|]. apply Z.div_le_upper_bound; nia. }
  unfold MaxInt in *. rewrite (i64_id (inputBW / 100 * o)) by (unfold is_i64; lia).
  rewrite (i64_id (inputBW mod 100 * o)) by (unfold is_i64; lia). rewrite Z.quot_div_nonneg by lia.
  rewrite (i64_id (_ + _)) by (unfold is_i64; lia). rewrite E.
  rewrite (i64_id (_ - _)) by (unfold is_i64; lia).
  destruct (Z.gtb_spec inputBW (2 ^ 63 - 1 - inputBW * o / 100)); fields; [lia|].
  rewrite i64_id by (unfold is_i64; lia). lia.
Qed.

(** The input and [pct] percent of it, at most the largest integer. *)
Definition withOverhead (pct inputBW : Z) : Z := Z.min MaxInt (inputBW + inputBW * Z.max 0 (Z.min 100 pct) / 100).

(** C39. The bandwidth of a live connection that is paced by its input is the input
    and the overhead, whatever the percentage asked for and for every rate: the
    two-part computation of the code equals the rounded percentage, saturates at
    the largest integer and never overflows. *)
Theorem live_overhead_exact (cc : LiveCC) (pct inputBW : Z) :
  0 < inputBW <= MaxInt ->
  atomicMaxBW (live_UpdateBandwidth (live_SetOverhead cc pct) 0 inputBW) = withOverhead pct inputBW.
Proof.
  intros Hb. unfold withOverhead. rewrite UpdateBandwidth_exact; [|done|unfold live_SetOverhead; fields; apply clampPct_range].
  unfold live_SetOverhead. fields. replace (clampPct pct) with (Z.max 0 (Z.min 100 pct)); [done|].
  unfold clampPct. cbv zeta. destruct (Z.ltb_spec pct 0); case_match; lia.
Qed.

(** ** Live mode *)

Record paced (lo hi : Z) (cc : LiveCC) : Prop := mkPaced {
  pa_bw : 0 < atomicMaxBW cc <= MaxInt;
  pa_avg : lo <= atomicAvgPayloadSize cc <= hi;
  pa_overhead : 0 <= l_overhead cc <= 100
}.

Lemma average_between lo hi old size :
  0 < lo -> hi < 2 ^ 32 -> lo <= old <= hi -> lo <= size <= hi ->
  lo <= Z.quot (i64 (i64 (old * 127) + size)) 128 <= hi.
Proof.
  intros Hl Hh Ho Hs. rewrite (i64_id (old * 127)) by (unfold is_i64; lia). rewrite i64_id by (unfold is_i64; lia).
  rewrite Z.quot_div_nonneg by lia. split; [apply Z.div_le_lower_bound; lia|]. apply Z.div_le_upper_bound; lia.
Qed.

Lemma paced_step lo hi c c' :
  0 < lo -> hi < 2 ^ 32 -> cstep lo hi c c' ->
  (forall cc, c = Live cc -> paced lo hi cc) -> forall cc', c' = Live cc' -> paced lo hi cc'.
Proof.
  intros Hl Hh St Hp cc' E. destruct St as [| | |s size c Hs| | |bw c Hb|pct c|mb ib c Hm Hi]; destruct c as [cc|]; cbn in E;
    try discriminate E; injection E as <-; destruct (Hp cc eq_refl) as [P1 P2 P3].
  1-3: by constructor.
  - unfold live_OnPacketSent. cbv zeta. destruct (size >? 0); constructor; fields; try done. apply average_between; done.
  - constructor; fields; done.
  - constructor; fields; done.
  - constructor; fields; done.
  - unfold live_SetOverhead. constructor; fields; try done. apply clampPct_range.
  - constructor; [| |].
    + destruct (Z.gtb_spec mb 0) as [H|H]; [unfold live_UpdateBandwidth; destruct (Z.gtb_spec mb 0); [fields; lia|lia]|].
      destruct (Z.gtb_spec ib 0) as [H'|H'].
      * assert (live_UpdateBandwidth cc mb ib = live_UpdateBandwidth cc 0 ib) as ->.
        { unfold live_UpdateBandwidth. destruct (Z.gtb_spec mb 0); [lia|]. done. }
        rewrite UpdateBandwidth_exact by (done || lia). pose proof (Z.div_pos (ib * l_overhead cc) 100 ltac:(nia) ltac:(lia)).
        unfold MaxInt in *. lia.
      * unfold live_UpdateBandwidth. destruct (Z.gtb_spec mb 0); [lia|]. by destruct (Z.gtb_spec ib 0); [lia|].
    + unfold live_UpdateBandwidth. cbv zeta. repeat case_match; fields; done.
    + unfold live_UpdateBandwidth. cbv zeta. repeat case_match; fields; done.
Qed.

Lemma paced_run lo hi c c' :
  0 < lo -> hi < 2 ^ 32 -> rtc (cstep lo hi) c c' ->
  (forall cc, c = Live cc -> paced lo hi cc) -> forall cc', c' = Live cc' -> paced lo hi cc'.
Proof. intros Hl Hh R. induction R as [|a b c St _ IH]; [done|]. intros H. apply IH. by apply (paced_step lo hi a). Qed.

(** C38. Live pacing: whatever the connection does with a live controller, the
    average payload stays between the smallest and the largest of the sizes of its
    packets and the packet size it was made with, and the interval is the wire size of
    an average packet over the bandwidth, in whole microseconds, and at least one.  So
    sending an average packet per interval exceeds the bandwidth by less than one
    microsecond per packet; and unless the interval was raised to one microsecond
    (which is then the limit: a million packets per second), it does not fall
    behind the bandwidth. *)
Theorem live_pacing (lo hi maxBW packetSize : Z) (cc : LiveCC) :
  0 < lo -> hi < 2 ^ 32 -> lo <= packetSize <= hi -> 0 < maxBW <= MaxInt ->
  rtc (cstep lo hi) (Live (NewLiveCC maxBW packetSize)) (Live cc) ->
  let avg := atomicAvgPayloadSize cc in
  let wire := avg + Packet.WireHeaderSize in
  let I := live_PacketInterval cc in
  lo <= avg <= hi /\ I = Z.max 1 (wire * Clock.Second / atomicMaxBW cc) /\
  wire * Clock.Second < (I + 1) * atomicMaxBW cc /\ (1 < I -> I * atomicMaxBW cc <= wire * Clock.Second).
Proof.
  intros Hl Hh Hp Hb R. cbv zeta.
  destruct (paced_run lo hi _ _ Hl Hh R) with (cc' := cc) as [[B1 B2] [A1 A2] _]; [|done|].
  { intros cc0 [= <-]. unfold NewLiveCC. cbv zeta. constructor; cbn; repeat case_match; unfold DefaultOverhead; lia. }
  set (avg := atomicAvgPayloadSize cc) in *. set (bw := atomicMaxBW cc) in *. split; [done|].
  assert (live_PacketInterval cc = Z.max 1 ((avg + Packet.WireHeaderSize) * Clock.Second / bw)) as ->.
  { unfold live_PacketInterval. fold bw avg. cbv zeta. destruct (Z.leb_spec bw 0); [lia|].
    unfold Packet.WireHeaderSize. change Clock.Second with 1000000. rewrite (i64_id (avg + 44)) by (unfold is_i64; lia).
    rewrite (i64_id (1000000 * _)) by (unfold is_i64; lia). rewrite Z.quot_div_nonneg by lia. rewrite (Z.mul_comm (avg + 44)).
    destruct (Z.leb_spec (1000000 * (avg + 44) / bw) 0); lia. }
  split; [done|]. set (n := (avg + Packet.WireHeaderSize) * Clock.Second).
  pose proof (Z.mul_succ_div_gt n bw ltac:(lia)). pose proof (Z.mul_div_le n bw ltac:(lia)). nia.
Qed.

(** ** File mode *)

Definition blind (c : Controller) : Prop := match c with File cc => sndLossLength cc = 0 | Live _ => True end.

Lemma exitSlowStart_loss cc : sndLossLength (exitSlowStart cc) = sndLossLength cc.
Proof. unfold exitSlowStart. repeat case_match; fields; done. Qed.
Lemma enforceMaxBW_loss cc : sndLossLength (enforceMaxBW cc) = sndLossLength cc.
Proof. unfold enforceMaxBW. cbv zeta. repeat case_match; fields; done. Qed.
Lemma rateIncrease_loss cc : sndLossLength (rateIncrease cc) = sndLossLength cc.
Proof. unfold rateIncrease. destruct (fle _ _); [done|]. cbv zeta. fields. done. Qed.
Lemma newEpoch_loss cc : sndLossLength (newEpoch cc) = sndLossLength cc.
Proof. unfold newEpoch. cbv zeta. case_match; fields; done. Qed.
Lemma withinEpoch_loss cc : sndLossLength (withinEpoch cc) = sndLossLength cc.
Proof. unfold withinEpoch. cbv zeta. repeat case_match; fields; done. Qed.

Lemma OnACK_loss now s rtt bw rate cc : sndLossLength (file_OnACK now s rtt bw rate cc) = sndLossLength cc.
Proof.
  unfold file_OnACK. cbv zeta. 
  set (c1 := if rtt >? 0 then _ else cc). assert (sndLossLength c1 = sndLossLength cc) as <- by (unfold c1; case_match; fields; done). clearbody c1.
  set (c2 := if bw >? 0 then _ else c1). assert (sndLossLength c2 = sndLossLength c1) as <- by (unfold c2; case_match; fields; done). clearbody c2.
  set (c3 := if rate >? 0 then _ else c2). assert (sndLossLength c3 = sndLossLength c2) as <- by (unfold c3; case_match; fields; done). clearbody c3.
  destruct (negb _); [fields; done|]. destruct (_ <? _); [done|]. rewrite enforceMaxBW_loss.
  set (c4 := c3 <| lastRCTime := now |>). assert (sndLossLength c4 = sndLossLength c3) as <- by (unfold c4; fields; done). clearbody c4.
  destruct (slowStart c4).
  - set (c5 := if _ >? 0 then _ else c4). assert (sndLossLength c5 = sndLossLength c4) as <- by (unfold c5; case_match; fields; done).
    clearbody c5. destruct (flt _ _); rewrite ?exitSlowStart_loss; fields; done.
  - set (c5 := if flt _ _ then _ else c4). assert (sndLossLength c5 = sndLossLength c4) as <- by (unfold c5; case_match; fields; done).
    clearbody c5. destruct (loss c5); [fields; done|apply rateIncrease_loss].
Qed.

Lemma OnNAK_loss l cc : sndLossLength (file_OnNAK l cc) = sndLossLength cc.
Proof.
  unfold file_OnNAK. destruct l as [|s l]; [done|]. cbv zeta.
  set (c1 := if slowStart cc then _ else cc).
  assert (sndLossLength c1 = sndLossLength cc) as <- by (unfold c1; case_match; rewrite ?exitSlowStart_loss; fields; done). clearbody c1.
  destruct (belowThreshold _); [fields; done|]. rewrite enforceMaxBW_loss.
  destruct (_ >? 0); [rewrite newEpoch_loss|rewrite withinEpoch_loss]; fields; done.
Qed.

Lemma blind_step lo hi c c' : cstep lo hi c c' -> blind c -> blind c'.
Proof.
  destruct 1; destruct c as [cc|cc]; cbn; try done; intros H.
  - by rewrite OnACK_loss.
  - by rewrite OnNAK_loss.
  - unfold file_OnTimeout. case_match; rewrite ?exitSlowStart_loss; fields; done.
Qed.

Lemma blind_run lo hi c c' : rtc (cstep lo hi) c c' -> blind c -> blind c'.
Proof. induction 1; [done|]. intros. apply IHrtc. by apply (blind_step lo hi x). Qed.

(** Nothing lost is below every positive threshold. *)
Lemma nothing_lost cc :
  sndLossLength cc = 0 -> flt (ofZ 0) (sndPeriod cc) = true -> flt (ofZ 0) (f_rtt cc) = true ->
  flt (ofZ 0) (fdiv (f_rtt cc) (sndPeriod cc)) = true -> belowThreshold cc = true.
Proof.
  intros H0 H1 H2 H3. unfold belowThreshold. rewrite H1, H2, H3, H0. cbn [andb].
  change (fmul (ofZ 0) (ofZ 1000)) with (S754_zero false). rewrite fdiv_zero by (by apply flt_pos). reflexivity.
Qed.

(** File mode does not react to losses: the code that would set the length of
    the loss list is never called, so the check against two percent always finds
    the loss negligible.  Over any run of a file controller, once slow start is
    over, a loss report of any size leaves the sending period and the window as
    they are. *)
Theorem file_loss_ignored (lo hi maxBW packetSize fc isn : Z) (cc : FileCC) (lossSeqs : list Z) :
  rtc (cstep lo hi) (File (NewFileCC maxBW packetSize fc isn)) (File cc) ->
  slowStart cc = false -> flt (ofZ 0) (sndPeriod cc) = true -> flt (ofZ 0) (f_rtt cc) = true ->
  flt (ofZ 0) (fdiv (f_rtt cc) (sndPeriod cc)) = true ->
  let c := OnNAK lossSeqs (File cc) in
  PacketInterval c = PacketInterval (File cc) /\ CongestionWindow c = CongestionWindow (File cc).
Proof.
  intros R Hs H1 H2 H3. cbv zeta. assert (sndLossLength cc = 0) as H0 by exact (blind_run lo hi _ _ R eq_refl).
  cbn [OnNAK PacketInterval CongestionWindow]. unfold file_OnNAK. destruct lossSeqs as [|s l]; [done|]. rewrite Hs.
  cbv iota zeta. rewrite nothing_lost by (fields; done). unfold file_PacketInterval, file_CongestionWindow. fields. done.
Qed.

(** ** Comparing sequence numbers *)

(** The file controller compares sequence numbers as plain integers, while its
    comment promises the circular order: the two agree for numbers less than
    half the circle apart, and are opposite beyond it. *)
Theorem file_seqcmp_wraps (a b : Z) :
  Seq.is_seq a -> Seq.is_seq b -> a <> b ->
  seqCmp a b = a - b /\
  ((seqCmp a b >? 0) = Seq.GreaterThan a b <-> Z.abs (a - b) <= Seq.Threshold).
Proof.
  intros Ha Hb Hne. unfold Seq.is_seq in *.
  assert (seqCmp a b = a - b) as E by (unfold seqCmp; rewrite (i32_id a), (i32_id b), i32_id by lia; done).
  split; [done|]. rewrite E. unfold Seq.GreaterThan, Seq.LessThan. destruct (Z.eqb_spec a b); [done|].
  destruct (Z.gtb_spec a b).
  - rewrite u32_id by (unfold is_u32; lia). destruct (Z.leb_spec (a - b) Seq.Threshold); destruct (Z.gtb_spec (a - b) 0); try lia; cbn; split; intros; done || lia.
  - rewrite u32_id by (unfold is_u32; lia). destruct (Z.leb_spec (b - a) Seq.Threshold); destruct (Z.gtb_spec (a - b) 0); try lia; cbn; split; intros; done || lia.
Qed.

End Controllers.

(** ** Concrete controllers *)

#[local] Existing Instance Float64.toyMath.

Lemma live_overhead_exact_witness :
  atomicMaxBW (live_UpdateBandwidth (live_SetOverhead (NewLiveCC 0 0) 250) 0 (2 ^ 63 - 1)) = 2 ^ 63 - 1.
Proof. rewrite (live_overhead_exact (NewLiveCC 0 0) 250 (2 ^ 63 - 1)); [reflexivity|]. split; vm_compute; congruence. Defined.

Definition toyLive : LiveCC := live_OnPacketSent (NewLiveCC 1_000_000 1316) 1 188.

Lemma live_pacing_witness :
  188 <= atomicAvgPayloadSize toyLive <= 1316 /\ live_PacketInterval toyLive = 1351.
Proof.
  destruct (live_pacing 188 1316 1_000_000 1316 toyLive) as (H1 & H2 & _).
  - lia.
  - lia.
  - lia.
  - vm_compute. split; congruence.
  - apply rtc_once. apply (cs_sent 188 1316 1 188 (Live (NewLiveCC 1_000_000 1316))). lia.
  - split; [exact H1|]. rewrite H2. vm_compute. reflexivity.
Defined.

(** Slow start is over, packets leave every millisecond. *)
Definition toyFile : FileCC := file_OnTimeout (file_OnACK 0 0 100_000 0 1000 (NewFileCC 0 1316 64 0)).

Lemma file_loss_ignored_witness :
  PacketInterval (OnNAK [3; 4; 5; 6; 7; 8] (File toyFile)) = 1000.
Proof.
  destruct (file_loss_ignored 0 1316 0 1316 64 0 toyFile [3; 4; 5; 6; 7; 8]) as [H _].
  - eapply rtc_l; [apply (cs_ack 0 1316 0 0 100_000 0 1000)|]. apply rtc_once. apply cs_timeout.
  - vm_compute. reflexivity.
  - vm_compute. reflexivity.
  - vm_compute. reflexivity.
  - vm_compute. reflexivity.
  - rewrite H. vm_compute. reflexivity.
Defined.

Lemma file_seqcmp_wraps_witness : (seqCmp 0 0x7FFFFFFF >? 0) <> Seq.GreaterThan 0 0x7FFFFFFF.
Proof.
  destruct (file_seqcmp_wraps 0 0x7FFFFFFF) as [_ [H _]]; [unfold Seq.is_seq; lia..|lia|].
  intros E. specialize (H E). vm_compute in H. apply H. reflexivity.
Defined.

End Pacing.
