(* ===== verification/Handshake.v ===== *)
(** * Building handshakes ([internal/handshake/handshake.go])

    The SYN cookies of a listener, the random identifiers, and the builders of
    every handshake message: induction, conclusion and their responses (version
    5 and the legacy version 4), the rendezvous messages and the extension
    messages that HSv4 sends after the handshake.  MD5 is an operation of the
    class [Hash], random bytes and the time are arguments; strings are lists of
    bytes. *)
From Stdlib Require Import ZArith Lia String Ascii.
From stdpp Require Import base numbers list option.
From S2P Require Import Prelude Packet Control Cif FilterConfig.
Import Packet(NetAddr, UDPAddr, TCPAddr, OtherAddr, Packet, NewControl, SetData, Hdr, SubType, CtrlTypeHandshake,
  CtrlTypeUser, ExtTypeHSReq, ExtTypeHSRsp, ExtTypeKMReq, ExtTypeKMRsp).
Import Control(Packet_MarshalCIF).
Import Cif(CIFHandshake, CIFHandshakeExtension, CIFKeyMaterial, mkHS, mkHSExt, zeroHS, KM_MarshalCIF,
  Version, EncryptionField, ExtensionField, InitialPacketSequenceNumber, MaxTransmissionUnitSize, MaxFlowWindowSize,
  HandshakeType, SRTSocketID, SynCookie, PeerIP, IsRequest, HasHS, SRTHS, HasKM, SRTKM, HasSID, StreamID,
  HasCongestion, CongestionType, HasFilter, FilterConfig, HasGroup, GroupID, GroupType, GroupFlags, GroupWeight,
  HandshakeTypeInduction, HandshakeTypeConclusion, HandshakeTypeWavehand, HandshakeTypeAgreement,
  FlagTSBPDSend, FlagTSBPDRecv, FlagCrypt, FlagTLPktDrop, FlagPeriodicNAK, FlagRexmit).
Local Open Scope Z_scope.

#[global] Instance eta_hs : Eta CIFHandshake := fun r =>
  mkHS (Version r) (EncryptionField r) (ExtensionField r) (InitialPacketSequenceNumber r) (MaxTransmissionUnitSize r)
    (MaxFlowWindowSize r) (HandshakeType r) (SRTSocketID r) (SynCookie r) (PeerIP r) (IsRequest r) (HasHS r) (SRTHS r)
    (HasKM r) (SRTKM r) (HasSID r) (StreamID r) (HasCongestion r) (CongestionType r) (HasFilter r) (FilterConfig r)
    (HasGroup r) (GroupID r) (GroupType r) (GroupFlags r) (GroupWeight r).
#[global] Instance fld_hs_Version : Field Version. Proof. derive_field. Defined.
#[global] Instance fld_hs_EncryptionField : Field EncryptionField. Proof. derive_field. Defined.
#[global] Instance fld_hs_ExtensionField : Field ExtensionField. Proof. derive_field. Defined.
#[global] Instance fld_hs_InitialPacketSequenceNumber : Field InitialPacketSequenceNumber. Proof. derive_field. Defined.
#[global] Instance fld_hs_MaxTransmissionUnitSize : Field MaxTransmissionUnitSize. Proof. derive_field. Defined.
#[global] Instance fld_hs_MaxFlowWindowSize : Field MaxFlowWindowSize. Proof. derive_field. Defined.
#[global] Instance fld_hs_HandshakeType : Field HandshakeType. Proof. derive_field. Defined.
#[global] Instance fld_hs_SRTSocketID : Field SRTSocketID. Proof. derive_field. Defined.
#[global] Instance fld_hs_SynCookie : Field SynCookie. Proof. derive_field. Defined.
#[global] Instance fld_hs_PeerIP : Field PeerIP. Proof. derive_field. Defined.
#[global] Instance fld_hs_IsRequest : Field IsRequest. Proof. derive_field. Defined.
#[global] Instance fld_hs_HasHS : Field HasHS. Proof. derive_field. Defined.
#[global] Instance fld_hs_SRTHS : Field SRTHS. Proof. derive_field. Defined.
#[global] Instance fld_hs_HasKM : Field HasKM. Proof. derive_field. Defined.
#[global] Instance fld_hs_SRTKM : Field SRTKM. Proof. derive_field. Defined.
#[global] Instance fld_hs_HasSID : Field HasSID. Proof. derive_field. Defined.
#[global] Instance fld_hs_StreamID : Field StreamID. Proof. derive_field. Defined.
#[global] Instance fld_hs_HasCongestion : Field HasCongestion. Proof. derive_field. Defined.
#[global] Instance fld_hs_CongestionType : Field CongestionType. Proof. derive_field. Defined.
#[global] Instance fld_hs_HasFilter : Field HasFilter. Proof. derive_field. Defined.
#[global] Instance fld_hs_FilterConfig : Field FilterConfig. Proof. derive_field. Defined.
#[global] Instance fld_hs_HasGroup : Field HasGroup. Proof. derive_field. Defined.
#[global] Instance fld_hs_GroupID : Field GroupID. Proof. derive_field. Defined.
#[global] Instance fld_hs_GroupType : Field GroupType. Proof. derive_field. Defined.
#[global] Instance fld_hs_GroupFlags : Field GroupFlags. Proof. derive_field. Defined.
#[global] Instance fld_hs_GroupWeight : Field GroupWeight. Proof. derive_field. Defined.

Module Handshake.

Definition SRTVersion : Z := 0x010504.
Definition SRTMagic : Z := 0x4A17.
Definition UDTV4Marker : Z := 2.

Definition defaultFlags : Z :=
  Z.lor (Z.lor (Z.lor (Z.lor (Z.lor FlagTSBPDSend FlagTSBPDRecv) FlagCrypt) FlagTLPktDrop) FlagPeriodicNAK) FlagRexmit.

(** The bytes of a Go string, and the string of some bytes. *)
Fixpoint bytesOf (s : string) : list Z :=
  match s with
  | EmptyString => []
  | String c s' => Z.of_N (N_of_ascii c) :: bytesOf s'
  end.
Fixpoint stringOf (l : list Z) : string :=
  match l with
  | [] => EmptyString
  | b :: l' => String (ascii_of_N (Z.to_N b)) (stringOf l')
  end.

Definition live : list Z := bytesOf "live".
Definition file : list Z := bytesOf "file".

(** ** SYN cookies *)

Class Hash : Type := {
  md5 : list Z -> list Z;
  md5_length : forall l, length (md5 l) = 16%nat
}.

Record SYNCookie : Type := mkCookie { secret1 : list Z; secret2 : list Z; addr : list Z }.

(** [fmt.Sprintf("%x", b)]. *)
Definition hexDigit (d : Z) : Z := if d <? 10 then 48 + d else 87 + d.
Definition hex (b : list Z) : list Z := concat (map (fun x => [hexDigit (Z.shiftr x 4); hexDigit (Z.land x 15)]) b).

Inductive HandshakeError : Type :=
| ErrRandom
| ErrHSREQTooShort (n : Z).

(** [rand] is the 32 bytes [rand.Read] delivers, [None] an error. *)
Definition refreshSecrets (sc : SYNCookie) (rand : option (list Z)) : result HandshakeError SYNCookie :=
  match rand with
  | None => Err ErrRandom
  | Some buf => Ok (mkCookie (hex (slice 0 16 buf)) (hex (slice_from 16 buf)) (addr sc))
  end.

Definition NewSYNCookie (listenerAddr : list Z) (rand : option (list Z)) : result HandshakeError SYNCookie :=
  refreshSecrets (mkCookie [] [] listenerAddr) rand.

Section Cookies.
Context {H : Hash}.

Definition compute (sc : SYNCookie) (srcAddr : list Z) (counter : Z) : Z :=
  let sum := md5 (secret1 sc ++ addr sc ++ srcAddr ++ secret2 sc ++ bytesOf (FilterConfig.fmtD counter)) in
  Uint32 (slice 0 4 sum) 0.

(** [now] is [time.Now().Unix()]. *)
Definition Generate (sc : SYNCookie) (now : Z) (srcAddr : list Z) : Z :=
  compute sc srcAddr (Z.shiftr now 6).

Definition Verify (sc : SYNCookie) (now : Z) (srcAddr : list Z) (cookie : Z) : bool :=
  let counter := Z.shiftr now 6 in
  if compute sc srcAddr counter =? cookie then true else compute sc srcAddr (i64 (counter - 1)) =? cookie.

End Cookies.

(** ** Random identifiers *)

Definition GenerateSocketID (rand : option (list Z)) : result HandshakeError Z :=
  match rand with
  | None => Err ErrRandom
  | Some buf => let id := Uint32 buf 0 in Ok (if id =? 0 then 1 else id)
  end.

Definition GenerateISN (rand : option (list Z)) : result HandshakeError Z :=
  match rand with
  | None => Err ErrRandom
  | Some buf => Ok (Z.land (Uint32 buf 0) 0x7FFFFFFF)
  end.

Definition GenerateRandomCookie (rand : option (list Z)) : result HandshakeError Z :=
  match rand with
  | None => Err ErrRandom
  | Some buf => let c := Uint32 buf 0 in Ok (if c =? 0 then 1 else c)
  end.

(** ** Negotiation *)

Definition NegotiateLatency (localRecv localSend peerRecv peerSend : Z) : Z * Z :=
  (Z.max localRecv peerSend, Z.max localSend peerRecv).

Definition NegotiateMSS (callerMSS listenerMSS : Z) : Z := if callerMSS <? listenerMSS then callerMSS else listenerMSS.

(** ** Messages *)

(** [net.IPv4(0, 0, 0, 0)]. *)
Definition IPv4zero : list Z := replicate 10 0 ++ [0xFF; 0xFF] ++ replicate 4 0.

Definition extractIP (addr : option NetAddr) : list Z :=
  match addr with
  | None => IPv4zero
  | Some (UDPAddr ip _) => ip
  | Some (TCPAddr ip _) => ip
  | Some OtherAddr => IPv4zero
  end.

#[local] Existing Instance Cif.CIFHandshake_CIF.

(** [p.MarshalCIF(hs)], whose error the builders ignore. *)
Definition marshalInto (p : Packet) (hs : CIFHandshake) : Packet :=
  match Packet_MarshalCIF p hs with (_, Ok p') => p' | (_, Err _) => p end.

(** PBKEYLEN in the encryption field. *)
Definition encFieldOf (keyLength : Z) : Z := if keyLength >? 0 then u16 (Z.shiftr keyLength 3) else 0.

Definition BuildInduction (callerSocketID isn mss fc : Z) (addr : option NetAddr) : Packet :=
  let p := NewControl addr CtrlTypeHandshake 0 0 in
  let hs := zeroHS <| Version := 4 |> <| ExtensionField := UDTV4Marker |> <| InitialPacketSequenceNumber := isn |>
    <| MaxTransmissionUnitSize := mss |> <| MaxFlowWindowSize := fc |> <| HandshakeType := HandshakeTypeInduction |>
    <| SRTSocketID := callerSocketID |> <| PeerIP := extractIP addr |> in
  marshalInto p hs.

Definition BuildInductionResponse (callerHS : CIFHandshake) (cookie : Z) (listenerAddr callerAddr : option NetAddr)
    (keyLength : Z) : Packet :=
  let p := NewControl callerAddr CtrlTypeHandshake (SRTSocketID callerHS) 0 in
  let hs := zeroHS <| Version := 5 |> <| EncryptionField := encFieldOf keyLength |> <| ExtensionField := SRTMagic |>
    <| InitialPacketSequenceNumber := InitialPacketSequenceNumber callerHS |>
    <| MaxTransmissionUnitSize := MaxTransmissionUnitSize callerHS |>
    <| MaxFlowWindowSize := MaxFlowWindowSize callerHS |> <| HandshakeType := HandshakeTypeInduction |>
    <| SynCookie := cookie |> <| PeerIP := extractIP listenerAddr |> in
  marshalInto p hs.

(** The extensions that the version 5 conclusions have in common. *)
Definition withHS (isRequest : bool) (srtFlags recvLatency sendLatency : Z) (hs : CIFHandshake) : CIFHandshake :=
  hs <| IsRequest := isRequest |> <| HasHS := true |>
     <| SRTHS := Some (mkHSExt SRTVersion srtFlags recvLatency sendLatency) |>.
Definition withSID (streamID : list Z) (hs : CIFHandshake) : CIFHandshake :=
  match streamID with [] => hs | _ => hs <| HasSID := true |> <| StreamID := streamID |> end.
Definition withCongestion (congestionType : list Z) (hs : CIFHandshake) : CIFHandshake :=
  hs <| HasCongestion := true |>
     <| CongestionType := match congestionType with [] => live | _ => congestionType end |>.
Definition withFilter (filterConfig : list Z) (hs : CIFHandshake) : CIFHandshake :=
  match filterConfig with [] => hs | _ => hs <| HasFilter := true |> <| FilterConfig := filterConfig |> end.
Definition withGroup (groupID groupType groupWeight : Z) (hs : CIFHandshake) : CIFHandshake :=
  if groupID =? 0 then hs else
  hs <| HasGroup := true |> <| GroupID := groupID |> <| GroupType := groupType |> <| GroupWeight := groupWeight |>.
Definition withKM (km : option CIFKeyMaterial) (hs : CIFHandshake) : CIFHandshake :=
  match km with None => hs | Some k => hs <| HasKM := true |> <| SRTKM := Some k |> end.

Definition orDefaultFlags (srtFlags : Z) : Z := if srtFlags =? 0 then defaultFlags else srtFlags.

Definition BuildConclusion (callerSocketID isn mss fc cookie : Z) (streamID : list Z) (recvLatency sendLatency srtFlags : Z)
    (congestionType filterConfig : list Z) (groupID groupType groupWeight : Z) (addr : option NetAddr)
    (km : option CIFKeyMaterial) : Packet :=
  let srtFlags := orDefaultFlags srtFlags in
  let p := NewControl addr CtrlTypeHandshake 0 0 in
  let hs := zeroHS <| Version := 5 |> <| InitialPacketSequenceNumber := isn |> <| MaxTransmissionUnitSize := mss |>
    <| MaxFlowWindowSize := fc |> <| HandshakeType := HandshakeTypeConclusion |> <| SRTSocketID := callerSocketID |>
    <| SynCookie := cookie |> <| PeerIP := extractIP addr |> in
  let hs := withHS true srtFlags recvLatency sendLatency hs in
  let hs := withSID streamID hs in
  let hs := withCongestion congestionType hs in
  let hs := withFilter filterConfig hs in
  let hs := withGroup groupID groupType groupWeight hs in
  marshalInto p (withKM km hs).

Definition BuildConclusionResponse (listenerSocketID isn mss fc callerSocketID recvLatency sendLatency srtFlags : Z)
    (congestionType filterConfig : list Z) (groupID groupType groupWeight : Z) (callerAddr : option NetAddr)
    (km : option CIFKeyMaterial) : Packet :=
  let srtFlags := orDefaultFlags srtFlags in
  let p := NewControl callerAddr CtrlTypeHandshake callerSocketID 0 in
  let hs := zeroHS <| Version := 5 |> <| InitialPacketSequenceNumber := isn |> <| MaxTransmissionUnitSize := mss |>
    <| MaxFlowWindowSize := fc |> <| HandshakeType := HandshakeTypeConclusion |> <| SRTSocketID := listenerSocketID |>
    <| PeerIP := extractIP callerAddr |> in
  let hs := withHS false srtFlags recvLatency sendLatency hs in
  let hs := withCongestion congestionType hs in
  let hs := withFilter filterConfig hs in
  let hs := withGroup groupID groupType groupWeight hs in
  marshalInto p (withKM km hs).

Definition BuildConclusionResponseV4 (listenerSocketID isn mss fc callerSocketID : Z) (callerAddr : option NetAddr) : Packet :=
  let p := NewControl callerAddr CtrlTypeHandshake callerSocketID 0 in
  let hs := zeroHS <| Version := 4 |> <| InitialPacketSequenceNumber := isn |> <| MaxTransmissionUnitSize := mss |>
    <| MaxFlowWindowSize := fc |> <| HandshakeType := HandshakeTypeConclusion |> <| SRTSocketID := listenerSocketID |>
    <| PeerIP := extractIP callerAddr |> in
  marshalInto p hs.

Definition BuildWavehand (socketID isn mss fc cookie keyLength : Z) (addr : option NetAddr) : Packet :=
  let p := NewControl addr CtrlTypeHandshake 0 0 in
  let hs := zeroHS <| Version := 5 |> <| EncryptionField := encFieldOf keyLength |>
    <| InitialPacketSequenceNumber := isn |> <| MaxTransmissionUnitSize := mss |> <| MaxFlowWindowSize := fc |>
    <| HandshakeType := HandshakeTypeWavehand |> <| SRTSocketID := socketID |> <| SynCookie := cookie |>
    <| PeerIP := extractIP addr |> in
  marshalInto p hs.

Definition BuildAgreement (socketID isn mss fc peerSocketID : Z) (addr : option NetAddr) : Packet :=
  let p := NewControl addr CtrlTypeHandshake peerSocketID 0 in
  let hs := zeroHS <| Version := 5 |> <| InitialPacketSequenceNumber := isn |> <| MaxTransmissionUnitSize := mss |>
    <| MaxFlowWindowSize := fc |> <| HandshakeType := HandshakeTypeAgreement |> <| SRTSocketID := socketID |>
    <| PeerIP := extractIP addr |> in
  marshalInto p hs.

Definition BuildRendezvousConclusion (socketID isn mss fc peerSocketID cookie : Z) (isRequest : bool)
    (recvLatency sendLatency srtFlags : Z) (congestionType filterConfig : list Z) (groupID groupType groupWeight : Z)
    (streamID : list Z) (addr : option NetAddr) (km : option CIFKeyMaterial) (hasExt : bool) (keyLength : Z) : Packet :=
  let srtFlags := orDefaultFlags srtFlags in
  let p := NewControl addr CtrlTypeHandshake peerSocketID 0 in
  let hs := zeroHS <| Version := 5 |> <| EncryptionField := encFieldOf keyLength |>
    <| InitialPacketSequenceNumber := isn |> <| MaxTransmissionUnitSize := mss |> <| MaxFlowWindowSize := fc |>
    <| HandshakeType := HandshakeTypeConclusion |> <| SRTSocketID := socketID |> <| SynCookie := cookie |>
    <| PeerIP := extractIP addr |> <| IsRequest := isRequest |> in
  let hs :=
    if hasExt then
      let hs := withHS isRequest srtFlags recvLatency sendLatency hs in
      let hs := withSID streamID hs in
      let hs := withCongestion congestionType hs in
      let hs := withFilter filterConfig hs in
      let hs := withGroup groupID groupType groupWeight hs in
      withKM km hs
    else hs in
  marshalInto p hs.

Definition BuildConclusionV4 (callerSocketID isn mss fc cookie : Z) (addr : option NetAddr) : Packet :=
  let p := NewControl addr CtrlTypeHandshake 0 0 in
  let hs := zeroHS <| Version := 4 |> <| ExtensionField := UDTV4Marker |> <| InitialPacketSequenceNumber := isn |>
    <| MaxTransmissionUnitSize := mss |> <| MaxFlowWindowSize := fc |> <| HandshakeType := HandshakeTypeConclusion |>
    <| SRTSocketID := callerSocketID |> <| SynCookie := cookie |> <| PeerIP := extractIP addr |> in
  marshalInto p hs.

(** ** The extension messages of HSv4 *)

Definition extMessage (destSocketID subType : Z) (addr : option NetAddr) (data : list Z) : Packet :=
  let p := NewControl addr CtrlTypeUser destSocketID 0 in
  let p := p <| Hdr ::= fun h => h <| SubType := subType |> |> in
  SetData p data.

Definition extHSData (srtVersion srtFlags latency : Z) : list Z :=
  let buf := make 12 in
  let buf := PutUint32 buf 0 srtVersion in
  let buf := PutUint32 buf 4 (orDefaultFlags srtFlags) in
  PutUint32 buf 8 latency.

Definition BuildExtHSREQ (destSocketID srtVersion srtFlags latency : Z) (addr : option NetAddr) : Packet :=
  extMessage destSocketID ExtTypeHSReq addr (extHSData srtVersion srtFlags latency).
Definition BuildExtHSRSP (destSocketID srtVersion srtFlags latency : Z) (addr : option NetAddr) : Packet :=
  extMessage destSocketID ExtTypeHSRsp addr (extHSData srtVersion srtFlags latency).

(** Encoding key material cannot fail. *)
Definition BuildExtKMREQ (destSocketID : Z) (km : CIFKeyMaterial) (addr : option NetAddr) : Packet :=
  extMessage destSocketID ExtTypeKMReq addr (KM_MarshalCIF km).
Definition BuildExtKMRSP (destSocketID : Z) (km : CIFKeyMaterial) (addr : option NetAddr) : Packet :=
  extMessage destSocketID ExtTypeKMRsp addr (KM_MarshalCIF km).

Definition ParseExtHSREQ (data : list Z) : result HandshakeError (Z * Z * Z) :=
  if len data <? 12 then Err (ErrHSREQTooShort (len data)) else
  Ok (Uint32 data 0, Uint32 data 4, u16 (Z.land (Uint32 data 8) 0xFFFF)).

End Handshake.
