(* ===== verification/ConnState.v ===== *)
(** * The state of a connection ([internal/core/conn.go], [handshake.go], [rendezvous.go])

    The [Conn] record with the fields of the source, the handshake states it
    points to, and the parameters [establish] takes.  Buffers that are nil
    before the connection is established hold a dummy value until [ready].
    Two fields stand for the environment: [rng] is what [crypto/rand] delivers,
    [drawn] how much of it was used. *)
From Stdlib Require Import ZArith Lia.
From stdpp Require Import base numbers list option gmap.
From S2P Require Import Prelude Seq Packet Clock Tsbpd Ring SendBuffer RecvBuffer Fifo Output FilterConfig Fec FecReceiver Crypto Float64 Congestion Cif.
Local Open Scope Z_scope.

Module ConnState.

(** ** Constants *)

Definition ackTimeSlots : Z := 64.
Definition synInterval : Z := 10 * Clock.Millisecond.
Definition liteACKPeriod : Z := 64.
Definition initialRTT : Z := 100 * Clock.Millisecond.
Definition defaultMinNAKInterval : Z := 300 * Clock.Millisecond.
Definition rttSanityCap : Z := 10 * Clock.Second.
Definition maxPacingBurst : Z := 10 * Clock.Millisecond.
Definition liveDefaultPayloadSize : Z := 1316.
Definition defaultTsbpdDelay : Z := 120 * Clock.Millisecond.
Definition keepaliveInterval : Z := 1 * Clock.Second.
Definition handshakeRetryInterval : Z := 250 * Clock.Millisecond.

Definition rejCongestion : Z := 1013.
Definition rejPeer : Z := 1002.
Definition rejRogue : Z := 1004.
Definition rejBadSecret : Z := 1010.
Definition rejUnsecure : Z := 1011.

Definition kmStateUnsecured : Z := 0.
Definition kmStateSecuring : Z := 1.
Definition kmStateSecured : Z := 2.
Definition kmStateNoSecret : Z := 3.
Definition kmStateBadSecret : Z := 4.
Definition srtMaxKMRetry : Z := 10.

Inductive connState : Type := stateInduction | stateConclusion | stateConnected | stateFailed.

#[global] Instance connState_eq_dec : EqDecision connState.
Proof. solve_decision. Defined.

(** ** The caller's handshake *)

Module Dial.
Record dialState : Type := mkDial {
  socketID : Z;
  isn : Z;
  mss : Z;
  fc : Z;
  recvLatMS : Z;
  sendLatMS : Z;
  cong : list Z;
  streamID : list Z;
  filterCfg : list Z;
  cookie : Z;
  cryptoCtx : option Crypto.Context;
  passphrase : list Z;
  kmRefreshRate : Z;
  kmPreAnnounce : Z;
  allowUnencFallback : bool;
  payloadSize : Z;
  bufferCapacity : Z;
  sendBufCapacity : Z;
  recvBufCapacity : Z;
  maxBW : Z;
  inputBW : Z;
  minInputBW : Z;
  overheadBW : Z;
  live : bool;
  message : bool;
  tlPktDrop : bool;
  sndDropDelay : Z;
  lossMaxTTL : Z;
  disableNAKReport : bool;
  peerIdleTimeout : Z;
  forceHSv4 : bool;
  hsv4 : bool;
  groupID : Z;
  groupType : Z;
  groupWeight : Z
}.

#[global] Instance eta_dial : Eta dialState := fun r =>
  mkDial (socketID r) (isn r) (mss r) (fc r) (recvLatMS r) (sendLatMS r) (cong r) (streamID r) (filterCfg r)
    (cookie r) (cryptoCtx r) (passphrase r) (kmRefreshRate r) (kmPreAnnounce r) (allowUnencFallback r) (payloadSize r)
    (bufferCapacity r) (sendBufCapacity r) (recvBufCapacity r) (maxBW r) (inputBW r) (minInputBW r) (overheadBW r)
    (live r) (message r) (tlPktDrop r) (sndDropDelay r) (lossMaxTTL r) (disableNAKReport r) (peerIdleTimeout r)
    (forceHSv4 r) (hsv4 r) (groupID r) (groupType r) (groupWeight r).
#[global] Instance fld_dial_socketID : Field socketID. Proof. derive_field. Defined.
#[global] Instance fld_dial_isn : Field isn. Proof. derive_field. Defined.
#[global] Instance fld_dial_mss : Field mss. Proof. derive_field. Defined.
#[global] Instance fld_dial_fc : Field fc. Proof. derive_field. Defined.
#[global] Instance fld_dial_recvLatMS : Field recvLatMS. Proof. derive_field. Defined.
#[global] Instance fld_dial_sendLatMS : Field sendLatMS. Proof. derive_field. Defined.
#[global] Instance fld_dial_cong : Field cong. Proof. derive_field. Defined.
#[global] Instance fld_dial_streamID : Field streamID. Proof. derive_field. Defined.
#[global] Instance fld_dial_filterCfg : Field filterCfg. Proof. derive_field. Defined.
#[global] Instance fld_dial_cookie : Field cookie. Proof. derive_field. Defined.
#[global] Instance fld_dial_cryptoCtx : Field cryptoCtx. Proof. derive_field. Defined.
#[global] Instance fld_dial_passphrase : Field passphrase. Proof. derive_field. Defined.
#[global] Instance fld_dial_kmRefreshRate : Field kmRefreshRate. Proof. derive_field. Defined.
#[global] Instance fld_dial_kmPreAnnounce : Field kmPreAnnounce. Proof. derive_field. Defined.
#[global] Instance fld_dial_allowUnencFallback : Field allowUnencFallback. Proof. derive_field. Defined.
#[global] Instance fld_dial_payloadSize : Field payloadSize. Proof. derive_field. Defined.
#[global] Instance fld_dial_bufferCapacity : Field bufferCapacity. Proof. derive_field. Defined.
#[global] Instance fld_dial_sendBufCapacity : Field sendBufCapacity. Proof. derive_field. Defined.
#[global] Instance fld_dial_recvBufCapacity : Field recvBufCapacity. Proof. derive_field. Defined.
#[global] Instance fld_dial_maxBW : Field maxBW. Proof. derive_field. Defined.
#[global] Instance fld_dial_inputBW : Field inputBW. Proof. derive_field. Defined.
#[global] Instance fld_dial_minInputBW : Field minInputBW. Proof. derive_field. Defined.
#[global] Instance fld_dial_overheadBW : Field overheadBW. Proof. derive_field. Defined.
#[global] Instance fld_dial_live : Field live. Proof. derive_field. Defined.
#[global] Instance fld_dial_message : Field message. Proof. derive_field. Defined.
#[global] Instance fld_dial_tlPktDrop : Field tlPktDrop. Proof. derive_field. Defined.
#[global] Instance fld_dial_sndDropDelay : Field sndDropDelay. Proof. derive_field. Defined.
#[global] Instance fld_dial_lossMaxTTL : Field lossMaxTTL. Proof. derive_field. Defined.
#[global] Instance fld_dial_disableNAKReport : Field disableNAKReport. Proof. derive_field. Defined.
#[global] Instance fld_dial_peerIdleTimeout : Field peerIdleTimeout. Proof. derive_field. Defined.
#[global] Instance fld_dial_forceHSv4 : Field forceHSv4. Proof. derive_field. Defined.
#[global] Instance fld_dial_hsv4 : Field hsv4. Proof. derive_field. Defined.
#[global] Instance fld_dial_groupID : Field groupID. Proof. derive_field. Defined.
#[global] Instance fld_dial_groupType : Field groupType. Proof. derive_field. Defined.
#[global] Instance fld_dial_groupWeight : Field groupWeight. Proof. derive_field. Defined.
End Dial.

(** ** The rendezvous handshake *)

Module Rdv.
Inductive rdvState : Type := rdvWaving | rdvAttention | rdvFine | rdvInitiated | rdvConnected.
Inductive rdvSide : Type := rdvDraw | rdvInitiator | rdvResponder.

#[global] Instance rdvState_eq_dec : EqDecision rdvState.
Proof. solve_decision. Defined.
#[global] Instance rdvSide_eq_dec : EqDecision rdvSide.
Proof. solve_decision. Defined.

Record rdvTransition : Type := mkTrans {
  newState : rdvState;
  rspType : Z;
  needsExt : bool;
  needsHSRSP : bool
}.

Record rdvDial : Type := mkRdv {
  socketID : Z;
  isn : Z;
  mss : Z;
  fc : Z;
  cookie : Z;
  recvLatMS : Z;
  sendLatMS : Z;
  cong : list Z;
  streamID : list Z;
  filterCfg : list Z;
  maxBW : Z;
  inputBW : Z;
  minInputBW : Z;
  overheadBW : Z;
  live : bool;
  message : bool;
  payloadSize : Z;
  bufferCapacity : Z;
  peerIdleTimeout : Z;
  cryptoCtx : option Crypto.Context;
  passphrase : list Z;
  keyLength : Z;
  kmKey : Z;
  kmAdopted : bool;
  rstate : rdvState;
  side : rdvSide;
  peerSocketID : Z;
  peerISN : Z;
  peerFC : Z;
  negRecv : Z;
  negSend : Z;
  negotiated : bool;
  lastTrans : rdvTransition;
  haveTrans : bool
}.

#[global] Instance eta_rdv : Eta rdvDial := fun r =>
  mkRdv (socketID r) (isn r) (mss r) (fc r) (cookie r) (recvLatMS r) (sendLatMS r) (cong r) (streamID r) (filterCfg r)
    (maxBW r) (inputBW r) (minInputBW r) (overheadBW r) (live r) (message r) (payloadSize r) (bufferCapacity r)
    (peerIdleTimeout r) (cryptoCtx r) (passphrase r) (keyLength r) (kmKey r) (kmAdopted r) (rstate r) (side r)
    (peerSocketID r) (peerISN r) (peerFC r) (negRecv r) (negSend r) (negotiated r) (lastTrans r) (haveTrans r).
#[global] Instance fld_rdv_socketID : Field socketID. Proof. derive_field. Defined.
#[global] Instance fld_rdv_isn : Field isn. Proof. derive_field. Defined.
#[global] Instance fld_rdv_mss : Field mss. Proof. derive_field. Defined.
#[global] Instance fld_rdv_fc : Field fc. Proof. derive_field. Defined.
#[global] Instance fld_rdv_cookie : Field cookie. Proof. derive_field. Defined.
#[global] Instance fld_rdv_recvLatMS : Field recvLatMS. Proof. derive_field. Defined.
#[global] Instance fld_rdv_sendLatMS : Field sendLatMS. Proof. derive_field. Defined.
#[global] Instance fld_rdv_cong : Field cong. Proof. derive_field. Defined.
#[global] Instance fld_rdv_streamID : Field streamID. Proof. derive_field. Defined.
#[global] Instance fld_rdv_filterCfg : Field filterCfg. Proof. derive_field. Defined.
#[global] Instance fld_rdv_maxBW : Field maxBW. Proof. derive_field. Defined.
#[global] Instance fld_rdv_inputBW : Field inputBW. Proof. derive_field. Defined.
#[global] Instance fld_rdv_minInputBW : Field minInputBW. Proof. derive_field. Defined.
#[global] Instance fld_rdv_overheadBW : Field overheadBW. Proof. derive_field. Defined.
#[global] Instance fld_rdv_live : Field live. Proof. derive_field. Defined.
#[global] Instance fld_rdv_message : Field message. Proof. derive_field. Defined.
#[global] Instance fld_rdv_payloadSize : Field payloadSize. Proof. derive_field. Defined.
#[global] Instance fld_rdv_bufferCapacity : Field bufferCapacity. Proof. derive_field. Defined.
#[global] Instance fld_rdv_peerIdleTimeout : Field peerIdleTimeout. Proof. derive_field. Defined.
#[global] Instance fld_rdv_cryptoCtx : Field cryptoCtx. Proof. derive_field. Defined.
#[global] Instance fld_rdv_passphrase : Field passphrase. Proof. derive_field. Defined.
#[global] Instance fld_rdv_keyLength : Field keyLength. Proof. derive_field. Defined.
#[global] Instance fld_rdv_kmKey : Field kmKey. Proof. derive_field. Defined.
#[global] Instance fld_rdv_kmAdopted : Field kmAdopted. Proof. derive_field. Defined.
#[global] Instance fld_rdv_rstate : Field rstate. Proof. derive_field. Defined.
#[global] Instance fld_rdv_side : Field side. Proof. derive_field. Defined.
#[global] Instance fld_rdv_peerSocketID : Field peerSocketID. Proof. derive_field. Defined.
#[global] Instance fld_rdv_peerISN : Field peerISN. Proof. derive_field. Defined.
#[global] Instance fld_rdv_peerFC : Field peerFC. Proof. derive_field. Defined.
#[global] Instance fld_rdv_negRecv : Field negRecv. Proof. derive_field. Defined.
#[global] Instance fld_rdv_negSend : Field negSend. Proof. derive_field. Defined.
#[global] Instance fld_rdv_negotiated : Field negotiated. Proof. derive_field. Defined.
#[global] Instance fld_rdv_lastTrans : Field lastTrans. Proof. derive_field. Defined.
#[global] Instance fld_rdv_haveTrans : Field haveTrans. Proof. derive_field. Defined.
End Rdv.

(** ** The connection *)

(** One queued packet's worth of payload. *)
Record frame : Type := mkFrame {
  payload : list Z;
  msgNo : Z;
  pos : Z;
  order : bool;
  srcTime : Z;
  ttlNs : Z;
  f_pooled : bool
}.
Definition zeroFrame : frame := mkFrame [] 0 0 false 0 0 false.

Record ackSlot : Type := mkSlot { ackNo : Z; sendTime : Z; dataSeq : Z; valid : bool }.
Definition zeroSlot : ackSlot := mkSlot 0 0 0 false.

Record Conn : Type := mkConn {
  peerSocketID : Z;
  payloadSize : Z;
  negotiatedMSS : Z;
  sndTSBase : Z;
  lastNow : Z;
  sndISN : Z;
  rcvISN : Z;
  peerVersion : Z;
  tlPktDrop : bool;
  dropBaseUS : Z;
  hsv4DeferConnect : bool;
  (* send side *)
  sendBuf : SendBuffer.SendBuffer;
  sendCC : Congestion.Controller;
  configuredMaxBW : Z;
  inputBW : Z;
  minInputBW : Z;
  sampledInputBW : Z;
  inputSampleBytes : Z;
  inputSampleStart : Z;
  sendQueue : Fifo.fifo frame;
  msgNumber : Z;
  nextSendTime : Z;
  flowWindow : Z;
  rcvFlowWin : Z;
  sendDropThresh : Z;
  msgTTLActive : bool;
  sentDropped : Z;
  sentDroppedBytes : Z;
  (* receive side *)
  recvBuf : RecvBuffer.RecvBuffer Tsbpd.Timer;
  tsbpdTimer : option Tsbpd.Timer;
  tsbpdBaseSet : bool;
  recvDropped : Z;
  messageMode : bool;
  periodicNAK : bool;
  groupIdle : bool;
  peerNakReport : bool;
  reorderTolerance : Z;
  deferredLoss : option (gset Z);
  (* liveness *)
  peerIdleTimeout : Z;
  lastRecvTime : Z;
  lastSentDataTime : Z;
  (* encryption and key rotation *)
  cryptoCtx : option Crypto.Context;
  activeKey : Z;
  passphrase : list Z;
  recvUndecrypt : Z;
  kmRefreshRate : Z;
  kmPreAnnounce : Z;
  kmPacketCount : Z;
  kmAnnounced : bool;
  kmConfirmed : bool;
  kmDecommission : bool;
  kmSwitchCount : Z;
  kmRetryKey : Z;
  kmRetryCount : Z;
  sndKmState : Z;
  rcvKmState : Z;
  sentKM : Z;
  recvKM : Z;
  (* FEC *)
  fecSender : option Fec.FECSender;
  fecReceiver : option FecReceiver.FECReceiver;
  fecARQLevel : FilterConfig.ARQLevel;
  (* acknowledgements and round trips *)
  ackSeqNo : Z;
  rcvLastAckAck : Z;
  lastFullACKTime : Z;
  rcvPktCount : Z;
  lightACKCount : Z;
  ackSlots : list ackSlot;
  lastACKACKTime : Z;
  lastACKACKSeq : Z;
  rtt : Z;
  rttVar : Z;
  lastACKTime : Z;
  rexmitCount : Z;
  (* statistics *)
  sentPackets : Z;
  sentBytes : Z;
  retransPackets : Z;
  retransBytes : Z;
  recvWirePackets : Z;
  recvWireBytes : Z;
  recvPackets : Z;
  recvBytes : Z;
  recvRetrans : Z;
  recvRetransBytes : Z;
  recvLoss : Z;
  recvBelated : Z;
  recvBelatedBytes : Z;
  recvAvgBelatedUS : Float64.f64;
  recvReorderDist : Z;
  lostPackets : Z;
  sentACKs : Z;
  sentNAKs : Z;
  sentACKACKs : Z;
  recvACKs : Z;
  recvNAKs : Z;
  recvACKACKs : Z;
  sentFEC : Z;
  recvFECRecov : Z;
  negotiatedPeerLatency : Z;
  negotiatedLatency : Z;
  (* handshake, queues and environment *)
  state : connState;
  dial : option Dial.dialState;
  rdv : option Rdv.rdvDial;
  closed : bool;
  outputs : Fifo.fifo Output.Output;
  events : Fifo.fifo Output.Event;
  ready : bool;
  rng : nat -> option (list Z);
  drawn : nat
}.

#[global] Instance eta_conn : Eta Conn := fun r =>
  mkConn (peerSocketID r) (payloadSize r) (negotiatedMSS r) (sndTSBase r) (lastNow r) (sndISN r) (rcvISN r)
    (peerVersion r) (tlPktDrop r) (dropBaseUS r) (hsv4DeferConnect r) (sendBuf r) (sendCC r) (configuredMaxBW r)
    (inputBW r) (minInputBW r) (sampledInputBW r) (inputSampleBytes r) (inputSampleStart r) (sendQueue r)
    (msgNumber r) (nextSendTime r) (flowWindow r) (rcvFlowWin r) (sendDropThresh r) (msgTTLActive r) (sentDropped r)
    (sentDroppedBytes r) (recvBuf r) (tsbpdTimer r) (tsbpdBaseSet r) (recvDropped r) (messageMode r) (periodicNAK r)
    (groupIdle r) (peerNakReport r) (reorderTolerance r) (deferredLoss r) (peerIdleTimeout r) (lastRecvTime r)
    (lastSentDataTime r) (cryptoCtx r) (activeKey r) (passphrase r) (recvUndecrypt r) (kmRefreshRate r)
    (kmPreAnnounce r) (kmPacketCount r) (kmAnnounced r) (kmConfirmed r) (kmDecommission r) (kmSwitchCount r)
    (kmRetryKey r) (kmRetryCount r) (sndKmState r) (rcvKmState r) (sentKM r) (recvKM r) (fecSender r) (fecReceiver r)
    (fecARQLevel r) (ackSeqNo r) (rcvLastAckAck r) (lastFullACKTime r) (rcvPktCount r) (lightACKCount r) (ackSlots r)
    (lastACKACKTime r) (lastACKACKSeq r) (rtt r) (rttVar r) (lastACKTime r) (rexmitCount r) (sentPackets r)
    (sentBytes r) (retransPackets r) (retransBytes r) (recvWirePackets r) (recvWireBytes r) (recvPackets r)
    (recvBytes r) (recvRetrans r) (recvRetransBytes r) (recvLoss r) (recvBelated r) (recvBelatedBytes r)
    (recvAvgBelatedUS r) (recvReorderDist r) (lostPackets r) (sentACKs r) (sentNAKs r) (sentACKACKs r) (recvACKs r)
    (recvNAKs r) (recvACKACKs r) (sentFEC r) (recvFECRecov r) (negotiatedPeerLatency r) (negotiatedLatency r)
    (state r) (dial r) (rdv r) (closed r) (outputs r) (events r) (ready r) (rng r) (drawn r).
#[global] Instance fld_conn_peerSocketID : Field peerSocketID. Proof. derive_field. Defined.
#[global] Instance fld_conn_payloadSize : Field payloadSize. Proof. derive_field. Defined.
#[global] Instance fld_conn_negotiatedMSS : Field negotiatedMSS. Proof. derive_field. Defined.
#[global] Instance fld_conn_sndTSBase : Field sndTSBase. Proof. derive_field. Defined.
#[global] Instance fld_conn_lastNow : Field lastNow. Proof. derive_field. Defined.
#[global] Instance fld_conn_sndISN : Field sndISN. Proof. derive_field. Defined.
#[global] Instance fld_conn_rcvISN : Field rcvISN. Proof. derive_field. Defined.
#[global] Instance fld_conn_peerVersion : Field peerVersion. Proof. derive_field. Defined.
#[global] Instance fld_conn_tlPktDrop : Field tlPktDrop. Proof. derive_field. Defined.
#[global] Instance fld_conn_dropBaseUS : Field dropBaseUS. Proof. derive_field. Defined.
#[global] Instance fld_conn_hsv4DeferConnect : Field hsv4DeferConnect. Proof. derive_field. Defined.
#[global] Instance fld_conn_sendBuf : Field sendBuf. Proof. derive_field. Defined.
#[global] Instance fld_conn_sendCC : Field sendCC. Proof. derive_field. Defined.
#[global] Instance fld_conn_configuredMaxBW : Field configuredMaxBW. Proof. derive_field. Defined.
#[global] Instance fld_conn_inputBW : Field inputBW. Proof. derive_field. Defined.
#[global] Instance fld_conn_minInputBW : Field minInputBW. Proof. derive_field. Defined.
#[global] Instance fld_conn_sampledInputBW : Field sampledInputBW. Proof. derive_field. Defined.
#[global] Instance fld_conn_inputSampleBytes : Field inputSampleBytes. Proof. derive_field. Defined.
#[global] Instance fld_conn_inputSampleStart : Field inputSampleStart. Proof. derive_field. Defined.
#[global] Instance fld_conn_sendQueue : Field sendQueue. Proof. derive_field. Defined.
#[global] Instance fld_conn_msgNumber : Field msgNumber. Proof. derive_field. Defined.
#[global] Instance fld_conn_nextSendTime : Field nextSendTime. Proof. derive_field. Defined.
#[global] Instance fld_conn_flowWindow : Field flowWindow. Proof. derive_field. Defined.
#[global] Instance fld_conn_rcvFlowWin : Field rcvFlowWin. Proof. derive_field. Defined.
#[global] Instance fld_conn_sendDropThresh : Field sendDropThresh. Proof. derive_field. Defined.
#[global] Instance fld_conn_msgTTLActive : Field msgTTLActive. Proof. derive_field. Defined.
#[global] Instance fld_conn_sentDropped : Field sentDropped. Proof. derive_field. Defined.
#[global] Instance fld_conn_sentDroppedBytes : Field sentDroppedBytes. Proof. derive_field. Defined.
#[global] Instance fld_conn_recvBuf : Field recvBuf. Proof. derive_field. Defined.
#[global] Instance fld_conn_tsbpdTimer : Field tsbpdTimer. Proof. derive_field. Defined.
#[global] Instance fld_conn_tsbpdBaseSet : Field tsbpdBaseSet. Proof. derive_field. Defined.
#[global] Instance fld_conn_recvDropped : Field recvDropped. Proof. derive_field. Defined.
#[global] Instance fld_conn_messageMode : Field messageMode. Proof. derive_field. Defined.
#[global] Instance fld_conn_periodicNAK : Field periodicNAK. Proof. derive_field. Defined.
#[global] Instance fld_conn_groupIdle : Field groupIdle. Proof. derive_field. Defined.
#[global] Instance fld_conn_peerNakReport : Field peerNakReport. Proof. derive_field. Defined.
#[global] Instance fld_conn_reorderTolerance : Field reorderTolerance. Proof. derive_field. Defined.
#[global] Instance fld_conn_deferredLoss : Field deferredLoss. Proof. derive_field. Defined.
#[global] Instance fld_conn_peerIdleTimeout : Field peerIdleTimeout. Proof. derive_field. Defined.
#[global] Instance fld_conn_lastRecvTime : Field lastRecvTime. Proof. derive_field. Defined.
#[global] Instance fld_conn_lastSentDataTime : Field lastSentDataTime. Proof. derive_field. Defined.
#[global] Instance fld_conn_cryptoCtx : Field cryptoCtx. Proof. derive_field. Defined.
#[global] Instance fld_conn_activeKey : Field activeKey. Proof. derive_field. Defined.
#[global] Instance fld_conn_passphrase : Field passphrase. Proof. derive_field. Defined.
#[global] Instance fld_conn_recvUndecrypt : Field recvUndecrypt. Proof. derive_field. Defined.
#[global] Instance fld_conn_kmRefreshRate : Field kmRefreshRate. Proof. derive_field. Defined.
#[global] Instance fld_conn_kmPreAnnounce : Field kmPreAnnounce. Proof. derive_field. Defined.
#[global] Instance fld_conn_kmPacketCount : Field kmPacketCount. Proof. derive_field. Defined.
#[global] Instance fld_conn_kmAnnounced : Field kmAnnounced. Proof. derive_field. Defined.
#[global] Instance fld_conn_kmConfirmed : Field kmConfirmed. Proof. derive_field. Defined.
#[global] Instance fld_conn_kmDecommission : Field kmDecommission. Proof. derive_field. Defined.
#[global] Instance fld_conn_kmSwitchCount : Field kmSwitchCount. Proof. derive_field. Defined.
#[global] Instance fld_conn_kmRetryKey : Field kmRetryKey. Proof. derive_field. Defined.
#[global] Instance fld_conn_kmRetryCount : Field kmRetryCount. Proof. derive_field. Defined.
#[global] Instance fld_conn_sndKmState : Field sndKmState. Proof. derive_field. Defined.
#[global] Instance fld_conn_rcvKmState : Field rcvKmState. Proof. derive_field. Defined.
#[global] Instance fld_conn_sentKM : Field sentKM. Proof. derive_field. Defined.
#[global] Instance fld_conn_recvKM : Field recvKM. Proof. derive_field. Defined.
#[global] Instance fld_conn_fecSender : Field fecSender. Proof. derive_field. Defined.
#[global] Instance fld_conn_fecReceiver : Field fecReceiver. Proof. derive_field. Defined.
#[global] Instance fld_conn_fecARQLevel : Field fecARQLevel. Proof. derive_field. Defined.
#[global] Instance fld_conn_ackSeqNo : Field ackSeqNo. Proof. derive_field. Defined.
#[global] Instance fld_conn_rcvLastAckAck : Field rcvLastAckAck. Proof. derive_field. Defined.
#[global] Instance fld_conn_lastFullACKTime : Field lastFullACKTime. Proof. derive_field. Defined.
#[global] Instance fld_conn_rcvPktCount : Field rcvPktCount. Proof. derive_field. Defined.
#[global] Instance fld_conn_lightACKCount : Field lightACKCount. Proof. derive_field. Defined.
#[global] Instance fld_conn_ackSlots : Field ackSlots. Proof. derive_field. Defined.
#[global] Instance fld_conn_lastACKACKTime : Field lastACKACKTime. Proof. derive_field. Defined.
#[global] Instance fld_conn_lastACKACKSeq : Field lastACKACKSeq. Proof. derive_field. Defined.
#[global] Instance fld_conn_rtt : Field rtt. Proof. derive_field. Defined.
#[global] Instance fld_conn_rttVar : Field rttVar. Proof. derive_field. Defined.
#[global] Instance fld_conn_lastACKTime : Field lastACKTime. Proof. derive_field. Defined.
#[global] Instance fld_conn_rexmitCount : Field rexmitCount. Proof. derive_field. Defined.
#[global] Instance fld_conn_sentPackets : Field sentPackets. Proof. derive_field. Defined.
#[global] Instance fld_conn_sentBytes : Field sentBytes. Proof. derive_field. Defined.
#[global] Instance fld_conn_retransPackets : Field retransPackets. Proof. derive_field. Defined.
#[global] Instance fld_conn_retransBytes : Field retransBytes. Proof. derive_field. Defined.
#[global] Instance fld_conn_recvWirePackets : Field recvWirePackets. Proof. derive_field. Defined.
#[global] Instance fld_conn_recvWireBytes : Field recvWireBytes. Proof. derive_field. Defined.
#[global] Instance fld_conn_recvPackets : Field recvPackets. Proof. derive_field. Defined.
#[global] Instance fld_conn_recvBytes : Field recvBytes. Proof. derive_field. Defined.
#[global] Instance fld_conn_recvRetrans : Field recvRetrans. Proof. derive_field. Defined.
#[global] Instance fld_conn_recvRetransBytes : Field recvRetransBytes. Proof. derive_field. Defined.
#[global] Instance fld_conn_recvLoss : Field recvLoss. Proof. derive_field. Defined.
#[global] Instance fld_conn_recvBelated : Field recvBelated. Proof. derive_field. Defined.
#[global] Instance fld_conn_recvBelatedBytes : Field recvBelatedBytes. Proof. derive_field. Defined.
#[global] Instance fld_conn_recvAvgBelatedUS : Field recvAvgBelatedUS. Proof. derive_field. Defined.
#[global] Instance fld_conn_recvReorderDist : Field recvReorderDist. Proof. derive_field. Defined.
#[global] Instance fld_conn_lostPackets : Field lostPackets. Proof. derive_field. Defined.
#[global] Instance fld_conn_sentACKs : Field sentACKs. Proof. derive_field. Defined.
#[global] Instance fld_conn_sentNAKs : Field sentNAKs. Proof. derive_field. Defined.
#[global] Instance fld_conn_sentACKACKs : Field sentACKACKs. Proof. derive_field. Defined.
#[global] Instance fld_conn_recvACKs : Field recvACKs. Proof. derive_field. Defined.
#[global] Instance fld_conn_recvNAKs : Field recvNAKs. Proof. derive_field. Defined.
#[global] Instance fld_conn_recvACKACKs : Field recvACKACKs. Proof. derive_field. Defined.
#[global] Instance fld_conn_sentFEC : Field sentFEC. Proof. derive_field. Defined.
#[global] Instance fld_conn_recvFECRecov : Field recvFECRecov. Proof. derive_field. Defined.
#[global] Instance fld_conn_negotiatedPeerLatency : Field negotiatedPeerLatency. Proof. derive_field. Defined.
#[global] Instance fld_conn_negotiatedLatency : Field negotiatedLatency. Proof. derive_field. Defined.
#[global] Instance fld_conn_state : Field state. Proof. derive_field. Defined.
#[global] Instance fld_conn_dial : Field dial. Proof. derive_field. Defined.
#[global] Instance fld_conn_rdv : Field rdv. Proof. derive_field. Defined.
#[global] Instance fld_conn_closed : Field closed. Proof. derive_field. Defined.
#[global] Instance fld_conn_outputs : Field outputs. Proof. derive_field. Defined.
#[global] Instance fld_conn_events : Field events. Proof. derive_field. Defined.
#[global] Instance fld_conn_ready : Field ready. Proof. derive_field. Defined.
#[global] Instance fld_conn_rng : Field rng. Proof. derive_field. Defined.
#[global] Instance fld_conn_drawn : Field drawn. Proof. derive_field. Defined.

(** [&Conn{}], with the host's source of random bytes. *)
Definition zeroConn (rng : nat -> option (list Z)) : Conn := {|
  peerSocketID := 0; payloadSize := 0; negotiatedMSS := 0; sndTSBase := 0; lastNow := 0; sndISN := 0; rcvISN := 0;
  peerVersion := 0; tlPktDrop := false; dropBaseUS := 0; hsv4DeferConnect := false;
  sendBuf := SendBuffer.mkSB [] 0 0 0 0; sendCC := Congestion.Live (Congestion.NewLiveCC 0 0);
  configuredMaxBW := 0; inputBW := 0; minInputBW := 0; sampledInputBW := 0; inputSampleBytes := 0;
  inputSampleStart := 0; sendQueue := Fifo.empty; msgNumber := 0; nextSendTime := 0; flowWindow := 0; rcvFlowWin := 0;
  sendDropThresh := 0; msgTTLActive := false; sentDropped := 0; sentDroppedBytes := 0;
  recvBuf := RecvBuffer.mkRB [] 0 0 0 0 0 (-1) false None None []; tsbpdTimer := None; tsbpdBaseSet := false;
  recvDropped := 0; messageMode := false; periodicNAK := false; groupIdle := false; peerNakReport := false;
  reorderTolerance := 0; deferredLoss := None; peerIdleTimeout := 0; lastRecvTime := 0; lastSentDataTime := 0;
  cryptoCtx := None; activeKey := 0; passphrase := []; recvUndecrypt := 0; kmRefreshRate := 0; kmPreAnnounce := 0;
  kmPacketCount := 0; kmAnnounced := false; kmConfirmed := false; kmDecommission := false; kmSwitchCount := 0;
  kmRetryKey := 0; kmRetryCount := 0; sndKmState := 0; rcvKmState := 0; sentKM := 0; recvKM := 0;
  fecSender := None; fecReceiver := None; fecARQLevel := FilterConfig.ARQAlways;
  ackSeqNo := 0; rcvLastAckAck := 0; lastFullACKTime := 0; rcvPktCount := 0; lightACKCount := 0;
  ackSlots := replicate 64 zeroSlot; lastACKACKTime := 0; lastACKACKSeq := 0; rtt := 0; rttVar := 0; lastACKTime := 0;
  rexmitCount := 0; sentPackets := 0; sentBytes := 0; retransPackets := 0; retransBytes := 0; recvWirePackets := 0;
  recvWireBytes := 0; recvPackets := 0; recvBytes := 0; recvRetrans := 0; recvRetransBytes := 0; recvLoss := 0;
  recvBelated := 0; recvBelatedBytes := 0; recvAvgBelatedUS := Float64.ofZ 0; recvReorderDist := 0; lostPackets := 0;
  sentACKs := 0; sentNAKs := 0; sentACKACKs := 0; recvACKs := 0; recvNAKs := 0; recvACKACKs := 0; sentFEC := 0;
  recvFECRecov := 0; negotiatedPeerLatency := 0; negotiatedLatency := 0; state := stateInduction; dial := None;
  rdv := None; closed := false; outputs := Fifo.empty; events := Fifo.empty; ready := false; rng := rng; drawn := 0 |}.

(** ** Helpers *)

(** [c.outputs.push] and [c.events.push]. *)
Definition out (o : Output.Output) (c : Conn) : Conn := c <| outputs ::= fun q => Fifo.push q o |>.
Definition event (e : Output.Event) (c : Conn) : Conn := c <| events ::= fun q => Fifo.push q e |>.

Definition wireTS (c : Conn) (now : Z) : Z := u32 (Clock.SRTTimestamp now - sndTSBase c).

(** A [uint64] counter, and an [int]. *)
Definition bump (n : Z) (count : Z) : Z := u64 (count + n).
Definition ibump (n : Z) (count : Z) : Z := i64 (count + n).

Definition nextMsgNo (n : Z) : Z :=
  let n := Z.land (u32 (n + 1)) 0x03FFFFFF in if n =? 0 then 1 else n.

(** A fresh control packet to the peer, owned by the host. *)
Definition control (c : Conn) (ctrlType now : Z) : Packet.Packet :=
  Packet.NewControl None ctrlType (peerSocketID c) (wireTS c now).
Definition user (c : Conn) (subType now : Z) (data : list Z) : Packet.Packet :=
  Packet.SetData ((control c Packet.CtrlTypeUser now) <| Packet.Hdr ::= fun h => h <| Packet.SubType := subType |> |>) data.
Definition send (p : Packet.Packet) (c : Conn) : Conn := out (Output.SendPacket p true) c.
Definition arm (id : Output.TimerID) (deadline : Z) (c : Conn) : Conn := out (Output.SetTimer id deadline) c.

(** [fail]: the handshake failed. *)
Definition fail (err : Output.ConnError) (c : Conn) : Conn :=
  let c := c <| state := stateFailed |> <| closed := true |> in
  event (Output.Failed err) (out (Output.ClearTimer Output.TimerHandshake) c).

(** What the host sees of the queues. *)
Definition sent (c : Conn) : list Output.Output := Fifo.contents (outputs c).
Definition seen (c : Conn) : list Output.Event := Fifo.contents (events c).

(** ** Message numbers *)

Lemma nextMsgNo_range n : 1 <= nextMsgNo n < 2 ^ 26.
Proof.
  unfold nextMsgNo. replace 0x03FFFFFF with (2 ^ 26 - 1) by reflexivity. rewrite land_ones_mod by lia.
  pose proof (Z.mod_pos_bound (u32 (n + 1)) (2 ^ 26)). destruct (Z.eqb_spec (u32 (n + 1) mod 2 ^ 26) 0); lia.
Qed.

End ConnState.
