(* ===== verification/KeyRotation.v ===== *)
(** * Mid-stream key rotation ([internal/core/keyrotation.go])

    The sender announces the next key, switches the active slot at the refresh
    boundary and clears the old key a pre-announce window later; the receiver
    installs announced keys.  The contract is an abstract schedule, [rotation]:
    whatever the traffic, the packet that is encrypted next has a key, and so
    has every key that is announced. *)
From Stdlib Require Import ZArith Lia.
From stdpp Require Import base numbers list option relations.
From S2P Require Import Prelude Packet Clock Cif Crypto Fifo Output ConnState.
Import Packet(EncryptionNone, EncryptionEven, EncryptionOdd, Packet, Hdr, Data, SubType, ExtTypeKMReq, ExtTypeKMRsp).
Import Output(SetTimer, ClearTimer, SendPacket, TimerKMRefresh, RejectError, Connected).
Import ConnState.
Local Open Scope Z_scope.

Module KeyRotation.

Definition oppositeKey (k : Z) : Z := if k =? EncryptionEven then EncryptionOdd else EncryptionEven.

Definition kmRetryInterval (c : Conn) : Z :=
  let r := if rtt c <? 100 * Clock.Millisecond then 100 * Clock.Millisecond else rtt c in
  Z.quot (i64 (r * 3)) 2.

Section KeyRotation.
Context {P : Crypto.Primitives}.

(** [len(km) = 0] cannot happen: [KM_MarshalCIF] has no error. *)
Definition sendKMREQ (now key : Z) (c : Conn) : Conn :=
  match cryptoCtx c with
  | None => c
  | Some ctx =>
      match passphrase c with
      | [] => c
      | _ =>
          match Crypto.MarshalKM ctx (passphrase c) key with
          | Err _ => c
          | Ok km =>
              let p := user c ExtTypeKMReq now (Cif.KM_MarshalCIF km) in
              (send p c) <| sentKM ::= bump 1 |>
          end
      end
  end.

(** The state of the three steps of [checkKeyRotation]. *)
Definition announce (now : Z) (c : Conn) (ctx : Crypto.Context) : option Conn :=
  if negb (kmAnnounced c) && (kmPacketCount c >=? u64 (kmRefreshRate c - kmPreAnnounce c)) then
    let nextKey := oppositeKey (activeKey c) in
    let rand := rng c (drawn c) in
    let c := c <| drawn ::= S |> in
    match Crypto.GenerateSEK ctx rand nextKey with
    | Err _ => None
    | Ok ctx =>
        let c := c <| cryptoCtx := Some ctx |> in
        let c := c <| kmAnnounced := true |> <| kmConfirmed := false |> <| kmRetryKey := nextKey |>
                   <| kmRetryCount := srtMaxKMRetry |> <| sndKmState := kmStateSecuring |> in
        let c := sendKMREQ now nextKey c in
        Some (arm TimerKMRefresh (Clock.Add now (kmRetryInterval c)) c)
    end
  else Some c.

Definition switchKey (c : Conn) : Conn :=
  if kmPacketCount c >=? kmRefreshRate c then
    c <| activeKey ::= oppositeKey |> <| kmPacketCount := 0 |> <| kmAnnounced := false |> <| kmDecommission := true |>
      <| kmSwitchCount := 0 |>
  else c.

Definition decommission (c : Conn) : Conn :=
  if kmDecommission c then
    let c := c <| kmSwitchCount ::= bump 1 |> in
    if kmSwitchCount c >=? kmPreAnnounce c then
      c <| cryptoCtx ::= option_map (fun ctx => Crypto.ClearSEK ctx (oppositeKey (activeKey c))) |>
        <| kmDecommission := false |>
    else c
  else c.

(** A failing random source leaves only the packet counted (and the draw). *)
Definition checkKeyRotation (now : Z) (c : Conn) : Conn :=
  let c := c <| kmPacketCount ::= bump 1 |> in
  match cryptoCtx c with
  | None => c
  | Some ctx =>
      match announce now c ctx with
      | None => c <| drawn ::= S |>
      | Some c => decommission (switchKey c)
      end
  end.

Definition retryKMREQ (now : Z) (c : Conn) : Conn :=
  if negb (kmAnnounced c) || kmConfirmed c || (kmRetryCount c <=? 0) then c else
  let c := c <| kmRetryCount ::= ibump (-1) |> in
  let c := sendKMREQ now (kmRetryKey c) c in
  if kmRetryCount c >? 0 then arm TimerKMRefresh (Clock.Add now (kmRetryInterval c)) c else c.

Definition sendKMError (now st : Z) (c : Conn) : Conn :=
  (send (user c ExtTypeKMRsp now (PutUint32 (make 4) 0 (u32 st))) c) <| sentKM ::= bump 1 |>.

Definition handleKMRequest (now : Z) (p : Packet) (c : Conn) : Conn :=
  let c := c <| recvKM ::= bump 1 |> in
  match cryptoCtx c, passphrase c with
  | None, _ | _, [] => c <| rcvKmState := kmStateNoSecret |>
  | Some ctx, _ :: _ =>
      match Cif.KM_UnmarshalCIF Cif.zeroKM (Data p) with
      | Err _ => c <| rcvKmState := kmStateBadSecret |>
      | Ok km =>
          let '(ctx, r) := Crypto.UnmarshalKM ctx km (passphrase c) in
          let c := c <| cryptoCtx := Some ctx |> in
          match r with
          | Err _ =>
              sendKMError now kmStateBadSecret (c <| rcvKmState := kmStateBadSecret |> <| sndKmState := kmStateBadSecret |>)
          | Ok _ =>
              let c := c <| rcvKmState := kmStateSecured |> in
              match Crypto.MarshalKM ctx (passphrase c) (Cif.KeyBasedEncryption km) with
              | Err _ => c
              | Ok resp => (send (user c ExtTypeKMRsp now (Cif.KM_MarshalCIF resp)) c) <| sentKM ::= bump 1 |>
              end
          end
      end
  end.

Definition handleKMResponse (p : Packet) (c : Conn) : Conn :=
  let c := c <| recvKM ::= bump 1 |> in
  if len (Data p) =? 4 then
    let st := i32 (Uint32 (Data p) 0) in
    let c := if (st >=? kmStateNoSecret) && (st <=? kmStateBadSecret)
             then c <| sndKmState := st |> <| rcvKmState := st |> else c in
    if hsv4DeferConnect c then fail (RejectError rejBadSecret) (out (ClearTimer TimerKMRefresh) c) else c
  else
    let c := c <| kmConfirmed := true |> <| sndKmState := kmStateSecured |> <| rcvKmState := kmStateSecured |> in
    let c := out (ClearTimer TimerKMRefresh) c in
    if hsv4DeferConnect c then event (Connected (peerSocketID c)) (c <| hsv4DeferConnect := false |>) else c.

(** ** The schedule *)

Lemma oppositeKey_slot k : Crypto.is_slot (oppositeKey k).
Proof. unfold oppositeKey. destruct (k =? EncryptionEven); [by right|by left]. Qed.

Lemma oppositeKey_ne k : oppositeKey k <> k.
Proof. unfold oppositeKey. destruct (Z.eqb_spec k EncryptionEven); [subst; discriminate|congruence]. Qed.

Lemma oppositeKey_twice k : Crypto.is_slot k -> oppositeKey (oppositeKey k) = k.
Proof. by intros [-> | ->]. Qed.

Lemma ClearSEK_other ctx k s :
  Crypto.is_slot s -> s <> k -> Crypto.slot_ok ctx s -> Crypto.slot_ok (Crypto.ClearSEK ctx k) s.
Proof.
  intros Hs Hne H. unfold Crypto.ClearSEK.
  destruct (Z.eqb_spec k EncryptionEven) as [->|]; [|destruct (Z.eqb_spec k EncryptionOdd) as [->|]; [|done]];
    destruct Hs as [-> | ->]; try done.
Qed.

Lemma ClearSEK_base ctx k : Crypto.ctx_base ctx -> Crypto.ctx_base (Crypto.ClearSEK ctx k).
Proof.
  intros H. unfold Crypto.ClearSEK. destruct (k =? EncryptionEven); [done|]. by destruct (k =? EncryptionOdd).
Qed.

Lemma ClearSEK_keyLength ctx k : Crypto.keyLength (Crypto.ClearSEK ctx k) = Crypto.keyLength ctx.
Proof. unfold Crypto.ClearSEK. destruct (k =? EncryptionEven); [done|]. by destruct (k =? EncryptionOdd). Qed.

(** The keys the schedule relies on: the active one always, the other one from
    its announcement to the switch and from the switch to its decommission. *)
Record keyed (c : Conn) (ctx : Crypto.Context) : Prop := mkKeyed {
  ky_ctx : cryptoCtx c = Some ctx;
  ky_base : Crypto.ctx_base ctx;
  ky_slot : Crypto.is_slot (activeKey c);
  ky_active : Crypto.slot_ok ctx (activeKey c);
  ky_other : kmAnnounced c || kmDecommission c = true -> Crypto.slot_ok ctx (oppositeKey (activeKey c));
  ky_rng : forall n sek, rng c n = Some sek -> len sek = Crypto.keyLength ctx /\ bytes_ok sek
}.

Record rotating (c : Conn) : Prop := mkRotating {
  ro_rates : 0 <= kmPreAnnounce c /\ 2 * kmPreAnnounce c <= kmRefreshRate c < 2 ^ 64;
  ro_count : 0 <= kmPacketCount c < 2 ^ 64;
  ro_dec : kmDecommission c = true ->
    kmAnnounced c = false /\ kmSwitchCount c = kmPacketCount c + 1 /\ kmPacketCount c + 1 < kmPreAnnounce c;
  ro_retry : kmAnnounced c = true -> kmRetryKey c = oppositeKey (activeKey c)
}.

(** The fields the schedule reads. *)
Definition same_km (c c' : Conn) : Prop :=
  cryptoCtx c' = cryptoCtx c /\ activeKey c' = activeKey c /\ kmAnnounced c' = kmAnnounced c /\
  kmDecommission c' = kmDecommission c /\ rng c' = rng c /\ kmPreAnnounce c' = kmPreAnnounce c /\
  kmRefreshRate c' = kmRefreshRate c /\ kmPacketCount c' = kmPacketCount c /\ kmSwitchCount c' = kmSwitchCount c /\
  kmRetryKey c' = kmRetryKey c.

Lemma same_keyed c c' ctx : same_km c c' -> keyed c ctx -> keyed c' ctx.
Proof.
  intros (E1 & E2 & E3 & E4 & E5 & _) [H1 H2 H3 H4 H5 H6].
  constructor; rewrite ?E1, ?E2, ?E3, ?E4, ?E5; done.
Qed.

Lemma same_rotating c c' : same_km c c' -> rotating c -> rotating c'.
Proof.
  intros (_ & E2 & E3 & E4 & _ & E6 & E7 & E8 & E9 & E10) [H1 H2 H3 H4].
  constructor; rewrite ?E2, ?E3, ?E4, ?E6, ?E7, ?E8, ?E9, ?E10; done.
Qed.

Lemma sendKMREQ_same now k c : same_km c (sendKMREQ now k c).
Proof.
  unfold sendKMREQ. destruct (cryptoCtx c) eqn:E; [|done]. destruct (passphrase c); [done|].
  destruct (Crypto.MarshalKM _ _ _); [|done]. unfold same_km, send, out. fields. done.
Qed.

Lemma retryKMREQ_same now c : same_km c (retryKMREQ now c).
Proof.
  unfold retryKMREQ. destruct (_ || _); [done|]. set (c1 := c <| kmRetryCount ::= _ |>).
  assert (same_km c c1) as H1 by (unfold same_km, c1; fields; done).
  pose proof (sendKMREQ_same now (kmRetryKey c1) c1) as H2.
  destruct (_ >? 0); unfold same_km, arm, out in *; fields; intuition congruence.
Qed.

Lemma handleKMResponse_same p c : same_km c (handleKMResponse p c).
Proof.
  unfold handleKMResponse. destruct (len (Data p) =? 4).
  - destruct (_ && _); destruct (hsv4DeferConnect _); unfold same_km, fail, event, out; fields; done.
  - destruct (hsv4DeferConnect _); unfold same_km, event, out; fields; done.
Qed.

(** Announcing generates the other key and keeps the active one. *)
Lemma announce_ok now c ctx c' :
  keyed c ctx -> (kmDecommission c = true -> kmPacketCount c < u64 (kmRefreshRate c - kmPreAnnounce c)) ->
  announce now c ctx = Some c' ->
  exists ctx', keyed c' ctx' /\ activeKey c' = activeKey c /\ kmPacketCount c' = kmPacketCount c /\
    kmRefreshRate c' = kmRefreshRate c /\ kmPreAnnounce c' = kmPreAnnounce c /\ kmDecommission c' = kmDecommission c /\
    kmSwitchCount c' = kmSwitchCount c /\ rng c' = rng c /\
    (kmPacketCount c >= u64 (kmRefreshRate c - kmPreAnnounce c) -> kmAnnounced c' = true) /\
    (kmAnnounced c' = true -> kmAnnounced c = true /\ kmRetryKey c' = kmRetryKey c \/
       kmPacketCount c >= u64 (kmRefreshRate c - kmPreAnnounce c) /\ kmRetryKey c' = oppositeKey (activeKey c)).
Proof.
  intros Hk Hd. pose proof Hk as [H1 H2 H3 H4 H5 H6]. unfold announce.
  destruct (kmAnnounced c) eqn:Ea; cbn [negb andb].
  { intros [= <-]. exists ctx. split_and!; try done; tauto. }
  destruct (Z.geb_spec (kmPacketCount c) (u64 (kmRefreshRate c - kmPreAnnounce c))) as [Hge|Hlt].
  2: { intros [= <-]. exists ctx. split_and!; try done; try congruence; lia. }
  cbv zeta. fields. destruct (rng c (drawn c)) as [sek|] eqn:Er; [|done].
  destruct (H6 _ _ Er) as [Hl Hb].
  destruct (Crypto.GenerateSEK_ok ctx sek (oppositeKey (activeKey c)) H2 (oppositeKey_slot _) Hl Hb)
    as (ctx' & -> & B1 & B2 & B3 & B4).
  set (c1 := _ <| sndKmState := _ |>). intros [= <-].
  pose proof (sendKMREQ_same now (oppositeKey (activeKey c)) c1) as S. set (c2 := sendKMREQ _ _ c1) in *.
  assert (keyed c2 ctx') as K2.
  { apply (same_keyed c1); [done|]. destruct (B4 (activeKey c) H3) as [A1 A2]; [|done|].
    - intros E. by apply (oppositeKey_ne (activeKey c)).
    - constructor; unfold c1; fields; try done.
      intros n sek' Hn. destruct (H6 n sek' Hn) as [L1 L2]. split; [|done]. rewrite L1.
      destruct B3 as (L & _). rewrite B2 in L. lia. }
  clearbody c2. destruct S as (_ & E2 & E3 & E4 & E5 & E6 & E7 & E8 & E9 & E10). exists ctx'. unfold arm, out.
  fields.
  split; [apply (same_keyed c2); [unfold same_km; fields; done|done]|].
  rewrite E2, E3, E4, E5, E6, E7, E8, E9, E10. unfold c1. fields. split_and!; try done. intros _. right. split; [lia|done].
Qed.

Lemma switchKey_keyed c ctx :
  keyed c ctx -> (kmPacketCount c >= kmRefreshRate c -> kmAnnounced c = true) -> keyed (switchKey c) ctx.
Proof.
  intros [H1 H2 H3 H4 H5 H6] Ha. unfold switchKey.
  destruct (Z.geb_spec (kmPacketCount c) (kmRefreshRate c)) as [Hge|]; [|done].
  specialize (Ha ltac:(lia)). rewrite Ha in H5.
  constructor; fields; try done; [apply oppositeKey_slot|by apply H5|]. intros _. by rewrite oppositeKey_twice.
Qed.

Lemma decommission_keyed c ctx : keyed c ctx -> (kmDecommission c = true -> kmAnnounced c = false) ->
  exists ctx', keyed (decommission c) ctx'.
Proof.
  intros Hk Ha. pose proof Hk as [H1 H2 H3 H4 H5 H6]. unfold decommission.
  destruct (kmDecommission c) eqn:Ed; [|by exists ctx].
  fields. destruct (_ >=? kmPreAnnounce c); [|exists ctx; constructor; fields; by rewrite ?Ed].
  exists (Crypto.ClearSEK ctx (oppositeKey (activeKey c))). constructor; fields; try done.
  - by rewrite H1.
  - by apply ClearSEK_base.
  - apply ClearSEK_other; try done. intros E. by apply (oppositeKey_ne (activeKey c)).
  - rewrite (Ha eq_refl). done.
  - intros n sek Hn. rewrite ClearSEK_keyLength. by apply (H6 n).
Qed.

(** Decommissioning ends before the next announcement. *)
Lemma rotating_window c :
  rotating c -> kmDecommission c = true -> kmPacketCount c + 1 < u64 (kmRefreshRate c - kmPreAnnounce c).
Proof.
  intros [[Hp Hr] Hc Hd _] E. destruct (Hd E) as (_ & _ & Hlt). unfold u64. rewrite Z.mod_small by lia. lia.
Qed.

(** The end of a step: the switch and the decommission keep the schedule. *)
Lemma finish_rotating c n :
  0 <= kmPreAnnounce c /\ 2 * kmPreAnnounce c <= kmRefreshRate c < 2 ^ 64 -> kmPacketCount c = n -> 0 <= n < 2 ^ 64 ->
  (kmDecommission c = true -> kmAnnounced c = false /\ kmSwitchCount c = n /\ n < kmPreAnnounce c) ->
  (kmAnnounced c = true -> kmRetryKey c = oppositeKey (activeKey c)) ->
  rotating (decommission (switchKey c)) /\
  (kmDecommission (switchKey c) = true -> kmAnnounced (switchKey c) = false).
Proof.
  intros Hr Hn Hb Hd Hy. unfold decommission, switchKey. rewrite Hn.
  destruct (Z.geb_spec n (kmRefreshRate c)) as [Hge|Hlt]; fields.
  - unfold bump, u64. rewrite Z.mod_small by lia. split; [|done].
    destruct (Z.geb_spec (0 + 1) (kmPreAnnounce c)); constructor; fields; try done; intros _;
      unfold bump, u64; rewrite Z.mod_small by lia; split_and!; lia || done.
  - destruct (kmDecommission c) eqn:Ed; [|split; [constructor; rewrite ?Hn, ?Ed; done|done]].
    destruct (Hd eq_refl) as (F1 & F2 & F3). split; [|done]. rewrite F2. unfold bump, u64. rewrite Z.mod_small by lia.
    destruct (Z.geb_spec (n + 1) (kmPreAnnounce c)); constructor; fields; rewrite ?Hn; try done; intros _;
      rewrite F2; unfold bump, u64; rewrite Z.mod_small by lia; split_and!; lia || done.
Qed.

Lemma checkKeyRotation_ok now c ctx :
  keyed c ctx -> rotating c -> exists ctx', keyed (checkKeyRotation now c) ctx' /\ rotating (checkKeyRotation now c).
Proof.
  intros Hk Hro. pose proof Hro as [[Hp Hr] Hc Hd Hy]. unfold checkKeyRotation. fields.
  pose proof (ky_ctx _ _ Hk) as Hctx. rewrite Hctx. set (c0 := c <| kmPacketCount ::= bump 1 |>).
  assert (keyed c0 ctx) as Hk0 by (destruct Hk; constructor; unfold c0; fields; done).
  assert (kmDecommission c = true -> kmPacketCount c0 = kmPacketCount c + 1) as Hd0.
  { intros E. destruct (Hd E) as (_ & _ & ?). unfold c0. fields. unfold bump, u64. rewrite Z.mod_small; lia. }
  assert (0 <= kmPacketCount c0 < 2 ^ 64) as Hc0 by (unfold c0; fields; unfold bump, u64; apply Z.mod_pos_bound; lia).
  assert (kmDecommission c0 = true -> kmPacketCount c0 < u64 (kmRefreshRate c0 - kmPreAnnounce c0)) as Hw.
  { intros E. unfold c0 in E |- *. fields_in E. fields. pose proof (rotating_window c Hro E).
    pose proof (Hd0 E) as E0. unfold c0 in E0. fields_in E0. lia. }
  destruct (announce now c0 ctx) as [c1|] eqn:Ea.
  2: { exists ctx. split; [destruct Hk0; constructor; fields; done|].
       constructor; fields; try done. unfold c0. fields. intros E. destruct (Hd E) as (F1 & F2 & F3).
       pose proof (rotating_window c Hro E) as Hlt.
       exfalso. unfold announce in Ea. rewrite Z.geb_leb in Ea. specialize (Hw E).
       destruct (Z.leb_spec (u64 (kmRefreshRate c0 - kmPreAnnounce c0)) (kmPacketCount c0)); [lia|].
       by rewrite andb_false_r in Ea. }
  destruct (announce_ok now c0 ctx c1 Hk0 Hw Ea) as (ctx1 & Hk1 & A1 & A2 & A3 & A4 & A5 & A6 & _ & A7 & A8).
  assert (kmAnnounced c0 = kmAnnounced c /\ kmRetryKey c0 = kmRetryKey c /\ activeKey c0 = activeKey c) as (E1 & E2 & E3)
    by (unfold c0; fields; done).
  rewrite E1, E2, E3 in A8. unfold c0 in A1, A3, A4, A5, A6. fields_in A1. fields_in A3. fields_in A4. fields_in A5. fields_in A6.
  assert (u64 (kmRefreshRate c0 - kmPreAnnounce c0) = kmRefreshRate c - kmPreAnnounce c) as Hu
    by (unfold c0; fields; unfold u64; apply Z.mod_small; lia).
  rewrite Hu in *.
  assert (keyed (switchKey c1) ctx1) as Hk2 by (apply switchKey_keyed; [done|]; rewrite A2, A3; intros; apply A7; lia).
  destruct (finish_rotating c1 (kmPacketCount c0)) as [Hf1 Hf2].
  - by rewrite A3, A4.
  - done.
  - done.
  - rewrite A5, A6, A4. intros E. destruct (Hd E) as (F1 & F2 & F3). rewrite (Hd0 E).
    split_and!; [|lia|lia]. destruct (kmAnnounced c1) eqn:Ea1; [|done]. exfalso.
    destruct (A8 eq_refl) as [[? _]|[Hge _]]; [congruence|]. specialize (Hw E). lia.
  - rewrite A1. intros Ea1. destruct (A8 Ea1) as [[Ha ->]|[_ ->]]; [by apply Hy|done].
  - destruct (decommission_keyed (switchKey c1) ctx1 Hk2 Hf2) as [ctx2 Hk3]. by exists ctx2.
Qed.

(** ** Runs *)

(** The events that drive a sender's rotation: a packet was encrypted and sent,
    the retry timer fired, the peer answered. *)
Inductive kmstep : Conn -> Conn -> Prop :=
| km_sent now c : kmstep c (checkKeyRotation now c)
| km_retry now c : kmstep c (retryKMREQ now c)
| km_response p c : kmstep c (handleKMResponse p c).

Lemma kmstep_ok c c' ctx :
  kmstep c c' -> keyed c ctx -> rotating c -> exists ctx', keyed c' ctx' /\ rotating c'.
Proof.
  intros [now x|now x|p x] Hk Hr.
  - by apply (checkKeyRotation_ok now x ctx).
  - exists ctx. pose proof (retryKMREQ_same now x). split; [by eapply same_keyed|by eapply same_rotating].
  - exists ctx. pose proof (handleKMResponse_same p x). split; [by eapply same_keyed|by eapply same_rotating].
Qed.

Lemma kmsteps_ok c c' ctx :
  rtc kmstep c c' -> keyed c ctx -> rotating c -> exists ctx', keyed c' ctx' /\ rotating c'.
Proof.
  intros H. revert ctx. induction H as [c|c c1 c' Hs _ IH]; intros ctx Hk Hr; [by exists ctx|].
  destruct (kmstep_ok _ _ _ Hs Hk Hr) as (ctx1 & Hk1 & Hr1). by apply (IH ctx1).
Qed.

(** A slot with a key encrypts. *)
Lemma encrypts ctx slot data header seqNo :
  Crypto.ctx_base ctx -> Crypto.slot_ok ctx slot -> is_Ok (Crypto.EncryptPayload ctx data header slot seqNo) = true.
Proof.
  intros (_ & Hm & _) (_ & _ & Hc & Ha). unfold Crypto.EncryptPayload, Crypto.encryptGCM, Crypto.xorPayload.
  destruct (Z.eqb_spec (Crypto.mode ctx) Crypto.CipherGCM) as [E|E]; [by rewrite (Ha E)|by rewrite Hc].
Qed.

Section Laws.
Context {L : Crypto.PrimitiveLaws}.

Lemma announces ctx slot pass :
  Crypto.ctx_base ctx -> Crypto.is_slot slot -> Crypto.slot_ok ctx slot -> is_Ok (Crypto.MarshalKM ctx pass slot) = true.
Proof.
  intros Hb Hs Hok. assert (Crypto.slots_ok ctx slot) as H by (left; done).
  destruct (Crypto.keyPlaintext_shape ctx slot H) as (H1 & H2 & H3).
  by destruct (Crypto.MarshalKM_ok ctx pass slot Hb H1 H2 H3) as (km & -> & _).
Qed.

(** C30. Key rotation never runs out of keys: with a pre-announce window of at most half the refresh rate, in every
    state a sender can reach by sending packets, retrying announcements and
    receiving responses (the random source may fail at any time), the next
    packet is encrypted with a key that is present, a pending announcement can
    be sent, and the old key stays available from the switch to its
    decommission. *)
Theorem key_rotation_safe (c c' : Conn) (ctx : Crypto.Context) :
  cryptoCtx c = Some ctx -> Crypto.ctx_base ctx -> Crypto.is_slot (activeKey c) -> Crypto.slot_ok ctx (activeKey c) ->
  (forall n sek, rng c n = Some sek -> len sek = Crypto.keyLength ctx /\ bytes_ok sek) ->
  0 <= kmPreAnnounce c /\ 2 * kmPreAnnounce c <= kmRefreshRate c < 2 ^ 64 -> kmPacketCount c = 0 ->
  kmAnnounced c = false -> kmDecommission c = false -> rtc kmstep c c' ->
  exists ctx', cryptoCtx c' = Some ctx' /\
    (forall data header seqNo, is_Ok (Crypto.EncryptPayload ctx' data header (activeKey c') seqNo) = true) /\
    (kmAnnounced c' = true -> is_Ok (Crypto.MarshalKM ctx' (passphrase c') (kmRetryKey c')) = true) /\
    (kmDecommission c' = true -> forall data header seqNo,
       is_Ok (Crypto.EncryptPayload ctx' data header (oppositeKey (activeKey c')) seqNo) = true).
Proof.
  intros H1 H2 H3 H4 H5 H6 H7 H8 H9 Hrun.
  destruct (kmsteps_ok c c' ctx Hrun) as (ctx' & [K1 K2 K3 K4 K5 K6] & [R1 R2 R3 R4]).
  - constructor; try done. by rewrite H8, H9.
  - constructor; [done|lia|by rewrite H9|by rewrite H8].
  - exists ctx'. split; [done|]. split; [intros; by apply encrypts|]. split.
    + intros Ea. rewrite (R4 Ea). apply announces; [done|apply oppositeKey_slot|]. apply K5. by rewrite Ea.
    + intros Ed data header seqNo. apply encrypts; [done|]. apply K5. by rewrite Ed, orb_true_r.
Qed.

(** A request that carries the key of [ctx'] for slot [s]. *)
Definition carries (p : Packet) (ctx' : Crypto.Context) (pass : list Z) (s : Z) : Prop :=
  exists km, Crypto.MarshalKM ctx' pass s = Ok km /\ Data p = Cif.KM_MarshalCIF km.

(** Both ends of a connection can use each other's messages. *)
Definition compatible (ctx ctx' : Crypto.Context) : Prop :=
  Crypto.ctx_base ctx /\ Crypto.ctx_base ctx' /\ Crypto.keyLength ctx = Crypto.keyLength ctx'.

Lemma handleKMRequest_installs now c ctx ctx' p s :
  cryptoCtx c = Some ctx -> passphrase c <> [] -> compatible ctx ctx' -> Crypto.is_slot s -> Crypto.slot_ok ctx' s ->
  carries p ctx' (passphrase c) s ->
  exists ctx'', cryptoCtx (handleKMRequest now p c) = Some ctx'' /\ Crypto.slot_ok ctx'' s /\
    Crypto.sekOf ctx'' s = Crypto.sekOf ctx' s /\ rcvKmState (handleKMRequest now p c) = kmStateSecured /\
    kmAnnounced (handleKMRequest now p c) = kmAnnounced c /\ activeKey (handleKMRequest now p c) = activeKey c /\
    kmRetryKey (handleKMRequest now p c) = kmRetryKey c.
Proof.
  intros Hc Hp (Hb & Hb' & Hkl) Hs Hok (km & Hkm & Hdata). unfold handleKMRequest. fields. rewrite Hc.
  destruct (passphrase c) as [|b pass] eqn:Epass; [done|].
  assert (Crypto.slots_ok ctx' s) as Hss by (left; done). pose proof Hb as (_ & _ & Hsl & _).
  destruct (Crypto.UnmarshalKM_ok ctx' ctx (b :: pass) s s) as (km' & c'' & M1 & M2 & M3 & _ & _ & _ & M7 & M8); try done; [by left|].
  rewrite M1 in Hkm. apply Ok_inj in Hkm as <-. rewrite Hdata, Cif.KM_roundtrip, M3 by done. fields.
  exists c''. destruct (Crypto.MarshalKM c'' _ _); unfold send, out; fields; done.
Qed.

(** Crossing announcements swap keys: the two directions of a connection
    share one pair of slots, so when both ends announce a new key for the same
    slot before either request arrives, each installs the other's key over its
    own.  Both requests are accepted as secured, and afterwards each end holds
    in that slot the key the other end generated: what one encrypts, the other
    decrypts with a different key. *)
Theorem km_crossing_swaps_keys (now : Z) (c d : Conn) (ctxC ctxD : Crypto.Context) (pC pD : Packet) (s : Z) :
  cryptoCtx c = Some ctxC -> cryptoCtx d = Some ctxD -> passphrase c = passphrase d -> passphrase c <> [] ->
  compatible ctxC ctxD -> Crypto.is_slot s -> Crypto.slot_ok ctxC s -> Crypto.slot_ok ctxD s ->
  carries pC ctxC (passphrase c) s -> carries pD ctxD (passphrase d) s ->
  exists ctxC' ctxD', cryptoCtx (handleKMRequest now pD c) = Some ctxC' /\ cryptoCtx (handleKMRequest now pC d) = Some ctxD' /\
    rcvKmState (handleKMRequest now pD c) = kmStateSecured /\ rcvKmState (handleKMRequest now pC d) = kmStateSecured /\
    Crypto.sekOf ctxC' s = Crypto.sekOf ctxD s /\ Crypto.sekOf ctxD' s = Crypto.sekOf ctxC s.
Proof.
  intros Hc Hd Epass Hne Hcomp Hs Hok Hok' HpC HpD. assert (compatible ctxD ctxC) as Hcomp' by (destruct Hcomp as (? & ? & ?); done).
  destruct (handleKMRequest_installs now c ctxC ctxD pD s) as (ctxC' & A1 & _ & A3 & A4 & _); try done; [by rewrite Epass|].
  destruct (handleKMRequest_installs now d ctxD ctxC pC s) as (ctxD' & B1 & _ & B3 & B4 & _); try done; [congruence|by rewrite <- Epass|].
  exists ctxC', ctxD'. done.
Qed.

End Laws.

(** ** The period *)

(** The clock is a counter modulo the refresh rate, as long as the random source works. *)
Lemma announce_total now c ctx : keyed c ctx -> (forall n, rng c n <> None) -> announce now c ctx <> None.
Proof.
  intros [H1 H2 H3 H4 H5 H6] Hr. unfold announce. destruct (_ && _); [|done]. cbv zeta. fields.
  destruct (rng c (drawn c)) as [sek|] eqn:Er; [|by apply Hr in Er]. destruct (H6 _ _ Er) as [Hl Hb].
  by destruct (Crypto.GenerateSEK_ok ctx sek (oppositeKey (activeKey c)) H2 (oppositeKey_slot _) Hl Hb) as (ctx' & -> & _).
Qed.

Lemma checkKeyRotation_tick now c ctx :
  keyed c ctx -> rotating c -> (forall n, rng c n <> None) -> kmPacketCount c < kmRefreshRate c ->
  let c' := checkKeyRotation now c in
  rng c' = rng c /\ kmRefreshRate c' = kmRefreshRate c /\
  (if kmPacketCount c + 1 <? kmRefreshRate c
   then kmPacketCount c' = kmPacketCount c + 1 /\ activeKey c' = activeKey c
   else kmPacketCount c' = 0 /\ activeKey c' = oppositeKey (activeKey c)).
Proof.
  intros Hk Hro Hr Hlt. pose proof Hro as [[Hp Hrr] Hc Hd Hy]. unfold checkKeyRotation. fields.
  rewrite (ky_ctx _ _ Hk). set (c0 := c <| kmPacketCount ::= bump 1 |>).
  assert (keyed c0 ctx) as Hk0 by (destruct Hk; constructor; unfold c0; fields; done).
  assert (kmPacketCount c0 = kmPacketCount c + 1) as E0.
  { unfold c0. fields. unfold bump, u64. apply Z.mod_small. lia. }
  destruct (announce now c0 ctx) as [c1|] eqn:Ea; [|by apply announce_total in Ea].
  destruct (announce_ok now c0 ctx c1 Hk0) as (ctx1 & _ & A1 & A2 & A3 & A4 & A5 & A6 & A7 & _); [|done|].
  { intros E. rewrite E0. unfold c0 in E |- *. fields. by apply rotating_window. }
  assert (activeKey c0 = activeKey c /\ kmRefreshRate c0 = kmRefreshRate c /\ rng c0 = rng c) as (E1 & E2 & E3)
    by (unfold c0; fields; done).
  unfold decommission, switchKey. rewrite A2, A3, E0, E2, Z.geb_leb.
  destruct (Z.ltb_spec (kmPacketCount c + 1) (kmRefreshRate c)), (Z.leb_spec (kmRefreshRate c) (kmPacketCount c + 1)); try lia;
    fields; (destruct (kmDecommission c1) || idtac); repeat case_match; fields; rewrite ?A1, ?A2, ?A3, ?A7; fields; done.
Qed.

(** The schedule after [n] packets: the slot in use and the packets since the switch. *)
Definition scheduled (c0 c : Conn) (n : Z) : Prop :=
  kmPacketCount c = n mod kmRefreshRate c0 /\
  activeKey c = (if Z.even (n / kmRefreshRate c0) then activeKey c0 else oppositeKey (activeKey c0)).

Definition sendAll (nows : list Z) (c : Conn) : Conn := fold_left (fun c now => checkKeyRotation now c) nows c.

Lemma sendAll_run nows : forall c, rtc kmstep c (sendAll nows c).
Proof.
  induction nows as [|now nows IH]; intros c; [apply rtc_refl|].
  apply (rtc_l kmstep _ (checkKeyRotation now c)); [apply km_sent|apply IH].
Qed.

Lemma scheduled_tick c0 c now n ctx :
  Crypto.is_slot (activeKey c0) -> 0 < kmRefreshRate c0 -> 0 <= n -> keyed c ctx -> rotating c ->
  rng c = rng c0 -> kmRefreshRate c = kmRefreshRate c0 -> (forall k, rng c0 k <> None) -> scheduled c0 c n ->
  rng (checkKeyRotation now c) = rng c0 /\ kmRefreshRate (checkKeyRotation now c) = kmRefreshRate c0 /\
  scheduled c0 (checkKeyRotation now c) (n + 1).
Proof.
  intros Hs HR Hn Hk Hro Er ER Hr [S1 S2]. set (R := kmRefreshRate c0) in *.
  pose proof (Z.mod_pos_bound n R HR) as Hm.
  destruct (checkKeyRotation_tick now c ctx Hk Hro) as (T1 & T2 & T3); [by rewrite Er|rewrite S1, ER; lia|].
  rewrite T1, T2, Er, ER. split; [done|]. split; [done|]. rewrite ER, S1 in T3. unfold scheduled. fold R.
  destruct (Z.ltb_spec (n mod R + 1) R) as [Hlt|Hge]; destruct T3 as [-> ->].
  - assert ((n + 1) / R = n / R /\ (n + 1) mod R = n mod R + 1) as [-> ->]; [|done].
    pose proof (Z.div_mod n R ltac:(lia)). split; symmetry; [apply (Z.div_unique _ _ _ (n mod R + 1))|apply (Z.mod_unique _ _ (n / R))]; lia.
  - assert ((n + 1) / R = n / R + 1 /\ (n + 1) mod R = 0) as [-> ->].
    { pose proof (Z.div_mod n R ltac:(lia)). split; symmetry; [apply (Z.div_unique _ _ _ 0)|apply (Z.mod_unique _ _ (n / R + 1))]; lia. }
    split; [done|]. rewrite S2, Z.add_1_r, Z.even_succ, <- Z.negb_even. destruct (Z.even (n / R)); simpl; [done|].
    by apply oppositeKey_twice.
Qed.

Lemma sendAll_scheduled c0 nows : forall c n ctx,
  Crypto.is_slot (activeKey c0) -> 0 < kmRefreshRate c0 -> 0 <= n -> keyed c ctx -> rotating c ->
  rng c = rng c0 -> kmRefreshRate c = kmRefreshRate c0 -> (forall k, rng c0 k <> None) -> scheduled c0 c n ->
  scheduled c0 (sendAll nows c) (n + len nows).
Proof.
  induction nows as [|now nows IH]; intros c n ctx Hs HR Hn Hk Hro Er ER Hr Hsch.
  - unfold len. simpl. by rewrite Z.add_0_r.
  - destruct (scheduled_tick c0 c now n ctx) as (T1 & T2 & T3); try done.
    destruct (checkKeyRotation_ok now c ctx Hk Hro) as (ctx' & Hk' & Hro').
    unfold len in *. cbn [length sendAll fold_left]. fold (sendAll nows).
    replace (n + Z.of_nat (S (length nows))) with (n + 1 + Z.of_nat (length nows)) by lia.
    apply (IH _ _ ctx'); try done. lia.
Qed.

(** Keys rotate on schedule: when the random source works, after [n]
    encrypted packets (whenever they are sent) the active slot has been switched
    exactly [n / KMRefreshRate] times, and [n mod KMRefreshRate] packets were
    sent with the current key. *)
Theorem key_rotation_period (c : Conn) (ctx : Crypto.Context) (nows : list Z) :
  cryptoCtx c = Some ctx -> Crypto.ctx_base ctx -> Crypto.is_slot (activeKey c) -> Crypto.slot_ok ctx (activeKey c) ->
  (forall n, exists sek, rng c n = Some sek /\ len sek = Crypto.keyLength ctx /\ bytes_ok sek) ->
  0 <= kmPreAnnounce c /\ 2 * kmPreAnnounce c <= kmRefreshRate c < 2 ^ 64 -> 0 < kmRefreshRate c ->
  kmPacketCount c = 0 -> kmAnnounced c = false -> kmDecommission c = false ->
  kmPacketCount (sendAll nows c) = len nows mod kmRefreshRate c /\
  activeKey (sendAll nows c) =
    (if Z.even (len nows / kmRefreshRate c) then activeKey c else oppositeKey (activeKey c)).
Proof.
  intros H1 H2 H3 H4 H5 H6 HR H7 H8 H9.
  apply (sendAll_scheduled c nows c 0 ctx); try done.
  - constructor; try done; [by rewrite H8, H9|]. intros n sek Hn. destruct (H5 n) as (sek' & E & ?). congruence.
  - constructor; [done|lia|by rewrite H9|by rewrite H8].
  - intros k E. destruct (H5 k) as (sek' & E' & _). congruence.
Qed.

End KeyRotation.

(** ** A concrete sender *)

#[local] Existing Instance Crypto.toy.
#[local] Existing Instance Crypto.toy_laws.

Definition toyRng (n : nat) : option (list Z) := Some (replicate 16 3).
Definition toySender : Conn :=
  (zeroConn toyRng) <| cryptoCtx := Some Crypto.toyCtx |> <| activeKey := EncryptionEven |> <| passphrase := [1] |>
    <| kmRefreshRate := 4 |> <| kmPreAnnounce := 2 |>.

Lemma toyRng_ok : forall n, exists sek, toyRng n = Some sek /\ len sek = Crypto.keyLength Crypto.toyCtx /\ bytes_ok sek.
Proof. intros n. exists (replicate 16 3). split; [done|]. split; [done|]. apply (bool_decide_unpack _). vm_compute. exact I. Qed.

Lemma toyCtx_even : Crypto.slot_ok Crypto.toyCtx EncryptionEven.
Proof. destruct Crypto.toyCtx_ok as [_ [[[E|E] _]|(_ & H & _)]]; [discriminate E..|exact H]. Qed.

Lemma key_rotation_safe_witness :
  exists ctx', cryptoCtx (sendAll [1; 2; 3; 4; 5] toySender) = Some ctx' /\
    is_Ok (Crypto.EncryptPayload ctx' [42] [] EncryptionOdd 7) = true.
Proof.
  destruct (key_rotation_safe toySender (sendAll [1; 2; 3; 4; 5] toySender) Crypto.toyCtx) as (ctx' & H1 & H2 & _).
  - reflexivity.
  - exact (proj1 Crypto.toyCtx_ok).
  - left. reflexivity.
  - exact toyCtx_even.
  - intros n sek Hn. destruct (toyRng_ok n) as (sek' & E & H). rewrite <- (Some_inj _ _ (eq_trans (eq_sym Hn) E)) in H. exact H.
  - split; [|split]; vm_compute; intuition congruence.
  - reflexivity.
  - reflexivity.
  - reflexivity.
  - exact (sendAll_run [1; 2; 3; 4; 5] toySender).
  - exists ctx'. split; [exact H1|]. exact (H2 [42] [] 7).
Defined.

Lemma key_rotation_period_witness :
  activeKey (sendAll [1; 2; 3; 4; 5] toySender) = EncryptionOdd /\ kmPacketCount (sendAll [1; 2; 3; 4; 5] toySender) = 1.
Proof.
  destruct (key_rotation_period toySender Crypto.toyCtx [1; 2; 3; 4; 5]) as [H1 H2].
  - reflexivity.
  - exact (proj1 Crypto.toyCtx_ok).
  - left. reflexivity.
  - exact toyCtx_even.
  - exact toyRng_ok.
  - split; [|split]; vm_compute; intuition congruence.
  - reflexivity.
  - reflexivity.
  - reflexivity.
  - reflexivity.
  - split; [exact H2|exact H1].
Defined.

(** Two ends that have each generated a new odd key. *)
Definition toyCtxOf (k : Z) : Crypto.Context :=
  match Crypto.GenerateSEK Crypto.toyCtx (Some (replicate 16 k)) EncryptionOdd with Ok ctx => ctx | Err _ => Crypto.toyCtx end.
Definition toyEnd (k : Z) : Conn := toySender <| cryptoCtx := Some (toyCtxOf k) |>.
Definition toyKMREQ (k : Z) : Packet :=
  match Crypto.MarshalKM (toyCtxOf k) [1] EncryptionOdd with
  | Ok km => user toySender ExtTypeKMReq 0 (Cif.KM_MarshalCIF km)
  | Err _ => Packet.zeroPacket
  end.

Lemma toyCtxOf_ok (k : Z) : is_u8 k -> Crypto.ctx_base (toyCtxOf k) /\ Crypto.slot_ok (toyCtxOf k) EncryptionOdd /\
  Crypto.keyLength (toyCtxOf k) = 16.
Proof.
  intros Hk. destruct (Crypto.GenerateSEK_ok Crypto.toyCtx (replicate 16 k) EncryptionOdd) as (c' & E & H1 & _ & H3 & _).
  - exact (proj1 Crypto.toyCtx_ok).
  - by right.
  - done.
  - unfold bytes_ok. apply Forall_replicate. done.
  - unfold toyCtxOf. rewrite E. split; [done|]. split; [done|]. vm_compute in E. by injection E as <-.
Qed.

Lemma km_crossing_swaps_keys_witness :
  exists ctxC' ctxD', cryptoCtx (handleKMRequest 0 (toyKMREQ 6) (toyEnd 5)) = Some ctxC' /\
    cryptoCtx (handleKMRequest 0 (toyKMREQ 5) (toyEnd 6)) = Some ctxD' /\
    Crypto.sekOf ctxC' EncryptionOdd = replicate 16 6 /\ Crypto.sekOf ctxD' EncryptionOdd = replicate 16 5.
Proof.
  destruct (toyCtxOf_ok 5 ltac:(split; vm_compute; congruence)) as (A1 & A2 & A3).
  destruct (toyCtxOf_ok 6 ltac:(split; vm_compute; congruence)) as (B1 & B2 & B3).
  destruct (km_crossing_swaps_keys 0 (toyEnd 5) (toyEnd 6) (toyCtxOf 5) (toyCtxOf 6) (toyKMREQ 5) (toyKMREQ 6) EncryptionOdd)
    as (x & y & H1 & H2 & _ & _ & H5 & H6).
  - reflexivity.
  - reflexivity.
  - reflexivity.
  - discriminate.
  - split; [exact A1|]. split; [exact B1|]. exact (eq_trans A3 (eq_sym B3)).
  - right. reflexivity.
  - exact A2.
  - exact B2.
  - eexists. split; [vm_compute; reflexivity|]. vm_compute. reflexivity.
  - eexists. split; [vm_compute; reflexivity|]. vm_compute. reflexivity.
  - exists x, y. split; [exact H1|]. split; [exact H2|]. split; [rewrite H5|rewrite H6]; vm_compute; reflexivity.
Defined.

End KeyRotation.
