(* ===== verification/ConnSend.v ===== *)
(** * The send path of a connection ([internal/core/conn.go], [bandwidth.go])

    From an application write to the packets on the wire: framing and
    fragmentation, flow control, pacing, encryption, FEC and key rotation, the
    too-late drop, and the handlers that drive retransmission (ACK, NAK and the
    retransmission timeout). *)
From Stdlib Require Import ZArith Lia.
From stdpp Require Import base numbers list option.
From S2P Require Import Prelude Seq Packet Control Clock Ring SendBuffer Fifo Output Fec Crypto Float64 Congestion ConnState KeyRotation.
Import Packet(Packet, Hdr, Data, PositionMiddle, PositionFirst, PositionLast, PositionSingle, EncryptionNone).
Import Output(SendPacket, SetTimer, TimerSndPacing, TimerEXP, TimerKeepalive, TimerPeerIdle, ErrPeerIdle, Failed).
Import ConnState.
Local Open Scope Z_scope.

Module ConnSend.

(** ** Configuration at run time *)

Definition dropThreshold (base ms : Z) : Z :=
  let thr := i64 (base + i64 (ms * Clock.Millisecond)) in
  let thr := if thr <? 1 * Clock.Second then 1 * Clock.Second else thr in
  i64 (thr + 20 * Clock.Millisecond).

Definition SetSndDropDelay (ms : Z) (c : Conn) : Conn :=
  if negb (tlPktDrop c) then c else c <| sendDropThresh := dropThreshold (dropBaseUS c) ms |>.

Definition applyBandwidth (c : Conn) : Conn :=
  if negb (ready c) then c else
  if negb (Congestion.isLive (sendCC c)) then c <| sendCC ::= Congestion.SetMaxBandwidth (configuredMaxBW c) |> else
  let input := if inputBW c =? 0 then Z.max (sampledInputBW c) (minInputBW c) else inputBW c in
  if (configuredMaxBW c =? 0) && (input =? 0)
  then c <| sendCC ::= Congestion.SetMaxBandwidth Congestion.DefaultMaxBW |>
  else c <| sendCC ::= Congestion.UpdateBandwidth (configuredMaxBW c) input |>.

Definition SetMaxBW (bw : Z) (c : Conn) : Conn := applyBandwidth (c <| configuredMaxBW := Z.max 0 bw |>).
Definition SetInputBW (bw : Z) (c : Conn) : Conn := applyBandwidth (c <| inputBW := Z.max 0 bw |>).
Definition SetMinInputBW (bw : Z) (c : Conn) : Conn := applyBandwidth (c <| minInputBW := Z.max 0 bw |>).
Definition SetOverhead (pct : Z) (c : Conn) : Conn :=
  if negb (ready c) then c else applyBandwidth (c <| sendCC ::= Congestion.SetOverhead pct |>).

Definition sampleInputBandwidth (now : Z) (c : Conn) : Conn :=
  let elapsed := Clock.Sub now (inputSampleStart c) in
  if elapsed <? Clock.Second then c else
  let c := if inputSampleBytes c >? 0
           then c <| sampledInputBW := Float64.toInt (Float64.fdiv
                       (Float64.fmul (Float64.ofZ (inputSampleBytes c)) (Float64.ofZ Clock.Second)) (Float64.ofZ elapsed)) |>
           else c in
  let c := c <| inputSampleBytes := 0 |> <| inputSampleStart := now |> in
  if (configuredMaxBW c =? 0) && (inputBW c =? 0) then applyBandwidth c else c.

Definition window (c : Conn) : Z :=
  let w := flowWindow c in
  let w := if (rcvFlowWin c >? 0) && (rcvFlowWin c <? w) then rcvFlowWin c else w in
  let cw := Congestion.CongestionWindow (sendCC c) in
  if cw <? w then cw else w.

Definition rto (c : Conn) : Z :=
  let n := if rexmitCount c <? 1 then 1 else rexmitCount c in
  i64 (i64 (n * i64 (i64 (rtt c + i64 (4 * rttVar c)) + 2 * synInterval)) + 10 * Clock.Millisecond).

(** ** Too-late drop *)

Definition emitDropReq (now firstSeq lastSeq : Z) (c : Conn) : Conn :=
  let data := Control.CIFDropReq_MarshalCIF (Control.mkDropReq firstSeq lastSeq) in
  let p := (control c Packet.CtrlTypeDropReq now) <| Hdr ::= fun h => h <| Packet.TypeSpecific := 0 |> |> in
  send (Packet.SetData p data) c.

Definition checkSendDrop (now : Z) (c : Conn) : Conn :=
  if ((sendDropThresh c <=? 0) && negb (msgTTLActive c)) || negb (ready c) then c else
  let '(sb, (dropped, first, last)) := SendBuffer.DropTooLateSend (sendBuf c) now (sendDropThresh c) in
  let c := c <| sendBuf := sb |> in
  if dropped =? 0 then c else
  let c := c <| sentDropped ::= bump dropped |> <| sentDroppedBytes ::= bump (u64 dropped * u64 (payloadSize c)) |> in
  emitDropReq now (Seq.Value first) (Seq.Value last) c.

Section Send.
Context {P : Crypto.Primitives}.

(** ** One packet *)

(** [Header.Marshal] of a 16-byte buffer. *)
Definition headerBytes (h : Packet.Header) : list Z := default [] (Packet.Header_Marshal h (make 16)).

(** The packet with the encryption flag set; the payload is left as it is when
    the context has no key for the active slot. *)
Definition encrypt (ctx : Crypto.Context) (key : Z) (p : Packet) (seqNo : Z) : Packet :=
  let p := p <| Hdr ::= fun h => h <| Packet.Encryption := key |> |> in
  let aad := if Crypto.mode ctx =? Crypto.CipherGCM then headerBytes (Hdr p) else [] in
  match Crypto.EncryptPayload ctx (Data p) aad key seqNo with
  | Ok enc => p <| Data := enc |>
  | Err _ => p
  end.

Fixpoint drainFEC_loop (fuel : nat) (s : Fec.FECSender) (c : Conn) : Conn :=
  match fuel with
  | O => c <| fecSender := Some s |>
  | S fuel' =>
      match Fec.PackControlPacket s with
      | (None, s) => c <| fecSender := Some s |>
      | (Some (data, _, fecSeqNo, fecTS), s) =>
          let fp := Packet.NewData None fecSeqNo fecTS (peerSocketID c) data in
          let fp := fp <| Hdr ::= fun h => h <| Packet.MessageNumber := 0 |> <| Packet.PacketPosition := PositionSingle |>
                                             <| Packet.Encryption := EncryptionNone |> |> in
          drainFEC_loop fuel' s ((send fp c) <| sentFEC ::= bump 1 |>)
      end
  end.

(** Each pass takes one pending packet. *)
Definition drainFECSender (s : Fec.FECSender) (c : Conn) : Conn :=
  drainFEC_loop (S (length (Fec.pendingFEC s))) s c.

Definition buildData (c : Conn) (seqNo ts : Z) (f : frame) : Packet :=
  let p := if f_pooled f && (pos f =? PositionSingle)
           then Packet.NewDataOwned None (Seq.Value seqNo) ts (peerSocketID c) (payload f)
           else Packet.NewData None (Seq.Value seqNo) ts (peerSocketID c) (payload f) in
  let p := p <| Hdr ::= fun h => h <| Packet.MessageNumber := msgNo f |> <| Packet.PacketPosition := pos f |>
                                   <| Packet.Order := order f |> |> in
  match cryptoCtx c with
  | Some ctx => encrypt ctx (activeKey c) p (Seq.Value seqNo)
  | None => p
  end.

(** What follows a successful push: the packet is emitted and counted, and the
    controller, the FEC engine and the key rotation are told. *)
Definition afterPush (now seqNo : Z) (p : Packet) (f : frame) (c : Conn) : Conn :=
  let c := if ttlNs f >? 0 then c <| sendBuf ::= fun sb => SendBuffer.SetMsgTTL sb (ttlNs f) |> else c in
  let c := out (SendPacket p false) c in
  let c := c <| sentPackets ::= bump 1 |> <| sentBytes ::= bump (len (Data p)) |> <| lastSentDataTime := now |> in
  let c := c <| sendCC ::= Congestion.OnPacketSent (Seq.Value seqNo) (len (payload f)) |> in
  let c :=
    match fecSender c with
    | Some s =>
        drainFECSender (Fec.FeedSource s (Seq.Value seqNo) (Packet.Timestamp (Hdr p)) (u8 (Packet.Encryption (Hdr p))) (Data p)) c
    | None => c
    end in
  match cryptoCtx c with
  | Some _ => if kmRefreshRate c >? 0 then KeyRotation.checkKeyRotation now c else c
  | None => c
  end.

Definition sendData (now seqNo ts : Z) (f : frame) (c : Conn) : Conn :=
  let p := buildData c seqNo ts f in
  let '(ok, sb) := SendBuffer.Push (sendBuf c) p [now] in
  if negb ok then c else afterPush now seqNo p f (c <| sendBuf := sb |>).

Definition sendOne (now : Z) (f : frame) (c : Conn) : Z * Conn :=
  let ts := if srcTime f =? 0 then wireTS c now else srcTime f in
  let c := sendData now (SendBuffer.NextSeq (sendBuf c)) ts f c in
  (if Congestion.IsProbePacket (sendCC c) then 0 else Congestion.PacketInterval (sendCC c), c).

(** ** Pumping *)

(** The pacing deadline after a send. *)
Definition advance (now interval next : Z) : Z :=
  if Clock.IsZero next then Clock.Add now interval
  else if Clock.Sub now next >? maxPacingBurst then Clock.Add now interval
  else Clock.Add next interval.

(** Every pass pops a frame; the queue bounds the fuel. *)
Fixpoint pump_loop (fuel : nat) (now : Z) (c : Conn) : Conn :=
  match fuel with
  | O => c
  | S fuel' =>
      if Fifo.len (sendQueue c) >? 0 then
        if SendBuffer.Size (sendBuf c) >=? window c then c else
        if negb (Clock.IsZero (nextSendTime c)) && Clock.Before now (nextSendTime c)
        then arm TimerSndPacing (nextSendTime c) c else
        let '(f, _, q) := Fifo.pop zeroFrame (sendQueue c) in
        let '(interval, c) := sendOne now f (c <| sendQueue := q |>) in
        pump_loop fuel' now (c <| nextSendTime ::= advance now interval |>)
      else c
  end.

Definition pump (now : Z) (c : Conn) : Conn :=
  let c := checkSendDrop now c in
  pump_loop (S (Z.to_nat (Fifo.len (sendQueue c)))) now c.

(** ** Writing *)

Record MsgOptions : Type := mkOpts {
  SrcTime : Z;
  InOrder : bool;
  TTL : Z;
  MsgNo : Z;
  ForceMsgNo : bool
}.

(** The fragments from [off] on: at most one per byte left. *)
Fixpoint fragments (fuel : nat) (ps : nat) (mk : list Z -> Z -> frame) (data : list Z) (off : nat) : list frame :=
  match fuel with
  | O => []
  | S fuel' =>
      if Nat.leb (length data) off then [] else
      let end_ := Nat.min (off + ps) (length data) in
      let p := PositionMiddle in
      let p := if Nat.eqb off 0 then Z.lor p PositionFirst else p in
      let p := if Nat.eqb end_ (length data) then Z.lor p PositionLast else p in
      mk (slice off end_ data) p :: fragments fuel' ps mk data (off + ps)
  end.

Definition enqueue (fs : list frame) (c : Conn) : Conn := c <| sendQueue ::= fun q => fold_left Fifo.push fs q |>.

Definition writeMsg (now : Z) (data : list Z) (opts : MsgOptions) (owned : bool) (c : Conn) : Conn :=
  if closed c || negb (bool_decide (state c = stateConnected)) then c else
  let c := c <| inputSampleBytes ::= ibump (len data) |> in
  let c := c <| msgNumber ::= fun n => if ForceMsgNo opts then Z.land (MsgNo opts) 0x03FFFFFF else nextMsgNo n |> in
  let no := msgNumber c in
  let '(ttl, c) := if TTL opts >? 0 then (i64 (TTL opts * 1000), c <| msgTTLActive := true |>) else (0, c) in
  let ps := payloadSize c in
  if (ps <=? 0) || (len data <=? ps) || bool_decide (is_Some (tsbpdTimer c)) then
    pump now (enqueue [mkFrame data no PositionSingle (InOrder opts) (SrcTime opts) ttl owned] c)
  else
    let src := if SrcTime opts =? 0 then wireTS c now else SrcTime opts in
    let mk := fun part p => mkFrame part no p (InOrder opts) src ttl false in
    pump now (enqueue (fragments (length data) (Z.to_nat ps) mk data 0) c).

Definition WriteMsg (now : Z) (data : list Z) (opts : MsgOptions) (c : Conn) : Conn := writeMsg now data opts false c.
Definition WriteMsgOwned (now : Z) (data : list Z) (opts : MsgOptions) (c : Conn) : Conn := writeMsg now data opts true c.
Definition Write (now : Z) (data : list Z) (c : Conn) : Conn := WriteMsg now data (mkOpts 0 true 0 0 false) c.

Definition WriteCoordinated (now : Z) (data : list Z) (seqNo src : Z) (c : Conn) : Conn :=
  if closed c || negb (bool_decide (state c = stateConnected)) then c else
  let c := if negb (SendBuffer.NextSeq (sendBuf c) =? seqNo)
           then c <| sendBuf ::= fun sb => snd (SendBuffer.OverrideNextSeq sb seqNo) |> else c in
  let c := c <| msgNumber ::= nextMsgNo |> in
  sendData now seqNo src (mkFrame data (msgNumber c) PositionSingle true 0 0 false) c.

(** ** Acknowledgements and losses *)

Definition resend (c : Conn) (rp : Packet) : Conn :=
  send rp (c <| retransPackets ::= bump 1 |> <| retransBytes ::= bump (len (Data rp)) |>).

Definition retransmitAll (c : Conn) : Conn :=
  fold_left resend (SendBuffer.GetAllUnacked (sendBuf c)) c.

Context {M : Float64.GoMath}.

Definition handleEXP (now : Z) (c : Conn) : Conn :=
  let c :=
    if ready c && (SendBuffer.Size (sendBuf c) >? 0) && (Clock.Sub now (lastACKTime c) >? rto c) then
      let c := c <| sendCC ::= Congestion.OnTimeout |> <| rexmitCount ::= ibump 1 |> in
      (retransmitAll c) <| lastACKTime := now |>
    else c in
  arm TimerEXP (Clock.Add now (rto c)) c.

Definition handleNAK (now : Z) (p : Packet) (c : Conn) : Conn :=
  match Control.CIFNAK_UnmarshalCIF (Control.mkNAK []) (Data p) with
  | Err _ => c
  | Ok nak =>
      let losses := Control.LossList nak in
      let c := c <| recvNAKs ::= bump 1 |> <| lostPackets ::= bump (len losses) |>
                 <| sendCC ::= Congestion.OnNAK losses |> in
      let '(sb, rexmit) :=
        if rtt c >? 0 then SendBuffer.NAKTimed (sendBuf c) losses now (rtt c) (rttVar c)
        else (sendBuf c, SendBuffer.NAK (sendBuf c) losses) in
      fold_left resend rexmit (c <| sendBuf := sb |>)
  end.

(** The answer to a full ACK. *)
Definition answerACK (now : Z) (p : Packet) (c : Conn) : Conn :=
  let ackSubNo := Packet.TypeSpecific (Hdr p) in
  if (Clock.Sub now (lastACKACKTime c) >=? synInterval) || (ackSubNo =? lastACKACKSeq c) then
    let aa := (control c Packet.CtrlTypeACKACK now) <| Hdr ::= fun h => h <| Packet.TypeSpecific := ackSubNo |> |> in
    (send (Packet.SetData aa [0; 0; 0; 0]) c) <| sentACKACKs ::= bump 1 |> <| lastACKACKTime := now |>
      <| lastACKACKSeq := ackSubNo |>
  else c.

Definition handleACK (now : Z) (p : Packet) (c : Conn) : Conn :=
  match Control.CIFACK_UnmarshalCIF (Control.mkACK 0 0 0 0 0 0 0) (Data p) with
  | Err _ => c
  | Ok ack =>
      let c := c <| recvACKs ::= bump 1 |> in
      let isLite := len (Data p) =? 4 in
      let '(ackd, sb) := SendBuffer.ACK (sendBuf c) (Control.LastACKPacketSequenceNumber ack) in
      let c := c <| sendBuf := sb |> in
      let c := if ackd >? 0 then c <| lastACKTime := now |> <| rexmitCount := 1 |> else c in
      if isLite then
        pump now (if (ackd >? 0) && (rcvFlowWin c >? 0) then c <| rcvFlowWin ::= ibump (- ackd) |> else c)
      else
        let c := answerACK now p c in
        let c := c <| rcvFlowWin := Control.AvailableBufferSize ack |> in
        let c := if Control.RTT ack >? 0
                 then c <| rtt := Control.RTT ack |> <| rttVar := Control.RTTVariance ack |> else c in
        let c := c <| sendCC ::= Congestion.OnACK now (Control.LastACKPacketSequenceNumber ack) (rtt c)
                                   (Control.EstimatedLinkCapacity ack) (Control.PacketsReceivingRate ack) |> in
        pump now c
  end.

(** ** Liveness and closing *)

Definition SendKeepAlive (now : Z) (c : Conn) : Conn :=
  if closed c then c else send (control c Packet.CtrlTypeKeepalive now) c.

Definition checkKeepalive (now : Z) (c : Conn) : Conn :=
  if peerIdleTimeout c <=? 0 then c else
  let c := if Clock.Sub now (lastSentDataTime c) >=? keepaliveInterval
           then send (Packet.SetData (control c Packet.CtrlTypeKeepalive now) [0; 0; 0; 0]) c else c in
  arm TimerKeepalive (Clock.Add now keepaliveInterval) c.

Definition checkPeerIdle (now : Z) (c : Conn) : Conn :=
  if peerIdleTimeout c <=? 0 then c else
  if Clock.Sub now (lastRecvTime c) >=? peerIdleTimeout c then event (Failed ErrPeerIdle) (c <| closed := true |>) else
  arm TimerPeerIdle (Clock.Add (lastRecvTime c) (peerIdleTimeout c)) c.

Definition Shutdown (now : Z) (c : Conn) : Conn :=
  if closed c then c else
  let c := c <| closed := true |> in
  send (Packet.SetData (control c Packet.CtrlTypeShutdown now) [0; 0; 0; 0]) c.

Definition PendingSend (c : Conn) : Z := if ready c then SendBuffer.Size (sendBuf c) else 0.

(** ** Bonding primitives *)

Definition SchedSeqNo (c : Conn) : Z := if ready c then SendBuffer.NextSeq (sendBuf c) else 0.
Definition OverrideSndSeqNo (nextSeq : Z) (c : Conn) : bool * Conn :=
  if negb (ready c) then (false, c) else
  let '(ok, sb) := SendBuffer.OverrideNextSeq (sendBuf c) nextSeq in (ok, c <| sendBuf := sb |>).
Definition LastMsgNo (c : Conn) : Z := msgNumber c.

End Send.

(** ** What the bookkeeping leaves alone *)

(** The data packets handed to the host for the first time. *)
Definition original (o : Output.Output) : option Packet := match o with SendPacket p false => Some p | _ => None end.
Definition originals (c : Conn) : list Packet := omap original (sent c).

(** [c'] has the same sending state as [c] and has sent no new data. *)
Record side (c c' : Conn) : Prop := mkSide {
  sd_buf : sendBuf c' = sendBuf c;
  sd_queue : sendQueue c' = sendQueue c;
  sd_flow : flowWindow c' = flowWindow c;
  sd_rcv : rcvFlowWin c' = rcvFlowWin c;
  sd_cc : sendCC c' = sendCC c;
  sd_next : nextSendTime c' = nextSendTime c;
  sd_closed : closed c' = closed c;
  sd_state : state c' = state c;
  sd_ready : ready c' = ready c;
  sd_out : Fifo.wf (outputs c) -> Fifo.wf (outputs c') /\ originals c' = originals c
}.

#[local] Instance side_preorder : PreOrder side.
Proof.
  split.
  - intros c. by constructor.
  - intros a b c H1 H2. destruct H1, H2. constructor; try congruence.
    intros Hw. destruct (sd_out0 Hw) as [W1 E1], (sd_out1 W1) as [W2 E2]. split; [done|congruence].
Qed.

Lemma originals_push c o :
  Fifo.wf (outputs c) -> originals (out o c) = originals c ++ match original o with Some p => [p] | None => [] end.
Proof.
  intros Hw. unfold originals, sent, out. fields. rewrite Fifo.push_contents, omap_app by done.
  f_equal.
Qed.

Lemma side_out c o : original o = None -> side c (out o c).
Proof.
  intros Ho. constructor; try (unfold out; fields; done).
  intros Hw. rewrite originals_push, Ho, app_nil_r by done. split; [|done]. unfold out. fields. by apply Fifo.push_wf.
Qed.

Ltac side_upd :=
  match goal with
  | |- side ?c (@upd _ _ ?g ?F ?h ?r) =>
      transitivity r; [|generalize r; intros ?; constructor; fields; try done; unfold originals, sent; fields; done]
  | |- side ?c (out ?o ?r) => transitivity r; [|by apply side_out]
  | |- side ?c (arm _ _ ?r) => unfold arm
  | |- side ?c (send _ ?r) => unfold send
  | |- side ?c (event _ ?r) => unfold event
  end.
Ltac sides := repeat side_upd; try reflexivity.

Section Sending.
Context {P : Crypto.Primitives}.

Lemma sendKMREQ_side now k c : side c (KeyRotation.sendKMREQ now k c).
Proof.
  unfold KeyRotation.sendKMREQ. destruct (cryptoCtx c); [|done]. destruct (passphrase c); [done|].
  destruct (Crypto.MarshalKM _ _ _); [|done]. sides.
Qed.

Lemma checkKeyRotation_side now c : side c (KeyRotation.checkKeyRotation now c).
Proof.
  unfold KeyRotation.checkKeyRotation. fields. destruct (cryptoCtx c) as [ctx|]; [|sides].
  set (c0 := c <| kmPacketCount ::= bump 1 |>). assert (side c c0) as H0 by (unfold c0; sides).
  destruct (KeyRotation.announce now c0 ctx) as [c1|] eqn:Ea; [|transitivity c0; [done|]; sides].
  transitivity c0; [done|]. transitivity c1.
  - unfold KeyRotation.announce in Ea. destruct (_ && _); [|by injection Ea as <-]. cbv zeta in Ea.
    destruct (Crypto.GenerateSEK _ _ _); [|done]. injection Ea as <-. unfold arm. etransitivity; [|by apply side_out].
    etransitivity; [|apply sendKMREQ_side]. sides.
  - unfold KeyRotation.decommission, KeyRotation.switchKey. clear.
    transitivity (if kmPacketCount c1 >=? kmRefreshRate c1 then
      c1 <| activeKey ::= KeyRotation.oppositeKey |> <| kmPacketCount := 0 |> <| kmAnnounced := false |>
         <| kmDecommission := true |> <| kmSwitchCount := 0 |> else c1); [destruct (_ >=? _); sides|].
    generalize (if kmPacketCount c1 >=? kmRefreshRate c1 then
      c1 <| activeKey ::= KeyRotation.oppositeKey |> <| kmPacketCount := 0 |> <| kmAnnounced := false |>
         <| kmDecommission := true |> <| kmSwitchCount := 0 |> else c1). intros c2.
    destruct (kmDecommission c2); [|done]. destruct (_ >=? _); sides.
Qed.

Lemma drainFECSender_side s c : side c (drainFECSender s c).
Proof.
  unfold drainFECSender. generalize (S (length (Fec.pendingFEC s))). intros fuel. revert s c.
  induction fuel as [|fuel IH]; intros s c; cbn [drainFEC_loop]; [sides|].
  destruct (Fec.PackControlPacket s) as [[[[[data gi] sq] ts]|] s']; [|sides].
  etransitivity; [|apply IH]. sides.
Qed.

(** ** Sending one packet *)

(** The flow-control state, which sending does not touch. *)
Record kept (c c' : Conn) : Prop := mkKept {
  kp_flow : flowWindow c' = flowWindow c;
  kp_rcv : rcvFlowWin c' = rcvFlowWin c;
  kp_cwnd : Congestion.CongestionWindow (sendCC c') = Congestion.CongestionWindow (sendCC c);
  kp_closed : closed c' = closed c;
  kp_state : state c' = state c;
  kp_ready : ready c' = ready c
}.

#[local] Instance kept_preorder : PreOrder kept.
Proof. split; [intros c; by constructor|]. intros a b c [] []. constructor; congruence. Qed.

Lemma side_kept c c' : side c c' -> kept c c'.
Proof. intros []. constructor; congruence. Qed.

Lemma kept_window c c' : kept c c' -> window c' = window c.
Proof. intros [E1 E2 E3 _ _ _]. unfold window. by rewrite E1, E2, E3. Qed.

Lemma window_flow c : window c <= flowWindow c.
Proof.
  unfold window. destruct (Z.ltb_spec (rcvFlowWin c) (flowWindow c)), (rcvFlowWin c >? 0); cbn [andb];
    match goal with |- context [?a <? ?b] => destruct (Z.ltb_spec a b) end; lia.
Qed.

Definition entryOf (now : Z) (p : Packet) (f : frame) : SendBuffer.sendEntry :=
  let e := SendBuffer.pushed now p in if ttlNs f >? 0 then SendBuffer.setTTL e (ttlNs f) else e.

Lemma entryOf_pkt now p f : SendBuffer.pkt (entryOf now p f) = p.
Proof. unfold entryOf. by destruct (_ >? 0). Qed.
Lemma entryOf_used now p f : SendBuffer.used (entryOf now p f) = true.
Proof. unfold entryOf. by destruct (_ >? 0). Qed.

Lemma OnPacketSent_cwnd n sz cc : Congestion.CongestionWindow (Congestion.OnPacketSent n sz cc) = Congestion.CongestionWindow cc.
Proof.
  destruct cc as [cc|cc]; [done|]. cbn [Congestion.OnPacketSent Congestion.CongestionWindow].
  unfold Congestion.file_CongestionWindow, Congestion.file_OnPacketSent. by fields.
Qed.

Lemma afterPush_ok k q now seqNo p f c :
  SendBuffer.rep k (sendBuf c) (q ++ [SendBuffer.pushed now p]) -> Fifo.wf (outputs c) ->
  let c' := afterPush now seqNo p f c in
  SendBuffer.rep k (sendBuf c') (q ++ [entryOf now p f]) /\ kept c c' /\ sendQueue c' = sendQueue c /\
  nextSendTime c' = nextSendTime c /\ Fifo.wf (outputs c') /\ originals c' = originals c ++ [p] /\
  SendBuffer.nextSeq (sendBuf c') = SendBuffer.nextSeq (sendBuf c).
Proof.
  intros H Hw. unfold afterPush. cbv zeta.
  set (c1 := if ttlNs f >? 0 then _ else c). set (c2 := _ <| sendCC ::= _ |>).
  assert (SendBuffer.rep k (sendBuf c2) (q ++ [entryOf now p f])) as H2.
  { unfold c2, c1, out, entryOf. fields. destruct (ttlNs f >? 0); [|done]. fields. by apply SendBuffer.SetMsgTTL_rep. }
  assert (SendBuffer.nextSeq (sendBuf c2) = SendBuffer.nextSeq (sendBuf c)) as B2.
  { unfold c2, c1, out. fields. destruct (ttlNs f >? 0); fields; [|done]. unfold SendBuffer.SetMsgTTL.
    destruct (_ =? 0); [done|]. apply SendBuffer.setTTL_frame. }
  assert (kept c c2) as K2.
  { unfold c2, c1, out. constructor; fields; rewrite ?OnPacketSent_cwnd; destruct (ttlNs f >? 0); fields; done. }
  assert (sendQueue c2 = sendQueue c /\ nextSendTime c2 = nextSendTime c /\ Fifo.wf (outputs c2) /\
          originals c2 = originals c ++ [p]) as (Q2 & N2 & W2 & O2).
  { assert (outputs c1 = outputs c) as E1 by (unfold c1; destruct (ttlNs f >? 0); fields; done).
    split_and!; try (unfold c2, c1, out; destruct (ttlNs f >? 0); fields; done).
    - unfold c2, out. fields. rewrite E1. by apply Fifo.push_wf.
    - change (originals c ++ [p]) with (originals c ++ match original (SendPacket p false) with Some x => [x] | None => [] end). rewrite <- originals_push by done. unfold c2, originals, sent, out. fields. by rewrite E1. }
  clearbody c2. set (c3 := match fecSender c2 with Some s => _ | None => c2 end).
  assert (side c2 c3) as S3 by (unfold c3; destruct (fecSender c2); [apply drainFECSender_side|done]).
  set (c4 := match cryptoCtx c3 with Some _ => _ | None => c3 end).
  assert (side c3 c4) as S4.
  { unfold c4. destruct (cryptoCtx c3); [|done]. destruct (kmRefreshRate c3 >? 0); [apply checkKeyRotation_side|done]. }
  assert (side c2 c4) as S by (by transitivity c3). clearbody c4.
  pose proof (side_kept _ _ S) as K4. destruct S as [E1 E2 _ _ _ E6 _ _ _ E10]. destruct (E10 W2) as [W4 O4].
  rewrite E1, E2, E6, Q2, N2, O4, O2, B2. split_and!; try done. by transitivity c2.
Qed.

(** The packet of a frame carries its framing and the sequence number it got. *)
Definition framed (f : frame) (p : Packet) : Prop :=
  Packet.MessageNumber (Hdr p) = msgNo f /\ Packet.PacketPosition (Hdr p) = pos f /\ Packet.Order (Hdr p) = order f /\
  Packet.Retransmitted (Hdr p) = false.

Lemma encrypt_framed ctx key p seqNo f : framed f p -> framed f (encrypt ctx key p seqNo).
Proof.
  unfold framed, encrypt. intros (H1 & H2 & H3 & H4). cbv zeta.
  destruct (Crypto.EncryptPayload _ _ _ _ _); fields; done.
Qed.

Lemma encrypt_seq ctx key p seqNo : Packet.SequenceNumber (Hdr (encrypt ctx key p seqNo)) = Packet.SequenceNumber (Hdr p).
Proof. unfold encrypt. cbv zeta. destruct (Crypto.EncryptPayload _ _ _ _ _); fields; done. Qed.

Lemma buildData_ok c seqNo ts f :
  framed f (buildData c seqNo ts f) /\ Packet.SequenceNumber (Hdr (buildData c seqNo ts f)) = seqNo /\
  (cryptoCtx c = None -> Data (buildData c seqNo ts f) = payload f).
Proof.
  unfold buildData. set (p := if _ && _ then _ else _). cbv zeta. set (p' := p <| Hdr ::= _ |>).
  assert (framed f p' /\ Packet.SequenceNumber (Hdr p') = seqNo /\ Data p' = payload f) as (F & S & D).
  { unfold p', p, framed. destruct (_ && _); fields; done. }
  clearbody p'. destruct (cryptoCtx c); [|done]. split; [by apply encrypt_framed|]. by rewrite encrypt_seq.
Qed.

Lemma drainFECSender_crypto s c : cryptoCtx (drainFECSender s c) = cryptoCtx c.
Proof.
  unfold drainFECSender. generalize (S (length (Fec.pendingFEC s))). intros fuel. revert s c.
  induction fuel as [|fuel IH]; intros s c; cbn [drainFEC_loop]; [fields; done|].
  destruct (Fec.PackControlPacket s) as [[[[[data gi] sq] ts]|] s']; [|fields; done].
  rewrite IH. unfold send, out. by fields.
Qed.

Lemma afterPush_plain now seqNo p f c : cryptoCtx c = None -> cryptoCtx (afterPush now seqNo p f c) = None.
Proof.
  intros H. unfold afterPush. cbv zeta. set (c1 := if ttlNs f >? 0 then _ else c).
  assert (cryptoCtx c1 = None) as H1 by (unfold c1; destruct (ttlNs f >? 0); fields; done). clearbody c1.
  set (c2 := _ <| sendCC ::= _ |>). assert (cryptoCtx c2 = None) as H2 by (unfold c2, out; fields; done). clearbody c2.
  destruct (fecSender c2); rewrite ?drainFECSender_crypto, H2; [by rewrite drainFECSender_crypto|done].
Qed.

(** ** The sender's invariant *)

(** The send buffer is a queue without holes that the flow window fits in. *)
Record sinv (k : Z) (c : Conn) (q : list SendBuffer.sendEntry) : Prop := mkSinv {
  si_rep : SendBuffer.rep k (sendBuf c) q;
  si_used : Forall (fun e => SendBuffer.used e = true) q;
  si_cap : flowWindow c <= 2 ^ k;
  si_queue : Fifo.wf (sendQueue c);
  si_out : Fifo.wf (outputs c)
}.

Lemma used_count q : Forall (fun e => SendBuffer.used e = true) q -> SendBuffer.count_used q = len q.
Proof.
  unfold len. induction 1 as [|e q He _ IH]; [done|]. cbn [SendBuffer.count_used length]. rewrite He. cbn [SendBuffer.b2z]. lia.
Qed.

Lemma sinv_size k c q : sinv k c q -> SendBuffer.Size (sendBuf c) = len q.
Proof. intros H. unfold SendBuffer.Size. rewrite (SendBuffer.rep_size _ _ _ (si_rep _ _ _ H)). apply used_count, H. Qed.

Lemma sinv_kept k c c' q :
  sinv k c q -> SendBuffer.rep k (sendBuf c') q -> kept c c' -> Fifo.wf (sendQueue c') -> Fifo.wf (outputs c') -> sinv k c' q.
Proof. intros [H1 H2 H3 H4 H5] Hr [E1 _ _ _ _ _] Hq Ho. constructor; try done. by rewrite E1. Qed.

Lemma side_sinv k c c' q : side c c' -> sinv k c q -> sinv k c' q.
Proof.
  intros S H. pose proof (side_kept _ _ S) as K. destruct S as [E1 E2 _ _ _ _ _ _ _ E10].
  destruct (E10 (si_out _ _ _ H)) as [W _]. apply (sinv_kept k c); try done; rewrite ?E1, ?E2; apply H.
Qed.

Lemma sendData_ok k q now ts f c :
  sinv k c q -> len q < 2 ^ k ->
  let seqNo := SendBuffer.NextSeq (sendBuf c) in
  let p := buildData c seqNo ts f in
  let c' := sendData now seqNo ts f c in
  sinv k c' (q ++ [entryOf now p f]) /\ kept c c' /\ sendQueue c' = sendQueue c /\ nextSendTime c' = nextSendTime c /\
  originals c' = originals c ++ [p] /\ (cryptoCtx c = None -> cryptoCtx c' = None) /\
  SendBuffer.nextSeq (sendBuf c') = Seq.sadd (SendBuffer.nextSeq (sendBuf c)) 1.
Proof.
  intros H Hl. cbv zeta. unfold sendData. set (p := buildData _ _ _ _). pose proof H as [H1 H2 H3 H4 H5].
  pose proof (SendBuffer.rep_len H1) as (_ & _ & Hlen).
  assert (SendBuffer.Push (sendBuf c) p [now] = (true, SendBuffer.push1 now (sendBuf c) p)) as ->.
  { unfold SendBuffer.Push. rewrite (SendBuffer.rep_size _ _ _ H1), Hlen, Z.geb_leb, used_count by done.
    destruct (Z.leb_spec (2 ^ k) (len q)); [lia|done]. }
  pose proof (SendBuffer.push1_rep k (sendBuf c) q p now H1 Hl) as Hp. cbn [negb].
  set (c1 := c <| sendBuf := _ |>).
  assert (kept c c1) as K1 by (constructor; unfold c1; fields; done).
  destruct (afterPush_ok k q now (SendBuffer.NextSeq (sendBuf c)) p f c1) as (A1 & A2 & A3 & A4 & A5 & A6 & A7);
    [unfold c1; fields; done|unfold c1; fields; done|].
  assert (kept c (afterPush now (SendBuffer.NextSeq (sendBuf c)) p f c1)) as K by (by transitivity c1).
  assert (sendQueue c1 = sendQueue c /\ nextSendTime c1 = nextSendTime c /\ originals c1 = originals c) as (E1 & E2 & E3)
    by (unfold c1, originals, sent; fields; done).
  rewrite A3, A4, A6, E1, E2, E3. split_and!; try done.
  - constructor; try done; [|by rewrite (kp_flow _ _ K)|by rewrite A3, E1].
    apply Forall_app. split; [done|]. constructor; [apply entryOf_used|constructor].
  - intros Hc. apply afterPush_plain. unfold c1. by fields.
  - rewrite A7. unfold c1. fields. unfold SendBuffer.push1, SendBuffer.put. cbn [SendBuffer.nextSeq SendBuffer.setSize SendBuffer.setNext].
    rewrite (SendBuffer.rep_next _ _ _ H1). apply Seq.Inc_sadd, Seq.sadd_seq.
Qed.

(** ** Pumping *)

Definition frames (c : Conn) : list frame := Fifo.contents (sendQueue c).
Definition seqOf (e : SendBuffer.sendEntry) : Z := Packet.SequenceNumber (Hdr (SendBuffer.pkt e)).
Definition dataOf (e : SendBuffer.sendEntry) : list Z := Data (SendBuffer.pkt e).

(** [new] are the packets of the frames [fs], sent from sequence number [s] on. *)
Record sends (c : Conn) (s : Z) (fs : list frame) (new : list SendBuffer.sendEntry) : Prop := mkSends {
  sn_framed : Forall2 framed fs (map SendBuffer.pkt new);
  sn_seq : map seqOf new = Seq.seqs s (length new);
  sn_data : cryptoCtx c = None -> map dataOf new = map payload fs
}.

(** Why the pump stops: nothing is left, the window is full, or the next packet
    is not due, and then the pacing timer is the last thing that was armed. *)
Definition stopped (now : Z) (w inflight : Z) (c : Conn) : Prop :=
  frames c = [] \/ w <= inflight \/
  (now < nextSendTime c /\ exists l, sent c = l ++ [SetTimer TimerSndPacing (nextSendTime c)]).

Lemma arm_originals c id t : Fifo.wf (outputs c) -> originals (arm id t c) = originals c /\ sent (arm id t c) = sent c ++ [SetTimer id t].
Proof.
  intros Hw. unfold arm. rewrite originals_push by done. simpl. rewrite app_nil_r. split; [done|].
  unfold sent, out. fields. by rewrite Fifo.push_contents.
Qed.

Lemma pump_loop_ok k now fuel : forall c q,
  sinv k c q -> (length (frames c) < fuel)%nat ->
  let c' := pump_loop fuel now c in
  exists n new, (n <= length (frames c))%nat /\ sinv k c' (q ++ new) /\ kept c c' /\ frames c' = drop n (frames c) /\
    sends c (SendBuffer.nextSeq (sendBuf c)) (take n (frames c)) new /\ originals c' = originals c ++ map SendBuffer.pkt new /\
    (n <> 0%nat -> len q + Z.of_nat n <= window c) /\ stopped now (window c) (len q + Z.of_nat n) c'.
Proof.
  induction fuel as [|fuel IH]; intros c q H Hf; [lia|]. cbv zeta. cbn [pump_loop]. pose proof H as [H1 H2 H3 H4 H5].
  rewrite (Fifo.len_contents _ H4). fold (frames c).
  assert (forall c', c' = c -> stopped now (window c) (len q + Z.of_nat 0) c ->
    exists n new, (n <= length (frames c))%nat /\ sinv k c' (q ++ new) /\ kept c c' /\ frames c' = drop n (frames c) /\
    sends c (SendBuffer.nextSeq (sendBuf c)) (take n (frames c)) new /\ originals c' = originals c ++ map SendBuffer.pkt new /\
    (n <> 0%nat -> len q + Z.of_nat n <= window c) /\ stopped now (window c) (len q + Z.of_nat n) c') as Hstay.
  { intros c' -> Hst. exists 0%nat, []. rewrite !app_nil_r, drop_0. split_and!; try done; try lia. }
  destruct (Z.gtb_spec (Z.of_nat (length (frames c))) 0) as [Hpos|Hz].
  2: { apply Hstay; [done|]. left. destruct (frames c); [done|simpl in Hz; lia]. }
  rewrite (sinv_size k c q H). destruct (Z.geb_spec (len q) (window c)) as [Hfull|Hroom].
  { apply Hstay; [done|]. right; left. lia. }
  destruct (negb (Clock.IsZero (nextSendTime c)) && Clock.Before now (nextSendTime c)) eqn:Epace.
  { destruct (arm_originals c TimerSndPacing (nextSendTime c) H5) as [E1 E2].
    assert (side c (arm TimerSndPacing (nextSendTime c) c)) as SD by sides.
    exists 0%nat, []. cbn [map take]. rewrite !app_nil_r, drop_0. split_and!; try done; try lia; try (by apply side_kept); [by apply (side_sinv k c)|].
    right; right. apply andb_true_iff in Epace as [_ Hb]. unfold Clock.Before in Hb. rewrite (sd_next _ _ SD).
    split; [lia|]. by exists (sent c). }
  pose proof (Fifo.pop_contents zeroFrame (sendQueue c) H4) as Hpop. fold (frames c) in Hpop.
  destruct (Fifo.pop zeroFrame (sendQueue c)) as [[f ok] qu]. destruct (frames c) as [|f0 fs] eqn:Ef; [simpl in Hpos; lia|].
  destruct Hpop as (W1 & -> & -> & C1). unfold sendOne. set (c1 := c <| sendQueue := qu |>).
  assert (sinv k c1 q) as S1 by (constructor; unfold c1; fields; done).
  pose proof (window_flow c) as Hwf.
  set (ts := if srcTime f0 =? 0 then _ else _).
  destruct (sendData_ok k q now ts f0 c1 S1 ltac:(lia)) as (D1 & D2 & D3 & D4 & D5 & D6 & D7).
  set (c2 := sendData _ _ _ _ c1) in *. set (e := entryOf now _ f0) in *.
  set (c3 := c2 <| nextSendTime ::= _ |>).
  assert (kept c1 c3) as K3 by (transitivity c2; [done|]; constructor; unfold c3; fields; done).
  assert (kept c c3) as K3' by (transitivity c1; [constructor; unfold c1; fields; done|done]).
  assert (frames c3 = fs) as F3 by (unfold frames, c3; fields; rewrite D3; unfold c1; fields; done).
  destruct (IH c3 (q ++ [e])) as (n & new & N1 & N2 & N3 & N4 & N5 & N6 & N7 & N8).
  { destruct D1. constructor; unfold c3; fields; done. }
  { rewrite F3. simpl in Hf. lia. }
  rewrite F3, (kept_window _ _ K3'), SendBuffer.len_snoc in *.
  destruct (buildData_ok c1 (SendBuffer.NextSeq (sendBuf c1)) ts f0) as (B1 & B2 & B3).
  assert (SendBuffer.pkt e = buildData c1 (SendBuffer.NextSeq (sendBuf c1)) ts f0) as Ee by apply entryOf_pkt.
  assert (sendBuf c1 = sendBuf c /\ cryptoCtx c1 = cryptoCtx c /\ originals c1 = originals c) as (Q1 & Q2 & Q3)
    by (unfold c1, originals, sent; fields; done).
  assert (sendBuf c3 = sendBuf c2 /\ cryptoCtx c3 = cryptoCtx c2 /\ originals c3 = originals c2) as (R1 & R2 & R3)
    by (unfold c3, originals, sent; fields; done).
  exists (S n), (e :: new). cbn [drop take length map]. rewrite (cons_middle e q new), app_assoc.
  replace (len q + Z.of_nat (S n)) with (len q + 1 + Z.of_nat n) by lia.
  split; [lia|]. split; [done|]. split; [by transitivity c3|]. split; [done|]. split; [|split; [|split; [lia|done]]].
  - destruct N5 as [X1 X2 X3]. constructor; cbn [map length Seq.seqs].
    + constructor; [by rewrite Ee|done].
    + unfold seqOf at 1. rewrite Ee, B2, X2, R1, D7, Q1. f_equal. unfold SendBuffer.NextSeq. 
      rewrite <- Seq.Inc_sadd; [done|]. rewrite (SendBuffer.rep_next _ _ _ H1). apply Seq.sadd_seq.
    + intros Hc. unfold dataOf at 1. rewrite Ee, B3 by (by rewrite Q2). f_equal. apply X3. rewrite R2. apply D6. by rewrite Q2.
  - rewrite N6, R3, D5, Q3, <- app_assoc. f_equal. cbn [app]. by rewrite Ee.
Qed.

Lemma pump_loop_next k now fuel : forall c q, sinv k c q ->
  exists n, frames (pump_loop fuel now c) = drop n (frames c) /\ (n <= length (frames c))%nat /\
    SendBuffer.nextSeq (sendBuf (pump_loop fuel now c)) = Seq.sadd (SendBuffer.nextSeq (sendBuf c)) (Z.of_nat n).
Proof.
  induction fuel as [|fuel IH]; intros c q H; pose proof H as [H1 H2 H3 H4 H5];
    assert (Seq.is_seq (SendBuffer.nextSeq (sendBuf c))) as Hn by (rewrite (SendBuffer.rep_next _ _ _ H1); apply Seq.sadd_seq);
    assert (forall c', frames c' = frames c -> sendBuf c' = sendBuf c -> exists n, frames c' = drop n (frames c) /\ (n <= length (frames c))%nat /\
      SendBuffer.nextSeq (sendBuf c') = Seq.sadd (SendBuffer.nextSeq (sendBuf c)) (Z.of_nat n)) as Hstay
      by (intros c' E1 E2; exists 0%nat; rewrite drop_0, E2, Seq.sadd_0 by done; split_and!; [done|lia|done]); [by apply Hstay|].
  cbn [pump_loop]. rewrite (Fifo.len_contents _ H4). fold (frames c). destruct (Z.gtb_spec (Z.of_nat (length (frames c))) 0); [|by apply Hstay].
  rewrite (sinv_size k c q H). destruct (Z.geb_spec (len q) (window c)); [by apply Hstay|].
  destruct (_ && _); [apply Hstay; unfold arm, out, frames; by fields|].
  pose proof (Fifo.pop_contents zeroFrame (sendQueue c) H4) as Hpop. fold (frames c) in Hpop.
  destruct (Fifo.pop zeroFrame (sendQueue c)) as [[f ok] qu]. destruct (frames c) as [|f0 fs] eqn:Ef; [simpl in *; lia|].
  destruct Hpop as (W1 & -> & -> & C1). unfold sendOne. set (c1 := c <| sendQueue := qu |>).
  assert (sinv k c1 q) as S1 by (constructor; unfold c1; fields; done). pose proof (window_flow c).
  match goal with |- context [sendData now _ ?ts f0 c1] => destruct (sendData_ok k q now ts f0 c1 S1 ltac:(lia)) as (D1 & _ & D3 & _ & _ & _ & D7) end.
  set (c2 := sendData _ _ _ _ c1) in *. set (c3 := c2 <| nextSendTime ::= _ |>).
  assert (frames c3 = fs) as F3 by (unfold frames, c3; fields; rewrite D3; unfold c1; fields; done).
  edestruct (IH c3) as (n & N1 & N2 & N3); [destruct D1; constructor; unfold c3; fields; done|].
  exists (S n). rewrite N1, F3, N3. rewrite F3 in N2. split; [done|]. split; [simpl; lia|]. unfold c3. fields. rewrite D7.
  unfold c1. fields. rewrite Seq.sadd_sadd. f_equal. lia.
Qed.

Lemma drop_inj {A} (l : list A) n m : (n <= length l)%nat -> (m <= length l)%nat -> drop n l = drop m l -> n = m.
Proof. intros Hn Hm E. apply (f_equal length) in E. rewrite !length_drop in E. lia. Qed.

(** The packets that [checkSendDrop] gives up on. *)
Definition given_up (now : Z) (c : Conn) (q : list SendBuffer.sendEntry) : nat :=
  if ((sendDropThresh c <=? 0) && negb (msgTTLActive c)) || negb (ready c) then 0
  else SendBuffer.prefix_len (SendBuffer.tooLate now (sendDropThresh c)) q.

Lemma checkSendDrop_ok k now c q :
  sinv k c q ->
  let c' := checkSendDrop now c in
  sinv k c' (drop (given_up now c q) q) /\ kept c c' /\ sendQueue c' = sendQueue c /\ nextSendTime c' = nextSendTime c /\
  originals c' = originals c /\ cryptoCtx c' = cryptoCtx c /\
  SendBuffer.nextSeq (sendBuf c') = SendBuffer.nextSeq (sendBuf c).
Proof.
  intros H. pose proof H as [H1 H2 H3 H4 H5]. cbv zeta. unfold checkSendDrop, given_up.
  destruct ((_ && _) || _); [by rewrite drop_0|].
  destruct (SendBuffer.DropTooLateSend_rep k (sendBuf c) q now (sendDropThresh c) H1) as (sb & -> & R1 & R2).
  set (n := SendBuffer.prefix_len _ q) in *. set (c1 := c <| sendBuf := sb |>).
  assert (SendBuffer.nextSeq sb = SendBuffer.nextSeq (sendBuf c)) as En.
  { rewrite (SendBuffer.rep_next _ _ _ R1), (SendBuffer.rep_next _ _ _ H1), R2, Seq.sadd_sadd by apply H1.
    f_equal. unfold len. rewrite length_drop.
    assert (n <= length q)%nat; [|lia]. unfold n. clear. induction q as [|e q IH]; cbn; [lia|]. destruct (SendBuffer.tooLate _ _ e); lia. }
  assert (sinv k c1 (drop n q)) as S1.
  { constructor; unfold c1; fields; try done. by apply Forall_drop. }
  assert (kept c c1) as K1 by (constructor; unfold c1; fields; done).
  assert (sendQueue c1 = sendQueue c /\ nextSendTime c1 = nextSendTime c /\ originals c1 = originals c /\
          cryptoCtx c1 = cryptoCtx c /\ sendBuf c1 = sb) as (E1 & E2 & E3 & E4 & E5)
    by (unfold c1, originals, sent; fields; done).
  destruct (Z.of_nat n =? 0); [split_and!; try done; by rewrite E5|].
  set (c2 := emitDropReq _ _ _ _).
  assert (side c1 c2) as SD by (unfold c2, emitDropReq; sides).
  assert (cryptoCtx c2 = cryptoCtx c1) as E6 by (unfold c2, emitDropReq, send, out; fields; done).
  clearbody c2. split; [by apply (side_sinv k c1)|]. split; [transitivity c1; [done|by apply side_kept]|].
  rewrite (sd_queue _ _ SD), (sd_next _ _ SD), (sd_buf _ _ SD), E5, E6, (proj2 (sd_out _ _ SD (si_out _ _ _ S1))). done.
Qed.

Lemma pump_ok k now c q :
  sinv k c q ->
  let c' := pump now c in
  let q0 := drop (given_up now c q) q in
  exists n new, (n <= length (frames c))%nat /\ sinv k c' (q0 ++ new) /\ kept c c' /\ frames c' = drop n (frames c) /\
    sends c (SendBuffer.nextSeq (sendBuf c)) (take n (frames c)) new /\ originals c' = originals c ++ map SendBuffer.pkt new /\
    (n <> 0%nat -> len q0 + Z.of_nat n <= window c) /\ stopped now (window c) (len q0 + Z.of_nat n) c' /\
    SendBuffer.nextSeq (sendBuf c') = Seq.sadd (SendBuffer.nextSeq (sendBuf c)) (Z.of_nat n).
Proof.
  intros H. destruct (checkSendDrop_ok k now c q H) as (A1 & A2 & A3 & A4 & A5 & A6 & A7). cbv zeta. unfold pump.
  set (c1 := checkSendDrop now c) in *. pose proof (Fifo.len_contents _ (si_queue _ _ _ A1)) as El.
  assert (frames c1 = frames c) as Ef by (unfold frames; by rewrite A3).
  destruct (pump_loop_ok k now (S (Z.to_nat (Fifo.len (sendQueue c1)))) c1 _ A1) as (n & new & N1 & N2 & N3 & N4 & N5 & N6 & N7 & N8).
  { rewrite El. unfold frames. lia. }
  destruct (pump_loop_next k now (S (Z.to_nat (Fifo.len (sendQueue c1)))) c1 _ A1) as (n' & M1 & M2 & M3).
  rewrite N4 in M1. apply drop_inj in M1 as <-; [|done|done].
  rewrite Ef, A5, A7, (kept_window _ _ A2) in *. exists n, new. split_and!; try done; [by transitivity c1|].
  destruct N5 as [X1 X2 X3]. constructor; try done. by rewrite <- A6.
Qed.

End Sending.

End ConnSend.
