(* ===== verification/ConnRecv.v ===== *)
(** * The receive path of a connection ([internal/core/conn.go])

    From a received packet to the application: decryption, FEC, insertion into
    the receive buffer, delivery, and the reports to the sender (ACK, ACKACK,
    NAK with its reorder tolerance).  The map of deferred losses is a set whose
    iteration order is not specified: it is an operation of [RangeOrder]. *)
From Stdlib Require Import ZArith Lia.
From stdpp Require Import base numbers list option gmap.
From S2P Require Import Prelude Seq Packet Control Clock Tsbpd Ring RecvBuffer Fifo Output Delivery FilterConfig FecReceiver Crypto Float64 Congestion ConnState ConnSend.
Import Packet(Packet, Hdr, Data, PositionSingle, EncryptionNone).
Import Output(SendPacket, TimerACK, TimerNAK).
Import ConnState.
Local Open Scope Z_scope.
#[local] Existing Instance FilterConfig.ARQLevel_eq_dec.

Module ConnRecv.

(** The order in which [range] visits a map. *)
Class RangeOrder : Type := {
  range : gset Z -> list Z;
  range_perm : forall s, range s ≡ₚ elements s
}.

(** ** Delivery *)

(** The fields of the connection the delivery functions work on. *)
Definition theTimer (c : Conn) : Tsbpd.Timer := default (Tsbpd.New 0 0) (tsbpdTimer c).
Definition pathOf (c : Conn) : Delivery.Path Tsbpd.Timer :=
  Delivery.mkPath (recvBuf c) (theTimer c) (recvDropped c) (events c) (outputs c).
Definition setPath (c : Conn) (p : Delivery.Path Tsbpd.Timer) : Conn :=
  c <| recvBuf := Delivery.recvBuf p |> <| tsbpdTimer ::= option_map (fun _ => Delivery.tsbpdTimer p) |>
    <| recvDropped := Delivery.recvDropped p |> <| events := Delivery.events p |> <| outputs := Delivery.outputs p |>.

Definition deliver (c : Conn) : Conn := setPath c (fst (Delivery.deliver (pathOf c))).
Definition deliverTSBPD (now : Z) (c : Conn) : Conn :=
  setPath c (fst (Delivery.deliverTSBPD (P := Delivery.Timer_Playout) now (pathOf c))).

(** A message that was read is never empty: the panic of [pkts[0]] is not
    reached.  Every read takes packets out of the buffer. *)
Fixpoint deliverMessages_loop (fuel : nat) (c : Conn) : Conn :=
  match fuel with
  | O => c
  | S fuel' =>
      let '(pkts, ok, rb) := RecvBuffer.ReadMessage (recvBuf c) in
      let c := c <| recvBuf := rb |> in
      if negb ok then c else
      match Delivery.emitMessage (pathOf c) pkts with
      | Some p => deliverMessages_loop fuel' (setPath c p)
      | None => c
      end
  end.
Definition deliverMessages (c : Conn) : Conn :=
  deliverMessages_loop (S (Z.to_nat (RecvBuffer.size (recvBuf c)))) c.

Definition deliverNow (now : Z) (c : Conn) : Conn :=
  match tsbpdTimer c with
  | Some _ => deliverTSBPD now c
  | None => if messageMode c then deliverMessages c else deliver c
  end.

Definition handleDropReq (now : Z) (p : Packet) (c : Conn) : Conn :=
  match Control.CIFDropReq_UnmarshalCIF (Control.mkDropReq 0 0) (Data p) with
  | Err _ => c
  | Ok dr =>
      let '(dropped, rb, t) := RecvBuffer.Drop (recvBuf c) (Seq.Inc (Control.LastSeqNo dr)) (theTimer c) in
      let c := c <| recvBuf := rb |> <| tsbpdTimer ::= option_map (fun _ => t) |> in
      let c := if dropped >? 0 then c <| recvDropped ::= bump (u64 dropped) |> else c in
      deliverNow now c
  end.

(** ** NAKs *)

Definition emitNAK (now : Z) (losses : list Z) (c : Conn) : Conn :=
  match losses with
  | [] => c
  | _ =>
      let p := Packet.SetData (control c Packet.CtrlTypeNAK now) (Control.CIFNAK_MarshalCIF (Control.mkNAK losses)) in
      (send p c) <| sentNAKs ::= bump 1 |>
  end.

(** The sequence numbers from [s] to [end_], at most [n] of them. *)
Fixpoint lossRange (n : nat) (s end_ : Z) : list Z :=
  match n with
  | O => []
  | S n' => Seq.Value s :: (if s =? end_ then [] else lossRange n' (Seq.Inc s) end_)
  end.

Definition maxNAKLosses : nat := Z.to_nat 10000.

Definition sendImmediateNAK (now gapStart gapEnd : Z) (c : Conn) : Conn :=
  emitNAK now (lossRange maxNAKLosses gapStart gapEnd) c.

Definition sendPeriodicNAK (now : Z) (c : Conn) : Conn :=
  let '(losses, rb) := RecvBuffer.GenerateLossList (recvBuf c) in
  emitNAK now losses (c <| recvBuf := rb |>).

(** The loop visits the numbers from [start] to [end_]: one more than the
    distance between them. *)
Definition deferGap (start end_ : Z) (c : Conn) : Conn :=
  c <| deferredLoss ::= option_map (fun s => fold_left (fun s x => {[x]} ∪ s)
                          (lossRange (S (Z.to_nat (Seq.gap start end_))) start end_) s) |>.

Definition reportGap (now gapStart gapEnd : Z) (c : Conn) : Conn :=
  if (reorderTolerance c =? 0) || negb (bool_decide (is_Some (deferredLoss c))) then sendImmediateNAK now gapStart gapEnd c else
  let gapSize := Seq.Distance gapStart gapEnd + 1 in
  if gapSize <=? reorderTolerance c then deferGap gapStart gapEnd c else
  let deferStart := Nat.iter (Z.to_nat (reorderTolerance c - 1)) Seq.Dec gapEnd in
  let c := sendImmediateNAK now gapStart (Seq.Value (Seq.Dec deferStart)) c in
  deferGap deferStart gapEnd c.

Section Reports.
Context {O : RangeOrder}.

Definition flush1 (now fr : Z) (c : Conn) (s : Z) : Conn :=
  if Seq.Distance s fr >? reorderTolerance c then
    (sendImmediateNAK now s s c) <| deferredLoss ::= option_map (fun m => m ∖ {[s]}) |>
  else c.

Definition flushDeferredLoss (now frontier : Z) (c : Conn) : Conn :=
  match deferredLoss c with
  | Some m => fold_left (flush1 now frontier) (range m) c
  | None => c
  end.

Definition nakInterval (c : Conn) : Z :=
  let base := Congestion.UpdateNAKInterval (i64 (rtt c + i64 (4 * rttVar c))) (sendCC c) in
  let minNak := Congestion.MinNAKInterval (sendCC c) in
  let minNak := if minNak =? 0 then defaultMinNAKInterval else minNak in
  if base <? minNak then minNak else base.

Definition SetReorderTolerance (n : Z) (c : Conn) : Conn :=
  let n := if n <? 0 then 0 else n in
  let c := c <| reorderTolerance := n |> in
  if (n >? 0) && negb (bool_decide (is_Some (deferredLoss c))) then c <| deferredLoss := Some ∅ |> else c.

(** ** ACKs *)

Definition sendFullACK (now : Z) (c : Conn) : Conn :=
  let ackSeq := RecvBuffer.ACKSequence (recvBuf c) in
  let needFull := Clock.Sub now (lastFullACKTime c) >=? synInterval in
  if (ackSeq =? rcvLastAckAck c) && negb needFull then c else
  let c := c <| ackSeqNo ::= fun n => let n := u32 (n + 1) in if n =? 0 then u32 (n + 1) else n |> in
  let '(pktRate, capacity, bytesRate) :=
    if needFull then
      let '(pktRate, bytesRate) := Congestion.DeliveryRate (sendCC c) in
      (pktRate, Congestion.EstimatedBandwidth (sendCC c), bytesRate)
    else (0, 0, 0) in
  let ack := Control.mkACK (Seq.Value ackSeq) (u32 (rtt c)) (u32 (rttVar c))
               (u32 (RecvBuffer.AvailableSize (recvBuf c) ackSeq)) pktRate capacity bytesRate in
  let p := (control c Packet.CtrlTypeACK now) <| Hdr ::= fun h => h <| Packet.TypeSpecific := ackSeqNo c |> |> in
  let p := Packet.SetData p (Control.CIFACK_MarshalCIF ack) in
  let slot := Z.to_nat (Z.land (ackSeqNo c) (ackTimeSlots - 1)) in
  let c := c <| ackSlots ::= <[slot := mkSlot (ackSeqNo c) now (Seq.Value ackSeq) true]> |> in
  (send p c) <| sentACKs ::= bump 1 |> <| lastFullACKTime := now |> <| rcvPktCount := 0 |> <| lightACKCount := 1 |>.

Definition sendLiteACK (now : Z) (c : Conn) : Conn :=
  let ackSeq := RecvBuffer.ACKSequence (recvBuf c) in
  let p := Packet.SetData (control c Packet.CtrlTypeACK now) (PutUint32 (make 4) 0 (Seq.Value ackSeq)) in
  (send p c) <| sentACKs ::= bump 1 |>.

(** The round-trip estimate after a sample. *)
Definition smoothRTT (sample : Z) (c : Conn) : Conn :=
  if (sample >? 0) && (sample <? rttSanityCap) then
    if rtt c =? 0 then c <| rtt := sample |> <| rttVar := Z.quot sample 2 |>
    else
      let c := c <| rtt := Z.quot (i64 (i64 (rtt c * 7) + sample)) 8 |> in
      let diff := Clock.Abs (i64 (sample - rtt c)) in
      c <| rttVar := Z.quot (i64 (i64 (rttVar c * 3) + diff)) 4 |>
  else c.

Definition handleACKACK (now : Z) (p : Packet) (c : Conn) : Conn :=
  let c := c <| recvACKACKs ::= bump 1 |> in
  let ackNo_ := Packet.TypeSpecific (Hdr p) in
  let slot := Z.to_nat (Z.land ackNo_ (ackTimeSlots - 1)) in
  let e := nth slot (ackSlots c) zeroSlot in
  if negb (valid e) || negb (ackNo e =? ackNo_) then c else
  let c := c <| ackSlots ::= <[slot := mkSlot (ackNo e) (sendTime e) (dataSeq e) false]> |> in
  let sample := Clock.Sub now (sendTime e) in
  let c := smoothRTT sample c in
  let c := if Seq.GreaterThan (dataSeq e) (rcvLastAckAck c) then c <| rcvLastAckAck := dataSeq e |> else c in
  let rttSample := if (sample >? 0) && (sample <? rttSanityCap) then sample else -1 in
  let ts := Packet.Timestamp (Hdr p) in
  c <| tsbpdTimer ::= option_map (fun t => Tsbpd.OnACK (Tsbpd.UpdateWrap t ts) ts now rttSample) |>.

(** ** Data *)

Context {P : Crypto.Primitives}.

Definition decrypt (p : Packet) (c : Conn) : bool * Packet * Conn :=
  match cryptoCtx c with
  | None => (true, p, c)
  | Some ctx =>
      if rcvKmState c =? kmStateSecuring then (false, p, c) else
      let h := Hdr p in
      if Packet.Encryption h =? EncryptionNone then (false, p, c <| recvUndecrypt ::= bump 1 |>) else
      let aad := if Crypto.mode ctx =? Crypto.CipherGCM
                 then ConnSend.headerBytes (h <| Packet.Retransmitted := false |>) else [] in
      match Crypto.DecryptPayload ctx (Data p) aad (Packet.Encryption h) (Packet.SequenceNumber h) with
      | Err _ => (false, p, c <| recvUndecrypt ::= bump 1 |>)
      | Ok dec => (true, p <| Data := dec |>, c)
      end
  end.

(** The packet rebuilt from what FEC recovered. *)
Definition recoveredPacket (c : Conn) (rp : FecReceiver.RecoveredPacket) : Packet :=
  let p := Packet.NewData None (FecReceiver.SeqNo rp) (FecReceiver.Timestamp rp) (peerSocketID c) (FecReceiver.Payload rp) in
  p <| Hdr ::= fun h => h <| Packet.MessageNumber := 1 |> <| Packet.PacketPosition := PositionSingle |>
                         <| Packet.Encryption := FecReceiver.EncFlag rp |> <| Packet.Retransmitted := true |> |>.

Definition insertRecovered1 (now : Z) (c : Conn) (rp : FecReceiver.RecoveredPacket) : Conn :=
  let p := recoveredPacket c rp in
  let wireBytes := len (Data p) in
  let '(ok, p, c) := decrypt p c in
  if negb ok then c else
  let '(res, rb) := RecvBuffer.Insert (recvBuf c) p now in
  let c := c <| recvBuf := rb |> in
  if RecvBuffer.Inserted res
  then c <| recvPackets ::= bump 1 |> <| recvBytes ::= bump wireBytes |> <| recvFECRecov ::= bump 1 |> else c.

Definition insertRecovered (now : Z) (rec : list FecReceiver.RecoveredPacket) (c : Conn) : Conn :=
  fold_left (insertRecovered1 now) rec c.

(** A packet that the buffer did not take: it may be belated. *)
Definition noteBelated (now : Z) (p : Packet) (belatedBefore : bool) (c : Conn) : Conn :=
  if belatedBefore then
    let c := c <| recvBelated ::= bump 1 |> <| recvBelatedBytes ::= bump (len (Data p)) |> in
    match tsbpdTimer c with
    | Some t =>
        let late := Clock.Sub now (Tsbpd.DeliveryTime t (Packet.Timestamp (Hdr p))) in
        if late >? 0 then
          c <| recvAvgBelatedUS ::= fun avg =>
                 if Float64.feq avg (Float64.ofZ 0) then Float64.ofZ late
                 else Float64.fadd (Float64.fmul avg (Float64.lit 7 8)) (Float64.fmul (Float64.ofZ late) (Float64.lit 1 8)) |>
        else c
    | None => c
    end
  else c.

(** The deferred report of a packet that was merely reordered is cancelled. *)
Definition cancelDeferred (s : Z) (c : Conn) : Conn :=
  match deferredLoss c with
  | None => c
  | Some m =>
      let c := if bool_decide (s ∈ m) then
                 let d := i32 (Seq.Distance s (RecvBuffer.MaxSeq (recvBuf c))) in
                 if d >? recvReorderDist c then c <| recvReorderDist := d |> else c
               else c in
      c <| deferredLoss := Some (m ∖ {[s]}) |>
  end.

Definition anchorTimer (now : Z) (p : Packet) (c : Conn) : Conn :=
  match tsbpdTimer c with
  | None => c
  | Some t =>
      let ts := Packet.Timestamp (Hdr p) in
      let t := if tsbpdBaseSet c then t else Tsbpd.SetTimeBase t (Clock.Add now (i64 (- ts))) in
      c <| tsbpdBaseSet := true |> <| tsbpdTimer := Some (Tsbpd.UpdateWrap t ts) |>
  end.

(** The repair packet of the FEC engine. *)
Definition handleFEC (now : Z) (p : Packet) (r : FecReceiver.FECReceiver) (c : Conn) : Conn :=
  let h := Hdr p in
  let '(res, r, _) := FecReceiver.Receive r (Packet.SequenceNumber h) (Packet.Timestamp h) (u8 (Packet.Encryption h))
                        (Packet.MessageNumber h) (Data p) in
  let c := insertRecovered now (FecReceiver.recovered res) (c <| fecReceiver := Some r |>) in
  let c := match FecReceiver.lossReport res with [] => c | losses => emitNAK now losses c end in
  deliverNow now c.

Definition feedFEC (now : Z) (p : Packet) (fecData : list Z) (c : Conn) : Conn :=
  match fecReceiver c with
  | None => c
  | Some r =>
      let h := Hdr p in
      let '(res, r, _) := FecReceiver.Receive r (Packet.SequenceNumber h) (Packet.Timestamp h) (u8 (Packet.Encryption h))
                            (Packet.MessageNumber h) fecData in
      insertRecovered now (FecReceiver.recovered res) (c <| fecReceiver := Some r |>)
  end.

Definition nakOwnLosses (c : Conn) : bool :=
  match fecReceiver c with None => true | Some _ => bool_decide (fecARQLevel c = FilterConfig.ARQAlways) end.

(** What follows an insertion. *)
Definition accepted (now : Z) (p : Packet) (wireBytes : Z) (fecData : list Z) (res : RecvBuffer.InsertResult) (c : Conn) : Conn :=
  let s := Packet.SequenceNumber (Hdr p) in
  let c := cancelDeferred s (c <| groupIdle := false |>) in
  let c := c <| rcvPktCount ::= ibump 1 |> <| recvPackets ::= bump 1 |> <| recvBytes ::= bump wireBytes |> in
  let c := c <| sendCC ::= Congestion.OnPktArrival (len (Data p)) now |> in
  let c := if Packet.Retransmitted (Hdr p) then c
           else c <| sendCC ::= Congestion.OnPacketReceived s (len (Data p)) now |> in
  let c := anchorTimer now p c in
  let c := feedFEC now p fecData c in
  let c :=
    if RecvBuffer.HasGap res then
      let c := c <| recvLoss ::= bump (u64 (Seq.Distance (RecvBuffer.GapStart res) (RecvBuffer.GapEnd res)) + 1) |> in
      if nakOwnLosses c then reportGap now (RecvBuffer.GapStart res) (RecvBuffer.GapEnd res) c else c
    else c in
  let c := flushDeferredLoss now s c in
  let c := if (lightACKCount c >? 0) && (rcvPktCount c >=? i64 (liteACKPeriod * lightACKCount c))
           then (sendLiteACK now c) <| lightACKCount ::= ibump 1 |> else c in
  deliverNow now c.

(** A data packet: everything but the FEC repair packets. *)
Definition handleSource (now : Z) (p : Packet) (c : Conn) : Conn :=
  let wireBytes := len (Data p) in
  let c := c <| recvWirePackets ::= bump 1 |> <| recvWireBytes ::= bump wireBytes |> in
  let c := if Packet.Retransmitted (Hdr p)
           then c <| recvRetrans ::= bump 1 |> <| recvRetransBytes ::= bump wireBytes |> else c in
  let cipher := Data p in
  let '(ok, p, c) := decrypt p c in
  if negb ok then c else
  let belatedBefore := Seq.LessThan (Packet.SequenceNumber (Hdr p)) (RecvBuffer.StartSeq (recvBuf c)) in
  let '(res, rb) := RecvBuffer.Insert (recvBuf c) p now in
  let c := c <| recvBuf := rb |> in
  if negb (RecvBuffer.Inserted res) then noteBelated now p belatedBefore c else
  let fecData := if Packet.Encryption (Hdr p) =? EncryptionNone then Data p else cipher in
  accepted now p wireBytes fecData res c.

Definition handleData (now : Z) (p : Packet) (c : Conn) : Conn :=
  match fecReceiver c with
  | Some r => if Packet.MessageNumber (Hdr p) =? 0 then handleFEC now p r c else handleSource now p c
  | None => handleSource now p c
  end.

(** ** Bonding primitives *)

Definition resetRecvTo (nextSeq : Z) (c : Conn) : Conn :=
  c <| recvBuf ::= fun rb => RecvBuffer.SetInitialRcvSeq rb nextSeq |> <| rcvLastAckAck := nextSeq |>.
Definition ResetRecvState (nextSeq : Z) (c : Conn) : Conn := if ready c then resetRecvTo nextSeq c else c.
Definition AckSeqNo (c : Conn) : Z := if ready c then RecvBuffer.ACKSequence (recvBuf c) else 0.
Definition RcvBufEmpty (c : Conn) : bool := negb (ready c) || RecvBuffer.IsEmpty (recvBuf c).
Definition RcvBufStartSeq (c : Conn) : Z := if ready c then RecvBuffer.StartSeq (recvBuf c) else 0.
Definition TSBPDTimeBase (c : Conn) : option Tsbpd.GroupTimeBase := Tsbpd.GetInternalTimeBase <$> tsbpdTimer c.
Definition ApplyGroupDrift (tb : Tsbpd.GroupTimeBase) (c : Conn) : Conn :=
  c <| tsbpdTimer ::= option_map (fun t => Tsbpd.ApplyGroupDrift t tb) |>.
Definition ApplyGroupTime (tb : Tsbpd.GroupTimeBase) (c : Conn) : Conn :=
  c <| tsbpdTimer ::= option_map (fun t => Tsbpd.ApplyGroupTime t tb (Tsbpd.Delay t)) |>.

End Reports.

(** ** Reordering and loss reports *)

Lemma lossRange_seqs n : forall s e,
  Seq.is_seq s -> Seq.is_seq e -> lossRange n s e = Seq.seqs s (Nat.min n (S (Z.to_nat (Seq.gap s e)))).
Proof.
  induction n as [|n IH]; intros s e Hs He; [done|]. cbn [lossRange Nat.min Seq.seqs]. unfold Seq.Value. f_equal.
  destruct (Z.eqb_spec s e) as [->|Hne]; [by rewrite Seq.gap_self, Nat.min_0_r|].
  assert (0 < Seq.gap s e) as Hg.
  { pose proof (Seq.gap_range s e). destruct (Z.eq_dec (Seq.gap s e) 0); [|lia]. by apply Seq.gap_0 in e0. }
  rewrite IH, Seq.gap_Inc by (try apply Seq.Inc_seq; done). f_equal. f_equal. lia.
Qed.

Lemma Dec_iter n : forall a, Seq.is_seq a -> Nat.iter n Seq.Dec a = Seq.sadd a (- Z.of_nat n).
Proof.
  induction n as [|n IH]; intros a Ha; [by rewrite Seq.sadd_0|]. rewrite Nat.iter_succ, IH, Seq.Dec_sadd, Seq.sadd_sadd; [|apply Seq.sadd_seq|done].
  f_equal. lia.
Qed.

Ltac sets :=
  apply set_eq; intros ?; repeat (rewrite elem_of_union || rewrite elem_of_difference || rewrite elem_of_singleton ||
    rewrite elem_of_list_to_set || rewrite elem_of_empty || rewrite elem_of_nil || rewrite elem_of_cons); tauto.

Lemma fold_insert l : forall m : gset Z, fold_left (fun s x => {[x]} ∪ s) l m = m ∪ list_to_set l.
Proof. induction l as [|x l IH]; intros m; cbn [fold_left]; [|rewrite IH]; sets. Qed.

Lemma deferGap_exact start n c m :
  Seq.is_seq start -> deferredLoss c = Some m -> Z.of_nat n < 2 ^ 31 ->
  let c' := deferGap start (Seq.sadd start (Z.of_nat n)) c in
  outputs c' = outputs c /\ deferredLoss c' = Some (m ∪ list_to_set (Seq.seqs start (S n))).
Proof.
  intros Hs Hd Hn. cbv zeta. unfold deferGap. fields. split; [done|]. rewrite Hd. cbn [option_map].
  rewrite lossRange_seqs, Seq.gap_sadd, fold_insert by (done || lia || apply Seq.sadd_seq).
  do 4 f_equal. lia.
Qed.

Lemma emitNAK_deferred now l c : deferredLoss (emitNAK now l c) = deferredLoss c /\ reorderTolerance (emitNAK now l c) = reorderTolerance c.
Proof. destruct l; [done|]. unfold emitNAK, send, out. fields. done. Qed.

Section Reorder.
Context {O : RangeOrder}.

(** A gap of [n] numbers: the first ones are late, the last [r] are held back. *)
Definition late (s : Z) (n r : nat) : list Z := Seq.seqs s (n - r).
Definition held (s : Z) (n r : nat) : list Z := Seq.seqs (Seq.sadd s (Z.of_nat (n - r))) (Nat.min n r).

Lemma late_held s n r : Seq.is_seq s -> late s n r ++ held s n r = Seq.seqs s n.
Proof. intros Hs. unfold late, held. rewrite <- Seq.seqs_app by done. f_equal. lia. Qed.

Lemma reportGap_split now s n r c m :
  Seq.is_seq s -> (0 < n)%nat -> Z.of_nat n <= 2 ^ 30 -> (0 < r)%nat -> reorderTolerance c = Z.of_nat r ->
  deferredLoss c = Some m ->
  let c' := reportGap now s (Seq.sadd s (Z.of_nat n - 1)) c in
  sent c' = sent (emitNAK now (take maxNAKLosses (late s n r)) c) /\ deferredLoss c' = Some (m ∪ list_to_set (held s n r)).
Proof.
  intros Hs Hn Hle Hr Ht Hd. cbv zeta. unfold reportGap, late, held.
  rewrite Ht, Hd, bool_decide_eq_true_2 by done. destruct (Z.eqb_spec (Z.of_nat r) 0); [lia|]. cbn [orb negb].
  assert (Seq.Distance s (Seq.sadd s (Z.of_nat n - 1)) = Z.of_nat n - 1) as ->.
  { rewrite Seq.Distance_gap, Seq.gap_sadd by (try apply Seq.sadd_seq; done || lia).
    destruct (Z.ltb_spec (Z.of_nat n - 1) (2 ^ 30)); [done|lia]. }
  destruct (Z.leb_spec (Z.of_nat n - 1 + 1) (Z.of_nat r)).
  - replace (n - r)%nat with 0%nat by lia. replace (Nat.min n r) with (S (n - 1)) by lia. cbn [Seq.seqs]. rewrite take_nil. cbn [emitNAK].
    rewrite Seq.sadd_0 by done. replace (Z.of_nat n - 1) with (Z.of_nat (n - 1)) by lia.
    destruct (deferGap_exact s (n - 1) c m Hs Hd ltac:(lia)) as [E1 E2]. unfold sent. by rewrite E1, E2.
  - rewrite Dec_iter, Seq.sadd_sadd by apply Seq.sadd_seq.
    replace (Z.of_nat n - 1 + - Z.of_nat (Z.to_nat (Z.of_nat r - 1))) with (Z.of_nat (n - r)) by lia.
    set (d := Seq.sadd s (Z.of_nat (n - r))). assert (Seq.is_seq d) as Hd' by apply Seq.sadd_seq.
    replace (Seq.sadd s (Z.of_nat n - 1)) with (Seq.sadd d (Z.of_nat (r - 1))) by (unfold d; rewrite Seq.sadd_sadd; f_equal; lia).
    unfold sendImmediateNAK, Seq.Value. rewrite Seq.Dec_sadd by done.
    assert (Seq.sadd d (-1) = Seq.sadd s (Z.of_nat (n - r) - 1)) as -> by (unfold d; rewrite Seq.sadd_sadd; f_equal; lia).
    rewrite lossRange_seqs, Seq.gap_sadd by (try apply Seq.sadd_seq; done || lia).
    replace (S (Z.to_nat (Z.of_nat (n - r) - 1))) with (n - r)%nat by lia. rewrite <- Seq.seqs_take.
    replace (Nat.min n r) with (S (r - 1)) by lia.
    destruct (deferGap_exact d (r - 1) (emitNAK now (take maxNAKLosses (Seq.seqs s (n - r))) c) m Hd') as [E1 E2];
      [by rewrite (proj1 (emitNAK_deferred _ _ _))|lia|]. unfold sent. by rewrite E1, E2.
Qed.

(** The report of one number, as the host sees it. *)
Definition report (now : Z) (c : Conn) (s : Z) : Output.Output :=
  SendPacket (Packet.SetData (control c Packet.CtrlTypeNAK now) (Control.CIFNAK_MarshalCIF (Control.mkNAK [s]))) true.

Definition overdue (fr r s : Z) : Prop := Seq.Distance s fr > r.
#[global] Instance overdue_dec fr r s : Decision (overdue fr r s).
Proof. unfold overdue. destruct (Z_gt_dec (Seq.Distance s fr) r); [by left|by right]. Defined.

Lemma sendImmediateNAK_one now s c : sendImmediateNAK now s s c = emitNAK now [s] c.
Proof.
  unfold sendImmediateNAK, maxNAKLosses. replace (Z.to_nat 10000) with (S (Z.to_nat 9999)) by lia. cbn [lossRange].
  by rewrite Z.eqb_refl.
Qed.

Lemma flush_fold now fr r l : forall c m,
  Fifo.wf (outputs c) -> reorderTolerance c = r -> deferredLoss c = Some m ->
  let c' := fold_left (flush1 now fr) l c in
  sent c' = sent c ++ map (report now c) (filter (overdue fr r) l) /\
  deferredLoss c' = Some (m ∖ list_to_set (filter (overdue fr r) l)).
Proof.
  induction l as [|s l IH]; intros c m W Hr Hm; cbv zeta; cbn [fold_left].
  { rewrite filter_nil. cbn [map list_to_set]. rewrite app_nil_r. split; [done|]. rewrite Hm. f_equal. sets. }
  assert (flush1 now fr c s = if decide (overdue fr r s)
    then (sendImmediateNAK now s s c) <| deferredLoss ::= option_map (fun m => m ∖ {[s]}) |> else c) as ->.
  { unfold flush1, overdue. rewrite Hr. destruct (Z.gtb_spec (Seq.Distance s fr) r), (decide _); done || lia. }
  rewrite filter_cons. destruct (decide (overdue fr r s)); [|by apply IH].
  rewrite sendImmediateNAK_one. set (c1 := (emitNAK now [s] c) <| deferredLoss ::= _ |>).
  assert (sent c1 = sent c ++ [report now c s] /\ Fifo.wf (outputs c1) /\ reorderTolerance c1 = r /\
    deferredLoss c1 = Some (m ∖ {[s]}) /\ forall x, report now c1 x = report now c x) as (E1 & W1 & R1 & D1 & P1).
  { unfold c1, emitNAK, send, out, sent, report, control, wireTS. fields. rewrite Hm, Fifo.push_contents by done.
    split_and!; try done. by apply Fifo.push_wf. }
  clearbody c1. destruct (IH c1 (m ∖ {[s]}) W1 R1 D1) as [F1 F2]. rewrite F1, F2, E1, <- app_assoc. cbn [map app list_to_set].
  split; [|f_equal; sets]. do 2 f_equal. apply map_ext. done.
Qed.

Lemma range_nodup (m : gset Z) : NoDup (range m).
Proof. apply (NoDup_Permutation_proper _ _ (range_perm m)), NoDup_elements. Qed.
Lemma range_elem (m : gset Z) x : x ∈ range m <-> x ∈ m.
Proof. rewrite (elem_of_Permutation_proper _ _ _ (range_perm m)). apply elem_of_elements. Qed.

(** C31. Reorder tolerance, for a gap of up to 2^30 numbers: exactly its last
    [reorderTolerance] numbers (those a reordered packet may still fill) are
    held back, and of the others the first 10000 are reported at once, in one report
    (any beyond them are left to the periodic reports; the peer refuses a
    report of more than 8192, [gap_report_overlong]); when the frontier moves,
    exactly the held numbers more than the tolerance behind it are reported,
    each once, and no longer held. *)
Theorem reorder_tolerance_exact (now s fr : Z) (n r : nat) (c : Conn) (m : gset Z) :
  Seq.is_seq s -> (0 < n)%nat -> Z.of_nat n <= 2 ^ 30 -> (0 < r)%nat -> reorderTolerance c = Z.of_nat r ->
  deferredLoss c = Some m -> Fifo.wf (outputs c) ->
  (late s n r ++ held s n r = Seq.seqs s n /\
   let c1 := reportGap now s (Seq.sadd s (Z.of_nat n - 1)) c in
   sent c1 = sent (emitNAK now (take maxNAKLosses (late s n r)) c) /\ deferredLoss c1 = Some (m ∪ list_to_set (held s n r))) /\
  (let c2 := flushDeferredLoss now fr c in
   exists l, l ≡ₚ elements (filter (overdue fr (Z.of_nat r)) m) /\ sent c2 = sent c ++ map (report now c) l /\
     deferredLoss c2 = Some (filter (fun x => ~ overdue fr (Z.of_nat r) x) m)).
Proof.
  intros Hs Hn Hle Hr Ht Hd W. split; [split; [by apply late_held|by apply reportGap_split]|]. cbv zeta.
  unfold flushDeferredLoss. rewrite Hd. destruct (flush_fold now fr (Z.of_nat r) (range m) c m W Ht Hd) as [E1 E2].
  exists (filter (overdue fr (Z.of_nat r)) (range m)). split; [|split; [exact E1|]].
  - apply NoDup_Permutation; [apply NoDup_filter, range_nodup|apply NoDup_elements|].
    intros x. rewrite elem_of_elements, elem_of_filter, list_elem_of_filter, range_elem. done.
  - rewrite E2. f_equal. apply set_eq. intros x.
    rewrite elem_of_difference, elem_of_list_to_set, elem_of_filter, list_elem_of_filter, range_elem. tauto.
Qed.

End Reorder.

(** ** Reports that are too long *)

Lemma seqs_seqZ n : forall s, 0 <= s -> s + Z.of_nat n <= 2 ^ 31 -> Seq.seqs s n = seqZ s (Z.of_nat n).
Proof.
  induction n as [|n IH]; intros s Hs Hn; [done|]. rewrite Control.seqZ_step by lia. cbn [Seq.seqs]. f_equal.
  replace (Z.of_nat (S n) - 1) with (Z.of_nat n) by lia. destruct n as [|n]; [done|].
  assert (Seq.Inc s = s + 1) as ->. { rewrite Seq.Inc_sadd by (unfold Seq.is_seq; lia). unfold Seq.sadd. apply Z.mod_small. lia. }
  apply IH; lia.
Qed.

Lemma nak_range_seqZ n : forall e, 0 <= e -> e + Z.of_nat n < 2 ^ 32 ->
  Control.nak_range e (seqZ (e + 1) (Z.of_nat n)) = (e + Z.of_nat n, []).
Proof.
  induction n as [|n IH]; intros e He Hn; [by rewrite Z.add_0_r|]. rewrite Control.seqZ_step by lia. cbn [Control.nak_range].
  rewrite (u32_id (e + 1)) by (unfold is_u32; lia). rewrite Z.eqb_refl. replace (Z.of_nat (S n) - 1) with (Z.of_nat n) by lia.
  rewrite IH by lia. f_equal. lia.
Qed.

Lemma nak_expand_over n : forall fuel s stop acc,
  0 <= s -> s + Z.of_nat n <= 2 ^ 31 -> stop = 0 \/ s + Z.of_nat n <= stop -> (s <> 0) ->
  len acc + Z.of_nat n = Control.nakLimit + 1 -> (0 < n <= fuel)%nat ->
  Control.nak_expand fuel s stop acc = Err (Packet.ErrNAKTooLarge (Control.nakLimit + 1)).
Proof.
  induction n as [|n IH]; intros fuel s stop acc Hs Hn Hst H0 Hl Hf; [lia|]. destruct fuel as [|fuel]; [lia|].
  cbn [Control.nak_expand]. destruct (Z.eqb_spec s stop); [lia|].
  assert (len (acc ++ [s]) = len acc + 1) as El by (unfold len; rewrite length_app; simpl; lia). rewrite El.
  destruct (Z.gtb_spec (len acc + 1) Control.nakLimit); [do 2 f_equal; lia|].
  rewrite Control.land_u32_31, Z.mod_small by lia. apply IH; lia.
Qed.

(** A report can be longer than a peer accepts: the gap of a burst of more
    than 8192 and at most 10000 packets goes out as one NAK, which the decoder
    at the other end refuses whole, so the sender retransmits nothing for it. *)
Theorem gap_report_overlong {M : Float64.GoMath} (now s : Z) (n : nat) (c : Conn) :
  0 < s -> s + Z.of_nat n <= 2 ^ 31 -> 8192 < Z.of_nat n <= 10000 -> Fifo.wf (outputs c) ->
  exists p, sent (sendImmediateNAK now s (Seq.sadd s (Z.of_nat n - 1)) c) = sent c ++ [SendPacket p true] /\
    forall now' peer, ConnSend.handleNAK now' p peer = peer.
Proof.
  intros Hs Hle Hn W. assert (Seq.is_seq s) as Hq by (unfold Seq.is_seq; lia).
  unfold sendImmediateNAK. rewrite lossRange_seqs, Seq.gap_sadd by (try apply Seq.sadd_seq; done || lia).
  replace (Nat.min maxNAKLosses (S (Z.to_nat (Z.of_nat n - 1)))) with n by (unfold maxNAKLosses; lia).
  rewrite seqs_seqZ by lia. set (l := seqZ s (Z.of_nat n)).
  assert (l = s :: seqZ (s + 1) (Z.of_nat (n - 1))) as El.
  { unfold l. rewrite Control.seqZ_step by lia. do 2 f_equal. lia. }
  rewrite El. cbn [emitNAK]. rewrite <- El. eexists. unfold send, out, sent. fields. rewrite Fifo.push_contents by done. split; [done|].
  intros now' peer. unfold ConnSend.handleNAK. change (Data (Packet.SetData ?p ?d)) with d.
  assert (Control.CIFNAK_UnmarshalCIF (Control.mkNAK []) (Control.CIFNAK_MarshalCIF (Control.mkNAK l)) =
    Err (Packet.ErrNAKTooLarge (Control.nakLimit + 1))) as E; [|by rewrite E].
  unfold Control.CIFNAK_UnmarshalCIF, Control.CIFNAK_MarshalCIF. cbn [Control.LossList].
  assert (length l = S (length (seqZ (s + 1) (Z.of_nat (n - 1))))) as -> by (by rewrite El). rewrite El at 1.
  cbn [Control.nak_encode]. rewrite nak_range_seqZ by lia. destruct (Z.eqb_spec s (s + Z.of_nat (n - 1))); [lia|].
  cbn [app map concat]. rewrite Control.land_31_seq by (unfold Seq.is_seq; lia).
  rewrite Control.nak_decode_expand by (unfold Seq.is_seq; lia).
  rewrite (nak_expand_over (Z.to_nat 8193)); [done| | | | | |]; unfold Control.nakLimit; change (len (@nil Z)) with 0; try lia.
  destruct (Z.eq_dec (s + Z.of_nat (n - 1) + 1) (2 ^ 31)) as [->|]; [by left|]. right. rewrite Z.mod_small; lia.
Qed.

(** ** Round trips *)

Definition rttSample (sample : Z) : Prop := 0 < sample < rttSanityCap.

(** The round-trip estimate stays within what was measured: a sample out of
    range changes nothing, the first one is taken over, and every later one
    moves the estimate to a value between the old estimate and the sample, and
    the variance to one between the old variance and the new deviation; nothing
    overflows. *)
Theorem rtt_estimate_bounded (sample : Z) (c : Conn) :
  0 <= rtt c < rttSanityCap -> 0 <= rttVar c < rttSanityCap ->
  let c' := smoothRTT sample c in
  (~ rttSample sample -> c' = c) /\
  (rttSample sample -> rtt c = 0 -> rtt c' = sample /\ rttVar c' = Z.quot sample 2) /\
  (rttSample sample -> rtt c <> 0 ->
     Z.min (rtt c) sample <= rtt c' <= Z.max (rtt c) sample /\
     Z.min (rttVar c) (Z.abs (sample - rtt c')) <= rttVar c' <= Z.max (rttVar c) (Z.abs (sample - rtt c'))) /\
  0 <= rtt c' < rttSanityCap /\ 0 <= rttVar c' < rttSanityCap.
Proof.
  intros Hr Hv. cbv zeta. unfold smoothRTT, rttSample, rttSanityCap, Clock.Second, Clock.Millisecond in *.
  destruct (Z.gtb_spec sample 0), (Z.ltb_spec sample (10 * (1000 * 1000))); cbn [andb];
    [|split_and!; (done || lia || (intros [? ?]; lia))..].
  destruct (Z.eqb_spec (rtt c) 0) as [E|E]; fields.
  { split; [intros Hn; exfalso; lia|]. split; [done|]. split; [done|]. split; [lia|].
    rewrite Z.quot_div_nonneg by lia. split; [apply Z.div_pos; lia|apply Z.div_lt_upper_bound; lia]. }
  assert (i64 (i64 (rtt c * 7) + sample) = rtt c * 7 + sample) as -> by (rewrite i64_add_l; apply i64_id; unfold is_i64; lia).
  rewrite (Z.quot_div_nonneg _ 8) by lia. set (r := (rtt c * 7 + sample) / 8).
  assert (Z.min (rtt c) sample <= r <= Z.max (rtt c) sample) as Hb.
  { unfold r. split; [apply Z.div_le_lower_bound; lia|]. apply Z.div_le_upper_bound; lia. }
  clearbody r. rewrite (i64_id (sample - r)) by (unfold is_i64; lia).
  assert (Clock.Abs (sample - r) = Z.abs (sample - r)) as ->.
  { unfold Clock.Abs. destruct (Z.ltb_spec (sample - r) 0); [rewrite i64_id by (unfold is_i64; lia)|]; lia. }
  set (d := Z.abs (sample - r)) in *. assert (0 <= d < 10 * (1000 * 1000)) as Hd by lia. clearbody d.
  assert (i64 (i64 (rttVar c * 3) + d) = rttVar c * 3 + d) as -> by (rewrite i64_add_l; apply i64_id; unfold is_i64; lia).
  rewrite (Z.quot_div_nonneg _ 4) by lia.
  assert (Z.min (rttVar c) d <= (rttVar c * 3 + d) / 4 <= Z.max (rttVar c) d) as Hw.
  { split; [apply Z.div_le_lower_bound; lia|apply Z.div_le_upper_bound; lia]. }
  split; [intros Hn; exfalso; lia|]. split; [done|]. split; [done|]. lia.
Qed.

(** ** Encrypted connections *)

Section Secured.
Context {O : RangeOrder} {P : Crypto.Primitives}.

(** The key of the packet does not open it. *)
Definition undecryptable (ctx : Crypto.Context) (p : Packet) : Prop :=
  Packet.Encryption (Hdr p) = EncryptionNone \/
  exists e, Crypto.DecryptPayload ctx (Data p)
    (if Crypto.mode ctx =? Crypto.CipherGCM then ConnSend.headerBytes ((Hdr p) <| Packet.Retransmitted := false |>) else [])
    (Packet.Encryption (Hdr p)) (Packet.SequenceNumber (Hdr p)) = Err e.

(** C40. Nothing that the key does not open reaches the application: on a secured
    connection a data packet that is in plaintext, or whose payload [DecryptPayload]
    rejects, leaves the receive buffer, the filter, the events and the outputs as
    they are; it is counted as undecryptable, except while the keys are still being
    exchanged.  The repair packets of a filter (message number 0 on a connection
    that has one) are not data and are never encrypted: they are apart. *)
Theorem secured_rejects (now : Z) (p : Packet) (c : Conn) (ctx : Crypto.Context) :
  cryptoCtx c = Some ctx -> fecReceiver c = None \/ Packet.MessageNumber (Hdr p) <> 0 -> undecryptable ctx p ->
  let c' := handleData now p c in
  recvBuf c' = recvBuf c /\ events c' = events c /\ outputs c' = outputs c /\ fecReceiver c' = fecReceiver c /\
  recvUndecrypt c' = (if rcvKmState c =? kmStateSecuring then recvUndecrypt c else bump 1 (recvUndecrypt c)) /\
  recvPackets c' = recvPackets c.
Proof.
  intros Hc Hm Hu. cbv zeta.
  assert (handleData now p c = handleSource now p c) as ->.
  { unfold handleData. destruct (fecReceiver c); [|done]. destruct Hm as [Hm|Hm]; [done|]. by destruct (Z.eqb_spec (Packet.MessageNumber (Hdr p)) 0). }
  unfold handleSource. cbv zeta. set (c1 := if Packet.Retransmitted (Hdr p) then _ else _).
  assert (cryptoCtx c1 = Some ctx /\ recvBuf c1 = recvBuf c /\ events c1 = events c /\ outputs c1 = outputs c /\
    fecReceiver c1 = fecReceiver c /\ recvUndecrypt c1 = recvUndecrypt c /\ rcvKmState c1 = rcvKmState c /\
    recvPackets c1 = recvPackets c) as (E1 & E2 & E3 & E4 & E5 & E6 & E7 & E8).
  { unfold c1. destruct (Packet.Retransmitted (Hdr p)); fields; done. }
  clearbody c1. unfold decrypt. rewrite E1, E7. destruct (rcvKmState c =? kmStateSecuring); [cbn [negb]; done|].
  cbv zeta. destruct (Z.eqb_spec (Packet.Encryption (Hdr p)) EncryptionNone) as [En|En]; [cbn [negb]; fields; by rewrite E6|].
  destruct Hu as [?|[e He]]; [done|]. rewrite He. cbn [negb]. fields. by rewrite E6.
Qed.

End Secured.

(** ** Concrete receivers *)

Definition toyRange : RangeOrder := {| range := elements; range_perm := fun s => reflexivity _ |}.
#[local] Existing Instances toyRange Crypto.toy Float64.toyMath.

Definition toyReceiver : Conn :=
  (zeroConn (fun _ => None)) <| reorderTolerance := 2 |> <| deferredLoss := Some {[7]} |> <| rtt := 1000 |> <| rttVar := 100 |>
    <| cryptoCtx := Some Crypto.toyCtx |>.

(** A gap of three, 10 to 12, with a tolerance of two; 7 is overdue at 13. *)
Lemma reorder_tolerance_exact_witness :
  (deferredLoss (reportGap 1000 10 12 toyReceiver) = Some ({[7]} ∪ {[11; 12]}) /\ late 10 3 2 = [10]) /\
  exists l, l ≡ₚ elements (filter (overdue 13 2) ({[7]} : gset Z)).
Proof.
  destruct (reorder_tolerance_exact 1000 10 13 3 2 toyReceiver {[7]}) as [(H1 & H2) (l & H3 & _)].
  - unfold Seq.is_seq. lia.
  - lia.
  - lia.
  - lia.
  - reflexivity.
  - reflexivity.
  - unfold Fifo.wf. vm_compute. lia.
  - split; [split; [|reflexivity]|exists l; exact H3].
    change (Seq.sadd 10 (Z.of_nat 3 - 1)) with 12 in H2. destruct H2 as [_ ->]. reflexivity.
Defined.

Lemma gap_report_overlong_witness :
  exists p, sent (sendImmediateNAK 1000 100 (Seq.sadd 100 (Z.of_nat (Z.to_nat 8193) - 1)) toyReceiver) = sent toyReceiver ++ [SendPacket p true] /\
    ConnSend.handleNAK 2000 p toyReceiver = toyReceiver.
Proof.
  destruct (gap_report_overlong 1000 100 (Z.to_nat 8193) toyReceiver) as (p & H1 & H2).
  - lia.
  - lia.
  - lia.
  - unfold Fifo.wf. vm_compute. lia.
  - exists p. split; [exact H1|apply H2].
Defined.

Lemma rtt_estimate_bounded_witness :
  rtt (smoothRTT 1800 toyReceiver) = 1100 /\ 1000 <= rtt (smoothRTT 1800 toyReceiver) <= 1800.
Proof.
  split; [reflexivity|]. destruct (rtt_estimate_bounded 1800 toyReceiver) as (_ & _ & H & _).
  - vm_compute. intuition congruence.
  - vm_compute. intuition congruence.
  - destruct H as [H _]; [unfold rttSample; vm_compute; intuition congruence|vm_compute; congruence|]. exact H.
Defined.

Lemma secured_rejects_witness :
  recvUndecrypt (handleData 1000 ((Packet.NewData None 5 0 1 [42]) <| Hdr ::= fun h => h <| Packet.MessageNumber := 3 |> |>) toyReceiver) = 1.
Proof.
  destruct (secured_rejects 1000 ((Packet.NewData None 5 0 1 [42]) <| Hdr ::= fun h => h <| Packet.MessageNumber := 3 |> |>)
    toyReceiver Crypto.toyCtx) as (_ & _ & _ & _ & H & _).
  - reflexivity.
  - right. vm_compute. congruence.
  - left. reflexivity.
  - rewrite H. reflexivity.
Defined.

End ConnRecv.
