(* ===== verification/Establish.v ===== *)
(** * Establishing a connection ([internal/core/conn.go], [payloadsize.go])

    [establish] brings a connection into the data path: it sizes the buffers,
    picks the congestion controller, sets up playout, encryption and FEC, and
    arms the timers.  Every way to connect ends here: the caller's and the
    listener's handshake, the rendezvous and [NewEstablished]. *)
From Stdlib Require Import ZArith Lia String.
From stdpp Require Import base numbers list option gmap.
From S2P Require Import Prelude Seq Packet Clock Tsbpd Ring SendBuffer RecvBuffer Fifo Output FilterConfig Fec FecReceiver Crypto Float64 Congestion Handshake ConnState ConnSend ConnRecv.
Import Packet(EncryptionNone, EncryptionEven).
Import Output(SetTimer, TimerACK, TimerNAK, TimerEXP, TimerKeepalive, TimerPeerIdle).
Import ConnState.
Local Open Scope Z_scope.

(** ** Parameters *)

Module EP.
Record establishParams : Type := mkEP {
  MSS : Z;
  PeerSocketID : Z;
  PayloadSize : Z;
  SendISN : Z;
  RecvISN : Z;
  PeerVersion : Z;
  FlowWindow : Z;
  BufferCapacity : Z;
  SendBufCapacity : Z;
  RecvBufCapacity : Z;
  MaxBW : Z;
  InputBW : Z;
  MinInputBW : Z;
  OverheadBW : Z;
  Live : bool;
  TsbpdDelay : Z;
  PeerTsbpdDelay : Z;
  Congestion : list Z;
  Message : bool;
  TLPktDrop : bool;
  SndDropDelay : Z;
  LossMaxTTL : Z;
  DisableNAKReport : bool;
  PeerNakReport : bool;
  PeerIdleTimeout : Z;
  CryptoCtx : option Crypto.Context;
  ActiveKey : Z;
  Passphrase : list Z;
  KMRefreshRate : Z;
  KMPreAnnounce : Z;
  FilterConfig : list Z;
  HSv4AwaitKey : bool
}.

#[global] Instance eta_ep : Eta establishParams := fun r =>
  mkEP (MSS r) (PeerSocketID r) (PayloadSize r) (SendISN r) (RecvISN r) (PeerVersion r) (FlowWindow r)
    (BufferCapacity r) (SendBufCapacity r) (RecvBufCapacity r) (MaxBW r) (InputBW r) (MinInputBW r) (OverheadBW r)
    (Live r) (TsbpdDelay r) (PeerTsbpdDelay r) (Congestion r) (Message r) (TLPktDrop r) (SndDropDelay r)
    (LossMaxTTL r) (DisableNAKReport r) (PeerNakReport r) (PeerIdleTimeout r) (CryptoCtx r) (ActiveKey r)
    (Passphrase r) (KMRefreshRate r) (KMPreAnnounce r) (FilterConfig r) (HSv4AwaitKey r).
#[global] Instance fld_ep_MSS : Field MSS. Proof. derive_field. Defined.
#[global] Instance fld_ep_PeerSocketID : Field PeerSocketID. Proof. derive_field. Defined.
#[global] Instance fld_ep_PayloadSize : Field PayloadSize. Proof. derive_field. Defined.
#[global] Instance fld_ep_SendISN : Field SendISN. Proof. derive_field. Defined.
#[global] Instance fld_ep_RecvISN : Field RecvISN. Proof. derive_field. Defined.
#[global] Instance fld_ep_PeerVersion : Field PeerVersion. Proof. derive_field. Defined.
#[global] Instance fld_ep_FlowWindow : Field FlowWindow. Proof. derive_field. Defined.
#[global] Instance fld_ep_BufferCapacity : Field BufferCapacity. Proof. derive_field. Defined.
#[global] Instance fld_ep_SendBufCapacity : Field SendBufCapacity. Proof. derive_field. Defined.
#[global] Instance fld_ep_RecvBufCapacity : Field RecvBufCapacity. Proof. derive_field. Defined.
#[global] Instance fld_ep_MaxBW : Field MaxBW. Proof. derive_field. Defined.
#[global] Instance fld_ep_InputBW : Field InputBW. Proof. derive_field. Defined.
#[global] Instance fld_ep_MinInputBW : Field MinInputBW. Proof. derive_field. Defined.
#[global] Instance fld_ep_OverheadBW : Field OverheadBW. Proof. derive_field. Defined.
#[global] Instance fld_ep_Live : Field Live. Proof. derive_field. Defined.
#[global] Instance fld_ep_TsbpdDelay : Field TsbpdDelay. Proof. derive_field. Defined.
#[global] Instance fld_ep_PeerTsbpdDelay : Field PeerTsbpdDelay. Proof. derive_field. Defined.
#[global] Instance fld_ep_Congestion : Field Congestion. Proof. derive_field. Defined.
#[global] Instance fld_ep_Message : Field Message. Proof. derive_field. Defined.
#[global] Instance fld_ep_TLPktDrop : Field TLPktDrop. Proof. derive_field. Defined.
#[global] Instance fld_ep_SndDropDelay : Field SndDropDelay. Proof. derive_field. Defined.
#[global] Instance fld_ep_LossMaxTTL : Field LossMaxTTL. Proof. derive_field. Defined.
#[global] Instance fld_ep_DisableNAKReport : Field DisableNAKReport. Proof. derive_field. Defined.
#[global] Instance fld_ep_PeerNakReport : Field PeerNakReport. Proof. derive_field. Defined.
#[global] Instance fld_ep_PeerIdleTimeout : Field PeerIdleTimeout. Proof. derive_field. Defined.
#[global] Instance fld_ep_CryptoCtx : Field CryptoCtx. Proof. derive_field. Defined.
#[global] Instance fld_ep_ActiveKey : Field ActiveKey. Proof. derive_field. Defined.
#[global] Instance fld_ep_Passphrase : Field Passphrase. Proof. derive_field. Defined.
#[global] Instance fld_ep_KMRefreshRate : Field KMRefreshRate. Proof. derive_field. Defined.
#[global] Instance fld_ep_KMPreAnnounce : Field KMPreAnnounce. Proof. derive_field. Defined.
#[global] Instance fld_ep_FilterConfig : Field FilterConfig. Proof. derive_field. Defined.
#[global] Instance fld_ep_HSv4AwaitKey : Field HSv4AwaitKey. Proof. derive_field. Defined.

(** The zero value: a literal sets the fields it names. *)
Definition zero : establishParams :=
  mkEP 0 0 0 0 0 0 0 0 0 0 0 0 0 0 false 0 0 [] false false 0 0 false false 0 None 0 [] 0 0 [] false.
End EP.

Module Establish.

(** ** Sizes *)

(** Strings are compared byte by byte. *)
Definition same (a b : list Z) : bool := bool_decide (a = b).

Definition negotiatedPayloadSize (requested mss : Z) (congestion : list Z) : Z :=
  let limit := mss - Packet.WireHeaderSize in
  let requested :=
    if requested <=? 0 then if same congestion Handshake.file then limit else liveDefaultPayloadSize else requested in
  Z.min requested limit.

Definition payloadSizeOf (ep : EP.establishParams) : Z :=
  if EP.PayloadSize ep <=? 0
  then if same (EP.Congestion ep) Handshake.file then Packet.MaxPayloadSize else liveDefaultPayloadSize
  else EP.PayloadSize ep.

Definition flowWindowOf (ep : EP.establishParams) : Z := if EP.FlowWindow ep <=? 0 then 25600 else EP.FlowWindow ep.

(** The capacity of a ring: the configured one, at least the flow window. *)
Definition capacityOf (ep : EP.establishParams) (own : Z) : Z :=
  let shared := if EP.BufferCapacity ep <=? 0 then 8192 else EP.BufferCapacity ep in
  let cap := if own <=? 0 then shared else own in
  if flowWindowOf ep >? cap then flowWindowOf ep else cap.

(** ** The data path *)

Definition controllerOf (ep : EP.establishParams) : Congestion.Controller :=
  if same (EP.Congestion ep) Handshake.file
  then Congestion.File (Congestion.NewFileCC (EP.MaxBW ep) (payloadSizeOf ep) (flowWindowOf ep) (Seq.Value (EP.SendISN ep)))
  else Congestion.Live (Congestion.NewLiveCC (EP.MaxBW ep) (payloadSizeOf ep)).

Definition initPath (now : Z) (ep : EP.establishParams) (c : Conn) : Conn :=
  let c := c <| ConnState.peerSocketID := EP.PeerSocketID ep |> <| payloadSize := payloadSizeOf ep |>
             <| negotiatedMSS := if EP.MSS ep =? 0 then 1500 else EP.MSS ep |>
             <| sndTSBase := Clock.SRTTimestamp now |> <| lastNow := now |> <| sndISN := EP.SendISN ep |>
             <| rcvISN := EP.RecvISN ep |> <| peerVersion := EP.PeerVersion ep |>
             <| sendBuf := SendBuffer.NewSendBuffer (capacityOf ep (EP.SendBufCapacity ep)) (EP.SendISN ep) |> in
  let c := c <| sendCC := controllerOf ep |> <| ready := true |> <| configuredMaxBW := EP.MaxBW ep |>
             <| inputBW := EP.InputBW ep |> <| minInputBW := EP.MinInputBW ep |> <| inputSampleStart := now |> in
  let c := c <| sendCC ::= Congestion.SetOverhead (if EP.OverheadBW ep =? 0 then Congestion.DefaultOverhead else EP.OverheadBW ep) |> in
  let c := ConnSend.applyBandwidth c in
  c <| recvBuf := RecvBuffer.NewRecvBuffer (capacityOf ep (EP.RecvBufCapacity ep)) (EP.RecvISN ep) |>
    <| flowWindow := flowWindowOf ep |> <| rcvLastAckAck := EP.RecvISN ep |> <| rtt := initialRTT |>
    <| rttVar := Z.quot initialRTT 2 |> <| lightACKCount := 1 |>.

(** The bound method [c.tsbpdTimer.UpdateWrap]. *)
Definition updateWrap (ts : Z) (t : Tsbpd.Timer) : Tsbpd.Timer := Tsbpd.UpdateWrap t ts.

Definition initPlayout (ep : EP.establishParams) (c : Conn) : Conn :=
  if EP.Live ep then
    let delay := if EP.TsbpdDelay ep <=? 0 then defaultTsbpdDelay else EP.TsbpdDelay ep in
    let peerDelay := if EP.PeerTsbpdDelay ep <=? 0 then delay else EP.PeerTsbpdDelay ep in
    let c := c <| tsbpdTimer := Some (Tsbpd.New delay 0) |> <| negotiatedLatency := delay |>
               <| negotiatedPeerLatency := peerDelay |>
               <| recvBuf ::= fun rb => RecvBuffer.SetOnDrop (RecvBuffer.SetOnRead rb (Some updateWrap)) (Some updateWrap) |> in
    if EP.TLPktDrop ep
    then c <| tlPktDrop := true |> <| dropBaseUS := peerDelay |>
           <| sendDropThresh := ConnSend.dropThreshold peerDelay (EP.SndDropDelay ep) |>
    else c
  else if EP.Message ep then c <| messageMode := true |> <| recvBuf ::= fun rb => RecvBuffer.SetMessageAPI rb true |>
  else c.

Definition preAnnounceOf (refresh pre : Z) : Z :=
  if (refresh >? 0) && ((pre =? 0) || (pre >=? refresh)) then Z.div refresh 2 else pre.

Definition initCrypto (ep : EP.establishParams) (c : Conn) : Conn :=
  match EP.CryptoCtx ep with
  | None => c
  | Some ctx =>
      let old := (Crypto.mode ctx =? Crypto.CipherGCM) && (peerVersion c >? 0) && (peerVersion c <=? 0x010503) in
      c <| cryptoCtx := Some (if old then Crypto.SetGCM153 ctx true else ctx) |>
        <| passphrase := EP.Passphrase ep |>
        <| activeKey := if EP.ActiveKey ep =? EncryptionNone then EncryptionEven else EP.ActiveKey ep |>
        <| sndKmState := kmStateSecured |>
        <| rcvKmState := if EP.HSv4AwaitKey ep then kmStateSecuring else kmStateSecured |>
        <| kmRefreshRate := EP.KMRefreshRate ep |>
        <| kmPreAnnounce := preAnnounceOf (EP.KMRefreshRate ep) (EP.KMPreAnnounce ep) |>
  end.

(** The filters registered when the package is loaded. *)
Definition filters : FilterConfig.registry unit := FilterConfig.Register "fec" tt [].

Definition initFilter (ep : EP.establishParams) (c : Conn) : Conn :=
  match EP.FilterConfig ep with
  | [] => c
  | s =>
      match FilterConfig.ParseConfig filters (Handshake.stringOf s) with
      | Err _ => c
      | Ok fcfg =>
          let ps := Z.to_nat (payloadSizeOf ep) in
          c <| fecSender := Some (Fec.NewFECSender fcfg ps (Seq.Value (EP.SendISN ep))) |>
            <| fecReceiver := Some (FecReceiver.NewFECReceiver fcfg ps (Seq.Value (EP.RecvISN ep))) |>
            <| fecARQLevel := FilterConfig.ARQ fcfg |>
      end
  end.

Definition armTimers (now : Z) (ep : EP.establishParams) (c : Conn) : Conn :=
  let c := arm TimerACK (Clock.Add now synInterval) c in
  let c := if periodicNAK c then arm TimerNAK (Clock.Add now (ConnRecv.nakInterval c)) c else c in
  let c := arm TimerEXP (Clock.Add now (ConnSend.rto c)) c in
  if EP.PeerIdleTimeout ep >? 0 then
    let c := c <| peerIdleTimeout := EP.PeerIdleTimeout ep |> <| lastRecvTime := now |> <| lastSentDataTime := now |> in
    arm TimerPeerIdle (Clock.Add now (peerIdleTimeout c)) (arm TimerKeepalive (Clock.Add now keepaliveInterval) c)
  else c.

Definition establish (now : Z) (ep : EP.establishParams) (c : Conn) : Conn :=
  let c := initFilter ep (initCrypto ep (initPlayout ep (initPath now ep c))) in
  let c := c <| rexmitCount := 1 |> <| lastACKTime := now |>
             <| periodicNAK := negb (same (EP.Congestion ep) Handshake.file) && negb (EP.DisableNAKReport ep) |>
             <| peerNakReport := EP.PeerNakReport ep |> in
  let c := if EP.LossMaxTTL ep >? 0 then c <| reorderTolerance := EP.LossMaxTTL ep |> <| deferredLoss := Some ∅ |> else c in
  armTimers now ep (c <| state := stateConnected |>).

(** ** Without a handshake *)

Record Config : Type := mkConfig {
  MSS : Z;
  PeerSocketID : Z;
  PayloadSize : Z;
  SendISN : Z;
  RecvISN : Z;
  FlowWindow : Z;
  BufferCapacity : Z;
  MaxBW : Z;
  InputBW : Z;
  MinInputBW : Z;
  OverheadBW : Z;
  Live : bool;
  TsbpdDelay : Z;
  PeerTsbpdDelay : Z;
  CongestionName : list Z;
  Message : bool;
  TLPktDrop : bool;
  SndDropDelay : Z;
  LossMaxTTL : Z;
  DisableNAKReport : bool;
  PeerIdleTimeout : Z;
  CryptoCtx : option Crypto.Context;
  ActiveKey : Z;
  Passphrase : list Z;
  KMRefreshRate : Z;
  KMPreAnnounce : Z;
  FilterCfg : list Z
}.

Definition NewEstablished (rand : nat -> option (list Z)) (cfg : Config) (now : Z) : Conn :=
  establish now (EP.zero
    <| EP.PeerSocketID := PeerSocketID cfg |> <| EP.MSS := MSS cfg |> <| EP.PayloadSize := PayloadSize cfg |>
    <| EP.SendISN := SendISN cfg |> <| EP.RecvISN := RecvISN cfg |> <| EP.FlowWindow := FlowWindow cfg |>
    <| EP.BufferCapacity := BufferCapacity cfg |> <| EP.MaxBW := MaxBW cfg |> <| EP.InputBW := InputBW cfg |>
    <| EP.MinInputBW := MinInputBW cfg |> <| EP.OverheadBW := OverheadBW cfg |> <| EP.Live := Live cfg |>
    <| EP.TsbpdDelay := TsbpdDelay cfg |> <| EP.PeerTsbpdDelay := PeerTsbpdDelay cfg |>
    <| EP.Congestion := CongestionName cfg |> <| EP.Message := Message cfg |> <| EP.TLPktDrop := TLPktDrop cfg |>
    <| EP.SndDropDelay := SndDropDelay cfg |> <| EP.LossMaxTTL := LossMaxTTL cfg |>
    <| EP.DisableNAKReport := DisableNAKReport cfg |> <| EP.PeerNakReport := true |>
    <| EP.PeerIdleTimeout := PeerIdleTimeout cfg |> <| EP.CryptoCtx := CryptoCtx cfg |> <| EP.ActiveKey := ActiveKey cfg |>
    <| EP.Passphrase := Passphrase cfg |> <| EP.KMRefreshRate := KMRefreshRate cfg |>
    <| EP.KMPreAnnounce := KMPreAnnounce cfg |> <| EP.FilterConfig := FilterCfg cfg |>) (zeroConn rand).

End Establish.
