(* ===== verification/CoreHandshake.v ===== *)
(** * The caller's handshake ([internal/core/handshake.go], [hsv4.go])

    [Dial] and the answers of the listener: the version 5 handshake, and the
    legacy version 4 with the extension messages it exchanges afterwards.  The
    states [stateInduction] and [stateConclusion] of a caller have [dial] set:
    a nil [c.dial] is not dereferenced there. *)
From Stdlib Require Import ZArith Lia.
From stdpp Require Import base numbers list option.
From S2P Require Import Prelude Seq Packet Control Cif Clock Fifo Output Crypto Handshake ConnState KeyRotation ConnSend ConnRecv Establish.
Import Packet(Packet, Hdr, Data, EncryptionEven).
Import Output(ClearTimer, TimerHandshake, TimerKMRefresh, Connected, RejectError, ErrNotHSv5, ErrPeerISN, ErrISNEcho,
  ErrFlowWindow, ErrNoKeyMaterial, ErrRefused).
Import ConnState.
Import Establish(establish, negotiatedPayloadSize, same).
Import EP(establishParams, zero).
Import Cif(CIFHandshake, HasHS, SRTHS, HasKM, HasFilter, HasCongestion, CongestionType, HandshakeType, Version, ExtensionField,
  SynCookie, InitialPacketSequenceNumber, MaxTransmissionUnitSize, MaxFlowWindowSize, SRTSocketID, RecvTSBPDDelay,
  SendTSBPDDelay, SRTFlags, HandshakeTypeInduction, HandshakeTypeConclusion).
Local Open Scope Z_scope.

Module CoreHandshake.

(** ** What a side advertises *)

Definition flag (b : bool) (f : Z) : Z := if b then f else 0.

Definition srtFeatureFlags (live encrypted tlPktDrop periodicNAK byteStream : bool) : Z :=
  let f := Cif.FlagRexmit in
  let f := Z.lor f (flag live (Z.lor Cif.FlagTSBPDSend Cif.FlagTSBPDRecv)) in
  let f := Z.lor f (flag encrypted Cif.FlagCrypt) in
  let f := Z.lor f (flag tlPktDrop Cif.FlagTLPktDrop) in
  let f := Z.lor f (flag periodicNAK Cif.FlagPeriodicNAK) in
  Z.lor f (flag byteStream Cif.FlagStream).

(** [hs.HasHS && hs.SRTHS != nil]. *)
Definition srtHS (hs : CIFHandshake) : option Cif.CIFHandshakeExtension := if HasHS hs then SRTHS hs else None.

Definition peerNakReportFromHS (hs : CIFHandshake) : bool :=
  match srtHS hs with None => true | Some e => negb (Z.land (SRTFlags e) Cif.FlagPeriodicNAK =? 0) end.

Definition peerVersionFromHS (hs : CIFHandshake) : Z :=
  match srtHS hs with None => 0 | Some e => Cif.SRTVersion e end.

Definition orLive (s : list Z) : list Z := match s with [] => Handshake.live | _ => s end.

Definition matchingCongestion (local : list Z) (hs : CIFHandshake) : bool :=
  same (orLive local) (if HasCongestion hs then CongestionType hs else Handshake.live).

Definition isSome {A} (o : option A) : bool := match o with Some _ => true | None => false end.

Definition srtFlags (d : Dial.dialState) : Z :=
  srtFeatureFlags (Dial.live d) (isSome (Dial.cryptoCtx d)) (Dial.tlPktDrop d)
    (negb (same (Dial.cong d) Handshake.file) && negb (Dial.disableNAKReport d))
    (negb (Dial.live d) && negb (Dial.message d)).

(** ** Dialling *)

Record DialConfig : Type := mkDialConfig {
  CallerSocketID : Z;
  CallerISN : Z;
  MSS : Z;
  FC : Z;
  RecvLatencyMS : Z;
  SendLatencyMS : Z;
  Congestion : list Z;
  StreamID : list Z;
  FilterConfig : list Z;
  CryptoCtx : option Crypto.Context;
  Passphrase : list Z;
  KMRefreshRate : Z;
  KMPreAnnounce : Z;
  AllowUnencryptedFallback : bool;
  PayloadSize : Z;
  BufferCapacity : Z;
  SendBufCapacity : Z;
  RecvBufCapacity : Z;
  MaxBW : Z;
  InputBW : Z;
  MinInputBW : Z;
  OverheadBW : Z;
  Live : bool;
  Message : bool;
  TLPktDrop : bool;
  SndDropDelay : Z;
  LossMaxTTL : Z;
  DisableNAKReport : bool;
  PeerIdleTimeout : Z;
  ForceHSv4 : bool;
  GroupID : Z;
  GroupType : Z;
  GroupWeight : Z
}.

Definition orZ (x default : Z) : Z := if x =? 0 then default else x.

Definition dialOf (dc : DialConfig) : Dial.dialState :=
  Dial.mkDial (CallerSocketID dc) (CallerISN dc) (orZ (MSS dc) 1500) (orZ (FC dc) 8192) (orZ (RecvLatencyMS dc) 120)
    (orZ (SendLatencyMS dc) 120) (orLive (Congestion dc)) (StreamID dc) (FilterConfig dc) 0 (CryptoCtx dc) (Passphrase dc)
    (KMRefreshRate dc) (KMPreAnnounce dc) (AllowUnencryptedFallback dc) (PayloadSize dc) (BufferCapacity dc)
    (SendBufCapacity dc) (RecvBufCapacity dc) (MaxBW dc) (InputBW dc) (MinInputBW dc) (OverheadBW dc) (Live dc)
    (Message dc) (TLPktDrop dc) (SndDropDelay dc) (LossMaxTTL dc) (DisableNAKReport dc) (PeerIdleTimeout dc)
    (ForceHSv4 dc) false (GroupID dc) (GroupType dc) (GroupWeight dc).

Definition retry (now : Z) (c : Conn) : Conn := arm TimerHandshake (Clock.Add now handshakeRetryInterval) c.

Definition sendInduction (now : Z) (d : Dial.dialState) (c : Conn) : Conn :=
  let p := Handshake.BuildInduction (Dial.socketID d) (Seq.Value (Dial.isn d)) (Dial.mss d) (Dial.fc d) None in
  retry now (send p c).

Definition Dial (rand : nat -> option (list Z)) (dc : DialConfig) (now : Z) : Conn :=
  let d := dialOf dc in
  sendInduction now d ((zeroConn rand) <| state := stateInduction |> <| dial := Some d |>).

Section Caller.
Context {P : Crypto.Primitives}.

Definition sendConclusion (now : Z) (d : Dial.dialState) (c : Conn) : Conn :=
  let km := match Dial.cryptoCtx d with
            | None => None
            | Some ctx => match Crypto.MarshalKM ctx (Dial.passphrase d) EncryptionEven with Ok km => Some km | Err _ => None end
            end in
  let p := Handshake.BuildConclusion (Dial.socketID d) (Seq.Value (Dial.isn d)) (Dial.mss d) (Dial.fc d) (Dial.cookie d)
             (Dial.streamID d) (Dial.recvLatMS d) (Dial.sendLatMS d) (srtFlags d) (Dial.cong d) (Dial.filterCfg d)
             (Dial.groupID d) (Dial.groupType d) (Dial.groupWeight d) None km in
  retry now (send p c).

Definition sendConclusionV4 (now : Z) (d : Dial.dialState) (c : Conn) : Conn :=
  let p := Handshake.BuildConclusionV4 (Dial.socketID d) (Seq.Value (Dial.isn d)) (Dial.mss d) (Dial.fc d) (Dial.cookie d) None in
  retry now (send p c).

Definition handleInductionResponse (now : Z) (hs : CIFHandshake) (d : Dial.dialState) (c : Conn) : Conn :=
  if negb (HandshakeType hs =? HandshakeTypeInduction) then c else
  if Dial.forceHSv4 d || ((Version hs =? 4) && (ExtensionField hs =? Handshake.UDTV4Marker)) then
    let d := d <| Dial.hsv4 := true |> <| Dial.cookie := SynCookie hs |> in
    sendConclusionV4 now d (c <| dial := Some d |> <| state := stateConclusion |>)
  else if negb (Version hs =? 5) || negb (ExtensionField hs =? Handshake.SRTMagic)
  then fail (ErrNotHSv5 (Version hs) (ExtensionField hs)) c
  else
    let d := d <| Dial.cookie := SynCookie hs |> in
    sendConclusion now d (c <| dial := Some d |> <| state := stateConclusion |>).

(** ** The conclusion *)

(** What the caller refuses in a conclusion; [echo] says whether the listener
    has to echo the caller's initial sequence number. *)
Definition refuseConclusion (echo : bool) (hs : CIFHandshake) (d : Dial.dialState) : option Output.ConnError :=
  let isn := InitialPacketSequenceNumber hs in
  if isn >? Seq.Max then Some (ErrPeerISN isn) else
  if echo && negb (isn =? Seq.Value (Dial.isn d)) then Some (ErrISNEcho isn (Seq.Value (Dial.isn d))) else
  if MaxFlowWindowSize hs <? 2 then Some (ErrFlowWindow (MaxFlowWindowSize hs)) else
  if MaxTransmissionUnitSize hs <? 76 then Some (RejectError rejRogue) else None.

(** The parameters both versions pass on. *)
Definition baseParams (hs : CIFHandshake) (d : Dial.dialState) : establishParams :=
  zero <| EP.PeerSocketID := SRTSocketID hs |>
       <| EP.PayloadSize := negotiatedPayloadSize (Dial.payloadSize d) (Dial.mss d) (Dial.cong d) |>
       <| EP.MSS := Dial.mss d |> <| EP.SendISN := Dial.isn d |> <| EP.RecvISN := InitialPacketSequenceNumber hs |>
       <| EP.FlowWindow := Z.min (Dial.fc d) (MaxFlowWindowSize hs) |> <| EP.BufferCapacity := Dial.bufferCapacity d |>
       <| EP.MaxBW := Dial.maxBW d |> <| EP.InputBW := Dial.inputBW d |> <| EP.MinInputBW := Dial.minInputBW d |>
       <| EP.OverheadBW := Dial.overheadBW d |> <| EP.DisableNAKReport := Dial.disableNAKReport d |>
       <| EP.PeerIdleTimeout := Dial.peerIdleTimeout d |> <| EP.CryptoCtx := Dial.cryptoCtx d |>
       <| EP.ActiveKey := EncryptionEven |> <| EP.Passphrase := Dial.passphrase d |>.

Definition concludeParams (hs : CIFHandshake) (d : Dial.dialState) : establishParams :=
  let '(recvLatMS, sendLatMS) :=
    match srtHS hs with
    | Some e => Handshake.NegotiateLatency (Dial.recvLatMS d) (Dial.sendLatMS d) (RecvTSBPDDelay e) (SendTSBPDDelay e)
    | None => (Dial.recvLatMS d, Dial.sendLatMS d)
    end in
  let filterCfg := match Cif.FilterConfig hs with [] => Dial.filterCfg d
                   | f => if HasFilter hs then f else Dial.filterCfg d end in
  (baseParams hs d)
       <| EP.SendBufCapacity := Dial.sendBufCapacity d |> <| EP.RecvBufCapacity := Dial.recvBufCapacity d |>
       <| EP.Live := Dial.live d |> <| EP.TsbpdDelay := recvLatMS * 1000 |> <| EP.PeerTsbpdDelay := sendLatMS * 1000 |>
       <| EP.Congestion := Dial.cong d |> <| EP.Message := Dial.message d |> <| EP.TLPktDrop := Dial.tlPktDrop d |>
       <| EP.SndDropDelay := Dial.sndDropDelay d |> <| EP.LossMaxTTL := Dial.lossMaxTTL d |>
       <| EP.PeerNakReport := peerNakReportFromHS hs |> <| EP.PeerVersion := peerVersionFromHS hs |>
       <| EP.KMRefreshRate := Dial.kmRefreshRate d |> <| EP.KMPreAnnounce := Dial.kmPreAnnounce d |>
       <| EP.FilterConfig := filterCfg |>.

(** HSv4 is a reliable datagram link: no playout, message framing. *)
Definition concludeParamsV4 (hs : CIFHandshake) (d : Dial.dialState) : establishParams :=
  (baseParams hs d) <| EP.Live := false |> <| EP.Message := true |> <| EP.PeerNakReport := true |>.

Definition initHSv4KM (now : Z) (c : Conn) : Conn :=
  let c := c <| kmAnnounced := true |> <| kmConfirmed := false |> <| kmRetryKey := activeKey c |>
             <| kmRetryCount := srtMaxKMRetry |> <| sndKmState := kmStateSecuring |> in
  let c := KeyRotation.sendKMREQ now (activeKey c) c in
  arm TimerKMRefresh (Clock.Add now (KeyRotation.kmRetryInterval c)) c.

Definition handleConclusionResponseV4 (now : Z) (hs : CIFHandshake) (d : Dial.dialState) (c : Conn) : Conn :=
  if negb (HandshakeType hs =? HandshakeTypeConclusion) then c else
  match refuseConclusion true hs d with
  | Some err => fail err c
  | None =>
      let d := d <| Dial.mss := Z.min (Dial.mss d) (MaxTransmissionUnitSize hs) |> in
      let peerID := SRTSocketID hs in
      let c := out (ClearTimer TimerHandshake) (c <| dial := Some d |>) in
      let c := establish now (concludeParamsV4 hs d) c in
      let c := send (Handshake.BuildExtHSREQ peerID Handshake.SRTVersion 0 (Dial.recvLatMS d) None) c in
      let c := c <| dial := None |> in
      match Dial.cryptoCtx d with
      | Some _ => initHSv4KM now (c <| hsv4DeferConnect := true |>)
      | None => event (Connected peerID) c
      end
  end.

Definition handleConclusionResponse (now : Z) (hs : CIFHandshake) (d : Dial.dialState) (c : Conn) : Conn :=
  if Dial.hsv4 d then handleConclusionResponseV4 now hs d c else
  if negb (HandshakeType hs =? HandshakeTypeConclusion) then c else
  match refuseConclusion (Dial.groupID d =? 0) hs d with
  | Some err => fail err c
  | None =>
      let d := d <| Dial.mss := Z.min (Dial.mss d) (MaxTransmissionUnitSize hs) |> in
      let c := c <| dial := Some d |> in
      if negb (matchingCongestion (Dial.cong d) hs) then fail (RejectError rejCongestion) c else
      if isSome (Dial.cryptoCtx d) && negb (HasKM hs) && negb (Dial.allowUnencFallback d) then fail ErrNoKeyMaterial c else
      let d := if HasKM hs then d else d <| Dial.cryptoCtx := None |> in
      let c := out (ClearTimer TimerHandshake) (c <| dial := Some d |>) in
      let c := establish now (concludeParams hs d) c in
      event (Connected (SRTSocketID hs)) (c <| dial := None |>)
  end.

Definition handshakeRefused (c : Conn) : Conn := fail ErrRefused c.

(** ** The extension messages of HSv4 *)

(** [clock.Microseconds(latency) * clock.Millisecond]. *)
Definition noteLatency (latency : Z) (c : Conn) : Conn :=
  if latency >? 0 then c <| negotiatedLatency := latency * Clock.Millisecond |> else c.

Definition handleHSv4HSREQ (p : Packet) (c : Conn) : Conn :=
  match Handshake.ParseExtHSREQ (Data p) with
  | Err _ => c
  | Ok (_, _, latency) =>
      let c := noteLatency latency c in
      send (Handshake.BuildExtHSRSP (ConnState.peerSocketID c) Handshake.SRTVersion 0 latency None) c
  end.

Definition handleHSv4HSRSP (p : Packet) (c : Conn) : Conn :=
  match Handshake.ParseExtHSREQ (Data p) with
  | Err _ => c
  | Ok (_, _, latency) => noteLatency latency c
  end.

End Caller.

End CoreHandshake.
