(* ===== verification/Rendezvous.v ===== *)
(** * The rendezvous handshake ([internal/core/rendezvous.go])

    Both peers dial each other.  A contest of random cookies makes one the
    initiator and the other the responder; the pure function [rdvSwitchState]
    drives both through waves, conclusions and an agreement. *)
From Stdlib Require Import ZArith Lia.
From stdpp Require Import base numbers list option.
From S2P Require Import Prelude Seq Packet Cif Clock Fifo Output Crypto Handshake ConnState Establish CoreHandshake.
Import Packet(Packet, EncryptionEven).
Import Output(ClearTimer, TimerHandshake, Connected, RejectError).
Import ConnState.
Import Rdv(rdvState, rdvWaving, rdvAttention, rdvFine, rdvInitiated, rdvConnected, rdvSide, rdvDraw, rdvInitiator,
  rdvResponder, rdvTransition, mkTrans, newState, rspType, needsExt, needsHSRSP, rdvDial).
Import Cif(CIFHandshake, HandshakeTypeWavehand, HandshakeTypeConclusion, HandshakeTypeAgreement, HandshakeTypeDone,
  HandshakeType, ExtensionField, SRTSocketID, MaxTransmissionUnitSize, InitialPacketSequenceNumber, MaxFlowWindowSize,
  SynCookie, HasKM, SRTKM, KeyBasedEncryption, RecvTSBPDDelay, SendTSBPDDelay).
Local Open Scope Z_scope.

Module Rendezvous.

Definition rejRdvCookie : Z := 1005.

(** ** The decision *)

Definition rdvCookieContest (agentCookie peerCookie : Z) : rdvSide :=
  let agent := i32 agentCookie in
  let peer := i32 peerCookie in
  let contest := i64 (agent - peer) in
  if Z.land contest 0xFFFFFFFF =? 0 then rdvDraw else
  if negb (Z.land contest 0x80000000 =? 0) then
    let revert := i64 (peer - agent) in
    if negb (Z.land revert 0x80000000 =? 0) && (agent >? peer) then rdvInitiator else rdvResponder
  else rdvInitiator.

Definition sideIs (a b : rdvSide) : bool := bool_decide (a = b).

Definition rogue : rdvTransition := mkTrans rdvWaving rejRogue false false.
Definition conclude (st : rdvState) (ext rsp : bool) : rdvTransition := mkTrans st HandshakeTypeConclusion ext rsp.
Definition agree : rdvTransition := mkTrans rdvConnected HandshakeTypeAgreement false false.
Definition done_ : rdvTransition := mkTrans rdvConnected HandshakeTypeDone false false.

Definition rdvSwitchState (state : rdvState) (recvType : Z) (side : rdvSide) (hasExtFlags : bool) : rdvTransition :=
  match state with
  | rdvWaving =>
      if recvType =? HandshakeTypeWavehand then conclude rdvAttention (sideIs side rdvInitiator) false
      else if recvType =? HandshakeTypeConclusion then conclude rdvFine true (sideIs side rdvResponder)
      else rogue
  | rdvAttention =>
      if recvType =? HandshakeTypeWavehand then conclude rdvAttention (sideIs side rdvInitiator) false
      else if recvType =? HandshakeTypeConclusion then
        if sideIs side rdvInitiator then if negb hasExtFlags then conclude rdvAttention true false else agree
        else if sideIs side rdvResponder then
          if negb hasExtFlags then conclude rdvAttention false false else conclude rdvInitiated true true
        else mkTrans rdvWaving rejRdvCookie false false
      else if recvType =? HandshakeTypeAgreement then
        if sideIs side rdvInitiator then done_ else conclude rdvAttention true true
      else rogue
  | rdvFine =>
      if recvType =? HandshakeTypeConclusion then
        if sideIs side rdvInitiator && hasExtFlags then agree else conclude rdvFine true (sideIs side rdvResponder)
      else if recvType =? HandshakeTypeAgreement then done_
      else rogue
  | rdvInitiated =>
      if recvType =? HandshakeTypeAgreement then done_
      else if recvType =? HandshakeTypeConclusion then conclude rdvInitiated true true
      else rogue
  | rdvConnected => done_
  end.

(** ** Dialling *)

Record RendezvousConfig : Type := mkRdvConfig {
  SocketID : Z;
  ISN : Z;
  Cookie : Z;
  MSS : Z;
  FC : Z;
  RecvLatencyMS : Z;
  SendLatencyMS : Z;
  Congestion : list Z;
  StreamID : list Z;
  FilterConfig : list Z;
  PayloadSize : Z;
  BufferCapacity : Z;
  MaxBW : Z;
  InputBW : Z;
  MinInputBW : Z;
  OverheadBW : Z;
  Live : bool;
  Message : bool;
  PeerIdleTimeout : Z;
  CryptoCtx : option Crypto.Context;
  Passphrase : list Z;
  KeyLength : Z
}.

Definition zeroTrans : rdvTransition := mkTrans rdvWaving 0 false false.

Definition rdvOf (rc : RendezvousConfig) : rdvDial :=
  Rdv.mkRdv (SocketID rc) (ISN rc) (CoreHandshake.orZ (MSS rc) 1500) (CoreHandshake.orZ (FC rc) 8192) (Cookie rc)
    (CoreHandshake.orZ (RecvLatencyMS rc) 120) (CoreHandshake.orZ (SendLatencyMS rc) 120)
    (CoreHandshake.orLive (Congestion rc)) (StreamID rc) (FilterConfig rc) (MaxBW rc) (InputBW rc) (MinInputBW rc)
    (OverheadBW rc) (Live rc) (Message rc) (PayloadSize rc) (BufferCapacity rc) (PeerIdleTimeout rc) (CryptoCtx rc)
    (Passphrase rc) (KeyLength rc) 0 false rdvWaving rdvDraw 0 0 0 0 0 false zeroTrans false.

Definition sendWavehand (d : rdvDial) (c : Conn) : Conn :=
  send (Handshake.BuildWavehand (Rdv.socketID d) (Seq.Value (Rdv.isn d)) (Rdv.mss d) (Rdv.fc d) (Rdv.cookie d) 0 None) c.

Definition DialRendezvous (rand : nat -> option (list Z)) (rc : RendezvousConfig) (now : Z) : Conn :=
  let d := rdvOf rc in
  let c := (zeroConn rand) <| state := stateInduction |> <| rdv := Some d |> in
  CoreHandshake.retry now (sendWavehand d c).

Section Rendezvous.
Context {P : Crypto.Primitives}.

(** The key slot to announce: the initiator keeps the one it chose. *)
Definition chooseSlot (d : rdvDial) : Z * rdvDial :=
  if Rdv.kmKey d =? 0
  then (EncryptionEven, if sideIs (Rdv.side d) rdvInitiator then d <| Rdv.kmKey := EncryptionEven |> else d)
  else (Rdv.kmKey d, d).

Definition rendezvousEmit (trans : rdvTransition) (d : rdvDial) (c : Conn) : Conn :=
  if rspType trans =? HandshakeTypeConclusion then
    let isRequest := negb (needsHSRSP trans) in
    let '(km, keyLen, d) :=
      match Rdv.cryptoCtx d with
      | Some ctx =>
          if needsExt trans then
            let '(slot, d) := chooseSlot d in
            match Crypto.MarshalKM ctx (Rdv.passphrase d) slot with
            | Err _ => (None, 0, d)
            | Ok km => (Some km, CoreHandshake.orZ (Rdv.keyLength d) 16, d)
            end
          else (None, 0, d)
      | None => (None, 0, d)
      end in
    let p := Handshake.BuildRendezvousConclusion (Rdv.socketID d) (Seq.Value (Rdv.isn d)) (Rdv.mss d) (Rdv.fc d)
               (Rdv.peerSocketID d) (Rdv.cookie d) isRequest (Rdv.recvLatMS d) (Rdv.sendLatMS d) 0 (Rdv.cong d)
               (Rdv.filterCfg d) 0 0 0 (Rdv.streamID d) None km (needsExt trans) keyLen in
    send p (c <| rdv := Some d |>)
  else if rspType trans =? HandshakeTypeAgreement then
    send (Handshake.BuildAgreement (Rdv.socketID d) (Seq.Value (Rdv.isn d)) (Rdv.mss d) (Rdv.fc d) (Rdv.peerSocketID d) None) c
  else c.

Definition rendezvousRetransmit (now : Z) (d : rdvDial) (c : Conn) : Conn :=
  CoreHandshake.retry now (if Rdv.haveTrans d then rendezvousEmit (Rdv.lastTrans d) d c else sendWavehand d c).

Definition rendezvousParams (d : rdvDial) : EP.establishParams :=
  let recvLat := CoreHandshake.orZ (Rdv.negRecv d) (Rdv.recvLatMS d) in
  let sendLat := CoreHandshake.orZ (Rdv.negSend d) (Rdv.sendLatMS d) in
  let fc := if (Rdv.peerFC d >? 0) && (Rdv.peerFC d <? Rdv.fc d) then Rdv.peerFC d else Rdv.fc d in
  EP.zero <| EP.PeerSocketID := Rdv.peerSocketID d |>
    <| EP.PayloadSize := Establish.negotiatedPayloadSize (Rdv.payloadSize d) (Rdv.mss d) (Rdv.cong d) |>
    <| EP.MSS := Rdv.mss d |> <| EP.SendISN := Rdv.isn d |> <| EP.RecvISN := Rdv.peerISN d |> <| EP.FlowWindow := fc |>
    <| EP.BufferCapacity := Rdv.bufferCapacity d |> <| EP.MaxBW := Rdv.maxBW d |> <| EP.InputBW := Rdv.inputBW d |>
    <| EP.MinInputBW := Rdv.minInputBW d |> <| EP.OverheadBW := Rdv.overheadBW d |> <| EP.Live := Rdv.live d |>
    <| EP.TsbpdDelay := recvLat * 1000 |> <| EP.PeerTsbpdDelay := sendLat * 1000 |> <| EP.Message := Rdv.message d |>
    <| EP.Congestion := Rdv.cong d |> <| EP.PeerIdleTimeout := Rdv.peerIdleTimeout d |>
    <| EP.CryptoCtx := Rdv.cryptoCtx d |> <| EP.ActiveKey := CoreHandshake.orZ (Rdv.kmKey d) EncryptionEven |>
    <| EP.Passphrase := Rdv.passphrase d |>.

Definition rendezvousEstablish (now : Z) (d : rdvDial) (c : Conn) : Conn :=
  let c := out (ClearTimer TimerHandshake) c in
  let c := Establish.establish now (rendezvousParams d) c in
  event (Connected (Rdv.peerSocketID d)) (c <| rdv := None |>).

(** ** A received handshake

    Each step updates the dial in place, and may give the connection up. *)

Definition step : Type := rdvDial -> rdvDial * option Output.ConnError.
Definition andThen (f g : step) : step := fun d =>
  match f d with (d, Some e) => (d, Some e) | (d, None) => g d end.

Definition learnPeer (hs : CIFHandshake) : step := fun d =>
  if (Rdv.peerSocketID d =? 0) && negb (SRTSocketID hs =? 0) then
    if MaxTransmissionUnitSize hs <? 76 then (d, Some (RejectError rejRogue)) else
    (d <| Rdv.mss := Z.min (Rdv.mss d) (MaxTransmissionUnitSize hs) |> <| Rdv.peerSocketID := SRTSocketID hs |>
       <| Rdv.peerISN := InitialPacketSequenceNumber hs |> <| Rdv.peerFC := MaxFlowWindowSize hs |>, None)
  else (d, None).

Definition resolveSide (hs : CIFHandshake) : step := fun d =>
  if sideIs (Rdv.side d) rdvDraw && negb (SynCookie hs =? 0) then
    let s := rdvCookieContest (Rdv.cookie d) (SynCookie hs) in
    (d <| Rdv.side := s |>, if sideIs s rdvDraw then Some (RejectError rejRdvCookie) else None)
  else (d, None).

Definition hasExtFlags (hs : CIFHandshake) : bool :=
  (HandshakeType hs =? HandshakeTypeConclusion) && negb (ExtensionField hs =? 0).

Definition checkCongestion (hs : CIFHandshake) : step := fun d =>
  if hasExtFlags hs && negb (CoreHandshake.matchingCongestion (Rdv.cong d) hs)
  then (d, Some (RejectError rejCongestion)) else (d, None).

Definition negotiate (hs : CIFHandshake) : step := fun d =>
  match CoreHandshake.srtHS hs with
  | Some e =>
      if hasExtFlags hs && negb (Rdv.negotiated d) then
        let '(r, s) := Handshake.NegotiateLatency (Rdv.recvLatMS d) (Rdv.sendLatMS d) (RecvTSBPDDelay e) (SendTSBPDDelay e) in
        (d <| Rdv.negRecv := r |> <| Rdv.negSend := s |> <| Rdv.negotiated := true |>, None)
      else (d, None)
  | None => (d, None)
  end.

Definition adoptKM (hs : CIFHandshake) : step := fun d =>
  match SRTKM hs, Rdv.cryptoCtx d with
  | Some km, Some ctx =>
      if hasExtFlags hs && HasKM hs && sideIs (Rdv.side d) rdvResponder && negb (Rdv.kmAdopted d) then
        let '(ctx, r) := Crypto.UnmarshalKM ctx km (Rdv.passphrase d) in
        let d := d <| Rdv.cryptoCtx := Some ctx |> in
        match r with
        | Err _ => (d, Some (RejectError rejBadSecret))
        | Ok _ => (d <| Rdv.kmKey := KeyBasedEncryption km |> <| Rdv.kmAdopted := true |>, None)
        end
      else (d, None)
  | _, _ => (d, None)
  end.

Definition learn (hs : CIFHandshake) : step :=
  andThen (learnPeer hs) (andThen (resolveSide hs) (andThen (checkCongestion hs) (andThen (negotiate hs) (adoptKM hs)))).

Definition late (hs : CIFHandshake) (d : rdvDial) : bool :=
  (HandshakeType hs =? HandshakeTypeWavehand) && bool_decide (Rdv.rstate d = rdvFine \/ Rdv.rstate d = rdvInitiated).

Definition advance (now : Z) (trans : rdvTransition) (d : rdvDial) (c : Conn) : Conn :=
  let d := d <| Rdv.rstate := newState trans |> <| Rdv.lastTrans := trans |> <| Rdv.haveTrans := true |> in
  let c := rendezvousEmit trans d (c <| rdv := Some d |>) in
  if bool_decide (newState trans = rdvConnected)
  then match rdv c with Some d => rendezvousEstablish now d c | None => c end
  else CoreHandshake.retry now c.

Definition handleRendezvous (now : Z) (hs : CIFHandshake) (d : rdvDial) (c : Conn) : Conn :=
  if late hs d then rendezvousRetransmit now d c else
  match learn hs d with
  | (d, Some e) => fail e (c <| rdv := Some d |>)
  | (d, None) =>
      let trans := rdvSwitchState (Rdv.rstate d) (HandshakeType hs) (Rdv.side d) (hasExtFlags hs) in
      if Cif.IsRejection (rspType trans) then fail (RejectError (rspType trans)) (c <| rdv := Some d |>) else
      advance now trans d c
  end.

End Rendezvous.

End Rendezvous.
