(* ===== verification/ConnCore.v ===== *)
(** * The inputs of a connection ([internal/core/conn.go], [handshake.go])

    A connection has two inputs from the host, a received packet and a timer
    that fired, besides the application's writes; both dispatch to the handlers.
    The buffers and the congestion controller are nil until [establish] makes them
    ([ready]).  [HandlePacket] says what a packet does; [HandlePacket_checked],
    [HandleTimer] and [writeMsg_checked] follow the same paths and are [None] where the
    code would dereference one of them while it is nil, which is a panic. *)
From Stdlib Require Import ZArith Lia.
From stdpp Require Import base numbers list option gmap.
From S2P Require Import Prelude Seq Packet Control Cif Clock Tsbpd Ring SendBuffer RecvBuffer Fifo Output FilterConfig Crypto Float64 Congestion Handshake ConnState KeyRotation ConnSend ConnRecv Establish CoreHandshake Rendezvous.
Import Packet(Packet, Hdr, Data, IsControl, ControlType, SubType).
Import ConnState.
Local Open Scope Z_scope.

Module ConnCore.

Section Inputs.
Context {P : Crypto.Primitives} {M : Float64.GoMath} {O : ConnRecv.RangeOrder}.

(** ** Handshake packets *)

Definition handleHandshake (now : Z) (p : Packet) (c : Conn) : Conn :=
  match Cif.HS_UnmarshalCIF Cif.zeroHS (Data p) with
  | Err _ => c
  | Ok hs =>
      if Cif.IsRejection (Cif.HandshakeType hs) then fail (Output.RejectError (Cif.HandshakeType hs)) c else
      match rdv c with
      | Some d => Rendezvous.handleRendezvous now hs d c
      | None =>
          match state c, dial c with
          | stateInduction, Some d => CoreHandshake.handleInductionResponse now hs d c
          | stateConclusion, Some d => CoreHandshake.handleConclusionResponse now hs d c
          | _, _ => c
          end
      end
  end.

Definition handleHandshakeTimer (now : Z) (c : Conn) : Conn :=
  match rdv c with
  | Some d => Rendezvous.rendezvousRetransmit now d c
  | None =>
      match state c, dial c with
      | stateInduction, Some d => CoreHandshake.sendInduction now d c
      | stateConclusion, Some d =>
          if Dial.hsv4 d then CoreHandshake.sendConclusionV4 now d c else CoreHandshake.sendConclusion now d c
      | _, _ => c
      end
  end.

(** ** Packets *)

Definition handleKeepalive (now : Z) (p : Packet) (c : Conn) : Conn :=
  let ts := Packet.Timestamp (Hdr p) in
  c <| groupIdle := true |>
    <| tsbpdTimer ::= option_map (fun t => Tsbpd.OnACK (Tsbpd.UpdateWrap t ts) ts now (-1)) |>.

Definition handleUser (now : Z) (p : Packet) (c : Conn) : Conn :=
  let st := SubType (Hdr p) in
  if st =? Packet.ExtTypeKMReq then KeyRotation.handleKMRequest now p c
  else if st =? Packet.ExtTypeKMRsp then KeyRotation.handleKMResponse p c
  else if st =? Packet.ExtTypeHSReq then CoreHandshake.handleHSv4HSREQ p c
  else if st =? Packet.ExtTypeHSRsp then CoreHandshake.handleHSv4HSRSP p c
  else c.

Definition handleControl (now : Z) (p : Packet) (c : Conn) : Conn :=
  let ct := ControlType (Hdr p) in
  if ct =? Packet.CtrlTypeACK then ConnSend.handleACK now p c
  else if ct =? Packet.CtrlTypeNAK then ConnSend.handleNAK now p c
  else if ct =? Packet.CtrlTypeACKACK then ConnRecv.handleACKACK now p c
  else if ct =? Packet.CtrlTypeDropReq then ConnRecv.handleDropReq now p c
  else if ct =? Packet.CtrlTypeUser then handleUser now p c
  else if ct =? Packet.CtrlTypeKeepalive then handleKeepalive now p c
  else if ct =? Packet.CtrlTypeShutdown then event Output.Closed (c <| closed := true |>)
  else c.

Definition HandlePacket (now : Z) (p : Packet) (c : Conn) : Conn :=
  let c := c <| lastNow := now |> in
  if closed c then c else
  let h := Hdr p in
  if IsControl h && (ControlType h =? Packet.CtrlTypeHandshake) then handleHandshake now p c else
  if negb (bool_decide (state c = stateConnected)) then
    match dial c with
    | Some _ => if IsControl h && (ControlType h =? Packet.CtrlTypeShutdown) then CoreHandshake.handshakeRefused c else c
    | None => c
    end
  else
  let c := if peerIdleTimeout c >? 0 then c <| lastRecvTime := now |> else c in
  if IsControl h then handleControl now p c else ConnRecv.handleData now p c.

(** ** Nil dereferences *)

(** The state [r] is reached by code that dereferences [sendBuf], [recvBuf] or [sendCC]
    of [c]. *)
Definition deref (c r : Conn) : option Conn := if ready c then Some r else None.

(** [pump] looks at the buffer and the window once a frame is queued. *)
Definition pump_checked (now : Z) (c : Conn) : option Conn :=
  let r := ConnSend.pump now c in if Fifo.len (sendQueue c) >? 0 then deref c r else Some r.

(** A write queues at least one frame and pumps. *)
Definition writeMsg_checked (now : Z) (data : list Z) (opts : ConnSend.MsgOptions) (owned : bool) (c : Conn) : option Conn :=
  let r := ConnSend.writeMsg now data opts owned c in
  if closed c || negb (bool_decide (state c = stateConnected)) then Some r else deref c r.

(** A repair packet ends in a delivery from the receive buffer; a source packet is
    inserted there unless it cannot be decrypted. *)
Definition handleData_checked (now : Z) (p : Packet) (c : Conn) : option Conn :=
  let r := ConnRecv.handleData now p c in
  let repair := bool_decide (is_Some (fecReceiver c)) && (Packet.MessageNumber (Hdr p) =? 0) in
  if repair || (ConnRecv.decrypt p c).1.1 then deref c r else Some r.

(** ACK, NAK and DROPREQ reach the buffers when their contents parse. *)
Definition handleControl_checked (now : Z) (p : Packet) (c : Conn) : option Conn :=
  let ct := ControlType (Hdr p) in
  let r := handleControl now p c in
  if ct =? Packet.CtrlTypeACK then
    match Control.CIFACK_UnmarshalCIF (Control.mkACK 0 0 0 0 0 0 0) (Data p) with Err _ => Some r | Ok _ => deref c r end
  else if ct =? Packet.CtrlTypeNAK then
    match Control.CIFNAK_UnmarshalCIF (Control.mkNAK []) (Data p) with Err _ => Some r | Ok _ => deref c r end
  else if ct =? Packet.CtrlTypeDropReq then
    match Control.CIFDropReq_UnmarshalCIF (Control.mkDropReq 0 0) (Data p) with Err _ => Some r | Ok _ => deref c r end
  else Some r.

Definition HandlePacket_checked (now : Z) (p : Packet) (c : Conn) : option Conn :=
  let c := c <| lastNow := now |> in
  if closed c then Some c else
  let h := Hdr p in
  if IsControl h && (ControlType h =? Packet.CtrlTypeHandshake) then Some (handleHandshake now p c) else
  if negb (bool_decide (state c = stateConnected)) then
    Some match dial c with
         | Some _ => if IsControl h && (ControlType h =? Packet.CtrlTypeShutdown) then CoreHandshake.handshakeRefused c else c
         | None => c
         end
  else
  let c := if peerIdleTimeout c >? 0 then c <| lastRecvTime := now |> else c in
  if IsControl h then handleControl_checked now p c else handleData_checked now p c.

(** ** Timers *)

Definition handleTimerACK (now : Z) (c : Conn) : Conn :=
  let c := ConnRecv.sendFullACK now c in
  let c := arm Output.TimerACK (Clock.Add now synInterval) c in
  if (sendDropThresh c >? 0) || msgTTLActive c then ConnSend.pump now c else c.

Definition handleTimerNAK (now : Z) (c : Conn) : Conn :=
  if negb (periodicNAK c) then c else
  let c := if ConnRecv.nakOwnLosses c then ConnRecv.sendPeriodicNAK now c else c in
  arm Output.TimerNAK (Clock.Add now (ConnRecv.nakInterval c)) c.

Definition HandleTimer (now : Z) (id : Output.TimerID) (c : Conn) : option Conn :=
  let c := ConnSend.sampleInputBandwidth now c in
  let c := c <| lastNow := now |> in
  if closed c then Some c else
  match id with
  | Output.TimerACK => deref c (handleTimerACK now c)
  | Output.TimerNAK => if periodicNAK c then deref c (handleTimerNAK now c) else Some c
  | Output.TimerSndPacing => pump_checked now c
  | Output.TimerTSBPD => match tsbpdTimer c with Some _ => deref c (ConnRecv.deliverTSBPD now c) | None => Some c end
  | Output.TimerHandshake => Some (handleHandshakeTimer now c)
  | Output.TimerKMRefresh => Some (KeyRotation.retryKMREQ now c)
  | Output.TimerKeepalive => Some (ConnSend.checkKeepalive now c)
  | Output.TimerPeerIdle => Some (ConnSend.checkPeerIdle now c)
  | Output.TimerEXP => Some (ConnSend.handleEXP now c)
  | Output.TimerLinger => Some c
  end.

(** [PollOutput] and [PollEvent]. *)
Definition PollOutput (c : Conn) : option Output.Output * Conn :=
  let '(o, ok, q) := Fifo.pop (Output.ClearTimer Output.TimerHandshake) (outputs c) in
  (if ok then Some o else None, c <| outputs := q |>).
Definition PollEvent (c : Conn) : option Output.Event * Conn :=
  let '(e, ok, q) := Fifo.pop Output.Closed (events c) in (if ok then Some e else None, c <| events := q |>).

(** A step that does not panic does what the unchecked one does, and with the buffers
    in place no step panics. *)
Lemma deref_inv c r c' : deref c r = Some c' -> c' = r.
Proof. unfold deref. destruct (ready c); congruence. Qed.

Lemma deref_ready c r : ready c = true -> deref c r = Some r.
Proof. unfold deref. by intros ->. Qed.

Lemma HandlePacket_checked_inv now p c c' : HandlePacket_checked now p c = Some c' -> c' = HandlePacket now p c.
Proof.
  unfold HandlePacket_checked, HandlePacket, handleControl_checked, handleData_checked. cbv zeta.
  repeat case_match; intros E; by (apply deref_inv in E || injection E as E).
Qed.

Lemma HandlePacket_checked_ready now p c : ready c = true -> HandlePacket_checked now p c = Some (HandlePacket now p c).
Proof.
  intros H. unfold HandlePacket_checked, HandlePacket, handleControl_checked, handleData_checked. cbv zeta.
  repeat case_match; try done; by apply deref_ready.
Qed.

(** Before the connection is up nothing reaches the buffers. *)
Lemma HandlePacket_checked_before now p c :
  state c <> stateConnected -> HandlePacket_checked now p c = Some (HandlePacket now p c).
Proof.
  intros H. unfold HandlePacket_checked, HandlePacket. cbv zeta. fields.
  rewrite bool_decide_eq_false_2 by done. cbn [negb]. repeat case_match; done.
Qed.

Lemma writeMsg_checked_inv now data opts owned c c' :
  writeMsg_checked now data opts owned c = Some c' -> c' = ConnSend.writeMsg now data opts owned c.
Proof. unfold writeMsg_checked. cbv zeta. destruct (_ || _); [congruence|apply deref_inv]. Qed.

Lemma writeMsg_checked_ready now data opts owned c :
  ready c = true \/ state c <> stateConnected ->
  writeMsg_checked now data opts owned c = Some (ConnSend.writeMsg now data opts owned c).
Proof.
  intros H. unfold writeMsg_checked. cbv zeta. destruct (_ || _) eqn:E; [done|]. apply deref_ready.
  destruct H as [H|H]; [done|]. apply orb_false_iff in E as [_ E]. by rewrite bool_decide_eq_false_2 in E.
Qed.

Definition Live (c : Conn) : bool := bool_decide (is_Some (tsbpdTimer c)).

End Inputs.

End ConnCore.
