(* ===== verification/Sender.v ===== *)
(** * The sender as a whole ([internal/core/conn.go])

    What the send path promises over a whole run: the packets in flight are a
    queue of consecutive sequence numbers that never exceeds the flow window,
    the pump sends the frames in order and stops for a reason, a stalled tail
    is retransmitted, and a message is cut into fragments that give it back. *)
From Stdlib Require Import ZArith Lia.
From stdpp Require Import base numbers list option relations.
From S2P Require Import Prelude Seq Packet Control Clock Ring SendBuffer Fifo Output FilterConfig Crypto Float64 Congestion Delivery ConnState ConnSend Establish.
Import Packet(Packet, Hdr, Data, PositionSingle, PositionFirst, PositionMiddle, PositionLast).
Import Output(SendPacket, SetTimer, TimerEXP).
Import ConnState.
Import ConnSend.
Local Open Scope Z_scope.
#[local] Existing Instances ConnSend.side_preorder ConnSend.kept_preorder.

Module Sender.

Section Sender.
Context {P : Crypto.Primitives} {M : Float64.GoMath}.

(** ** The invariant of the whole sender *)

(** The headers of the packets in flight carry consecutive numbers from the oldest on. *)
Definition numbered (c : Conn) (q : list SendBuffer.sendEntry) : Prop :=
  map seqOf q = Seq.seqs (SendBuffer.startSeq (sendBuf c)) (length q).

(** The packets [q] are in flight, within the flow window [w]. *)
Definition flow (w : Z) (c : Conn) : Prop :=
  exists k q, sinv k c q /\ numbered c q /\ len q <= flowWindow c /\ flowWindow c = w.

(** What the host and the peer make the sender do. *)
Inductive sstep : Conn -> Conn -> Prop :=
| st_write now data opts owned c : sstep c (writeMsg now data opts owned c)
| st_ack now p c : bytes_ok (Data p) -> sstep c (handleACK now p c)
| st_nak now p c : bytes_ok (Data p) -> sstep c (handleNAK now p c)
| st_pump now c : sstep c (pump now c)
| st_exp now c : sstep c (handleEXP now c)
| st_keepalive now c : sstep c (checkKeepalive now c)
| st_drop ms c : sstep c (SetSndDropDelay ms c).

Lemma sinv_same k c c' q :
  sendBuf c' = sendBuf c -> flowWindow c' = flowWindow c -> Fifo.wf (sendQueue c') -> Fifo.wf (outputs c') ->
  sinv k c q -> sinv k c' q.
Proof. intros E1 E2 W1 W2 [H1 H2 H3 H4 H5]. constructor; rewrite ?E1, ?E2; done. Qed.

Lemma flow_same w c c' :
  sendBuf c' = sendBuf c -> flowWindow c' = flowWindow c ->
  (Fifo.wf (sendQueue c) -> Fifo.wf (sendQueue c')) -> (Fifo.wf (outputs c) -> Fifo.wf (outputs c')) ->
  flow w c -> flow w c'.
Proof.
  intros E1 E2 W1 W2 (k & q & H & Hn & Hl & Hw). exists k, q. unfold numbered. rewrite E1, E2. split; [|done].
  apply (sinv_same k c); try done; [apply W1, H|apply W2, H].
Qed.

(** Releasing the [j] oldest packets keeps the others numbered. *)
Lemma numbered_drop k c c' q j :
  sinv k c q -> numbered c q -> (j <= length q)%nat ->
  SendBuffer.startSeq (sendBuf c') = Seq.sadd (SendBuffer.startSeq (sendBuf c)) (Z.of_nat j) -> numbered c' (drop j q).
Proof.
  intros H Hn Hj E. unfold numbered in *. rewrite E, length_drop, <- Seq.seqs_drop, <- Hn by (done || apply H).
  apply (fmap_drop seqOf).
Qed.

Lemma prefix_len_le p q : (SendBuffer.prefix_len p q <= length q)%nat.
Proof. induction q as [|e q IH]; cbn; [lia|]. destruct (p e); lia. Qed.

Lemma given_up_le now c q : (given_up now c q <= length q)%nat.
Proof. unfold given_up. destruct (_ || _); [lia|apply prefix_len_le]. Qed.

(** The oldest number in the buffer, from the next one. *)
Lemma start_of_next k sb q :
  SendBuffer.rep k sb q -> SendBuffer.startSeq sb = Seq.sadd (SendBuffer.nextSeq sb) (- len q).
Proof.
  intros H. rewrite (SendBuffer.rep_next _ _ _ H), Seq.sadd_sadd, Z.add_opp_diag_r, Seq.sadd_0 by apply H. done.
Qed.

Lemma flow_side w c c' : side c c' -> flow w c -> flow w c'.
Proof.
  intros S. destruct S as [E1 E2 E3 _ _ _ _ _ _ E10]. apply flow_same; try done; [by rewrite E2|].
  intros W. by destruct (E10 W).
Qed.

Lemma pump_flow w now c : flow w c -> flow w (pump now c).
Proof.
  intros (k & q & H & Hnum & Hl & Hw).
  destruct (pump_ok k now c q H) as (n & new & Hn & H' & K & _ & [F Hs _] & _ & Hwin & _ & Hnx).
  pose proof (given_up_le now c q) as Hg. apply Forall2_length in F. rewrite length_map, length_take in F.
  exists k, (drop (given_up now c q) q ++ new). split; [done|]. rewrite (kp_flow _ _ K). split.
  { assert (SendBuffer.startSeq (sendBuf (pump now c)) = Seq.sadd (SendBuffer.startSeq (sendBuf c)) (Z.of_nat (given_up now c q))) as Es.
    { rewrite (start_of_next k _ _ (si_rep _ _ _ H')), Hnx, (SendBuffer.rep_next _ _ _ (si_rep _ _ _ H)), !Seq.sadd_sadd.
      f_equal. unfold len. rewrite length_app, length_drop. lia. }
    unfold numbered in *. rewrite Es, map_app, length_app, Seq.seqs_app, Hs by apply Seq.sadd_seq. f_equal.
    - rewrite <- Es. by apply (numbered_drop k c (pump now c) q).
    - f_equal. rewrite (SendBuffer.rep_next _ _ _ (si_rep _ _ _ H)), Seq.sadd_sadd, length_drop. f_equal. unfold len. lia. }
  split; [|done]. pose proof (window_flow c).
  unfold len in *. rewrite length_app, length_drop in *.
  destruct n; [simpl in F; lia|]. specialize (Hwin ltac:(lia)). lia.
Qed.

Lemma enqueue_flow w fs c : flow w c -> flow w (enqueue fs c).
Proof.
  apply flow_same; unfold enqueue; fields; try done. generalize (sendQueue c).
  induction fs as [|f fs IH]; intros q W; [done|]. cbn [fold_left]. apply IH. by apply Fifo.push_wf.
Qed.

Ltac flow_upd :=
  match goal with
  | |- flow ?w (@upd _ _ ?g ?F ?h ?r) => apply (flow_same w r); [fields; done..|]
  end.
Ltac flows := repeat flow_upd; try done.

Lemma writeMsg_flow w now data opts owned c : flow w c -> flow w (writeMsg now data opts owned c).
Proof.
  intros H. unfold writeMsg. destruct (_ || _); [done|]. cbv zeta.
  set (c1 := c <| inputSampleBytes ::= _ |>). assert (flow w c1) as H1 by (unfold c1; flows). clearbody c1.
  set (c2 := c1 <| msgNumber ::= _ |>). assert (flow w c2) as H2 by (unfold c2; flows). clearbody c2.
  destruct (TTL opts >? 0); (destruct (_ || _); apply pump_flow, enqueue_flow; flows).
Qed.

Lemma resend_side c rp : side c (resend c rp).
Proof. unfold resend. sides. Qed.

Lemma resend_all_side rps : forall c, side c (fold_left resend rps c).
Proof.
  induction rps as [|rp rps IH]; intros c; [done|]. cbn [fold_left]. transitivity (resend c rp); [apply resend_side|apply IH].
Qed.

Lemma handleNAK_flow w now p c : bytes_ok (Data p) -> flow w c -> flow w (handleNAK now p c).
Proof.
  intros Hb H. unfold handleNAK.
  pose proof (Control.nak_decode_safe (length (Data p)) (Data p) [] ltac:(done) Hb ltac:(by constructor)) as Hn.
  unfold Control.CIFNAK_UnmarshalCIF. destruct (Control.nak_decode [] (Data p)) as [ls|]; cbn [mbind result_bind]; [|done].
  cbn [Control.LossList]. destruct Hn as [_ Hs]. cbv zeta.
  set (c1 := c <| recvNAKs ::= _ |> <| lostPackets ::= _ |> <| sendCC ::= _ |>).
  assert (flow w c1) as H1 by (unfold c1; flows). clearbody c1.
  destruct (rtt c1 >? 0); [|apply (flow_side w _ _ (resend_all_side _ _)); flows].
  unfold SendBuffer.NAKTimed. destruct H1 as (k & q & S1 & Hn1 & Hl & Hw).
  destruct (SendBuffer.nakTimed_keeps k now (Clock.Add now (i64 (- SendBuffer.rexmitGate (rtt c1) (rttVar c1)))) ls (sendBuf c1) q []
    (si_rep _ _ _ S1) (si_used _ _ _ S1) Hs) as (sb & q' & rx & -> & R & U & L & Est & Ep).
  apply (flow_side w _ _ (resend_all_side _ _)). exists k, q'. fields. rewrite L. split; [destruct S1; by constructor; fields|].
  split; [|done]. unfold numbered in *. fields. rewrite Est. unfold len in L. apply Nat2Z.inj in L. rewrite L, <- Hn1.
  unfold seqOf. by rewrite <- (map_map SendBuffer.pkt (fun p => Packet.SequenceNumber (Hdr p))), Ep, map_map.
Qed.

Lemma ACK_sinv k c q s :
  sinv k c q -> is_u32 s -> numbered c q ->
  exists j sb, SendBuffer.ACK (sendBuf c) s = (Z.of_nat j, sb) /\ sinv k (c <| sendBuf := sb |>) (drop j q) /\
    numbered (c <| sendBuf := sb |>) (drop j q).
Proof.
  intros H Hs Hn.
  destruct (SendBuffer.ACK_any k (sendBuf c) q s (si_rep _ _ _ H) (si_used _ _ _ H) Hs) as (j & sb & Hj & E & R & Est).
  exists j, sb. split; [done|]. split; [|apply (numbered_drop k c); by fields].
  destruct H. constructor; fields; try done. by apply Forall_drop.
Qed.

Lemma handleACK_flow w now p c : bytes_ok (Data p) -> flow w c -> flow w (handleACK now p c).
Proof.
  intros Hs H. unfold handleACK, Control.CIFACK_UnmarshalCIF.
  destruct (len (Data p) <? 4); [done|]. cbv zeta.
  match goal with |- context [SendBuffer.ACK _ (Control.LastACKPacketSequenceNumber ?a)] => set (ack := a) end.
  assert (Control.LastACKPacketSequenceNumber ack = Uint32 (Data p) 0) as -> by
    (unfold ack; destruct (len (Data p) >=? 28), (len (Data p) >=? 16); done).
  clearbody ack. set (c1 := c <| recvACKs ::= _ |>). assert (flow w c1) as (k & q & S1 & Hn & Hl & Hw) by (unfold c1; flows).
  destruct (ACK_sinv k c1 q _ S1 (Uint32_range _ 0 Hs) Hn) as (j & sb & -> & S2 & N2).
  set (n := Z.of_nat j).
  assert (flow w (c1 <| sendBuf := sb |>)) as H2.
  { exists k, (drop j q). split; [done|]. split; [done|]. fields. split; [|done]. unfold len in *. rewrite length_drop. lia. }
  clear S2 N2. clearbody n. set (c2 := c1 <| sendBuf := sb |>) in *. clearbody c2.
  set (c3 := if n >? 0 then _ else c2). assert (flow w c3) as H3 by (unfold c3; destruct (n >? 0); flows). clearbody c3.
  destruct (len (Data p) =? 4); apply pump_flow; [destruct (_ && _); flows|].
  set (c4 := answerACK now p c3). assert (flow w c4) as H4.
  { apply (flow_side w c3); [|done]. unfold c4, answerACK. cbv zeta. destruct (_ || _); sides. }
  clearbody c4. destruct (Control.RTT ack >? 0); flows.
Qed.

Lemma handleEXP_flow w now c : flow w c -> flow w (handleEXP now c).
Proof.
  intros H. unfold handleEXP. cbv zeta. destruct (_ && _ && _).
  - apply (flow_side w (retransmitAll (c <| sendCC ::= Congestion.OnTimeout |> <| rexmitCount ::= ibump 1 |>))); [sides|].
    unfold retransmitAll. apply (flow_side w _ _ (resend_all_side _ _)). flows.
  - apply (flow_side w c); [sides|done].
Qed.

Lemma sstep_flow w c c' : sstep c c' -> flow w c -> flow w c'.
Proof.
  intros St H. destruct St; eauto using writeMsg_flow, handleACK_flow, handleNAK_flow, pump_flow, handleEXP_flow.
  - apply (flow_side w c); [|done]. unfold checkKeepalive. destruct (_ <=? 0); [done|]. cbv zeta. destruct (_ >=? _); sides.
  - unfold SetSndDropDelay. destruct (negb _); [done|]. flows.
Qed.

(** ** Established connections *)

(** The parts of [establish] after the buffers are made do not touch them. *)
Record still (c c' : Conn) : Prop := mkStill {
  stl_buf : sendBuf c' = sendBuf c;
  stl_flow : flowWindow c' = flowWindow c;
  stl_queue : sendQueue c' = sendQueue c;
  stl_out : outputs c' = outputs c
}.

#[local] Instance still_preorder : PreOrder still.
Proof. split; [intros c; by constructor|]. intros a b c [] []. constructor; congruence. Qed.

Ltac still_upd := match goal with |- still ?c (@upd _ _ ?g ?F ?h ?r) => transitivity r; [|constructor; fields; done] end.
Ltac stills := repeat still_upd; try reflexivity.

Lemma applyBandwidth_still c : still c (applyBandwidth c).
Proof.
  unfold applyBandwidth. destruct (negb (ready c)); [done|]. destruct (negb _); [stills|]. cbv zeta.
  destruct (_ && _); stills.
Qed.

Lemma initPath_buffers now ep c :
  let c' := Establish.initPath now ep c in
  sendBuf c' = SendBuffer.NewSendBuffer (Establish.capacityOf ep (EP.SendBufCapacity ep)) (EP.SendISN ep) /\
  flowWindow c' = Establish.flowWindowOf ep /\ sendQueue c' = sendQueue c /\ outputs c' = outputs c.
Proof.
  cbv zeta. unfold Establish.initPath. cbv zeta. fields. destruct (applyBandwidth_still
    (c <| ConnState.peerSocketID := EP.PeerSocketID ep |> <| payloadSize := Establish.payloadSizeOf ep |>
       <| negotiatedMSS := if EP.MSS ep =? 0 then 1500 else EP.MSS ep |>
       <| sndTSBase := Clock.SRTTimestamp now |> <| lastNow := now |> <| sndISN := EP.SendISN ep |>
       <| rcvISN := EP.RecvISN ep |> <| peerVersion := EP.PeerVersion ep |>
       <| sendBuf := SendBuffer.NewSendBuffer (Establish.capacityOf ep (EP.SendBufCapacity ep)) (EP.SendISN ep) |>
       <| sendCC := Establish.controllerOf ep |> <| ready := true |> <| configuredMaxBW := EP.MaxBW ep |>
       <| inputBW := EP.InputBW ep |> <| minInputBW := EP.MinInputBW ep |> <| inputSampleStart := now |>
       <| sendCC ::= Congestion.SetOverhead (if EP.OverheadBW ep =? 0 then Congestion.DefaultOverhead else EP.OverheadBW ep) |>))
    as [E1 _ E3 E4].
  rewrite E1, E3, E4. fields. done.
Qed.

Lemma initPlayout_still ep c : still c (Establish.initPlayout ep c).
Proof.
  unfold Establish.initPlayout. destruct (EP.Live ep); [cbv zeta; destruct (EP.TLPktDrop ep); stills|].
  destruct (EP.Message ep); stills.
Qed.
Lemma initCrypto_still ep c : still c (Establish.initCrypto ep c).
Proof. unfold Establish.initCrypto. destruct (EP.CryptoCtx ep); stills. Qed.
Lemma initFilter_still ep c : still c (Establish.initFilter ep c).
Proof.
  unfold Establish.initFilter. destruct (EP.FilterConfig ep); [done|]. destruct (FilterConfig.ParseConfig _ _); stills.
Qed.

Lemma armTimers_side now ep c : side c (Establish.armTimers now ep c).
Proof.
  unfold Establish.armTimers. cbv zeta.
  set (c1 := arm Output.TimerACK _ c). assert (side c c1) as S1 by (unfold c1; sides). clearbody c1.
  set (c2 := if periodicNAK c1 then _ else c1).
  assert (side c c2) as S2 by (transitivity c1; [done|]; unfold c2; destruct (periodicNAK c1); sides). clearbody c2.
  transitivity c2; [done|]. destruct (_ >? 0); sides.
Qed.

Lemma capacity_covers ep own : Establish.flowWindowOf ep <= Establish.capacityOf ep own.
Proof.
  unfold Establish.capacityOf. cbv zeta. generalize (Establish.flowWindowOf ep). intros w.
  match goal with |- context [w >? ?cap] => destruct (Z.gtb_spec w cap) end; lia.
Qed.

(** A new connection starts with an empty window. *)
Lemma establish_flow now ep c :
  Seq.is_seq (EP.SendISN ep) -> Establish.capacityOf ep (EP.SendBufCapacity ep) <= 2 ^ 29 ->
  Fifo.wf (sendQueue c) -> Fifo.wf (outputs c) -> flow (Establish.flowWindowOf ep) (Establish.establish now ep c).
Proof.
  intros Hs Hc W1 W2. unfold Establish.establish. cbv zeta.
  destruct (initPath_buffers now ep c) as (E1 & E2 & E3 & E4). set (c1 := Establish.initPath now ep c) in *. clearbody c1.
  set (c2 := Establish.initFilter ep (Establish.initCrypto ep (Establish.initPlayout ep c1))).
  assert (still c1 c2) as S2.
  { unfold c2. etransitivity; [|apply initFilter_still]. etransitivity; [|apply initCrypto_still]. apply initPlayout_still. }
  clearbody c2. set (c3 := c2 <| rexmitCount := 1 |> <| lastACKTime := now |> <| periodicNAK := _ |> <| peerNakReport := _ |>).
  assert (still c1 c3) as S3 by (transitivity c2; [done|]; unfold c3; stills). clearbody c3.
  set (c4 := if _ >? 0 then _ else c3).
  assert (still c1 c4) as S4 by (transitivity c3; [done|]; unfold c4; destruct (_ >? 0); stills). clearbody c4.
  apply (flow_side _ (c4 <| state := stateConnected |>)); [apply armTimers_side|]. flows. destruct S4 as [F1 F2 F3 F4].
  destruct (SendBuffer.NewSendBuffer_rep _ _ Hc Hs) as (k & Hk & R).
  assert (Establish.flowWindowOf ep <= 2 ^ k).
  { pose proof (capacity_covers ep (EP.SendBufCapacity ep)). rewrite Hk.
    destruct (Ring.nextPow2_least (Establish.capacityOf ep (EP.SendBufCapacity ep)) ltac:(lia)) as (j & _ & -> & ? & _). lia. }
  assert (0 <= Establish.flowWindowOf ep) by (unfold Establish.flowWindowOf; destruct (Z.leb_spec (EP.FlowWindow ep) 0); lia).
  exists k, []. rewrite F2, E2. split; [|split; [done|done]]. constructor; rewrite ?F1, ?F2, ?F3, ?F4, ?E1, ?E2, ?E3, ?E4; done.
Qed.

(** C6. Flow control: from the moment a connection is established, whatever the
    application writes and whatever acknowledgements, loss reports and timers
    arrive, the send buffer is a queue of packets with consecutive sequence
    numbers in their headers, from the oldest number of the buffer on, never more of
    them than the negotiated flow window (nor than the ring has slots), and its size
    counts them exactly.  The contents of acknowledgements and loss reports are any
    bytes.  Two calls are not among the steps, because they leave flow control to the
    group that makes them: [WriteCoordinated], which does not look at the window, and
    [OverrideSndSeqNo], which moves the next number. *)
Theorem sender_flow_control (now : Z) (ep : EP.establishParams) (rand : nat -> option (list Z)) (c : Conn) :
  Seq.is_seq (EP.SendISN ep) -> Establish.capacityOf ep (EP.SendBufCapacity ep) <= 2 ^ 29 ->
  rtc sstep (Establish.establish now ep (zeroConn rand)) c ->
  exists k q, sinv k c q /\ map seqOf q = Seq.seqs (SendBuffer.startSeq (sendBuf c)) (length q) /\
    SendBuffer.Size (sendBuf c) = len q /\ len q <= Establish.flowWindowOf ep <= 2 ^ k.
Proof.
  intros Hs Hc Hr. assert (flow (Establish.flowWindowOf ep) c) as (k & q & H & Hn & Hl & Hw).
  { remember (Establish.establish now ep (zeroConn rand)) as c0 eqn:E0.
    assert (flow (Establish.flowWindowOf ep) c0) as H0 by (subst; apply establish_flow; [done|done| |]; unfold Fifo.wf, zeroConn; cbn; lia).
    clear E0. induction Hr as [|x y z Hxy _ IH]; [done|]. apply IH. by apply (sstep_flow _ x). }
  exists k, q. pose proof (si_cap _ _ _ H) as Hcap. rewrite Hw in Hl, Hcap. split; [done|]. split; [done|]. split; [by apply (sinv_size k c)|lia].
Qed.

(** ** The pump *)

(** C19. The pump sends exactly the queued frames that fit, in order: the packets
    it adds to the send buffer and hands to the host are those of the first
    frames of the queue, with consecutive sequence numbers from the next one
    on, their framing and (unencrypted) their payload; if it sent any, what is in
    flight then fits the window; and it stops only because the queue is
    empty, the window is full, or the next packet is not due, in which case the
    pacing timer is armed for it. *)
Theorem pump_exact (k now : Z) (c : Conn) (q : list SendBuffer.sendEntry) :
  sinv k c q ->
  let c' := pump now c in
  let q0 := drop (given_up now c q) q in
  exists n new, sinv k c' (q0 ++ new) /\ frames c' = drop n (frames c) /\
    Forall2 framed (take n (frames c)) (map SendBuffer.pkt new) /\
    map seqOf new = Seq.seqs (SendBuffer.nextSeq (sendBuf c)) (length new) /\
    (cryptoCtx c = None -> map dataOf new = map payload (take n (frames c))) /\
    originals c' = originals c ++ map SendBuffer.pkt new /\
    (n <> 0%nat -> len q0 + Z.of_nat n <= window c) /\
    stopped now (window c) (len q0 + Z.of_nat n) c'.
Proof.
  intros H. destruct (pump_ok k now c q H) as (n & new & _ & N2 & _ & N4 & [X1 X2 X3] & N6 & N7 & N8 & _).
  exists n, new. done.
Qed.

(** ** The retransmission timeout *)

Lemma resend_all_sent rps : forall c, Fifo.wf (outputs c) ->
  sent (fold_left resend rps c) = sent c ++ map (fun p => SendPacket p true) rps /\ Fifo.wf (outputs (fold_left resend rps c)) /\
  rtt (fold_left resend rps c) = rtt c /\ rttVar (fold_left resend rps c) = rttVar c.
Proof.
  induction rps as [|p rps IH]; intros c W; cbn [fold_left map]; [by rewrite app_nil_r|].
  destruct (IH (resend c p)) as (E1 & E2 & E3 & E4); [unfold resend, send, out; fields; by apply Fifo.push_wf|].
  rewrite E1, E3, E4. unfold resend, send, out, sent. fields. rewrite Fifo.push_contents, <- app_assoc by done. done.
Qed.

Lemma all_used q : Forall (fun e => SendBuffer.used e = true) q -> List.filter SendBuffer.used q = q.
Proof. induction 1 as [|e q E _ IH]; [done|]. cbn [List.filter]. by rewrite E, IH. Qed.

(** What re-arming leaves alone. *)
Definition sinv_fields (c c' : Conn) : Prop :=
  sendBuf c' = sendBuf c /\ flowWindow c' = flowWindow c /\ sendQueue c' = sendQueue c /\ ready c' = ready c /\
  (Fifo.wf (outputs c) -> Fifo.wf (outputs c')).

Lemma handleEXP_wf now c : Fifo.wf (outputs c) -> Fifo.wf (outputs (handleEXP now c)).
Proof.
  intros W. unfold handleEXP. cbv zeta. unfold arm, out. fields. apply Fifo.push_wf. destruct (_ && _ && _); [|done].
  fields. unfold retransmitAll. apply resend_all_sent. fields. done.
Qed.

Lemma handleEXP_grows now c : Fifo.wf (outputs c) -> exists l, sent (handleEXP now c) = sent c ++ l.
Proof.
  intros W. unfold handleEXP. cbv zeta. destruct (_ && _ && _).
  - unfold retransmitAll. match goal with |- context [fold_left resend ?rps ?c0] =>
      destruct (resend_all_sent rps c0) as (E1 & E2 & _ & _); [fields; done|]; set (c1 := fold_left resend rps c0) in * end.
    clearbody c1. eexists. unfold arm, out, sent. fields. unfold sent in E1. fields_in E1.
    rewrite Fifo.push_contents, E1, <- app_assoc by done. done.
  - eexists. unfold arm, out, sent. fields. by rewrite Fifo.push_contents.
Qed.

(** The timeout: all packets in flight are due. *)
Definition expired (now : Z) (c : Conn) : bool := Clock.Sub now (lastACKTime c) >? rto c.

Lemma handleEXP_fires k now c q :
  sinv k c q -> ready c = true -> expired now c = true ->
  sent (handleEXP now c) =
    sent c ++ map (fun e => SendPacket (SendBuffer.rexmitClone e) true) q ++ [SetTimer TimerEXP (Clock.Add now (rto (handleEXP now c)))].
Proof.
  intros H Hr He. unfold handleEXP, expired in *. cbv zeta. rewrite Hr, He. cbn [andb].
  rewrite (sinv_size k c q H). destruct (Z.gtb_spec (len q) 0).
  2: { assert (q = []) as -> by (destruct q; [done|unfold len in *; simpl in *; lia]). cbn [andb].
       unfold arm, out, sent, rto. fields. rewrite Fifo.push_contents by apply H. done. }
  cbn [andb]. unfold retransmitAll. fields. rewrite (SendBuffer.GetAllUnacked_rep k _ q), all_used by apply H.
  destruct (resend_all_sent (map SendBuffer.rexmitClone q) (c <| sendCC ::= Congestion.OnTimeout |> <| rexmitCount ::= ibump 1 |>))
    as (E1 & E2 & _ & _); [fields; apply H|].
  set (c1 := fold_left resend _ _) in *. clearbody c1. unfold arm, out, sent, rto. fields. unfold sent in E1. fields_in E1.
  rewrite Fifo.push_contents, E1, map_map, <- app_assoc by done. done.
Qed.

Lemma handleEXP_rearms now c :
  expired now c = false -> Fifo.wf (outputs c) ->
  sent (handleEXP now c) = sent c ++ [SetTimer TimerEXP (Clock.Add now (rto c))] /\ sinv_fields c (handleEXP now c) /\
  lastACKTime (handleEXP now c) = lastACKTime c /\ rto (handleEXP now c) = rto c.
Proof.
  intros He W. unfold handleEXP, expired, sinv_fields in *. cbv zeta. rewrite He, andb_false_r. unfold arm, out, sent, rto. fields.
  rewrite Fifo.push_contents by done. split; [done|]. split; [|done]. split_and!; try done. intros. by apply Fifo.push_wf.
Qed.


(** ** Messages *)

Section Fragments.
Context (ps : nat) (mk : list Z -> Z -> frame) (data : list Z).
Hypothesis ps_pos : (0 < ps)%nat.
Hypothesis mk_payload : forall part p, payload (mk part p) = part.
Hypothesis mk_pos : forall part p, pos (mk part p) = p.

Lemma fragments_nil fuel off : (length data <= off)%nat -> fragments fuel ps mk data off = [].
Proof. intros H. destruct fuel; [done|]. cbn [fragments]. by rewrite (proj2 (Nat.leb_le _ _) H). Qed.

Lemma fragments_data fuel : forall off,
  (length data - off <= fuel)%nat ->
  concat (map payload (fragments fuel ps mk data off)) = drop off data /\
  Forall (fun f => 0 < len (payload f) <= Z.of_nat ps /\ exists part p, f = mk part p) (fragments fuel ps mk data off).
Proof.
  induction fuel as [|fuel IH]; intros off H; [rewrite drop_ge by lia; done|]. cbn [fragments].
  destruct (Nat.leb_spec (length data) off); [by rewrite drop_ge|]. cbv zeta.
  destruct (IH (off + ps)%nat ltac:(lia)) as [E F]. cbn [map concat]. rewrite E, mk_payload. unfold slice. split.
  - rewrite <- (take_drop (Nat.min (off + ps) (length data) - off) (drop off data)) at 2. f_equal.
    rewrite drop_drop. destruct (Nat.min_spec (off + ps) (length data)) as [[? ->]|[? ->]]; [f_equal; lia|].
    rewrite !drop_ge by lia. done.
  - constructor; [|done]. rewrite mk_payload. split; [|eauto]. unfold len. rewrite length_take, length_drop. lia.
Qed.

(** Past the first fragment: middles, then the last. *)
Lemma fragments_tail fuel : forall off,
  (length data - off <= fuel)%nat -> (0 < off < length data)%nat ->
  exists m, map pos (fragments fuel ps mk data off) = replicate m PositionMiddle ++ [PositionLast].
Proof.
  induction fuel as [|fuel IH]; intros off H Ho; [lia|]. cbn [fragments].
  destruct (Nat.leb_spec (length data) off); [lia|]. cbv zeta. cbn [map]. rewrite mk_pos.
  destruct (Nat.eqb_spec off 0); [lia|]. destruct (Nat.eqb_spec (Nat.min (off + ps) (length data)) (length data)).
  - rewrite fragments_nil by lia. exists 0%nat. done.
  - destruct (IH (off + ps)%nat ltac:(lia) ltac:(lia)) as [m ->]. exists (S m). done.
Qed.

Lemma fragments_pos :
  (ps < length data)%nat ->
  exists m, map pos (fragments (length data) ps mk data 0) = PositionFirst :: replicate m PositionMiddle ++ [PositionLast].
Proof.
  intros H. remember (length data) as n eqn:En. destruct n as [|n]; [lia|]. cbn [fragments]. rewrite <- En. cbn [Nat.leb].
  cbv zeta. cbn [map]. rewrite mk_pos. cbn [Nat.eqb]. destruct (Nat.eqb_spec (Nat.min (0 + ps) (S n)) (S n)); [lia|].
  destruct (fragments_tail n ps ltac:(lia) ltac:(lia)) as [m Em]. exists m. rewrite Nat.add_0_l, Em. done.
Qed.
End Fragments.

Lemma enqueue_frames fs c :
  Fifo.wf (sendQueue c) -> frames (enqueue fs c) = frames c ++ fs.
Proof.
  unfold frames, enqueue. fields. generalize (sendQueue c). induction fs as [|f fs IH]; intros q W; cbn [fold_left]; [by rewrite app_nil_r|].
  rewrite IH by (by apply Fifo.push_wf). rewrite Fifo.push_contents, <- app_assoc by done. done.
Qed.

(** The packets [pkts] carry the frames [fs]. *)
Definition carried (fs : list frame) (pkts : list Packet) : Prop :=
  Forall2 (fun f p => framed f p /\ Data p = payload f) fs pkts.

Lemma carried_data fs pkts : carried fs pkts -> map Data pkts = map payload fs.
Proof. induction 1 as [|f p fs pkts [_ E] _ IH]; [done|]. cbn [map]. by rewrite E, IH. Qed.

(** C20. A message larger than a packet survives its fragmentation: the write
    queues fragments of at most the payload size, the first, middle and last
    ones marked as such and all with the message's number, and a receiver that
    reassembles packets carrying them delivers the very bytes that were
    written, as one message with that number. *)
Theorem message_roundtrip {T : Type} (now : Z) (data : list Z) (opts : MsgOptions) (owned : bool) (c : Conn) :
  closed c = false -> state c = stateConnected -> tsbpdTimer c = None -> 0 < payloadSize c < len data ->
  Fifo.wf (sendQueue c) ->
  exists fs c1 no, writeMsg now data opts owned c = pump now c1 /\ frames c1 = frames c ++ fs /\
    (exists m, map pos fs = PositionFirst :: replicate m PositionMiddle ++ [PositionLast]) /\
    Forall (fun f => 0 < len (payload f) <= payloadSize c /\ msgNo f = no /\ order f = InOrder opts) fs /\
    forall (path : Delivery.Path T) (pkts : list Packet), Fifo.wf (Delivery.events path) -> carried fs pkts ->
      exists path' s, Delivery.emitMessage path pkts = Some path' /\
        Fifo.contents (Delivery.events path') =
          Fifo.contents (Delivery.events path) ++ [Output.EData (Output.mkData data s no PositionFirst)].
Proof.
  intros Hc Hst Ht Hps Wq. unfold writeMsg. rewrite Hc, Hst, bool_decide_eq_true_2 by done. cbn [orb negb]. cbv zeta.
  set (no := msgNumber _). set (c2 := c <| inputSampleBytes ::= _ |> <| msgNumber ::= _ |>).
  assert (exists ttl c3, (if TTL opts >? 0 then (i64 (TTL opts * 1000), c2 <| msgTTLActive := true |>) else (0, c2)) = (ttl, c3) /\
    payloadSize c3 = payloadSize c /\ tsbpdTimer c3 = None /\ sendQueue c3 = sendQueue c) as (ttl & c3 & -> & P3 & T3 & Q3).
  { destruct (TTL opts >? 0); eexists _, _; (split; [done|]); unfold c2; fields; done. }
  rewrite P3, T3. destruct (Z.leb_spec (payloadSize c) 0); [lia|]. destruct (Z.leb_spec (len data) (payloadSize c)); [lia|].
  rewrite bool_decide_eq_false_2 by (intros [? ?]; done). cbn [orb].
  set (mk := fun part p => mkFrame part no p (InOrder opts) _ ttl false). set (ps := Z.to_nat (payloadSize c)).
  destruct (fragments_data ps mk data ltac:(lia) (fun _ _ => eq_refl) (length data) 0 ltac:(lia)) as [Hd Hf].
  destruct (fragments_pos ps mk data ltac:(lia) (fun _ _ => eq_refl) ltac:(unfold len in *; lia)) as [m Hm].
  set (fs := fragments _ _ mk _ _) in *. rewrite drop_0 in Hd.
  exists fs, (enqueue fs c3), no. split; [done|]. split; [rewrite enqueue_frames by (by rewrite Q3); unfold frames; by rewrite Q3|].
  split; [eauto|]. split.
  { eapply Forall_impl; [exact Hf|]. intros f (Hl & part & p & ->). split; [unfold ps in Hl; lia|done]. }
  intros path pkts We Hcar. clearbody fs. pose proof (carried_data _ _ Hcar) as Ed. destruct Hcar as [|f p fs' pkts [(F1 & F2 & _) Fd] Hrest]; [done|].
  cbn [Delivery.emitMessage]. eexists _, _. split; [done|]. cbn [Delivery.events]. rewrite Fifo.push_contents by done.
  do 4 f_equal; [|apply Forall_inv in Hf as (_ & part & p' & ->); exact F1|].
  - by rewrite <- Hd, Ed.
  - cbn [map] in Hm. injection Hm as Hm _. by rewrite F2.
Qed.

End Sender.

(** ** A concrete sender *)

#[local] Existing Instances Crypto.toy Float64.toyMath.

Definition toyRng (n : nat) : option (list Z) := Some (replicate 16 3).
Definition toyEP : EP.establishParams :=
  EP.zero <| EP.SendISN := 5 |> <| EP.RecvISN := 9 |> <| EP.FlowWindow := 4 |> <| EP.BufferCapacity := 4 |>
    <| EP.PayloadSize := 2 |> <| EP.Message := true |>.
Definition toyConn : Conn := Establish.establish 1000 toyEP (zeroConn toyRng).
Definition toyFrame : frame := mkFrame [7] 1 PositionSingle true 0 0 false.
Definition toyWriter : Conn := enqueue [toyFrame; toyFrame] toyConn.

Lemma toyConn_flow : flow 4 toyConn.
Proof.
  apply (establish_flow 1000 toyEP (zeroConn toyRng)); [| |unfold Fifo.wf, zeroConn; cbn; lia..].
  - vm_compute. intuition congruence.
  - vm_compute. congruence.
Qed.

Lemma toyWriter_sinv : exists k, sinv k toyWriter [].
Proof.
  destruct (enqueue_flow 4 [toyFrame; toyFrame] toyConn toyConn_flow) as (k & q & H & _). exists k. fold toyWriter in H.
  assert (len q = 0) as E by (rewrite <- (sinv_size k toyWriter q H); vm_compute; reflexivity).
  destruct q; [exact H|unfold len in E; simpl in E; lia].
Qed.

Lemma sender_flow_control_witness :
  exists k q, sinv k (Write 2000 [1; 2] toyConn) q /\
    map seqOf q = Seq.seqs (SendBuffer.startSeq (sendBuf (Write 2000 [1; 2] toyConn))) (length q) /\ SendBuffer.Size (sendBuf (Write 2000 [1; 2] toyConn)) = len q /\
    len q <= 4 <= 2 ^ k.
Proof.
  apply (sender_flow_control 1000 toyEP toyRng (Write 2000 [1; 2] toyConn)).
  - vm_compute. intuition congruence.
  - vm_compute. congruence.
  - apply rtc_once. apply st_write.
Defined.

Lemma pump_exact_witness :
  frames toyWriter <> [] /\
  exists k n new, sinv k (pump 2000 toyWriter) new /\ frames (pump 2000 toyWriter) = drop n (frames toyWriter) /\
    map seqOf new = Seq.seqs 5 (length new) /\ stopped 2000 (window toyWriter) (Z.of_nat n) (pump 2000 toyWriter).
Proof.
  split; [vm_compute; discriminate|]. destruct toyWriter_sinv as [k H].
  destruct (pump_exact k 2000 toyWriter [] H) as (n & new & H1 & H2 & _ & H4 & _ & _ & _ & H8).
  rewrite drop_nil in H1, H8. exists k, n, new. split; [exact H1|]. split; [exact H2|]. split; [exact H4|exact H8].
Defined.

(** A packet is in flight; its timer expires at 400 000 and at 800 000. *)
Definition toyStalled : Conn := Write 2000 [1; 2] toyConn.

Lemma toyStalled_sinv : exists k e, sinv k toyStalled [e].
Proof.
  destruct (writeMsg_flow 4 2000 [1; 2] (mkOpts 0 true 0 0 false) false toyConn toyConn_flow) as (k & q & H & _).
  assert (len q = 1) as E by (rewrite <- (sinv_size k _ q H); vm_compute; reflexivity).
  destruct q as [|e [|e' q]]; [discriminate E| |unfold len in E; simpl in E; lia]. by exists k, e.
Qed.


Lemma message_roundtrip_witness :
  exists fs c1, writeMsg 2000 [1; 2; 3; 4; 5] (mkOpts 0 true 0 0 false) false toyConn = pump 2000 c1 /\
    frames c1 = frames toyConn ++ fs /\ Forall (fun f => 0 < len (payload f) <= 2) fs.
Proof.
  destruct (message_roundtrip (T := unit) 2000 [1; 2; 3; 4; 5] (mkOpts 0 true 0 0 false) false toyConn)
    as (fs & c1 & no & H1 & H2 & _ & H4 & _).
  - vm_compute. reflexivity.
  - vm_compute. reflexivity.
  - vm_compute. reflexivity.
  - vm_compute. intuition congruence.
  - unfold Fifo.wf. vm_compute. lia.
  - exists fs, c1. split; [exact H1|]. split; [exact H2|]. eapply Forall_impl; [exact H4|]. intros f [Hf _]. exact Hf.
Defined.

End Sender.
