(* ===== verification/ConnSafe.v ===== *)
(** * The life of a connection ([internal/core/conn.go], [handshake.go], [rendezvous.go])

    The whole state machine under a host that polls outputs, fires the timers it
    was asked to arm, and delivers whatever packets arrive: no input makes it
    touch a buffer it does not have, and nothing comes out of a closed
    connection. *)
From Stdlib Require Import ZArith Lia.
From stdpp Require Import base numbers list option gmap relations.
From S2P Require Import Prelude Seq Packet Control Cif Clock Tsbpd Ring SendBuffer RecvBuffer Fifo Output Delivery FilterConfig Fec FecReceiver Crypto Float64 Congestion Handshake ConnState KeyRotation ConnSend ConnRecv Establish CoreHandshake Rendezvous ConnCore.
Import Packet(Packet, Hdr, Data).
Import Output(SendPacket, SetTimer, ClearTimer, TimerHandshake).
Import ConnState.
Import ConnCore.
Local Open Scope Z_scope.
#[local] Existing Instance ConnSend.side_preorder.

Module ConnSafe.

(** ** Functions that keep the buffers *)

Definition rdy (c c' : Conn) : Prop := ready c' = ready c.

#[local] Instance rdy_preorder : PreOrder rdy.
Proof. split; [done|]. unfold rdy. intros a b c ? ?. congruence. Qed.

Lemma rdy_upd {T} (f : Conn -> T) (F : Field f) h c c' :
  (forall r, ready (@upd _ _ f F h r) = ready r) -> rdy c c' -> rdy c (@upd _ _ f F h c').
Proof. unfold rdy. intros E H. by rewrite E. Qed.
Lemma rdy_out o c c' : rdy c c' -> rdy c (out o c').
Proof. unfold out. by apply rdy_upd. Qed.
Lemma rdy_event e c c' : rdy c c' -> rdy c (event e c').
Proof. unfold event. by apply rdy_upd. Qed.
Lemma rdy_side c c' : ConnSend.side c c' -> rdy c c'.
Proof. intros []. done. Qed.
Lemma rdy_let c e (b : Conn -> Conn) : rdy c e -> (forall x, rdy c x -> rdy c (b x)) -> rdy c (let x := e in b x).
Proof. auto. Qed.
Lemma rdy_fold {A} (f : Conn -> A -> Conn) l : (forall c x, rdy c (f c x)) -> forall c, rdy c (fold_left f l c).
Proof. intros H. induction l as [|x l IH]; intros c; [done|]. cbn [fold_left]. transitivity (f c x); [apply H|apply IH]. Qed.

(** Unfolding a function without its [let]s. *)
Tactic Notation "open" reference(f) := cbv beta delta [f].

Ltac rdy_bind :=
  lazymatch goal with |- rdy ?c (let x := ?e in @?b x) => apply (rdy_let c e b); cbv beta end.

Create HintDb rdy.
Ltac rdy_step :=
  lazymatch goal with
  | |- rdy ?c ?c => reflexivity
  | H : rdy ?c ?c' |- rdy ?c ?c' => exact H
  | |- rdy ?c (@upd _ _ ?g ?F ?h ?r) => apply (rdy_upd g F h); [done|]
  | |- rdy ?c (out _ _) => apply rdy_out
  | |- rdy ?c (arm _ _ _) => unfold arm
  | |- rdy ?c (send _ _) => unfold send
  | |- rdy ?c (event _ _) => apply rdy_event
  | |- rdy ?c (fail _ _) => unfold fail
  | |- rdy ?c (match ?x with _ => _ end) => destruct x
  | |- rdy ?c (let x := ?e in _) =>
      lazymatch type of e with
      | Conn => rdy_bind; [|intros ? ?]
      | _ => lazymatch goal with |- rdy ?c (let x := ?e in @?b x) => change (rdy c (b e)); cbv beta end
      end
  | |- rdy ?c (?f _ ?r) => transitivity r; [|solve [eauto with rdy]]
  | |- rdy ?c (?f ?r) => transitivity r; [|solve [eauto with rdy]]
  end.
Ltac rdys := repeat rdy_step; try done.

Section Ready.
Context {P : Crypto.Primitives} {M : Float64.GoMath} {O : ConnRecv.RangeOrder}.

Lemma checkSendDrop_rdy now c : rdy c (ConnSend.checkSendDrop now c).
Proof.
  open ConnSend.checkSendDrop. destruct (_ || _); [done|].
  destruct (SendBuffer.DropTooLateSend _ _ _) as [sb [[d f] l]]. open ConnSend.emitDropReq. rdys.
Qed.
#[local] Hint Resolve checkSendDrop_rdy : rdy.

Lemma drainFECSender_rdy s c : rdy c (ConnSend.drainFECSender s c).
Proof. apply rdy_side, ConnSend.drainFECSender_side. Qed.
Lemma checkKeyRotation_rdy now c : rdy c (KeyRotation.checkKeyRotation now c).
Proof. apply rdy_side, ConnSend.checkKeyRotation_side. Qed.
#[local] Hint Resolve drainFECSender_rdy checkKeyRotation_rdy : rdy.

Lemma sendData_rdy now s ts f c : rdy c (ConnSend.sendData now s ts f c).
Proof.
  open ConnSend.sendData. cbv zeta. destruct (SendBuffer.Push _ _ _) as [ok sb]. destruct (negb ok); [done|].
  open ConnSend.afterPush. rdys.
Qed.
#[local] Hint Resolve sendData_rdy : rdy.

Lemma pump_rdy now c : rdy c (ConnSend.pump now c).
Proof.
  open ConnSend.pump. rdy_bind; [apply checkSendDrop_rdy|]. intros c1 H1. transitivity c1; [done|]. clear.
  generalize (S (Z.to_nat (Fifo.len (sendQueue c1)))). intros fuel. revert c1.
  induction fuel as [|fuel IH]; intros x; cbn [ConnSend.pump_loop]; [done|]. destruct (_ >? 0); [|done].
  destruct (_ >=? _); [done|]. destruct (_ && _); [rdys|]. destruct (Fifo.pop _ _) as [[f ok] q]. open ConnSend.sendOne.
  etransitivity; [|apply IH]. rdys.
Qed.
#[local] Hint Resolve pump_rdy : rdy.

Lemma resend_rdy c rp : rdy c (ConnSend.resend c rp).
Proof. open ConnSend.resend. rdys. Qed.

Lemma handleNAK_rdy now p c : rdy c (ConnSend.handleNAK now p c).
Proof.
  open ConnSend.handleNAK. destruct (Control.CIFNAK_UnmarshalCIF _ _); [|done]. cbv zeta.
  destruct (if _ >? 0 then _ else _) as [sb rx]. etransitivity; [|apply rdy_fold, resend_rdy]. rdys.
Qed.

Lemma handleACK_rdy now p c : rdy c (ConnSend.handleACK now p c).
Proof.
  open ConnSend.handleACK. destruct (Control.CIFACK_UnmarshalCIF _ _); [|done].
  rdy_bind; [rdys|]. intros c1 H1. cbv zeta. destruct (SendBuffer.ACK _ _) as [n sb].
  open ConnSend.answerACK. rdys.
Qed.

Lemma handleEXP_rdy now c : rdy c (ConnSend.handleEXP now c).
Proof.
  open ConnSend.handleEXP. rdy_bind; [|intros; rdys]. destruct (_ && _ && _); [|done].
  rdy_bind; [rdys|]. intros c1 H1. apply rdy_upd; [done|]. transitivity c1; [done|]. apply rdy_fold, resend_rdy.
Qed.

Lemma applyBandwidth_rdy c : rdy c (ConnSend.applyBandwidth c).
Proof. open ConnSend.applyBandwidth. rdys. Qed.
#[local] Hint Resolve applyBandwidth_rdy : rdy.

Lemma sampleInputBandwidth_rdy now c : rdy c (ConnSend.sampleInputBandwidth now c).
Proof. open ConnSend.sampleInputBandwidth. rdys. Qed.

Lemma writeMsg_rdy now data opts owned c : rdy c (ConnSend.writeMsg now data opts owned c).
Proof.
  open ConnSend.writeMsg. destruct (_ || _); [done|]. rdy_bind; [rdys|]. intros c1 H1.
  rdy_bind; [rdys|]. intros c2 H2. cbv zeta. open ConnSend.enqueue. destruct (ConnSend.TTL opts >? 0); rdys.
Qed.

(** ** The receive path *)

Lemma deliverTSBPD_rdy now c : rdy c (ConnRecv.deliverTSBPD now c).
Proof. open ConnRecv.deliverTSBPD. open ConnRecv.setPath. rdys. Qed.

Lemma deliverNow_rdy now c : rdy c (ConnRecv.deliverNow now c).
Proof.
  open ConnRecv.deliverNow. destruct (tsbpdTimer c); [apply deliverTSBPD_rdy|]. destruct (messageMode c).
  - open ConnRecv.deliverMessages. generalize (S (Z.to_nat (RecvBuffer.size (recvBuf c)))). intros fuel. revert c.
    induction fuel as [|fuel IH]; intros c; cbn [ConnRecv.deliverMessages_loop]; [done|].
    destruct (RecvBuffer.ReadMessage _) as [[pkts ok] rb]. cbv zeta. destruct (negb ok); [rdys|].
    destruct (Delivery.emitMessage _ _); [|rdys]. etransitivity; [|apply IH]. open ConnRecv.setPath. rdys.
  - open ConnRecv.deliver. open ConnRecv.setPath. rdys.
Qed.
#[local] Hint Resolve deliverNow_rdy deliverTSBPD_rdy : rdy.

Lemma emitNAK_rdy now l c : rdy c (ConnRecv.emitNAK now l c).
Proof. open ConnRecv.emitNAK. rdys. Qed.
#[local] Hint Resolve emitNAK_rdy : rdy.

Lemma handleDropReq_rdy now p c : rdy c (ConnRecv.handleDropReq now p c).
Proof.
  open ConnRecv.handleDropReq. destruct (Control.CIFDropReq_UnmarshalCIF _ _); [|done].
  destruct (RecvBuffer.Drop _ _ _) as [[d rb] t]. rdys.
Qed.

Lemma reportGap_rdy now a b c : rdy c (ConnRecv.reportGap now a b c).
Proof. open ConnRecv.reportGap. open ConnRecv.sendImmediateNAK. open ConnRecv.deferGap. rdys. Qed.

Lemma flush_rdy now fr c : rdy c (ConnRecv.flushDeferredLoss now fr c).
Proof.
  open ConnRecv.flushDeferredLoss. destruct (deferredLoss c); [|done]. apply rdy_fold. clear. intros c x.
  open ConnRecv.flush1. open ConnRecv.sendImmediateNAK. rdys.
Qed.

Lemma sendFullACK_rdy now c : rdy c (ConnRecv.sendFullACK now c).
Proof.
  open ConnRecv.sendFullACK. cbv zeta. destruct (_ && _); [done|].
  destruct (if _ >=? _ then _ else _) as [[a b] d]. rdys.
Qed.

Lemma handleACKACK_rdy now p c : rdy c (ConnRecv.handleACKACK now p c).
Proof. open ConnRecv.handleACKACK. open ConnRecv.smoothRTT. rdys. Qed.

Lemma decrypt_rdy p c : let '(_, _, c') := ConnRecv.decrypt p c in rdy c c'.
Proof.
  open ConnRecv.decrypt. destruct (cryptoCtx c); [|done]. destruct (_ =? _); [done|]. cbv zeta.
  destruct (_ =? _); [rdys|]. destruct (Crypto.DecryptPayload _ _ _ _ _); [done|rdys].
Qed.

Lemma insertRecovered_rdy now rec c : rdy c (ConnRecv.insertRecovered now rec c).
Proof.
  apply rdy_fold. clear. intros c rp. open ConnRecv.insertRecovered1. cbv zeta.
  pose proof (decrypt_rdy (ConnRecv.recoveredPacket c rp) c) as H. destruct (ConnRecv.decrypt _ _) as [[ok p] c1].
  destruct (negb ok); [done|]. destruct (RecvBuffer.Insert _ _ _) as [res rb]. rdys.
Qed.
#[local] Hint Resolve insertRecovered_rdy reportGap_rdy flush_rdy : rdy.

Lemma accepted_rdy now p n fd res c : rdy c (ConnRecv.accepted now p n fd res c).
Proof.
  open ConnRecv.accepted. cbv zeta.
  set (c1 := ConnRecv.cancelDeferred _ _).
  assert (rdy c c1) as H1 by (unfold c1, ConnRecv.cancelDeferred; rdys). clearbody c1.
  set (c2 := c1 <| rcvPktCount ::= _ |> <| recvPackets ::= _ |> <| recvBytes ::= _ |> <| sendCC ::= _ |>).
  assert (rdy c c2) as H2 by (unfold c2; rdys). clearbody c2.
  set (c3 := if Packet.Retransmitted (Hdr p) then _ else _). assert (rdy c c3) as H3 by (unfold c3; rdys). clearbody c3.
  set (c4 := ConnRecv.anchorTimer now p c3). assert (rdy c c4) as H4.
  { unfold c4, ConnRecv.anchorTimer. rdys. } clearbody c4.
  set (c5 := ConnRecv.feedFEC now p fd c4). assert (rdy c c5) as H5.
  { unfold c5, ConnRecv.feedFEC. destruct (fecReceiver c4); [|done]. cbv zeta.
    destruct (FecReceiver.Receive _ _ _ _ _ _) as [[r1 r2] r3]. rdys. } clearbody c5.
  set (c6 := if RecvBuffer.HasGap res then _ else _). assert (rdy c c6) as H6 by (unfold c6; rdys). clearbody c6.
  set (c7 := ConnRecv.flushDeferredLoss now _ c6). assert (rdy c c7) as H7 by (unfold c7; rdys). clearbody c7.
  open ConnRecv.sendLiteACK. rdys.
Qed.

Lemma handleData_rdy now p c : rdy c (ConnRecv.handleData now p c).
Proof.
  assert (rdy c (ConnRecv.handleSource now p c)) as Hs.
  { open ConnRecv.handleSource. cbv zeta. set (c1 := if Packet.Retransmitted (Hdr p) then _ else _).
    assert (rdy c c1) as H1 by (unfold c1; rdys). clearbody c1.
    pose proof (decrypt_rdy p c1) as H. destruct (ConnRecv.decrypt p c1) as [[ok p'] c2].
    assert (rdy c c2) as H2 by (by transitivity c1). destruct (negb ok); [done|].
    destruct (RecvBuffer.Insert _ _ _) as [res rb]. destruct (negb _).
    - open ConnRecv.noteBelated. rdys.
    - transitivity (c2 <| recvBuf := rb |>); [rdys|apply accepted_rdy]. }
  open ConnRecv.handleData. destruct (fecReceiver c); [|done]. destruct (_ =? 0); [|done].
  open ConnRecv.handleFEC. cbv zeta. destruct (FecReceiver.Receive _ _ _ _ _ _) as [[r1 r2] r3]. rdys.
Qed.

(** ** The other inputs *)

Lemma handleKMRequest_rdy now p c : rdy c (KeyRotation.handleKMRequest now p c).
Proof.
  open KeyRotation.handleKMRequest. rdy_bind; [rdys|]. intros c1 H1. destruct (cryptoCtx c1); [|rdys].
  destruct (passphrase c1); [rdys|]. destruct (Cif.KM_UnmarshalCIF _ _); [|rdys]. destruct (Crypto.UnmarshalKM _ _ _).
  open KeyRotation.sendKMError. rdys.
Qed.

Lemma handleControl_rdy now p c : rdy c (handleControl now p c).
Proof.
  unfold handleControl, handleUser, KeyRotation.handleKMResponse, CoreHandshake.handleHSv4HSREQ, CoreHandshake.handleHSv4HSRSP,
    CoreHandshake.noteLatency, handleKeepalive. cbv zeta.
  repeat (case_match; eauto using handleACK_rdy, handleNAK_rdy, handleACKACK_rdy, handleDropReq_rdy, handleKMRequest_rdy; try solve [rdys]).
Qed.

(** ** Established connections are ready *)

Lemma establish_ready now ep c : ready (Establish.establish now ep c) = true.
Proof.
  assert (ready (Establish.initPath now ep c) = true) as H.
  { open Establish.initPath. cbv zeta. fields.
    match goal with |- ready (ConnSend.applyBandwidth ?x) = _ => rewrite (applyBandwidth_rdy x) end. by fields. }
  rewrite <- H. change (rdy (Establish.initPath now ep c) (Establish.establish now ep c)).
  open Establish.establish. cbv zeta. open Establish.armTimers. generalize (Establish.initPath now ep c). intros c0.
  set (c1 := Establish.initFilter _ _).
  assert (rdy c0 c1) as H1.
  { unfold c1. open Establish.initFilter. open Establish.initCrypto. open Establish.initPlayout.
    repeat first [progress rdys | case_match]. }
  clearbody c1. rdys.
Qed.

(** ** Before *)

(** Not connected, and no timer but the handshake's was asked for. *)
Record quiet (c : Conn) : Prop := mkQuiet {
  qt_state : state c <> stateConnected;
  qt_wf : Fifo.wf (outputs c);
  qt_timers : forall id d, SetTimer id d ∈ sent c -> id = TimerHandshake
}.

Lemma quiet_upd {T} (f : Conn -> T) (F : Field f) h c :
  (forall r, state (@upd _ _ f F h r) = state r) -> (forall r, outputs (@upd _ _ f F h r) = outputs r) ->
  quiet c -> quiet (@upd _ _ f F h c).
Proof. intros E1 E2 [H1 H2 H3]. constructor; unfold sent; rewrite ?E1, ?E2; done. Qed.

Lemma quiet_state st c : st <> stateConnected -> quiet c -> quiet (c <| state := st |>).
Proof. intros Hs [H1 H2 H3]. constructor; unfold sent; fields; done. Qed.

Lemma quiet_out o c : (forall id d, o = SetTimer id d -> id = TimerHandshake) -> quiet c -> quiet (out o c).
Proof.
  intros Ho [H1 H2 H3]. constructor; unfold out, sent; fields; [done|by apply Fifo.push_wf|].
  rewrite Fifo.push_contents by done. intros id d. rewrite elem_of_app, list_elem_of_singleton. intros [Hi|Hi]; [by apply (H3 id d)|].
  by apply (Ho id d).
Qed.

Ltac quiet_step :=
  lazymatch goal with
  | H : quiet ?c |- quiet ?c => exact H
  | |- quiet (@upd _ _ state _ _ _) => apply quiet_state; [discriminate|]
  | |- quiet (@upd _ _ ?g ?F ?h ?r) => apply (quiet_upd g F h); [done|done|]
  | |- quiet (out _ _) => apply quiet_out; [by intros ? ? [= <- _]|]
  | |- quiet (arm _ _ _) => open arm
  | |- quiet (send _ _) => open send
  | |- quiet (event _ _) => open event
  | |- quiet (fail _ _) => open fail; cbv zeta
  | |- quiet (match ?x with _ => _ end) => destruct x
  end.
Ltac quiets := repeat quiet_step; try done.

Definition settled (c : Conn) : Prop := ready c = true \/ quiet c.

Lemma retry_quiet now c : quiet c -> quiet (CoreHandshake.retry now c).
Proof. intros H. open CoreHandshake.retry. quiets. Qed.

Lemma rendezvousEmit_quiet tr d c : quiet c -> quiet (Rendezvous.rendezvousEmit tr d c).
Proof. intros H. open Rendezvous.rendezvousEmit. cbv zeta. quiets. Qed.

Lemma rendezvousRetransmit_quiet now d c : quiet c -> quiet (Rendezvous.rendezvousRetransmit now d c).
Proof.
  intros H. open Rendezvous.rendezvousRetransmit. apply retry_quiet. destruct (Rdv.haveTrans d); [by apply rendezvousEmit_quiet|].
  open Rendezvous.sendWavehand. quiets.
Qed.

(** Connecting: what follows [establish] keeps it ready. *)
Lemma ready_after now ep c c' : rdy (Establish.establish now ep c) c' -> settled c'.
Proof. intros H. left. rewrite H. apply establish_ready. Qed.

Lemma handleRendezvous_settled now hs d c : quiet c -> settled (Rendezvous.handleRendezvous now hs d c).
Proof.
  intros H. open Rendezvous.handleRendezvous. cbv zeta. destruct (Rendezvous.late hs d); [right; by apply rendezvousRetransmit_quiet|].
  destruct (Rendezvous.learn hs d) as [d1 [e|]]; [right; quiets|]. destruct (Cif.IsRejection _); [right; quiets|].
  open Rendezvous.advance. cbv zeta. set (d2 := d1 <| Rdv.rstate := _ |> <| Rdv.lastTrans := _ |> <| Rdv.haveTrans := _ |>).
  assert (quiet (Rendezvous.rendezvousEmit (Rendezvous.rdvSwitchState (Rdv.rstate d1) (Cif.HandshakeType hs) (Rdv.side d1)
    (Rendezvous.hasExtFlags hs)) d2 (c <| rdv := Some d2 |>))) as H1 by (apply rendezvousEmit_quiet; quiets).
  set (c1 := Rendezvous.rendezvousEmit _ _ _) in *. clearbody c1. case_bool_decide; [|right; by apply retry_quiet].
  destruct (rdv c1); [|by right]. open Rendezvous.rendezvousEstablish. cbv zeta. eapply ready_after. rdys.
Qed.

Lemma sendConclusion_quiet now d c : quiet c -> quiet (CoreHandshake.sendConclusion now d c).
Proof. intros H. open CoreHandshake.sendConclusion. cbv zeta. apply retry_quiet. quiets. Qed.
Lemma sendConclusionV4_quiet now d c : quiet c -> quiet (CoreHandshake.sendConclusionV4 now d c).
Proof. intros H. open CoreHandshake.sendConclusionV4. cbv zeta. apply retry_quiet. quiets. Qed.
Lemma sendInduction_quiet now d c : quiet c -> quiet (CoreHandshake.sendInduction now d c).
Proof. intros H. open CoreHandshake.sendInduction. cbv zeta. apply retry_quiet. quiets. Qed.

Lemma sendKMREQ_rdy now k c : rdy c (KeyRotation.sendKMREQ now k c).
Proof. apply rdy_side, ConnSend.sendKMREQ_side. Qed.
#[local] Hint Resolve sendKMREQ_rdy : rdy.

Lemma handleConclusionResponse_settled now hs d c : quiet c -> settled (CoreHandshake.handleConclusionResponse now hs d c).
Proof.
  intros H. open CoreHandshake.handleConclusionResponse. cbv zeta. destruct (Dial.hsv4 d).
  - open CoreHandshake.handleConclusionResponseV4. cbv zeta. destruct (negb _); [by right|].
    destruct (CoreHandshake.refuseConclusion _ _ _); [right; quiets|].
    destruct (Dial.cryptoCtx _); eapply ready_after; [open CoreHandshake.initHSv4KM|]; rdys.
  - destruct (negb _); [by right|]. destruct (CoreHandshake.refuseConclusion _ _ _); [right; quiets|].
    destruct (negb _); [right; quiets|]. destruct (_ && _ && _); [right; quiets|]. eapply ready_after. rdys.
Qed.

Lemma handleHandshake_settled now p c : quiet c -> settled (handleHandshake now p c).
Proof.
  intros H. open ConnCore.handleHandshake. destruct (Cif.HS_UnmarshalCIF _ _) as [hs|]; [|by right].
  destruct (Cif.IsRejection _); [right; quiets|]. destruct (rdv c); [by apply handleRendezvous_settled|].
  destruct (state c), (dial c); try (by right); [|by apply handleConclusionResponse_settled].
  open CoreHandshake.handleInductionResponse. cbv zeta. destruct (negb _); [by right|].
  destruct (_ || _); [right; apply sendConclusionV4_quiet; quiets|]. destruct (_ || _); [right; quiets|].
  right. apply sendConclusion_quiet. quiets.
Qed.

(** The same functions on a connection that has its buffers. *)
Lemma retry_rdy now c : rdy c (CoreHandshake.retry now c).
Proof. open CoreHandshake.retry. rdys. Qed.
#[local] Hint Resolve retry_rdy : rdy.
Lemma rendezvousEmit_rdy tr d c : rdy c (Rendezvous.rendezvousEmit tr d c).
Proof. open Rendezvous.rendezvousEmit. cbv zeta. rdys. Qed.
#[local] Hint Resolve rendezvousEmit_rdy : rdy.
Lemma rendezvousRetransmit_rdy now d c : rdy c (Rendezvous.rendezvousRetransmit now d c).
Proof. open Rendezvous.rendezvousRetransmit. open Rendezvous.sendWavehand. cbv zeta. rdys. Qed.

Lemma ready_rdy c c' : ready c = true -> rdy c c' -> ready c' = true.
Proof. intros H E. by rewrite E. Qed.
Lemma ready_established now ep c c' : rdy (Establish.establish now ep c) c' -> ready c' = true.
Proof. intros H. rewrite H. apply establish_ready. Qed.

Lemma handleHandshake_ready now p c : ready c = true -> ready (handleHandshake now p c) = true.
Proof.
  intros H. open ConnCore.handleHandshake. destruct (Cif.HS_UnmarshalCIF _ _) as [hs|]; [|done].
  destruct (Cif.IsRejection _); [apply (ready_rdy c); [done|rdys]|]. destruct (rdv c) as [d|].
  - open Rendezvous.handleRendezvous. cbv zeta. destruct (Rendezvous.late hs d); [by apply (ready_rdy c), rendezvousRetransmit_rdy|].
    destruct (Rendezvous.learn hs d) as [d1 [e|]]; [apply (ready_rdy c); [done|rdys]|].
    destruct (Cif.IsRejection _); [apply (ready_rdy c); [done|rdys]|]. open Rendezvous.advance. cbv zeta.
    set (c1 := Rendezvous.rendezvousEmit _ _ _). assert (rdy c c1) as H1 by (unfold c1; rdys). clearbody c1.
    case_bool_decide; [|apply (ready_rdy c); [done|rdys]]. destruct (rdv c1); [|by apply (ready_rdy c)].
    open Rendezvous.rendezvousEstablish. cbv zeta. eapply ready_established. rdys.
  - destruct (state c), (dial c) as [d|]; try done.
    + open CoreHandshake.handleInductionResponse. open CoreHandshake.sendConclusion. open CoreHandshake.sendConclusionV4.
      apply (ready_rdy c); [done|]. cbv zeta. rdys.
    + open CoreHandshake.handleConclusionResponse. open CoreHandshake.handleConclusionResponseV4. open CoreHandshake.initHSv4KM. cbv zeta.
      repeat (case_match; try (apply (ready_rdy c); [done|]; solve [rdys])); eapply ready_established; rdys.
Qed.

Lemma HandlePacket_ready now p c : ready c = true -> ready (HandlePacket now p c) = true.
Proof.
  intros H. open ConnCore.HandlePacket. cbv zeta. set (c1 := c <| lastNow := now |>).
  assert (ready c1 = true) as H1 by (unfold c1; by fields). clearbody c1. destruct (closed c1); [done|].
  destruct (_ && _); [by apply handleHandshake_ready|]. case_bool_decide; cbn [negb]; apply (ready_rdy c1); try done.
  - set (c2 := if _ >? 0 then _ else c1). assert (rdy c1 c2) as H2 by (unfold c2; rdys). clearbody c2.
    destruct (Packet.IsControl _); (transitivity c2; [done|]); [apply handleControl_rdy|apply handleData_rdy].
  - open CoreHandshake.handshakeRefused. rdys.
Qed.

Lemma HandlePacket_settled now p c : settled c -> settled (HandlePacket now p c).
Proof.
  intros [H|H]; [left; by apply HandlePacket_ready|]. open ConnCore.HandlePacket. cbv zeta.
  assert (quiet (c <| lastNow := now |>)) as Q by quiets. set (c1 := c <| lastNow := now |>) in *. clearbody c1.
  destruct (closed c1); [by right|]. destruct (_ && _); [by apply handleHandshake_settled|].
  rewrite bool_decide_eq_false_2 by apply Q. cbn [negb]. right. open CoreHandshake.handshakeRefused. quiets.
Qed.

Lemma sampleInputBandwidth_quiet now c : quiet c -> quiet (ConnSend.sampleInputBandwidth now c).
Proof. intros H. open ConnSend.sampleInputBandwidth. open ConnSend.applyBandwidth. cbv zeta. quiets. Qed.

Lemma timer_ready now id c c' : ready c = true -> HandleTimer now id c = Some c' -> ready c' = true.
Proof.
  intros H. open ConnCore.HandleTimer. cbv zeta.
  set (c1 := (ConnSend.sampleInputBandwidth now c) <| lastNow := now |>).
  assert (ready c1 = true) as Hr by (unfold c1; fields; by rewrite (sampleInputBandwidth_rdy now c)).
  clearbody c1. destruct (closed c1); [by intros [= <-]|]. unfold pump_checked, deref. rewrite Hr.
  destruct id; repeat case_match; intros [= <-]; apply (ready_rdy c1); try done.
  - open ConnCore.handleHandshakeTimer. open CoreHandshake.sendInduction. open CoreHandshake.sendConclusion.
    open CoreHandshake.sendConclusionV4. cbv zeta. repeat first [apply rendezvousRetransmit_rdy | rdy_step].
  - open ConnCore.handleTimerACK. cbv zeta. pose proof (sendFullACK_rdy now c1). rdys.
  - open ConnCore.handleTimerNAK. open ConnRecv.sendPeriodicNAK. cbv zeta. rdys.
  - apply handleEXP_rdy.
  - apply pump_rdy.
  - apply pump_rdy.
  - open ConnSend.checkKeepalive. cbv zeta. rdys.
  - open ConnSend.checkPeerIdle. cbv zeta. rdys.
  - open KeyRotation.retryKMREQ. rdys.
Qed.

Lemma timer_settled now id c c' : settled c -> (quiet c -> id = TimerHandshake) -> HandleTimer now id c = Some c' -> settled c'.
Proof.
  intros [H|H] Hid Ht; [left; by apply (timer_ready now id c)|]. rewrite (Hid H) in Ht. revert Ht. open ConnCore.HandleTimer. cbv zeta.
  set (c1 := (ConnSend.sampleInputBandwidth now c) <| lastNow := now |>).
  assert (quiet c1) as Q by (unfold c1; apply (sampleInputBandwidth_quiet now) in H; quiets). clearbody c1.
  destruct (closed c1); [intros [= <-]; by right|]. intros [= <-]. right.
  open ConnCore.handleHandshakeTimer. destruct (rdv c1); [by apply rendezvousRetransmit_quiet|].
  destruct (state c1), (dial c1) as [d|]; try done; [by apply sendInduction_quiet|].
  destruct (Dial.hsv4 d); [by apply sendConclusionV4_quiet|by apply sendConclusion_quiet].
Qed.

(** ** The host *)

(** The timers that an output asks for. *)
Definition asked (o : Output.Output) : list Output.TimerID := match o with SetTimer id _ => [id] | _ => [] end.

(** The host with the timers it was asked for: it fires only those. *)
Inductive hstep : list Output.TimerID * Conn -> list Output.TimerID * Conn -> Prop :=
| h_packet now p a c c' : HandlePacket_checked now p c = Some c' -> hstep (a, c) (a, c')
| h_timer now id a c c' : id ∈ a -> HandleTimer now id c = Some c' -> hstep (a, c) (a, c')
| h_write now data opts owned a c c' : writeMsg_checked now data opts owned c = Some c' -> hstep (a, c) (a, c')
| h_keepalive now a c : hstep (a, c) (a, ConnSend.SendKeepAlive now c)
| h_shutdown now a c : hstep (a, c) (a, ConnSend.Shutdown now c)
| h_output a c o c' : PollOutput c = (Some o, c') -> hstep (a, c) (asked o ++ a, c')
| h_event a c e c' : PollEvent c = (Some e, c') -> hstep (a, c) (a, c').

Definition hinv (h : list Output.TimerID * Conn) : Prop :=
  ready h.2 = true \/ (quiet h.2 /\ forall id, id ∈ h.1 -> id = TimerHandshake).

Lemma hinv_same a c c' : rdy c c' -> (quiet c -> quiet c') -> hinv (a, c) -> hinv (a, c').
Proof. intros E Q [H|[H Ha]]; [left; simpl in *; by rewrite E|right; split; [by apply Q|done]]. Qed.

Lemma PollOutput_quiet c o c' : PollOutput c = (Some o, c') -> quiet c -> quiet c' /\ forall id, id ∈ asked o -> id = TimerHandshake.
Proof.
  unfold PollOutput. intros E [H1 H2 H3]. pose proof (Fifo.pop_contents (ClearTimer TimerHandshake) (outputs c) H2) as Hp.
  destruct (Fifo.pop _ _) as [[v ok] q]. destruct Hp as [W Hp]. fold (sent c) in Hp.
  destruct (sent c) as [|x l] eqn:Es; destruct Hp as [Hv Hp]; [subst ok; discriminate E|]. destruct Hp as [-> Hl]. subst v.
  injection E as <- <-. split.
  - constructor; unfold sent; fields; [done|done|]. rewrite Hl. intros id d Hd. apply (H3 id d). by right.
  - intros id Hi. destruct x; try (by apply elem_of_nil in Hi). apply list_elem_of_singleton in Hi as ->. apply (H3 _ deadline). by left.
Qed.

Lemma hstep_inv h h' : hstep h h' -> hinv h -> hinv h'.
Proof.
  intros St H. destruct St as [now p a c c' Ep|now id a c c' Hid Ht|now data opts owned a c c' Ew|now a c|now a c|a c o c' E|a c e c' E].
  - apply HandlePacket_checked_inv in Ep as ->. destruct H as [H|[H Ha]]; cbn [fst snd] in *.
    + destruct (HandlePacket_settled now p c (or_introl H)) as [R|R]; [by left|]. left. by apply HandlePacket_ready.
    + destruct (HandlePacket_settled now p c (or_intror H)) as [R|R]; [by left|by right].
  - destruct H as [H|[H Ha]]; cbn [fst snd] in *; [left; by apply (timer_ready now id c)|].
    destruct (timer_settled now id c c' (or_intror H) (fun _ => Ha id Hid) Ht) as [R|R]; [by left|by right].
  - apply writeMsg_checked_inv in Ew as ->. apply (hinv_same a c); [apply writeMsg_rdy| |done]. intros [Hs Hw Hq]. unfold ConnSend.writeMsg.
    rewrite bool_decide_eq_false_2, orb_true_r by done. by constructor.
  - apply (hinv_same a c); [open ConnSend.SendKeepAlive; rdys| |done]. intros Q. open ConnSend.SendKeepAlive. quiets.
  - apply (hinv_same a c); [open ConnSend.Shutdown; rdys| |done]. intros Q. open ConnSend.Shutdown. cbv zeta. quiets.
  - destruct H as [H|[H Ha]]; cbn [fst snd] in *.
    + left. cbn [snd]. unfold PollOutput in E. destruct (Fifo.pop _ _) as [[v ok] q]. destruct ok; [|done]. injection E as _ <-. by fields.
    + destruct (PollOutput_quiet c o c' E H) as [Q Hi]. right. split; [done|]. cbn [fst]. intros id. rewrite elem_of_app. intros [?|?]; auto.
  - unfold PollEvent in E. destruct (Fifo.pop _ _) as [[v ok] q]. destruct ok; [|done]. injection E as _ <-.
    apply (hinv_same a c); [rdys| |done]. intros Q. quiets.
Qed.

Lemma hsteps_inv h h' : rtc hstep h h' -> hinv h -> hinv h'.
Proof. induction 1 as [|x y z Hxy _ IH]; intros H0; [done|]. apply IH. by apply (hstep_inv x). Qed.

(** How a connection comes to be: by dialling, by a rendezvous, or established
    (by the listener). *)
Inductive fresh : Conn -> Prop :=
| fresh_dial rand dc now : fresh (CoreHandshake.Dial rand dc now)
| fresh_rendezvous rand rc now : fresh (Rendezvous.DialRendezvous rand rc now)
| fresh_established rand ep now : fresh (Establish.establish now ep (zeroConn rand)).

Lemma zero_quiet rand : quiet (zeroConn rand).
Proof. constructor; [done|unfold Fifo.wf, zeroConn; cbn; lia|]. intros id d H. by apply elem_of_nil in H. Qed.

Lemma fresh_inv c : fresh c -> hinv ([], c).
Proof.
  destruct 1 as [rand dc now|rand rc now|rand ep now]; [right|right|left; apply establish_ready];
    (split; [|intros id H; by apply elem_of_nil in H]); pose proof (zero_quiet rand) as Q.
  - unfold CoreHandshake.Dial. apply sendInduction_quiet. quiets.
  - unfold Rendezvous.DialRendezvous. apply retry_quiet. open Rendezvous.sendWavehand. quiets.
Qed.

(** Packets and writes. *)
Lemma hinv_packet a c now p : hinv (a, c) -> HandlePacket_checked now p c = Some (HandlePacket now p c).
Proof.
  intros [H|[H _]]; [by apply HandlePacket_checked_ready|]. by apply HandlePacket_checked_before, H.
Qed.

Lemma hinv_write a c now data opts owned :
  hinv (a, c) -> writeMsg_checked now data opts owned c = Some (ConnSend.writeMsg now data opts owned c).
Proof. intros H. apply writeMsg_checked_ready. destruct H as [H|[H _]]; [by left|]. right. apply H. Qed.

Lemma hinv_timer a c id now : hinv (a, c) -> id ∈ a -> exists c', HandleTimer now id c = Some c'.
Proof.
  intros [H|[H Ha]] Hid; cbn [fst snd] in *.
  - unfold HandleTimer. cbv zeta. set (c1 := (ConnSend.sampleInputBandwidth now c) <| lastNow := now |>).
    assert (ready c1 = true) as Hr by (unfold c1; fields; rewrite (sampleInputBandwidth_rdy now c); exact H).
    destruct (closed c1); [eauto|]. unfold pump_checked, deref. rewrite Hr. destruct id; repeat case_match; eauto.
  - rewrite (Ha id Hid). unfold HandleTimer. destruct (closed _); eauto.
Qed.

(** C8. No input makes a connection dereference a missing buffer: however it came to
    be (dialled, by rendezvous, or established by the listener), and whatever packets,
    writes, keepalives, shutdowns and polls follow, as long as the host fires
    only timers it was asked to arm, the next packet is handled without a panic, whatever
    it is, and so are the next write and any timer that was asked for; and while the
    buffers do not exist yet, every timer that was asked for, or is queued to
    be asked for, is the handshake timer. *)
Theorem conn_inputs_safe (c0 c : Conn) (a : list Output.TimerID) :
  fresh c0 -> rtc hstep ([], c0) (a, c) ->
  (forall now p, HandlePacket_checked now p c = Some (HandlePacket now p c)) /\
  (forall now data opts owned,
     writeMsg_checked now data opts owned c = Some (ConnSend.writeMsg now data opts owned c)) /\
  (forall now id, id ∈ a -> exists c', HandleTimer now id c = Some c') /\
  (ready c = false -> forall id, id ∈ a \/ (exists d, SetTimer id d ∈ sent c) -> id = TimerHandshake).
Proof.
  intros Hf Hr. pose proof (hsteps_inv _ _ Hr (fresh_inv c0 Hf)) as H.
  split_and!; [| |intros now id; by apply hinv_timer|].
  - intros now p. by apply (hinv_packet a).
  - intros now data opts owned. by apply (hinv_write a).
  - intros Hn id Hid. destruct H as [H|[[_ _ Hq] Ha]]; cbn [fst snd] in *; [congruence|].
    destruct Hid as [Hid|[d Hid]]; [by apply Ha|by apply (Hq id d)].
Qed.

(** ** Closing *)

(** A closed connection is silent for good: no packet, timer or write queues
    another output or event on it, and none reopens it. *)
Theorem closed_is_final (now : Z) (p : Packet) (id : Output.TimerID) (data : list Z) (opts : ConnSend.MsgOptions)
    (owned : bool) (c : Conn) :
  closed c = true ->
  let silent c' := outputs c' = outputs c /\ events c' = events c /\ closed c' = true in
  silent (HandlePacket now p c) /\ (exists c', HandleTimer now id c = Some c' /\ silent c') /\
  ConnSend.writeMsg now data opts owned c = c /\ ConnSend.SendKeepAlive now c = c /\ ConnSend.Shutdown now c = c.
Proof.
  intros H. cbv zeta. split; [|split].
  - unfold HandlePacket. cbv zeta. fields. rewrite H. by fields.
  - unfold HandleTimer. cbv zeta. set (c1 := ConnSend.sampleInputBandwidth now c).
    assert (outputs c1 = outputs c /\ events c1 = events c /\ closed c1 = true) as (E1 & E2 & E3).
    { unfold c1, ConnSend.sampleInputBandwidth, ConnSend.applyBandwidth. repeat case_match; fields; done. }
    clearbody c1. fields. rewrite E3. eexists. split; [done|]. by fields.
  - unfold ConnSend.writeMsg, ConnSend.SendKeepAlive, ConnSend.Shutdown. by rewrite H.
Qed.

End Ready.

(** ** A concrete run *)

#[local] Existing Instances Crypto.toy Float64.toyMath ConnRecv.toyRange.

Definition toyUp : Conn :=
  Establish.establish 1000 (EP.zero <| EP.FlowWindow := 4 |> <| EP.BufferCapacity := 4 |>) (zeroConn (fun _ => None)).
Definition toyPolled : Conn := snd (PollOutput toyUp).

Definition toyDial : CoreHandshake.DialConfig :=
  CoreHandshake.mkDialConfig 77 1000 1400 0 80 0 [] [115; 49] [] None [] 0 0 false 0 0 0 0 0 0 0 0 true false
    true 0 0 false 0 false 0 0 0.

(** The first output asks for the ACK timer, which then fires; and a caller that is
    still dialling takes any packet. *)
Lemma conn_inputs_safe_witness :
  (exists c', HandleTimer 11000 Output.TimerACK toyPolled = Some c') /\
  (forall p, HandlePacket_checked 5 p (CoreHandshake.Dial (fun _ => None) toyDial 4) =
     Some (HandlePacket 5 p (CoreHandshake.Dial (fun _ => None) toyDial 4))).
Proof.
  split.
  - destruct (conn_inputs_safe toyUp toyPolled [Output.TimerACK]) as (_ & _ & H & _).
    + apply fresh_established.
    + apply rtc_once. apply (h_output [] toyUp (SetTimer Output.TimerACK 11000) toyPolled).
      unfold toyPolled. destruct (PollOutput toyUp) as [o c] eqn:E. cbn [snd]. f_equal.
      change o with (fst (o, c)). rewrite <- E. vm_compute. reflexivity.
    + apply H. apply list_elem_of_singleton. reflexivity.
  - destruct (conn_inputs_safe (CoreHandshake.Dial (fun _ => None) toyDial 4) (CoreHandshake.Dial (fun _ => None) toyDial 4) [])
      as (H & _); [apply fresh_dial|apply rtc_refl|]. intros p. apply H.
Defined.

Lemma closed_is_final_witness :
  ConnSend.writeMsg 5 [1] (ConnSend.mkOpts 0 true 0 0 false) false (ConnSend.Shutdown 4 toyUp) = ConnSend.Shutdown 4 toyUp.
Proof.
  destruct (closed_is_final 5 (Packet.NewControl None 0 0 0) Output.TimerACK [1] (ConnSend.mkOpts 0 true 0 0 false) false
    (ConnSend.Shutdown 4 toyUp)) as (_ & _ & H & _).
  - vm_compute. reflexivity.
  - exact H.
Defined.

End ConnSafe.
