(* ===== verification/StreamSend.v ===== *)
(** * What a sender puts on the wire ([internal/core/conn.go])

    Every data packet that leaves an unencrypted sender without a filter, first
    transmission or repeat, carries one of the frames the application wrote, under
    the sequence number of its place in the stream.  So whatever the peer reports
    and whichever timers fire, the wire never holds two packets that disagree about
    a place. *)
From Stdlib Require Import ZArith Lia.
From stdpp Require Import base numbers list option relations.
From S2P Require Import Prelude Seq Packet Control Clock Ring SendBuffer Fifo Output Crypto Float64 Congestion ConnState KeyRotation ConnSend Establish ConnCore Sender.
Import Packet(Packet, Hdr, Data, IsControl, PositionSingle).
Import Output(SendPacket, SetTimer).
Import ConnState.
Import ConnSend.
Local Open Scope Z_scope.
#[local] Existing Instances ConnSend.side_preorder ConnSend.kept_preorder.

Module StreamSend.

(** ** Connections that lose nothing *)

(** An established connection in stream mode: no cipher, no filter, no playout
    timer, and nothing gives up on a packet. *)
Definition reliable (c : Conn) : Prop :=
  (cryptoCtx c = None /\ kmAnnounced c = false /\ fecSender c = None /\ fecReceiver c = None) /\
  (sendDropThresh c <= 0 /\ msgTTLActive c = false /\ tlPktDrop c = false) /\
  (tsbpdTimer c = None /\ messageMode c = false) /\
  (rdv c = None /\ state c = stateConnected /\ ready c = true).

(** The packets among the outputs. *)
Definition packetOut (o : Output.Output) : option Packet := match o with SendPacket p _ => Some p | _ => None end.
Definition wire (c : Conn) : list Packet := omap packetOut (sent c).

(** What the pump emits: timers and data packets for the first time. *)
Definition tame (o : Output.Output) : Prop :=
  match o with SendPacket p owned => IsControl (Hdr p) = false /\ owned = false | _ => True end.

(** [c'] has queued such outputs after those of [c] and has received nothing. *)
Record ext (c c' : Conn) : Prop := mkExt {
  ext_reliable : reliable c -> reliable c';
  ext_recv : reliable c -> recvBuf c' = recvBuf c /\ events c' = events c;
  ext_out : reliable c -> Fifo.wf (outputs c) -> Fifo.wf (outputs c') /\ exists l, sent c' = sent c ++ l /\ Forall tame l
}.

#[local] Instance ext_preorder : PreOrder ext.
Proof.
  split.
  - intros c. constructor; [done|done|]. intros _ W. split; [done|]. exists []. by rewrite app_nil_r.
  - intros a b c [P1 V1 E1] [P2 V2 E2]. constructor; [auto| |].
    + intros Hp. destruct (V1 Hp), (V2 (P1 Hp)). split; congruence.
    + intros Hp W. destruct (E1 Hp W) as (W1 & l1 & S1 & T1).
      destruct (E2 (P1 Hp) W1) as (W2 & l2 & S2 & T2). split; [done|]. exists (l1 ++ l2). rewrite S2, S1, <- app_assoc. split; [done|].
      by apply Forall_app.
Qed.

Lemma ext_out_one c o : tame o -> ext c (out o c).
Proof.
  intros T. constructor; [done|done|]. intros _ W. unfold out, sent. fields. split; [by apply Fifo.push_wf|]. exists [o].
  rewrite Fifo.push_contents by done. split; [done|]. by constructor.
Qed.

(** Updates of the other fields. *)
Ltac ext_upd :=
  match goal with
  | |- ext ?c (@upd _ _ ?g ?F ?h ?r) => transitivity r; [|generalize r; intros ?; constructor; [by unfold reliable; fields|fields; done|];
        intros _ W; unfold sent; fields; split; [done|]; exists []; by rewrite app_nil_r]
  | |- ext ?c (out ?o ?r) => transitivity r; [|by apply ext_out_one]
  | |- ext ?c (arm _ _ ?r) => unfold arm
  end.
Ltac exts := repeat ext_upd; try reflexivity.

Section Sending.
Context {P : Crypto.Primitives}.

(** Nothing is dropped. *)
Lemma checkSendDrop_reliable now c : reliable c -> checkSendDrop now c = c.
Proof.
  intros (_ & (Hd & Ht & _) & _ & _). unfold checkSendDrop. rewrite Ht. destruct (Z.leb_spec (sendDropThresh c) 0); [done|lia].
Qed.
Lemma given_up_reliable now c q : reliable c -> given_up now c q = 0%nat.
Proof.
  intros (_ & (Hd & Ht & _) & _ & _). unfold given_up. rewrite Ht. destruct (Z.leb_spec (sendDropThresh c) 0); [done|lia].
Qed.

Lemma afterPush_ext now s p f c : IsControl (Hdr p) = false -> ext c (afterPush now s p f c).
Proof.
  intros Hd. unfold afterPush. cbv zeta. set (c1 := if ttlNs f >? 0 then _ else c).
  assert (ext c c1) as E1 by (unfold c1; destruct (ttlNs f >? 0); exts). clearbody c1.
  set (c2 := _ <| sendCC ::= _ |>). assert (ext c c2) as E2 by (transitivity c1; [done|]; unfold c2; exts). clearbody c2. clear E1.
  destruct E2 as [P2 V2 O2].
  constructor; intros Hp; destruct (P2 Hp) as [(C2 & _ & F2 & _) _]; rewrite F2, C2; auto.
Qed.

Lemma buildData_control c s ts f : cryptoCtx c = None -> IsControl (Hdr (buildData c s ts f)) = false.
Proof. intros H. unfold buildData. rewrite H. by destruct (_ && _). Qed.

Lemma sendData_ext now s ts f c : ext c (sendData now s ts f c).
Proof.
  unfold sendData. destruct (SendBuffer.Push _ _ _) as [ok sb]. destruct ok; cbn [negb]; [|done].
  set (c1 := c <| sendBuf := sb |>). assert (ext c c1) as E1 by (unfold c1; exts).
  assert (reliable c -> ext c (afterPush now s (buildData c s ts f) f c1)) as E.
  { intros [(Hp & _) _]. transitivity c1; [done|]. by apply afterPush_ext, buildData_control. }
  constructor; intros Hp; apply (E Hp); done.
Qed.

Lemma pump_loop_ext now fuel : forall c, ext c (pump_loop fuel now c).
Proof.
  induction fuel as [|fuel IH]; intros c1; [done|]. cbn [pump_loop]. destruct (_ >? 0); [|done]. destruct (_ >=? _); [done|].
  destruct (_ && _); [exts|]. destruct (Fifo.pop _ _) as [[f ok] q]. unfold sendOne. cbv zeta.
  etransitivity; [|apply IH]. exts. etransitivity; [|apply sendData_ext]. exts.
Qed.

Lemma pump_ext now c : ext c (pump now c).
Proof.
  constructor; intros Hp; unfold pump; rewrite checkSendDrop_reliable by done; apply pump_loop_ext; done.
Qed.

(** ** The stream *)

(** The frames that a write queues. *)
Definition framesOf (now : Z) (data : list Z) (opts : MsgOptions) (owned : bool) (c : Conn) : list frame :=
  let no := if ForceMsgNo opts then Z.land (MsgNo opts) 0x03FFFFFF else nextMsgNo (msgNumber c) in
  let ttl := if TTL opts >? 0 then i64 (TTL opts * 1000) else 0 in
  if (payloadSize c <=? 0) || (len data <=? payloadSize c) || bool_decide (is_Some (tsbpdTimer c))
  then [mkFrame data no PositionSingle (InOrder opts) (SrcTime opts) ttl owned]
  else fragments (length data) (Z.to_nat (payloadSize c))
         (fun part p => mkFrame part no p (InOrder opts) (if SrcTime opts =? 0 then wireTS c now else SrcTime opts) ttl false) data 0.

Lemma framesOf_data now data opts owned c : concat (map payload (framesOf now data opts owned c)) = data.
Proof.
  unfold framesOf. cbv zeta. destruct (Z.leb_spec (payloadSize c) 0); [by cbn; rewrite app_nil_r|].
  destruct (_ || _); [by cbn; rewrite app_nil_r|].
  match goal with |- context [fragments _ ?ps ?mk data 0] =>
    apply (Sender.fragments_data ps mk data ltac:(lia) (fun _ _ => eq_refl) (length data) 0 ltac:(lia)) end.
Qed.

(** A write is its frames queued, then the pump; the rest of the sending state is
    as it was. *)
Lemma writeMsg_frames now data opts owned c : closed c = false -> state c = stateConnected -> TTL opts <= 0 ->
  exists c1, writeMsg now data opts owned c = pump now (enqueue (framesOf now data opts owned c) c1) /\
    (reliable c -> reliable c1) /\ (sendBuf c1 = sendBuf c /\ sendQueue c1 = sendQueue c /\ flowWindow c1 = flowWindow c) /\
    outputs c1 = outputs c /\ recvBuf c1 = recvBuf c /\ events c1 = events c.
Proof.
  intros Hc Hs Ht. unfold writeMsg. rewrite Hc, Hs, bool_decide_eq_true_2 by done. cbn [orb negb]. cbv zeta. unfold framesOf. cbv zeta.
  set (c2 := c <| inputSampleBytes ::= _ |> <| msgNumber ::= _ |>). exists c2. destruct (Z.gtb_spec (TTL opts) 0); [lia|].
  split; [|split; [by unfold reliable, c2; fields|done]]. unfold c2. fields. destruct (_ || _); done.
Qed.

(** A packet carries the frame at place [i] of the stream, which starts at [isn]. *)
Definition carries (isn : Z) (stream : list frame) (i : nat) (p : Packet) : Prop :=
  IsControl (Hdr p) = false /\ Packet.SequenceNumber (Hdr p) = Seq.sadd isn (Z.of_nat i) /\
  exists f, stream !! i = Some f /\ Data p = payload f.
Definition genuine (isn : Z) (stream : list frame) (p : Packet) : Prop := exists i, carries isn stream i p.

Lemma carries_app isn l1 l2 i p : carries isn l1 i p -> carries isn (l1 ++ l2) i p.
Proof. intros (Hc & Hs & f & Hi & Hd). split; [done|]. split; [done|]. exists f. split; [by apply lookup_app_l_Some|done]. Qed.
Lemma genuine_app isn l1 l2 p : genuine isn l1 p -> genuine isn (l1 ++ l2) p.
Proof. intros [i Hi]. exists i. by apply carries_app. Qed.

(** The packets in flight carry the frames from place [a] on. *)
Definition flight (isn : Z) (stream : list frame) (a : nat) (q : list SendBuffer.sendEntry) : Prop :=
  forall j e, q !! j = Some e -> carries isn stream (a + j) (SendBuffer.pkt e).

Lemma flight_genuine isn stream a q e : flight isn stream a q -> e ∈ q -> genuine isn stream (SendBuffer.pkt e).
Proof. intros H [j Hj]%list_elem_of_lookup. eexists. by apply H. Qed.

Lemma flight_app isn stream a q new :
  flight isn stream a q -> flight isn stream (a + length q) new -> flight isn stream a (q ++ new).
Proof.
  intros H1 H2 j e [Hj|[Hl Hj]]%lookup_app_Some; [by apply H1|]. replace (a + j)%nat with (a + length q + (j - length q))%nat by lia. by apply H2.
Qed.

Lemma flight_drop isn stream a q n : flight isn stream a q -> flight isn stream (a + n) (drop n q).
Proof. intros H j e Hj. rewrite lookup_drop in Hj. rewrite <- Nat.add_assoc. by apply H. Qed.

Lemma flight_insert isn stream a q j e e' : flight isn stream a q -> q !! j = Some e -> SendBuffer.pkt e' = SendBuffer.pkt e ->
  flight isn stream a (<[j := e']> q).
Proof.
  intros H Hj He i x [(-> & -> & _)|[_ Hx]]%list_lookup_insert_Some; [|by apply H]. rewrite He. by apply H.
Qed.

(** The first [a] frames were acknowledged, at most [m] of them were delivered; the
    next ones are in flight and the rest are queued. *)
Definition sending (isn : Z) (stream : list frame) (m : nat) (c : Conn) : Prop :=
  exists k q a, sinv k c q /\ flight isn stream a q /\ SendBuffer.nextSeq (sendBuf c) = Seq.sadd isn (Z.of_nat (a + length q)) /\
    frames c = drop (a + length q) stream /\ (a + length q <= length stream)%nat /\ (a <= m)%nat.

Lemma wire_ext c c' : ext c c' -> reliable c -> Fifo.wf (outputs c) ->
  forall p, p ∈ wire c' -> p ∈ wire c \/ (exists new, originals c' = originals c ++ new /\ p ∈ new).
Proof.
  intros [_ _ E] Hp W p Hin. destruct (E Hp W) as (_ & l & Es & Ht). unfold wire, originals in *. rewrite Es, !omap_app in *.
  apply elem_of_app in Hin as [Hin|Hin]; [by left|]. right. eexists. split; [done|]. apply list_elem_of_omap in Hin as (o & Ho & Hd).
  rewrite Forall_forall in Ht. specialize (Ht _ Ho). destruct o as [p' b| |]; try done. destruct Ht as [_ ->].
  apply list_elem_of_omap. by exists (SendPacket p' false).
Qed.

(** The packets sent for the first time. *)
Lemma originals_ext c c' new : ext c c' -> reliable c -> Fifo.wf (outputs c) -> originals c' = originals c ++ new ->
  Forall (fun p => IsControl (Hdr p) = false) new.
Proof.
  intros [_ _ E] Hp W En. destruct (E Hp W) as (_ & l & Es & Ht). unfold originals in En. rewrite Es, omap_app in En. apply app_inv_head in En.
  subst new. apply Forall_forall. intros p (o & Ho & Hd)%list_elem_of_omap. rewrite Forall_forall in Ht. specialize (Ht _ Ho).
  destruct o as [p' [|]| |]; try done. simpl in Hd. injection Hd as ->. by apply Ht.
Qed.

(** Fresh packets carry the next frames. *)
Lemma sends_flight isn stream c h n new : reliable c -> SendBuffer.nextSeq (sendBuf c) = Seq.sadd isn (Z.of_nat h) ->
  sends c (SendBuffer.nextSeq (sendBuf c)) (take n (drop h stream)) new ->
  Forall (fun p => IsControl (Hdr p) = false) (map SendBuffer.pkt new) -> flight isn stream h new.
Proof.
  intros [(Hc & _) _] Hn [_ Hs Hd] Hp j e Hj. specialize (Hd Hc). pose proof (lookup_lt_Some _ _ _ Hj) as Hl.
  split; [apply (Forall_lookup_1 _ _ j _ Hp); by rewrite list_lookup_fmap, Hj|].
  assert (map dataOf new !! j = Some (dataOf e)) as Dj by (by rewrite list_lookup_fmap, Hj).
  rewrite Hd, list_lookup_fmap in Dj. destruct (take n (drop h stream) !! j) as [f|] eqn:Ef; [|done].
  apply lookup_take_Some in Ef as [Ef _]. rewrite lookup_drop in Ef. injection Dj as Dj. split; [|by exists f].
  assert (map seqOf new !! j = Some (seqOf e)) as Sj by (by rewrite list_lookup_fmap, Hj).
  rewrite Hs, Seq.seqs_lookup in Sj by (try done; rewrite Hn; apply Seq.sadd_seq). injection Sj as Sj. unfold seqOf in Sj. rewrite <- Sj, Hn, Seq.sadd_sadd.
  f_equal. lia.
Qed.

Lemma pump_sending isn stream m now c : reliable c -> sending isn stream m c ->
  sending isn stream m (pump now c) /\ forall p, p ∈ wire (pump now c) -> p ∈ wire c \/ genuine isn stream p.
Proof.
  intros Hp (k & q & a & H & Hq & Hn & Ef & Hh & Ha). pose proof (pump_ext now c) as E. pose proof (si_out _ _ _ H) as W.
  destruct (pump_ok k now c q H) as (n & new & Hn1 & H' & _ & Ef' & Sn & Eo & _ & _).
  destruct (pump_loop_next k now (S (Z.to_nat (Fifo.len (sendQueue c)))) _ _ H) as (n' & M1 & M2 & M3).
  assert (pump now c = pump_loop (S (Z.to_nat (Fifo.len (sendQueue c)))) now c) as Ep by (unfold pump; by rewrite checkSendDrop_reliable).
  rewrite <- Ep in M1, M3. assert (n' = n) as -> by (apply (drop_inj (frames c)); [done|done|congruence]). clear Ep M1.
  rewrite given_up_reliable, drop_0 in H' by done. pose proof (originals_ext _ _ _ E Hp W Eo) as Hd. rewrite Ef in Sn, M2.
  pose proof (sends_flight isn stream c _ n new Hp Hn Sn Hd) as Hg. rewrite length_drop in M2.
  assert (length new = n) as Ln.
  { destruct Sn as [F _ _]. apply Forall2_length in F. rewrite length_map, length_take, length_drop in F. lia. }
  split.
  - exists k, (q ++ new), a. rewrite length_app, Ln. split; [done|]. split; [by apply flight_app|]. split.
    { rewrite M3, Hn, Seq.sadd_sadd. f_equal. lia. }
    split; [rewrite Ef', Ef, drop_drop; f_equal; lia|]. split; [lia|done].
  - intros p Hin. destruct (wire_ext _ _ E Hp W p Hin) as [|(l & El & Hi)]; [by left|]. right.
    rewrite Eo in El. apply app_inv_head in El. subst l. apply list_elem_of_fmap in Hi as (e & -> & He). by apply (flight_genuine isn stream _ new _ Hg).
Qed.

(** Updates that leave the sending state alone. *)
Lemma sending_same isn stream m c c' :
  sendBuf c' = sendBuf c -> sendQueue c' = sendQueue c -> flowWindow c' = flowWindow c ->
  (Fifo.wf (outputs c) -> Fifo.wf (outputs c')) -> sending isn stream m c -> sending isn stream m c'.
Proof.
  intros E1 E2 E3 E4 (k & q & a & [H1 H2 H3 H4 H5] & Hr). exists k, q, a. split; [|unfold frames; rewrite E1, E2; exact Hr].
  constructor; rewrite ?E1, ?E2, ?E3; auto.
Qed.

Lemma sending_weaken isn stream m m' c : (m <= m')%nat -> sending isn stream m c -> sending isn stream m' c.
Proof. intros Hm (k & q & a & H1 & H2 & H3 & H4 & H5 & H6). exists k, q, a. split_and!; try done. lia. Qed.

(** A pass over the packets in flight that marks some of them. *)
Lemma nakTimed_sending isn stream k now tn losses : forall sb q a acc,
  SendBuffer.rep k sb q -> flight isn stream a q -> Forall Seq.is_seq losses -> Forall (genuine isn stream) acc ->
  Forall (fun e => SendBuffer.used e = true) q ->
  exists sb' q' acc', fold_left (SendBuffer.nakTimed1 now tn) losses (sb, acc) = (sb', acc') /\ SendBuffer.rep k sb' q' /\
    flight isn stream a q' /\ Forall (genuine isn stream) acc' /\ Forall (fun e => SendBuffer.used e = true) q' /\
    length q' = length q /\ SendBuffer.nextSeq sb' = SendBuffer.nextSeq sb.
Proof.
  induction losses as [|s losses IH]; intros sb q a acc H Hq Hl Ha Hu; [by exists sb, q, acc|].
  apply Forall_cons in Hl as [Hs Hl]. cbn [fold_left].
  pose proof (SendBuffer.nakTimed1_rep k sb q now tn acc s H Hs) as Hr.
  destruct (SendBuffer.lookup_entry _ _ _) as [e|] eqn:Ee; [|rewrite Hr; by apply (IH sb q)].
  destruct (SendBuffer.eligible tn e); [|rewrite Hr; by apply (IH sb q)]. destruct Hr as (sb' & -> & Est & H').
  apply SendBuffer.lookup_entry_split in Ee as (Ue & Hg & He). set (i := Z.to_nat (Seq.gap (SendBuffer.startSeq sb) s)) in *.
  assert (q !! i = Some e) as Hi.
  { unfold len in Hg. pose proof (Seq.gap_range (SendBuffer.startSeq sb) s). destruct (lookup_lt_is_Some_2 q i ltac:(unfold i; lia)) as [x Hx].
    rewrite nth_lookup, Hx in He. by rewrite Hx, <- He. }
  destruct (IH sb' _ a (acc ++ [SendBuffer.rexmitClone e]) H') as (sb2 & q2 & a2 & E2 & R2 & Q2 & A2 & U2 & L2 & N2).
  - by apply (flight_insert isn stream a q i e).
  - done.
  - apply Forall_app. split; [done|]. constructor; [|constructor]. exists (a + i)%nat. exact (Hq i e Hi).
  - by apply Forall_insert.
  - exists sb2, q2, a2. split_and!; try done; [by rewrite L2, length_insert|].
    rewrite N2, (SendBuffer.rep_next _ _ _ H'), (SendBuffer.rep_next _ _ _ H), Est. unfold len. by rewrite length_insert.
Qed.

(** An acknowledgement of a delivered place releases no undelivered frame. *)
Lemma ACK_sending isn stream m c i n sb : Z.of_nat (length stream) < 2 ^ 30 -> (i <= m)%nat -> (m <= length stream)%nat ->
  SendBuffer.ACK (sendBuf c) (Seq.sadd isn (Z.of_nat i)) = (n, sb) ->
  sending isn stream m c -> sending isn stream m (c <| sendBuf := sb |>).
Proof.
  intros Hlen Hi Hm Ea (k & q & a & H & Hq & Hn & Ef & Hh & Ha). pose proof H as [H1 H2 H3 H4 H5].
  pose proof (SendBuffer.ACK_rep k (sendBuf c) q _ H1 (Seq.sadd_seq isn (Z.of_nat i))) as Hr. rewrite SendBuffer.release_all_used in Hr by done.
  assert (SendBuffer.startSeq (sendBuf c) = Seq.sadd isn (Z.of_nat a)) as Est.
  { rewrite <- (Seq.sadd_0 (SendBuffer.startSeq (sendBuf c))) by apply H1. rewrite (SendBuffer.rep_next _ _ _ H1) in Hn.
    apply (f_equal (fun s => Seq.sadd s (- len q))) in Hn. rewrite !Seq.sadd_sadd in Hn. unfold len in Hn.
    rewrite Z.add_opp_diag_r in Hn. rewrite Hn. f_equal. lia. }
  rewrite Est in Hr. set (j := Seq.walk_fuel _ _) in Hr. destruct Hr as (sb' & E & R & St). rewrite Ea in E. injection E as _ <-.
  assert (a + j <= m)%nat as Hj.
  { unfold j, Seq.walk_fuel. destruct (Nat.le_gt_cases a i) as [Hai|Hai].
    - replace (Seq.sadd isn (Z.of_nat i)) with (Seq.sadd (Seq.sadd isn (Z.of_nat a)) (Z.of_nat (i - a))) by (rewrite Seq.sadd_sadd; f_equal; lia).
      rewrite Seq.gap_sadd by lia. destruct (Seq.LessThan _ _); lia.
    - destruct (Seq.LessThan _ _) eqn:El; [|lia]. apply Seq.LessThan_true in El as [[_ El] _]; [|apply Seq.sadd_seq..]. exfalso.
      replace (Seq.sadd isn (Z.of_nat a)) with (Seq.sadd (Seq.sadd isn (Z.of_nat i)) (Z.of_nat (a - i))) in El by (rewrite Seq.sadd_sadd; f_equal; lia).
      rewrite Seq.gap_sym, Seq.gap_sadd, Z.mod_opp_l_nz, Z.mod_small in El by (rewrite ?Z.mod_small; lia). lia. }
  set (j' := Nat.min j (length q)). assert (drop j q = drop j' q) as Ej.
  { unfold j'. destruct (Nat.min_spec j (length q)) as [[? ->]|[? ->]]; [done|]. by rewrite !drop_ge by lia. }
  rewrite Ej in R, St. exists k, (drop j' q), (a + j')%nat. rewrite length_drop.
  split; [constructor; fields; try done; by apply Forall_drop|]. split; [by apply flight_drop|]. split_and!; fields.
  - rewrite (SendBuffer.rep_next _ _ _ R), St, !Seq.sadd_sadd. f_equal. unfold len. rewrite length_drop. unfold j'. lia.
  - unfold frames in *. fields. rewrite Ef. f_equal. unfold j'. lia.
  - unfold j'. lia.
  - unfold j'. lia.
Qed.

Lemma NAK_genuine isn stream a k sb q losses : SendBuffer.rep k sb q -> Forall Seq.is_seq losses ->
  flight isn stream a q -> Forall (genuine isn stream) (SendBuffer.NAK sb losses).
Proof.
  intros H Hl Hq. rewrite (SendBuffer.NAK_rep k sb q) by done. apply Forall_forall. intros p (s & _ & Hs)%list_elem_of_omap.
  destruct (SendBuffer.lookup_entry _ _ _) as [e|] eqn:E; [|done]. injection Hs as <-.
  apply SendBuffer.lookup_entry_split in E as (_ & Hg & He). apply (flight_genuine isn stream a q e Hq). rewrite <- He.
  apply list_elem_of_In, nth_In. unfold len in Hg. pose proof (Seq.gap_range (SendBuffer.startSeq sb) s). lia.
Qed.

Lemma unacked_genuine isn stream m c : sending isn stream m c -> Forall (genuine isn stream) (SendBuffer.GetAllUnacked (sendBuf c)).
Proof.
  intros (k & q & a & H & Hq & _). rewrite (SendBuffer.GetAllUnacked_rep k _ q) by apply H.
  apply Forall_fmap, Forall_forall. intros e [He _]%list_elem_of_In%filter_In. apply (flight_genuine isn stream a q e Hq). by apply list_elem_of_In.
Qed.

(** A write extends the stream. *)
Lemma sending_grows isn stream fs m c : sending isn stream m c -> sending isn (stream ++ fs) m (enqueue fs c).
Proof.
  intros (k & q & a & Hi & Hq & Hn & Ef & Hh & Hm). pose proof Hi as [H1 H2 H3 H4 H5].
  assert (Fifo.wf (sendQueue (enqueue fs c))) as Wq.
  { unfold enqueue. fields. clear -H4. revert H4. generalize (sendQueue c). induction fs as [|f fs IH]; intros x W; [done|]. cbn [fold_left]. by apply IH, Fifo.push_wf. }
  exists k, q, a. split; [by constructor|]. split; [intros j e Hj; by apply carries_app, Hq|]. split; [done|].
  split; [rewrite Sender.enqueue_frames, Ef, drop_app_le by done; done|]. rewrite length_app. split; [lia|done].
Qed.

End Sending.
End StreamSend.
