(* ===== verification/StreamRecv.v ===== *)
(** * What a receiver makes of a stream ([internal/core/conn.go], [internal/buffer])

    A receive buffer that is only given genuine packets hands their payloads on in
    the order of the stream, each place once and none skipped; the sequence number
    it acknowledges is that of a place it hands on at once. *)
From Stdlib Require Import ZArith Lia.
From stdpp Require Import base numbers list option.
From S2P Require Import Prelude Seq Packet Clock Ring RecvBuffer Fifo Output Delivery ConnState StreamSend.
Import Packet(Packet, Hdr, Data, IsControl, SequenceNumber).
Import RecvBuffer(rinv, entries, state, pkt, entry, availAt, is_avail, is_empty, startSeq, maxSeq, mask, size, Insert, ACKSequence, seqOf).
Import ConnState(payload, frame).
Import StreamSend(carries, genuine).
Local Open Scope Z_scope.

Module StreamRecv.

(** The payload of an event for the application. *)
Definition dataEvent (e : Output.Event) : option (list Z) :=
  match e with Output.EData d => Some (Output.d_Data d) | _ => None end.
Definition received (ev : Fifo.fifo Output.Event) : list (list Z) := omap dataEvent (Fifo.contents ev).

Section Receiving.
Context {T : Type}.
Implicit Types (rb : RecvBuffer.RecvBuffer T).

(** The slot is empty or holds a genuine packet: nothing was given up. *)
Definition slot_ok (isn : Z) (stream : list frame) (e : RecvBuffer.recvEntry) : Prop :=
  is_empty (state e) = true \/ (is_avail (state e) = true /\ genuine isn stream (pkt e)).

(** The first [n] frames were handed on: the application took [got], the rest waits
    among the events. *)
Record receives (isn : Z) (stream : list frame) (k : Z) (n : nat) (got : list (list Z)) rb (ev : Fifo.fifo Output.Event) : Prop := mkReceives {
  rv_inv : rinv k rb;
  rv_start : startSeq rb = Seq.sadd isn (Z.of_nat n);
  rv_n : (n <= length stream)%nat;
  rv_slots : Forall (slot_ok isn stream) (entries rb);
  rv_wf : Fifo.wf ev;
  rv_got : got ++ received ev = map payload (take n stream)
}.

(** Nothing more can be handed on. *)
Definition settled rb : Prop := availAt rb (startSeq rb) = false.

Lemma slot_ok_app isn l1 l2 e : slot_ok isn l1 e -> slot_ok isn (l1 ++ l2) e.
Proof. intros [H|[H1 H2]]; [by left|right]. split; [done|]. by apply StreamSend.genuine_app. Qed.

Lemma receives_grows isn l1 l2 k n got rb ev : receives isn l1 k n got rb ev -> receives isn (l1 ++ l2) k n got rb ev.
Proof.
  intros [H1 H2 H3 H4 H5 H6]. constructor; try done; [rewrite length_app; lia| |by rewrite take_app_le].
  eapply list.Forall_impl; [exact H4|]. intros e. apply slot_ok_app.
Qed.

(** The fields that matter. *)
Lemma receives_same isn stream k n got rb rb' ev :
  entries rb' = entries rb -> mask rb' = mask rb -> startSeq rb' = startSeq rb -> maxSeq rb' = maxSeq rb -> size rb' = size rb ->
  receives isn stream k n got rb ev -> receives isn stream k n got rb' ev.
Proof.
  intros E1 E2 E3 E4 E5 [H1 H2 H3 H4 H5 H6]. constructor; [by apply (RecvBuffer.rinv_frame k rb)| | | | |]; by rewrite ?E3, ?E1.
Qed.

Lemma slot_at isn stream k n got rb ev s : receives isn stream k n got rb ev -> slot_ok isn stream (entry rb s).
Proof. intros H. pose proof (RecvBuffer.entry_elem k rb s (rv_inv _ _ _ _ _ _ _ H)) as He. pose proof (rv_slots _ _ _ _ _ _ _ H) as Hf. rewrite list.Forall_forall in Hf. by apply Hf. Qed.

Lemma not_empty_avail isn stream e : slot_ok isn stream e -> is_empty (state e) = negb (is_avail (state e)).
Proof. intros [H|[H _]]; destruct (state e); done. Qed.

(** ** Insertion *)

Lemma Insert_receives isn stream k n got rb ev p arrival : genuine isn stream p -> receives isn stream k n got rb ev ->
  receives isn stream k n got (snd (Insert rb p arrival)) ev /\
  (RecvBuffer.Inserted (fst (Insert rb p arrival)) = false -> snd (Insert rb p arrival) = rb).
Proof.
  intros Hg [H1 H2 H3 H4 H5 H6]. assert (Seq.is_seq (seqOf p)) as Hs by (destruct Hg as (i & _ & Hq & _); unfold seqOf; rewrite Hq; apply Seq.sadd_seq).
  destruct (RecvBuffer.Insert_adv k rb p arrival H1 Hs) as (I1 & I2 & _).
  destruct (RecvBuffer.Insert_eq k rb p arrival H1 Hs) as (rb' & E & Ee & _). rewrite E in *. split.
  - constructor; try done; [by rewrite I2|]. destruct (_ && _); [|done]. cbn [snd]. rewrite Ee, RecvBuffer.stored_entries.
    apply Forall_insert; [done|]. right. done.
  - destruct (_ && _); [|done]. cbn [fst]. by rewrite RecvBuffer.gapOf_inserted.
Qed.

(** The packet for the next place is always taken, if the ring has room at all. *)
Lemma Insert_next isn stream k n got rb ev p arrival : 0 < k -> carries isn stream n p -> settled rb ->
  receives isn stream k n got rb ev ->
  RecvBuffer.Inserted (fst (Insert rb p arrival)) = true /\ availAt (snd (Insert rb p arrival)) (startSeq (snd (Insert rb p arrival))) = true.
Proof.
  intros Hk (_ & Hq & _) Hh H. pose proof H as [H1 H2 H3 H4 H5 H6]. assert (seqOf p = startSeq rb) as Es by (rewrite H2; exact Hq).
  destruct (RecvBuffer.Insert_eq k rb p arrival H1) as (rb' & E & Ee & Em & Est & _); [rewrite Es; apply H1|].
  rewrite E, Es, Seq.gap_self. pose proof (Z.pow_le_mono_r 2 1 k). destruct (Z.ltb_spec 0 (2 ^ k - 1)); [|lia].
  rewrite (not_empty_avail isn stream) by (by eapply slot_at). unfold settled, availAt in Hh. rewrite Hh. cbn [andb negb fst snd].
  split; [apply RecvBuffer.gapOf_inserted|]. unfold availAt, entry. rewrite Ee, Em, Est, RecvBuffer.stored_entries, Es, (RecvBuffer.ri_mask _ _ H1).
  rewrite Ring.get_set_eq; [done|apply (RecvBuffer.rinv_k30 H1)|apply H1].
Qed.

(** ** Delivery *)

(** Places of a stream shorter than the circle are told apart by their numbers. *)
Lemma place_inj isn i n len : Z.of_nat len < 2 ^ 31 -> (i < len)%nat -> (n <= len)%nat ->
  Seq.sadd isn (Z.of_nat i) = Seq.sadd isn (Z.of_nat n) -> i = n.
Proof. intros Hl Hi Hn E. apply (f_equal (Seq.gap isn)) in E. rewrite !Seq.gap_sadd in E by lia. lia. Qed.

(** What the head holds. *)
Lemma head_carries isn stream k n got rb ev : Z.of_nat (length stream) < 2 ^ 31 -> receives isn stream k n got rb ev ->
  availAt rb (startSeq rb) = true -> carries isn stream n (pkt (entry rb (startSeq rb))).
Proof.
  intros Hl H Ha. pose proof (slot_at isn stream k n got rb ev (startSeq rb) H) as [He|[_ (i & Hi)]].
  { unfold availAt in Ha. by destruct (state (entry rb (startSeq rb))). }
  pose proof (RecvBuffer.head_seq k rb (rv_inv _ _ _ _ _ _ _ H) Ha) as Hs. destruct H as [H1 H2 H3 H4 H5 H6].
  assert (i = n) as ->; [|done]. pose proof Hi as (_ & Hq & f & Hf & _). unfold seqOf in Hs. rewrite Hq, H2 in Hs.
  apply (place_inj isn i n (length stream)); try done. by apply lookup_lt_Some in Hf.
Qed.

Lemma takeHead_receives isn stream k n got rb ev : Z.of_nat (length stream) < 2 ^ 31 -> receives isn stream k n got rb ev ->
  availAt rb (startSeq rb) = true ->
  receives isn stream k (S n) got (RecvBuffer.takeHead rb) (Fifo.push ev (Output.EData (Delivery.dataOf (pkt (entry rb (startSeq rb)))))).
Proof.
  intros Hl H Ha. destruct (head_carries isn stream k n got rb ev Hl H Ha) as (_ & _ & f & Hf & Hd). destruct H as [H1 H2 H3 H4 H5 H6].
  pose proof (RecvBuffer.takeHead_adv k rb H1 Ha) as Ad. constructor.
  - apply Ad.
  - rewrite (RecvBuffer.adv_start _ _ _ _ Ad), H2, Seq.sadd_sadd. f_equal. lia.
  - apply lookup_lt_Some in Hf. lia.
  - apply Forall_insert; [done|]. by left.
  - by apply Fifo.push_wf.
  - unfold received in *. rewrite Fifo.push_contents, omap_app, app_assoc, H6 by done. rewrite (take_S_r _ _ f Hf), map_app. f_equal. cbn. unfold Delivery.dataOf. cbn. by rewrite Hd.
Qed.

(** A run of exactly [j] packets is ready at the head. *)
Definition run (k : Z) rb (j : nat) : Prop :=
  Z.of_nat j < 2 ^ k /\ (forall i, (i < j)%nat -> availAt rb (Seq.sadd (startSeq rb) (Z.of_nat i)) = true) /\
  availAt rb (Seq.sadd (startSeq rb) (Z.of_nat j)) = false.

Lemma run_max k rb j a : run k rb j -> (forall i, (i < a)%nat -> availAt rb (Seq.sadd (startSeq rb) (Z.of_nat i)) = true) -> (a <= j)%nat.
Proof. intros (_ & _ & H) Ha. destruct (Nat.le_gt_cases a j) as [|Hj]; [done|]. specialize (Ha j Hj). congruence. Qed.

Lemma run_unique k rb i j : run k rb i -> run k rb j -> i = j.
Proof. intros Hi Hj. pose proof (run_max _ _ _ i Hj (proj1 (proj2 Hi))). pose proof (run_max _ _ _ j Hi (proj1 (proj2 Hj))). lia. Qed.

Lemma run_settled k rb : rinv k rb -> settled rb <-> run k rb 0.
Proof.
  intros H. destruct (RecvBuffer.rinv_k30 H) as [_ Hk]. unfold settled, run. rewrite Seq.sadd_0 by apply H. split; [|tauto].
  intros Hs. split; [lia|]. split; [lia|done].
Qed.

Lemma run_takeHead k rb j : rinv k rb -> availAt rb (startSeq rb) = true -> run k (RecvBuffer.takeHead rb) j -> run k rb (S j).
Proof.
  intros H Ha (Hk & Hi & Hj). pose proof (RecvBuffer.adv_start _ _ _ _ (RecvBuffer.takeHead_adv k rb H Ha)) as Es.
  assert (forall i, Z.of_nat (S i) < 2 ^ k -> availAt (RecvBuffer.takeHead rb) (Seq.sadd (startSeq (RecvBuffer.takeHead rb)) (Z.of_nat i)) =
    availAt rb (Seq.sadd (startSeq rb) (Z.of_nat (S i)))) as Eq.
  { intros i Hik. rewrite Es, Seq.sadd_sadd. replace (1 + Z.of_nat i) with (Z.of_nat (S i)) by lia. unfold availAt.
    by rewrite (RecvBuffer.takeHead_entry k) by (done || lia). }
  assert (forall i, (i < S j)%nat -> availAt rb (Seq.sadd (startSeq rb) (Z.of_nat i)) = true) as Hall.
  { intros [|i] Hl; [by rewrite Seq.sadd_0 by apply H|]. rewrite <- Eq by lia. apply Hi. lia. }
  assert (Z.of_nat (S j) < 2 ^ k) as Hs.
  { destruct (Z.lt_ge_cases (Z.of_nat (S j)) (2 ^ k)); [done|]. specialize (Hall j ltac:(lia)).
    apply (RecvBuffer.ri_avail _ _ H) in Hall as [? _]; lia. }
  split; [done|]. split; [done|]. by rewrite <- Eq.
Qed.

(** The loop hands on all that is contiguous, and ends by itself. *)
Lemma deliver_receives isn stream k got (p : Delivery.Path T) fuel : forall n rb ev, Z.of_nat (length stream) < 2 ^ 31 ->
  receives isn stream k n got rb ev -> size rb < Z.of_nat fuel -> Delivery.recvBuf p = rb -> Delivery.events p = ev ->
  exists j rb' ev', fst (Delivery.deliver_loop fuel p) = Delivery.mkPath rb' (Delivery.tsbpdTimer p) (Delivery.recvDropped p) ev' (Delivery.outputs p) /\
    receives isn stream k (n + j) got rb' ev' /\ settled rb' /\ run k rb j.
Proof.
  revert p. induction fuel as [|fuel IH]; intros p n rb ev Hl H Hs <- <-.
  { pose proof (RecvBuffer.ri_size _ _ (rv_inv _ _ _ _ _ _ _ H)) as E. unfold RecvBuffer.count_avail, len in E. lia. }
  cbn [Delivery.deliver_loop]. unfold RecvBuffer.ReadNext. set (rb := Delivery.recvBuf p) in *.
  destruct (is_avail (state (entry rb (startSeq rb)))) eqn:Ha; cbn [negb fst].
  - pose proof (takeHead_receives isn stream k n got rb _ Hl H Ha) as Ht. pose proof (rv_inv _ _ _ _ _ _ _ H) as H1.
    edestruct (IH (Delivery.emitData (Delivery.withBuf p (RecvBuffer.takeHead rb) (Delivery.tsbpdTimer p)) (pkt (entry rb (startSeq rb)))))
      as (j & rb' & ev' & E & R & St & Hj); [done|exact Ht| |done..|].
    { change (size (RecvBuffer.takeHead rb)) with (size rb - 1). lia. }
    exists (S j), rb', ev'. split; [exact E|]. split; [by rewrite Nat.add_succ_r|]. split; [done|].
    by apply run_takeHead.
  - exists 0%nat, rb, (Delivery.events p). rewrite Nat.add_0_r. split; [by destruct p|]. split; [done|]. split; [exact Ha|].
    apply run_settled; [apply H|exact Ha].
Qed.

(** ** Acknowledgements *)

Lemma ACKSequence_ready isn stream k n got rb ev : receives isn stream k n got rb ev ->
  exists a, ACKSequence rb = Seq.sadd (startSeq rb) (Z.of_nat a) /\ Z.of_nat a < 2 ^ k /\
    forall i, (i < a)%nat -> availAt rb (Seq.sadd (startSeq rb) (Z.of_nat i)) = true.
Proof.
  intros H. pose proof (rv_inv _ _ _ _ _ _ _ H) as H1. unfold ACKSequence.
  enough (exists a, fst (Seq.walk (maxSeq rb) (fun s (u : unit) => if is_empty (state (entry rb s)) then Seq.Stop tt else Seq.Next u) (startSeq rb) tt)
    = Seq.sadd (startSeq rb) (Z.of_nat a) /\ forall i, (i < a)%nat -> availAt rb (Seq.sadd (startSeq rb) (Z.of_nat i)) = true) as (a & E & Ha).
  { exists a. split; [done|]. split; [|done]. destruct (Z.lt_ge_cases (Z.of_nat a) (2 ^ k)); [done|]. destruct (RecvBuffer.rinv_k30 H1) as [_ Hk].
    specialize (Ha (Z.to_nat (2 ^ k - 1)) ltac:(lia)). rewrite Z2Nat.id in Ha by lia. apply (RecvBuffer.ri_avail _ _ H1) in Ha as [? _]; lia. }
  apply (Seq.walk_ind (fun s (_ : unit) => exists a, s = Seq.sadd (startSeq rb) (Z.of_nat a) /\
    forall i, (i < a)%nat -> availAt rb (Seq.sadd (startSeq rb) (Z.of_nat i)) = true)); [apply H1|exists 0%nat; split; [by rewrite Seq.sadd_0 by apply H1|lia]|].
  intros s [] Hs (a & -> & Ha) _. rewrite (not_empty_avail isn stream) by (by eapply slot_at).
  destruct (is_avail _) eqn:Ea; cbn [negb]; [|by exists a]. exists (S a). split.
  - rewrite Seq.Inc_sadd, Seq.sadd_sadd by done. f_equal. lia.
  - intros i Hi. destruct (decide (i = a)) as [->|]; [exact Ea|]. apply Ha. lia.
Qed.

(** The places a receiver may acknowledge: those up to [n]. *)
Definition acks (isn : Z) (n : nat) (s : Z) : Prop := exists i, (i <= n)%nat /\ s = Seq.sadd isn (Z.of_nat i).

Lemma ACKSequence_acks isn stream k n j got rb ev : receives isn stream k n got rb ev -> run k rb j -> acks isn (n + j) (ACKSequence rb).
Proof.
  intros H Hj. destruct (ACKSequence_ready isn stream k n got rb ev H) as (a & -> & Hk & Ha). exists (n + a)%nat. split.
  - pose proof (run_max _ _ _ a Hj Ha). lia.
  - rewrite (rv_start _ _ _ _ _ _ _ H), Seq.sadd_sadd. f_equal. lia.
Qed.

End Receiving.
End StreamRecv.
