(* ===== verification/StreamEnd.v ===== *)
(** * One end of a transfer ([internal/core/conn.go])

    The invariant of a connection that sends one stream and receives another, and
    that every input of the connection keeps it: packets of the peer, timers, and
    what the host and the application ask for. *)
From Stdlib Require Import ZArith Lia.
From stdpp Require Import base numbers list option gmap.
From S2P Require Import Prelude Seq Packet Control Cif Clock Tsbpd Ring SendBuffer RecvBuffer Fifo Output Delivery Crypto Float64 Congestion ConnState KeyRotation ConnSend ConnRecv Establish CoreHandshake ConnCore Sender StreamSend StreamRecv.
Import Packet(Packet, Hdr, Data, IsControl, ControlType).
Import Output(SendPacket, SetTimer).
Import RecvBuffer(entries, mask, startSeq, maxSeq, size, availAt, entry).
Import ConnState.
Import ConnSend.
Import StreamSend.
Import StreamRecv.
Local Open Scope Z_scope.

Module StreamEnd.

(** ** The invariant *)

(** The control packets of a transfer; an ACK names a place that satisfies [A], and
    a handshake packet that is left over is no rejection. *)
Definition benign (A : Z -> Prop) (p : Packet) : Prop :=
  IsControl (Hdr p) = true /\
  ((ControlType (Hdr p) = Packet.CtrlTypeACK /\ A (Uint32 (Data p) 0)) \/
   (ControlType (Hdr p) = Packet.CtrlTypeNAK /\ bytes_ok (Data p)) \/
   ControlType (Hdr p) = Packet.CtrlTypeACKACK \/ ControlType (Hdr p) = Packet.CtrlTypeKeepalive \/
   ControlType (Hdr p) = Packet.CtrlTypeShutdown \/
   (ControlType (Hdr p) = Packet.CtrlTypeHandshake /\
    exists hs, Cif.HS_UnmarshalCIF Cif.zeroHS (Data p) = Ok hs /\ Cif.IsRejection (Cif.HandshakeType hs) = false)).

Definition wireOk (isn : Z) (stream : list frame) (A : Z -> Prop) (p : Packet) : Prop := genuine isn stream p \/ benign A p.

Lemma wireOk_weaken isn stream fs (A B : Z -> Prop) p :
  (forall s, A s -> B s) -> wireOk isn stream A p -> wireOk isn (stream ++ fs) B p.
Proof. intros H [Hg|[Hc Hb]]; [left; by apply genuine_app|right]. split; [done|]. intuition. Qed.

Lemma acks_weaken isn n n' s : (n <= n')%nat -> acks isn n s -> acks isn n' s.
Proof. intros H (i & Hi & ->). exists i. split; [lia|done]. Qed.

(** The end sends the stream [out] from [isn], of which the peer has [m] frames, and
    receives the stream [inn] from [risn]: [n] frames were handed on, [j] more are
    ready, and the application has taken [got]. *)
Record endpoint (isn : Z) (outs : list frame) (m : nat) (risn : Z) (ins : list frame) (k : Z) (n j : nat) (got : list (list Z)) (c : Conn) : Prop := mkEnd {
  en_reliable : reliable c;
  en_send : sending isn outs m c;
  en_wire : Forall (wireOk isn outs (acks risn (n + j))) (wire c);
  en_recv : receives risn ins k n got (recvBuf c) (events c);
  en_run : run k (recvBuf c) j
}.

(** ** Frames *)

Section Endpoint.
Context {isn : Z} {outs : list frame} {m : nat} {risn : Z} {ins : list frame} {k : Z} {n j : nat} {got : list (list Z)}.
Abbreviation good := (endpoint isn outs m risn ins k n j got).

Lemma good_wf c : good c -> Fifo.wf (outputs c).
Proof. intros [_ (? & ? & ? & H & _) _ _ _]. apply H. Qed.

Definition same_end (c c' : Conn) : Prop :=
  (reliable c -> reliable c') /\ (sendBuf c' = sendBuf c /\ sendQueue c' = sendQueue c /\ flowWindow c' = flowWindow c) /\
  outputs c' = outputs c /\ recvBuf c' = recvBuf c /\ events c' = events c.

Lemma end_same c c' : same_end c c' -> good c -> good c'.
Proof.
  intros (R & (E1 & E2 & E3) & E4 & E5 & E6) [H1 H2 H3 H4 H5]. constructor; [auto| | | |].
  - apply (sending_same isn outs m c); try done. by rewrite E4.
  - unfold wire, sent. by rewrite E4.
  - by rewrite E5, E6.
  - by rewrite E5.
Qed.

Lemma end_out o c : (forall p, packetOut o = Some p -> wireOk isn outs (acks risn (n + j)) p) -> good c -> good (out o c).
Proof.
  intros Ho H. pose proof (good_wf c H) as W. destruct H as [H1 H2 H3 H4 H5]. constructor; [done| | |done|done].
  - apply (sending_same isn outs m c); try done. intros _. by apply Fifo.push_wf.
  - unfold wire, sent, out. fields. rewrite Fifo.push_contents, omap_app by done. apply Forall_app. split; [done|].
    cbn [omap list_omap]. destruct (packetOut o) as [p|]; [|constructor]. constructor; [by apply Ho|constructor].
Qed.

(** An event that carries no data. *)
Lemma end_event e c : dataEvent e = None -> good c -> good (event e c).
Proof.
  intros He [H1 H2 H3 H4 H5]. constructor; [done|by apply (sending_same isn outs m c)|done| |done]. destruct H4 as [R1 R2 R3 R4 R5 R6].
  constructor; try done; unfold event; fields; [by apply Fifo.push_wf|]. unfold received in *.
  rewrite Fifo.push_contents, omap_app by done. cbn [omap list_omap]. by rewrite He, app_nil_r.
Qed.

Lemma end_control c t now data : 
  t = Packet.CtrlTypeACK /\ acks risn (n + j) (Uint32 data 0) \/ t = Packet.CtrlTypeNAK /\ bytes_ok data \/
  t = Packet.CtrlTypeACKACK \/ t = Packet.CtrlTypeKeepalive \/ t = Packet.CtrlTypeShutdown ->
  forall ts, wireOk isn outs (acks risn (n + j)) (Packet.SetData ((control c t now) <| Hdr ::= fun h => h <| Packet.TypeSpecific := ts |> |>) data) /\
    wireOk isn outs (acks risn (n + j)) (Packet.SetData (control c t now) data).
Proof. intros H ts. split; right; (split; [done|]); cbn; tauto. Qed.

End Endpoint.

Ltac end_upd :=
  match goal with
  | |- endpoint _ _ _ _ _ _ _ _ _ (@upd _ _ ?g ?F ?h ?r) =>
      apply (end_same r); [split; [by unfold reliable; fields|fields; done]|]
  | |- endpoint _ _ _ _ _ _ _ _ _ (out (SetTimer _ _) ?r) => apply end_out; [done|]
  | |- endpoint _ _ _ _ _ _ _ _ _ (arm _ _ ?r) => unfold arm
  | |- endpoint _ _ _ _ _ _ _ _ _ (send _ ?r) => unfold send
  end.
Ltac ends := repeat end_upd; try done.

Section Handlers.
Context {P : Crypto.Primitives} {M : Float64.GoMath}.
Context {isn : Z} {outs : list frame} {m : nat} {risn : Z} {ins : list frame} {k : Z} {n j : nat} {got : list (list Z)}.
Abbreviation good := (endpoint isn outs m risn ins k n j got).

(** ** Sending *)

Lemma pump_good now c : good c -> good (pump now c).
Proof.
  intros H. pose proof (good_wf c H) as W. destruct H as [H1 H2 H3 H4 H5]. pose proof (pump_ext now c) as E.
  destruct (pump_sending isn outs m now c H1 H2) as [S1 S2]. destruct (ext_recv _ _ E H1) as [E1 E2].
  constructor; [by apply E|done| |by rewrite E1, E2|by rewrite E1].
  apply Forall_forall. intros p Hp. destruct (S2 p Hp) as [Hw|Hg]; [|by left]. rewrite Forall_forall in H3. by apply H3.
Qed.

Lemma resend_good rps : forall c, Forall (genuine isn outs) rps -> good c -> good (fold_left resend rps c).
Proof.
  induction rps as [|p rps IH]; intros c Hg H; [done|]. apply Forall_cons in Hg as [Hp Hg]. cbn [fold_left]. apply IH; [done|].
  unfold resend, send. apply end_out; [|ends]. intros p' [= <-]. by left.
Qed.

Lemma end_buf sb c : sending isn outs m (c <| sendBuf := sb |>) -> good c -> good (c <| sendBuf := sb |>).
Proof. intros Hs [H1 H2 H3 H4 H5]. by constructor. Qed.

Lemma answerACK_good now p c : good c -> good (answerACK now p c).
Proof.
  intros H. unfold answerACK. cbv zeta. destruct (_ || _); [|done]. ends. apply end_out; [|done]. intros p' [= <-]. apply end_control. tauto.
Qed.

Lemma handleACK_good now p c : Z.of_nat (length outs) < 2 ^ 30 -> (m <= length outs)%nat -> acks isn m (Uint32 (Data p) 0) ->
  good c -> good (handleACK now p c).
Proof.
  intros Hl Hm (i & Hi & Ei) H. unfold handleACK, Control.CIFACK_UnmarshalCIF. destruct (len (Data p) <? 4); [done|]. cbv zeta.
  match goal with |- context [SendBuffer.ACK _ (Control.LastACKPacketSequenceNumber ?a)] => set (ack := a) end.
  assert (Control.LastACKPacketSequenceNumber ack = Uint32 (Data p) 0) as -> by
    (unfold ack; destruct (len (Data p) >=? 28), (len (Data p) >=? 16); done).
  clearbody ack. set (c1 := c <| recvACKs ::= _ |>). assert (good c1) as H1 by (unfold c1; ends). rewrite Ei.
  destruct (SendBuffer.ACK _ _) as [l sb] eqn:Ea.
  pose proof (end_buf sb c1 (ACK_sending isn outs m c1 i l sb Hl Hi Hm Ea (en_send _ _ _ _ _ _ _ _ _ _ H1)) H1) as H2.
  set (c2 := c1 <| sendBuf := sb |>) in *. clearbody c2.
  set (c3 := if l >? 0 then _ else c2). assert (good c3) as H3 by (unfold c3; destruct (l >? 0); ends). clearbody c3.
  destruct (len (Data p) =? 4); apply pump_good; [destruct (_ && _); ends|].
  pose proof (answerACK_good now p c3 H3) as H4. set (c4 := answerACK now p c3) in *.
  clearbody c4. destruct (Control.RTT ack >? 0); ends.
Qed.

Lemma handleNAK_good now p c : bytes_ok (Data p) -> good c -> good (handleNAK now p c).
Proof.
  intros Hb H. unfold handleNAK.
  pose proof (Control.nak_decode_safe (length (Data p)) (Data p) [] ltac:(done) Hb ltac:(by constructor)) as Hn.
  unfold Control.CIFNAK_UnmarshalCIF. destruct (Control.nak_decode [] (Data p)) as [ls|]; cbn [mbind result_bind]; [|done].
  cbn [Control.LossList]. destruct Hn as [_ Hs]. cbv zeta.
  set (c1 := c <| recvNAKs ::= _ |> <| lostPackets ::= _ |> <| sendCC ::= _ |>).
  assert (good c1) as H1 by (unfold c1; ends). clearbody c1.
  pose proof (en_send _ _ _ _ _ _ _ _ _ _ H1) as (k' & q & a & Hi & Hq & Hr). pose proof Hi as [R1 R2 R3 R4 R5]. destruct (rtt c1 >? 0).
  - unfold SendBuffer.NAKTimed.
    destruct (nakTimed_sending isn outs k' now (Clock.Add now (i64 (- SendBuffer.rexmitGate (rtt c1) (rttVar c1)))) ls (sendBuf c1) q a []
      R1 Hq Hs ltac:(constructor) R2) as (sb & q' & rx & -> & R & Q' & X & U & L & N).
    apply resend_good; [done|]. apply end_buf; [|done]. exists k', q', a. split; [by constructor|]. fields. rewrite L, N. done.
  - apply resend_good; [by apply (NAK_genuine isn outs a k' _ q)|]. apply end_buf; [|done]. by exists k', q, a.
Qed.

Lemma handleEXP_good now c : good c -> good (handleEXP now c).
Proof.
  intros H. unfold handleEXP. cbv zeta. destruct (_ && _ && _); [|ends].
  set (c1 := c <| sendCC ::= _ |> <| rexmitCount ::= _ |>). assert (good c1) as H1 by (unfold c1; ends). clearbody c1.
  assert (good (retransmitAll c1)) as H2; [|ends]. apply resend_good; [|done].
  apply (unacked_genuine isn outs m), H1.
Qed.

Lemma keepalive_good now c : good c -> good (checkKeepalive now c) /\ good (SendKeepAlive now c).
Proof.
  intros H. unfold checkKeepalive, SendKeepAlive. split.
  - destruct (_ <=? 0); [done|]. cbv zeta. destruct (_ >=? _); ends. apply end_out; [|done]. intros p' [= <-]. apply end_control; [tauto|exact 0].
  - destruct (closed c); [done|]. apply end_out; [|done]. intros p' [= <-]. right. split; [done|]. tauto.
Qed.

Lemma Shutdown_good now c : good c -> good (Shutdown now c).
Proof.
  intros H. unfold Shutdown. destruct (closed c); [done|]. apply end_out; [|ends]. intros p' [= <-]. apply end_control; [tauto|exact 0].
Qed.

Lemma applyBandwidth_good c : good c -> good (applyBandwidth c).
Proof. intros H. unfold applyBandwidth. destruct (negb _); [done|]. destruct (negb _); [ends|]. cbv zeta. destruct (_ && _); ends. Qed.

Lemma sampleInputBandwidth_good now c : good c -> good (sampleInputBandwidth now c).
Proof.
  intros H. unfold sampleInputBandwidth. cbv zeta. destruct (_ <? _); [done|]. set (c1 := if _ >? 0 then _ else c).
  assert (good c1) as H1 by (unfold c1; destruct (_ >? 0); ends). clearbody c1. destruct (_ && _); [apply applyBandwidth_good; ends|ends].
Qed.

Lemma checkPeerIdle_good now c : good c -> good (checkPeerIdle now c).
Proof.
  intros H. unfold checkPeerIdle. destruct (_ <=? 0); [done|]. destruct (_ >=? _); [|ends]. apply end_event; [done|]. ends.
Qed.

(** ** Receiving *)

Lemma end_timer f c : good c -> good (c <| tsbpdTimer ::= option_map f |>).
Proof.
  apply end_same. split; [|fields; done]. unfold reliable. fields. intros (R1 & R2 & (R3 & R4) & R5). rewrite R3. done.
Qed.

(** A scan of the buffer that leaves its window alone. *)
Lemma end_recv rb c : entries rb = entries (recvBuf c) -> mask rb = mask (recvBuf c) -> startSeq rb = startSeq (recvBuf c) ->
  maxSeq rb = maxSeq (recvBuf c) -> size rb = size (recvBuf c) -> good c -> good (c <| recvBuf := rb |>).
Proof.
  intros E1 E2 E3 E4 E5 [H1 H2 H3 H4 H5]. constructor; [done|by apply (sending_same isn outs m c)|done| |].
  - by apply (receives_same risn ins k n got (recvBuf c)).
  - unfold run, availAt, entry in *. fields. by rewrite E1, E2, E3.
Qed.

Lemma emitNAK_good now ls c : good c -> good (ConnRecv.emitNAK now ls c).
Proof.
  intros H. unfold ConnRecv.emitNAK. destruct ls; [done|]. ends. apply end_out; [|done]. intros p' [= <-].
  apply end_control; [|exact 0]. right. left. split; [done|]. unfold Control.CIFNAK_MarshalCIF.
  induction (Control.nak_encode _ _) as [|v l IH]; [constructor|]. cbn [map concat]. apply bytes_ok_app. split; [apply be32_ok|done].
Qed.

Lemma periodicNAK_good now c : good c -> good (ConnRecv.sendPeriodicNAK now c).
Proof.
  intros H. unfold ConnRecv.sendPeriodicNAK. destruct (RecvBuffer.GenerateLossList (recvBuf c)) as [ls rb] eqn:E. apply emitNAK_good.
  unfold RecvBuffer.GenerateLossList in E. destruct (_ =? _).
  - injection E as <- <-. by apply end_recv.
  - destruct (Seq.walk _ _ _ _) as [s buf]. injection E as <- <-. by apply end_recv.
Qed.

Lemma reportGap_good now a b c : good c -> good (ConnRecv.reportGap now a b c).
Proof.
  intros H. unfold ConnRecv.reportGap, ConnRecv.sendImmediateNAK, ConnRecv.deferGap. destruct (_ || _); [by apply emitNAK_good|]. cbv zeta.
  destruct (_ <=? _); ends. by apply emitNAK_good.
Qed.

Lemma flushDeferredLoss_good {O : ConnRecv.RangeOrder} now fr c : good c -> good (ConnRecv.flushDeferredLoss now fr c).
Proof.
  intros H. unfold ConnRecv.flushDeferredLoss. destruct (deferredLoss c) as [s|]; [|done]. generalize (ConnRecv.range s). intros l. revert c H.
  induction l as [|x l IH]; intros c H; [done|]. cbn [fold_left]. apply IH. unfold ConnRecv.flush1. destruct (_ >? _); [|done]. ends. by apply emitNAK_good.
Qed.

Lemma ack_place c : good c -> acks risn (n + j) (RecvBuffer.ACKSequence (recvBuf c)) /\ is_u32 (RecvBuffer.ACKSequence (recvBuf c)).
Proof.
  intros [_ _ _ H4 H5]. pose proof (ACKSequence_acks risn ins k n j got _ _ H4 H5) as Ha. split; [done|].
  destruct Ha as (i & _ & ->). apply Seq.seq_u32, Seq.sadd_seq.
Qed.

Lemma sendLiteACK_good now c : good c -> good (ConnRecv.sendLiteACK now c).
Proof.
  intros H. destruct (ack_place c H) as [Ha Hu]. unfold ConnRecv.sendLiteACK. cbv zeta. ends. apply end_out; [|done]. intros p' [= <-].
  apply end_control; [|exact 0]. left. split; [done|]. unfold Seq.Value. do 2 read_bytes. by rewrite word32_be32.
Qed.

Lemma sendFullACK_good now c : good c -> good (ConnRecv.sendFullACK now c).
Proof.
  intros H. destruct (ack_place c H) as [Ha Hu]. unfold ConnRecv.sendFullACK. cbv zeta. destruct (_ && _); [done|].
  set (c1 := c <| ackSeqNo ::= _ |>). assert (good c1) as H1 by (unfold c1; ends).
  destruct (if _ >=? _ then _ else _) as [[pktRate capacity] bytesRate].
  set (ack := Control.mkACK _ _ _ _ _ _ _).
  assert (acks risn (n + j) (Uint32 (Control.CIFACK_MarshalCIF ack) 0)) as Hk.
  { assert (Control.LastACKPacketSequenceNumber ack = RecvBuffer.ACKSequence (recvBuf c)) as El by done. clearbody ack. rewrite <- El in Ha, Hu.
    unfold Control.CIFACK_MarshalCIF. cbv zeta. do 2 read_bytes. by rewrite word32_be32. }
  clearbody ack. ends. apply end_out; [|ends]. intros p' [= <-]. apply end_control. tauto.
Qed.

Lemma smoothRTT_good s c : good c -> good (ConnRecv.smoothRTT s c).
Proof. intros H. unfold ConnRecv.smoothRTT. destruct (_ && _); [|done]. destruct (_ =? 0); ends. Qed.

Lemma handleACKACK_good now p c : good c -> good (ConnRecv.handleACKACK now p c).
Proof.
  intros H. unfold ConnRecv.handleACKACK. cbv zeta. destruct (_ || _); [ends|]. apply end_timer.
  match goal with |- context [ConnRecv.smoothRTT ?s ?c0] => assert (good (ConnRecv.smoothRTT s c0)) as H1 by (apply smoothRTT_good; ends) end.
  destruct (Seq.GreaterThan _ _); ends.
Qed.

Lemma handleKeepalive_good now p c : good c -> good (ConnCore.handleKeepalive now p c).
Proof. intros H. unfold ConnCore.handleKeepalive. apply end_timer. ends. Qed.

Lemma cancelDeferred_good s c : good c -> good (ConnRecv.cancelDeferred s c).
Proof.
  intros H. unfold ConnRecv.cancelDeferred. destruct (deferredLoss c); [|done]. cbv zeta. ends. destruct (bool_decide _); [|done].
  destruct (_ >? _); ends.
Qed.

Lemma anchorTimer_id now p c : good c -> ConnRecv.anchorTimer now p c = c.
Proof. intros [(_ & _ & (Ht & _) & _) _ _ _ _]. unfold ConnRecv.anchorTimer. by rewrite Ht. Qed.
Lemma feedFEC_id now p d c : good c -> ConnRecv.feedFEC now p d c = c.
Proof. intros [((_ & _ & _ & Hf) & _) _ _ _ _]. unfold ConnRecv.feedFEC. by rewrite Hf. Qed.

End Handlers.

(** ** Inputs *)

Section Inputs.
Context {P : Crypto.Primitives} {M : Float64.GoMath} {O : ConnRecv.RangeOrder}.
Context {isn : Z} {outs : list frame} {m : nat} {risn : Z} {ins : list frame} {k : Z}.
Hypothesis ins_short : Z.of_nat (length ins) < 2 ^ 31.

(** Delivery hands the whole run on. *)
Lemma deliverNow_good now n j got c : endpoint isn outs m risn ins k n j got c ->
  endpoint isn outs m risn ins k (n + j) 0 got (ConnRecv.deliverNow now c).
Proof.
  intros [H1 H2 H3 H4 H5]. pose proof H1 as (_ & _ & (Ht & Hm) & _). unfold ConnRecv.deliverNow. rewrite Ht, Hm. unfold ConnRecv.deliver, Delivery.deliver.
  change (Delivery.recvBuf (ConnRecv.pathOf c)) with (recvBuf c).
  destruct (deliver_receives risn ins k got (ConnRecv.pathOf c) (S (Z.to_nat (size (recvBuf c)))) n (recvBuf c) (events c) ins_short H4)
    as (j' & rb' & ev' & -> & R & St & Hr); [|done..|].
  { pose proof (RecvBuffer.ri_size _ _ (rv_inv _ _ _ _ _ _ _ H4)) as E. unfold RecvBuffer.count_avail, len in E. lia. }
  pose proof (run_unique _ _ _ _ H5 Hr) as <-. unfold ConnRecv.setPath, ConnRecv.pathOf. cbn [Delivery.recvBuf Delivery.tsbpdTimer Delivery.recvDropped Delivery.events Delivery.outputs].
  constructor; fields.
  - revert H1. unfold reliable. fields. by rewrite Ht.
  - by apply (sending_same isn outs m c).
  - rewrite Nat.add_0_r. done.
  - done.
  - by apply run_settled; [apply R|].
Qed.

(** A run of some length is ready after an insertion. *)
Lemma insert_run n got (rb : RecvBuffer.RecvBuffer Tsbpd.Timer) ev : receives risn ins k n got rb ev -> exists j, run k rb j.
Proof.
  intros H. destruct (deliver_receives risn ins k got (Delivery.mkPath rb (Tsbpd.New 0 0) 0 ev (Fifo.mkFifo [] 0%nat)) (S (Z.to_nat (size rb))) n rb ev ins_short H)
    as (j & _ & _ & _ & _ & _ & Hj); [|done..|by exists j].
  pose proof (RecvBuffer.ri_size _ _ (rv_inv _ _ _ _ _ _ _ H)) as E. unfold RecvBuffer.count_avail, len in E. lia.
Qed.

Lemma accepted_good now p wb fd res n j got c : endpoint isn outs m risn ins k n j got c ->
  endpoint isn outs m risn ins k (n + j) 0 got (ConnRecv.accepted now p wb fd res c).
Proof.
  intros H. unfold ConnRecv.accepted. cbv zeta. apply deliverNow_good.
  set (s := Packet.SequenceNumber (Hdr p)). set (c1 := ConnRecv.cancelDeferred s _).
  assert (endpoint isn outs m risn ins k n j got c1) as H1 by (apply cancelDeferred_good; ends). clearbody c1.
  set (c2 := if Packet.Retransmitted (Hdr p) then _ else _).
  assert (endpoint isn outs m risn ins k n j got c2) as H2 by (unfold c2; destruct (Packet.Retransmitted _); ends). clearbody c2.
  rewrite (anchorTimer_id now p c2 H2), (feedFEC_id now p fd c2 H2).
  set (c3 := if RecvBuffer.HasGap res then _ else c2).
  assert (endpoint isn outs m risn ins k n j got c3) as H3.
  { unfold c3. destruct (RecvBuffer.HasGap res); [|done]. destruct (ConnRecv.nakOwnLosses _); [apply reportGap_good|]; ends. }
  clearbody c3. pose proof (flushDeferredLoss_good now s c3 H3) as H4. set (c4 := ConnRecv.flushDeferredLoss now s c3) in *. clearbody c4.
  destruct (_ && _); [|done]. ends. by apply sendLiteACK_good.
Qed.

(** A genuine packet. *)
Lemma handleData_good now p n got c : genuine risn ins p -> endpoint isn outs m risn ins k n 0 got c ->
  exists n', (n <= n')%nat /\ endpoint isn outs m risn ins k n' 0 got (ConnRecv.handleData now p c) /\
    (0 < k -> carries risn ins n p -> (n < n')%nat).
Proof.
  intros Hg H. pose proof H as [((Hcr & _ & _ & Hf) & _ & (Ht & _) & _) _ _ _ _]. unfold ConnRecv.handleData. rewrite Hf. unfold ConnRecv.handleSource. cbv zeta.
  set (c1 := if Packet.Retransmitted (Hdr p) then _ else _).
  assert (endpoint isn outs m risn ins k n 0 got c1 /\ cryptoCtx c1 = None /\ tsbpdTimer c1 = None) as (H1 & Hc1 & Ht1)
    by (unfold c1; destruct (Packet.Retransmitted _); fields; (split; [ends|done])). clearbody c1.
  unfold ConnRecv.decrypt. rewrite Hc1. cbn [negb]. pose proof H1 as [R1 R2 R3 R4 R5].
  destruct (Insert_receives risn ins k n got (recvBuf c1) (events c1) p now Hg R4) as [I1 I2].
  assert (0 < k -> carries risn ins n p -> RecvBuffer.Inserted (fst (RecvBuffer.Insert (recvBuf c1) p now)) = true /\
    availAt (snd (RecvBuffer.Insert (recvBuf c1) p now)) (startSeq (snd (RecvBuffer.Insert (recvBuf c1) p now))) = true) as I3.
  { intros Hk Hn. apply (Insert_next risn ins k n got _ (events c1)); try done. apply (run_settled k); [apply R4|done]. }
  destruct (RecvBuffer.Insert (recvBuf c1) p now) as [res rb]. cbn [fst snd] in I1, I2, I3.
  destruct (RecvBuffer.Inserted res) eqn:Ei; cbn [negb].
  - destruct (insert_run n got rb (events c1) I1) as [j Hj]. exists (n + j)%nat. split; [lia|]. split.
    + apply accepted_good. constructor; fields; try done; [by apply (sending_same isn outs m c1)|].
      eapply list.Forall_impl; [exact R3|]. intros x Hx. rewrite <- (app_nil_r outs). eapply wireOk_weaken; [|exact Hx].
      intros s. apply acks_weaken. lia.
    + intros Hk Hn. destruct j; [|lia]. exfalso. apply run_settled in Hj; [|apply I1]. destruct (I3 Hk Hn) as [_ Ha]. unfold settled in Hj. congruence.
  - exists n. split; [lia|]. specialize (I2 eq_refl). subst rb.
    assert (endpoint isn outs m risn ins k n 0 got (c1 <| recvBuf := recvBuf c1 |>)) as H2 by (by apply end_recv). split.
    + unfold ConnRecv.noteBelated. destruct (Seq.LessThan _ _); [|done]. fields. rewrite Ht1. ends.
    + intros Hk Hn. destruct (I3 Hk Hn). congruence.
Qed.

Hypothesis outs_short : Z.of_nat (length outs) < 2 ^ 30.
Hypothesis m_bound : (m <= length outs)%nat.

(** A packet of the peer, or any packet the network repeats. *)
Lemma HandlePacket_good now p n got c : wireOk risn ins (acks isn m) p -> endpoint isn outs m risn ins k n 0 got c ->
  exists n', (n <= n')%nat /\ endpoint isn outs m risn ins k n' 0 got (ConnCore.HandlePacket now p c) /\
    (closed c = false -> 0 < k -> carries risn ins n p -> (n < n')%nat).
Proof.
  intros Hp H. unfold ConnCore.HandlePacket. cbv zeta. set (c0 := c <| lastNow := now |>).
  assert (endpoint isn outs m risn ins k n 0 got c0) as H0 by (unfold c0; ends). change (closed c) with (closed c0). clearbody c0.
  destruct (closed c0) eqn:Ec; [by exists n|]. pose proof H0 as [(_ & _ & _ & Hr & Hs & _) _ _ _ _].
  set (c1 := if peerIdleTimeout c0 >? 0 then _ else c0).
  assert (endpoint isn outs m risn ins k n 0 got c1) as H1 by (unfold c1; destruct (_ >? 0); ends). clearbody c1.
  destruct Hp as [Hg|[Hc Hb]].
  - assert (IsControl (Hdr p) = false) as -> by (by destruct Hg as (i & ? & _)). cbn [andb]. rewrite Hs, bool_decide_eq_true_2 by done.
    cbn [negb]. destruct (handleData_good now p n got c1 Hg H1) as (n' & ? & ? & ?). exists n'. split_and!; auto.
  - assert (carries risn ins n p -> False) as Hno by (intros (? & _); congruence). rewrite Hc, Hs, bool_decide_eq_true_2 by done. cbn [andb negb].
    exists n. split; [lia|]. split; [|tauto].
    unfold ConnCore.handleControl. cbv zeta. destruct Hb as [[-> Ha]|[[-> Hb]|[->|[->|[->|(-> & hs & Ed & Er)]]]]]; cbn.
    + by apply handleACK_good.
    + by apply handleNAK_good.
    + by apply handleACKACK_good.
    + by apply handleKeepalive_good.
    + apply end_event; [done|]. ends.
    + unfold ConnCore.handleHandshake. by rewrite Ed, Er, Hr, Hs.
Qed.

Lemma HandleTimer_good now id n got c : endpoint isn outs m risn ins k n 0 got c ->
  exists c', ConnCore.HandleTimer now id c = Some c' /\ endpoint isn outs m risn ins k n 0 got c'.
Proof.
  intros H. unfold ConnCore.HandleTimer. cbv zeta. set (c0 := _ <| lastNow := now |>).
  assert (endpoint isn outs m risn ins k n 0 got c0) as H0 by (unfold c0; ends; by apply sampleInputBandwidth_good). clearbody c0.
  destruct (closed c0); [by exists c0|]. pose proof H0 as [((_ & Hk & _) & _ & (Ht & _) & Hr & Hs & Hrdy) _ _ _ _].
  unfold ConnCore.pump_checked, ConnCore.deref. rewrite Hrdy, Ht.
  destruct id; [| |destruct (periodicNAK c0); [|by exists c0]| | |destruct (_ >? 0)| | | |]; (eexists; split; [done|]).
  - unfold ConnCore.handleHandshakeTimer. by rewrite Hr, Hs.
  - unfold ConnCore.handleTimerACK. cbv zeta.
    assert (endpoint isn outs m risn ins k n 0 got (arm Output.TimerACK (Clock.Add now synInterval) (ConnRecv.sendFullACK now c0))) as H1
      by (ends; by apply sendFullACK_good). destruct (_ || _); [by apply pump_good|done].
  - unfold ConnCore.handleTimerNAK. destruct (negb _); [done|]. cbv zeta. ends. destruct (ConnRecv.nakOwnLosses c0); [by apply periodicNAK_good|done].
  - by apply handleEXP_good.
  - done.
  - by apply pump_good.
  - by apply pump_good.
  - done.
  - by apply keepalive_good.
  - by apply checkPeerIdle_good.
  - unfold KeyRotation.retryKMREQ. by rewrite Hk.
Qed.

(** The host takes an output, the application an event. *)
Lemma PollOutput_good n got c : endpoint isn outs m risn ins k n 0 got c ->
  let '(o, c') := ConnCore.PollOutput c in
  endpoint isn outs m risn ins k n 0 got c' /\ forall p, o ≫= packetOut = Some p -> wireOk isn outs (acks risn n) p.
Proof.
  intros H. pose proof (good_wf c H) as W. destruct H as [H1 H2 H3 H4 H5]. unfold ConnCore.PollOutput.
  pose proof (Fifo.pop_contents (Output.ClearTimer Output.TimerHandshake) (outputs c) W) as Hc. unfold wire, sent in H3. rewrite Nat.add_0_r in H3.
  destruct (Fifo.pop _ (outputs c)) as [[o ok] l]. destruct Hc as [Wl Hc].
  assert (forall l', Fifo.contents l = l' -> Forall (wireOk isn outs (acks risn n)) (omap packetOut l') -> endpoint isn outs m risn ins k n 0 got (c <| outputs := l |>)) as Hend.
  { intros l' El Hl'. constructor; [done|by apply (sending_same isn outs m c)| |done|done]. unfold wire, sent. fields. by rewrite Nat.add_0_r, El. }
  destruct (Fifo.contents (outputs c)) as [|o1 os] eqn:Eo.
  - destruct Hc as [-> C]. split; [by apply (Hend [])|done].
  - destruct Hc as (-> & -> & C). cbn [omap list_omap] in H3. split.
    + apply (Hend os C). destruct (packetOut o1); [by apply Forall_cons in H3 as [_ ?]|done].
    + intros p Hd. cbn in Hd. rewrite Hd in H3. by apply Forall_cons in H3 as [? _].
Qed.

Lemma PollEvent_good n got c : endpoint isn outs m risn ins k n 0 got c ->
  let '(e, c') := ConnCore.PollEvent c in
  endpoint isn outs m risn ins k n 0 (got ++ option_list (e ≫= dataEvent)) c'.
Proof.
  intros [H1 H2 H3 H4 H5]. unfold ConnCore.PollEvent. destruct H4 as [R1 R2 R3 R4 R5 R6].
  pose proof (Fifo.pop_contents Output.Closed (events c) R5) as Hc. destruct (Fifo.pop _ (events c)) as [[e ok] l]. destruct Hc as [Wl Hc].
  constructor; [done|by apply (sending_same isn outs m c)|done| |done]. constructor; fields; try done. unfold received in *.
  destruct (Fifo.contents (events c)) as [|e1 es].
  - destruct Hc as [-> C]. rewrite C. cbn. by rewrite app_nil_r.
  - destruct Hc as (-> & -> & C). rewrite C, <- R6, <- app_assoc. f_equal. cbn [omap list_omap mbind option_bind]. by destruct (dataEvent e1).
Qed.

End Inputs.

(** ** Writing *)

Section Writing.
Context {P : Crypto.Primitives}.

Lemma writeMsg_good isn outs m risn ins k n got now data opts owned c : closed c = false -> TTL opts <= 0 ->
  endpoint isn outs m risn ins k n 0 got c ->
  endpoint isn (outs ++ framesOf now data opts owned c) m risn ins k n 0 got (writeMsg now data opts owned c).
Proof.
  intros Hc Ht H. pose proof H as [(_ & _ & _ & _ & Hs & _) _ _ _ _].
  destruct (writeMsg_frames now data opts owned c Hc Hs Ht) as (c1 & -> & E). apply pump_good.
  apply (end_same c c1) in H; [|exact E]. destruct H as [H1 H2 H3 H4 H5]. set (fs := framesOf _ _ _ _ _).
  constructor; [done|by apply sending_grows| |done|done]. eapply list.Forall_impl; [exact H3|]. intros x. by apply wireOk_weaken.
Qed.

(** The peer writes, and the peer delivers. *)
Lemma peer_writes isn outs m risn ins fs k n got c :
  endpoint isn outs m risn ins k n 0 got c -> endpoint isn outs m risn (ins ++ fs) k n 0 got c.
Proof. intros [H1 H2 H3 H4 H5]. constructor; try done. by apply receives_grows. Qed.

Lemma peer_delivers isn outs m m' risn ins k n got c : (m <= m')%nat ->
  endpoint isn outs m risn ins k n 0 got c -> endpoint isn outs m' risn ins k n 0 got c.
Proof. intros Hm [H1 H2 H3 H4 H5]. constructor; try done. by apply (sending_weaken isn outs m). Qed.

End Writing.

(** ** Established connections *)

Section Start.
Context {P : Crypto.Primitives} {M : Float64.GoMath}.

(** Parameters of a plain connection in stream mode. *)
Definition streaming (ep : EP.establishParams) : Prop :=
  EP.CryptoCtx ep = None /\ EP.FilterConfig ep = [] /\ EP.Live ep = false /\ EP.Message ep = false.

Lemma initPath_fields now ep c :
  let c' := Establish.initPath now ep c in
  (reliable (c <| ready := true |> <| state := stateConnected |>) -> reliable (c' <| state := stateConnected |>)) /\
  recvBuf c' = RecvBuffer.NewRecvBuffer (Establish.capacityOf ep (EP.RecvBufCapacity ep)) (EP.RecvISN ep) /\ events c' = events c.
Proof.
  cbv zeta. unfold Establish.initPath, applyBandwidth. cbv zeta. fields. cbn [negb].
  destruct (negb _); [|destruct (_ && _)]; unfold reliable; fields; done.
Qed.

(** The buffers as [establish] makes them. *)
Lemma start_good isn risn ks kr c : reliable c ->
  sinv ks c [] -> SendBuffer.startSeq (sendBuf c) = isn -> frames c = [] -> Forall (wireOk isn [] (acks risn 0)) (wire c) ->
  RecvBuffer.rinv kr (recvBuf c) -> startSeq (recvBuf c) = risn -> Forall (fun e => e = RecvBuffer.zeroRE) (entries (recvBuf c)) ->
  Fifo.wf (events c) -> received (events c) = [] -> endpoint isn [] 0 risn [] kr 0 0 [] c.
Proof.
  intros H1 H2 <- H4 H5 H6 <- H8 H9 H10. constructor; [done| |done| |].
  - exists ks, [], 0%nat. split_and!; try done. apply (SendBuffer.rep_next _ _ _ (si_rep _ _ _ H2)).
  - constructor; try done; [by rewrite Seq.sadd_0 by apply H6|].
    eapply list.Forall_impl; [exact H8|]. intros e ->. by left.
  - apply run_settled; [done|]. unfold settled, availAt. pose proof (RecvBuffer.entry_elem kr _ (startSeq (recvBuf c)) H6) as He.
    rewrite list.Forall_forall in H8. by rewrite (H8 _ He).
Qed.

(** A connection whose data path is not in use yet. *)
Record unused (isn risn : Z) (c : Conn) : Prop := mkUnused {
  un_reliable : reliable (c <| ready := true |> <| state := stateConnected |>);
  un_queue : sendQueue c = Fifo.empty;
  un_events : Fifo.wf (events c) /\ received (events c) = [];
  un_outputs : Fifo.wf (outputs c);
  un_wire : Forall (wireOk isn [] (acks risn 0)) (wire c)
}.

Lemma zeroConn_unused isn risn rand : unused isn risn (zeroConn rand).
Proof. constructor; try done; unfold Fifo.wf; cbn; (split; [lia|done]) || lia. Qed.

Lemma establish_good now ep c0 : streaming ep -> Seq.is_seq (EP.SendISN ep) -> Seq.is_seq (EP.RecvISN ep) ->
  Establish.capacityOf ep (EP.SendBufCapacity ep) <= 2 ^ 29 -> Establish.capacityOf ep (EP.RecvBufCapacity ep) <= 2 ^ 29 ->
  unused (EP.SendISN ep) (EP.RecvISN ep) c0 ->
  exists k, 2 ^ k = Ring.nextPow2 (Establish.capacityOf ep (EP.RecvBufCapacity ep)) /\ 0 <= k /\
    endpoint (EP.SendISN ep) [] 0 (EP.RecvISN ep) [] k 0 0 [] (Establish.establish now ep c0).
Proof.
  intros (E1 & E2 & E3 & E4) Hs Hr Cs Cr [U1 U2 [U3 U4] U5 U6]. unfold Establish.establish, Establish.initFilter, Establish.initCrypto, Establish.initPlayout.
  rewrite E1, E2, E3, E4. cbv zeta. destruct (initPath_fields now ep c0) as (F1 & F2 & F3).
  destruct (Sender.initPath_buffers now ep c0) as (G1 & G2 & G3 & G4). set (c1 := Establish.initPath now ep c0) in *.
  specialize (F1 U1). clearbody c1. set (c2 := _ <| peerNakReport := _ |>). set (c3 := (if _ >? 0 then _ else c2) <| state := stateConnected |>).
  assert (same_end (c1 <| state := stateConnected |>) c3) as S3.
  { unfold same_end, c3, c2. destruct (_ >? 0); (split; [unfold reliable; fields; done|fields; done]). }
  clearbody c3. clear c2. destruct (RecvBuffer.NewRecvBuffer_rinv (T := Tsbpd.Timer) _ _ Cr Hr) as (k & Ek & Rk). exists k. split; [done|].
  split; [apply Rk|]. destruct (SendBuffer.NewSendBuffer_rep _ _ Cs Hs) as (ks & Eks & Sk).
  assert (endpoint (EP.SendISN ep) [] 0 (EP.RecvISN ep) [] k 0 0 [] (c1 <| state := stateConnected |>)) as H1.
  { assert (Establish.flowWindowOf ep <= 2 ^ ks) as Hf.
    { pose proof (Sender.capacity_covers ep (EP.SendBufCapacity ep)). rewrite Eks.
      destruct (Ring.nextPow2_least (Establish.capacityOf ep (EP.SendBufCapacity ep)) ltac:(lia)) as (jk & _ & -> & ? & _). lia. }
    apply (start_good (EP.SendISN ep) (EP.RecvISN ep) ks k); unfold frames, wire, sent in *; fields; rewrite ?F2, ?F3, ?G1, ?G3, ?G4, ?U2; try done.
    - constructor; fields; rewrite ?G1, ?G2, ?G3, ?G4, ?U2; try done; unfold Fifo.wf; cbn; lia.
    - unfold RecvBuffer.NewRecvBuffer. cbn [entries]. by apply Forall_replicate. }
  apply (end_same _ c3 S3) in H1. unfold Establish.armTimers. cbv zeta. destruct (periodicNAK _), (_ >? 0); ends.
Qed.

End Start.

End StreamEnd.
