(* ===== verification/Stream.v ===== *)
(** * A transfer from end to end ([internal/core])

    Two established connections over a network that loses, repeats, delays and
    reorders packets at will.  Both ends write; every input is an input of the real
    connection: a packet of the peer, a timer, a write, a poll, a shutdown.  What
    the application at either end reads is a prefix of what the other end wrote, the
    sender's buffers are empty only when all of it has been handed on, and the
    packet for the next place is never turned away. *)
From Stdlib Require Import ZArith Lia.
From stdpp Require Import base numbers list option gmap relations.
From S2P Require Import Prelude Seq Packet Control Clock Tsbpd Ring SendBuffer RecvBuffer Fifo Output Crypto Float64 ConnState ConnSend ConnRecv Establish ConnCore Sender StreamSend StreamRecv StreamEnd.
Import Packet(Packet, Hdr, Data, IsControl, SequenceNumber).
Import ConnState.
Import ConnSend.
Import StreamSend(packetOut, framesOf, genuine, carries).
Import StreamRecv(dataEvent, received, acks).
Import StreamEnd.
Local Open Scope Z_scope.

Module Stream.

(** ** The system *)

(** One end: the connection, every packet it has handed to the network, what its
    application wrote and the frames the writes were cut into, and what its
    application has read. *)
Record End : Type := mkEndpoint {
  conn : Conn;
  net : list Packet;
  written : list (list Z);
  cut : list frame;
  got : list (list Z)
}.

Definition setConn (e : End) (c : Conn) : End := mkEndpoint c (net e) (written e) (cut e) (got e).

(** Read by the application, or waiting for it. *)
Definition delivered (e : End) : list (list Z) := got e ++ received (events (conn e)).

Section System.
Context {P : Crypto.Primitives} {M : Float64.GoMath} {O : ConnRecv.RangeOrder}.

(** What one end does, when the peer has sent [from].  The network holds on to every
    packet: any of them may arrive at any time, any number of times, or never. *)
Inductive act (from : list Packet) : End -> End -> Prop :=
| a_write now data opts owned e : closed (conn e) = false -> TTL opts <= 0 ->
    act from e (mkEndpoint (writeMsg now data opts owned (conn e)) (net e) (written e ++ [data])
      (cut e ++ framesOf now data opts owned (conn e)) (got e))
| a_packet now p e : p ∈ from -> act from e (setConn e (ConnCore.HandlePacket now p (conn e)))
| a_timer now id e c : ConnCore.HandleTimer now id (conn e) = Some c -> act from e (setConn e c)
| a_output e o c : ConnCore.PollOutput (conn e) = (o, c) ->
    act from e (mkEndpoint c (net e ++ option_list (o ≫= packetOut)) (written e) (cut e) (got e))
| a_event e v c : ConnCore.PollEvent (conn e) = (v, c) ->
    act from e (mkEndpoint c (net e) (written e) (cut e) (got e ++ option_list (v ≫= dataEvent)))
| a_keepalive now e : act from e (setConn e (SendKeepAlive now (conn e)))
| a_shutdown now e : act from e (setConn e (Shutdown now (conn e))).

Inductive step : End * End -> End * End -> Prop :=
| st_left a a' b : act (net b) a a' -> step (a, b) (a', b)
| st_right a b b' : act (net a) b b' -> step (a, b) (a, b').

(** A connection that was just established. *)
Definition fresh (now : Z) (ep : EP.establishParams) (rand : nat -> option (list Z)) : End :=
  mkEndpoint (Establish.establish now ep (zeroConn rand)) [] [] [] [].

(** The parameters of the two ends fit: each sends from where the other expects. *)
Record fit (ea eb : EP.establishParams) : Prop := mkFit {
  fit_a : streaming ea;
  fit_b : streaming eb;
  fit_ab : EP.SendISN ea = EP.RecvISN eb;
  fit_ba : EP.SendISN eb = EP.RecvISN ea;
  fit_seq : Seq.is_seq (EP.SendISN ea) /\ Seq.is_seq (EP.SendISN eb);
  fit_cap_a : Establish.capacityOf ea (EP.SendBufCapacity ea) <= 2 ^ 29 /\ Establish.capacityOf ea (EP.RecvBufCapacity ea) <= 2 ^ 29;
  fit_cap_b : Establish.capacityOf eb (EP.SendBufCapacity eb) <= 2 ^ 29 /\ Establish.capacityOf eb (EP.RecvBufCapacity eb) <= 2 ^ 29
}.

(** ** The invariant *)

(** [x] has delivered [n] frames of [y], which has delivered [m] of [x]. *)
Record half (isn risn k : Z) (m n : nat) (x y : End) : Prop := mkHalf {
  hf_end : endpoint isn (cut x) m risn (cut y) k n 0 (got x) (conn x);
  hf_net : Forall (wireOk isn (cut x) (acks risn n)) (net x);
  hf_cut : concat (map payload (cut x)) = concat (written x)
}.

Definition inv (ia ib ka kb : Z) (a b : End) : Prop := exists n m, half ia ib ka m n a b /\ half ib ia kb n m b a.

Lemma inv_sym ia ib ka kb a b : inv ia ib ka kb a b -> inv ib ia kb ka b a.
Proof. intros (n & m & H1 & H2). by exists m, n. Qed.

(** An act of the end that keeps its stream and reads on. *)
Lemma half_conn isn risn k m n n' x x' y : half isn risn k m n x y -> (n <= n')%nat ->
  endpoint isn (cut x) m risn (cut y) k n' 0 (got x') (conn x') -> net x' = net x -> written x' = written x -> cut x' = cut x ->
  half isn risn k m n' x' y.
Proof.
  intros [H1 H2 H3] Hn He En Ew Ec. constructor; [by rewrite Ec| |by rewrite Ec, Ew]. rewrite Ec, En.
  eapply list.Forall_impl; [exact H2|]. intros p Hp. rewrite <- (app_nil_r (cut x)). eapply wireOk_weaken; [|exact Hp]. intros s. by apply StreamEnd.acks_weaken.
Qed.

(** The other end sees only the stream, and how much of its own has arrived. *)
Lemma half_peer isn risn k m m' n x y y' fs : half isn risn k m n x y -> (m <= m')%nat -> cut y' = cut y ++ fs -> half isn risn k m' n x y'.
Proof.
  intros [H1 H2 H3] Hm Ec. constructor; [|done|done]. rewrite Ec. by apply StreamEnd.peer_writes, (StreamEnd.peer_delivers isn (cut x) m).
Qed.

(** The act leaves the stream and what arrived as they are. *)
Lemma inv_quiet ia ib ka kb a a' b : inv ia ib ka kb a b ->
  (forall m n, endpoint ia (cut a) m ib (cut b) ka n 0 (got a) (conn a) -> endpoint ia (cut a) m ib (cut b) ka n 0 (got a') (conn a')) ->
  net a' = net a -> written a' = written a -> cut a' = cut a -> inv ia ib ka kb a' b.
Proof.
  intros (n & m & H1 & H2) He En Ew Ec. exists n, m. split.
  - apply (half_conn ia ib ka m n n a); try done. apply He, H1.
  - apply (half_peer ib ia kb n n m b a a' []); [done|lia|by rewrite app_nil_r].
Qed.

Lemma act_inv ia ib ka kb a a' b : inv ia ib ka kb a b -> Z.of_nat (length (cut b)) < 2 ^ 30 -> act (net b) a a' -> Z.of_nat (length (cut a')) < 2 ^ 30 -> inv ia ib ka kb a' b.
Proof.
  intros I short_b A Ha'. destruct A as [now data opts owned a Hc Ht|now p a Hp|now id a c Hc|a o c Hc|a v c Hc|now a|now a].
  - destruct I as (n & m & [H1 H2 H3] & H4). exists n, m. split.
    + constructor; cbn [conn net written cut got]; [by apply writeMsg_good| |].
      * eapply list.Forall_impl; [exact H2|]. intros p. by apply wireOk_weaken.
      * rewrite map_app, !concat_app, H3, StreamSend.framesOf_data. cbn [concat]. by rewrite app_nil_r.
    + by eapply (half_peer ib ia kb n n m b a).
  - destruct I as (n & m & H1 & H2). pose proof (StreamRecv.rv_n _ _ _ _ _ _ _ (en_recv _ _ _ _ _ _ _ _ _ _ (hf_end _ _ _ _ _ _ _ H2))) as Hm.
    pose proof (hf_net _ _ _ _ _ _ _ H2) as Hw. rewrite list.Forall_forall in Hw.
    assert (Z.of_nat (length (cut b)) < 2 ^ 31) as Hb by lia.
    destruct (HandlePacket_good Hb Ha' Hm now p n (got a) (conn a) (Hw p Hp) (hf_end _ _ _ _ _ _ _ H1)) as (n' & Hn & He & _).
    exists n', m. split; [by apply (half_conn ia ib ka m n n' a)|]. apply (half_peer ib ia kb n n' m b a _ []); [done|done|by rewrite app_nil_r].
  - apply (inv_quiet ia ib ka kb a); try done. intros m n He. destruct (HandleTimer_good now id n (got a) (conn a) He) as (c' & E & Hc'). cbn. congruence.
  - destruct I as (n & m & [H1 H2 H3] & H4). exists n, m. pose proof (PollOutput_good n (got a) (conn a) H1) as Hpo. rewrite Hc in Hpo. destruct Hpo as [He Ho]. split.
    + constructor; [done| |done]. cbn [net cut]. apply Forall_app. split; [done|]. destruct (o ≫= packetOut) as [p|]; [|constructor].
      constructor; [by apply Ho|constructor].
    + apply (half_peer ib ia kb n n m b a _ []); [done|lia|by rewrite app_nil_r].
  - apply (inv_quiet ia ib ka kb a); try done. intros m n He. pose proof (PollEvent_good n (got a) (conn a) He) as Hpe. by rewrite Hc in Hpe.
  - apply (inv_quiet ia ib ka kb a); try done. intros m n He. by apply keepalive_good.
  - apply (inv_quiet ia ib ka kb a); try done. intros m n He. by apply Shutdown_good.
Qed.

Lemma act_grows from e e' : act from e e' -> (length (cut e) <= length (cut e'))%nat.
Proof. intros []; cbn [cut setConn]; rewrite ?length_app; lia. Qed.

Definition short (s : End * End) : Prop := Z.of_nat (length (cut (fst s))) < 2 ^ 30 /\ Z.of_nat (length (cut (snd s))) < 2 ^ 30.

Lemma transfer_step ia ib ka kb s s' : step s s' -> short s' ->
  short s /\ (inv ia ib ka kb (fst s) (snd s) -> inv ia ib ka kb (fst s') (snd s')).
Proof.
  intros St [S1 S2]. destruct St as [a a' b A|a b b' A]; cbn [fst snd] in *; pose proof (act_grows _ _ _ A).
  - split; [unfold short; cbn [fst snd]; lia|]. intros I. by apply (act_inv ia ib ka kb a).
  - split; [unfold short; cbn [fst snd]; lia|]. intros I%inv_sym. apply inv_sym. by apply (act_inv ib ia kb ka b).
Qed.

Lemma transfer_inv ia ib ka kb s s' : rtc step s s' -> short s' ->
  inv ia ib ka kb (fst s) (snd s) -> inv ia ib ka kb (fst s') (snd s').
Proof.
  intros R Sh I. enough (short s /\ (inv ia ib ka kb (fst s) (snd s) -> inv ia ib ka kb (fst s') (snd s'))) as [_ Hx] by auto.
  clear I. induction R as [s|s s1 s2 St R IH]; [done|]. destruct (IH Sh) as [S1 I1].
  destruct (transfer_step ia ib ka kb s s1 St S1) as [S0 I0]. auto.
Qed.

(** From two fresh connections. *)
Lemma start_inv ta tb ea eb ra rb s : fit ea eb -> rtc step (fresh ta ea ra, fresh tb eb rb) s -> short s ->
  exists ka kb, 2 ^ kb = Ring.nextPow2 (Establish.capacityOf eb (EP.RecvBufCapacity eb)) /\ 0 <= kb /\
    inv (EP.SendISN ea) (EP.SendISN eb) ka kb (fst s) (snd s).
Proof.
  intros [Fa Fb Eab Eba [Sa Sb] [Ca1 Ca2] [Cb1 Cb2]] R Sh.
  destruct (establish_good ta ea (zeroConn ra) Fa Sa ltac:(by rewrite <- Eba) Ca1 Ca2 (zeroConn_unused _ _ ra)) as (ka & _ & _ & Ha).
  destruct (establish_good tb eb (zeroConn rb) Fb Sb ltac:(by rewrite <- Eab) Cb1 Cb2 (zeroConn_unused _ _ rb)) as (kb & Ek & Hk & Hb).
  exists ka, kb. split; [done|]. split; [done|]. apply (transfer_inv _ _ _ _ _ _ R Sh). cbn [fst snd]. rewrite <- Eba in Ha. rewrite <- Eab in Hb.
  exists 0%nat, 0%nat. by split; constructor.
Qed.

(** What the receiving end has delivered. *)
Lemma delivered_cut isn risn k m n x y : half isn risn k m n x y -> delivered x = map payload (take n (cut y)) /\ (n <= length (cut y))%nat.
Proof. intros [[_ _ _ [_ _ H3 _ _ H6] _] _ _]. split; [exact H6|done]. Qed.

Lemma delivered_length isn risn k m n x y : half isn risn k m n x y -> length (delivered x) = n.
Proof. intros [-> Hn]%delivered_cut. rewrite length_map, length_take. lia. Qed.

(** A frame that the peer has not delivered is queued or can be sent again. *)
Lemma half_held isn risn k m n x y i f : half isn risn k m n x y -> cut x !! i = Some f -> (m <= i)%nat ->
  f ∈ frames (conn x) \/
  exists p, p ∈ SendBuffer.GetAllUnacked (sendBuf (conn x)) /\ SequenceNumber (Hdr p) = Seq.sadd isn (Z.of_nat i) /\ Data p = payload f.
Proof.
  intros [[_ (k' & q & a0 & Hs & Hq & _ & Ef & _ & Ha) _ _ _] _ _] Hf Hi. destruct (decide (i < a0 + length q)%nat) as [Hl|Hl].
  - right. destruct (lookup_lt_is_Some_2 q (i - a0) ltac:(lia)) as [e He]. specialize (Hq _ _ He).
    replace (a0 + (i - a0))%nat with i in Hq by lia. destruct Hq as (_ & Hsq & f' & Hf' & Hd). rewrite Hf in Hf'. injection Hf' as <-.
    exists (SendBuffer.rexmitClone e). split; [|done]. rewrite (SendBuffer.GetAllUnacked_rep k' _ q) by apply Hs.
    apply list_elem_of_fmap. exists e. split; [done|]. apply list_elem_of_In, filter_In. split; [by apply list_elem_of_In, (list_elem_of_lookup_2 _ _ _ He)|].
    pose proof (si_used _ _ _ Hs) as Hu. rewrite list.Forall_forall in Hu. by apply Hu, (list_elem_of_lookup_2 _ _ _ He).
  - left. rewrite Ef. apply (list_elem_of_lookup_2 _ (i - (a0 + length q))). rewrite lookup_drop, <- Hf. f_equal. lia.
Qed.

(** When nothing is queued or in flight, the peer has delivered the whole stream. *)
Lemma half_drained isn risn k m n x y : half isn risn k m n x y -> PendingSend (conn x) = 0 -> Fifo.len (sendQueue (conn x)) = 0 ->
  (length (cut x) <= m)%nat.
Proof.
  intros [[(_ & _ & _ & _ & _ & Hr) (k' & q & a0 & Hs & _ & _ & Ef & Hl & Ha) _ _ _] _ _]. unfold PendingSend. rewrite Hr, (sinv_size k' _ q Hs).
  rewrite Fifo.len_contents by apply Hs. fold (frames (conn x)). intros Hq Hn. unfold len in Hq.
  apply (f_equal length) in Ef. rewrite length_drop in Ef. lia.
Qed.

(** What the invariant says to the applications. *)
Lemma inv_prefix ia ib ka kb a b : inv ia ib ka kb a b -> concat (got b) `prefix_of` concat (written a).
Proof.
  intros (n & m & [_ _ Ha] & [Hd _]%delivered_cut). rewrite <- Ha. unfold delivered in Hd.
  exists (concat (received (events (conn b))) ++ concat (map payload (drop m (cut a)))).
  by rewrite app_assoc, <- !concat_app, Hd, <- map_app, take_drop.
Qed.

Lemma inv_complete ia ib ka kb a b : inv ia ib ka kb a b -> PendingSend (conn a) = 0 -> Fifo.len (sendQueue (conn a)) = 0 ->
  concat (delivered b) = concat (written a).
Proof.
  intros (n & m & Ha & Hb) Hp Hq. pose proof (half_drained _ _ _ _ _ _ _ Ha Hp Hq). destruct (delivered_cut _ _ _ _ _ _ _ Hb) as [-> _].
  rewrite take_ge by done. apply Ha.
Qed.

Section Theorems.
Context (ta tb : Z) (ea eb : EP.establishParams) (ra rb : nat -> option (list Z)) (a b : End).



(** C3. Progress: in every such run, if the receiver is open and its ring has at
    least two slots, the data packet for the next place it expects, however late
    or often repeated, is taken at once, and at least one more payload is handed
    to the application. *)
Theorem transfer_progress (now : Z) (p : Packet) : fit ea eb -> rtc step (fresh ta ea ra, fresh tb eb rb) (a, b) -> short (a, b) ->
  2 <= Establish.capacityOf eb (EP.RecvBufCapacity eb) -> closed (conn b) = false -> p ∈ net a -> IsControl (Hdr p) = false ->
  SequenceNumber (Hdr p) = Seq.sadd (EP.SendISN ea) (Z.of_nat (length (delivered b))) ->
  exists more, more <> [] /\ delivered (setConn b (ConnCore.HandlePacket now p (conn b))) = delivered b ++ more.
Proof.
  intros F R Sh Hcap Hcl Hp Hc Hs. destruct (start_inv ta tb ea eb ra rb _ F R Sh) as (ka & kb & Ek & Hk & n & m & Ha & Hb). cbn [fst snd] in *.
  rewrite (delivered_length _ _ _ _ _ _ _ Hb) in Hs. destruct (delivered_cut _ _ _ _ _ _ _ Hb) as [Hd Hm]. destruct (delivered_cut _ _ _ _ _ _ _ Ha) as [_ Hn].
  pose proof (hf_net _ _ _ _ _ _ _ Ha) as Hw. rewrite list.Forall_forall in Hw. specialize (Hw p Hp). destruct Sh as [Sa Sb]. cbn [fst snd] in Sa, Sb.
  assert (carries (EP.SendISN ea) (cut a) m p) as Hcar.
  { destruct Hw as [[i Hi]|[Hb' _]]; [|congruence]. pose proof Hi as (_ & Hq & f & Hf & _). apply lookup_lt_Some in Hf.
    assert (i = m) as <-; [|done]. apply (StreamRecv.place_inj (EP.SendISN ea) i m (length (cut a))); [lia|done|done|congruence]. }
  assert (0 < kb) as Hk0.
  { destruct (Z.eq_dec kb 0) as [->|]; [|lia]. destruct (Ring.nextPow2_least (Establish.capacityOf eb (EP.RecvBufCapacity eb))) as (j & _ & E & ? & _).
    - destruct F as [_ _ _ _ _ _ [_ Hc2]]. lia.
    - lia. }
  assert (Z.of_nat (length (cut a)) < 2 ^ 31) as Sa31 by lia.
  destruct (HandlePacket_good Sa31 Sb Hn now p m (got b) (conn b) Hw (hf_end _ _ _ _ _ _ _ Hb)) as (m' & Hm' & He & Hlt).
  specialize (Hlt Hcl Hk0 Hcar). destruct (en_recv _ _ _ _ _ _ _ _ _ _ He) as [_ _ Hl _ _ Hg].
  exists (map payload (drop m (take m' (cut a)))). split.
  - intros E. apply (f_equal length) in E. rewrite length_map, length_drop, length_take in E. cbn in E. lia.
  - unfold delivered at 1. cbn [got conn setConn]. rewrite Hg, Hd, <- map_app. f_equal.
    rewrite <- (take_drop m (take m' (cut a))) at 1. rewrite take_take. do 2 f_equal. lia.
Qed.

End Theorems.

(** ** Runs as programs *)

Definition pollOut (e : End) : End :=
  let '(o, c) := ConnCore.PollOutput (conn e) in mkEndpoint c (net e ++ option_list (o ≫= packetOut)) (written e) (cut e) (got e).
Definition pollEvent (e : End) : End :=
  let '(v, c) := ConnCore.PollEvent (conn e) in mkEndpoint c (net e) (written e) (cut e) (got e ++ option_list (v ≫= dataEvent)).
Definition write (now : Z) (data : list Z) (e : End) : End :=
  let opts := mkOpts 0 true 0 0 false in
  mkEndpoint (writeMsg now data opts false (conn e)) (net e) (written e ++ [data]) (cut e ++ framesOf now data opts false (conn e)) (got e).
(** The packet number [i] of the network arrives. *)
Definition arrive (now : Z) (i : nat) (from : list Packet) (e : End) : End :=
  match from !! i with Some p => setConn e (ConnCore.HandlePacket now p (conn e)) | None => e end.

Definition tick (now : Z) (id : Output.TimerID) (e : End) : End :=
  match ConnCore.HandleTimer now id (conn e) with Some c => setConn e c | None => e end.

Lemma pollOut_act from e : act from e (pollOut e).
Proof. unfold pollOut. destruct (ConnCore.PollOutput (conn e)) as [o c] eqn:E. by apply a_output. Qed.
Lemma pollEvent_act from e : act from e (pollEvent e).
Proof. unfold pollEvent. destruct (ConnCore.PollEvent (conn e)) as [o c] eqn:E. by apply a_event. Qed.

Lemma write_run from now data e : closed (conn e) = false -> rtc (act from) e (write now data e).
Proof. intros H. by apply rtc_once, a_write. Qed.
Lemma polls_run from n e : rtc (act from) e (Nat.iter n pollOut e).
Proof. induction n as [|n IH]; [done|]. eapply rtc_r; [exact IH|]. apply pollOut_act. Qed.
Lemma events_run from n e : rtc (act from) e (Nat.iter n pollEvent e).
Proof. induction n as [|n IH]; [done|]. eapply rtc_r; [exact IH|]. apply pollEvent_act. Qed.
Lemma arrive_run from now i e : rtc (act from) e (arrive now i from e).
Proof. unfold arrive. destruct (from !! i) as [p|] eqn:E; [|done]. apply rtc_once, a_packet. by apply list_elem_of_lookup_2 in E. Qed.
Lemma tick_run from now id e : rtc (act from) e (tick now id e).
Proof. unfold tick. destruct (ConnCore.HandleTimer now id (conn e)) as [c|] eqn:E; [|done]. by eapply rtc_once, a_timer. Qed.

Lemma left_run a a' b : rtc (act (net b)) a a' -> rtc step (a, b) (a', b).
Proof. induction 1 as [|x y z H _ IH]; [done|]. eapply rtc_l; [|exact IH]. by apply st_left. Qed.
Lemma right_run a b b' : rtc (act (net a)) b b' -> rtc step (a, b) (a, b').
Proof. induction 1 as [|x y z H _ IH]; [done|]. eapply rtc_l; [|exact IH]. by apply st_right. Qed.

End System.

(** ** A concrete run

    Three bytes are written, in two frames, the second of which waits for its turn.
    The two packets arrive in the wrong order, the second one twice; then the
    receiver's ACK timer fires and the acknowledgement arrives. *)
#[local] Existing Instances Crypto.toy Float64.toyMath ConnRecv.toyRange.

Definition toyParams (isn risn : Z) : EP.establishParams :=
  EP.zero <| EP.SendISN := isn |> <| EP.RecvISN := risn |> <| EP.FlowWindow := 4 |> <| EP.BufferCapacity := 4 |> <| EP.PayloadSize := 2 |>.
Definition toyA : EP.establishParams := toyParams 5 9.
Definition toyB : EP.establishParams := toyParams 9 5.
Definition a0 : End := fresh 1000 toyA Sender.toyRng.
Definition b0 : End := fresh 1000 toyB Sender.toyRng.
Definition a1 : End := Nat.iter 8 pollOut (tick 2000000 Output.TimerSndPacing (write 2000 [1; 2; 3] a0)).
Definition b1 : End := arrive 3001 1 (net a1) (arrive 3000 1 (net a1) b0).
Definition b2 : End := Nat.iter 12 pollOut (tick 2000000 Output.TimerACK (Nat.iter 2 pollEvent (arrive 3002 0 (net a1) b1))).
Definition a2 : End := arrive 2000000 (length (net b2) - 1) (net b2) a1.

Lemma toy_fit : fit toyA toyB.
Proof. constructor; vm_compute; intuition congruence. Qed.
Lemma toy_run1 : rtc step (a0, b0) (a1, b1).
Proof.
  transitivity (a1, b0).
  - apply left_run. etransitivity; [apply (write_run _ 2000 [1; 2; 3]); vm_compute; reflexivity|]. etransitivity; [apply tick_run|apply polls_run].
  - apply right_run. etransitivity; apply arrive_run.
Qed.
Lemma toy_run2 : rtc step (a0, b0) (a2, b2).
Proof.
  transitivity (a1, b1); [apply toy_run1|]. transitivity (a1, b2).
  - apply right_run. etransitivity; [apply arrive_run|]. etransitivity; [apply events_run|]. etransitivity; [apply tick_run|apply polls_run].
  - apply left_run, arrive_run.
Qed.



Lemma transfer_progress_witness : delivered b1 = [] /\ exists p more, p ∈ net a1 /\ more <> [] /\
  delivered (setConn b1 (ConnCore.HandlePacket 3002 p (conn b1))) = more.
Proof.
  split; [vm_compute; reflexivity|]. set (p := nth 0 (net a1) Packet.zeroPacket). exists p.
  assert (p ∈ net a1) as Hp by (apply list_elem_of_In, nth_In; vm_compute; lia).
  destruct (transfer_progress 1000 1000 toyA toyB Sender.toyRng Sender.toyRng a1 b1 3002 p toy_fit toy_run1) as (more & H1 & H2).
  - split; vm_compute; reflexivity.
  - vm_compute. congruence.
  - vm_compute. reflexivity.
  - exact Hp.
  - vm_compute. reflexivity.
  - vm_compute. reflexivity.
  - exists more. split; [exact Hp|]. split; [exact H1|]. rewrite H2. vm_compute. reflexivity.
Defined.

End Stream.
