(* ===== verification/Listener.v ===== *)
(** * The listener ([internal/core/listener.go])

    Induction is stateless: the response carries a keyed hash of the peer, and
    only a conclusion that brings it back is considered.  The listener then
    negotiates, answers, and hands a connection to the host.  The host's
    entropy, its crypto contexts and its accept gate are fields of the state. *)
From Stdlib Require Import ZArith Lia.
From stdpp Require Import base numbers list option gmap.
From S2P Require Import Prelude Seq Packet Cif Fifo Output Crypto Handshake ConnState Establish CoreHandshake.
Import Packet(Packet, Hdr, Data, IsControl, ControlType, EncryptionEven).
Import ConnState.
Import Establish(establish, negotiatedPayloadSize, same).
Import CoreHandshake(srtFeatureFlags, matchingCongestion, peerNakReportFromHS, peerVersionFromHS, srtHS, orZ, orLive, isSome).
Import Cif(CIFHandshake, HandshakeType, Version, SynCookie, SRTSocketID, InitialPacketSequenceNumber, MaxTransmissionUnitSize,
  MaxFlowWindowSize, HasKM, SRTKM, HasFilter, HasGroup, RecvTSBPDDelay, SendTSBPDDelay, KLen, Cipher, KeyBasedEncryption,
  HandshakeTypeInduction, HandshakeTypeConclusion).
Local Open Scope Z_scope.

(** ** State *)

Module LC.
Record ListenerConfig : Type := mkLC {
  MSS : Z;
  RecvLatencyMS : Z;
  SendLatencyMS : Z;
  Congestion : list Z;
  Live : bool;
  Message : bool;
  TLPktDrop : bool;
  SndDropDelay : Z;
  LossMaxTTL : Z;
  DisableNAKReport : bool;
  PeerIdleTimeout : Z;
  MaxBW : Z;
  InputBW : Z;
  MinInputBW : Z;
  OverheadBW : Z;
  PayloadSize : Z;
  BufferCapacity : Z;
  SendBufCapacity : Z;
  RecvBufCapacity : Z;
  Passphrase : list Z;
  KeyLength : Z;
  CryptoMode : Z;
  AllowUnencryptedFallback : bool;
  KMRefreshRate : Z;
  KMPreAnnounce : Z;
  FilterConfig : list Z
}.

#[global] Instance eta_lc : Eta ListenerConfig := fun r =>
  mkLC (MSS r) (RecvLatencyMS r) (SendLatencyMS r) (Congestion r) (Live r) (Message r) (TLPktDrop r) (SndDropDelay r)
    (LossMaxTTL r) (DisableNAKReport r) (PeerIdleTimeout r) (MaxBW r) (InputBW r) (MinInputBW r) (OverheadBW r)
    (PayloadSize r) (BufferCapacity r) (SendBufCapacity r) (RecvBufCapacity r) (Passphrase r) (KeyLength r)
    (CryptoMode r) (AllowUnencryptedFallback r) (KMRefreshRate r) (KMPreAnnounce r) (FilterConfig r).
#[global] Instance fld_lc_MSS : Field MSS. Proof. derive_field. Defined.
#[global] Instance fld_lc_RecvLatencyMS : Field RecvLatencyMS. Proof. derive_field. Defined.
#[global] Instance fld_lc_SendLatencyMS : Field SendLatencyMS. Proof. derive_field. Defined.
#[global] Instance fld_lc_Congestion : Field Congestion. Proof. derive_field. Defined.
End LC.

Module Listener.

Record AcceptRequest : Type := mkReq {
  ar_Peer : list Z;
  ar_StreamID : list Z;
  ar_HSVersion : Z;
  ar_GroupID : Z;
  ar_GroupType : Z
}.

Record acceptedConn : Type := mkAcc {
  socketID : Z;
  isn : Z;
  mss : Z;
  fc : Z;
  recvLat : Z;
  sendLat : Z;
  filterCfg : list Z;
  cryptoCtx : option Crypto.Context;
  kmKey : Z;
  groupID : Z;
  groupType : Z;
  groupWeight : Z
}.

Record Accepted : Type := mkAccepted {
  a_Conn : Conn;
  a_Peer : list Z;
  a_SocketID : Z;
  a_StreamID : list Z;
  a_GroupID : Z;
  a_GroupType : Z;
  a_GroupWeight : Z;
  a_SharedISN : Z
}.

Record SendTo : Type := mkSendTo { to_Peer : list Z; to_Packet : Packet }.

(** [entropy] is what [rng] delivers, [calls] how often it was asked; [newCtx] is
    the host's factory of crypto contexts; [connRand] is the randomness of the
    connection with a peer. *)
Record Listener : Type := mkListener {
  cfg : LC.ListenerConfig;
  cookieSecret : Z;
  entropy : nat -> list Z;
  calls : nat;
  newCtx : option (Z -> Z -> option Crypto.Context);
  connRand : list Z -> nat -> option (list Z);
  accepted : gmap (list Z) acceptedConn;
  groups : gmap Z Z;
  gate : option (AcceptRequest -> bool * Z);
  outputs : Fifo.fifo SendTo;
  events : Fifo.fifo Accepted
}.

#[global] Instance eta_listener : Eta Listener := fun r =>
  mkListener (cfg r) (cookieSecret r) (entropy r) (calls r) (newCtx r) (connRand r) (accepted r) (groups r) (gate r)
    (outputs r) (events r).
#[global] Instance fld_listener_calls : Field calls. Proof. derive_field. Defined.
#[global] Instance fld_listener_accepted : Field accepted. Proof. derive_field. Defined.
#[global] Instance fld_listener_groups : Field groups. Proof. derive_field. Defined.
#[global] Instance fld_listener_gate : Field gate. Proof. derive_field. Defined.
#[global] Instance fld_listener_outputs : Field outputs. Proof. derive_field. Defined.
#[global] Instance fld_listener_events : Field events. Proof. derive_field. Defined.

Definition SetAcceptGate (fn : AcceptRequest -> bool * Z) (l : Listener) : Listener := l <| gate := Some fn |>.

Definition NewListener (cfg : LC.ListenerConfig) (cookieSecret : Z) (rng : nat -> list Z)
    (newCtx : option (Z -> Z -> option Crypto.Context)) (connRand : list Z -> nat -> option (list Z)) : Listener :=
  let cfg := cfg <| LC.MSS ::= fun x => orZ x 1500 |> <| LC.RecvLatencyMS ::= fun x => orZ x 120 |>
                 <| LC.SendLatencyMS ::= fun x => orZ x 120 |> <| LC.Congestion ::= orLive |> in
  mkListener cfg cookieSecret rng 0 newCtx connRand ∅ ∅ None Fifo.empty Fifo.empty.

(** ** Helpers *)

Definition reply (peer : list Z) (p : Packet) (l : Listener) : Listener :=
  l <| outputs ::= fun q => Fifo.push q (mkSendTo peer p) |>.

(** [hash/fnv], 32-bit FNV-1a. *)
Definition fnv1a (h : Z) (data : list Z) : Z := fold_left (fun h b => u32 (Z.lxor h b * 16777619)) data h.

(** [binary.BigEndian.PutUint64]. *)
Definition be64 (v : Z) : list Z := be32 (Z.shiftr v 32) ++ be32 v.

Definition cookie (l : Listener) (peer : list Z) : Z :=
  let c := fnv1a (fnv1a 2166136261 (be64 (cookieSecret l))) peer in if c =? 0 then 1 else c.

Definition randUint32 (l : Listener) : Z * Listener := (Uint32 (entropy l (calls l)) 0, l <| calls ::= S |>).

Definition srtFlags (encrypted : bool) (l : Listener) : Z :=
  let cfg := cfg l in
  srtFeatureFlags (LC.Live cfg) encrypted (LC.TLPktDrop cfg)
    (negb (same (LC.Congestion cfg) Handshake.file) && negb (LC.DisableNAKReport cfg))
    (negb (LC.Live cfg) && negb (LC.Message cfg)).

(** Encoding a rejection cannot fail: it has no extensions. *)
Definition rejection (callerSocketID code : Z) : Packet :=
  Handshake.marshalInto (Packet.NewControl None Packet.CtrlTypeHandshake callerSocketID 0)
    (Cif.zeroHS <| Cif.Version := 5 |> <| Cif.HandshakeType := code |> <| Cif.SRTSocketID := 0 |>).
Definition reject (peer : list Z) (callerSocketID code : Z) (l : Listener) : Listener :=
  reply peer (rejection callerSocketID code) l.

Section Conclusions.
Context {P : Crypto.Primitives}.

Definition buildConclusionResponse (l : Listener) (a : acceptedConn) (callerSocketID : Z) : Packet :=
  let km := match cryptoCtx a with
            | None => None
            | Some ctx => match Crypto.MarshalKM ctx (LC.Passphrase (cfg l)) (kmKey a) with Ok km => Some km | Err _ => None end
            end in
  Handshake.BuildConclusionResponse (socketID a) (Seq.Value (isn a)) (mss a) (fc a) callerSocketID (recvLat a) (sendLat a)
    (srtFlags (isSome (cryptoCtx a)) l) (LC.Congestion (cfg l)) (filterCfg a) 0 0 0 None km.

Definition handleInduction (peer : list Z) (hs : CIFHandshake) (l : Listener) : Listener :=
  reply peer (Handshake.BuildInductionResponse hs (cookie l peer) None None 0) l.

(** The gate's verdict: [None] to go on, or the code to reject with. *)
Definition askGate (l : Listener) (req : AcceptRequest) : option Z :=
  match gate l with
  | None => None
  | Some g => let '(accept, code) := g req in if accept then None else Some (orZ code rejPeer)
  end.

(** The crypto context of an accepted version 5 caller and its key slot, or the
    code to reject with. *)
Definition negotiateCrypto (hs : CIFHandshake) (l : Listener) : result Z (option Crypto.Context * Z) :=
  let km := if HasKM hs then SRTKM hs else None in
  match LC.Passphrase (cfg l), km with
  | [], None => Ok (None, 0)
  | [], Some _ => if LC.AllowUnencryptedFallback (cfg l) then Ok (None, 0) else Err rejUnsecure
  | _ :: _, None => if LC.AllowUnencryptedFallback (cfg l) then Ok (None, 0) else Err rejUnsecure
  | pass, Some km =>
      match newCtx l with
      | None => Err rejUnsecure
      | Some mk =>
          match mk (orZ (KLen km) 16) (if Cipher km =? Crypto.CipherGCM then Crypto.CipherGCM else Crypto.CipherCTR) with
          | None => Err rejBadSecret
          | Some ctx =>
              match Crypto.UnmarshalKM ctx km pass with
              | (_, Err _) => Err rejBadSecret
              | (ctx, Ok _) => Ok (Some ctx, KeyBasedEncryption km)
              end
          end
      end
  end.

(** Members of a group share the send sequence space of the first. *)
Definition joinGroup (hs : CIFHandshake) (a : acceptedConn) (l : Listener) : acceptedConn * Listener :=
  if HasGroup hs && negb (Cif.GroupID hs =? 0) then
    let '(n, l) := match groups l !! Cif.GroupID hs with
                   | Some shared => (shared, l)
                   | None => (isn a, l <| groups ::= <[Cif.GroupID hs := isn a]> |>)
                   end in
    (mkAcc (socketID a) n (mss a) (fc a) (recvLat a) (sendLat a) (filterCfg a) (cryptoCtx a) (kmKey a)
       (Cif.GroupID hs) (Cif.GroupType hs) (Cif.GroupWeight hs), l)
  else (a, l).

(** The parameters of both versions. *)
Definition baseParams (hs : CIFHandshake) (a : acceptedConn) (cfg : LC.ListenerConfig) : EP.establishParams :=
  EP.zero <| EP.PeerSocketID := SRTSocketID hs |>
    <| EP.PayloadSize := negotiatedPayloadSize (LC.PayloadSize cfg) (mss a) (LC.Congestion cfg) |> <| EP.MSS := mss a |>
    <| EP.SendISN := isn a |> <| EP.RecvISN := InitialPacketSequenceNumber hs |> <| EP.FlowWindow := fc a |>
    <| EP.BufferCapacity := LC.BufferCapacity cfg |> <| EP.SendBufCapacity := LC.SendBufCapacity cfg |>
    <| EP.RecvBufCapacity := LC.RecvBufCapacity cfg |> <| EP.MaxBW := LC.MaxBW cfg |> <| EP.InputBW := LC.InputBW cfg |>
    <| EP.MinInputBW := LC.MinInputBW cfg |> <| EP.OverheadBW := LC.OverheadBW cfg |>
    <| EP.Congestion := LC.Congestion cfg |> <| EP.PeerIdleTimeout := LC.PeerIdleTimeout cfg |>
    <| EP.CryptoCtx := cryptoCtx a |> <| EP.ActiveKey := EncryptionEven |> <| EP.Passphrase := LC.Passphrase cfg |>.

Definition acceptParams (hs : CIFHandshake) (a : acceptedConn) (cfg : LC.ListenerConfig) : EP.establishParams :=
  (baseParams hs a cfg) <| EP.Live := LC.Live cfg |> <| EP.TsbpdDelay := recvLat a * 1000 |>
    <| EP.PeerTsbpdDelay := sendLat a * 1000 |> <| EP.Message := LC.Message cfg |> <| EP.TLPktDrop := LC.TLPktDrop cfg |>
    <| EP.SndDropDelay := LC.SndDropDelay cfg |> <| EP.LossMaxTTL := LC.LossMaxTTL cfg |>
    <| EP.DisableNAKReport := LC.DisableNAKReport cfg |> <| EP.PeerNakReport := peerNakReportFromHS hs |>
    <| EP.PeerVersion := peerVersionFromHS hs |> <| EP.KMRefreshRate := LC.KMRefreshRate cfg |>
    <| EP.KMPreAnnounce := LC.KMPreAnnounce cfg |> <| EP.FilterConfig := filterCfg a |>.

Definition acceptParamsV4 (hs : CIFHandshake) (a : acceptedConn) (cfg : LC.ListenerConfig) : EP.establishParams :=
  (baseParams hs a cfg) <| EP.Live := false |> <| EP.Message := true |> <| EP.PeerNakReport := true |>
    <| EP.HSv4AwaitKey := isSome (cryptoCtx a) |>.

Definition acceptV5 (now : Z) (peer : list Z) (hs : CIFHandshake) (ext : Cif.CIFHandshakeExtension)
    (ctx : option Crypto.Context) (key : Z) (l : Listener) : Listener :=
  let '(rl, sl) := Handshake.NegotiateLatency (LC.RecvLatencyMS (cfg l)) (LC.SendLatencyMS (cfg l))
                     (RecvTSBPDDelay ext) (SendTSBPDDelay ext) in
  let filter := match Cif.FilterConfig hs with [] => LC.FilterConfig (cfg l)
                | f => if HasFilter hs then f else LC.FilterConfig (cfg l) end in
  let '(r, l) := randUint32 l in
  let a := mkAcc (Z.lor r 1) (InitialPacketSequenceNumber hs) (Z.min (LC.MSS (cfg l)) (MaxTransmissionUnitSize hs))
             (MaxFlowWindowSize hs) rl sl filter ctx key 0 0 0 in
  let '(a, l) := joinGroup hs a l in
  let l := l <| accepted ::= <[peer := a]> |> in
  let l := reply peer (buildConclusionResponse l a (SRTSocketID hs)) l in
  let conn := establish now (acceptParams hs a (cfg l)) (zeroConn (connRand l peer)) in
  l <| events ::= fun q => Fifo.push q (mkAccepted conn peer (socketID a) (Cif.StreamID hs) (groupID a) (groupType a)
                                           (groupWeight a) (isn a)) |>.

(** The key-less context of an encrypted version 4 caller. *)
Definition contextV4 (l : Listener) : result Z (option Crypto.Context) :=
  match LC.Passphrase (cfg l) with
  | [] => Ok None
  | _ =>
      match newCtx l with
      | None => Err rejUnsecure
      | Some mk =>
          match mk (orZ (LC.KeyLength (cfg l)) 16) (if LC.CryptoMode (cfg l) =? 2 then Crypto.CipherGCM else Crypto.CipherCTR) with
          | None => Err rejUnsecure
          | Some ctx => Ok (Some ctx)
          end
      end
  end.

Definition acceptV4 (now : Z) (peer : list Z) (hs : CIFHandshake) (ctx : option Crypto.Context) (l : Listener) : Listener :=
  let '(r, l) := randUint32 l in
  let a := mkAcc (Z.lor r 1) (InitialPacketSequenceNumber hs) (Z.min (LC.MSS (cfg l)) (MaxTransmissionUnitSize hs))
             (MaxFlowWindowSize hs) (LC.RecvLatencyMS (cfg l)) (LC.SendLatencyMS (cfg l)) [] None 0 0 0 0 in
  let l := l <| accepted ::= <[peer := a]> |> in
  let l := reply peer (Handshake.BuildConclusionResponseV4 (socketID a) (Seq.Value (isn a)) (mss a) (fc a) (SRTSocketID hs) None) l in
  let params := acceptParamsV4 hs (mkAcc (socketID a) (isn a) (mss a) (fc a) (recvLat a) (sendLat a) [] ctx 0 0 0 0) (cfg l) in
  let conn := establish now params (zeroConn (connRand l peer)) in
  l <| events ::= fun q => Fifo.push q (mkAccepted conn peer (socketID a) [] 0 0 0 0) |>.

Definition handleConclusionV4 (now : Z) (peer : list Z) (hs : CIFHandshake) (l : Listener) : Listener :=
  match accepted l !! peer with
  | Some a =>
      reply peer (Handshake.BuildConclusionResponseV4 (socketID a) (Seq.Value (isn a)) (mss a) (fc a) (SRTSocketID hs) None) l
  | None =>
      if (InitialPacketSequenceNumber hs >? Seq.Max) || (MaxFlowWindowSize hs <? 2) then reject peer (SRTSocketID hs) rejRogue l else
      match contextV4 l with
      | Err code => reject peer (SRTSocketID hs) code l
      | Ok ctx =>
          match askGate l (mkReq peer [] (Version hs) 0 0) with
          | Some code => reject peer (SRTSocketID hs) code l
          | None => acceptV4 now peer hs ctx l
          end
      end
  end.

Definition handleConclusion (now : Z) (peer : list Z) (hs : CIFHandshake) (l : Listener) : Listener :=
  if negb (SynCookie hs =? cookie l peer) then l else
  let no code := reject peer (SRTSocketID hs) code l in
  if MaxTransmissionUnitSize hs <? 76 then no rejRogue else
  if Version hs =? 4 then handleConclusionV4 now peer hs l else
  match accepted l !! peer with
  | Some a => reply peer (buildConclusionResponse l a (SRTSocketID hs)) l
  | None =>
      match srtHS hs with
      | None => no rejRogue
      | Some ext =>
          if Cif.SRTVersion ext <? 0x010300 then no rejRogue else
          if negb (matchingCongestion (LC.Congestion (cfg l)) hs) then no rejCongestion else
          match askGate l (mkReq peer (Cif.StreamID hs) (Version hs) (Cif.GroupID hs) (Cif.GroupType hs)) with
          | Some code => no code
          | None =>
              match negotiateCrypto hs l with
              | Err code => no code
              | Ok (ctx, key) => acceptV5 now peer hs ext ctx key l
              end
          end
      end
  end.

Definition HandlePacket (now : Z) (p : Packet) (peer : list Z) (l : Listener) : Listener :=
  if negb (IsControl (Hdr p)) || negb (ControlType (Hdr p) =? Packet.CtrlTypeHandshake) then l else
  match Cif.HS_UnmarshalCIF Cif.zeroHS (Data p) with
  | Err _ => l
  | Ok hs =>
      if HandshakeType hs =? HandshakeTypeInduction then handleInduction peer hs l
      else if HandshakeType hs =? HandshakeTypeConclusion then handleConclusion now peer hs l
      else l
  end.

End Conclusions.

End Listener.
