(* ===== verification/Agreement.v ===== *)
(** * Two ends of a handshake ([internal/core/handshake.go], [listener.go])

    A caller and a listener that exchange their packets: each decodes what the
    other encoded, the listener accepts a peer once and only for its cookie, and
    both ends come out with parameters that mirror each other. *)
From Stdlib Require Import ZArith Lia.
From stdpp Require Import base numbers list option gmap.
From S2P Require Import Prelude Seq Packet Control Cif Clock Fifo Output FilterConfig Crypto Float64 Handshake ConnState ConnSend ConnRecv Establish CoreHandshake ConnCore Listener.
Import Packet(Packet, Hdr, Data).
Import ConnState.
Import Cif(CIFHandshake, HS_ok, HS_normalize, HS_MarshalCIF, HS_UnmarshalCIF, zeroHS).
Import Handshake(marshalInto).
Local Open Scope Z_scope.

#[local] Existing Instance Cif.CIFHandshake_CIF.

Module Agreement.

(** ** What the other end decodes *)

(** The address the builders leave zero comes out in its short form. *)
Definition zeroIP : list Z := [0; 0; 0; 0].
Definition short (c : CIFHandshake) : CIFHandshake :=
  Cif.mkHS (Cif.Version c) (Cif.EncryptionField c) (Cif.ExtensionField c) (Cif.InitialPacketSequenceNumber c)
    (Cif.MaxTransmissionUnitSize c) (Cif.MaxFlowWindowSize c) (Cif.HandshakeType c) (Cif.SRTSocketID c) (Cif.SynCookie c)
    zeroIP (Cif.IsRequest c) (Cif.HasHS c) (Cif.SRTHS c) (Cif.HasKM c) (Cif.SRTKM c) (Cif.HasSID c) (Cif.StreamID c)
    (Cif.HasCongestion c) (Cif.CongestionType c) (Cif.HasFilter c) (Cif.FilterConfig c) (Cif.HasGroup c) (Cif.GroupID c)
    (Cif.GroupType c) (Cif.GroupFlags c) (Cif.GroupWeight c).
Definition onWire (hs : CIFHandshake) : CIFHandshake := HS_normalize (short hs).

Lemma normalize_short hs : HS_normalize (short hs) = short (HS_normalize hs) /\ Cif.PeerIP (HS_normalize hs) = Cif.PeerIP hs.
Proof.
  unfold HS_normalize. change (Cif.StreamID (short hs)) with (Cif.StreamID hs).
  set (c := match Cif.StreamID hs with [] => Cif.setHasSID hs false | _ => hs end).
  assert (match Cif.StreamID hs with [] => Cif.setHasSID (short hs) false | _ => short hs end = short c /\ Cif.PeerIP c = Cif.PeerIP hs) as [-> E].
  { unfold c. by destruct (Cif.StreamID hs). }
  clearbody c. change (Cif.Version (short c)) with (Cif.Version c). change (Cif.HandshakeType (short c)) with (Cif.HandshakeType c).
  destruct (_ && _); [done|]. by destruct (_ =? 4).
Qed.

Lemma marshal_short hs :
  Cif.marshalIP (Cif.PeerIP hs) = Cif.marshalIP zeroIP -> snd (HS_MarshalCIF hs) = snd (HS_MarshalCIF (short hs)).
Proof.
  intros H. unfold HS_MarshalCIF. cbn [snd]. destruct (normalize_short hs) as [-> E]. rewrite <- E in H.
  generalize dependent (HS_normalize hs). intros c H E.
  assert (Cif.HS_base c = Cif.HS_base (short c)) as -> by (unfold Cif.HS_base; rewrite H; reflexivity). reflexivity.
Qed.

Lemma decode_built hs p :
  Cif.marshalIP (Cif.PeerIP hs) = Cif.marshalIP zeroIP -> HS_ok (short hs) ->
  HS_UnmarshalCIF zeroHS (Data (marshalInto p hs)) = Ok (onWire hs) /\ Hdr (marshalInto p hs) = Hdr p.
Proof.
  intros Hip Hok. destruct (Cif.HS_over_wire _ Hok) as (data & E1 & E2).
  pose proof (marshal_short hs Hip) as Es. rewrite E1 in Es. cbn [snd] in Es.
  assert (Control.MarshalCIF hs = (fst (HS_MarshalCIF hs), Ok data)) as Em.
  { change (Control.MarshalCIF hs) with (HS_MarshalCIF hs). destruct (HS_MarshalCIF hs) as [h r]. cbn [fst snd] in *. by subst r. }
  unfold marshalInto, Control.Packet_MarshalCIF. rewrite Em. destruct p as [h d [b|]]; (split; [exact E2|reflexivity]).
Qed.

Lemma onWire_keeps hs :
  let c := onWire hs in
  Cif.Version c = Cif.Version hs /\ Cif.HandshakeType c = Cif.HandshakeType hs /\
  Cif.InitialPacketSequenceNumber c = Cif.InitialPacketSequenceNumber hs /\
  Cif.MaxTransmissionUnitSize c = Cif.MaxTransmissionUnitSize hs /\ Cif.MaxFlowWindowSize c = Cif.MaxFlowWindowSize hs /\
  Cif.SRTSocketID c = Cif.SRTSocketID hs /\ Cif.SynCookie c = Cif.SynCookie hs /\
  Cif.HasHS c = Cif.HasHS hs /\ Cif.SRTHS c = Cif.SRTHS hs /\ Cif.HasKM c = Cif.HasKM hs /\ Cif.SRTKM c = Cif.SRTKM hs /\
  Cif.StreamID c = Cif.StreamID hs /\ Cif.HasCongestion c = Cif.HasCongestion hs /\ Cif.CongestionType c = Cif.CongestionType hs /\
  Cif.HasFilter c = Cif.HasFilter hs /\ Cif.FilterConfig c = Cif.FilterConfig hs /\ Cif.HasGroup c = Cif.HasGroup hs.
Proof.
  cbv zeta. unfold onWire. rewrite (proj1 (normalize_short hs)). unfold HS_normalize.
  destruct (Cif.StreamID hs) eqn:E; cbn [Cif.StreamID short]; (destruct (_ && _); [|destruct (_ =? 4)]); split_and!; (reflexivity || exact E).
Qed.

(** The fixed part of a version 5 message, without extensions. *)
Record bare (type : Z) (b : CIFHandshake) : Prop := mkBare {
  br_version : Cif.Version b = 5;
  br_type : Cif.HandshakeType b = type;
  br_enc : Cif.EncryptionField b = 0;
  br_ext : is_u16 (Cif.ExtensionField b);
  br_isn : Seq.is_seq (Cif.InitialPacketSequenceNumber b);
  br_mss : is_u32 (Cif.MaxTransmissionUnitSize b);
  br_fc : is_u32 (Cif.MaxFlowWindowSize b);
  br_id : is_u32 (Cif.SRTSocketID b);
  br_cookie : is_u32 (Cif.SynCookie b);
  br_none : Cif.IsRequest b = false /\ Cif.HasHS b = false /\ Cif.SRTHS b = None /\ Cif.HasKM b = false /\ Cif.SRTKM b = None /\
    Cif.HasSID b = false /\ Cif.StreamID b = [] /\ Cif.HasCongestion b = false /\ Cif.CongestionType b = [] /\
    Cif.HasFilter b = false /\ Cif.FilterConfig b = [] /\ Cif.HasGroup b = false /\ Cif.GroupID b = 0 /\
    Cif.GroupType b = 0 /\ Cif.GroupFlags b = 0 /\ Cif.GroupWeight b = 0
}.

Lemma zeroIP_ok : Cif.PeerIP_ok zeroIP.
Proof. split; [|by left]. repeat constructor; unfold is_u8; lia. Qed.

Lemma text_nil : Cif.text_ok [].
Proof. split; [|unfold len; cbn; lia]. apply (bool_decide_unpack _). vm_compute. exact I. Qed.

Lemma bare_ok type b :
  is_u32 type -> bare type b -> HS_ok (short b).
Proof.
  intros Ht [H1 H2 H3 H4 H5 H6 H7 H8 H9 (N1 & N2 & N3 & N4 & N5 & N6 & N7 & N8 & N9 & N10 & N11 & N12 & N13 & N14 & N15 & N16)].
  pose proof zeroIP_ok. pose proof text_nil.
  unfold HS_ok, Cif.HS_base_ok, Cif.HS_exts_ok, Cif.has_exts, short. cbn.
  rewrite H1, H2, H3, N1, N2, N3, N4, N5, N6, N7, N8, N9, N10, N11, N12, N13, N14, N15, N16. cbn.
  split_and!; try done; unfold is_u32, is_u16, len; cbn; lia.
Qed.

(** The extensions of a conclusion. *)
Definition extended (isRequest : bool) (flags rl sl : Z) (sid cong filter : list Z) (km : option Cif.CIFKeyMaterial)
    (b : CIFHandshake) : CIFHandshake :=
  Handshake.withKM km (Handshake.withFilter filter (Handshake.withCongestion cong (Handshake.withSID sid
    (Handshake.withHS isRequest flags rl sl b)))).

(** What a conclusion says. *)
Lemma extended_says isRequest flags rl sl sid cong filter km b :
  bare Cif.HandshakeTypeConclusion b ->
  let hs := extended isRequest flags rl sl sid cong filter km b in
  (Cif.Version hs = 5 /\ Cif.HandshakeType hs = Cif.HandshakeTypeConclusion /\
   Cif.InitialPacketSequenceNumber hs = Cif.InitialPacketSequenceNumber b /\
   Cif.MaxTransmissionUnitSize hs = Cif.MaxTransmissionUnitSize b /\ Cif.MaxFlowWindowSize hs = Cif.MaxFlowWindowSize b /\
   Cif.SRTSocketID hs = Cif.SRTSocketID b /\ Cif.SynCookie hs = Cif.SynCookie b /\ Cif.PeerIP hs = Cif.PeerIP b) /\
  (Cif.HasHS hs = true /\ Cif.SRTHS hs = Some (Cif.mkHSExt Handshake.SRTVersion flags rl sl) /\
   Cif.HasKM hs = CoreHandshake.isSome km /\ Cif.SRTKM hs = km /\ Cif.StreamID hs = sid /\
   Cif.HasCongestion hs = true /\ Cif.CongestionType hs = CoreHandshake.orLive cong /\
   Cif.FilterConfig hs = filter /\ Cif.HasFilter hs = Cif.nonempty filter /\ Cif.HasGroup hs = false) /\
  Cif.EncryptionField hs = 0 /\ Cif.ExtensionField hs = Cif.ExtensionField b /\ Cif.HasSID hs = Cif.nonempty sid /\
  Cif.GroupID hs = 0 /\ Cif.GroupType hs = 0 /\ Cif.GroupFlags hs = 0 /\ Cif.GroupWeight hs = 0.
Proof.
  intros [H1 H2 H3 _ _ _ _ _ _ (N1 & N2 & N3 & N4 & N5 & N6 & N7 & N8 & N9 & N10 & N11 & N12 & N13 & N14 & N15 & N16)].
  destruct b. cbn in *. subst. destruct km, filter, sid, cong; vm_compute; split_and!; reflexivity.
Qed.

Lemma extended_ok isRequest flags rl sl sid cong filter km b :
  bare Cif.HandshakeTypeConclusion b -> is_u32 flags -> is_u16 rl -> is_u16 sl ->
  Cif.text_ok sid -> len sid <= 512 -> Cif.text_ok cong -> Cif.text_ok filter ->
  match km with Some k => Cif.KM_ok k | None => True end ->
  HS_ok (short (extended isRequest flags rl sl sid cong filter km b)).
Proof.
  intros Hb Hf Hr Hs Ts Ls Tc Tf Hk. pose proof zeroIP_ok as Hz.
  assert (Cif.text_ok (CoreHandshake.orLive cong)) as Tc'.
  { destruct cong; [|done]. split; [|unfold len; cbn; lia]. apply (bool_decide_unpack _). vm_compute. exact I. }
  destruct (extended_says isRequest flags rl sl sid cong filter km b Hb) as
    ((A1 & A2 & A3 & A4 & A5 & A6 & A7 & _) & (B1 & B2 & B3 & B4 & B5 & B6 & B7 & B8 & B9 & B10) & C1 & C2 & C3 & C4 & C5 & C6 & C7).
  set (hs := extended _ _ _ _ _ _ _ _ _) in *. clearbody hs. destruct Hb as [_ _ _ X1 X2 X3 X4 X5 X6 _].
  unfold HS_ok, Cif.HS_base_ok, Cif.HS_exts_ok, Cif.has_exts, short. cbn.
  rewrite A1, A2, A3, A4, A5, A6, A7, B1, B2, B3, B4, B5, B6, B7, B8, B9, B10, C1, C2, C3, C4, C5, C6, C7.
  split; [split_and!; try done; unfold is_u32, is_u16; cbn; lia|]. split; [|intros _; split_and!; auto].
  split_and!; try done; destruct km; done || (split_and!; done || (unfold is_u32; cbn; lia)).
Qed.

(** ** The messages *)

Section Messages.
Context {P : Crypto.Primitives}.

Lemma IPv4zero_short : Cif.marshalIP Handshake.IPv4zero = Cif.marshalIP zeroIP.
Proof. reflexivity. Qed.

Definition isHandshake (p : Packet) : Prop :=
  Packet.IsControl (Hdr p) = true /\ Packet.ControlType (Hdr p) = Packet.CtrlTypeHandshake.

Lemma induction_sent id isn mss fc :
  is_u32 id -> Seq.is_seq isn -> is_u32 mss -> is_u32 fc ->
  let p := Handshake.BuildInduction id isn mss fc None in
  isHandshake p /\ exists hs, HS_UnmarshalCIF zeroHS (Data p) = Ok hs /\ Cif.HandshakeType hs = Cif.HandshakeTypeInduction /\
    Cif.InitialPacketSequenceNumber hs = isn /\ Cif.MaxTransmissionUnitSize hs = mss /\ Cif.MaxFlowWindowSize hs = fc /\
    Cif.SRTSocketID hs = id.
Proof.
  intros H1 H2 H3 H4. cbv zeta.
  set (hs := Cif.mkHS 4 0 2 isn mss fc Cif.HandshakeTypeInduction id 0 Handshake.IPv4zero false false None false None false [] false [] false [] false 0 0 0 0).
  change (Handshake.BuildInduction id isn mss fc None) with (marshalInto (Packet.NewControl None Packet.CtrlTypeHandshake 0 0) hs).
  destruct (decode_built hs (Packet.NewControl None Packet.CtrlTypeHandshake 0 0)) as [E1 E2].
  - apply IPv4zero_short.
  - pose proof zeroIP_ok. pose proof text_nil. unfold HS_ok, Cif.HS_base_ok, Cif.HS_exts_ok, Cif.has_exts, short, hs. cbn.
    split_and!; try done; unfold is_u32, is_u16, len; cbn; lia.
  - split; [unfold isHandshake; rewrite E2; split; reflexivity|]. exists (onWire hs). split; [exact E1|].
    destruct (onWire_keeps hs) as (_ & -> & -> & -> & -> & -> & _). split_and!; reflexivity.
Qed.

Lemma induction_answered hs cookie :
  Seq.is_seq (Cif.InitialPacketSequenceNumber hs) -> is_u32 (Cif.MaxTransmissionUnitSize hs) ->
  is_u32 (Cif.MaxFlowWindowSize hs) -> is_u32 cookie ->
  let p := Handshake.BuildInductionResponse hs cookie None None 0 in
  isHandshake p /\ exists r, HS_UnmarshalCIF zeroHS (Data p) = Ok r /\ Cif.HandshakeType r = Cif.HandshakeTypeInduction /\
    Cif.Version r = 5 /\ Cif.ExtensionField r = Handshake.SRTMagic /\ Cif.SynCookie r = cookie.
Proof.
  intros H2 H3 H4 H5. cbv zeta.
  set (r := Cif.mkHS 5 0 Handshake.SRTMagic (Cif.InitialPacketSequenceNumber hs) (Cif.MaxTransmissionUnitSize hs) (Cif.MaxFlowWindowSize hs)
    Cif.HandshakeTypeInduction 0 cookie Handshake.IPv4zero false false None false None false [] false [] false [] false 0 0 0 0).
  set (p0 := Packet.NewControl None Packet.CtrlTypeHandshake (Cif.SRTSocketID hs) 0).
  change (Handshake.BuildInductionResponse hs cookie None None 0) with (marshalInto p0 r).
  assert (bare Cif.HandshakeTypeInduction r) as Hb.
  { constructor; cbn; done || (unfold is_u16, is_u32, Handshake.SRTMagic; lia). }
  destruct (decode_built r p0) as [E1 E2]; [apply IPv4zero_short|apply (bare_ok Cif.HandshakeTypeInduction); [unfold is_u32; vm_compute; intuition congruence|done]|].
  split; [unfold isHandshake; rewrite E2; split; reflexivity|]. exists (onWire r). split; [exact E1|].
  change (Cif.ExtensionField (onWire r)) with Handshake.SRTMagic.
  destruct (onWire_keeps r) as (-> & -> & _ & _ & _ & _ & -> & _). split_and!; reflexivity.
Qed.

(** What either side reads in the other's conclusion. *)
Record concludes (hs : CIFHandshake) (isn mss fc id cookie flags rl sl : Z) (sid cong filter : list Z)
    (km : option Cif.CIFKeyMaterial) : Prop := mkConcludes {
  cl_version : Cif.Version hs = 5;
  cl_type : Cif.HandshakeType hs = Cif.HandshakeTypeConclusion;
  cl_isn : Cif.InitialPacketSequenceNumber hs = isn;
  cl_mss : Cif.MaxTransmissionUnitSize hs = mss;
  cl_fc : Cif.MaxFlowWindowSize hs = fc;
  cl_id : Cif.SRTSocketID hs = id;
  cl_cookie : Cif.SynCookie hs = cookie;
  cl_hs : CoreHandshake.srtHS hs = Some (Cif.mkHSExt Handshake.SRTVersion flags rl sl);
  cl_haskm : Cif.HasKM hs = CoreHandshake.isSome km;
  cl_km : Cif.SRTKM hs = km;
  cl_sid : Cif.StreamID hs = sid;
  cl_cong : Cif.HasCongestion hs = true /\ Cif.CongestionType hs = CoreHandshake.orLive cong;
  cl_filter : Cif.FilterConfig hs = filter /\ Cif.HasFilter hs = Cif.nonempty filter;
  cl_group : Cif.HasGroup hs = false
}.

Lemma extended_sent p0 isRequest flags rl sl sid cong filter km b :
  bare Cif.HandshakeTypeConclusion b -> Cif.PeerIP b = Handshake.IPv4zero -> is_u32 flags -> is_u16 rl -> is_u16 sl ->
  Cif.text_ok sid -> len sid <= 512 -> Cif.text_ok cong -> Cif.text_ok filter ->
  match km with Some k => Cif.KM_ok k | None => True end ->
  let p := marshalInto p0 (extended isRequest flags rl sl sid cong filter km b) in
  Hdr p = Hdr p0 /\ exists hs, HS_UnmarshalCIF zeroHS (Data p) = Ok hs /\
    concludes hs (Cif.InitialPacketSequenceNumber b) (Cif.MaxTransmissionUnitSize b) (Cif.MaxFlowWindowSize b)
      (Cif.SRTSocketID b) (Cif.SynCookie b) flags rl sl sid cong filter km.
Proof.
  intros Hb Hip Hf Hr Hs Ts Ls Tc Tf Hk. cbv zeta.
  pose proof (extended_ok isRequest flags rl sl sid cong filter km b Hb Hf Hr Hs Ts Ls Tc Tf Hk) as Hok.
  destruct (extended_says isRequest flags rl sl sid cong filter km b Hb) as
    ((A1 & A2 & A3 & A4 & A5 & A6 & A7 & A8) & (B1 & B2 & B3 & B4 & B5 & B6 & B7 & B8 & B9 & B10) & _).
  set (hs := extended _ _ _ _ _ _ _ _ _) in *. clearbody hs.
  destruct (decode_built hs p0) as [E1 E2]; [by rewrite A8, Hip|done|]. split; [done|]. exists (onWire hs). split; [done|].
  destruct (onWire_keeps hs) as (K1 & K2 & K3 & K4 & K5 & K6 & K7 & K8 & K9 & K10 & K11 & K12 & K13 & K14 & K15 & K16 & K17).
  constructor; unfold CoreHandshake.srtHS; rewrite ?K1, ?K2, ?K3, ?K4, ?K5, ?K6, ?K7, ?K8, ?K9, ?K10, ?K11, ?K12, ?K13, ?K14, ?K15, ?K16, ?K17,
    ?B1; done.
Qed.

Definition bareHS (isn mss fc id cookie : Z) : CIFHandshake :=
  Cif.mkHS 5 0 0 isn mss fc Cif.HandshakeTypeConclusion id cookie Handshake.IPv4zero
    false false None false None false [] false [] false [] false 0 0 0 0.

Lemma bareHS_bare isn mss fc id cookie :
  Seq.is_seq isn -> is_u32 mss -> is_u32 fc -> is_u32 id -> is_u32 cookie -> bare Cif.HandshakeTypeConclusion (bareHS isn mss fc id cookie).
Proof. intros. constructor; cbn; done || (unfold is_u16; lia). Qed.

Lemma orDefaultFlags_u32 f : is_u32 f -> is_u32 (Handshake.orDefaultFlags f).
Proof. intros H. unfold Handshake.orDefaultFlags. destruct (_ =? 0); [|done]. vm_compute. intuition congruence. Qed.

Lemma conclusion_sent id isn mss fc cookie sid rl sl flags cong filter km :
  is_u32 id -> Seq.is_seq isn -> is_u32 mss -> is_u32 fc -> is_u32 cookie -> is_u32 flags -> is_u16 rl -> is_u16 sl ->
  Cif.text_ok sid -> len sid <= 512 -> Cif.text_ok cong -> Cif.text_ok filter ->
  match km with Some k => Cif.KM_ok k | None => True end ->
  let p := Handshake.BuildConclusion id isn mss fc cookie sid rl sl flags cong filter 0 0 0 None km in
  isHandshake p /\ exists hs, HS_UnmarshalCIF zeroHS (Data p) = Ok hs /\
    concludes hs isn mss fc id cookie (Handshake.orDefaultFlags flags) rl sl sid cong filter km.
Proof.
  intros H1 H2 H3 H4 H5 Hf. intros. subst p. set (p0 := Packet.NewControl None Packet.CtrlTypeHandshake 0 0).
  change (Handshake.BuildConclusion id isn mss fc cookie sid rl sl flags cong filter 0 0 0 None km) with
    (marshalInto p0 (extended true (Handshake.orDefaultFlags flags) rl sl sid cong filter km (bareHS isn mss fc id cookie))).
  destruct (extended_sent p0 true (Handshake.orDefaultFlags flags) rl sl sid cong filter km (bareHS isn mss fc id cookie)) as (E & hs & D & C);
    try (done || by apply bareHS_bare || by apply orDefaultFlags_u32).
  split; [unfold isHandshake; rewrite E; split; reflexivity|]. by exists hs.
Qed.

Lemma conclusion_answered id isn mss fc caller rl sl flags cong filter km :
  is_u32 id -> Seq.is_seq isn -> is_u32 mss -> is_u32 fc -> is_u32 flags -> is_u16 rl -> is_u16 sl ->
  Cif.text_ok cong -> Cif.text_ok filter -> match km with Some k => Cif.KM_ok k | None => True end ->
  let p := Handshake.BuildConclusionResponse id isn mss fc caller rl sl flags cong filter 0 0 0 None km in
  isHandshake p /\ exists hs, HS_UnmarshalCIF zeroHS (Data p) = Ok hs /\
    concludes hs isn mss fc id 0 (Handshake.orDefaultFlags flags) rl sl [] cong filter km.
Proof.
  intros H1 H2 H3 H4 Hf. intros. subst p. set (p0 := Packet.NewControl None Packet.CtrlTypeHandshake caller 0).
  change (Handshake.BuildConclusionResponse id isn mss fc caller rl sl flags cong filter 0 0 0 None km) with
    (marshalInto p0 (extended false (Handshake.orDefaultFlags flags) rl sl [] cong filter km (bareHS isn mss fc id 0))).
  destruct (extended_sent p0 false (Handshake.orDefaultFlags flags) rl sl [] cong filter km (bareHS isn mss fc id 0)) as (E & hs & D & C);
    try (done || (apply bareHS_bare; done || (unfold is_u32; lia)) || by apply orDefaultFlags_u32 || apply text_nil).
  split; [unfold isHandshake; rewrite E; split; reflexivity|]. by exists hs.
Qed.

End Messages.

(** ** What a connection settles on *)

(** What the two ends have to agree about. *)
Record termed (c c' : Conn) : Prop := mkTermed {
  tm_peer : ConnState.peerSocketID c' = ConnState.peerSocketID c;
  tm_snd : sndISN c' = sndISN c;
  tm_rcv : rcvISN c' = rcvISN c;
  tm_mss : negotiatedMSS c' = negotiatedMSS c;
  tm_flow : flowWindow c' = flowWindow c;
  tm_payload : payloadSize c' = payloadSize c;
  tm_lat : negotiatedLatency c' = negotiatedLatency c;
  tm_plat : negotiatedPeerLatency c' = negotiatedPeerLatency c
}.

#[local] Instance termed_preorder : PreOrder termed.
Proof. split; [intros c; by constructor|]. intros a b c [] []. constructor; congruence. Qed.

Ltac term_upd := match goal with
  | |- termed ?c (@upd _ _ ?g ?F ?h ?r) => transitivity r; [|constructor; fields; done]
  | |- termed ?c (arm _ _ ?r) => transitivity r; [|unfold arm, out; constructor; fields; done]
  end.
Ltac terms := repeat term_upd; try reflexivity.

Lemma applyBandwidth_termed c : termed c (ConnSend.applyBandwidth c).
Proof.
  unfold ConnSend.applyBandwidth. destruct (negb (ready c)); [done|]. destruct (negb _); [terms|]. cbv zeta.
  destruct (_ && _); terms.
Qed.
Lemma initCrypto_termed ep c : termed c (Establish.initCrypto ep c).
Proof. unfold Establish.initCrypto. destruct (EP.CryptoCtx ep); terms. Qed.
Lemma initFilter_termed ep c : termed c (Establish.initFilter ep c).
Proof.
  unfold Establish.initFilter. destruct (EP.FilterConfig ep); [done|]. destruct (FilterConfig.ParseConfig _ _); terms.
Qed.
Lemma armTimers_termed now ep c : termed c (Establish.armTimers now ep c).
Proof.
  unfold Establish.armTimers. cbv zeta.
  set (c1 := arm Output.TimerACK _ c). assert (termed c c1) as S1 by (unfold c1; terms). clearbody c1.
  set (c2 := if periodicNAK c1 then _ else c1).
  assert (termed c c2) as S2 by (transitivity c1; [done|]; unfold c2; destruct (periodicNAK c1); terms). clearbody c2.
  transitivity c2; [done|]. destruct (_ >? 0); terms.
Qed.

(** The latency of a live connection, and of one without playout. *)
Definition latencyOf (ep : EP.establishParams) : Z * Z :=
  if EP.Live ep then
    let delay := if EP.TsbpdDelay ep <=? 0 then defaultTsbpdDelay else EP.TsbpdDelay ep in
    (delay, if EP.PeerTsbpdDelay ep <=? 0 then delay else EP.PeerTsbpdDelay ep)
  else (0, 0).

(** The terms of the parameters [ep]. *)
Record onTerms (ep : EP.establishParams) (c : Conn) : Prop := mkOnTerms {
  ot_peer : ConnState.peerSocketID c = EP.PeerSocketID ep;
  ot_snd : sndISN c = EP.SendISN ep;
  ot_rcv : rcvISN c = EP.RecvISN ep;
  ot_mss : negotiatedMSS c = (if EP.MSS ep =? 0 then 1500 else EP.MSS ep);
  ot_flow : flowWindow c = Establish.flowWindowOf ep;
  ot_payload : payloadSize c = Establish.payloadSizeOf ep;
  ot_lat : (negotiatedLatency c, negotiatedPeerLatency c) = latencyOf ep
}.

Lemma onTerms_termed ep c c' : termed c c' -> onTerms ep c -> onTerms ep c'.
Proof. intros [] []. constructor; congruence. Qed.

Lemma initPath_terms now ep c :
  let c' := Establish.initPath now ep c in
  ConnState.peerSocketID c' = EP.PeerSocketID ep /\ sndISN c' = EP.SendISN ep /\ rcvISN c' = EP.RecvISN ep /\
  negotiatedMSS c' = (if EP.MSS ep =? 0 then 1500 else EP.MSS ep) /\ flowWindow c' = Establish.flowWindowOf ep /\
  payloadSize c' = Establish.payloadSizeOf ep /\
  negotiatedLatency c' = negotiatedLatency c /\ negotiatedPeerLatency c' = negotiatedPeerLatency c.
Proof.
  cbv zeta. unfold Establish.initPath. cbv zeta.
  match goal with |- context [ConnSend.applyBandwidth ?c0] => pose proof (applyBandwidth_termed c0) as [E1 E2 E3 E4 _ E6 E7 E8];
    generalize dependent (ConnSend.applyBandwidth c0) end. intros c1.
  fields. intros -> -> -> -> -> -> ->. split_and!; done.
Qed.

Lemma establish_terms now ep c :
  negotiatedLatency c = 0 -> negotiatedPeerLatency c = 0 -> onTerms ep (Establish.establish now ep c).
Proof.
  intros L1 L2. unfold Establish.establish. cbv zeta.
  destruct (initPath_terms now ep c) as (E1 & E2 & E3 & E4 & E5 & E6 & E7 & E8). set (c1 := Establish.initPath now ep c) in *.
  clearbody c1. assert (onTerms ep (Establish.initPlayout ep c1)) as H2.
  { unfold Establish.initPlayout. constructor; unfold latencyOf; destruct (EP.Live ep); cbv zeta;
      try (destruct (EP.TLPktDrop ep)); try (destruct (EP.Message ep)); fields; congruence. }
  set (c2 := Establish.initPlayout ep c1) in *. clearbody c2.
  eapply onTerms_termed; [apply armTimers_termed|]. eapply onTerms_termed; [|exact H2].
  transitivity (Establish.initFilter ep (Establish.initCrypto ep c2)).
  { etransitivity; [|apply initFilter_termed]. apply initCrypto_termed. }
  generalize (Establish.initFilter ep (Establish.initCrypto ep c2)). intros c3.
  term_upd. destruct (_ >? 0); terms.
Qed.

(** The keys and the filter of a connection. *)
Record equipped (c c' : Conn) : Prop := mkEquipped {
  eq_ctx : cryptoCtx c' = cryptoCtx c;
  eq_version : peerVersion c' = peerVersion c;
  eq_fec : fecSender c' = fecSender c;
  eq_arq : fecARQLevel c' = fecARQLevel c;
  eq_events : events c' = events c
}.

#[local] Instance equipped_preorder : PreOrder equipped.
Proof. split; [intros c; by constructor|]. intros a b c [] []. constructor; congruence. Qed.

Ltac equip_upd := match goal with
  | |- equipped ?c (@upd _ _ ?g ?F ?h ?r) => transitivity r; [|constructor; fields; done]
  | |- equipped ?c (arm _ _ ?r) => transitivity r; [|unfold arm, out; constructor; fields; done]
  end.
Ltac equips := repeat equip_upd; try reflexivity.

Lemma applyBandwidth_equipped c : equipped c (ConnSend.applyBandwidth c).
Proof.
  unfold ConnSend.applyBandwidth. destruct (negb (ready c)); [done|]. destruct (negb _); [equips|]. cbv zeta.
  destruct (_ && _); equips.
Qed.
Lemma initPlayout_equipped ep c : equipped c (Establish.initPlayout ep c).
Proof.
  unfold Establish.initPlayout. destruct (EP.Live ep); [cbv zeta; destruct (EP.TLPktDrop ep); equips|].
  destruct (EP.Message ep); equips.
Qed.
Lemma armTimers_equipped now ep c : equipped c (Establish.armTimers now ep c).
Proof.
  unfold Establish.armTimers. cbv zeta.
  set (c1 := arm Output.TimerACK _ c). assert (equipped c c1) as S1 by (unfold c1; equips). clearbody c1.
  set (c2 := if periodicNAK c1 then _ else c1).
  assert (equipped c c2) as S2 by (transitivity c1; [done|]; unfold c2; destruct (periodicNAK c1); equips). clearbody c2.
  transitivity c2; [done|]. destruct (_ >? 0); equips.
Qed.
Lemma initPath_equipped now ep c : equipped (c <| peerVersion := EP.PeerVersion ep |>) (Establish.initPath now ep c).
Proof.
  unfold Establish.initPath. cbv zeta.
  match goal with |- context [ConnSend.applyBandwidth ?c0] => pose proof (applyBandwidth_equipped c0) as E;
    generalize dependent (ConnSend.applyBandwidth c0) end. intros c1 E.
  transitivity c1; [|equips]. etransitivity; [|exact E]. constructor; fields; done.
Qed.

(** The filter a configuration string selects. *)
Definition filterOf (s : list Z) : option FilterConfig.Config :=
  match s with
  | [] => None
  | _ => match FilterConfig.ParseConfig Establish.filters (Handshake.stringOf s) with Ok cfg => Some cfg | Err _ => None end
  end.

(** The equipment the parameters [ep] ask for, with a peer newer than 1.5.3. *)
Lemma establish_equips now ep c :
  cryptoCtx c = None -> fecSender c = None -> EP.PeerVersion ep = 0 \/ 0x010503 < EP.PeerVersion ep ->
  let c' := Establish.establish now ep c in
  cryptoCtx c' = EP.CryptoCtx ep /\ CoreHandshake.isSome (fecSender c') = CoreHandshake.isSome (filterOf (EP.FilterConfig ep)) /\
  (forall cfg, filterOf (EP.FilterConfig ep) = Some cfg -> fecARQLevel c' = FilterConfig.ARQ cfg) /\ events c' = events c.
Proof.
  intros Hc Hf Hv. cbv zeta. unfold Establish.establish. cbv zeta.
  pose proof (initPath_equipped now ep c) as E1. set (c1 := Establish.initPath now ep c) in *. clearbody c1.
  pose proof (initPlayout_equipped ep c1) as E2. set (c2 := Establish.initPlayout ep c1) in *. clearbody c2.
  assert (equipped (c <| peerVersion := EP.PeerVersion ep |>) c2) as [A1 A2 A3 _ A5] by (by transitivity c1).
  fields_in A1. fields_in A2. fields_in A3. fields_in A5.
  assert (cryptoCtx (Establish.initCrypto ep c2) = EP.CryptoCtx ep /\ fecSender (Establish.initCrypto ep c2) = None /\
    events (Establish.initCrypto ep c2) = events c) as (B1 & B2 & B3).
  { unfold Establish.initCrypto. destruct (EP.CryptoCtx ep) as [ctx|]; [|split_and!; congruence]. cbv zeta. fields. split; [|split; congruence].
    rewrite A2. assert ((EP.PeerVersion ep >? 0) && (EP.PeerVersion ep <=? 66819) = false) as E by lia.
    rewrite <- andb_assoc, E, andb_false_r. done. }
  set (c3 := Establish.initCrypto ep c2) in *. clearbody c3.
  assert (forall c4, equipped (Establish.initFilter ep c3) c4 ->
    cryptoCtx c4 = EP.CryptoCtx ep /\ CoreHandshake.isSome (fecSender c4) = CoreHandshake.isSome (filterOf (EP.FilterConfig ep)) /\
    (forall cfg, filterOf (EP.FilterConfig ep) = Some cfg -> fecARQLevel c4 = FilterConfig.ARQ cfg) /\ events c4 = events c) as K.
  { intros c4 [C1 _ C3 C4 C5]. rewrite C1, C3, C4, C5. clear - B1 B2 B3. unfold Establish.initFilter, filterOf.
    destruct (EP.FilterConfig ep) as [|b s]; [rewrite B2; by split_and!|].
    destruct (FilterConfig.ParseConfig _ _); [fields; split_and!; [done|done|by intros ? [= <-]|done]|rewrite B2; by split_and!]. }
  apply K. etransitivity; [|apply armTimers_equipped]. equip_upd.
  generalize (Establish.initFilter ep c3). intros c4. destruct (_ >? 0); equips.
Qed.

Lemma establish_state now ep c : state (Establish.establish now ep c) = stateConnected.
Proof.
  unfold Establish.establish, Establish.armTimers, arm, out. cbv zeta. 
  match goal with |- context [?c <| state := stateConnected |>] => generalize c end. intros c0. 
  fields. destruct (periodicNAK c0); destruct (_ >? 0); fields; done.
Qed.

(** ** The exchange *)

Section Exchange.
Context {P : Crypto.Primitives} {M : Float64.GoMath} {O : ConnRecv.RangeOrder}.

Definition packetOf (o : Output.Output) : option Packet :=
  match o with Output.SendPacket p _ => Some p | _ => None end.
Definition lastSent (c : Conn) : option Packet := last (omap packetOf (sent c)).
Definition lastReply (l : Listener.Listener) : option Listener.SendTo := last (Fifo.contents (Listener.outputs l)).

(** A caller [c] that has just dialled and the listener [l]: the network carries
    four packets, at the times [t1] to [t4], and the caller is known as [peer]. *)
Definition exchange (t1 t2 t3 t4 : Z) (peer : list Z) (c : Conn) (l : Listener.Listener) : option (Conn * Listener.Listener) :=
  p1 ← lastSent c;
  let l := Listener.HandlePacket t1 p1 peer l in
  r1 ← lastReply l;
  let c := ConnCore.HandlePacket t2 (Listener.to_Packet r1) c in
  p2 ← lastSent c;
  let l := Listener.HandlePacket t3 p2 peer l in
  r2 ← lastReply l;
  Some (ConnCore.HandlePacket t4 (Listener.to_Packet r2) c, l).

Lemma lastSent_retry now p c : Fifo.wf (outputs c) -> lastSent (CoreHandshake.retry now (send p c)) = Some p.
Proof.
  intros W. unfold lastSent, sent, CoreHandshake.retry, send, arm, out. fields.
  rewrite Fifo.push_contents by (by apply Fifo.push_wf). rewrite Fifo.push_contents by done.
  rewrite !omap_app. cbn [omap list_omap packetOf]. rewrite app_nil_r. apply last_snoc.
Qed.

Lemma lastReply_reply peer p l :
  Fifo.wf (Listener.outputs l) -> lastReply (Listener.reply peer p l) = Some (Listener.mkSendTo peer p).
Proof. intros W. unfold lastReply, Listener.reply. fields. rewrite Fifo.push_contents by done. apply last_snoc. Qed.

(** Nothing of the data path is in use. *)
Definition idle (c : Conn) : Prop :=
  (kmAnnounced c = false /\ fecReceiver c = None) /\
  (sendDropThresh c = 0 /\ msgTTLActive c = false /\ tlPktDrop c = false) /\
  (tsbpdTimer c = None /\ messageMode c = false) /\
  (sendQueue c = Fifo.empty /\ events c = Fifo.empty).

(** The packets the caller has sent so far. *)
Definition packets (c : Conn) : list Packet := omap packetOf (sent c).

(** A caller that waits for an answer. *)
Record waiting (st : connState) (d : Dial.dialState) (c : Conn) : Prop := mkWaiting {
  wt_closed : closed c = false;
  wt_rdv : rdv c = None;
  wt_state : state c = st;
  wt_dial : dial c = Some d;
  wt_lat : negotiatedLatency c = 0 /\ negotiatedPeerLatency c = 0;
  wt_bare : cryptoCtx c = None /\ fecSender c = None;
  wt_wf : Fifo.wf (outputs c) /\ Fifo.wf (events c);
  wt_idle : idle c
}.

Lemma Dial_waits rand dc t0 :
  waiting stateInduction (CoreHandshake.dialOf dc) (CoreHandshake.Dial rand dc t0) /\
  lastSent (CoreHandshake.Dial rand dc t0) = Some (Handshake.BuildInduction (CoreHandshake.CallerSocketID dc)
    (Seq.Value (CoreHandshake.CallerISN dc)) (CoreHandshake.orZ (CoreHandshake.MSS dc) 1500)
    (CoreHandshake.orZ (CoreHandshake.FC dc) 8192) None) /\
  length (packets (CoreHandshake.Dial rand dc t0)) = 1%nat.
Proof.
  unfold CoreHandshake.Dial, CoreHandshake.sendInduction. cbv zeta. split; [|split].
  - unfold CoreHandshake.retry, send, arm, out. constructor; fields; try done.
    split; [apply Fifo.push_wf, Fifo.push_wf|]; unfold Fifo.wf; cbn; lia.
  - rewrite lastSent_retry; [done|]. fields. unfold Fifo.wf; cbn; lia.
  - reflexivity.
Qed.

(** A packet and the timer of its repetition. *)
Lemma packets_retry now p c : Fifo.wf (outputs c) -> packets (CoreHandshake.retry now (send p c)) = packets c ++ [p].
Proof.
  intros W. unfold packets, sent, CoreHandshake.retry, send, arm, out. fields.
  rewrite Fifo.push_contents by (by apply Fifo.push_wf). rewrite Fifo.push_contents by done.
  rewrite !omap_app. cbn [omap list_omap packetOf]. by rewrite app_nil_r.
Qed.

Lemma waiting_now st d c now : waiting st d c -> waiting st d (c <| lastNow := now |>).
Proof. intros []. constructor; fields; done. Qed.

(** The caller's answer to the induction response. *)
Lemma caller_concludes now p hs d c :
  waiting stateInduction d c -> isHandshake p -> HS_UnmarshalCIF zeroHS (Data p) = Ok hs ->
  Cif.HandshakeType hs = Cif.HandshakeTypeInduction -> Cif.Version hs = 5 -> Cif.ExtensionField hs = Handshake.SRTMagic ->
  Dial.forceHSv4 d = false ->
  let d' := d <| Dial.cookie := Cif.SynCookie hs |> in
  exists c0, waiting stateConclusion d' c0 /\ packets c0 = packets c /\
    ConnCore.HandlePacket now p c = CoreHandshake.sendConclusion now d' c0.
Proof.
  intros Hw [Hc1 Hc2] Hd Ht Hv He Hf. cbv zeta. pose proof (waiting_now _ _ _ now Hw) as Hw'.
  exists (c <| lastNow := now |> <| dial := Some (d <| Dial.cookie := Cif.SynCookie hs |>) |> <| state := stateConclusion |>).
  destruct Hw as [W1 W2 W3 W4 W5 W5b W6 W7]. split; [constructor; fields; done|]. split; [done|].
  unfold ConnCore.HandlePacket. cbv zeta. fields. rewrite W1, Hc1, Hc2.
  cbv iota beta. change (true && (Packet.CtrlTypeHandshake =? Packet.CtrlTypeHandshake)) with true. cbv iota beta.
  unfold ConnCore.handleHandshake. rewrite Hd, Ht. fields. rewrite W2, W3, W4.
  change (Cif.IsRejection Cif.HandshakeTypeInduction) with false. cbv iota beta.
  unfold CoreHandshake.handleInductionResponse. rewrite Ht, Hv, He, Hf. reflexivity.
Qed.

(** The caller takes the conclusion of the listener. *)
Lemma caller_connects now p hs d c :
  waiting stateConclusion d c -> isHandshake p -> HS_UnmarshalCIF zeroHS (Data p) = Ok hs ->
  Cif.HandshakeType hs = Cif.HandshakeTypeConclusion -> Dial.hsv4 d = false ->
  CoreHandshake.refuseConclusion (Dial.groupID d =? 0) hs d = None ->
  CoreHandshake.matchingCongestion (Dial.cong d) hs = true -> Cif.HasKM hs = CoreHandshake.isSome (Dial.cryptoCtx d) ->
  let d' := d <| Dial.mss := Z.min (Dial.mss d) (Cif.MaxTransmissionUnitSize hs) |> in
  exists c0, negotiatedLatency c0 = 0 /\ negotiatedPeerLatency c0 = 0 /\ cryptoCtx c0 = None /\ fecSender c0 = None /\
    Fifo.wf (events c0) /\ (idle c0 /\ rdv c0 = None /\ Fifo.wf (outputs c0) /\ packets c0 = packets c) /\
    ConnCore.HandlePacket now p c =
      event (Output.Connected (Cif.SRTSocketID hs)) ((Establish.establish now (CoreHandshake.concludeParams hs d') c0) <| dial := None |>).
Proof.
  intros Hw [Hc1 Hc2] Hd Ht Hv Hr Hm Hk. cbv zeta. destruct Hw as [W1 W2 W3 W4 [W5 W5'] [W8 W9] [W6 W7] Wi].
  set (d' := d <| Dial.mss := Z.min (Dial.mss d) (Cif.MaxTransmissionUnitSize hs) |>).
  assert (Dial.cong d' = Dial.cong d /\ Dial.cryptoCtx d' = Dial.cryptoCtx d) as [D1 D2] by (unfold d'; fields; done).
  set (d'' := if Cif.HasKM hs then d' else d' <| Dial.cryptoCtx := None |>).
  assert (d'' = d') as Ed.
  { unfold d''. rewrite Hk. destruct (Dial.cryptoCtx d) eqn:E; [done|]. unfold d'. clear -E. destruct d. cbn in E. subst. reflexivity. }
  exists (out (Output.ClearTimer Output.TimerHandshake) (c <| lastNow := now |> <| dial := Some d' |> <| dial := Some d'' |>)).
  unfold out. fields. split_and!; try done; [by apply Fifo.push_wf| |].
  { unfold packets, sent. fields. rewrite Fifo.push_contents, omap_app by done. apply app_nil_r. }
  unfold ConnCore.HandlePacket. cbv zeta. fields. rewrite W1, Hc1, Hc2.
  cbv iota beta. change (true && (Packet.CtrlTypeHandshake =? Packet.CtrlTypeHandshake)) with true. cbv iota beta.
  unfold ConnCore.handleHandshake. rewrite Hd, Ht. fields. rewrite W2, W3, W4.
  change (Cif.IsRejection Cif.HandshakeTypeConclusion) with false. cbv iota beta.
  unfold CoreHandshake.handleConclusionResponse. rewrite Hv, Ht, Hr. cbv iota beta zeta. fold d'. rewrite D1, Hm, D2.
  change (Cif.HandshakeTypeConclusion =? Cif.HandshakeTypeConclusion) with true. cbn [negb].
  destruct (_ && _ && _) eqn:Eb; [exfalso; rewrite Hk in Eb; by destruct (Dial.cryptoCtx d)|]. fold d''. rewrite Ed. reflexivity.
Qed.

Lemma response_config l l' a id :
  Listener.cfg l' = Listener.cfg l -> Listener.buildConclusionResponse l' a id = Listener.buildConclusionResponse l a id.
Proof. intros E. unfold Listener.buildConclusionResponse, Listener.srtFlags. by rewrite E. Qed.

(** The listener accepts a caller that brings its cookie back. *)
Lemma listener_accepts now p hs peer l isn mss fc id flags rl sl sid cong filter km ctx key :
  isHandshake p -> HS_UnmarshalCIF zeroHS (Data p) = Ok hs ->
  concludes hs isn mss fc id (Listener.cookie l peer) flags rl sl sid cong filter km ->
  76 <= mss -> Listener.accepted l !! peer = None -> (forall req, Listener.askGate l req = None) ->
  CoreHandshake.orLive (LC.Congestion (Listener.cfg l)) = CoreHandshake.orLive cong ->
  Listener.negotiateCrypto hs l = Ok (ctx, key) ->
  Fifo.wf (Listener.outputs l) -> Fifo.wf (Listener.events l) ->
  let cfg := Listener.cfg l in
  let a := Listener.mkAcc (Z.lor (Uint32 (Listener.entropy l (Listener.calls l)) 0) 1) isn (Z.min (LC.MSS cfg) mss) fc
             (Z.max (LC.RecvLatencyMS cfg) sl) (Z.max (LC.SendLatencyMS cfg) rl)
             (match filter with [] => LC.FilterConfig cfg | _ => filter end) ctx key 0 0 0 in
  let l' := Listener.HandlePacket now p peer l in
  lastReply l' = Some (Listener.mkSendTo peer (Listener.buildConclusionResponse l a id)) /\
  last (Fifo.contents (Listener.events l')) =
    Some (Listener.mkAccepted (Establish.establish now (Listener.acceptParams hs a cfg) (zeroConn (Listener.connRand l peer)))
            peer (Listener.socketID a) sid 0 0 0 isn).
Proof.
  intros [Hc1 Hc2] Hd [C1 C2 C3 C4 C5 C6 C7 C8 C9 C10 C11 [C12 C13] [C14 C15] C16] Hm Ha Hg Hl Hn W1 W2. cbv zeta.
  assert (Listener.HandlePacket now p peer l = Listener.acceptV5 now peer hs
    (Cif.mkHSExt Handshake.SRTVersion flags rl sl) ctx key l) as ->.
  { unfold Listener.HandlePacket. rewrite Hc1, Hc2, Hd, C2. unfold Listener.handleConclusion.
    change (negb true || negb (Packet.CtrlTypeHandshake =? Packet.CtrlTypeHandshake)) with false. cbv iota.
    change (Cif.HandshakeTypeConclusion =? Cif.HandshakeTypeInduction) with false.
    change (Cif.HandshakeTypeConclusion =? Cif.HandshakeTypeConclusion) with true. cbv iota zeta.
    rewrite C7, Z.eqb_refl. cbn [negb]. rewrite C4. destruct (Z.ltb_spec mss 76); [lia|].
    rewrite C1. change (5 =? 4) with false. cbv iota. rewrite Ha, C8. cbn [Cif.SRTVersion].
    change (Handshake.SRTVersion <? 66304) with false. cbv iota.
    unfold CoreHandshake.matchingCongestion. rewrite C12, C13, Hl. unfold Establish.same. rewrite bool_decide_eq_true_2 by done.
    cbn [negb]. by rewrite Hg, Hn. }
  unfold Listener.acceptV5, Handshake.NegotiateLatency, Listener.randUint32. cbn [Cif.RecvTSBPDDelay Cif.SendTSBPDDelay].
  rewrite C3, C4, C5, C6, C11, C14, C15. unfold Listener.joinGroup. rewrite C16. cbn [andb].
  replace (match filter with [] => LC.FilterConfig (Listener.cfg l) | z :: l0 => if Cif.nonempty filter then z :: l0 else LC.FilterConfig (Listener.cfg l) end)
    with (match filter with [] => LC.FilterConfig (Listener.cfg l) | _ => filter end) by (by destruct filter).
  set (a := Listener.mkAcc _ _ _ _ _ _ _ _ _ _ _ _). unfold Listener.reply, lastReply. fields. split.
  - rewrite Fifo.push_contents by (fields; done). rewrite (response_config l) by (fields; done). apply last_snoc.
  - rewrite Fifo.push_contents by done. rewrite last_snoc. reflexivity.
Qed.

(** ** Keys *)

Context {L : Crypto.PrimitiveLaws}.

(** What one side encrypts with the even key, the other decrypts. *)
Definition readable (a b : option Crypto.Context) : Prop :=
  match a, b with
  | None, None => True
  | Some a, Some b => forall data header seqNo, exists ct,
      Crypto.EncryptPayload a data header Packet.EncryptionEven seqNo = Ok ct /\
      Crypto.DecryptPayload b ct header Packet.EncryptionEven seqNo = Ok data
  | _, _ => False
  end.

(** The ends are both without encryption, or share the passphrase and the host of
    the listener can make contexts of the caller's kind. *)
Inductive keying (dc : CoreHandshake.DialConfig) (l : Listener.Listener) : Prop :=
| plain : CoreHandshake.CryptoCtx dc = None -> LC.Passphrase (Listener.cfg l) = [] -> keying dc l
| encrypted ctx mk ctx0 :
    CoreHandshake.CryptoCtx dc = Some ctx -> Crypto.ctx_base ctx -> Crypto.slot_ok ctx Packet.EncryptionEven ->
    LC.Passphrase (Listener.cfg l) = CoreHandshake.Passphrase dc -> CoreHandshake.Passphrase dc <> [] ->
    Listener.newCtx l = Some mk -> mk (Crypto.keyLength ctx) (Crypto.mode ctx) = Some ctx0 ->
    Crypto.keyLength ctx0 = Crypto.keyLength ctx -> len (Crypto.salt ctx0) = 16 -> Crypto.useGcm153 ctx0 = Crypto.useGcm153 ctx ->
    keying dc l.

Definition marshalled (ctx : option Crypto.Context) (pass : list Z) (key : Z) : option Cif.CIFKeyMaterial :=
  match ctx with
  | None => None
  | Some ctx => match Crypto.MarshalKM ctx pass key with Ok km => Some km | Err _ => None end
  end.

Lemma MarshalKM_fields c pass key km :
  Crypto.MarshalKM c pass key = Ok km ->
  Cif.KLen km = u16 (Crypto.keyLength c) /\ Cif.KeyBasedEncryption km = key /\
  Cif.Cipher km = if Crypto.mode c =? Crypto.CipherGCM then Crypto.CipherGCM else Crypto.CipherCTR.
Proof.
  unfold Crypto.MarshalKM. destruct (key =? _); [done|].
  destruct (Crypto.KeyWrap _ _) as [w|e]; cbn [mbind result_bind]; [|done]. intros [= <-]. done.
Qed.

Definition KM_fine (km : option Cif.CIFKeyMaterial) : Prop := match km with Some k => Cif.KM_ok k | None => True end.

Lemma keyed dc l :
  keying dc l ->
  let kmc := marshalled (CoreHandshake.CryptoCtx dc) (CoreHandshake.Passphrase dc) Packet.EncryptionEven in
  exists ctxl key,
    let kml := marshalled ctxl (LC.Passphrase (Listener.cfg l)) key in
    KM_fine kmc /\ KM_fine kml /\ CoreHandshake.isSome kml = CoreHandshake.isSome (CoreHandshake.CryptoCtx dc) /\
    (forall hs, Cif.HasKM hs = CoreHandshake.isSome kmc -> Cif.SRTKM hs = kmc -> Listener.negotiateCrypto hs l = Ok (ctxl, key)) /\
    readable (CoreHandshake.CryptoCtx dc) ctxl /\ readable ctxl (CoreHandshake.CryptoCtx dc).
Proof.
  intros [Hc Hp|ctx mk ctx0 Hc Hb Hs Hp Hne Hn Hm Hk Hsl Hg]; cbv zeta; rewrite Hc.
  { exists None, 0. cbn. split_and!; try done. intros hs H1 H2. unfold Listener.negotiateCrypto. by rewrite H1, Hp. }
  set (pass := CoreHandshake.Passphrase dc) in *. set (even := Packet.EncryptionEven) in *.
  assert (Crypto.is_slot even) as He by (by left).
  destruct (Crypto.UnmarshalKM_ok ctx ctx0 pass even even Hb He ltac:(left; done) ltac:(by left) Hk Hsl)
    as (km & ctx1 & M1 & K1 & U & S1 & S2 & S3 & S4 & S5).
  destruct (MarshalKM_fields _ _ _ _ M1) as (F1 & F2 & F3).
  assert (Crypto.keyLength ctx1 = Crypto.keyLength ctx) as Ek.
  { destruct S4 as [L1 _], Hs as [L2 _]. rewrite <- L1, <- L2. by rewrite S5. }
  assert (Crypto.ctx_base ctx1) as Hb1 by (destruct Hb as (B1 & B2 & B3 & B4); unfold Crypto.ctx_base; rewrite Ek, S1, S2; done).
  destruct (Crypto.UnmarshalKM_ok ctx1 ctx0 pass even even Hb1 He ltac:(left; done) ltac:(by left) ltac:(congruence) Hsl)
    as (km' & _ & M2 & K2 & _).
  assert (Crypto.keyLength ctx <> 0 /\ u16 (Crypto.keyLength ctx) = Crypto.keyLength ctx) as [N1 N2].
  { destruct Hb as ([E|[E|E]] & _); rewrite E; split; done. }
  exists (Some ctx1), even. unfold marshalled. rewrite M1, Hp, M2. split_and!; try done.
  - intros hs H1 H2. unfold Listener.negotiateCrypto. rewrite H1, H2, Hp. cbn [CoreHandshake.isSome].
    destruct pass as [|b pass'] eqn:Ep; [done|]. rewrite Hn, F1, F3, N2. unfold CoreHandshake.orZ.
    destruct (Z.eqb_spec (Crypto.keyLength ctx) 0); [lia|].
    replace (if (if Crypto.mode ctx =? Crypto.CipherGCM then Crypto.CipherGCM else Crypto.CipherCTR) =? Crypto.CipherGCM
             then Crypto.CipherGCM else Crypto.CipherCTR) with (Crypto.mode ctx)
      by (destruct Hb as (_ & [E|E] & _); rewrite E; done).
    rewrite Hm, U, F2. done.
  - intros data header seqNo. apply Crypto.decrypt_encrypt; try done. congruence.
  - intros data header seqNo. apply Crypto.decrypt_encrypt; try done; congruence.
Qed.

(** ** Agreement *)

(** A caller and a listener that can talk: a version 5 caller outside a group, of
    the same mode, with fields in range, not yet accepted, and let in. *)
Record compatible (dc : CoreHandshake.DialConfig) (l : Listener.Listener) (peer : list Z) : Prop := mkCompatible {
  cp_v5 : CoreHandshake.ForceHSv4 dc = false /\ CoreHandshake.GroupID dc = 0;
  cp_id : is_u32 (CoreHandshake.CallerSocketID dc) /\ Seq.is_seq (CoreHandshake.CallerISN dc);
  cp_mss : is_u32 (CoreHandshake.MSS dc) /\ (CoreHandshake.MSS dc = 0 \/ 76 <= CoreHandshake.MSS dc);
  cp_fc : is_u32 (CoreHandshake.FC dc) /\ (CoreHandshake.FC dc = 0 \/ 2 <= CoreHandshake.FC dc);
  cp_lat : is_u16 (CoreHandshake.RecvLatencyMS dc) /\ is_u16 (CoreHandshake.SendLatencyMS dc);
  cp_sid : Cif.text_ok (CoreHandshake.StreamID dc) /\ len (CoreHandshake.StreamID dc) <= 512;
  cp_text : Cif.text_ok (CoreHandshake.Congestion dc) /\ Cif.text_ok (CoreHandshake.FilterConfig dc);
  cp_lmss : 76 <= LC.MSS (Listener.cfg l) < 2 ^ 32;
  cp_llat : 1 <= LC.RecvLatencyMS (Listener.cfg l) < 2 ^ 16 /\ 1 <= LC.SendLatencyMS (Listener.cfg l) < 2 ^ 16;
  cp_ltext : Cif.text_ok (LC.FilterConfig (Listener.cfg l));
  cp_mode : LC.Congestion (Listener.cfg l) = CoreHandshake.orLive (CoreHandshake.Congestion dc) /\
    LC.Live (Listener.cfg l) = CoreHandshake.Live dc;
  cp_new : Listener.accepted l !! peer = None;
  cp_gate : forall req, Listener.askGate l req = None;
  cp_entropy : forall n, bytes_ok (Listener.entropy l n);
  cp_wf : Fifo.wf (Listener.outputs l) /\ Fifo.wf (Listener.events l)
}.

(** The terms of the two ends are each other's mirror image. *)
Record mirrored (a b : Conn) : Prop := mkMirrored {
  mi_seq : sndISN a = rcvISN b /\ rcvISN a = sndISN b;
  mi_mss : negotiatedMSS a = negotiatedMSS b;
  mi_flow : flowWindow a = flowWindow b;
  mi_latency : negotiatedLatency a = negotiatedPeerLatency b /\ negotiatedPeerLatency a = negotiatedLatency b;
  mi_payload : 0 < payloadSize a <= negotiatedMSS a - Packet.WireHeaderSize /\
    0 < payloadSize b <= negotiatedMSS b - Packet.WireHeaderSize;
  mi_filter : CoreHandshake.isSome (fecSender a) = CoreHandshake.isSome (fecSender b) /\
    (CoreHandshake.isSome (fecSender a) = true -> fecARQLevel a = fecARQLevel b);
  mi_keys : readable (cryptoCtx a) (cryptoCtx b) /\ readable (cryptoCtx b) (cryptoCtx a)
}.

Lemma orLive_again s : CoreHandshake.orLive (CoreHandshake.orLive s) = CoreHandshake.orLive s.
Proof. by destruct s. Qed.

Lemma orLive_text s : Cif.text_ok s -> Cif.text_ok (CoreHandshake.orLive s).
Proof.
  intros H. destruct s; [|done]. split; [|unfold len; cbn; lia]. apply (bool_decide_unpack _). vm_compute. exact I.
Qed.

Lemma features_u32 a b c d e : is_u32 (CoreHandshake.srtFeatureFlags a b c d e).
Proof. destruct a, b, c, d, e; vm_compute; intuition congruence. Qed.

Lemma cookie_u32 l peer : is_u32 (Listener.cookie l peer).
Proof.
  unfold Listener.cookie. cbv zeta. assert (forall data h, is_u32 h -> is_u32 (Listener.fnv1a h data)) as H.
  { induction data as [|b data IH]; intros h Hh; [done|]. cbn. apply IH. apply u32_range. }
  destruct (_ =? 0); [unfold is_u32; lia|]. apply H, H. unfold is_u32. lia.
Qed.

Lemma lor1_u32 x : is_u32 x -> is_u32 (Z.lor x 1).
Proof.
  intros Hx. unfold is_u32 in *. split; [apply Z.lor_nonneg; lia|].
  destruct (Z.eq_dec (Z.lor x 1) 0) as [->|Hn]; [lia|]. assert (0 <= Z.lor x 1) by (apply Z.lor_nonneg; lia).
  apply Z.log2_lt_pow2; [lia|]. rewrite Z.log2_lor by lia. change (Z.log2 1) with 0.
  destruct (Z.eq_dec x 0) as [->|]; [cbn; lia|]. apply Z.max_lub_lt; [|lia]. apply Z.log2_lt_pow2; lia.
Qed.

Lemma orZ_cases x d (Q : Z -> Prop) : Q d -> (x <> 0 -> Q x) -> Q (CoreHandshake.orZ x d).
Proof. intros. unfold CoreHandshake.orZ. destruct (Z.eqb_spec x 0); auto. Qed.

(** A payload of the negotiated size fits a packet. *)
Lemma payload_fits ep requested mss :
  76 <= mss -> EP.PayloadSize ep = Establish.negotiatedPayloadSize requested mss (EP.Congestion ep) ->
  0 < Establish.payloadSizeOf ep <= mss - Packet.WireHeaderSize.
Proof.
  intros H E. unfold Establish.payloadSizeOf. rewrite E. unfold Establish.negotiatedPayloadSize, liveDefaultPayloadSize, Packet.WireHeaderSize in *.
  cbv zeta. destruct (Z.leb_spec requested 0); destruct (Establish.same _ _);
    match goal with |- context [?a <=? 0] => destruct (Z.leb_spec a 0) end; vm_compute Packet.HeaderSize in *; lia.
Qed.

(** The parameters of the caller and of the listener. *)
Lemma caller_params hs d e :
  CoreHandshake.srtHS hs = Some e ->
  let ep := CoreHandshake.concludeParams hs d in
  EP.PeerSocketID ep = Cif.SRTSocketID hs /\ EP.SendISN ep = Dial.isn d /\ EP.RecvISN ep = Cif.InitialPacketSequenceNumber hs /\
  EP.MSS ep = Dial.mss d /\ EP.FlowWindow ep = Z.min (Dial.fc d) (Cif.MaxFlowWindowSize hs) /\
  EP.PayloadSize ep = Establish.negotiatedPayloadSize (Dial.payloadSize d) (Dial.mss d) (EP.Congestion ep) /\
  EP.Live ep = Dial.live d /\
  EP.TsbpdDelay ep = Z.max (Dial.recvLatMS d) (Cif.SendTSBPDDelay e) * 1000 /\
  EP.PeerTsbpdDelay ep = Z.max (Dial.sendLatMS d) (Cif.RecvTSBPDDelay e) * 1000 /\
  EP.CryptoCtx ep = Dial.cryptoCtx d /\ EP.PeerVersion ep = Cif.SRTVersion e /\
  EP.FilterConfig ep = match Cif.FilterConfig hs with [] => Dial.filterCfg d | f => if Cif.HasFilter hs then f else Dial.filterCfg d end.
Proof.
  intros E. cbv zeta. unfold CoreHandshake.concludeParams, CoreHandshake.peerVersionFromHS. rewrite E. split_and!; reflexivity.
Qed.

Lemma listener_params hs a cfg e :
  CoreHandshake.srtHS hs = Some e ->
  let ep := Listener.acceptParams hs a cfg in
  EP.PeerSocketID ep = Cif.SRTSocketID hs /\ EP.SendISN ep = Listener.isn a /\ EP.RecvISN ep = Cif.InitialPacketSequenceNumber hs /\
  EP.MSS ep = Listener.mss a /\ EP.FlowWindow ep = Listener.fc a /\
  EP.PayloadSize ep = Establish.negotiatedPayloadSize (LC.PayloadSize cfg) (Listener.mss a) (EP.Congestion ep) /\
  EP.Live ep = LC.Live cfg /\ EP.TsbpdDelay ep = Listener.recvLat a * 1000 /\ EP.PeerTsbpdDelay ep = Listener.sendLat a * 1000 /\
  EP.CryptoCtx ep = Listener.cryptoCtx a /\ EP.PeerVersion ep = Cif.SRTVersion e /\ EP.FilterConfig ep = Listener.filterCfg a.
Proof.
  intros E. cbv zeta. unfold Listener.acceptParams, CoreHandshake.peerVersionFromHS. rewrite E. split_and!; reflexivity.
Qed.

(** Two connections on corresponding terms. *)
Lemma mirror epc epl c a t t' c0 c0' rc rl :
  c = Establish.establish t epc c0 -> a = Establish.establish t' epl c0' ->
  negotiatedLatency c0 = 0 /\ negotiatedPeerLatency c0 = 0 /\ cryptoCtx c0 = None /\ fecSender c0 = None ->
  negotiatedLatency c0' = 0 /\ negotiatedPeerLatency c0' = 0 /\ cryptoCtx c0' = None /\ fecSender c0' = None ->
  EP.SendISN epc = EP.RecvISN epl -> EP.RecvISN epc = EP.SendISN epl -> EP.MSS epc = EP.MSS epl -> 76 <= EP.MSS epc ->
  EP.FlowWindow epc = EP.FlowWindow epl -> EP.Live epc = EP.Live epl ->
  EP.TsbpdDelay epc = EP.PeerTsbpdDelay epl -> EP.PeerTsbpdDelay epc = EP.TsbpdDelay epl ->
  0 < EP.TsbpdDelay epc -> 0 < EP.PeerTsbpdDelay epc ->
  EP.PayloadSize epc = Establish.negotiatedPayloadSize rc (EP.MSS epc) (EP.Congestion epc) ->
  EP.PayloadSize epl = Establish.negotiatedPayloadSize rl (EP.MSS epl) (EP.Congestion epl) ->
  EP.PeerVersion epc = Handshake.SRTVersion -> EP.PeerVersion epl = Handshake.SRTVersion ->
  EP.FilterConfig epc = EP.FilterConfig epl ->
  readable (EP.CryptoCtx epc) (EP.CryptoCtx epl) -> readable (EP.CryptoCtx epl) (EP.CryptoCtx epc) ->
  mirrored c a.
Proof.
  intros -> -> (L1 & L2 & L3 & L4) (M1 & M2 & M3 & M4) Es Er Em Hm Ef El Et Ep Ht Hp Pc Pl Vc Vl Eff R1 R2.
  pose proof (payload_fits epc rc (EP.MSS epc) Hm Pc) as B1. pose proof (payload_fits epl rl (EP.MSS epl) ltac:(lia) Pl) as B2.
  destruct (establish_terms t epc c0 L1 L2) as [A1 A2 A3 A4 A5 A6 A7]. destruct (establish_terms t' epl c0' M1 M2) as [C1 C2 C3 C4 C5 C6 C7].
  destruct (establish_equips t epc c0 L3 L4) as (K1 & K2 & K3 & _); [right; rewrite Vc; by vm_compute|].
  destruct (establish_equips t' epl c0' M3 M4) as (N1 & N2 & N3 & _); [right; rewrite Vl; by vm_compute|].
  set (c := Establish.establish t epc c0) in *. set (a := Establish.establish t' epl c0') in *. clearbody c a.
  destruct (Z.eqb_spec (EP.MSS epc) 0); [lia|]. destruct (Z.eqb_spec (EP.MSS epl) 0); [lia|].
  unfold latencyOf in A7, C7. rewrite <- El in C7.
  assert (negotiatedLatency c = negotiatedPeerLatency a /\ negotiatedPeerLatency c = negotiatedLatency a) as Hlat.
  { destruct (EP.Live epc); cbv zeta in A7, C7; [|simplify_eq; split; congruence].
    destruct (Z.leb_spec (EP.TsbpdDelay epc) 0); [lia|]. destruct (Z.leb_spec (EP.PeerTsbpdDelay epc) 0); [lia|].
    destruct (Z.leb_spec (EP.TsbpdDelay epl) 0); [lia|]. destruct (Z.leb_spec (EP.PeerTsbpdDelay epl) 0); [lia|].
    simplify_eq. split; congruence. }
  constructor; [split; congruence|congruence| |done| | |by rewrite K1, N1].
  - rewrite A5, C5. unfold Establish.flowWindowOf. by rewrite Ef.
  - rewrite A4, A6, C4, C6. done.
  - rewrite K2, N2, Eff. split; [done|]. rewrite <- Eff in N3. rewrite <- Eff.
    destruct (filterOf (EP.FilterConfig epc)) as [fc|]; [|done]. intros _. by rewrite (K3 fc), (N3 fc).
Qed.

(** The first half: the listener answers the induction and the caller concludes
    with its cookie. *)
Lemma first_half rand dc l peer t0 t1 t2 :
  compatible dc l peer -> KM_fine (marshalled (CoreHandshake.CryptoCtx dc) (CoreHandshake.Passphrase dc) Packet.EncryptionEven) ->
  let d := (CoreHandshake.dialOf dc) <| Dial.cookie := Listener.cookie l peer |> in
  let c := CoreHandshake.Dial rand dc t0 in
  exists p1 r1 l1 c1 p2 hs2,
    lastSent c = Some p1 /\ Listener.HandlePacket t1 p1 peer l = l1 /\ lastReply l1 = Some (Listener.mkSendTo peer r1) /\
    ConnCore.HandlePacket t2 r1 c = c1 /\ waiting stateConclusion d c1 /\ lastSent c1 = Some p2 /\ isHandshake p2 /\
    (exists q, l1 = l <| Listener.outputs := q |> /\ Fifo.wf q) /\
    (packets c1 = [p1; p2] /\ isHandshake p1 /\ exists hs1, HS_UnmarshalCIF zeroHS (Data p1) = Ok hs1 /\
       Cif.HandshakeType hs1 = Cif.HandshakeTypeInduction) /\
    HS_UnmarshalCIF zeroHS (Data p2) = Ok hs2 /\
    concludes hs2 (CoreHandshake.CallerISN dc) (Dial.mss d) (Dial.fc d) (CoreHandshake.CallerSocketID dc) (Listener.cookie l peer)
      (Handshake.orDefaultFlags (CoreHandshake.srtFlags d)) (Dial.recvLatMS d) (Dial.sendLatMS d) (CoreHandshake.StreamID dc)
      (CoreHandshake.orLive (CoreHandshake.Congestion dc)) (CoreHandshake.FilterConfig dc)
      (marshalled (CoreHandshake.CryptoCtx dc) (CoreHandshake.Passphrase dc) Packet.EncryptionEven).
Proof.
  intros [[V1 V2] [I1 I2] [Ms1 Ms2] [F1 F2] [L1 L2] [S1 S2] [T1 T2] _ _ _ _ _ _ _ [W1 W2]] Hkm. cbv zeta.
  assert (is_u32 (CoreHandshake.orZ (CoreHandshake.MSS dc) 1500)) as Um by (apply orZ_cases; [unfold is_u32; lia|done]).
  assert (is_u32 (CoreHandshake.orZ (CoreHandshake.FC dc) 8192)) as Uf by (apply orZ_cases; [unfold is_u32; lia|done]).
  assert (forall x, is_u16 x -> is_u16 (CoreHandshake.orZ x 120)) as Ul by (intros; apply orZ_cases; [unfold is_u16; lia|done]).
  destruct (Dial_waits rand dc t0) as (Hw & Hs & H1p). set (c := CoreHandshake.Dial rand dc t0) in *. clearbody c.
  destruct (induction_sent _ _ _ _ I1 I2 Um Uf) as ([P1 P2] & hs1 & D1 & K1 & K2 & K3 & K4 & K5).
  destruct (induction_answered hs1 (Listener.cookie l peer)) as (Hh2 & r & D2 & R1 & R2 & R3 & R4);
    [by rewrite K2|by rewrite K3|by rewrite K4|apply cookie_u32|].
  set (r1 := Handshake.BuildInductionResponse hs1 (Listener.cookie l peer) None None 0) in *.
  destruct (caller_concludes t2 r1 r _ c Hw Hh2 D2 R1 R2 R3 V1) as (c0 & Hw0 & Hp0 & Ec). rewrite R4 in Hw0, Ec.
  set (d := (CoreHandshake.dialOf dc) <| Dial.cookie := Listener.cookie l peer |>) in *.
  pose proof (conclusion_sent (CoreHandshake.CallerSocketID dc) (CoreHandshake.CallerISN dc) (Dial.mss d) (Dial.fc d)
    (Listener.cookie l peer) (CoreHandshake.StreamID dc) (Dial.recvLatMS d) (Dial.sendLatMS d) (CoreHandshake.srtFlags d)
    (CoreHandshake.orLive (CoreHandshake.Congestion dc)) (CoreHandshake.FilterConfig dc) _ I1 I2 Um Uf (cookie_u32 l peer)
    (features_u32 _ _ _ _ _) (Ul _ L1) (Ul _ L2) S1 S2 (orLive_text _ T1) T2 Hkm) as (Hh3 & hs2 & D3 & C).
  eexists _, r1, (Listener.reply peer r1 l), _, _, hs2. split; [exact Hs|]. split; [|split; [by apply lastReply_reply|]].
  { unfold Listener.HandlePacket. unfold Seq.Value. rewrite P1, P2, D1, K1. reflexivity. }
  split; [exact Ec|]. destruct Hw0 as [A1 A2 A3 A4 A5 A6 [A7 A8] A9].
  assert (Dial.groupID d = 0) as Eg by exact V2.
  split; [unfold CoreHandshake.sendConclusion, CoreHandshake.retry, send, arm, out; constructor; fields; try done;
    split; [by apply Fifo.push_wf, Fifo.push_wf|done]|].
  split; [unfold CoreHandshake.sendConclusion; rewrite lastSent_retry by done; reflexivity|].
  split; [|split; [|split; [|split; [|exact C]]]].
  - unfold isHandshake in *. rewrite Eg. exact Hh3.
  - exists (Fifo.push (Listener.outputs l) (Listener.mkSendTo peer r1)). split; [reflexivity|by apply Fifo.push_wf].
  - split; [|split; [done|by exists hs1]]. unfold CoreHandshake.sendConclusion. rewrite packets_retry by done. rewrite Hp0.
    unfold lastSent in Hs. fold (packets c) in Hs. destruct (packets c) as [|x [|]]; try discriminate H1p. cbn in Hs. injection Hs as ->. reflexivity.
  - rewrite Eg. exact D3.
Qed.

(** The ranges of what a caller offers. *)
Lemma dial_ranges dc l peer :
  compatible dc l peer ->
  let d := (CoreHandshake.dialOf dc) <| Dial.cookie := Listener.cookie l peer |> in
  (76 <= Dial.mss d /\ is_u32 (Dial.mss d)) /\ (2 <= Dial.fc d /\ is_u32 (Dial.fc d)) /\
  1 <= Dial.recvLatMS d < 2 ^ 16 /\ 1 <= Dial.sendLatMS d < 2 ^ 16.
Proof.
  intros [_ _ [Ms1 Ms2] [F1 F2] [L1 L2] _ _ _ _ _ _ _ _ _ _]. cbv zeta. set (d := _ <| Dial.cookie := _ |>).
  change (Dial.mss d) with (CoreHandshake.orZ (CoreHandshake.MSS dc) 1500).
  change (Dial.fc d) with (CoreHandshake.orZ (CoreHandshake.FC dc) 8192).
  change (Dial.recvLatMS d) with (CoreHandshake.orZ (CoreHandshake.RecvLatencyMS dc) 120).
  change (Dial.sendLatMS d) with (CoreHandshake.orZ (CoreHandshake.SendLatencyMS dc) 120).
  unfold is_u32, is_u16 in *. split_and!; apply orZ_cases; lia.
Qed.

(** The second half: the listener accepts the conclusion and its answer is one the
    caller takes. *)
Lemma second_half dc l q peer p hs t ctxl key :
  compatible dc l peer ->
  let d := (CoreHandshake.dialOf dc) <| Dial.cookie := Listener.cookie l peer |> in
  let kml := marshalled ctxl (LC.Passphrase (Listener.cfg l)) key in
  isHandshake p -> HS_UnmarshalCIF zeroHS (Data p) = Ok hs ->
  concludes hs (CoreHandshake.CallerISN dc) (Dial.mss d) (Dial.fc d) (CoreHandshake.CallerSocketID dc) (Listener.cookie l peer)
      (Handshake.orDefaultFlags (CoreHandshake.srtFlags d)) (Dial.recvLatMS d) (Dial.sendLatMS d) (CoreHandshake.StreamID dc)
      (CoreHandshake.orLive (CoreHandshake.Congestion dc)) (CoreHandshake.FilterConfig dc)
      (marshalled (CoreHandshake.CryptoCtx dc) (CoreHandshake.Passphrase dc) Packet.EncryptionEven) ->
  Listener.negotiateCrypto hs l = Ok (ctxl, key) -> KM_fine kml -> Fifo.wf q ->
  let l1 := l <| Listener.outputs := q |> in
  let l' := Listener.HandlePacket t p peer l1 in
  exists r2 hs4 a,
    lastReply l' = Some (Listener.mkSendTo peer r2) /\ isHandshake r2 /\ HS_UnmarshalCIF zeroHS (Data r2) = Ok hs4 /\
    last (Fifo.contents (Listener.events l')) =
      Some (Listener.mkAccepted (Establish.establish t (Listener.acceptParams hs a (Listener.cfg l)) (zeroConn (Listener.connRand l peer)))
            peer (Listener.socketID a) (CoreHandshake.StreamID dc) 0 0 0 (CoreHandshake.CallerISN dc)) /\
    concludes hs4 (CoreHandshake.CallerISN dc) (Z.min (LC.MSS (Listener.cfg l)) (Dial.mss d)) (Dial.fc d) (Listener.socketID a) 0
      (Handshake.orDefaultFlags (Listener.srtFlags (CoreHandshake.isSome ctxl) l))
      (Listener.recvLat a) (Listener.sendLat a) []
      (CoreHandshake.orLive (CoreHandshake.Congestion dc)) (Listener.filterCfg a) kml /\
    Listener.isn a = CoreHandshake.CallerISN dc /\ Listener.mss a = Z.min (LC.MSS (Listener.cfg l)) (Dial.mss d) /\
    Listener.fc a = Dial.fc d /\ Listener.recvLat a = Z.max (LC.RecvLatencyMS (Listener.cfg l)) (Dial.sendLatMS d) /\
    Listener.sendLat a = Z.max (LC.SendLatencyMS (Listener.cfg l)) (Dial.recvLatMS d) /\ Listener.cryptoCtx a = ctxl /\
    Listener.filterCfg a = match CoreHandshake.FilterConfig dc with [] => LC.FilterConfig (Listener.cfg l) | _ => CoreHandshake.FilterConfig dc end.
Proof.
  intros Hcp. cbv zeta. pose proof (dial_ranges dc l peer Hcp) as R. cbv zeta in R.
  destruct Hcp as [_ [I1 I2] _ _ _ _ [T1 T2] Lm [Ll1 Ll2] Lt [Lc Lv] Hn Hg He [W1 W2]].
  set (d := (CoreHandshake.dialOf dc) <| Dial.cookie := Listener.cookie l peer |>) in *. clearbody d.
  destruct R as ([Dm Dm'] & [Df Df'] & Dr & Ds). intros Hh Hd Hc Hneg Hkm Wq. set (l1 := l <| Listener.outputs := q |>).
  destruct (listener_accepts t p hs peer l1 _ _ _ _ _ _ _ _ _ _ _ ctxl key Hh Hd Hc Dm Hn Hg) as [B1 B2];
    [change (Listener.cfg l1) with (Listener.cfg l); by rewrite Lc|exact Hneg|exact Wq|exact W2|].
  change (Listener.cfg l1) with (Listener.cfg l) in B1, B2. change (Listener.entropy l1) with (Listener.entropy l) in B1, B2.
  change (Listener.calls l1) with (Listener.calls l) in B1, B2. rewrite (response_config l) in B1 by done.
  set (a := Listener.mkAcc _ _ _ _ _ _ _ _ _ _ _ _) in *.
  destruct (conclusion_answered (Listener.socketID a) (Listener.isn a) (Listener.mss a) (Listener.fc a) (CoreHandshake.CallerSocketID dc)
    (Listener.recvLat a) (Listener.sendLat a) (Listener.srtFlags (CoreHandshake.isSome ctxl) l) (LC.Congestion (Listener.cfg l)) (Listener.filterCfg a)
    (marshalled ctxl (LC.Passphrase (Listener.cfg l)) key)) as (Hh4 & hs4 & D4 & C4).
  { apply lor1_u32, Uint32_range, He. } { done. } { unfold a, is_u32 in *; cbn; lia. } { done. } { apply features_u32. }
  { unfold a, is_u16; cbn; lia. } { unfold a, is_u16; cbn; lia. } { rewrite Lc. by apply orLive_text. }
  { unfold a; cbn. by destruct (CoreHandshake.FilterConfig dc). } { done. }
  eexists _, hs4, a. split; [exact B1|]. split; [exact Hh4|]. split; [exact D4|]. split; [exact B2|].
  rewrite Lc in C4. split; [exact C4|]. split_and!; reflexivity.
Qed.

(** The two ends read corresponding parameters out of the conclusions. *)
Lemma terms_meet dc l peer hs2 hs4 a ctxl key c0 t3 t4 :
  compatible dc l peer ->
  let d := (CoreHandshake.dialOf dc) <| Dial.cookie := Listener.cookie l peer |> in
  let d' := d <| Dial.mss := Z.min (Dial.mss d) (Cif.MaxTransmissionUnitSize hs4) |> in
  let c := Establish.establish t4 (CoreHandshake.concludeParams hs4 d') c0 in
  let b := Establish.establish t3 (Listener.acceptParams hs2 a (Listener.cfg l)) (zeroConn (Listener.connRand l peer)) in
  concludes hs2 (CoreHandshake.CallerISN dc) (Dial.mss d) (Dial.fc d) (CoreHandshake.CallerSocketID dc) (Listener.cookie l peer)
      (Handshake.orDefaultFlags (CoreHandshake.srtFlags d)) (Dial.recvLatMS d) (Dial.sendLatMS d) (CoreHandshake.StreamID dc)
      (CoreHandshake.orLive (CoreHandshake.Congestion dc)) (CoreHandshake.FilterConfig dc)
      (marshalled (CoreHandshake.CryptoCtx dc) (CoreHandshake.Passphrase dc) Packet.EncryptionEven) ->
  concludes hs4 (CoreHandshake.CallerISN dc) (Z.min (LC.MSS (Listener.cfg l)) (Dial.mss d)) (Dial.fc d) (Listener.socketID a) 0
      (Handshake.orDefaultFlags (Listener.srtFlags (CoreHandshake.isSome ctxl) l))
      (Listener.recvLat a) (Listener.sendLat a) []
      (CoreHandshake.orLive (CoreHandshake.Congestion dc)) (Listener.filterCfg a)
      (marshalled ctxl (LC.Passphrase (Listener.cfg l)) key) ->
  Listener.isn a = CoreHandshake.CallerISN dc -> Listener.mss a = Z.min (LC.MSS (Listener.cfg l)) (Dial.mss d) ->
  Listener.fc a = Dial.fc d -> Listener.recvLat a = Z.max (LC.RecvLatencyMS (Listener.cfg l)) (Dial.sendLatMS d) ->
  Listener.sendLat a = Z.max (LC.SendLatencyMS (Listener.cfg l)) (Dial.recvLatMS d) -> Listener.cryptoCtx a = ctxl ->
  Listener.filterCfg a = match CoreHandshake.FilterConfig dc with [] => LC.FilterConfig (Listener.cfg l) | _ => CoreHandshake.FilterConfig dc end ->
  readable (CoreHandshake.CryptoCtx dc) ctxl -> readable ctxl (CoreHandshake.CryptoCtx dc) ->
  negotiatedLatency c0 = 0 -> negotiatedPeerLatency c0 = 0 -> cryptoCtx c0 = None -> fecSender c0 = None ->
  state c = stateConnected /\ state b = stateConnected /\ ConnState.peerSocketID c = Listener.socketID a /\
  ConnState.peerSocketID b = CoreHandshake.CallerSocketID dc /\ mirrored c b /\ events c = events c0.
Proof.
  intros Hcp. cbv zeta. pose proof (dial_ranges dc l peer Hcp) as R. cbv zeta in R. set (d := _ <| Dial.cookie := _ |>) in *.
  destruct R as ([Dm Dm'] & [Df Df'] & Dr & Ds). destruct Hcp as [_ _ _ _ _ _ _ Lm [Ll1 Ll2] _ [_ Lv] _ _ _ _].
  set (d' := d <| Dial.mss := _ |>). intros H2 H4 a1 a2 a3 a4 a5 a6 a7 R1 R2 N1 N2 N3 N4.
  destruct (caller_params hs4 d' _ (cl_hs _ _ _ _ _ _ _ _ _ _ _ _ _ H4)) as (Y1 & Y2 & Y3 & Y4 & Y5 & Y6 & Y7 & Y8 & Y9 & Y10 & Y11 & Y12).
  destruct (listener_params hs2 a (Listener.cfg l) _ (cl_hs _ _ _ _ _ _ _ _ _ _ _ _ _ H2)) as (Z1 & Z2 & Z3 & Z4 & Z5 & Z6 & Z7 & Z8 & Z9 & Z10 & Z11 & Z12).
  set (epc := CoreHandshake.concludeParams hs4 d') in *. set (epl := Listener.acceptParams hs2 a (Listener.cfg l)) in *. clearbody epc epl.
  destruct H2 as [_ _ X3 _ _ X6 _ _ _ _ _ _ _ _]. destruct H4 as [_ _ U3 U4 U5 U6 _ _ _ _ _ _ [U14 U15] _].
  change (Dial.recvLatMS d') with (Dial.recvLatMS d) in *. change (Dial.sendLatMS d') with (Dial.sendLatMS d) in *.
  change (Dial.fc d') with (Dial.fc d) in *. change (Dial.live d') with (CoreHandshake.Live dc) in *.
  change (Dial.isn d') with (CoreHandshake.CallerISN dc) in *. change (Dial.cryptoCtx d') with (CoreHandshake.CryptoCtx dc) in *.
  change (Dial.filterCfg d') with (CoreHandshake.FilterConfig dc) in *. cbn [Cif.SendTSBPDDelay Cif.RecvTSBPDDelay Cif.SRTVersion] in *.
  assert (Dial.mss d' = Listener.mss a) as Em by (unfold d'; fields; rewrite U4, a2; lia).
  assert (EP.FilterConfig epc = EP.FilterConfig epl) as Ef.
  { rewrite Y12, Z12, U14, U15, a7. destruct (CoreHandshake.FilterConfig dc); [|done]. by destruct (LC.FilterConfig (Listener.cfg l)). }
  destruct (establish_equips t4 epc c0 N3 N4) as (_ & _ & _ & Ee); [right; rewrite Y11; by vm_compute|].
  destruct (establish_terms t4 epc c0 N1 N2) as [G1 _ _ _ _ _ _].
  destruct (establish_terms t3 epl (zeroConn (Listener.connRand l peer)) eq_refl eq_refl) as [G2 _ _ _ _ _ _].
  split; [apply establish_state|]. split; [apply establish_state|]. split; [congruence|]. split; [congruence|]. split; [|done].
  apply (mirror epc epl _ _ t4 t3 c0 (zeroConn (Listener.connRand l peer)) (Dial.payloadSize d') (LC.PayloadSize (Listener.cfg l)));
    try done; try congruence; lia.
Qed.

Lemma exchange_runs t1 t2 t3 t4 peer c l p1 r1 l1 c1 p2 r2 :
  lastSent c = Some p1 -> Listener.HandlePacket t1 p1 peer l = l1 -> lastReply l1 = Some (Listener.mkSendTo peer r1) ->
  ConnCore.HandlePacket t2 r1 c = c1 -> lastSent c1 = Some p2 ->
  lastReply (Listener.HandlePacket t3 p2 peer l1) = Some (Listener.mkSendTo peer r2) ->
  exchange t1 t2 t3 t4 peer c l = Some (ConnCore.HandlePacket t4 r2 c1, Listener.HandlePacket t3 p2 peer l1).
Proof.
  intros A1 A2 A3 A4 A5 A6. unfold exchange. rewrite A1. cbn [mbind option_bind]. rewrite A2, A3. cbn [mbind option_bind].
  change (Listener.to_Packet (Listener.mkSendTo peer r1)) with r1. rewrite A4, A5. cbn [mbind option_bind]. rewrite A6. done.
Qed.

(** A handshake packet that does no harm to a connection that is past it. *)
Definition harmless (p : Packet) : Prop :=
  isHandshake p /\ exists hs, HS_UnmarshalCIF zeroHS (Data p) = Ok hs /\ Cif.IsRejection (Cif.HandshakeType hs) = false.

(** What the exchange comes to: the caller establishes itself from the conclusion
    [hs4], the listener made its end from [hs2], and nothing else of the caller is in
    use. *)
Lemma exchange_ends (rand : nat -> option (list Z)) (dc : CoreHandshake.DialConfig) (l : Listener.Listener)
    (peer : list Z) (t0 t1 t2 t3 t4 : Z) :
  compatible dc l peer -> keying dc l ->
  let d := (CoreHandshake.dialOf dc) <| Dial.cookie := Listener.cookie l peer |> in
  exists c0 hs2 hs4 a ctxl key l',
    let d' := d <| Dial.mss := Z.min (Dial.mss d) (Cif.MaxTransmissionUnitSize hs4) |> in
    exchange t1 t2 t3 t4 peer (CoreHandshake.Dial rand dc t0) l =
      Some (event (Output.Connected (Cif.SRTSocketID hs4)) ((Establish.establish t4 (CoreHandshake.concludeParams hs4 d') c0) <| dial := None |>), l') /\
    last (Fifo.contents (Listener.events l')) =
      Some (Listener.mkAccepted (Establish.establish t3 (Listener.acceptParams hs2 a (Listener.cfg l)) (zeroConn (Listener.connRand l peer)))
            peer (Listener.socketID a) (CoreHandshake.StreamID dc) 0 0 0 (CoreHandshake.CallerISN dc)) /\
    concludes hs2 (CoreHandshake.CallerISN dc) (Dial.mss d) (Dial.fc d) (CoreHandshake.CallerSocketID dc) (Listener.cookie l peer)
      (Handshake.orDefaultFlags (CoreHandshake.srtFlags d)) (Dial.recvLatMS d) (Dial.sendLatMS d) (CoreHandshake.StreamID dc)
      (CoreHandshake.orLive (CoreHandshake.Congestion dc)) (CoreHandshake.FilterConfig dc)
      (marshalled (CoreHandshake.CryptoCtx dc) (CoreHandshake.Passphrase dc) Packet.EncryptionEven) /\
    concludes hs4 (CoreHandshake.CallerISN dc) (Z.min (LC.MSS (Listener.cfg l)) (Dial.mss d)) (Dial.fc d) (Listener.socketID a) 0
      (Handshake.orDefaultFlags (Listener.srtFlags (CoreHandshake.isSome ctxl) l))
      (Listener.recvLat a) (Listener.sendLat a) []
      (CoreHandshake.orLive (CoreHandshake.Congestion dc)) (Listener.filterCfg a)
      (marshalled ctxl (LC.Passphrase (Listener.cfg l)) key) /\
    (Listener.isn a = CoreHandshake.CallerISN dc /\ Listener.mss a = Z.min (LC.MSS (Listener.cfg l)) (Dial.mss d) /\
     Listener.fc a = Dial.fc d /\ Listener.recvLat a = Z.max (LC.RecvLatencyMS (Listener.cfg l)) (Dial.sendLatMS d) /\
     Listener.sendLat a = Z.max (LC.SendLatencyMS (Listener.cfg l)) (Dial.recvLatMS d) /\ Listener.cryptoCtx a = ctxl /\
     Listener.filterCfg a = match CoreHandshake.FilterConfig dc with [] => LC.FilterConfig (Listener.cfg l) | _ => CoreHandshake.FilterConfig dc end) /\
    (readable (CoreHandshake.CryptoCtx dc) ctxl /\ readable ctxl (CoreHandshake.CryptoCtx dc)) /\
    (negotiatedLatency c0 = 0 /\ negotiatedPeerLatency c0 = 0 /\ cryptoCtx c0 = None /\ fecSender c0 = None /\ Fifo.wf (events c0)) /\
    idle c0 /\ rdv c0 = None /\ Fifo.wf (outputs c0) /\ Forall harmless (packets c0).
Proof.
  intros Hcp Hk. cbv zeta. destruct (keyed dc l Hk) as (ctxl & key & Q1 & Q2 & Q3 & Q4 & Q5 & Q6).
  destruct (first_half rand dc l peer t0 t1 t2 Hcp Q1) as (p1 & r1 & l1 & c1 & p2 & hs2 & A1 & A2 & A3 & A4 & A5 & A6 & A7 & A8 & (Ap & Ah & hs1 & Ad & At) & A9 & A10).
  set (d := (CoreHandshake.dialOf dc) <| Dial.cookie := Listener.cookie l peer |>) in *.
  destruct A8 as (q & El & Wq). rewrite El in A2, A3.
  destruct (second_half dc l q peer p2 hs2 t3 ctxl key Hcp A7 A9 A10 (Q4 hs2 (cl_haskm _ _ _ _ _ _ _ _ _ _ _ _ _ A10)
    (cl_km _ _ _ _ _ _ _ _ _ _ _ _ _ A10)) Q2 Wq) as (r2 & hs4 & a & B1 & B2 & B3 & B4 & C4 & Ha).
  destruct (dial_ranges dc l peer Hcp) as ([Dm Dm'] & [Df Df'] & Dr & Ds).
  pose proof Hcp as [[V1 V2] [I1 I2] _ _ _ _ _ Lm _ _ _ _ _ _ _]. fold d in Dm, Dm', Df, Df', Dr, Ds, B4, C4, Ha.
  destruct (caller_connects t4 r2 hs4 d c1) as (c0 & N1 & N2 & N3 & N4 & N5 & (Ni & Nr & Nw & Np) & EC); try done.
  { apply C4. }
  { unfold CoreHandshake.refuseConclusion. cbv zeta. destruct C4 as [_ _ X3 X4 X5 _ _ _ _ _ _ _ _ _]. rewrite X3, X4, X5.
    change (Dial.isn d) with (CoreHandshake.CallerISN dc). unfold Seq.Value, Seq.Max. rewrite Z.eqb_refl, andb_false_r.
    destruct (Z.gtb_spec (CoreHandshake.CallerISN dc) 2147483647); [unfold Seq.is_seq in I2; lia|].
    destruct (Z.ltb_spec (Dial.fc d) 2); [lia|]. destruct (Z.ltb_spec (Z.min (LC.MSS (Listener.cfg l)) (Dial.mss d)) 76); [lia|done]. }
  { destruct C4 as [_ _ _ _ _ _ _ _ _ _ _ [X12 X13] _ _]. unfold CoreHandshake.matchingCongestion, Establish.same.
    rewrite X12, X13. apply bool_decide_eq_true_2. change (Dial.cong d) with (CoreHandshake.orLive (CoreHandshake.Congestion dc)).
    by rewrite !orLive_again. }
  { rewrite (cl_haskm _ _ _ _ _ _ _ _ _ _ _ _ _ C4). exact Q3. }
  exists c0, hs2, hs4, a, ctxl, key, (Listener.HandlePacket t3 p2 peer (l <| Listener.outputs := q |>)). rewrite <- EC.
  split; [exact (exchange_runs _ _ _ _ _ _ _ _ _ _ _ _ _ A1 A2 A3 A4 A6 B1)|]. split; [exact B4|]. split; [exact A10|]. split; [exact C4|].
  split; [exact Ha|]. split; [done|]. split; [done|]. split; [done|]. split; [done|]. split; [done|]. rewrite Np, Ap.
  constructor; [|constructor; [|constructor]]; (split; [done|]).
  - exists hs1. split; [done|]. by rewrite At.
  - exists hs2. split; [done|]. by rewrite (cl_type _ _ _ _ _ _ _ _ _ _ _ _ _ A10).
Qed.

(** C7. The four packets of the handshake bring both ends to agreement: whatever
    the times, a compatible caller and listener end up connected to each other,
    the caller is reported with its stream id, and the terms mirror each other:
    sequence numbers, MSS, flow window, crossed latencies, payloads that fit the
    MSS, a filter at both ends or at neither, with the same ARQ level, and keys with
    which each end decrypts the other. *)
Theorem handshake_agreement (rand : nat -> option (list Z)) (dc : CoreHandshake.DialConfig) (l : Listener.Listener)
    (peer : list Z) (t0 t1 t2 t3 t4 : Z) :
  compatible dc l peer -> keying dc l ->
  exists c l' acc,
    exchange t1 t2 t3 t4 peer (CoreHandshake.Dial rand dc t0) l = Some (c, l') /\
    last (seen c) = Some (Output.Connected (Listener.a_SocketID acc)) /\
    last (Fifo.contents (Listener.events l')) = Some acc /\
    Listener.a_Peer acc = peer /\ Listener.a_StreamID acc = CoreHandshake.StreamID dc /\
    state c = stateConnected /\ state (Listener.a_Conn acc) = stateConnected /\
    ConnState.peerSocketID c = Listener.a_SocketID acc /\
    ConnState.peerSocketID (Listener.a_Conn acc) = CoreHandshake.CallerSocketID dc /\
    mirrored c (Listener.a_Conn acc).
Proof.
  intros Hcp Hk. destruct (exchange_ends rand dc l peer t0 t1 t2 t3 t4 Hcp Hk) as (c0 & hs2 & hs4 & a & ctxl & key & l' & E1 & E2 & C2 & C4 &
    (a1 & a2 & a3 & a4 & a5 & a6 & a7) & [Q5 Q6] & (N1 & N2 & N3 & N4 & N5) & _).
  destruct (terms_meet dc l peer hs2 hs4 a ctxl key c0 t3 t4 Hcp C2 C4 a1 a2 a3 a4 a5 a6 a7 Q5 Q6 N1 N2 N3 N4) as (M1 & M2 & M3 & M4 & M5 & M6).
  eexists _, l', _. split; [exact E1|]. revert M1 M3 M5 M6. generalize (Establish.establish t4 (CoreHandshake.concludeParams hs4
    ((CoreHandshake.dialOf dc) <| Dial.cookie := Listener.cookie l peer |> <| Dial.mss := Z.min (Dial.mss ((CoreHandshake.dialOf dc) <| Dial.cookie := Listener.cookie l peer |>)) (Cif.MaxTransmissionUnitSize hs4) |>)) c0).
  intros c M1 M3 M5 M6. split; [|split; [exact E2|]].
  - unfold seen, event. fields. rewrite M6, Fifo.push_contents by done. rewrite last_snoc. by rewrite (cl_id _ _ _ _ _ _ _ _ _ _ _ _ _ C4).
  - clear - M1 M2 M3 M4 M5. cbn [Listener.a_Conn Listener.a_SocketID Listener.a_Peer Listener.a_StreamID]. unfold event. fields.
    split_and!; try done. destruct M5 as [O1 O2 O3 O4 O5 O6 O7]. by constructor; fields.
Qed.

End Exchange.

(** ** A concrete handshake *)

#[local] Existing Instances Crypto.toy Crypto.toy_laws Float64.toyMath ConnRecv.toyRange.

Definition toyCaller : CoreHandshake.DialConfig :=
  CoreHandshake.mkDialConfig 77 1000 1400 0 80 0 [] [115; 49] [] (Some Crypto.toyCtx) [1] 0 0 false 0 0 0 0 0 0 0 0 true false
    true 0 0 false 0 false 0 0 0.
Definition toyListening : Listener.Listener :=
  Listener.NewListener (LC.mkLC 1500 200 0 [] true false true 0 0 false 0 0 0 0 0 0 0 0 0 [1] 16 0 false 0 0 []) 99
    (fun _ => [0; 0; 1; 2]) (Some (fun _ _ => Some Crypto.toyPeer)) (fun _ _ => None).

Lemma toy_compatible : compatible toyCaller toyListening [10; 0; 0; 1].
Proof.
  constructor; try solve [apply text_nil | split; apply text_nil | vm_compute; intuition (congruence || lia)].
  intros n. apply (bool_decide_unpack _). vm_compute. exact I.
Qed.

Lemma toy_keying : keying toyCaller toyListening.
Proof.
  destruct Crypto.toyCtx_ok as [Hb Hs]. eapply (encrypted _ _ Crypto.toyCtx (fun _ _ => Some Crypto.toyPeer) Crypto.toyPeer);
    try reflexivity; try done.
  destruct Hs as [[[E|E] _]|(_ & H & _)]; [discriminate E..|exact H].
Qed.

Lemma handshake_agreement_witness :
  exists c l' acc,
    exchange 2 3 4 5 [10; 0; 0; 1] (CoreHandshake.Dial (fun _ => None) toyCaller 1) toyListening = Some (c, l') /\
    last (Fifo.contents (Listener.events l')) = Some acc /\ Listener.a_StreamID acc = [115; 49] /\
    state c = stateConnected /\ mirrored c (Listener.a_Conn acc).
Proof.
  destruct (handshake_agreement (fun _ => None) toyCaller toyListening [10; 0; 0; 1] 1 2 3 4 5 toy_compatible toy_keying)
    as (c & l' & acc & H1 & _ & H3 & _ & H5 & H6 & _ & _ & _ & H10).
  exists c, l', acc. exact (conj H1 (conj H3 (conj H5 (conj H6 H10)))).
Defined.

End Agreement.
