(* ===== verification/StreamDial.v ===== *)
(** * From the handshake to the last byte ([internal/core])

    The handshake of Agreement joined to the transfer of Stream: a caller dials, the
    four packets are exchanged, and the two connections that come out of it carry
    the streams of both applications. *)
From Stdlib Require Import ZArith Lia.
From stdpp Require Import base numbers list option gmap relations.
From S2P Require Import Prelude Seq Packet Cif Clock Ring SendBuffer RecvBuffer Fifo Output Crypto Float64 Handshake ConnState ConnSend ConnRecv Establish CoreHandshake ConnCore Sender StreamSend StreamRecv StreamEnd Stream Listener Agreement.
Import Packet(Packet, Hdr, Data).
Import ConnState.
Import StreamEnd.
Import Stream.
Local Open Scope Z_scope.

Module StreamDial.

(** A caller and a listener in stream mode, without encryption or filter, whose
    windows and buffers are at most a quarter of the sequence numbers. *)
Record plainLink (dc : CoreHandshake.DialConfig) (l : Listener.Listener) : Prop := mkPlainLink {
  pl_key : CoreHandshake.CryptoCtx dc = None /\ LC.Passphrase (Listener.cfg l) = [];
  pl_filter : CoreHandshake.FilterConfig dc = [] /\ LC.FilterConfig (Listener.cfg l) = [];
  pl_live : CoreHandshake.Live dc = false;
  pl_message : CoreHandshake.Message dc = false /\ LC.Message (Listener.cfg l) = false;
  pl_fc : CoreHandshake.FC dc <= 2 ^ 29;
  pl_caller : CoreHandshake.BufferCapacity dc <= 2 ^ 29 /\ CoreHandshake.SendBufCapacity dc <= 2 ^ 29 /\ CoreHandshake.RecvBufCapacity dc <= 2 ^ 29;
  pl_listener : LC.BufferCapacity (Listener.cfg l) <= 2 ^ 29 /\ LC.SendBufCapacity (Listener.cfg l) <= 2 ^ 29 /\
    LC.RecvBufCapacity (Listener.cfg l) <= 2 ^ 29
}.

(** An end whose connection has just come out of the handshake. *)
Definition begins (c : Conn) : End := mkEndpoint c [] [] [] [].

Lemma capacity_bounded ep own : EP.FlowWindow ep <= 2 ^ 29 -> EP.BufferCapacity ep <= 2 ^ 29 -> own <= 2 ^ 29 ->
  Establish.capacityOf ep own <= 2 ^ 29.
Proof.
  intros H1 H2 H3. unfold Establish.capacityOf, Establish.flowWindowOf. cbv zeta.
  destruct (EP.FlowWindow ep <=? 0), (own <=? 0), (EP.BufferCapacity ep <=? 0); destruct (_ >? _); lia.
Qed.

Lemma packets_wire c : Agreement.packets c = StreamSend.wire c.
Proof. done. Qed.

(** The caller is unused up to the moment it establishes itself. *)
Lemma idle_unused isn risn c : Agreement.idle c -> cryptoCtx c = None -> fecSender c = None -> rdv c = None -> Fifo.wf (outputs c) ->
  Forall Agreement.harmless (Agreement.packets c) -> unused isn risn c.
Proof.
  intros ((I1 & I2) & (I3 & I4 & I5) & (I6 & I7) & I8 & I9) Hc Hf Hr Hw Hp. constructor.
  - unfold StreamSend.reliable. fields. split_and!; try done. lia.
  - done.
  - rewrite I9. split; [unfold Fifo.wf; cbn; lia|done].
  - done.
  - rewrite <- packets_wire. eapply list.Forall_impl; [exact Hp|]. intros p [[Hh1 Hh2] Hhs]. right. split; [done|]. tauto.
Qed.

Section Dialled.
Context {P : Crypto.Primitives} {M : Float64.GoMath} {O : ConnRecv.RangeOrder} {L : Crypto.PrimitiveLaws}.

(** The two ends of the handshake start a transfer. *)
Lemma exchange_inv rand dc l peer t0 t1 t2 t3 t4 c l' acc :
  Agreement.compatible dc l peer -> plainLink dc l ->
  Agreement.exchange t1 t2 t3 t4 peer (CoreHandshake.Dial rand dc t0) l = Some (c, l') ->
  last (Fifo.contents (Listener.events l')) = Some acc ->
  exists ka kb, inv (CoreHandshake.CallerISN dc) (CoreHandshake.CallerISN dc) ka kb (begins c) (begins (Listener.a_Conn acc)).
Proof.
  intros Hcp [[K1 K2] [F1 F2] Lv [Mc Ml] Fc (C1 & C2 & C3) (D1 & D2 & D3)] Ex La.
  destruct (Agreement.exchange_ends rand dc l peer t0 t1 t2 t3 t4 Hcp (Agreement.plain dc l K1 K2))
    as (c0 & hs2 & hs4 & a & ctxl & key & l2 & E1 & E2 & H2 & H4 & (a1 & _ & a3 & _ & _ & a6 & a7) & [Q1 _] & (_ & _ & N3 & N4 & _) & Ni & Nr & Nw & Np).
  rewrite Ex in E1. injection E1 as -> ->. rewrite La in E2. injection E2 as ->. cbn [Listener.a_Conn].
  set (d := (CoreHandshake.dialOf dc) <| Dial.cookie := Listener.cookie l peer |>) in *. set (d' := d <| Dial.mss := _ |>).
  rewrite K1 in Q1. destruct ctxl as [|]; [done|]. rewrite F1, F2 in a7.
  pose proof Hcp as [_ [_ Hisn] _ _ _ _ _ _ _ _ [_ Llv] _ _ _ _].
  assert (Dial.fc d <= 2 ^ 29) as Fd by (change (Dial.fc d) with (CoreHandshake.orZ (CoreHandshake.FC dc) 8192); unfold CoreHandshake.orZ; destruct (_ =? 0); lia).
  pose proof (Agreement.cl_isn _ _ _ _ _ _ _ _ _ _ _ _ _ H2) as I2. pose proof (Agreement.cl_isn _ _ _ _ _ _ _ _ _ _ _ _ _ H4) as I4.
  pose proof (Agreement.cl_filter _ _ _ _ _ _ _ _ _ _ _ _ _ H4) as [Fl4 _]. rewrite a7 in Fl4.
  set (epc := CoreHandshake.concludeParams hs4 d'). set (epl := Listener.acceptParams hs2 a (Listener.cfg l)).
  destruct (Agreement.caller_params hs4 d' _ (Agreement.cl_hs _ _ _ _ _ _ _ _ _ _ _ _ _ H4)) as (_ & Y2 & Y3 & _ & Y5 & _ & Y7 & _ & _ & Y10 & _ & Y12).
  destruct (Agreement.listener_params hs2 a (Listener.cfg l) _ (Agreement.cl_hs _ _ _ _ _ _ _ _ _ _ _ _ _ H2)) as (_ & Z2 & Z3 & _ & Z5 & _ & Z7 & _ & _ & Z10 & _ & Z12).
  fold epc in Y2, Y3, Y5, Y7, Y10, Y12. fold epl in Z2, Z3, Z5, Z7, Z10, Z12. rewrite Fl4 in Y12.
  assert (EP.Message epc = CoreHandshake.Message dc /\ EP.BufferCapacity epc = CoreHandshake.BufferCapacity dc /\
    EP.SendBufCapacity epc = CoreHandshake.SendBufCapacity dc /\ EP.RecvBufCapacity epc = CoreHandshake.RecvBufCapacity dc) as (Y20 & Y21 & Y22 & Y23).
  { unfold epc, CoreHandshake.concludeParams. rewrite (Agreement.cl_hs _ _ _ _ _ _ _ _ _ _ _ _ _ H4). done. }
  assert (EP.Message epl = LC.Message (Listener.cfg l) /\ EP.BufferCapacity epl = LC.BufferCapacity (Listener.cfg l) /\
    EP.SendBufCapacity epl = LC.SendBufCapacity (Listener.cfg l) /\ EP.RecvBufCapacity epl = LC.RecvBufCapacity (Listener.cfg l)) as (Z20 & Z21 & Z22 & Z23) by done.
  clearbody epc epl. change (Dial.isn d') with (CoreHandshake.CallerISN dc) in Y2. change (Dial.fc d') with (Dial.fc d) in Y5.
  change (Dial.live d') with (CoreHandshake.Live dc) in Y7. change (Dial.cryptoCtx d') with (CoreHandshake.CryptoCtx dc) in Y10.
  change (Dial.filterCfg d') with (CoreHandshake.FilterConfig dc) in Y12. clearbody d' d. rewrite I4 in Y3. rewrite I2 in Z3. rewrite a1 in Z2. rewrite a3 in Z5. rewrite a6 in Z10. rewrite a7 in Z12.
  destruct (establish_good t4 epc c0) as (ka & _ & _ & Ha); [split_and!; congruence|by rewrite Y2|by rewrite Y3| | | |].
  { apply capacity_bounded; lia. } { apply capacity_bounded; lia. } { by apply idle_unused. }
  destruct (establish_good t3 epl (zeroConn (Listener.connRand l peer))) as (kb & _ & _ & Hb); [split_and!; congruence|by rewrite Z2|by rewrite Z3| | | |].
  { apply capacity_bounded; lia. } { apply capacity_bounded; lia. } { apply zeroConn_unused. }
  rewrite Y2, Y3 in Ha. rewrite Z2, Z3 in Hb. exists ka, kb, 0%nat, 0%nat. split; (constructor; [|constructor|done]); [|exact Hb].
  cbn [begins conn cut got]. apply end_event; [done|]. apply (end_same (Establish.establish t4 epc c0)); [|exact Ha].
  split; [by unfold StreamSend.reliable; fields|fields; done].
Qed.


End Dialled.

(** ** A concrete call

    The caller dials, writes three bytes in two frames and polls; a left-over
    handshake packet and the second frame arrive first. *)
#[local] Existing Instances Crypto.toy Crypto.toy_laws Float64.toyMath ConnRecv.toyRange.

Definition caller : CoreHandshake.DialConfig :=
  CoreHandshake.mkDialConfig 77 1000 1400 4 80 0 [] [] [] None [] 0 0 false 2 4 0 0 0 0 0 0 false false
    false 0 0 false 0 false 0 0 0.
Definition listening : Listener.Listener :=
  Listener.NewListener (LC.mkLC 1500 200 0 [] false false false 0 0 false 0 0 0 0 0 2 4 0 0 [] 16 0 false 0 0 []) 99
    (fun _ => [0; 0; 1; 2]) None (fun _ _ => None).
Definition from : list Z := [10; 0; 0; 1].

Lemma caller_compatible : Agreement.compatible caller listening from.
Proof.
  constructor; try solve [apply Agreement.text_nil | split; apply Agreement.text_nil | split; [apply Agreement.text_nil|vm_compute; congruence] | vm_compute; intuition (congruence || lia)].
  intros n. apply (bool_decide_unpack _). vm_compute. exact I.
Qed.
Lemma caller_plain : plainLink caller listening.
Proof. constructor; vm_compute; intuition congruence. Qed.

Definition met : Conn * Listener.Listener :=
  default (zeroConn (fun _ => None), listening) (Agreement.exchange 2 3 4 5 from (CoreHandshake.Dial (fun _ => None) caller 1) listening).
Definition handed : Conn :=
  match last (Fifo.contents (Listener.events (snd met))) with Some acc => Listener.a_Conn acc | None => zeroConn (fun _ => None) end.

Definition x1 : End := Nat.iter 14 pollOut (tick 2000000 Output.TimerSndPacing (write 2000 [1; 2; 3] (begins (fst met)))).
Definition y1 : End := Nat.iter 3 pollEvent (arrive 3003 2 (net x1) (arrive 3002 3 (net x1) (arrive 3001 0 (net x1) (begins handed)))).

Lemma call_run : rtc step (begins (fst met), begins handed) (x1, y1).
Proof.
  transitivity (x1, begins handed).
  - apply left_run. etransitivity; [apply (write_run _ 2000 [1; 2; 3]); vm_compute; reflexivity|]. etransitivity; [apply tick_run|apply polls_run].
  - apply right_run. etransitivity; [apply arrive_run|]. etransitivity; [apply arrive_run|]. etransitivity; [apply arrive_run|apply events_run].
Qed.


End StreamDial.
