(* ===== verification/Accepting.v ===== *)
(** * The listener over a whole run ([internal/core/listener.go])

    Whatever packets arrive from whatever addresses, the listener hands a peer
    out once, only for the cookie of that address, answers a packet with at most
    one packet to its sender, and gives the members of a group one send sequence
    space. *)
From Stdlib Require Import ZArith Lia.
From stdpp Require Import base numbers list option gmap.
From S2P Require Import Prelude Seq Packet Cif Fifo Output Crypto Float64 Handshake ConnState ConnSend ConnRecv Establish CoreHandshake ConnCore Listener Agreement.
Import Packet(Packet, Hdr, Data).
Import Listener(Accepted, a_Conn, a_Peer, a_GroupID, a_SharedISN, SendTo, mkSendTo, to_Peer, mkAcc, groupID, isn, reply,
  randUint32, acceptV4, acceptV5, joinGroup, calls, contextV4, askGate, negotiateCrypto, handleConclusion,
  handleConclusionV4, cookie).
Import ConnState(state, stateConnected).
Local Open Scope Z_scope.

Module Accepting.

Section Run.
Context {P : Crypto.Primitives}.

(** A packet from an address, at a time. *)
Record input : Type := mkInput { at_ : Z; packet : Packet; from : list Z }.

Definition feed (l : Listener.Listener) (i : input) : Listener.Listener := Listener.HandlePacket (at_ i) (packet i) (from i) l.
Definition run (l : Listener.Listener) (ins : list input) : Listener.Listener := fold_left feed ins l.

Definition handed (l : Listener.Listener) : list Accepted := Fifo.contents (Listener.events l).
Definition replies (l : Listener.Listener) : list SendTo := Fifo.contents (Listener.outputs l).

(** The input [i] is a conclusion that carries the cookie of its sender. *)
Definition proves (l : Listener.Listener) (i : input) : Prop :=
  exists hs, Cif.HS_UnmarshalCIF Cif.zeroHS (Data (packet i)) = Ok hs /\
    Cif.HandshakeType hs = Cif.HandshakeTypeConclusion /\ Cif.SynCookie hs = Listener.cookie l (from i).

(** What a packet can change. *)
Record same_host (l l' : Listener.Listener) : Prop := mkSameHost {
  sh_secret : Listener.cookieSecret l' = Listener.cookieSecret l;
  sh_groups : forall g n, Listener.groups l !! g = Some n -> Listener.groups l' !! g = Some n
}.

(** At most one answer, to the sender. *)
Definition answers (i : input) (l l' : Listener.Listener) : Prop :=
  Listener.outputs l' = Listener.outputs l \/
  exists p, Listener.outputs l' = Fifo.push (Listener.outputs l) (mkSendTo (from i) p).

Inductive outcome (i : input) (l l' : Listener.Listener) : Prop :=
| refused : same_host l l' -> answers i l l' -> Listener.events l' = Listener.events l ->
    Listener.accepted l' = Listener.accepted l -> outcome i l l'
| accepts a acc : same_host l l' -> answers i l l' -> proves l i -> Listener.accepted l !! from i = None ->
    Listener.events l' = Fifo.push (Listener.events l) acc -> Listener.accepted l' = <[from i := a]> (Listener.accepted l) ->
    a_Peer acc = from i -> state (a_Conn acc) = stateConnected ->
    (a_GroupID acc <> 0 -> Listener.groups l' !! a_GroupID acc = Some (a_SharedISN acc)) -> outcome i l l'.

Lemma same_host_refl l : same_host l l.
Proof. by split. Qed.

Lemma refused_reply i p l : outcome i l (reply (from i) p l).
Proof.
  unfold reply. apply refused; fields; try done. right. exists p. fields. done.
Qed.

Lemma refused_same i l : outcome i l l.
Proof. apply refused; try done. by left. Qed.

Lemma acceptV4_outcome i hs ctx l :
  proves l i -> Listener.accepted l !! from i = None -> outcome i l (acceptV4 (at_ i) (from i) hs ctx l).
Proof.
  intros Hp Ha. unfold acceptV4, randUint32. cbv zeta beta.
  eapply accepts; [split; unfold reply; fields; done| |done|done|unfold reply; fields; reflexivity|
    unfold reply; fields; reflexivity|done|apply Agreement.establish_state|done].
  right. eexists. unfold reply. fields. reflexivity.
Qed.

(** A group that is known keeps its sequence number; a new one takes the member's. *)
Lemma joinGroup_spec hs a l :
  groupID a = 0 ->
  let '(a', l') := joinGroup hs a l in
  (exists gs, l' = l <| Listener.groups := gs |> /\ (forall g n, Listener.groups l !! g = Some n -> gs !! g = Some n) /\
    (groupID a' <> 0 -> gs !! groupID a' = Some (isn a'))).
Proof.
  intros Hg. unfold joinGroup. destruct (_ && _) eqn:E.
  - destruct (Listener.groups l !! Cif.GroupID hs) as [n|] eqn:El.
    + exists (Listener.groups l). split; [by destruct l|]. done.
    + exists (<[Cif.GroupID hs := isn a]> (Listener.groups l)). split; [reflexivity|]. split.
      * intros g n Hl. rewrite lookup_insert_ne; [done|]. intros E2. rewrite E2 in El. congruence.
      * intros _. cbn. apply lookup_insert_eq.
  - exists (Listener.groups l). split; [by destruct l|]. split; [done|]. by rewrite Hg.
Qed.

Lemma acceptV5_outcome i hs ext ctx key l :
  proves l i -> Listener.accepted l !! from i = None -> outcome i l (acceptV5 (at_ i) (from i) hs ext ctx key l).
Proof.
  intros Hp Ha. unfold acceptV5, randUint32. destruct (Handshake.NegotiateLatency _ _ _ _) as [rl sl]. cbv zeta.
  set (a := mkAcc _ _ _ _ _ _ _ _ _ _ _ _). set (l1 := l <| calls ::= S |>).
  pose proof (joinGroup_spec hs a l1 eq_refl) as J. destruct (joinGroup hs a l1) as [a' l2]. destruct J as (gs & -> & J1 & J2).
  eapply (accepts i l _ a'); [split; unfold reply, l1; fields; done| |done|done|unfold reply; fields; reflexivity|
    unfold reply; fields; reflexivity|done|apply Agreement.establish_state|unfold reply; fields; exact J2].
  right. eexists. unfold reply, l1. fields. reflexivity.
Qed.

Lemma feed_outcome i l : outcome i l (feed l i).
Proof.
  unfold feed, Listener.HandlePacket. destruct (_ || _); [apply refused_same|].
  destruct (Cif.HS_UnmarshalCIF _ _) as [hs|] eqn:Ed; [|apply refused_same].
  destruct (_ =? Cif.HandshakeTypeInduction); [apply refused_reply|].
  destruct (Z.eqb_spec (Cif.HandshakeType hs) Cif.HandshakeTypeConclusion) as [Et|]; [|apply refused_same].
  unfold handleConclusion. destruct (Z.eqb_spec (Cif.SynCookie hs) (Listener.cookie l (from i))) as [Ec|]; [|apply refused_same].
  assert (proves l i) as Hp by (by exists hs). cbn [negb]. cbv zeta. destruct (_ <? 76); [apply refused_reply|].
  destruct (Cif.Version hs =? 4).
  - unfold handleConclusionV4. destruct (Listener.accepted l !! from i) eqn:Ea; [apply refused_reply|].
    destruct (_ || _); [apply refused_reply|]. destruct (contextV4 l); [|apply refused_reply].
    destruct (askGate l _); [apply refused_reply|]. by apply acceptV4_outcome.
  - destruct (Listener.accepted l !! from i) eqn:Ea; [apply refused_reply|].
    destruct (CoreHandshake.srtHS hs); [|apply refused_reply]. destruct (_ <? _); [apply refused_reply|].
    destruct (negb _); [apply refused_reply|]. destruct (askGate l _); [apply refused_reply|].
    destruct (negotiateCrypto hs l) as [[ctx key]|]; [|apply refused_reply]. by apply acceptV5_outcome.
Qed.

(** The invariant of a run from [l0] over the inputs [ins]. *)
Record sound (l0 : Listener.Listener) (ins : list input) (l : Listener.Listener) : Prop := mkSound {
  so_secret : Listener.cookieSecret l = Listener.cookieSecret l0;
  so_wf : Fifo.wf (Listener.events l) /\ Fifo.wf (Listener.outputs l);
  so_once : NoDup (map a_Peer (handed l));
  so_known : forall peer, peer ∈ map a_Peer (handed l) -> is_Some (Listener.accepted l !! peer);
  so_cookie : forall acc, acc ∈ handed l -> state (a_Conn acc) = stateConnected /\
    exists i, i ∈ ins /\ from i = a_Peer acc /\ proves l0 i;
  so_group : forall acc, acc ∈ handed l -> a_GroupID acc <> 0 -> Listener.groups l !! a_GroupID acc = Some (a_SharedISN acc);
  so_replies : exists js, sublist js ins /\ map to_Peer (replies l) = map from js
}.

Lemma proves_secret l l' i : Listener.cookieSecret l' = Listener.cookieSecret l -> proves l' i -> proves l i.
Proof. intros E (hs & H1 & H2 & H3). exists hs. unfold cookie in *. rewrite E in H3. done. Qed.

Lemma answers_replies i l l' :
  Fifo.wf (Listener.outputs l) -> answers i l l' ->
  Fifo.wf (Listener.outputs l') /\ (replies l' = replies l \/ exists p, replies l' = replies l ++ [mkSendTo (from i) p]).
Proof.
  intros W [E|[p E]]; unfold replies; rewrite E; [by split; [|left]|]. split; [by apply Fifo.push_wf|]. right. exists p.
  by apply Fifo.push_contents.
Qed.

Lemma sound_step l0 ins l i : sound l0 ins l -> sound l0 (ins ++ [i]) (feed l i).
Proof.
  intros [S1 [S2 S2'] S3 S4 S5 S6 (js & S7 & S8)]. destruct (feed_outcome i l) as [[H1 H2] H3 H4 H5|a acc [H1 H2] H3 H4 H5 H6 H7 H8 H9 H10];
    destruct (answers_replies _ _ _ S2' H3) as [W R]; set (l' := feed l i) in *; clearbody l'.
  - assert (handed l' = handed l) as E by (unfold handed; by rewrite H4).
    constructor; rewrite ?E, ?H1, ?H4, ?H5; try done.
    + intros x Hx. destruct (S5 x Hx) as (? & j & Hj & ?). split; [done|]. exists j. rewrite elem_of_app. tauto.
    + intros x Hx Hg. apply H2. by apply S6.
    + destruct R as [->|[p ->]]; [exists js; split; [by apply sublist_inserts_r|done]|].
      exists (js ++ [i]). split; [by apply sublist_app|]. by rewrite !map_app, S8.
  - assert (handed l' = handed l ++ [acc]) as E by (unfold handed; rewrite H6; by apply Fifo.push_contents).
    constructor; rewrite ?E, ?map_app; cbn [map]; try (rewrite ?H1, ?H7; done).
    + split; [rewrite H6; by apply Fifo.push_wf|done].
    + apply NoDup_app. split; [done|]. split; [|apply NoDup_singleton]. intros x Hx ->%list_elem_of_singleton.
      rewrite H8 in Hx. destruct (S4 _ Hx) as [? Hs]. congruence.
    + intros x. rewrite elem_of_app, list_elem_of_singleton, H7, H8. intros [Hx| ->]; [|rewrite lookup_insert_eq; by eexists].
      destruct (decide (from i = x)) as [->|]; [rewrite lookup_insert_eq; by eexists|]. rewrite lookup_insert_ne by done. by apply S4.
    + intros x. rewrite elem_of_app, list_elem_of_singleton. intros [Hx| ->].
      * destruct (S5 x Hx) as (? & j & Hj & ?). split; [done|]. exists j. rewrite elem_of_app. tauto.
      * split; [done|]. exists i. rewrite elem_of_app, list_elem_of_singleton. split; [by right|]. split; [done|].
        by apply (proves_secret l0 l).
    + intros x. rewrite elem_of_app, list_elem_of_singleton. intros [Hx| ->]; [|done]. intros Hg. apply H2. by apply S6.
    + destruct R as [->|[p ->]]; [exists js; split; [by apply sublist_inserts_r|done]|].
      exists (js ++ [i]). split; [by apply sublist_app|]. by rewrite !map_app, S8.
Qed.

Lemma sound_run l0 ins : forall pre l, sound l0 pre l -> sound l0 (pre ++ ins) (run l ins).
Proof.
  induction ins as [|i ins IH]; intros pre l H; [by rewrite app_nil_r|].
  replace (pre ++ i :: ins) with ((pre ++ [i]) ++ ins) by (by rewrite <- app_assoc). apply IH. by apply sound_step.
Qed.

(** C26. Whatever packets arrive from whatever addresses, a fresh listener hands
    out each peer at most once, connected, and only when that address sent a
    conclusion with the cookie of the address; members of a group share the send
    sequence number of the first; and the answers go, in order, to senders of
    distinct packets: one packet in draws at most one packet out. *)
Theorem listener_accepts_once (l0 : Listener.Listener) (ins : list input) :
  Listener.accepted l0 = ∅ -> Listener.events l0 = Fifo.empty -> Listener.outputs l0 = Fifo.empty ->
  let l := run l0 ins in
  NoDup (map a_Peer (handed l)) /\
  (forall acc, acc ∈ handed l -> state (a_Conn acc) = stateConnected /\ exists i, i ∈ ins /\ from i = a_Peer acc /\ proves l0 i) /\
  (forall acc acc', acc ∈ handed l -> acc' ∈ handed l -> a_GroupID acc = a_GroupID acc' -> a_GroupID acc <> 0 ->
    a_SharedISN acc = a_SharedISN acc') /\
  (exists js, sublist js ins /\ map to_Peer (replies l) = map from js) /\ (length (replies l) <= length ins)%nat.
Proof.
  intros Ha He Ho. cbv zeta.
  assert (sound l0 [] l0) as H0.
  { constructor; unfold handed, replies; rewrite ?He, ?Ho; cbn; try done; try (intros ? H; by apply elem_of_nil in H).
    - split; unfold Fifo.wf; cbn; lia.
    - constructor.
    - by exists []. }
  destruct (sound_run l0 ins [] l0 H0) as [_ _ S3 _ S5 S6 (js & S7 & S8)]. cbn [app] in *.
  split_and!; [done|done| |by exists js|].
  - intros x y Hx Hy Eg Hg. pose proof (S6 x Hx Hg) as E1. pose proof (S6 y Hy ltac:(congruence)) as E2. rewrite Eg in E1. congruence.
  - apply (f_equal length) in S8. rewrite !length_map in S8. rewrite S8. by apply sublist_length.
Qed.

End Run.

(** ** A concrete run *)

#[local] Existing Instance Crypto.toy.

Definition toyOpen : Listener.Listener :=
  Listener.NewListener (LC.mkLC 1500 200 0 [] true false true 0 0 false 0 0 0 0 0 0 0 0 0 [] 16 0 false 0 0 []) 99
    (fun _ => [0; 0; 1; 2]) None (fun _ _ => None).

(** A conclusion with the cookie that the listener gives to address [addr]. *)
Definition toyConclusion (addr : list Z) : Packet :=
  Handshake.BuildConclusion 77 1000 1400 64 (Listener.cookie toyOpen addr) [115] 80 80 0 [] [] 0 0 0 None None.

(** The first peer repeats its conclusion; the last one sends the first's. *)
Definition toyInputs : list input :=
  [mkInput 1 (toyConclusion [10; 1]) [10; 1]; mkInput 2 (toyConclusion [10; 1]) [10; 1];
   mkInput 3 (toyConclusion [10; 2]) [10; 2]; mkInput 4 (toyConclusion [10; 1]) [10; 3]].

Lemma listener_accepts_once_witness :
  let l := run toyOpen toyInputs in
  map a_Peer (handed l) = [[10; 1]; [10; 2]] /\ length (replies l) = 3%nat /\
  (forall acc, acc ∈ handed l -> exists i, i ∈ toyInputs /\ from i = a_Peer acc /\ proves toyOpen i).
Proof.
  destruct (listener_accepts_once toyOpen toyInputs) as (_ & H2 & _); [reflexivity..|].
  split; [vm_compute; reflexivity|]. split; [vm_compute; reflexivity|]. intros acc Ha. exact (proj2 (H2 acc Ha)).
Defined.

End Accepting.
