(* ===== verification/Meeting.v ===== *)
(** * Two peers that dial each other ([internal/core/rendezvous.go])

    The cookie contest gives the peers opposite roles.  The pure transition
    function of the handshake is run on both ends of a network that loses,
    duplicates and reorders: the reachable states are enumerated and checked.
    A refinement theorem connects the abstract end to the connection. *)
From Stdlib Require Import ZArith Lia.
From stdpp Require Import base numbers list option relations.
From S2P Require Import Prelude Seq Packet Cif Clock Fifo Output Crypto Handshake ConnState ConnSend Establish CoreHandshake Sender Listener Agreement Rendezvous.
Import ConnState.
Import Rdv(rdvState, rdvWaving, rdvAttention, rdvFine, rdvInitiated, rdvConnected, rdvSide, rdvDraw, rdvInitiator,
  rdvResponder, rdvTransition, mkTrans, newState, rspType, needsExt, needsHSRSP, rdvDial).
Import Cif(HandshakeTypeWavehand, HandshakeTypeConclusion, HandshakeTypeAgreement, HandshakeTypeDone, HandshakeType).
Import Rendezvous.
Local Open Scope Z_scope.

Module Meeting.

(** ** Roles *)

Definition opposite (a b : rdvSide) : Prop :=
  a = rdvInitiator /\ b = rdvResponder \/ a = rdvResponder /\ b = rdvInitiator.

Lemma low_word x : Z.land x 0xFFFFFFFF = x mod 2 ^ 32.
Proof. change 0xFFFFFFFF with (Z.ones 32). by rewrite Z.land_ones. Qed.

Lemma high_bit x : (Z.land x 0x80000000 =? 0) = (x mod 2 ^ 32 <? 2 ^ 31).
Proof.
  change 0x80000000 with (2 ^ 31). rewrite land_pow2_eqb, Z.testbit_eqb by lia.
  pose proof (Z.mod_pos_bound x (2 ^ 32)). pose proof (Z.div_mod x (2 ^ 31)). pose proof (Z.mod_pos_bound x (2 ^ 31)).
  pose proof (Z.div_mod x (2 ^ 32)). pose proof (Z.mod_pos_bound (x / 2 ^ 31) 2). pose proof (Z.div_mod (x / 2 ^ 31) 2).
  assert (x / 2 ^ 32 = x / 2 ^ 31 / 2) by (rewrite Z.div_div by lia; done).
  destruct (Z.eqb_spec ((x / 2 ^ 31) mod 2) 1); destruct (Z.ltb_spec (x mod 2 ^ 32) (2 ^ 31)); cbn; lia || done.
Qed.

(** The contest in the circle of 32-bit numbers. *)
Lemma contest_spec a b :
  is_u32 a -> is_u32 b ->
  let m := (a - b) mod 2 ^ 32 in
  rdvCookieContest a b =
    if m =? 0 then rdvDraw else if (m <? 2 ^ 31) || ((m =? 2 ^ 31) && (i32 a >? i32 b)) then rdvInitiator else rdvResponder.
Proof.
  intros Ha Hb. cbv zeta. unfold rdvCookieContest. cbv zeta. rewrite low_word, !high_bit.
  assert (forall x, is_u32 x -> i32 x mod 2 ^ 32 = x /\ - 2 ^ 31 <= i32 x < 2 ^ 31) as Hi.
  { intros x Hx. unfold i32, is_u32 in *. repeat case_match; split; try lia; Z.div_mod_to_equations; lia. }
  destruct (Hi a Ha) as [Ea Ra], (Hi b Hb) as [Eb Rb].
  assert (forall x y, - 2 ^ 31 <= x < 2 ^ 31 -> - 2 ^ 31 <= y < 2 ^ 31 -> i64 (x - y) = x - y) as H64.
  { intros x y Hx Hy. unfold i64. repeat case_match; try lia; Z.div_mod_to_equations; lia. }
  rewrite !H64 by done. set (x := i32 a) in *. set (y := i32 b) in *. clearbody x y. clear Hi H64.
  assert ((x - y) mod 2 ^ 32 = (a - b) mod 2 ^ 32) as E1 by (rewrite Zminus_mod, Ea, Eb; done).
  assert ((y - x) mod 2 ^ 32 = (b - a) mod 2 ^ 32) as E2 by (rewrite Zminus_mod, Ea, Eb; done).
  rewrite E1, E2. clear -Ha Hb. unfold is_u32 in *.
  destruct (Z.eqb_spec ((a - b) mod 2 ^ 32) 0); [done|].
  destruct (Z.ltb_spec ((a - b) mod 2 ^ 32) (2 ^ 31)); cbn [negb orb]; [done|].
  destruct (Z.ltb_spec ((b - a) mod 2 ^ 32) (2 ^ 31)); destruct (Z.eqb_spec ((a - b) mod 2 ^ 32) (2 ^ 31)); cbn [negb andb];
    try done; Z.div_mod_to_equations; lia.
Qed.

(** The cookie contest: two peers with different cookies take opposite roles,
    whichever of them computes it first, and equal cookies are a draw.  The
    winner is the larger cookie in the circle of 32-bit numbers. *)
Theorem rendezvous_roles_opposite (a b : Z) :
  is_u32 a -> is_u32 b ->
  (a = b -> rdvCookieContest a b = rdvDraw) /\
  (a <> b -> opposite (rdvCookieContest a b) (rdvCookieContest b a)) /\
  (0 < (a - b) mod 2 ^ 32 < 2 ^ 31 -> rdvCookieContest a b = rdvInitiator).
Proof.
  intros Ha Hb. rewrite (contest_spec a b Ha Hb), (contest_spec b a Hb Ha). unfold is_u32, opposite in *. split_and!.
  - intros ->. by rewrite Z.sub_diag.
  - intros Hne.
    assert ((a - b) mod 2 ^ 32 <> 0) as H1 by (intros E; Z.div_mod_to_equations; lia).
    assert ((b - a) mod 2 ^ 32 = 2 ^ 32 - (a - b) mod 2 ^ 32) as -> by (Z.div_mod_to_equations; lia).
    pose proof (Z.mod_pos_bound (a - b) (2 ^ 32)). set (m := (a - b) mod 2 ^ 32) in *.
    assert (i32 a <> i32 b) as Hd by (unfold i32; intros E; clear -E Ha Hb Hne; Z.div_mod_to_equations; lia).
    repeat (case_match; try lia); tauto.
  - intros Hm. destruct (Z.eqb_spec ((a - b) mod 2 ^ 32) 0); [lia|]. destruct (Z.ltb_spec ((a - b) mod 2 ^ 32) (2 ^ 31)); [done|lia].
Qed.

Lemma rendezvous_roles_opposite_witness : opposite (rdvCookieContest 7 4294967295) (rdvCookieContest 4294967295 7).
Proof.
  destruct (rendezvous_roles_opposite 7 4294967295) as (_ & H & _); [unfold is_u32; lia..|]. apply H. lia.
Defined.

(** ** One end *)

Inductive msg : Type := Wave | Conclusion (ext : bool) | Agree.

Definition typeOf (m : msg) : Z :=
  match m with Wave => HandshakeTypeWavehand | Conclusion _ => HandshakeTypeConclusion | Agree => HandshakeTypeAgreement end.
Definition extOf (m : msg) : bool := match m with Conclusion e => e | _ => false end.
(** An agreement carries no cookie. *)
Definition cookied (m : msg) : bool := match m with Agree => false | _ => true end.

(** An end that still shakes hands, has its connection, or gave up. *)
Inductive peer : Type :=
| Shaking (st : rdvState) (side : rdvSide) (last : option rdvTransition)
| Linked
| Failed.

Definition emitted (t : rdvTransition) : option msg :=
  if rspType t =? HandshakeTypeConclusion then Some (Conclusion (needsExt t))
  else if rspType t =? HandshakeTypeAgreement then Some Agree else None.

Definition resend (last : option rdvTransition) : option msg :=
  match last with Some t => emitted t | None => Some Wave end.

Definition waved (m : msg) (st : rdvState) : bool :=
  match m with Wave => bool_decide (st = rdvFine \/ st = rdvInitiated) | _ => false end.

(** The end whose role is [role] receives [m]. *)
Definition receive (role : rdvSide) (m : msg) (p : peer) : peer * option msg :=
  match p with
  | Shaking st side last =>
      if waved m st then (p, resend last) else
      let side := if sideIs side rdvDraw && cookied m then role else side in
      let t := rdvSwitchState st (typeOf m) side (extOf m) in
      if Cif.IsRejection (rspType t) then (Failed, None) else
      (if bool_decide (newState t = rdvConnected) then Linked else Shaking (newState t) side (Some t), emitted t)
  | _ => (p, None)
  end.

(** Its retransmission timer fires. *)
Definition expire (p : peer) : peer * option msg :=
  match p with Shaking _ _ last => (p, resend last) | _ => (p, None) end.

(** ** The pair *)

(** What one end has on the network, copies of each kind of message: a message on it may
    arrive any number of times, in any order, and may be lost for good. *)
Record wire : Type := mkWire { w_wave : bool; w_plain : bool; w_ext : bool; w_agree : bool }.

#[global] Instance rdvTransition_eq_dec : EqDecision rdvTransition.
Proof. solve_decision. Defined.
#[global] Instance peer_eq_dec : EqDecision peer.
Proof. solve_decision. Defined.
#[global] Instance wire_eq_dec : EqDecision wire.
Proof. solve_decision. Defined.

Definition put (m : option msg) (w : wire) : wire :=
  match m with
  | None => w
  | Some Wave => mkWire true (w_plain w) (w_ext w) (w_agree w)
  | Some (Conclusion false) => mkWire (w_wave w) true (w_ext w) (w_agree w)
  | Some (Conclusion true) => mkWire (w_wave w) (w_plain w) true (w_agree w)
  | Some Agree => mkWire (w_wave w) (w_plain w) (w_ext w) true
  end.
Definition lose (m : msg) (w : wire) : wire :=
  match m with
  | Wave => mkWire false (w_plain w) (w_ext w) (w_agree w)
  | Conclusion false => mkWire (w_wave w) false (w_ext w) (w_agree w)
  | Conclusion true => mkWire (w_wave w) (w_plain w) false (w_agree w)
  | Agree => mkWire (w_wave w) (w_plain w) (w_ext w) false
  end.
Definition on (m : msg) (w : wire) : bool :=
  match m with Wave => w_wave w | Conclusion false => w_plain w | Conclusion true => w_ext w | Agree => w_agree w end.

(** [ini] won the contest; [toRsp] is what it sent. *)
Record pair : Type := mkPair { ini : peer; rsp : peer; toRsp : wire; toIni : wire }.

#[global] Instance pair_eq_dec : EqDecision pair.
Proof. solve_decision. Defined.

Definition atIni (f : peer -> peer * option msg) (s : pair) : pair :=
  let '(p, m) := f (ini s) in mkPair p (rsp s) (put m (toRsp s)) (toIni s).
Definition atRsp (f : peer -> peer * option msg) (s : pair) : pair :=
  let '(p, m) := f (rsp s) in mkPair (ini s) p (toRsp s) (put m (toIni s)).

Inductive step : pair -> pair -> Prop :=
| st_ini m s : on m (toIni s) = true -> step s (atIni (receive rdvInitiator m) s)
| st_rsp m s : on m (toRsp s) = true -> step s (atRsp (receive rdvResponder m) s)
| st_ini_timer s : step s (atIni expire s)
| st_rsp_timer s : step s (atRsp expire s)
| st_lose_ini m s : step s (mkPair (ini s) (rsp s) (toRsp s) (lose m (toIni s)))
| st_lose_rsp m s : step s (mkPair (ini s) (rsp s) (lose m (toRsp s)) (toIni s)).

(** Both have sent a wave, as [DialRendezvous] does. *)
Definition dialled : pair :=
  let p := Shaking rdvWaving rdvDraw None in
  let w := mkWire true false false false in mkPair p p w w.

(** ** Enumeration *)

Definition msgs : list msg := [Wave; Conclusion false; Conclusion true; Agree].

Definition next (s : pair) : list pair :=
  map (fun m => atIni (receive rdvInitiator m) s) (List.filter (fun m => on m (toIni s)) msgs) ++
  map (fun m => atRsp (receive rdvResponder m) s) (List.filter (fun m => on m (toRsp s)) msgs) ++
  [atIni expire s; atRsp expire s] ++
  map (fun m => mkPair (ini s) (rsp s) (toRsp s) (lose m (toIni s))) msgs ++
  map (fun m => mkPair (ini s) (rsp s) (lose m (toRsp s)) (toIni s)) msgs.

Lemma next_step s s' : step s s' -> s' ∈ next s.
Proof.
  assert (forall m, m ∈ msgs) as Hm.
  { intros [|[]|]; unfold msgs; rewrite !elem_of_cons; tauto. }
  unfold next. destruct 1 as [m s H|m s H|s|s|m s|m s]; rewrite !elem_of_app.
  - left. apply list_elem_of_fmap. exists m. split; [done|]. apply list_elem_of_In, filter_In. split; [apply list_elem_of_In, Hm|done].
  - right. left. apply list_elem_of_fmap. exists m. split; [done|]. apply list_elem_of_In, filter_In. split; [apply list_elem_of_In, Hm|done].
  - right. right. left. rewrite elem_of_cons. by left.
  - right. right. left. rewrite !elem_of_cons. right. by left.
  - right. right. right. left. apply list_elem_of_fmap. by exists m.
  - right. right. right. right. apply list_elem_of_fmap. by exists m.
Qed.

Definition mem (s : pair) (l : list pair) : bool := bool_decide (s ∈ l).

Fixpoint explore (fuel : nat) (seen todo : list pair) : list pair :=
  match fuel, todo with
  | S fuel, s :: todo =>
      if mem s seen then explore fuel seen todo else explore fuel (s :: seen) (next s ++ todo)
  | _, _ => seen
  end.

Definition states : list pair := Eval vm_compute in explore 5000 [] [dialled].

(** The list is closed under the steps: it holds every reachable state. *)
Lemma states_closed : forall s, s ∈ states -> forall s', step s s' -> s' ∈ states.
Proof.
  assert (forallb (fun s => forallb (fun s' => mem s' states) (next s)) states = true) as H by (vm_compute; reflexivity).
  intros s Hs s' St. apply forallb_forall with (x := s) in H; [|by apply list_elem_of_In].
  apply forallb_forall with (x := s') in H; [|by apply list_elem_of_In, next_step]. by apply bool_decide_eq_true in H.
Qed.

Lemma reachable_states s : rtc step dialled s -> s ∈ states.
Proof.
  assert (dialled ∈ states) as H by (apply (bool_decide_unpack _); vm_compute; exact I).
  intros R. remember dialled as s0 eqn:E. clear E. induction R as [|s0 s1 s2 St _ IH]; [done|]. apply IH. by apply (states_closed s0).
Qed.

(** A round in which nothing is lost: both timers fire, then everything arrives. *)
Definition deliver (s : pair) (m : msg) : pair :=
  let s := if on m (toIni s) then atIni (receive rdvInitiator m) s else s in
  if on m (toRsp s) then atRsp (receive rdvResponder m) s else s.
Definition round (s : pair) : pair := fold_left deliver msgs (atRsp expire (atIni expire s)).
Definition rounds (n : nat) (s : pair) : pair := Nat.iter n round s.

Lemma deliver_steps m s : rtc step s (deliver s m).
Proof.
  unfold deliver. cbv zeta. destruct (on m (toIni s)) eqn:E.
  - eapply rtc_l; [by apply st_ini|]. destruct (on m (toRsp _)) eqn:E2; [|done]. apply rtc_once. by apply st_rsp.
  - destruct (on m (toRsp s)) eqn:E2; [|done]. apply rtc_once. by apply st_rsp.
Qed.

Lemma round_steps s : rtc step s (round s).
Proof.
  unfold round. eapply rtc_l; [apply st_ini_timer|]. eapply rtc_l; [apply st_rsp_timer|].
  generalize (atRsp expire (atIni expire s)) as s1, msgs. intros s1 l. clear s. revert s1. induction l as [|m l IH]; intros s; [done|].
  etransitivity; [apply deliver_steps|]. apply IH.
Qed.

Lemma rounds_steps n s : rtc step s (rounds n s).
Proof. induction n as [|n IH]; [done|]. etransitivity; [exact IH|]. apply round_steps. Qed.

(** ** What holds of every reachable pair *)

Definition safe (s : pair) : bool :=
  match ini s, rsp s with
  | Failed, _ | _, Failed => false
  | Shaking _ _ _, Linked => false
  | Shaking _ _ _, Shaking _ _ _ => negb (w_agree (toRsp s))
  | Linked, _ => true
  end.

Definition linked (s : pair) : bool := match ini s, rsp s with Linked, Linked => true | _, _ => false end.

(** The initiator has connected, and its agreement is gone before the responder got it. *)
Definition agreementLost (s : pair) : Prop := ini s = Linked /\ rsp s <> Linked /\ on Agree (toRsp s) = false.
#[global] Instance agreementLost_dec s : Decision (agreementLost s).
Proof. unfold agreementLost. apply _. Defined.

Lemma linked_spec s : linked s = true -> ini s = Linked /\ rsp s = Linked.
Proof. unfold linked. by destruct (ini s), (rsp s). Qed.

Lemma safe_spec s :
  safe s = true ->
  (ini s <> Failed /\ rsp s <> Failed) /\ (rsp s = Linked -> ini s = Linked) /\ (on Agree (toRsp s) = true -> ini s = Linked).
Proof.
  unfold safe, on. destruct (ini s), (rsp s), (w_agree (toRsp s)); intros H; split_and!; first [done | congruence | split; congruence].
Qed.

(** An end that is not connected, and as a responder cannot be without an agreement. *)
Definition waits (p : peer) : bool :=
  match p with
  | Shaking st side _ => negb (bool_decide (st = rdvConnected)) && bool_decide (side = rdvResponder)
  | Linked => false
  | Failed => true
  end.

Lemma states_safe s : s ∈ states ->
  safe s = true /\ if decide (agreementLost s) then waits (rsp s) = true else linked (rounds 2 s) = true.
Proof.
  assert (forallb (fun s => safe s && if decide (agreementLost s) then waits (rsp s) else linked (rounds 2 s)) states = true)
    as H by (vm_compute; reflexivity).
  intros Hs. apply forallb_forall with (x := s) in H; [|by apply list_elem_of_In]. apply andb_prop in H as [H1 H2].
  split; [done|]. by destruct (decide (agreementLost s)).
Qed.

(** *** A lost agreement *)

Lemma waits_receive m p : waits p = true -> m <> Agree -> waits (fst (receive rdvResponder m p)) = true.
Proof.
  destruct p as [st side last| |]; [|done..]. cbn [waits]. intros [H1 H2]%andb_prop Hm. apply bool_decide_eq_true in H2 as ->.
  destruct m as [|e|]; [| |done]; destruct st; try done; try destruct e; reflexivity.
Qed.

Definition stuck (s : pair) : Prop := ini s = Linked /\ w_agree (toRsp s) = false /\ waits (rsp s) = true.

Lemma stuck_step s s' : step s s' -> stuck s -> stuck s'.
Proof.
  intros St (H1 & H2 & H3). destruct St as [m s _|m s Hm|s|s|m s|m s]; unfold stuck, atIni, atRsp.
  - by rewrite H1.
  - assert (m <> Agree) as Hn by (intros ->; cbn in Hm; congruence). pose proof (waits_receive m (rsp s) H3 Hn).
    destruct (receive rdvResponder m (rsp s)). done.
  - by rewrite H1.
  - unfold expire. destruct (rsp s) eqn:E; cbn; by rewrite ?E.
  - done.
  - by destruct m as [|[]|].
Qed.

Lemma lost_forever s s' : s ∈ states -> agreementLost s -> rtc step s s' -> rsp s' <> Linked.
Proof.
  intros Hs Hl R. destruct (states_safe s Hs) as [_ H]. rewrite decide_True in H by done. destruct Hl as (Hi & _ & Ha).
  assert (stuck s) as K by done.
  assert (stuck s') as (_ & _ & K') by (clear -R K; induction R as [|a b c St _ IH]; [done|]; apply IH; by apply (stuck_step a)).
  intros E. by rewrite E in K'.
Qed.

(** The agreement is sent once: an initiator that has connected answers
    nothing any more, so when the network loses its agreement before the
    responder is connected, no later delivery or retransmission connects the
    responder. *)
Theorem rendezvous_lost_agreement (s s' : pair) :
  rtc step dialled s -> agreementLost s -> rtc step s s' -> rsp s' <> Linked.
Proof. intros R. apply lost_forever. by apply reachable_states. Qed.


(** ** The code refines the abstract end *)

Section Refinement.
Context {P : Crypto.Primitives}.

(** What the state machine looks at. *)
Definition lastOf (d : rdvDial) : option rdvTransition := if Rdv.haveTrans d then Some (Rdv.lastTrans d) else None.
Definition shaking (d : rdvDial) : peer := Shaking (Rdv.rstate d) (Rdv.side d) (lastOf d).

(** The connection [c] is the abstract end [p]. *)
Definition shows (c : Conn) (p : peer) : Prop :=
  match p with
  | Shaking _ _ _ => exists d, rdv c = Some d /\ p = shaking d
  | Linked => rdv c = None /\ state c = stateConnected
  | Failed => state c = stateFailed /\ closed c = true
  end.

(** The packets that stand for the messages. *)
Inductive built : msg -> Packet.Packet -> Prop :=
| bd_wave id isn mss fc cookie kl : built Wave (Handshake.BuildWavehand id isn mss fc cookie kl None)
| bd_conclusion ext id isn mss fc pid cookie req rl sl cong filter sid km kl :
    built (Conclusion ext)
      (Handshake.BuildRendezvousConclusion id isn mss fc pid cookie req rl sl 0 cong filter 0 0 0 sid None km ext kl)
| bd_agree id isn mss fc pid : built Agree (Handshake.BuildAgreement id isn mss fc pid None).

Definition packets (c : Conn) : list Packet.Packet := omap Agreement.packetOf (sent c).

(** From [c] to [c'] exactly the message [e] was sent. *)
Definition says (c c' : Conn) (e : option msg) : Prop :=
  match e with
  | None => packets c' = packets c
  | Some m => exists p, built m p /\ packets c' = packets c ++ [p]
  end.

Lemma packets_out o c : Fifo.wf (outputs c) ->
  packets (out o c) = packets c ++ omap Agreement.packetOf [o] /\ Fifo.wf (outputs (out o c)).
Proof.
  intros W. unfold packets, sent, out. fields. rewrite Fifo.push_contents by done. rewrite omap_app. split; [done|]. by apply Fifo.push_wf.
Qed.

Lemma packets_timer o c : Fifo.wf (outputs c) -> Agreement.packetOf o = None -> packets (out o c) = packets c /\ Fifo.wf (outputs (out o c)).
Proof. intros W E. destruct (packets_out o c W) as [-> W']. split; [|done]. cbn. rewrite E. apply app_nil_r. Qed.

Lemma armTimers_packets now ep c : Fifo.wf (outputs c) -> packets (Establish.armTimers now ep c) = packets c.
Proof.
  intros W. unfold Establish.armTimers, arm. cbv zeta.
  destruct (packets_timer (Output.SetTimer Output.TimerACK (Clock.Add now synInterval)) c W eq_refl) as [E1 W1].
  set (c1 := out _ c) in *. clearbody c1.
  set (c2 := if periodicNAK c1 then _ else c1).
  assert (packets c2 = packets c1 /\ Fifo.wf (outputs c2)) as [E2 W2] by (unfold c2; destruct (periodicNAK c1); [by apply packets_timer|done]).
  clearbody c2. destruct (packets_timer (Output.SetTimer Output.TimerEXP (Clock.Add now (ConnSend.rto c2))) c2 W2 eq_refl) as [E3 W3].
  set (c3 := out _ c2) in *. clearbody c3. destruct (_ >? 0); [|congruence].
  set (c4 := c3 <| peerIdleTimeout := _ |> <| lastRecvTime := _ |> <| lastSentDataTime := _ |>).
  assert (packets c4 = packets c3 /\ Fifo.wf (outputs c4)) as [E4 W4] by (unfold c4, packets, sent; fields; done). clearbody c4.
  destruct (packets_timer (Output.SetTimer Output.TimerKeepalive (Clock.Add now keepaliveInterval)) c4 W4 eq_refl) as [E5 W5].
  set (c5 := out _ c4) in *. clearbody c5.
  match goal with |- packets (out ?o c5) = _ => destruct (packets_timer o c5 W5 eq_refl) as [E6 _] end. congruence.
Qed.

Lemma establish_packets now ep c : Fifo.wf (outputs c) -> packets (Establish.establish now ep c) = packets c.
Proof.
  intros W. unfold Establish.establish. cbv zeta. destruct (Sender.initPath_buffers now ep c) as (_ & _ & _ & E1).
  set (c1 := Establish.initPath now ep c) in *. clearbody c1.
  destruct (Sender.initPlayout_still ep c1) as [_ _ _ E2]. set (c2 := Establish.initPlayout ep c1) in *. clearbody c2.
  destruct (Sender.initCrypto_still ep c2) as [_ _ _ E3]. set (c3 := Establish.initCrypto ep c2) in *. clearbody c3.
  destruct (Sender.initFilter_still ep c3) as [_ _ _ E4]. set (c4 := Establish.initFilter ep c3) in *. clearbody c4.
  set (c5 := c4 <| rexmitCount := _ |> <| lastACKTime := _ |> <| periodicNAK := _ |> <| peerNakReport := _ |>).
  assert (outputs c5 = outputs c) as E5 by (unfold c5; fields; congruence). clearbody c5.
  set (c6 := if _ >? 0 then _ else c5). assert (outputs c6 = outputs c) as E6 by (unfold c6; destruct (_ >? 0); fields; congruence).
  clearbody c6. rewrite armTimers_packets by (fields; by rewrite E6). unfold packets, sent. fields. by rewrite E6.
Qed.

(** Learning about the peer leaves the machine alone, except for the role. *)
Definition same_phase (d d' : rdvDial) : Prop :=
  Rdv.rstate d' = Rdv.rstate d /\ Rdv.haveTrans d' = Rdv.haveTrans d /\ Rdv.lastTrans d' = Rdv.lastTrans d.

#[local] Instance same_phase_preorder : PreOrder same_phase.
Proof. split; [by intros d|]. intros a b c (?&?&?) (?&?&?). unfold same_phase. split_and!; congruence. Qed.

Lemma learn_spec hs d d' :
  learn hs d = (d', None) ->
  same_phase d d' /\
  Rdv.side d' = (if sideIs (Rdv.side d) rdvDraw && negb (Cif.SynCookie hs =? 0)
                 then rdvCookieContest (Rdv.cookie d) (Cif.SynCookie hs) else Rdv.side d).
Proof.
  unfold learn, andThen. destruct (learnPeer hs d) as [d1 [e1|]] eqn:E1; [done|].
  destruct (resolveSide hs d1) as [d2 [e2|]] eqn:E2; [done|]. destruct (checkCongestion hs d2) as [d3 [e3|]] eqn:E3; [done|].
  destruct (negotiate hs d3) as [d4 [e4|]] eqn:E4; [done|]. intros E5.
  assert (same_phase d d1 /\ Rdv.side d1 = Rdv.side d /\ Rdv.cookie d1 = Rdv.cookie d) as (P1 & S1 & C1).
  { unfold learnPeer in E1. destruct (_ && _); [destruct (_ <? _)|]; simplify_eq; unfold same_phase; fields; done. }
  assert (same_phase d1 d2 /\ Rdv.side d2 = (if sideIs (Rdv.side d) rdvDraw && negb (Cif.SynCookie hs =? 0)
                 then rdvCookieContest (Rdv.cookie d) (Cif.SynCookie hs) else Rdv.side d)) as (P2 & S2).
  { unfold resolveSide in E2. rewrite S1, C1 in E2. destruct (_ && _); simplify_eq; unfold same_phase; fields; done. }
  assert (d3 = d2) as -> by (unfold checkCongestion in E3; destruct (_ && _); by simplify_eq).
  assert (same_phase d2 d4 /\ Rdv.side d4 = Rdv.side d2) as (P4 & S4).
  { unfold negotiate in E4. destruct (CoreHandshake.srtHS hs); [destruct (_ && _); [destruct (Handshake.NegotiateLatency _ _ _ _)|]|];
      simplify_eq; unfold same_phase; fields; done. }
  assert (same_phase d4 d' /\ Rdv.side d' = Rdv.side d4) as (P5 & S5).
  { unfold adoptKM in E5. destruct (Cif.SRTKM hs); [|by simplify_eq]. destruct (Rdv.cryptoCtx d4); [|by simplify_eq].
    destruct (_ && _ && _ && _); [|by simplify_eq]. destruct (Crypto.UnmarshalKM _ _ _) as [ctx [u|]]; [|done].
    simplify_eq. unfold same_phase. fields. done. }
  split; [|congruence]. etransitivity; [exact P1|]. etransitivity; [exact P2|]. by etransitivity.
Qed.

(** Emitting sends the message and keeps the machine. *)
Lemma emit_spec t d c :
  Fifo.wf (outputs c) -> rdv c = Some d ->
  let c' := rendezvousEmit t d c in
  (exists d', rdv c' = Some d' /\ shaking d' = shaking d) /\ says c c' (emitted t) /\ Fifo.wf (outputs c') /\
  state c' = state c /\ closed c' = closed c.
Proof.
  intros W Hd. cbv zeta. unfold rendezvousEmit, emitted. destruct (rspType t =? HandshakeTypeConclusion).
  - match goal with |- context [match Rdv.cryptoCtx d with Some _ => _ | None => _ end] => set (k := match Rdv.cryptoCtx d with Some _ => _ | None => _ end) end.
    assert (shaking (snd k) = shaking d) as Hk.
    { unfold k. destruct (Rdv.cryptoCtx d); [|done]. destruct (needsExt t); [|done]. unfold chooseSlot.
      destruct (Rdv.kmKey d =? 0); [destruct (sideIs _ _)|]; destruct (Crypto.MarshalKM _ _ _); unfold shaking, lastOf; cbn [snd]; fields; done. }
    clearbody k. destruct k as [[km kl] d']. cbn [snd] in Hk. unfold send.
    match goal with |- context [Output.SendPacket ?p true] => set (pk := p) end.
    assert (built (Conclusion (needsExt t)) pk) as Hb by constructor. clearbody pk.
    destruct (packets_out (Output.SendPacket pk true) (c <| rdv := Some d' |>)) as [E W']; [by fields|].
    split; [exists d'; unfold out; fields; done|]. split; [|split; [exact W'|unfold out; fields; done]].
    exists pk. split; [done|]. rewrite E. unfold packets, sent. fields. done.
  - destruct (rspType t =? HandshakeTypeAgreement); [|split_and!; try done; by exists d]. unfold send.
    match goal with |- context [Output.SendPacket ?p true] => set (pk := p) end.
    assert (built Agree pk) as Hb by constructor. clearbody pk.
    destruct (packets_out (Output.SendPacket pk true) c W) as [E W'].
    split; [exists d; unfold out; fields; done|]. split; [|split; [exact W'|unfold out; fields; done]]. exists pk. by split.
Qed.

Lemma says_timer c c' e id t : Fifo.wf (outputs c') -> says c c' e -> says c (arm id t c') e.
Proof.
  intros W H. unfold arm. destruct (packets_timer (Output.SetTimer id t) c' W eq_refl) as [E _].
  destruct e as [m|]; cbn in *; [|congruence]. destruct H as (pk & ? & ?). exists pk. split; [done|congruence].
Qed.

Lemma retransmit_refines now d c :
  rdv c = Some d -> Fifo.wf (outputs c) ->
  shows (rendezvousRetransmit now d c) (shaking d) /\ says c (rendezvousRetransmit now d c) (resend (lastOf d)).
Proof.
  intros Hd W. unfold rendezvousRetransmit, CoreHandshake.retry, lastOf. destruct (Rdv.haveTrans d) eqn:Ht; cbn [resend].
  - destruct (emit_spec (Rdv.lastTrans d) d c W Hd) as ((d' & E1 & E2) & S & W' & _).
    set (c' := rendezvousEmit _ d c) in *. clearbody c'. split; [|by apply says_timer].
    exists d'. unfold arm, out. fields. by rewrite E2.
  - unfold sendWavehand, send. match goal with |- context [Output.SendPacket ?p true] => set (pk := p) end.
    assert (built Wave pk) as Hb by constructor. clearbody pk.
    destruct (packets_out (Output.SendPacket pk true) c W) as [E W'].
    split; [exists d; unfold arm, out; fields; done|]. apply says_timer; [done|]. exists pk. by split.
Qed.

Lemma advance_refines now t d c :
  Fifo.wf (outputs c) ->
  let c' := advance now t d c in
  shows c' (if bool_decide (newState t = rdvConnected) then Linked else Shaking (newState t) (Rdv.side d) (Some t)) /\
  says c c' (emitted t).
Proof.
  intros W. cbv zeta. unfold advance. cbv zeta.
  set (d1 := d <| Rdv.rstate := _ |> <| Rdv.lastTrans := _ |> <| Rdv.haveTrans := _ |>).
  assert (shaking d1 = Shaking (newState t) (Rdv.side d) (Some t)) as Hs by (unfold shaking, lastOf, d1; fields; done). clearbody d1.
  destruct (emit_spec t d1 (c <| rdv := Some d1 |>)) as ((d2 & E1 & E2) & S & W' & _); [by fields|by fields|].
  assert (says c (rendezvousEmit t d1 (c <| rdv := Some d1 |>)) (emitted t)) as S'.
  { destruct (emitted t); unfold says, packets, sent in *; fields_in S; exact S. }
  clear S. set (c1 := rendezvousEmit t d1 (c <| rdv := Some d1 |>)) in *. clearbody c1. rewrite E1. case_bool_decide as Hc.
  - unfold rendezvousEstablish. cbv zeta. destruct (packets_timer (Output.ClearTimer Output.TimerHandshake) c1 W' eq_refl) as [P1 W1].
    set (c2 := out _ c1) in *. clearbody c2. pose proof (establish_packets now (rendezvousParams d2) c2 W1) as P2.
    pose proof (Agreement.establish_state now (rendezvousParams d2) c2) as P3.
    set (c3 := Establish.establish _ _ c2) in *. clearbody c3. unfold event. split; [cbn; fields; done|].
    assert (forall q, packets (c3 <| rdv := None |> <| events ::= q |>) = packets c3) as P4 by (intros q; unfold packets, sent; fields; done).
    destruct (emitted t); unfold says in *; rewrite P4, P2, P1; exact S'.
  - unfold CoreHandshake.retry. split; [|by apply says_timer]. exists d2. unfold arm, out. fields. by rewrite E2, Hs.
Qed.

(** C29. The code refines the abstract end: on a handshake that the validation lets
    pass, [handleRendezvous] moves the connection and sends exactly as the
    abstract end does on the message the handshake stands for, including the
    late waves, the rejections and the final step to a connection; and the
    retransmission timer repeats its last message. *)
Theorem rendezvous_refines (now : Z) (hs : Cif.CIFHandshake) (d : rdvDial) (c : Conn) (role : rdvSide) (m : msg) :
  rdv c = Some d -> Fifo.wf (outputs c) ->
  HandshakeType hs = typeOf m -> hasExtFlags hs = extOf m -> (Cif.SynCookie hs =? 0) = negb (cookied m) ->
  (cookied m = true -> rdvCookieContest (Rdv.cookie d) (Cif.SynCookie hs) = role) ->
  snd (learn hs d) = None ->
  (let '(p, e) := receive role m (shaking d) in
   shows (handleRendezvous now hs d c) p /\ says c (handleRendezvous now hs d c) e) /\
  (let '(p, e) := expire (shaking d) in
   shows (rendezvousRetransmit now d c) p /\ says c (rendezvousRetransmit now d c) e).
Proof.
  intros Hd W Ht He Hk Hr Hl. split; [|by apply retransmit_refines]. unfold receive, shaking.
  assert (late hs d = waved m (Rdv.rstate d)) as Hw.
  { unfold late, waved. rewrite Ht. by destruct m. }
  unfold handleRendezvous. rewrite Hw. destruct (waved m (Rdv.rstate d)); [by apply retransmit_refines|].
  destruct (learn hs d) as [d' [err|]] eqn:El; [done|]. destruct (learn_spec hs d d' El) as ((P1 & P2 & P3) & S).
  rewrite Hk, negb_involutive in S. rewrite P1, Ht, He.
  replace (if sideIs (Rdv.side d) rdvDraw && cookied m then role else Rdv.side d) with (Rdv.side d').
  2:{ rewrite S. destruct (cookied m); [by rewrite Hr|by rewrite !andb_false_r]. }
  cbv zeta. set (t := rdvSwitchState _ _ _ _). destruct (Cif.IsRejection (rspType t)).
  - unfold fail, event. split; [unfold out; split; fields; done|]. cbn.
    destruct (packets_timer (Output.ClearTimer Output.TimerHandshake) (c <| rdv := Some d' |> <| state := stateFailed |> <| closed := true |>))
      as [E _]; [by fields|done|]. unfold packets, sent, out in *. fields. fields_in E. exact E.
  - by apply advance_refines.
Qed.

End Refinement.

(** ** A concrete rendezvous *)

#[local] Existing Instance Crypto.toy.

Definition toyRendezvous : Conn :=
  DialRendezvous (fun _ => None) (mkRdvConfig 5 100 7 1500 64 120 120 [] [] [] 0 0 0 0 0 0 true false 0 None [] 0) 1000.

(** The wave of a peer with the cookie 9. *)
Definition toyWave : Cif.CIFHandshake :=
  match Cif.HS_UnmarshalCIF Cif.zeroHS (Packet.Data (Handshake.BuildWavehand 6 200 1500 64 9 0 None)) with Ok hs => hs | Err _ => Cif.zeroHS end.

Lemma rendezvous_refines_witness :
  exists d, rdv toyRendezvous = Some d /\
    shows (handleRendezvous 2000 toyWave d toyRendezvous) (fst (receive rdvResponder Wave (shaking d))) /\
    says toyRendezvous (handleRendezvous 2000 toyWave d toyRendezvous) (Some (Conclusion false)).
Proof.
  eexists. split; [reflexivity|]. set (d := rdvOf _).
  destruct (rendezvous_refines 2000 toyWave d toyRendezvous rdvResponder Wave) as [[H1 H2] _].
  - reflexivity.
  - unfold Fifo.wf. vm_compute. lia.
  - vm_compute. reflexivity.
  - vm_compute. reflexivity.
  - vm_compute. reflexivity.
  - intros _. vm_compute. reflexivity.
  - vm_compute. reflexivity.
  - split; [exact H1|exact H2].
Defined.

(** A meeting: both conclude, the initiator agrees. *)
Definition toyMeeting : pair :=
  atIni (receive rdvInitiator (Conclusion true)) (atRsp (receive rdvResponder (Conclusion true)) (atIni (receive rdvInitiator Wave) dialled)).

Lemma toyMeeting_reachable : rtc step dialled toyMeeting.
Proof. eapply rtc_l; [apply (st_ini Wave); reflexivity|]. eapply rtc_l; [apply (st_rsp (Conclusion true)); reflexivity|].
  apply rtc_once. apply (st_ini (Conclusion true)). reflexivity. Qed.

(** The same meeting after the network has lost the agreement. *)
Definition toyLost : pair := mkPair (ini toyMeeting) (rsp toyMeeting) (lose Agree (toRsp toyMeeting)) (toIni toyMeeting).

Lemma toyLost_reachable : rtc step dialled toyLost.
Proof. eapply rtc_r; [apply toyMeeting_reachable|]. apply (st_lose_rsp Agree). Qed.

Lemma toyLost_lost : agreementLost toyLost.
Proof. split; [reflexivity|]. split; [intros E; vm_compute in E; discriminate E|reflexivity]. Qed.


Lemma rendezvous_lost_agreement_witness : rsp (rounds 3 toyLost) <> Linked.
Proof.
  apply (rendezvous_lost_agreement toyLost (rounds 3 toyLost) toyLost_reachable toyLost_lost). apply rounds_steps.
Defined.

End Meeting.
