(* ===== verification/Group.v ===== *)
(** * Connection groups ([internal/core/group.go])

    A group bonds several connections: it writes each payload on one or all of
    them with a shared sequence number, and merges what they deliver into one
    stream.  The members' connections live in the group's state; [onConn] is the
    host driving one of them. *)
From Stdlib Require Import ZArith Lia.
From stdpp Require Import base numbers list option gmap.
From S2P Require Import Prelude Seq Packet Clock Tsbpd SendBuffer RecvBuffer Fifo Output Crypto ConnState ConnSend ConnRecv Establish ConnCore.
Import ConnState(Conn, closed, sendBuf, recvBuf, rtt, rttVar, tsbpdTimer, tsbpdBaseSet).
Local Open Scope Z_scope.

Module Group.

(** ** State *)

Inductive GroupMode : Type := GroupBroadcast | GroupBackup.

Inductive backupState : Type := bsStandby | bsActiveFresh | bsActiveStable | bsActiveUnstable | bsBroken.

#[global] Instance GroupMode_eq_dec : EqDecision GroupMode.
Proof. solve_decision. Defined.
#[global] Instance backupState_eq_dec : EqDecision backupState.
Proof. solve_decision. Defined.

Definition active (s : backupState) : bool :=
  match s with bsActiveFresh | bsActiveStable | bsActiveUnstable => true | _ => false end.

Record groupMember : Type := mkMember {
  conn : Conn;
  weight : Z;
  m_state : backupState;
  activeSince : Z;
  lastProgress : Z;
  lastAckSeq : Z;
  ackSeqSet : bool;
  tbSynced : bool
}.

#[global] Instance eta_member : Eta groupMember := fun m =>
  mkMember (conn m) (weight m) (m_state m) (activeSince m) (lastProgress m) (lastAckSeq m) (ackSeqSet m) (tbSynced m).
#[global] Instance fld_member_conn : Field conn. Proof. derive_field. Defined.
#[global] Instance fld_member_state : Field m_state. Proof. derive_field. Defined.
#[global] Instance fld_member_activeSince : Field activeSince. Proof. derive_field. Defined.
#[global] Instance fld_member_lastProgress : Field lastProgress. Proof. derive_field. Defined.
#[global] Instance fld_member_lastAckSeq : Field lastAckSeq. Proof. derive_field. Defined.
#[global] Instance fld_member_ackSeqSet : Field ackSeqSet. Proof. derive_field. Defined.
#[global] Instance fld_member_tbSynced : Field tbSynced. Proof. derive_field. Defined.

Record bufferedMsg : Type := mkMsg { b_seqNo : Z; b_srcTime : Z; b_payload : list Z }.

Definition defaultStabTimeout : Z := 1 * Clock.Second.
Definition defaultSenderBufCap : nat := 2048.
Definition groupReorderWindow : Z := 256.

Record Group : Type := mkGroup {
  mode : GroupMode;
  members : list groupMember;
  stabTimeout : Z;
  nextSeq : Z;
  seqInit : bool;
  g_sndTSBase : Z;
  tsInit : bool;
  senderBuf : list bufferedMsg;
  senderBufCap : nat;
  pending : gmap Z (list Z);
  deliverNext : Z;
  dnInit : bool;
  maxSeen : Z;
  maxSeenSet : bool;
  groupTB : Tsbpd.GroupTimeBase;
  tbSet : bool;
  delivered : Fifo.fifo (list Z);
  dedups : Z
}.

#[global] Instance eta_group : Eta Group := fun g =>
  mkGroup (mode g) (members g) (stabTimeout g) (nextSeq g) (seqInit g) (g_sndTSBase g) (tsInit g) (senderBuf g)
    (senderBufCap g) (pending g) (deliverNext g) (dnInit g) (maxSeen g) (maxSeenSet g) (groupTB g) (tbSet g)
    (delivered g) (dedups g).
#[global] Instance fld_group_members : Field members. Proof. derive_field. Defined.
#[global] Instance fld_group_stabTimeout : Field stabTimeout. Proof. derive_field. Defined.
#[global] Instance fld_group_nextSeq : Field nextSeq. Proof. derive_field. Defined.
#[global] Instance fld_group_seqInit : Field seqInit. Proof. derive_field. Defined.
#[global] Instance fld_group_sndTSBase : Field g_sndTSBase. Proof. derive_field. Defined.
#[global] Instance fld_group_tsInit : Field tsInit. Proof. derive_field. Defined.
#[global] Instance fld_group_senderBuf : Field senderBuf. Proof. derive_field. Defined.
#[global] Instance fld_group_pending : Field pending. Proof. derive_field. Defined.
#[global] Instance fld_group_deliverNext : Field deliverNext. Proof. derive_field. Defined.
#[global] Instance fld_group_dnInit : Field dnInit. Proof. derive_field. Defined.
#[global] Instance fld_group_maxSeen : Field maxSeen. Proof. derive_field. Defined.
#[global] Instance fld_group_maxSeenSet : Field maxSeenSet. Proof. derive_field. Defined.
#[global] Instance fld_group_groupTB : Field groupTB. Proof. derive_field. Defined.
#[global] Instance fld_group_tbSet : Field tbSet. Proof. derive_field. Defined.
#[global] Instance fld_group_delivered : Field delivered. Proof. derive_field. Defined.
#[global] Instance fld_group_dedups : Field dedups. Proof. derive_field. Defined.

Definition NewGroup (m : GroupMode) : Group :=
  mkGroup m [] defaultStabTimeout 0 false 0 false [] defaultSenderBufCap ∅ 0 false 0 false (Tsbpd.mkGTB 0 false 0) false
    Fifo.empty 0.

Definition SetStabilityTimeout (d : Z) (g : Group) : Group := if d >? 0 then g <| stabTimeout := d |> else g.

Definition AddMember (c : Conn) (w : Z) (g : Group) : Group :=
  let next := SendBuffer.NextSeq (sendBuf c) in
  let '(c, g) :=
    if negb (seqInit g) then (c, g <| nextSeq := next |> <| seqInit := true |>)
    else if negb (next =? nextSeq g) then (c <| sendBuf ::= fun sb => snd (SendBuffer.OverrideNextSeq sb (nextSeq g)) |>, g)
    else (c, g) in
  g <| members ::= fun l => l ++ [mkMember c w bsStandby 0 0 0 false false] |>.

Definition Members (g : Group) : list Conn := map conn (members g).

(** The host works on the connection of member [i]. *)
Definition onMember (i : nat) (f : groupMember -> groupMember) (g : Group) : Group := g <| members ::= alter f i |>.
Definition onConn (i : nat) (f : Conn -> Conn) (g : Group) : Group := onMember i (fun m => m <| conn ::= f |>) g.

(** ** Member health *)

(** [max(min, 2*RTT + 4*RTTVar)]. *)
Definition timeoutOf (stab : Z) (c : Conn) : Z :=
  let dyn := i64 (i64 (rtt c * 2) + i64 (rttVar c * 4)) in
  if dyn >? stab then dyn else stab.

Definition noteProgress (now : Z) (mc : groupMember) : groupMember :=
  let acked := SendBuffer.StartSeq (sendBuf (conn mc)) in
  if negb (ackSeqSet mc) || Seq.GreaterThan acked (lastAckSeq mc)
  then mc <| lastAckSeq := acked |> <| ackSeqSet := true |> <| lastProgress := now |> else mc.

Definition qualify (stab now : Z) (mc : groupMember) : groupMember :=
  if closed (conn mc) then mc <| m_state := bsBroken |> else
  if bool_decide (m_state mc = bsStandby \/ m_state mc = bsBroken) then mc else
  let mc := noteProgress now mc in
  let timeout := timeoutOf stab (conn mc) in
  let since := Clock.Sub now (lastProgress mc) in
  if since >? i64 (4 * timeout) then mc <| m_state := bsBroken |>
  else if since >? timeout then mc <| m_state := bsActiveUnstable |>
  else match m_state mc with
       | bsActiveUnstable => mc <| m_state := bsActiveStable |>
       | bsActiveFresh => if Clock.Sub now (activeSince mc) >? timeout then mc <| m_state := bsActiveStable |> else mc
       | _ => mc
       end.

(** The index of the standby with the highest weight, the first of several. *)
Definition better (best : option (nat * groupMember)) (i : nat) (mc : groupMember) : option (nat * groupMember) :=
  if negb (bool_decide (m_state mc = bsStandby)) || closed (conn mc) then best else
  match best with
  | None => Some (i, mc)
  | Some (_, b) => if weight mc >? weight b then Some (i, mc) else best
  end.
Definition bestStandby (g : Group) : option nat :=
  fst <$> foldl (fun best '(i, mc) => better best i mc) None (imap pair (members g)).

Section Sending.
Context {P : Crypto.Primitives}.

Definition replay (now : Z) (c : Conn) (m : bufferedMsg) : Conn :=
  ConnSend.WriteCoordinated now (b_payload m) (b_seqNo m) (b_srcTime m) c.

Definition activate (now : Z) (buf : list bufferedMsg) (mc : groupMember) : groupMember :=
  mc <| m_state := bsActiveFresh |> <| activeSince := now |> <| lastProgress := now |> <| ackSeqSet := false |>
     <| conn ::= fun c => fold_left (replay now) buf c |>.

Definition healthy (s : backupState) : bool := match s with bsActiveFresh | bsActiveStable => true | _ => false end.

(** The members to write on, by index. *)
Definition activeMembers (now : Z) (g : Group) : list nat * Group :=
  let g := g <| members ::= map (qualify (stabTimeout g) now) |> in
  let act := omap (fun '(i, mc) => if active (m_state mc) then Some i else None) (imap pair (members g)) in
  if existsb (fun mc => healthy (m_state mc)) (members g) then (act, g) else
  match bestStandby g with
  | None => (act, g)
  | Some i => (act ++ [i], onMember i (activate now (senderBuf g)) g)
  end.

(** The furthest acknowledgement of the active members. *)
Definition maxAcked (ms : list groupMember) : option Z :=
  fold_left (fun best mc =>
    if negb (active (m_state mc)) || negb (ackSeqSet mc) then best else
    match best with
    | None => Some (lastAckSeq mc)
    | Some b => if Seq.GreaterThan (lastAckSeq mc) b then Some (lastAckSeq mc) else best
    end) ms None.

Fixpoint dropAcked (acked : Z) (buf : list bufferedMsg) : list bufferedMsg :=
  match buf with
  | [] => []
  | m :: rest => if Seq.LessThan (b_seqNo m) acked then dropAcked acked rest else buf
  end.

Definition bufferMsg (seqNo srcTime : Z) (payload : list Z) (g : Group) : Group :=
  let buf := senderBuf g ++ [mkMsg seqNo srcTime payload] in
  let buf := match maxAcked (members g) with Some a => dropAcked a buf | None => buf end in
  g <| senderBuf := drop (length buf - senderBufCap g) buf |>.

Definition writeOn (now : Z) (payload : list Z) (seqNo srcTime : Z) (g : Group) (i : nat) : Group :=
  onConn i (ConnSend.WriteCoordinated now payload seqNo srcTime) g.

Definition Write (now : Z) (payload : list Z) (g : Group) : Group :=
  match members g with
  | [] => g
  | _ =>
      let g := if tsInit g then g else g <| g_sndTSBase := Clock.SRTTimestamp now |> <| tsInit := true |> in
      let srcTime := u32 (Clock.SRTTimestamp now - g_sndTSBase g) in
      let seqNo := nextSeq g in
      let g := g <| nextSeq ::= Seq.Inc |> in
      match mode g with
      | GroupBackup =>
          let '(act, g) := activeMembers now g in
          bufferMsg seqNo srcTime payload (fold_left (writeOn now payload seqNo srcTime) act g)
      | GroupBroadcast => fold_left (writeOn now payload seqNo srcTime) (seq 0 (length (members g))) g
      end
  end.

Definition Monitor (now : Z) (g : Group) : Group :=
  match mode g with GroupBackup => snd (activeMembers now g) | GroupBroadcast => g end.

End Sending.

(** ** Merging *)

(** Each turn delivers a buffered payload or skips towards [maxSeen]. *)
Fixpoint drain_loop (fuel : nat) (g : Group) : Group :=
  match fuel with
  | O => g
  | S fuel =>
      match pending g !! Seq.Value (deliverNext g) with
      | Some d =>
          drain_loop fuel (g <| pending ::= delete (Seq.Value (deliverNext g)) |> <| delivered ::= fun q => Fifo.push q d |>
                             <| deliverNext ::= Seq.Inc |>)
      | None =>
          if maxSeenSet g && Seq.GreaterThan (maxSeen g) (Seq.Add (deliverNext g) groupReorderWindow)
          then drain_loop fuel (g <| deliverNext ::= Seq.Inc |>) else g
      end
  end.

Definition drain_fuel (g : Group) : nat := S (S (Z.to_nat (Seq.Distance (deliverNext g) (maxSeen g)))).
Definition drainPending (g : Group) : Group := drain_loop (drain_fuel g) g.

Definition filterDelivery (s : Z) (payload : list Z) (g : Group) : Group :=
  let g := if dnInit g then g else g <| deliverNext := s |> <| dnInit := true |> in
  if Seq.LessThan s (deliverNext g) then g <| dedups ::= fun n => u64 (n + 1) |> else
  match pending g !! Seq.Value s with
  | Some _ => g <| dedups ::= fun n => u64 (n + 1) |>
  | None =>
      let g := g <| pending ::= <[Seq.Value s := payload]> |> in
      let g := if negb (maxSeenSet g) || Seq.GreaterThan s (maxSeen g)
               then g <| maxSeen := s |> <| maxSeenSet := true |> else g in
      drainPending g
  end.

Definition PollDelivery (g : Group) : option (list Z) * Group :=
  let '(d, ok, q) := Fifo.pop [] (delivered g) in (if ok then Some d else None, g <| delivered := q |>).

(** The first member whose time base is set gives the group its own. *)
Definition anchored (c : Conn) : option Tsbpd.GroupTimeBase :=
  match tsbpdTimer c with Some t => if tsbpdBaseSet c then Some (Tsbpd.GetInternalTimeBase t) else None | None => None end.
Fixpoint anchor (ms : list groupMember) : option Tsbpd.GroupTimeBase * list groupMember :=
  match ms with
  | [] => (None, [])
  | mc :: rest =>
      match anchored (conn mc) with
      | Some tb => (Some tb, mc <| tbSynced := true |> :: rest)
      | None => let '(tb, rest) := anchor rest in (tb, mc :: rest)
      end
  end.

Definition syncMember (tb : Tsbpd.GroupTimeBase) (mc : groupMember) : groupMember :=
  if tbSynced mc then mc else
  match tsbpdTimer (conn mc) with
  | None => mc
  | Some t =>
      mc <| conn ::= fun c => c <| tsbpdTimer := Some (Tsbpd.ApplyGroupTime t tb (Tsbpd.Delay t)) |> <| tsbpdBaseSet := true |> |>
         <| tbSynced := true |>
  end.

Definition syncTimebases (g : Group) : Group :=
  let g := if tbSet g then g else
           match anchor (members g) with
           | (Some tb, ms) => g <| groupTB := tb |> <| tbSet := true |> <| members := ms |>
           | (None, _) => g
           end in
  if tbSet g then g <| members ::= map (syncMember (groupTB g)) |> else g.

(** The other members of a backup group follow the receive progress of [i]. *)
Definition follow (ackSeq : Z) (mc : groupMember) : groupMember :=
  if closed (conn mc) then mc else
  let rb := recvBuf (conn mc) in
  if RecvBuffer.IsEmpty rb && Seq.GreaterThan ackSeq (RecvBuffer.StartSeq rb)
  then mc <| conn ::= ConnRecv.resetRecvTo ackSeq |> else mc.
Definition followMember (i : nat) (g : Group) : Group :=
  match mode g, members g !! i with
  | GroupBackup, Some source =>
      let ackSeq := RecvBuffer.ACKSequence (recvBuf (conn source)) in
      g <| members ::= imap (fun j mc => if Nat.eqb j i then mc else follow ackSeq mc) |>
  | _, _ => g
  end.

Definition route (e : Output.Event) (g : Group) : Group :=
  match e with Output.EData d => filterDelivery (Output.d_Seq d) (Output.d_Data d) g | _ => g end.

(** The loop polls the events of member [i] until there are none. *)
Fixpoint poll_loop (fuel i : nat) (g : Group) : Group :=
  match fuel with
  | O => g
  | S fuel =>
      match members g !! i with
      | None => g
      | Some mc =>
          let '(e, c) := ConnCore.PollEvent (conn mc) in
          let g := onConn i (fun _ => c) g in
          match e with Some e => poll_loop fuel i (route e g) | None => g end
      end
  end.

(** [RouteMember] of the connection of member [i]. *)
Definition RouteMember (i : nat) (g : Group) : Group :=
  let g := followMember i (syncTimebases g) in
  match members g !! i with
  | None => g
  | Some mc => poll_loop (S (length (Fifo.contents (ConnState.events (conn mc))))) i g
  end.

(** ** Routing takes every event of the member once *)

Lemma onMember_members i f g : members (onMember i f g) = alter f i (members g).
Proof. done. Qed.

(** What a delivery changes of the group is not what the host works on. *)
Definition host (ms : list groupMember) (tb : Tsbpd.GroupTimeBase) (b : bool) (g : Group) : Group :=
  g <| members := ms |> <| groupTB := tb |> <| tbSet := b |>.

Lemma host_self g : host (members g) (groupTB g) (tbSet g) g = g.
Proof. by destruct g. Qed.

Lemma drain_loop_host ms tb b fuel : forall g, drain_loop fuel (host ms tb b g) = host ms tb b (drain_loop fuel g).
Proof.
  induction fuel as [|fuel IH]; intros g; [done|]. cbn [drain_loop].
  change (pending (host ms tb b g)) with (pending g). change (deliverNext (host ms tb b g)) with (deliverNext g).
  change (maxSeen (host ms tb b g)) with (maxSeen g). change (maxSeenSet (host ms tb b g)) with (maxSeenSet g).
  destruct (pending g !! _); [by rewrite <- IH|]. destruct (_ && _); [by rewrite <- IH|done].
Qed.

Lemma filterDelivery_host ms tb b s d g :
  filterDelivery s d (host ms tb b g) = host ms tb b (filterDelivery s d g).
Proof.
  unfold filterDelivery, drainPending. change (dnInit (host ms tb b g)) with (dnInit g).
  destruct (dnInit g); cbv zeta.
  - change (deliverNext (host ms tb b g)) with (deliverNext g). change (pending (host ms tb b g)) with (pending g).
    destruct (Seq.LessThan _ _); [done|]. destruct (pending g !! _); [done|]. fields.
    change (maxSeen (host ms tb b g)) with (maxSeen g). change (maxSeenSet (host ms tb b g)) with (maxSeenSet g).
    destruct (_ || _); by rewrite <- drain_loop_host.
  - fields. change (pending (host ms tb b g)) with (pending g). rewrite Seq.LessThan_irrefl.
    destruct (pending g !! _); [done|].
    change (maxSeen (host ms tb b g)) with (maxSeen g). change (maxSeenSet (host ms tb b g)) with (maxSeenSet g).
    destruct (_ || _); by rewrite <- drain_loop_host.
Qed.

Lemma route_host ms tb b e g : route e (host ms tb b g) = host ms tb b (route e g).
Proof. destruct e; try done. apply filterDelivery_host. Qed.

Lemma routed_host e g : route e g = host (members g) (groupTB g) (tbSet g) (route e g).
Proof. rewrite <- route_host. by rewrite host_self. Qed.

Lemma route_members e g : members (route e g) = members g.
Proof. by rewrite routed_host. Qed.
Lemma route_groupTB e g : groupTB (route e g) = groupTB g.
Proof. by rewrite routed_host. Qed.
Lemma route_tbSet e g : tbSet (route e g) = tbSet g.
Proof. by rewrite routed_host. Qed.

Lemma route_with ms e g : route e (g <| members := ms |>) = (route e g) <| members := ms |>.
Proof.
  change (g <| members := ms |>) with (host ms (groupTB g) (tbSet g) g) at 1. rewrite route_host.
  by rewrite <- (route_groupTB e), <- (route_tbSet e).
Qed.

Definition emptied (m : groupMember) : groupMember := m <| conn ::= fun c => c <| ConnState.events := Fifo.empty |> |>.

Definition routeAll (es : list Output.Event) (g : Group) : Group := fold_left (fun g e => route e g) es g.

Lemma routeAll_with ms es : forall g, routeAll es (g <| members := ms |>) = (routeAll es g) <| members := ms |>.
Proof. induction es as [|e es IH]; intros g; [done|]. simpl. rewrite route_with. apply IH. Qed.

Lemma routeAll_members es : forall g, members (routeAll es g) = members g.
Proof. induction es as [|e es IH]; intros g; [done|]. simpl. rewrite IH. apply route_members. Qed.

Lemma poll_none c : Fifo.contents (ConnState.events c) = [] ->
  ConnCore.PollEvent c = (None, c <| ConnState.events := Fifo.empty |>).
Proof.
  intros E. unfold ConnCore.PollEvent. pose proof (Fifo.pop_next Output.Closed (ConnState.events c)) as H.
  destruct (Fifo.pop _ _) as [[v ok] q]. rewrite E in H. by destruct H as [-> ->].
Qed.

Lemma poll_some c e l : Fifo.contents (ConnState.events c) = e :: l ->
  exists q, ConnCore.PollEvent c = (Some e, c <| ConnState.events := q |>) /\ Fifo.contents q = l.
Proof.
  intros E. unfold ConnCore.PollEvent. pose proof (Fifo.pop_next Output.Closed (ConnState.events c)) as H.
  destruct (Fifo.pop _ _) as [[v ok] q]. rewrite E in H. destruct H as (-> & -> & Hc). by exists q.
Qed.

Lemma onMember_set i f g : onMember i f g = g <| members := alter f i (members g) |>.
Proof. done. Qed.

Lemma onMember_ext i (f h : groupMember -> groupMember) g :
  (forall mc, members g !! i = Some mc -> f mc = h mc) -> onMember i f g = onMember i h g.
Proof.
  intros E. rewrite !onMember_set.
  enough (alter f i (members g) = alter h i (members g)) as H by by rewrite H.
  apply list_eq. intros j. destruct (decide (i = j)) as [<-|]; [|by rewrite !list_lookup_alter_ne].
  rewrite !list_lookup_alter_eq. destruct (members g !! i) as [mc|] eqn:Em; simpl; [|done]. by rewrite (E mc).
Qed.

Lemma onMember_onMember i (f h : groupMember -> groupMember) g :
  onMember i f (onMember i h g) = onMember i (fun m => f (h m)) g.
Proof.
  rewrite !onMember_set. fields.
  enough (alter f i (alter h i (members g)) = alter (fun m => f (h m)) i (members g)) as H by by rewrite <- H.
  apply list_eq. intros j. destruct (decide (i = j)) as [<-|]; [|by rewrite !list_lookup_alter_ne].
  rewrite !list_lookup_alter_eq. by destruct (members g !! i).
Qed.

Lemma poll_loop_S n i g mc : members g !! i = Some mc ->
  poll_loop (S n) i g =
    let '(e, c) := ConnCore.PollEvent (conn mc) in
    let g := onConn i (fun _ => c) g in
    match e with Some e => poll_loop n i (route e g) | None => g end.
Proof. intros H. cbn [poll_loop]. by rewrite H. Qed.

Lemma poll_loop_all i n : forall g mc,
  members g !! i = Some mc ->
  length (Fifo.contents (ConnState.events (conn mc))) = n ->
  poll_loop (S n) i g = onMember i emptied (routeAll (Fifo.contents (ConnState.events (conn mc))) g).
Proof.
  induction n as [|n IH]; intros g mc Hm Hn; rewrite (poll_loop_S _ _ _ _ Hm).
  { apply nil_length_inv in Hn. rewrite (poll_none _ Hn), Hn. cbv zeta beta iota. unfold onConn.
    change (routeAll [] g) with g. apply onMember_ext. intros m Hm'. rewrite Hm in Hm'. by injection Hm' as <-. }
  destruct (Fifo.contents (ConnState.events (conn mc))) as [|e l] eqn:E; [done|].
  destruct (poll_some _ _ _ E) as (q & -> & Eq). cbv zeta beta iota.
  set (h := fun m : groupMember => m <| conn ::= fun _ => (conn mc) <| ConnState.events := q |> |>).
  change (onConn i _ g) with (onMember i h g).
  rewrite (IH _ (h mc)); [| |by injection Hn as <-; simpl; rewrite Eq].
  - change (ConnState.events (conn (h mc))) with q. rewrite Eq. simpl. unfold onMember at 2.
    change (upd members (alter h i) g) with (g <| members := alter h i (members g) |>).
    rewrite route_with, routeAll_with.
    assert (Hk : members (routeAll l (route e g)) = members g) by by rewrite routeAll_members, route_members.
    rewrite <- Hk. change ((routeAll l (route e g)) <| members := alter h i (members (routeAll l (route e g))) |>)
      with (onMember i h (routeAll l (route e g))).
    rewrite onMember_onMember. apply onMember_ext. rewrite Hk, Hm. by intros m [= <-].
  - rewrite route_members, onMember_members, list_lookup_alter_eq, Hm. done.
Qed.

Lemma routeAll_host ms tb b es : forall g, routeAll es (host ms tb b g) = host ms tb b (routeAll es g).
Proof. induction es as [|e es IH]; intros g; [done|]. simpl. rewrite route_host. apply IH. Qed.

(** Aligning the members leaves the events of member [i] alone. *)
Definition eventsOf (i : nat) (ms : list groupMember) : option (Fifo.fifo Output.Event) :=
  (fun mc => ConnState.events (conn mc)) <$> ms !! i.

Lemma eventsOf_map i f ms :
  (forall mc, ConnState.events (conn (f mc)) = ConnState.events (conn mc)) -> eventsOf i (map f ms) = eventsOf i ms.
Proof. intros H. unfold eventsOf. rewrite (list_lookup_fmap f). destruct (ms !! i); simpl; [|done]. by rewrite H. Qed.

Lemma syncMember_events tb mc : ConnState.events (conn (syncMember tb mc)) = ConnState.events (conn mc).
Proof. unfold syncMember. destruct (tbSynced mc); [done|]. destruct (tsbpdTimer (conn mc)); [|done]. by fields. Qed.

Lemma anchor_events i ms : eventsOf i (anchor ms).2 = eventsOf i ms.
Proof.
  revert i. induction ms as [|mc ms IH]; intros i; [done|]. cbn [anchor]. destruct (anchored (conn mc)).
  - by destruct i.
  - destruct (anchor ms) as [tb rest]. destruct i as [|i]; [done|]. apply (IH i).
Qed.

Lemma syncTimebases_host g : exists ms tb b, syncTimebases g = host ms tb b g /\ forall i, eventsOf i ms = eventsOf i (members g).
Proof.
  unfold syncTimebases. destruct (tbSet g) eqn:E; cbv zeta.
  - rewrite E. exists (map (syncMember (groupTB g)) (members g)), (groupTB g), (tbSet g). split; [done|].
    intros i. apply eventsOf_map, syncMember_events.
  - pose proof (fun i => anchor_events i (members g)) as Ha. destruct (anchor (members g)) as [[tb|] ms].
    + fields. exists (map (syncMember tb) ms), tb, true. split; [done|]. intros i. rewrite eventsOf_map by apply syncMember_events. apply Ha.
    + rewrite E. exists (members g), (groupTB g), (tbSet g). by rewrite host_self.
Qed.

Lemma followMember_host i g : exists ms, followMember i g = host ms (groupTB g) (tbSet g) g /\ eventsOf i ms = eventsOf i (members g).
Proof.
  unfold followMember. destruct (mode g), (members g !! i) as [mc|] eqn:E;
    try (exists (members g); by rewrite host_self).
  eexists. split; [done|]. unfold eventsOf. rewrite list_lookup_imap, E. simpl. by rewrite Nat.eqb_refl.
Qed.

(** [RouteMember] hands the events of member [i] to the merge, and empties its queue. *)
Lemma RouteMember_routes i g mc :
  members g !! i = Some mc ->
  exists ms tb b,
    RouteMember i g = host ms tb b (routeAll (Fifo.contents (ConnState.events (conn mc))) g) /\
    eventsOf i ms = Some Fifo.empty.
Proof.
  intros Hm. unfold RouteMember.
  destruct (syncTimebases_host g) as (ms1 & tb & b & -> & E1). destruct (followMember_host i (host ms1 tb b g)) as (ms & -> & E2).
  change (members (host ms1 tb b g)) with ms1 in E2. rewrite E1 in E2. unfold eventsOf at 2 in E2. rewrite Hm in E2. simpl in E2.
  unfold eventsOf in E2. change (members (host ms (groupTB (host ms1 tb b g)) (tbSet (host ms1 tb b g)) (host ms1 tb b g))) with ms.
  destruct (ms !! i) as [mc'|] eqn:Em; [|done]. simpl in E2. injection E2 as E2.
  rewrite <- E2 in *. rewrite (poll_loop_all i _ _ mc'); [|done|done].
  rewrite !routeAll_host.
  exists (alter emptied i ms), tb, b. split; [done|]. unfold eventsOf. rewrite list_lookup_alter_eq, Em. done.
Qed.

(** ** Failover *)

Definition open_standby (mc : groupMember) : Prop := m_state mc = bsStandby /\ closed (conn mc) = false.

Lemma better_skip best i mc : ~ open_standby mc -> better best i mc = best.
Proof.
  unfold better, open_standby. intros H. case_bool_decide; simpl; [|done]. destruct (closed (conn mc)); [done|]. by destruct H.
Qed.
Lemma better_take best i mc : open_standby mc ->
  better best i mc = match best with None => Some (i, mc) | Some (_, b) => if weight mc >? weight b then Some (i, mc) else best end.
Proof. intros [H1 H2]. unfold better. rewrite bool_decide_true by done. by rewrite H2. Qed.

#[global] Instance open_standby_dec mc : Decision (open_standby mc).
Proof. unfold open_standby. apply _. Defined.

(** The fold keeps the best candidate so far. *)
Definition picked (l : list (nat * groupMember)) (r : option (nat * groupMember)) : Prop :=
  match r with
  | None => forall i mc, (i, mc) ∈ l -> ~ open_standby mc
  | Some (i, b) => (i, b) ∈ l /\ open_standby b /\ forall j mc, (j, mc) ∈ l -> open_standby mc -> weight mc <= weight b
  end.

Lemma better_picked seen best i mc : picked seen best -> picked (seen ++ [(i, mc)]) (better best i mc).
Proof.
  intros H. destruct (decide (open_standby mc)) as [Ho|Ho].
  - rewrite better_take by done. destruct best as [[k b]|]; simpl in H.
    + destruct H as (H1 & H2 & H3). rewrite Z.gtb_ltb. destruct (Z.ltb_spec (weight b) (weight mc)); simpl;
        (split; [rewrite elem_of_app, list_elem_of_singleton; auto|]); (split; [done|]);
        intros j m' [Hj|Hj]%elem_of_app Hm'; try (apply list_elem_of_singleton in Hj as [= -> ->]); try lia;
        specialize (H3 _ _ Hj Hm'); lia.
    + split; [rewrite elem_of_app, list_elem_of_singleton; auto|]. split; [done|].
      intros j m' [Hj|Hj]%elem_of_app Hm'; [by destruct (H _ _ Hj)|]. by apply list_elem_of_singleton in Hj as [= -> ->].
  - rewrite better_skip by done. destruct best as [[k b]|]; simpl in *.
    + destruct H as (H1 & H2 & H3). split; [by apply elem_of_app; left|]. split; [done|].
      intros j m' [Hj|Hj]%elem_of_app Hm'; [by apply (H3 j)|]. by apply list_elem_of_singleton in Hj as [= -> ->].
    + intros j m' [Hj|Hj]%elem_of_app; [by apply (H j)|]. by apply list_elem_of_singleton in Hj as [= -> ->].
Qed.

Lemma fold_picked l : forall seen best, picked seen best ->
  picked (seen ++ l) (foldl (fun best '(i, mc) => better best i mc) best l).
Proof.
  induction l as [|[i mc] l IH]; intros seen best H; simpl; [by rewrite app_nil_r|].
  rewrite (app_assoc seen [(i, mc)] l : seen ++ (i, mc) :: l = _). by apply IH, better_picked.
Qed.

Lemma elem_of_imap_pair {A} (l : list A) i x : (i, x) ∈ imap pair l <-> l !! i = Some x.
Proof.
  rewrite elem_of_lookup_imap. split; [intros (j & y & [= -> ->] & H); done|]. intros H. by exists i, x.
Qed.

Lemma bestStandby_spec g :
  match bestStandby g with
  | None => forall mc, mc ∈ members g -> ~ open_standby mc
  | Some i => exists b, members g !! i = Some b /\ open_standby b /\
                forall mc, mc ∈ members g -> open_standby mc -> weight mc <= weight b
  end.
Proof.
  unfold bestStandby. pose proof (fold_picked (imap pair (members g)) [] None) as H. simpl in H.
  destruct (foldl _ _ _) as [[i b]|]; simpl in *.
  - destruct H as (H1 & H2 & H3); [intros ? ? Hn; by apply not_elem_of_nil in Hn|]. exists b.
    split; [by apply elem_of_imap_pair|]. split; [done|]. intros mc [j Hj]%list_elem_of_lookup Ho.
    by apply (H3 j); [apply elem_of_imap_pair|].
  - intros mc [j Hj]%list_elem_of_lookup. eapply H; [|by apply elem_of_imap_pair].
    intros ? ? Hn. by apply not_elem_of_nil in Hn.
Qed.

Section Failover.
Context {P : Crypto.Primitives}.

Definition carrying (ms : list groupMember) : list nat :=
  omap (fun '(i, mc) => if active (m_state mc) then Some i else None) (imap pair ms).

Lemma carrying_spec ms i : i ∈ carrying ms <-> exists mc, ms !! i = Some mc /\ active (m_state mc) = true.
Proof.
  unfold carrying. rewrite list_elem_of_omap. split.
  - intros ([j mc] & Hj & E). apply elem_of_imap_pair in Hj. destruct (active (m_state mc)) eqn:Ea; [|done].
    injection E as <-. by exists mc.
  - intros (mc & H & Ea). exists (i, mc). split; [by apply elem_of_imap_pair|]. by rewrite Ea.
Qed.

Lemma omap_imap_NoDup {A} (f : A -> bool) (l : list A) n :
  NoDup (omap (fun '(i, x) => if f x then Some i else None) (imap (fun i x => ((n + i)%nat, x)) l)).
Proof.
  revert n. induction l as [|x l IH]; intros n; [constructor|]. cbn [imap].
  assert (E : imap ((λ i x, ((n + i)%nat, x)) ∘ S) l = imap (fun i x => ((S n + i)%nat, x)) l).
  { apply imap_ext. intros i y _. simpl. f_equal. lia. }
  rewrite E. simpl. destruct (f x); [|apply (IH (S n))]. constructor; [|apply (IH (S n))].
  intros Hin. change (n + 0 ∈ omap (fun '(i, x) => if f x then Some i else None) (imap (fun i x => ((S n + i)%nat, x)) l))%nat in Hin.
  revert Hin. rewrite list_elem_of_omap. intros ([j y] & Hj & Ej). apply elem_of_lookup_imap in Hj as (k & z & [= -> ->] & _).
  destruct (f z); [|done]. injection Ej as Ej. lia.
Qed.

Lemma carrying_NoDup ms : NoDup (carrying ms).
Proof. exact (omap_imap_NoDup (fun mc => active (m_state mc)) ms 0). Qed.

Lemma activeMembers_unfold now g :
  let ms := map (qualify (stabTimeout g) now) (members g) in
  activeMembers now g =
    if existsb (fun mc => healthy (m_state mc)) ms then (carrying ms, g <| members := ms |>) else
    match bestStandby (g <| members := ms |>) with
    | None => (carrying ms, g <| members := ms |>)
    | Some i => (carrying ms ++ [i], onMember i (activate now (senderBuf g)) (g <| members := ms |>))
    end.
Proof. done. Qed.

(** What the health check makes of a member, in plain numbers.  The peer makes progress
    when the oldest unacknowledged packet moves (or is looked at for the first time);
    the limit is the stability timeout or 2 RTT + 4 RTTVar, whichever is longer. *)
Definition progressed (mc : groupMember) : bool :=
  negb (ackSeqSet mc) || Seq.GreaterThan (SendBuffer.StartSeq (sendBuf (conn mc))) (lastAckSeq mc).

Definition limitOf (stab : Z) (mc : groupMember) : Z := Z.max stab (2 * rtt (conn mc) + 4 * rttVar (conn mc)).

Record judged (stab now : Z) (mc mc' : groupMember) : Prop := mkJudged {
  jd_same : conn mc' = conn mc /\ weight mc' = weight mc /\ activeSince mc' = activeSince mc /\ tbSynced mc' = tbSynced mc;
  jd_closed : closed (conn mc) = true -> m_state mc' = bsBroken;
  jd_inactive : closed (conn mc) = false -> active (m_state mc) = false -> mc' = mc;
  jd_active : closed (conn mc) = false -> active (m_state mc) = true ->
    let stall := if progressed mc then 0 else now - lastProgress mc in
    lastProgress mc' = now - stall /\ ackSeqSet mc' = true /\
    lastAckSeq mc' = (if progressed mc then SendBuffer.StartSeq (sendBuf (conn mc)) else lastAckSeq mc) /\
    m_state mc' =
      if 4 * limitOf stab mc <? stall then bsBroken
      else if limitOf stab mc <? stall then bsActiveUnstable
      else if bool_decide (m_state mc = bsActiveFresh) && (now - activeSince mc <=? limitOf stab mc) then bsActiveFresh
      else bsActiveStable
}.

(** Times and round trips far from the ends of their 64-bit range. *)
Definition moderate (stab now : Z) (mc : groupMember) : Prop :=
  0 <= stab <= 2 ^ 60 /\ 0 <= rtt (conn mc) <= 2 ^ 57 /\ 0 <= rttVar (conn mc) <= 2 ^ 57 /\
  0 <= lastProgress mc <= now /\ 0 <= activeSince mc <= now /\ now < 2 ^ 62.

#[global] Instance moderate_dec stab now mc : Decision (moderate stab now mc).
Proof. unfold moderate. apply _. Defined.

Lemma timeoutOf_limit stab now mc : moderate stab now mc ->
  timeoutOf stab (conn mc) = limitOf stab mc /\ 0 <= limitOf stab mc <= 2 ^ 60.
Proof.
  intros (H1 & H2 & H3 & _). unfold timeoutOf, limitOf. cbv zeta. rewrite !i64_id by (unfold is_i64; rewrite ?i64_id by (unfold is_i64; lia); lia).
  destruct (Z.gtb_spec (rtt (conn mc) * 2 + rttVar (conn mc) * 4) stab); lia.
Qed.

Lemma qualify_judged stab now mc : moderate stab now mc -> judged stab now mc (qualify stab now mc).
Proof.
  intros H. destruct (timeoutOf_limit stab now mc H) as [El Hl]. destruct H as (_ & _ & _ & Hp & Ha & Hn). unfold qualify.
  destruct (closed (conn mc)) eqn:Ec; [constructor; fields; congruence || done|].
  destruct (active (m_state mc)) eqn:Es.
  2: { rewrite bool_decide_eq_true_2 by (destruct (m_state mc); auto || discriminate Es). constructor; congruence || done. }
  rewrite bool_decide_eq_false_2 by (intros [E|E]; by rewrite E in Es). cbv zeta.
  set (mc1 := noteProgress now mc).
  assert (conn mc1 = conn mc /\ weight mc1 = weight mc /\ activeSince mc1 = activeSince mc /\ tbSynced mc1 = tbSynced mc /\
          m_state mc1 = m_state mc /\ ackSeqSet mc1 = true /\ lastProgress mc1 = now - (if progressed mc then 0 else now - lastProgress mc) /\
          lastAckSeq mc1 = if progressed mc then SendBuffer.StartSeq (sendBuf (conn mc)) else lastAckSeq mc)
    as (E1 & E2 & E3 & E4 & E5 & E6 & E7 & E8).
  { unfold mc1, noteProgress, progressed. destruct (ackSeqSet mc) eqn:Ea; [destruct (Seq.GreaterThan _ _) eqn:Eg|]; cbn [negb orb];
      fields; rewrite ?Ea; split_and!; try done; lia. }
  clearbody mc1. set (stall := if progressed mc then _ else _) in *.
  assert (0 <= stall <= now) by (unfold stall; destruct (progressed mc); lia).
  rewrite E1, El, E3, E5, E7. unfold Clock.Sub. rewrite !i64_id by (unfold is_i64; lia).
  replace (now - (now - stall)) with stall by lia. rewrite !Z.gtb_ltb.
  constructor; [|congruence|congruence|intros _ _; rewrite (Z.leb_antisym (limitOf stab mc)); fold stall; cbv zeta];
    (destruct (4 * _ <? stall); [by fields|]; destruct (limitOf stab mc <? stall); [by fields|];
     destruct (m_state mc) eqn:Em; try discriminate Es; destruct (limitOf stab mc <? now - activeSince mc); by fields).
Qed.

(** ** Replay *)

(** The packet on the wire for a buffered message. *)
Definition replays (encrypted : bool) (m : bufferedMsg) (p : Packet.Packet) : Prop :=
  Packet.SequenceNumber (Packet.Hdr p) = b_seqNo m /\ Packet.Timestamp (Packet.Hdr p) = b_srcTime m /\ Packet.PacketPosition (Packet.Hdr p) = Packet.PositionSingle /\
  Packet.Retransmitted (Packet.Hdr p) = false /\ (encrypted = false -> Packet.Data p = b_payload m).

(** A connection that can take part: up, with nothing of its own in flight. *)
Definition spare (k : Z) (c : Conn) : Prop :=
  closed c = false /\ ConnState.state c = ConnState.stateConnected /\ ConnState.cryptoCtx c = None /\ ConnSend.sinv k c [].

Lemma buildData_ts c s ts f : Packet.Timestamp (Packet.Hdr (ConnSend.buildData c s ts f)) = ts.
Proof.
  unfold ConnSend.buildData, ConnSend.encrypt. cbv zeta.
  destruct (_ && _), (ConnState.cryptoCtx c); try (by fields); destruct (Crypto.EncryptPayload _ _ _ _ _); by fields.
Qed.

Lemma replay_next k now m c q :
  ConnSend.sinv k c q -> closed c = false -> ConnState.state c = ConnState.stateConnected -> ConnState.cryptoCtx c = None ->
  len q < 2 ^ k -> SendBuffer.NextSeq (sendBuf c) = b_seqNo m ->
  let c' := replay now c m in
  exists e, ConnSend.sinv k c' (q ++ [e]) /\ closed c' = false /\ ConnState.state c' = ConnState.stateConnected /\
    ConnState.cryptoCtx c' = None /\ SendBuffer.NextSeq (sendBuf c') = Seq.Inc (b_seqNo m) /\
    replays false m (SendBuffer.pkt e) /\ ConnSend.originals c' = ConnSend.originals c ++ [SendBuffer.pkt e].
Proof.
  intros H Hc Hs Hk Hl Hn. cbv zeta. unfold replay, ConnSend.WriteCoordinated. rewrite Hc, bool_decide_eq_true_2 by done. cbn [orb negb].
  rewrite Hn, Z.eqb_refl. cbn [negb]. rewrite <- Hn. set (c1 := c <| ConnState.msgNumber ::= _ |>). cbv zeta.
  assert (H1 : ConnSend.sinv k c1 q) by (destruct H; constructor; unfold c1; by fields).
  assert (E1 : sendBuf c1 = sendBuf c /\ ConnState.cryptoCtx c1 = None /\ closed c1 = false /\
    ConnState.state c1 = ConnState.stateConnected /\ ConnSend.originals c1 = ConnSend.originals c)
    by (unfold c1, ConnSend.originals, ConnState.sent; by fields). destruct E1 as (E1 & E2 & E3 & E4 & E5).
  clearbody c1. rewrite <- E1. set (f := ConnState.mkFrame _ _ _ _ _ _ _).
  destruct (ConnSend.sendData_ok k q now (b_srcTime m) f c1 H1 Hl) as (D1 & D2 & _ & _ & D5 & D6 & D7).
  destruct (ConnSend.buildData_ok c1 (SendBuffer.NextSeq (sendBuf c1)) (b_srcTime m) f) as ((_ & B1 & _ & B2) & B3 & B4).
  exists (ConnSend.entryOf now (ConnSend.buildData c1 (SendBuffer.NextSeq (sendBuf c1)) (b_srcTime m) f) f).
  rewrite ConnSend.entryOf_pkt, D5, E5. destruct D2 as [_ _ _ K1 K2 _]. rewrite K1, K2. split_and!; try done; [by apply D6| |].
  - etransitivity; [exact D7|]. unfold SendBuffer.NextSeq. rewrite E1, Seq.Inc_sadd; [done|].
    rewrite (SendBuffer.rep_next _ _ _ (ConnSend.si_rep _ _ _ H)). apply Seq.sadd_seq.
  - split_and!; [by rewrite B3, E1|apply buildData_ts|done|done|]. intros _. by apply B4.
Qed.

Lemma replay_rest k now buf : forall c q s,
  ConnSend.sinv k c q -> closed c = false -> ConnState.state c = ConnState.stateConnected -> ConnState.cryptoCtx c = None ->
  Seq.is_seq s -> SendBuffer.NextSeq (sendBuf c) = s -> map b_seqNo buf = Seq.seqs s (length buf) -> len q + len buf <= 2 ^ k ->
  let c' := fold_left (replay now) buf c in
  exists new, ConnSend.sinv k c' (q ++ new) /\ Forall2 (replays false) buf (map SendBuffer.pkt new) /\
    ConnSend.originals c' = ConnSend.originals c ++ map SendBuffer.pkt new.
Proof.
  induction buf as [|m buf IH]; intros c q s H Hc Hs Hk Hq Hn Hb Hl; cbv zeta; cbn [fold_left].
  - exists []. rewrite !app_nil_r. split_and!; [done|constructor|done].
  - cbn [map length Seq.seqs] in Hb. injection Hb as Hm Hb.
    assert (Hl' : len q < 2 ^ k) by (unfold len in *; simpl length in Hl; lia).
    destruct (replay_next k now m c q H Hc Hs Hk Hl' ltac:(congruence)) as (e & E1 & E2 & E3 & E4 & E5 & E6 & E7).
    destruct (IH (replay now c m) (q ++ [e]) (Seq.Inc s)) as (new & N1 & N2 & N3); try done.
    + by apply Seq.Inc_seq.
    + congruence.
    + unfold len in *. rewrite length_app. simpl length in *. lia.
    + exists (e :: new). rewrite <- app_assoc in N1. cbn [map app] in *. split_and!; [done|by constructor|].
      by rewrite N3, E7, <- app_assoc.
Qed.

(** Replaying consecutive messages on a spare connection, wherever its next number was. *)
Lemma replay_all k now s buf c :
  spare k c -> Seq.is_seq s -> map b_seqNo buf = Seq.seqs s (length buf) -> len buf <= 2 ^ k ->
  let c' := fold_left (replay now) buf c in
  exists new, ConnSend.sinv k c' new /\ Forall2 (replays false) buf (map SendBuffer.pkt new) /\
    ConnSend.originals c' = ConnSend.originals c ++ map SendBuffer.pkt new.
Proof.
  intros (Hc & Hs & Hk & H) Hq Hb Hl. destruct buf as [|m buf].
  { exists []. rewrite app_nil_r. split_and!; [done|constructor|done]. }
  destruct (Z.eqb_spec (SendBuffer.NextSeq (sendBuf c)) s) as [En|En]; [by apply (replay_rest k now (m :: buf) c [] s)|].
  set (c0 := c <| sendBuf ::= fun sb => snd (SendBuffer.OverrideNextSeq sb s) |>).
  destruct (SendBuffer.OverrideNextSeq_empty k (sendBuf c) [] s (ConnSend.si_rep _ _ _ H) Hq) as [R0 S0];
    [by rewrite (SendBuffer.rep_size _ _ _ (ConnSend.si_rep _ _ _ H))|].
  assert (N0 : SendBuffer.nextSeq (snd (SendBuffer.OverrideNextSeq (sendBuf c) s)) = s)
    by (rewrite (SendBuffer.rep_next _ _ _ R0), S0; by apply Seq.sadd_0).
  assert (H0 : ConnSend.sinv k c0 []) by (destruct H; constructor; unfold c0; by fields).
  assert (E : replay now c m = replay now c0 m).
  { assert (Hm : b_seqNo m = s) by (cbn [map length Seq.seqs] in Hb; by injection Hb).
    assert (E1 : closed c0 = closed c /\ ConnState.state c0 = ConnState.state c /\ SendBuffer.NextSeq (sendBuf c0) = s)
      by (unfold c0, SendBuffer.NextSeq; by fields). destruct E1 as (E1 & E2 & E3).
    unfold replay, ConnSend.WriteCoordinated. rewrite E1, E2, E3, Hm, Hc, Hs, Z.eqb_refl. cbn [negb].
    destruct (Z.eqb_spec (SendBuffer.NextSeq (sendBuf c)) s); [done|]. done. }
  cbv zeta. cbn [fold_left]. rewrite E.
  replace (ConnSend.originals c) with (ConnSend.originals c0) by (unfold c0, ConnSend.originals, ConnState.sent; by fields).
  apply (replay_rest k now (m :: buf) c0 [] s); try done; unfold c0; by fields.
Qed.

(** C21. Failover in backup mode.  [activeMembers] first judges every member: a closed
    link is broken; an open standby or broken link is left as it is; an active link is broken
    when its peer has acknowledged nothing new for more than four times the limit, unstable for more than
    once the limit, and otherwise healthy (fresh until it has been active for longer
    than the limit, then stable), the limit being the stability timeout or 2 RTT + 4
    RTTVar, whichever is longer.  Then, only when no link is healthy and there
    is an open standby, it activates the standby of the greatest weight: that link becomes fresh, its clocks restart, and the whole
    sender buffer is replayed on it: when it is up, unencrypted, with nothing of its own
    in flight and room for the buffer, its send queue becomes exactly the buffered
    messages, each sent on the wire in order with its own sequence number, timestamp and payload
    (the buffered numbers being consecutive, as [Write] makes them).  No other link is touched, and the members that carry the
    write are exactly the active ones, each once. *)
Theorem group_failover (now : Z) (g : Group) :
  Forall (moderate (stabTimeout g) now) (members g) ->
  let '(act, g') := activeMembers now g in
  exists ms, Forall2 (judged (stabTimeout g) now) (members g) ms /\
  (forall i, i ∈ act <-> exists mc, members g' !! i = Some mc /\ active (m_state mc) = true) /\
  NoDup act /\
  if decide (Exists (fun mc => healthy (m_state mc) = true) ms \/ Forall (fun mc => ~ open_standby mc) ms)
  then members g' = ms
  else exists i b b', ms !! i = Some b /\ open_standby b /\ Forall (fun mc => open_standby mc -> weight mc <= weight b) ms /\
    members g' = <[i := b']> ms /\
    (m_state b', weight b', activeSince b', lastProgress b', ackSeqSet b') = (bsActiveFresh, weight b, now, now, false) /\
    forall k s, spare k (conn b) -> Seq.is_seq s -> map b_seqNo (senderBuf g) = Seq.seqs s (length (senderBuf g)) ->
      len (senderBuf g) <= 2 ^ k ->
      exists new, ConnSend.sinv k (conn b') new /\ Forall2 (replays false) (senderBuf g) (map SendBuffer.pkt new) /\
        ConnSend.originals (conn b') = ConnSend.originals (conn b) ++ map SendBuffer.pkt new.
Proof.
  intros Hmod. rewrite activeMembers_unfold. set (ms := map (qualify (stabTimeout g) now) (members g)).
  assert (Hj : Forall2 (judged (stabTimeout g) now) (members g) ms).
  { unfold ms. clear -Hmod. induction Hmod as [|mc l Hm _ IH]; constructor; [by apply qualify_judged|done]. }
  destruct (existsb _ ms) eqn:Eh.
  { exists ms. split; [done|]. split; [apply carrying_spec|]. split; [apply carrying_NoDup|]. rewrite decide_True; [done|].
    left. apply existsb_exists in Eh as (mc & Hin & Hh). apply Exists_exists. exists mc. split; [by apply list_elem_of_In|done]. }
  assert (Hno : ~ Exists (fun mc => healthy (m_state mc) = true) ms).
  { intros (mc & Hin & Hh)%Exists_exists. apply not_true_iff_false in Eh. apply Eh, existsb_exists. exists mc.
    split; [by apply list_elem_of_In|done]. }
  pose proof (bestStandby_spec (g <| members := ms |>)) as Hb. change (members (g <| members := ms |>)) with ms in Hb.
  destruct (bestStandby _) as [i|].
  2: { exists ms. split; [done|]. split; [apply carrying_spec|]. split; [apply carrying_NoDup|]. rewrite decide_True; [done|].
       right. by apply Forall_forall. }
  destruct Hb as (b & Hi & Ho & Hw). exists ms. split; [done|]. rewrite onMember_members. change (members (g <| members := ms |>)) with ms.
  assert (Hn : i ∉ carrying ms).
  { intros (mc & Hi' & Ha)%carrying_spec. rewrite Hi in Hi'. injection Hi' as <-. destruct Ho as [Ho' _]. by rewrite Ho' in Ha. }
  split; [|split].
  - intros j. rewrite elem_of_app, list_elem_of_singleton, carrying_spec. destruct (decide (i = j)) as [<-|Hne].
    + rewrite list_lookup_alter_eq, Hi. split; [|by right]. intros _. eexists. split; [reflexivity|]. done.
    + rewrite list_lookup_alter_ne by done. split; [|by left]. intros [?|?]; [done|congruence].
  - apply NoDup_app. split; [apply carrying_NoDup|]. split; [intros j Hj' Hj''%list_elem_of_singleton; congruence|].
    constructor; [apply not_elem_of_nil|constructor].
  - rewrite decide_False.
    2: { intros [?|Hf]; [done|]. rewrite Forall_forall in Hf. apply (Hf b); [by eapply list_elem_of_lookup_2|done]. }
    exists i, b, (activate now (senderBuf g) b). split_and!; try done.
    + by apply Forall_forall.
    + apply list_eq. intros j. destruct (decide (i = j)) as [<-|Hne].
      * rewrite list_lookup_alter_eq, Hi, list_lookup_insert_eq; [done|]. by eapply lookup_lt_Some.
      * by rewrite list_lookup_alter_ne, list_lookup_insert_ne.
    + intros k s Hsp Hs Hc Hl. destruct (replay_all k now s (senderBuf g) (conn b) Hsp Hs Hc Hl) as (new & N1 & N2 & N3). by exists new.
Qed.

(** ** A pause breaks the links

    Progress is only an advance of the send buffer, which an idle link does not
    make; a broken member is not qualified again. *)

Definition idle (stab now : Z) (mc : groupMember) : Prop :=
  closed (conn mc) = false /\ active (m_state mc) = true /\ ackSeqSet mc = true /\
  Seq.GreaterThan (SendBuffer.StartSeq (sendBuf (conn mc))) (lastAckSeq mc) = false /\
  Clock.Sub now (lastProgress mc) > i64 (4 * timeoutOf stab (conn mc)).

Definition idleb (stab now : Z) (mc : groupMember) : bool :=
  negb (closed (conn mc)) && active (m_state mc) && ackSeqSet mc &&
  negb (Seq.GreaterThan (SendBuffer.StartSeq (sendBuf (conn mc))) (lastAckSeq mc)) &&
  (Clock.Sub now (lastProgress mc) >? i64 (4 * timeoutOf stab (conn mc))).

Lemma idleb_all stab now ms : forallb (idleb stab now) ms = true -> forall mc, mc ∈ ms -> idle stab now mc.
Proof.
  intros H mc Hin%list_elem_of_In. rewrite forallb_forall in H. apply H in Hin. unfold idleb in Hin.
  rewrite !andb_true_iff, !negb_true_iff in Hin. destruct Hin as [[[[? ?] ?] ?] Hg]. repeat split; try done.
  rewrite Z.gtb_ltb in Hg. lia.
Qed.

Lemma qualify_idle stab now mc : idle stab now mc -> qualify stab now mc = mc <| m_state := bsBroken |>.
Proof.
  intros (Hc & Ha & Hs & Hp & Hd). unfold qualify, noteProgress. rewrite Hc, Hs, Hp.
  rewrite bool_decide_false by (intros [E|E]; rewrite E in Ha; discriminate Ha). simpl orb. cbv zeta.
  rewrite Z.gtb_ltb. destruct (Z.ltb_spec (i64 (4 * timeoutOf stab (conn mc))) (Clock.Sub now (lastProgress mc))); [done|lia].
Qed.

Lemma qualify_broken stab now mc : m_state mc = bsBroken -> qualify stab now mc = mc.
Proof.
  intros H. unfold qualify. rewrite bool_decide_true by auto. destruct mc. simpl in *. subst. by destruct (closed conn0).
Qed.

Definition all_broken (g : Group) : Prop := forall mc, mc ∈ members g -> m_state mc = bsBroken.

Lemma broken_inactive now g ms :
  map (qualify (stabTimeout g) now) (members g) = ms -> (forall mc, mc ∈ ms -> m_state mc = bsBroken) ->
  activeMembers now g = ([], g <| members := ms |>).
Proof.
  intros E Hb. rewrite activeMembers_unfold, E.
  assert (Hc : carrying ms = []).
  { destruct (carrying ms) as [|i l] eqn:Ec; [done|]. assert (Hi : i ∈ carrying ms) by (rewrite Ec; by left).
    apply carrying_spec in Hi as (mc & Hm & Ha). rewrite (Hb mc) in Ha; [done|]. by eapply list_elem_of_lookup_2. }
  destruct (existsb _ ms) eqn:Eh.
  { apply existsb_exists in Eh as (mc & Hin & Hh). apply list_elem_of_In in Hin. by rewrite (Hb _ Hin) in Hh. }
  pose proof (bestStandby_spec (g <| members := ms |>)) as Hs. destruct (bestStandby _) as [i|]; [|by rewrite Hc].
  destruct Hs as (b & Hi & [Ho _] & _). apply list_elem_of_lookup_2 in Hi. by rewrite (Hb b Hi) in Ho.
Qed.

Lemma write_inactive now d g :
  mode g = GroupBackup -> (forall mc, mc ∈ map (qualify (stabTimeout g) now) (members g) -> m_state mc = bsBroken) ->
  members (Write now d g) = map (qualify (stabTimeout g) now) (members g) /\ mode (Write now d g) = GroupBackup.
Proof.
  intros Hm Hb. unfold Write. destruct (members g) as [|mc ms] eqn:E; [by rewrite E|]. rewrite <- E in *. cbv zeta.
  set (g1 := if tsInit g then g else _).
  assert (H1 : mode (g1 <| nextSeq ::= Seq.Inc |>) = GroupBackup) by (subst g1; by destruct (tsInit g)). rewrite H1.
  rewrite (broken_inactive now _ (map (qualify (stabTimeout g) now) (members g))); [| |done].
  - split; [done|]. simpl. unfold bufferMsg. by fields.
  - subst g1. by destruct (tsInit g).
Qed.

(** A backup group whose links are open but have been idle for four stability
    timeouts loses every later write. *)
Theorem group_pause_breaks (now now' : Z) (d d' : list Z) (g : Group) :
  mode g = GroupBackup -> (forall mc, mc ∈ members g -> idle (stabTimeout g) now mc) ->
  let g1 := Write now d g in
  let g2 := Write now' d' g1 in
  all_broken g1 /\ Members g1 = Members g /\ Members g2 = Members g.
Proof.
  intros Hm Hi g1 g2.
  assert (Hq : map (qualify (stabTimeout g) now) (members g) = map (fun mc => mc <| m_state := bsBroken |>) (members g)).
  { apply map_ext_in. intros mc Hin. apply qualify_idle, Hi. by apply list_elem_of_In. }
  assert (Hb : forall mc, mc ∈ map (qualify (stabTimeout g) now) (members g) -> m_state mc = bsBroken).
  { rewrite Hq. intros mc Hin. apply list_elem_of_In, in_map_iff in Hin as (m0 & <- & _). done. }
  destruct (write_inactive now d g Hm Hb) as [E1 M1]. fold g1 in E1, M1.
  assert (Hq1 : map (qualify (stabTimeout g1) now') (members g1) = members g1).
  { rewrite <- (map_id (members g1)) at 2. apply map_ext_in. intros mc Hin. apply qualify_broken, Hb. rewrite <- E1. by apply list_elem_of_In. }
  destruct (write_inactive now' d' g1 M1) as [E2 _]; [rewrite Hq1, E1; done|]. fold g2 in E2.
  split; [unfold all_broken; by rewrite E1|]. unfold Members. rewrite E2, Hq1, E1, Hq, map_map. by split.
Qed.

End Failover.

(** ** Concrete groups *)

#[local] Existing Instances Crypto.toy.

(** An established connection with room for four packets. *)
Definition toyLink : Conn :=
  Establish.establish 1000 (EP.zero <| EP.FlowWindow := 4 |> <| EP.BufferCapacity := 4 |>) (ConnState.zeroConn (fun _ => None)).
Definition acked (n : Z) : Conn -> Conn := fun c => c <| sendBuf ::= fun sb => snd (SendBuffer.ACK sb n) |>.

(** One message is written and acknowledged; the monitor runs once. *)
Definition toyPaused : Group :=
  Monitor 100000 (onConn 0 (acked 1) (Write 2000 [7] (AddMember toyLink 1 (NewGroup GroupBackup)))).

Lemma group_pause_breaks_witness :
  map (fun c => (closed c, SendBuffer.Size (sendBuf c))) (Members toyPaused) = [(false, 0)] /\
  all_broken (Write 10000000 [8] toyPaused) /\ Members (Write 20000000 [9] (Write 10000000 [8] toyPaused)) = Members toyPaused.
Proof.
  split; [vm_compute; reflexivity|].
  destruct (group_pause_breaks 10000000 20000000 [8] [9] toyPaused) as (H1 & _ & H2).
  - vm_compute. reflexivity.
  - apply idleb_all. vm_compute. reflexivity.
  - exact (conj H1 H2).
Defined.

(** Two links; the heavier one carries a message and then closes; the other takes over,
    with the message replayed. *)
Definition toyFailing : Group :=
  onConn 1 (fun c => c <| closed := true |>) (Write 2000 [7] (AddMember toyLink 2 (AddMember toyLink 1 (NewGroup GroupBackup)))).

Lemma group_failover_witness :
  map m_state (members toyFailing) = [bsStandby; bsActiveFresh] /\
  (let '(act, g') := activeMembers 3000 toyFailing in
   act = [0%nat] /\ NoDup act /\ (exists ms, Forall2 (judged (stabTimeout toyFailing) 3000) (members toyFailing) ms) /\
   map m_state (members g') = [bsActiveFresh; bsBroken] /\
   map (fun mc => map Packet.Data (ConnSend.originals (conn mc))) (members g') = [[[7]]; [[7]]]).
Proof.
  split; [vm_compute; reflexivity|]. pose proof (group_failover 3000 toyFailing) as H.
  destruct (activeMembers 3000 toyFailing) as [act g'] eqn:E.
  assert (Ea : act = fst (activeMembers 3000 toyFailing)) by (rewrite E; reflexivity).
  assert (Eg : g' = snd (activeMembers 3000 toyFailing)) by (rewrite E; reflexivity).
  destruct H as (ms & H1 & _ & H2 & _).
  - apply (bool_decide_unpack _). vm_compute. exact I.
  - split; [rewrite Ea; vm_compute; reflexivity|]. split; [exact H2|]. split; [exists ms; exact H1|].
    rewrite Eg. split; vm_compute; reflexivity.
Defined.

(** Writing has no flow control: a message that finds the send buffer full is
    dropped, the next one moves [nextSeq] past it, and with one packet
    acknowledged the slot it takes is that of the oldest packet in flight.  A loss
    report for packet 1 is then answered with packet 5. *)
Definition toyOverrun : Group :=
  let w d g := Write 2000 [d] g in
  w 15 (onConn 0 (acked 1) (w 14 (w 13 (w 12 (w 11 (w 10 (AddMember toyLink 1 (NewGroup GroupBroadcast)))))))).

Theorem group_overrun_overwrites :
  map (fun c => (SendBuffer.StartSeq (sendBuf c), SendBuffer.Size (sendBuf c),
                 map (fun p => (Packet.SequenceNumber (Packet.Hdr p), Packet.Data p)) (SendBuffer.NAK (sendBuf c) [1])))
      (Members toyOverrun) = [(1, 4, [(5, [15])])].
Proof. vm_compute. reflexivity. Qed.

End Group.
