(* ===== verification/GroupMerge.v ===== *)
(** * What a group delivers ([internal/core/group.go], [filterDelivery])

    The members of a group deliver copies of one stream; the group merges them.
    The stream is described by unbounded positions: position [p] carries the
    sequence number [pos p].  [merged] relates the group's 31-bit bookkeeping to
    the positions that arrived and to the log of what was handed out, and the
    theorem reads off what the application sees. *)
From Stdlib Require Import ZArith Lia Sorting.Sorted.
From stdpp Require Import base numbers list option gmap sorting fin_maps.
From S2P Require Import Prelude Seq Tsbpd Fifo Output Crypto ConnState Group.
Import Group(Group, members, groupMember, conn, route, routeAll, host, onConn, onMember, AddMember, Write, Monitor, PollDelivery, RouteMember, deliverNext, dnInit, maxSeen, maxSeenSet, pending, delivered, dedups, groupReorderWindow, NewGroup, drain_loop, drain_fuel, drainPending, filterDelivery, GroupBroadcast, GroupBackup).
Local Open Scope Z_scope.

Module GroupMerge.

Definition pos (p : Z) : Z := Seq.sadd 0 p.

Lemma pos_seq p : Seq.is_seq (pos p).
Proof. apply Seq.sadd_seq. Qed.

Lemma pos_sadd p n : Seq.sadd (pos p) n = pos (p + n).
Proof. apply Seq.sadd_sadd. Qed.

Lemma Inc_pos p : Seq.Inc (pos p) = pos (p + 1).
Proof. rewrite Seq.Inc_sadd by apply pos_seq. apply pos_sadd. Qed.

Lemma Add_window_pos p : Seq.Add (pos p) groupReorderWindow = pos (p + 256).
Proof. change groupReorderWindow with (u32 256). rewrite Seq.Add_sadd by (apply pos_seq || lia). apply pos_sadd. Qed.

Lemma Distance_pos p q : - 2 ^ 30 < q - p < 2 ^ 30 -> Seq.Distance (pos p) (pos q) = q - p.
Proof.
  intros H. rewrite Seq.Distance_gap by apply pos_seq.
  assert (E : Seq.gap (pos p) (pos q) = (q - p) mod 2 ^ 31).
  { unfold Seq.gap, pos, Seq.sadd. rewrite <- Zminus_mod. f_equal. }
  rewrite E. zcase; simpl in *; zdm.
Qed.

Lemma LessThan_pos p q : - 2 ^ 30 < q - p < 2 ^ 30 -> Seq.LessThan (pos p) (pos q) = (p <? q).
Proof. intros H. rewrite Seq.LessThan_Distance, Distance_pos by (apply pos_seq || done). zcase; lia. Qed.

Lemma pos_inj p q : - 2 ^ 31 < q - p < 2 ^ 31 -> pos p = pos q -> p = q.
Proof. unfold pos, Seq.sadd. intros. zdm. Qed.

Lemma GreaterThan_pos p q : - 2 ^ 30 < q - p < 2 ^ 30 -> Seq.GreaterThan (pos p) (pos q) = (q <? p).
Proof.
  intros H. unfold Seq.GreaterThan. rewrite LessThan_pos by done.
  destruct (Z.eqb_spec (pos p) (pos q)) as [E|E].
  - apply pos_inj in E as ->; [|lia]. by rewrite Z.ltb_irrefl.
  - assert (p <> q) by congruence. zcase; simpl; try done; lia.
Qed.

(** ** The relation *)

Abbreviation arrival := (Z * list Z)%type.

Lemma fst_mid {A B} (l1 : list (A * B)) p d l2 : p ∈ (l1 ++ (p, d) :: l2).*1.
Proof. rewrite fmap_app. apply elem_of_app. right. by left. Qed.

Record merged (first : Z) (out : list (list Z)) (next top : Z) (log arr : list arrival) (g : Group) : Prop := mkMerged {
  mg_next : deliverNext g = pos next;
  mg_init : dnInit g = true;
  mg_top : maxSeen g = pos top;
  mg_set : maxSeenSet g = true;
  mg_range : first <= next <= top + 1;
  mg_far : top < next + 2 ^ 30 - 257;
  mg_wf : Fifo.wf (delivered g);
  mg_out : out ++ Fifo.contents (delivered g) = log.*2;
  mg_sorted : StronglySorted Z.lt log.*1;
  mg_log : forall q d, (q, d) ∈ log -> first <= q < next /\ (q, d) ∈ arr;
  mg_gap : forall q, first <= q < next -> q ∈ log.*1 \/ q + 256 < top;
  mg_held : forall k d, pending g !! k = Some d -> exists q, k = pos q /\ next <= q <= top /\ (q, d) ∈ arr;
  mg_topin : top ∈ arr.*1;
  mg_max : forall q, q ∈ arr.*1 -> q <= top;
  mg_kept : forall l1 p d l2, arr = l1 ++ (p, d) :: l2 -> first <= p ->
    p ∈ log.*1 \/ (next <= p /\ is_Some (pending g !! pos p)) \/ exists q, q ∈ l1.*1 /\ p + 256 < q;
  mg_count : dedups g = u64 (len arr - len log - Z.of_nat (size (pending g)))
}.

Arguments mg_next {_ _ _ _ _ _ _} _.
Arguments mg_init {_ _ _ _ _ _ _} _.
Arguments mg_top {_ _ _ _ _ _ _} _.
Arguments mg_set {_ _ _ _ _ _ _} _.
Arguments mg_range {_ _ _ _ _ _ _} _.
Arguments mg_far {_ _ _ _ _ _ _} _.
Arguments mg_wf {_ _ _ _ _ _ _} _.
Arguments mg_out {_ _ _ _ _ _ _} _.
Arguments mg_sorted {_ _ _ _ _ _ _} _.
Arguments mg_log {_ _ _ _ _ _ _} _.
Arguments mg_gap {_ _ _ _ _ _ _} _.
Arguments mg_held {_ _ _ _ _ _ _} _.
Arguments mg_topin {_ _ _ _ _ _ _} _.
Arguments mg_max {_ _ _ _ _ _ _} _.
Arguments mg_kept {_ _ _ _ _ _ _} _.
Arguments mg_count {_ _ _ _ _ _ _} _.

Section Steps.
Context (first : Z) (out : list (list Z)).
Implicit Types (g : Group) (log arr : list arrival).

(** Delivering the payload at [next]. *)
Lemma merged_deliver next top log arr g d :
  merged first out next top log arr g -> pending g !! pos next = Some d ->
  merged first out (next + 1) top (log ++ [(next, d)]) arr
    (g <| pending ::= delete (Seq.Value (deliverNext g)) |> <| delivered ::= fun q => Fifo.push q d |> <| deliverNext ::= Seq.Inc |>)
  /\ next <= top.
Proof.
  intros [N I T S [R1 R2] F W O Z L G H TI M K C] E.
  destruct (H _ _ E) as (q & Eq & Rq & Aq). apply pos_inj in Eq as <-; [|lia]. split; [|lia].
  split; fields; unfold Seq.Value; rewrite ?N; try done; try lia.
  - apply Inc_pos.
  - by apply Fifo.push_wf.
  - rewrite Fifo.push_contents, app_assoc, O, fmap_app by done. done.
  - rewrite fmap_app. apply StronglySorted_app; repeat split; [|done|].
    + intros x1 x2 Hx1 Hx2. apply list_elem_of_singleton in Hx2 as ->.
      apply list_elem_of_fmap in Hx1 as ([q' d'] & -> & Hq). simpl. apply L in Hq. lia.
    + repeat constructor.
  - intros q' d' [Hq|Hq]%elem_of_app; [apply L in Hq as [? ?]; split; [lia|done]|].
    apply list_elem_of_singleton in Hq as [= -> ->]. split; [lia|done].
  - intros q' Hq'. rewrite fmap_app, elem_of_app. destruct (decide (q' = next)) as [->|].
    + left. right. apply list_elem_of_singleton. done.
    + destruct (G q') as [?|?]; [lia|by left; left|by right].
  - intros k d' [Hk Hd]%lookup_delete_Some. destruct (H _ _ Hd) as (q' & -> & Rq' & Aq').
    exists q'. assert (q' <> next) by congruence. repeat split; [lia|lia|done].
  - intros l1 p d' l2 El Hp. rewrite fmap_app, elem_of_app. destruct (K _ _ _ _ El Hp) as [?|[[Hn Hs]|Hq]].
    + by left; left.
    + destruct (decide (p = next)) as [->|]; [left; right; by apply list_elem_of_singleton|].
      right. left. split; [lia|]. rewrite lookup_delete_ne; [done|]. intros E'. apply pos_inj in E'; [lia|].
      assert (p <= top) by (apply M; rewrite El; apply fst_mid). lia.
    + by right; right.
  - rewrite C. rewrite map_size_delete, E. simpl.
    assert (size (pending g) <> 0%nat). { intros Hz. apply map_size_empty_iff in Hz. rewrite Hz in E. done. }
    f_equal. unfold len. rewrite length_app. simpl. lia.
Qed.
(** Giving up on [next]. *)
Lemma merged_skip next top log arr g :
  merged first out next top log arr g -> pending g !! pos next = None -> next + 256 < top ->
  merged first out (next + 1) top log arr (g <| deliverNext ::= Seq.Inc |>).
Proof.
  intros [N I T S [R1 R2] F W O Z L G H TI M K C] E Hlt.
  split; fields; rewrite ?N; try done; try lia.
  - apply Inc_pos.
  - intros q d Hq. apply L in Hq as [? ?]. split; [lia|done].
  - intros k d Hk. destruct (H _ _ Hk) as (q & -> & Rq & Aq).
    exists q. assert (q <> next) by congruence. repeat split; [lia|lia|done].
  - intros l1 p d l2 El Hp. destruct (K _ _ _ _ El Hp) as [?|[[Hn Hs]|Hq]]; [by left| |by right; right].
    right. left. split; [|done]. assert (p <> next) by (intros ->; rewrite E in Hs; by destruct Hs). lia.
Qed.

(** The loop ends with nothing to deliver and nothing to give up. *)
Definition settled (next top : Z) (g : Group) : Prop := pending g !! pos next = None /\ top <= next + 256.

Lemma drain_loop_merged fuel : forall next top log arr g,
  merged first out next top log arr g -> top - next + 2 <= Z.of_nat fuel ->
  exists next' log', merged first out next' top log' arr (drain_loop fuel g) /\ settled next' top (drain_loop fuel g).
Proof.
  induction fuel as [|fuel IH]; intros next top log arr g Hm Hf.
  { pose proof (mg_range Hm). lia. }
  cbn [drain_loop]. pose proof (mg_range Hm) as R. pose proof (mg_far Hm) as F.
  destruct (pending g !! Seq.Value (deliverNext g)) as [d|] eqn:E;
    unfold Seq.Value in E; rewrite (mg_next Hm) in E.
  - destruct (merged_deliver _ _ _ _ _ _ Hm E) as [Hd Hle]. apply (IH _ _ _ _ _ Hd). lia.
  - rewrite (mg_set Hm), (mg_top Hm), (mg_next Hm), Add_window_pos, GreaterThan_pos by lia.
    simpl. destruct (Z.ltb_spec (next + 256) top) as [Hlt|Hge].
    + apply (IH (next + 1) top log arr); [by apply merged_skip|lia].
    + by exists next, log.
Qed.

Lemma drainPending_merged next top log arr g :
  merged first out next top log arr g ->
  exists next' log', merged first out next' top log' arr (drainPending g) /\ settled next' top (drainPending g).
Proof.
  intros Hm. unfold drainPending. apply (drain_loop_merged _ next top log arr); [done|].
  unfold drain_fuel. pose proof (mg_range Hm). pose proof (mg_far Hm).
  rewrite (mg_next Hm), (mg_top Hm), Distance_pos by lia. lia.
Qed.

(** The last arrival of a longer list. *)
Lemma split_snoc {A} (arr : list A) x l1 y l2 :
  arr ++ [x] = l1 ++ y :: l2 -> (l1 = arr /\ y = x) \/ exists l2', arr = l1 ++ y :: l2'.
Proof.
  destruct l2 as [|z l2 _] using rev_ind; intros E.
  - apply app_inj_tail in E as [-> ->]. by left.
  - right. exists l2. rewrite app_comm_cons, app_assoc in E. by apply app_inj_tail in E as [-> _].
Qed.

(** A copy that is not needed is counted and dropped. *)
Lemma merged_duplicate next top log arr g p d :
  merged first out next top log arr g -> p <= top -> p < next \/ is_Some (pending g !! pos p) ->
  merged first out next top log (arr ++ [(p, d)]) (g <| dedups ::= fun n => u64 (n + 1) |>).
Proof.
  intros [N I T S R F W O Z L G H TI M K C] Hp Hdup.
  split; fields; try done.
  - intros q d' Hq. apply L in Hq as [? ?]. rewrite elem_of_app. auto.
  - intros k d' Hk. destruct (H _ _ Hk) as (q & -> & Rq & Aq). exists q. rewrite elem_of_app. auto.
  - rewrite fmap_app, elem_of_app. auto.
  - intros q. rewrite fmap_app, elem_of_app. intros [Hq|Hq%list_elem_of_singleton]; [by apply M|simpl in Hq; lia].
  - intros l1 p' d' l2 [[-> [= -> ->]]|[l2' E]]%split_snoc Hp'; [|by apply (K _ _ _ _ E)].
    destruct (decide (p < next)) as [Hlt|]; [|destruct Hdup; [done|right; left; split; [lia|done]]].
    destruct (G p) as [?|?]; [lia|by left|right; right; by exists top].
  - rewrite C. unfold u64, len. rewrite length_app. simpl. rewrite Zplus_mod_idemp_l. f_equal. lia.
Qed.

(** A new position is buffered, and [top] follows it. *)
Lemma merged_insert next top log arr g g' p d :
  merged first out next top log arr g -> next <= p < next + 2 ^ 30 - 257 -> pending g !! pos p = None ->
  deliverNext g' = deliverNext g -> dnInit g' = dnInit g -> maxSeen g' = pos (Z.max top p) -> maxSeenSet g' = true ->
  delivered g' = delivered g -> dedups g' = dedups g -> pending g' = <[pos p := d]> (pending g) ->
  merged first out next (Z.max top p) log (arr ++ [(p, d)]) g'.
Proof.
  intros [N I T S R F W O Z L G H TI M K C] Hp Hnew EN EI ET ES EO EC EP.
  split; rewrite ?EN, ?EI, ?ET, ?ES, ?EO, ?EC, ?EP; try done; try lia.
  - intros q d' Hq. apply L in Hq as [? ?]. rewrite elem_of_app. auto.
  - intros q Hq. destruct (G q Hq); [by left|right; lia].
  - intros k d' [[<- ->]|[_ Hk]]%lookup_insert_Some.
    + exists p. rewrite elem_of_app, list_elem_of_singleton. repeat split; [lia|lia|by right].
    + destruct (H _ _ Hk) as (q & -> & Rq & Aq). exists q. rewrite elem_of_app. repeat split; [lia|lia|by left].
  - rewrite fmap_app, elem_of_app. destruct (Z.max_spec top p) as [[_ ->]|[_ ->]]; [right|by left].
    by apply list_elem_of_singleton.
  - intros q. rewrite fmap_app, elem_of_app. intros [Hq%M|Hq%list_elem_of_singleton]; [lia|simpl in Hq; lia].
  - intros l1 p' d' l2 [[-> [= -> ->]]|[l2' E]]%split_snoc Hp'.
    + right. left. split; [lia|]. by rewrite lookup_insert_eq.
    + destruct (K _ _ _ _ E Hp') as [?|[[Hn Hs]|Hq]]; [by left| |by right; right].
      right. left. split; [done|]. apply lookup_insert_is_Some'. by right.
  - rewrite C, map_size_insert, Hnew. simpl. f_equal. unfold len. rewrite length_app. simpl. lia.
Qed.

Lemma filterDelivery_merged next top log arr g p d :
  merged first out next top log arr g -> settled next top g -> - 2 ^ 29 < p - top < 2 ^ 29 ->
  exists next' log',
    merged first out next' (Z.max top p) log' (arr ++ [(p, d)]) (filterDelivery (pos p) d g) /\
    settled next' (Z.max top p) (filterDelivery (pos p) d g).
Proof.
  intros Hm [Hn Ht] Hp. pose proof (mg_range Hm) as R.
  unfold filterDelivery. rewrite (mg_init Hm). cbv zeta.
  rewrite (mg_next Hm), LessThan_pos by lia. unfold Seq.Value.
  destruct (Z.ltb_spec p next) as [Hlt|Hge].
  { rewrite Z.max_l by lia. exists next, log. split; [|by split]. apply merged_duplicate; [done|lia|by left]. }
  destruct (pending g !! pos p) as [d'|] eqn:E.
  { destruct (mg_held Hm _ _ E) as (q & Eq & Rq & _). apply pos_inj in Eq as <-; [|lia].
    rewrite Z.max_l by lia. exists next, log. split; [|by split]. apply merged_duplicate; [done|lia|by right]. }
  fields. rewrite (mg_set Hm), (mg_top Hm), GreaterThan_pos by lia. simpl orb.
  apply (drainPending_merged next _ log), (merged_insert next top log arr g); try done; try lia.
  all: destruct (Z.ltb_spec top p); fields; try done.
  - by rewrite Z.max_r by lia.
  - rewrite Z.max_l by lia. apply (mg_top Hm).
  - apply (mg_set Hm).
Qed.

End Steps.
(** The relation reads only the merge's part of the group. *)
Definition view (g : Group) :=
  (deliverNext g, dnInit g, maxSeen g, maxSeenSet g, delivered g, dedups g, pending g).

Lemma merged_view first out next top log arr g g' :
  view g' = view g -> merged first out next top log arr g -> merged first out next top log arr g'.
Proof.
  intros [= E1 E2 E3 E4 E5 E6 E7] [N I T S R F W O Z L G H TI M K C].
  split; rewrite ?E1, ?E2, ?E3, ?E4, ?E5, ?E6, ?E7; done.
Qed.

(** ** Arrivals *)

(** The furthest position of the arrivals, and arrivals that stay within 2^29 of it. *)
Fixpoint furthest (top : Z) (l : list arrival) : Z :=
  match l with [] => top | (p, _) :: l => furthest (Z.max top p) l end.
Fixpoint near (top : Z) (l : list arrival) : Prop :=
  match l with
  | [] => True
  | (p, _) :: l => - 2 ^ 29 < p - top < 2 ^ 29 /\ near (Z.max top p) l
  end.

Lemma near_app l1 l2 : forall top, near top (l1 ++ l2) <-> near top l1 /\ near (furthest top l1) l2.
Proof. induction l1 as [|[p d] l1 IH]; intros top; simpl; [tauto|]. rewrite IH. tauto. Qed.

Lemma furthest_app l1 l2 : forall top, furthest top (l1 ++ l2) = furthest (furthest top l1) l2.
Proof. induction l1 as [|[p d] l1 IH]; intros top; simpl; [done|]. apply IH. Qed.

Definition deliverAll (arr : list arrival) (g : Group) : Group :=
  fold_left (fun g '(p, d) => filterDelivery (pos p) d g) arr g.

(** No arrival is more than the reorder window behind an earlier one. *)
Definition prompt (arr : list arrival) : Prop :=
  forall l1 p d l2, arr = l1 ++ (p, d) :: l2 -> forall q, q ∈ l1.*1 -> q <= p + groupReorderWindow.

(** A group that has merged nothing yet. *)
Definition fresh (g : Group) : Prop :=
  dnInit g = false /\ maxSeenSet g = false /\ pending g = ∅ /\ delivered g = Fifo.empty /\ dedups g = 0.

Lemma first_merged g p d :
  fresh g ->
  exists next' log',
    merged p [] next' p log' [(p, d)] (filterDelivery (pos p) d g) /\ settled next' p (filterDelivery (pos p) d g).
Proof.
  intros (F1 & F2 & F3 & F4 & F5). unfold filterDelivery. rewrite F1. cbv zeta. fields. rewrite Seq.LessThan_irrefl.
  unfold Seq.Value. fields. rewrite F3, F2, lookup_empty. simpl negb. simpl orb.
  apply (drainPending_merged p [] p p []). split; fields; rewrite ?F3, ?F4, ?F5; try done; try lia.
  - unfold Fifo.wf. simpl. lia.
  - constructor.
  - intros q d' Hq. by apply not_elem_of_nil in Hq.
  - intros k d' [[<- ->]|[_ Hk]]%lookup_insert_Some; [|done]. exists p. rewrite list_elem_of_singleton. repeat split; lia.
  - by apply list_elem_of_singleton.
  - intros q Hq%list_elem_of_singleton. simpl in Hq. lia.
  - intros l1 p' d' l2 E _. right. left. change [(p, d)] with ([] ++ [(p, d)]) in E.
    apply split_snoc in E as [[_ [= -> ->]]|[l2' E]]; [|by destruct l1]. split; [done|]. by rewrite lookup_insert_eq.
  - rewrite map_size_insert, lookup_empty. done.
Qed.

Lemma deliverAll_merged first out rest : forall next top log arr g,
  merged first out next top log arr g -> settled next top g -> near top rest ->
  exists next' log',
    merged first out next' (furthest top rest) log' (arr ++ rest) (deliverAll rest g) /\
    settled next' (furthest top rest) (deliverAll rest g).
Proof.
  induction rest as [|[p d] rest IH]; intros next top log arr g Hm Hs Hn.
  - exists next, log. by rewrite app_nil_r.
  - destruct Hn as [Hp Hn]. destruct (filterDelivery_merged _ _ _ _ _ _ _ p d Hm Hs Hp) as (n' & l' & Hm' & Hs').
    rewrite (app_assoc arr [(p, d)] rest : arr ++ (p, d) :: rest = _). by apply (IH n' (Z.max top p) l').
Qed.

Lemma size_list_to_set_le (l : list Z) : (size (list_to_set (C := gset Z) l) <= length l)%nat.
Proof.
  induction l as [|x l IH]; [done|]. cbn [list_to_set length]. rewrite size_union_alt, size_singleton.
  assert (Hs : list_to_set l ∖ {[x]} ⊆ list_to_set (C := gset Z) l) by set_solver. apply subseteq_size in Hs. lia.
Qed.

(** The buffer holds at most one window of positions. *)
Lemma pending_small first out next top log arr g :
  merged first out next top log arr g -> settled next top g -> (size (pending g) <= 256)%nat.
Proof.
  intros Hm [Hn Ht]. rewrite <- size_dom.
  transitivity (size (list_to_set (C := gset Z) (pos <$> seqZ (next + 1) 256))).
  - apply subseteq_size. intros k [d Hk]%elem_of_dom. destruct (mg_held Hm _ _ Hk) as (q & -> & Rq & _).
    apply elem_of_list_to_set, list_elem_of_fmap. exists q. split; [done|]. apply elem_of_seqZ.
    assert (q <> next) by congruence. lia.
  - etrans; [apply size_list_to_set_le|]. rewrite length_fmap, length_seqZ. lia.
Qed.

(** Whatever arrived up to the first missing position has been delivered. *)
Lemma settled_complete first out next top log arr g n :
  merged first out next top log arr g -> settled next top g -> prompt arr ->
  (forall p, first <= p < first + n -> p ∈ arr.*1) -> forall p, first <= p < first + n -> p ∈ log.*1.
Proof.
  intros Hm [Hn _] Hpr Hall p Hp. pose proof (mg_range Hm) as R.
  assert (Hin : forall p, first <= p < first + n -> p ∈ log.*1 \/ (next <= p /\ is_Some (pending g !! pos p))).
  { intros q Hq. pose proof (Hall q Hq) as Hq'. apply list_elem_of_fmap in Hq' as ([? d] & -> & Hq').
    apply list_elem_of_split in Hq' as (l1 & l2 & E). simpl in *.
    destruct (mg_kept Hm _ _ _ _ E) as [?|[?|(q' & Hq' & Hlt)]]; [lia|by left|by right|].
    specialize (Hpr _ _ _ _ E q' Hq'). unfold groupReorderWindow in Hpr. lia. }
  destruct (Hin p Hp) as [?|[Hge _]]; [done|]. exfalso.
  destruct (Hin next) as [Hl|[_ [d Hs]]]; [lia| |congruence].
  apply list_elem_of_fmap in Hl as ([q d] & E & Hl). simpl in E. subst q. apply (mg_log Hm) in Hl. lia.
Qed.

(** ** Runs of a group

    The host changes the members' connections, writes, monitors, routes the events
    of a member and polls deliveries, in any order.  [run arr out g0 g]: from [g0]
    to [g] the positions [arr] were routed and the payloads [out] polled. *)

Definition datas (es : list Output.Event) : list (Z * list Z) :=
  omap (fun e => match e with Output.EData d => Some (Output.d_Seq d, Output.d_Data d) | _ => None end) es.

Section Runs.
Context {P : Crypto.Primitives}.

Inductive run : list arrival -> list (list Z) -> Group -> Group -> Prop :=
| run_refl g : run [] [] g g
| run_conn a o g0 g i f : run a o g0 g -> run a o g0 (onConn i f g)
| run_add a o g0 g c w : run a o g0 g -> run a o g0 (AddMember c w g)
| run_write a o g0 g now d : run a o g0 g -> run a o g0 (Write now d g)
| run_monitor a o g0 g now : run a o g0 g -> run a o g0 (Monitor now g)
| run_poll a o g0 g d g' : run a o g0 g -> PollDelivery g = (Some d, g') -> run a (o ++ [d]) g0 g'
| run_route a o g0 g i mc new :
    run a o g0 g -> members g !! i = Some mc ->
    datas (Fifo.contents (ConnState.events (conn mc))) = (fun '(p, d) => (pos p, d)) <$> new ->
    run (a ++ new) o g0 (RouteMember i g).

Lemma view_fold {A} (f : Group -> A -> Group) l :
  (forall g x, view (f g x) = view g) -> forall g, view (fold_left f l g) = view g.
Proof. intros H. induction l as [|x l IH]; intros g; [done|]. simpl. by rewrite IH. Qed.

Lemma view_activeMembers now g : view (Group.activeMembers now g).2 = view g.
Proof. unfold Group.activeMembers. cbv zeta. destruct (existsb _ _); [done|]. by destruct (Group.bestStandby _). Qed.

Lemma view_Write now d g : view (Write now d g) = view g.
Proof.
  unfold Write. destruct (members g); [done|]. cbv zeta. destruct (Group.mode _).
  - rewrite view_fold by done. by destruct (Group.tsInit g).
  - match goal with |- context [Group.activeMembers now ?x] => pose proof (view_activeMembers now x) as H; destruct (Group.activeMembers now x) as [act g1] end.
    simpl in H. match goal with |- view (Group.bufferMsg _ _ _ ?G) = _ => change (view G = view g) end.
    rewrite view_fold by done. rewrite H. by destruct (Group.tsInit g).
Qed.

Lemma view_Monitor now g : view (Monitor now g) = view g.
Proof. unfold Monitor. destruct (Group.mode g); [done|apply view_activeMembers]. Qed.

Lemma view_AddMember c w g : view (AddMember c w g) = view g.
Proof. unfold AddMember. destruct (Group.seqInit g); simpl; [|done]. by destruct (_ =? _). Qed.

(** Routed events are delivered in order. *)
Lemma routeAll_datas es new : forall g,
  datas es = (fun '(p, d) => (pos p, d)) <$> new -> routeAll es g = deliverAll new g.
Proof.
  revert new. induction es as [|e es IH]; intros new g H.
  - by destruct new.
  - destruct e as [s|d|err| |k]; try apply (IH new _ H).
    destruct new as [|[p d'] new]; [done|]. injection H as H1 H2 H3.
    change (routeAll es (filterDelivery (Output.d_Seq d) (Output.d_Data d) g) = deliverAll new (filterDelivery (pos p) d' g)).
    rewrite H1, H2. by apply IH.
Qed.

(** What holds of a run that started from a fresh group. *)
Definition state (arr : list arrival) (out : list (list Z)) (g : Group) : Prop :=
  match arr with
  | [] => out = [] /\ fresh g
  | (p0, _) :: rest =>
      near p0 rest -> exists next log, merged p0 out next (furthest p0 rest) log arr g /\ settled next (furthest p0 rest) g
  end.

Lemma state_view arr out g g' : view g' = view g -> state arr out g -> state arr out g'.
Proof.
  intros E. unfold state. destruct arr as [|[p0 d0] rest].
  - injection E as _ E2 _ E4 E5 E6 E7. unfold fresh. by rewrite E2, E4, E5, E6, E7.
  - intros H Hn. destruct (H Hn) as (next & log & Hm & Hs). exists next, log. split; [by apply (merged_view _ _ _ _ _ _ g)|].
    injection E as _ _ _ _ _ _ E7. unfold settled. by rewrite E7.
Qed.

Lemma state_poll arr out g d g' : PollDelivery g = (Some d, g') -> state arr out g -> state arr (out ++ [d]) g'.
Proof.
  unfold PollDelivery. intros E. destruct arr as [|[p0 d0] rest].
  - intros [_ (F1 & F2 & F3 & F4 & F5)]. rewrite F4 in E. discriminate E.
  - intros H Hn. destruct (H Hn) as (next & log & Hm & Hs). exists next, log.
    pose proof (Fifo.pop_contents [] _ (mg_wf Hm)) as Hp. destruct (Fifo.pop [] (delivered g)) as [[v ok] q].
    destruct ok; [|done]. injection E as -> <-. destruct Hp as [Wq Hp].
    destruct (Fifo.contents (delivered g)) as [|x l] eqn:Ec; [by destruct Hp|]. destruct Hp as (-> & _ & Eq).
    split; [|done]. destruct Hm as [N I T S R F W O Z L G Hh TI M K C]. split; fields; try done.
    by rewrite <- app_assoc, Eq, <- O, Ec.
Qed.

Lemma state_deliver arr out g new : state arr out g -> state (arr ++ new) out (deliverAll new g).
Proof.
  destruct arr as [|[p0 d0] rest].
  - intros [-> HF]. destruct new as [|[p0 d0] rest]; [done|]. intros Hn.
    destruct (first_merged g p0 d0 HF) as (n1 & log1 & Hm & Hs). exact (deliverAll_merged _ _ _ _ _ _ _ _ Hm Hs Hn).
  - intros H Hn. change (near p0 (rest ++ new)) in Hn. apply near_app in Hn as [Hn1 Hn2].
    destruct (H Hn1) as (next & log & Hm & Hs).
    destruct (deliverAll_merged _ _ _ _ _ _ _ _ Hm Hs Hn2) as (n' & l' & Hm' & Hs').
    rewrite furthest_app. by exists n', l'.
Qed.

Lemma run_state arr out g0 g : run arr out g0 g -> fresh g0 -> state arr out g.
Proof.
  induction 1 as [g|a o g0 g i f _ IH|a o g0 g c w _ IH|a o g0 g now d _ IH|a o g0 g now _ IH|a o g0 g d g' _ IH E
                 |a o g0 g i mc new _ IH Hm E]; intros HF.
  - done.
  - by apply (state_view _ _ g), IH.
  - apply (state_view _ _ g); [apply view_AddMember|by apply IH].
  - apply (state_view _ _ g); [apply view_Write|by apply IH].
  - apply (state_view _ _ g); [apply view_Monitor|by apply IH].
  - by apply (state_poll _ _ g), IH.
  - destruct (Group.RouteMember_routes i g mc Hm) as (ms & tb & b & -> & _). rewrite (routeAll_datas _ _ _ E).
    apply (state_view _ _ (deliverAll new g)); [done|]. by apply state_deliver, IH.
Qed.

(** C10. A group hands each position out at most once and in order, as it came from one
    of its members, and gives up a position, from that of the first arrival on, only
    for a stream 256 ahead of it.  The positions stay within 2^29 of the first one
    ([near]), so that the 31-bit numbers tell them apart. *)
Theorem group_delivers_once (m : Group.GroupMode) (p0 : Z) (d0 : list Z) (rest : list arrival) (out : list (list Z)) (g : Group) :
  let arr := (p0, d0) :: rest in
  run arr out (NewGroup m) g -> near p0 rest ->
  exists log,
    out ++ Fifo.contents (delivered g) = log.*2 /\
    StronglySorted Z.lt log.*1 /\
    (forall x, x ∈ log -> x ∈ arr) /\
    (forall l1 p d l2, arr = l1 ++ (p, d) :: l2 -> p0 <= p ->
       p ∈ log.*1 \/ is_Some (pending g !! pos p) \/ exists q, q ∈ l1.*1 /\ p + groupReorderWindow < q) /\
    (forall n, prompt arr -> (forall p, p0 <= p < p0 + n -> p ∈ arr.*1) -> forall p, p0 <= p < p0 + n -> p ∈ log.*1) /\
    (size (pending g) <= 256)%nat /\
    dedups g = u64 (len arr - len log - Z.of_nat (size (pending g))).
Proof.
  intros arr Hr Hn. destruct (run_state _ _ _ _ Hr ltac:(done) Hn) as (next & log & Hm & Hs).
  fold arr in Hm. set (top := furthest p0 rest) in *.
  exists log. split; [apply (mg_out Hm)|]. split; [apply (mg_sorted Hm)|].
  split; [intros [q d] Hq; apply (mg_log Hm _ _ Hq)|]. split.
  - intros l1 p d l2 E Hp. destruct (mg_kept Hm _ _ _ _ E Hp) as [?|[[_ ?]|?]]; auto.
  - split; [|split; [by apply (pending_small p0 out next top log arr)|apply (mg_count Hm)]].
    intros n. by apply (settled_complete p0 out next top log arr g n).
Qed.

End Runs.

(** Two links, the second missing what the first has, across the wrap of the numbers. *)
Definition toyLink (l : list arrival) (c : ConnState.Conn) : ConnState.Conn :=
  c <| ConnState.events := Fifo.mkFifo ((fun '(p, d) => Output.EData (Output.mkData d (pos p) 1 3)) <$> l) 0 |>.
Definition toyBond : Group :=
  AddMember (ConnState.zeroConn (fun _ => None)) 1 (AddMember (ConnState.zeroConn (fun _ => None)) 1 (NewGroup GroupBroadcast)).
Definition toyFirst : Group := RouteMember 0 (onConn 0 (toyLink [(2 ^ 31 - 1, [1]); (2 ^ 31 + 1, [3])]) toyBond).
Definition toySecond : Group := RouteMember 1 (onConn 1 (toyLink [(2 ^ 31 - 1, [1]); (2 ^ 31, [2])]) toyFirst).

Lemma toy_run : run (P := Crypto.toy)
  (([] ++ [(2 ^ 31 - 1, [1]); (2 ^ 31 + 1, [3])]) ++ [(2 ^ 31 - 1, [1]); (2 ^ 31, [2])]) [] (NewGroup GroupBroadcast) toySecond.
Proof.
  eapply run_route; [apply run_conn; eapply run_route; [apply run_conn, run_add, run_add, run_refl|..]|..];
    reflexivity.
Qed.

Lemma group_delivers_once_witness :
  Fifo.contents (delivered toySecond) = [[1]; [2]; [3]] /\ dedups toySecond = 1 /\
  exists log, [] ++ Fifo.contents (delivered toySecond) = log.*2 /\ StronglySorted Z.lt log.*1.
Proof.
  split; [vm_compute; reflexivity|]. split; [vm_compute; reflexivity|].
  destruct (group_delivers_once (P := Crypto.toy) GroupBroadcast (2 ^ 31 - 1) [1]
    [(2 ^ 31 + 1, [3]); (2 ^ 31 - 1, [1]); (2 ^ 31, [2])] [] toySecond toy_run) as (log & H1 & H2 & _); [simpl; lia|].
  exists log. exact (conj H1 H2).
Defined.

End GroupMerge.
