(* ===== verification/DeliveryQueue.v ===== *)
(** * The application's receive queue ([internal/session/delivery.go])

    A ring of deliveries that grows up to a fixed capacity, bounded in entries
    and in bytes of slice capacity.  [contents] is the queue it stands for. *)
From Stdlib Require Import ZArith Lia.
From stdpp Require Import base numbers list option.
From S2P Require Import Prelude.
Local Open Scope Z_scope.

Module DeliveryQueue.

Definition sessionReadQueueSize : Z := 32768.
Definition sessionDeliveryBacklogSize : Z := 65536.
Definition sessionDeliveryByteLimit : Z := Z.shiftl 128 20.

Record MsgMetadata : Type := mkMeta { m_Boundary : Z; m_MsgNo : Z; m_Seq : Z }.

(** A payload with the capacity of its slice, [cap(d.data)]. *)
Record delivery : Type := mkDelivery { data : list Z; dcap : Z; meta : MsgMetadata }.
Definition zeroDelivery : delivery := mkDelivery [] 0 (mkMeta 0 0 0).

Record deliveryQueue : Type := mkQueue {
  buf : list delivery;
  head : nat;
  size : nat;
  bytes : Z;
  readyLimit : Z;
  capacity : Z;
  byteLimit : Z;
  changed : bool;
  overflow : bool;
  dropped : Z;
  dropBytes : Z
}.

#[global] Instance eta_queue : Eta deliveryQueue := fun q =>
  mkQueue (buf q) (head q) (size q) (bytes q) (readyLimit q) (capacity q) (byteLimit q) (changed q) (overflow q) (dropped q) (dropBytes q).
#[global] Instance fld_queue_buf : Field buf. Proof. derive_field. Defined.
#[global] Instance fld_queue_head : Field head. Proof. derive_field. Defined.
#[global] Instance fld_queue_size : Field size. Proof. derive_field. Defined.
#[global] Instance fld_queue_bytes : Field bytes. Proof. derive_field. Defined.
#[global] Instance fld_queue_changed : Field changed. Proof. derive_field. Defined.
#[global] Instance fld_queue_overflow : Field overflow. Proof. derive_field. Defined.
#[global] Instance fld_queue_dropped : Field dropped. Proof. derive_field. Defined.
#[global] Instance fld_queue_dropBytes : Field dropBytes. Proof. derive_field. Defined.

Definition newDeliveryQueue (ready backlog limit : Z) : deliveryQueue :=
  mkQueue [] 0 0 0 ready (ready + backlog) limit false false 0 0.

Definition popLocked (q : deliveryQueue) : delivery * deliveryQueue :=
  let d := nth (head q) (buf q) zeroDelivery in
  let q := q <| buf ::= <[head q := zeroDelivery]> |> in
  let q := q <| head := ((head q + 1) mod length (buf q))%nat |> in
  let q := q <| size ::= pred |> in
  (d, q <| bytes ::= fun b => b - dcap d |>).

Definition discard (d : delivery) (q : deliveryQueue) : deliveryQueue :=
  q <| dropped ::= fun n => u64 (n + 1) |> <| dropBytes ::= fun n => u64 (n + len (data d)) |>.

Definition fits (d : delivery) (q : deliveryQueue) : bool :=
  (Z.of_nat (size q) <? capacity q) && (dcap d <=? byteLimit q - bytes q).

(** [for !fits() { q.discard(q.popLocked()) }]: at most every entry is evicted. *)
Fixpoint evict (fuel : nat) (d : delivery) (q : deliveryQueue) : deliveryQueue :=
  match fuel with
  | O => q
  | S fuel => if fits d q then q else let '(old, q) := popLocked q in evict fuel d (discard old q)
  end.

(** Entry [i] of the ring. *)
Definition entry (q : deliveryQueue) (i : nat) : delivery := nth ((head q + i) mod length (buf q))%nat (buf q) zeroDelivery.
Definition contents (q : deliveryQueue) : list delivery := map (entry q) (seq 0 (size q)).

Definition grow (q : deliveryQueue) : deliveryQueue :=
  if Nat.eqb (size q) (length (buf q)) then
    let n := Z.to_nat (Z.min (capacity q) (Z.max 64 (Z.of_nat (length (buf q)) * 2))) in
    q <| buf := map (entry q) (seq 0 (size q)) ++ replicate (n - size q) zeroDelivery |> <| head := 0%nat |>
  else q.

Definition append (d : delivery) (q : deliveryQueue) : deliveryQueue :=
  q <| buf ::= <[((head q + size q) mod length (buf q))%nat := d]> |> <| size ::= S |>
    <| bytes ::= fun b => b + dcap d |> <| changed := true |>.

Definition push (d : delivery) (live : bool) (q : deliveryQueue) : bool * deliveryQueue :=
  if overflow q then (false, discard d q) else
  if negb (fits d q) && negb live then (false, discard d (q <| overflow := true |>)) else
  if (dcap d >? byteLimit q) || (capacity q =? 0) then (true, discard d q) else
  (true, append d (grow (evict (S (size q)) d q))).

Definition pop (q : deliveryQueue) : option delivery * deliveryQueue :=
  if Nat.eqb (size q) 0 then (None, q) else
  let '(d, q) := popLocked q in
  (Some d, if Nat.ltb 0 (size q) then q <| changed := true |> else q).

Definition readError (q : deliveryQueue) : bool := overflow q.
Definition ready (q : deliveryQueue) : bool := Nat.ltb 0 (size q).

(** ** The queue *)

Definition total (l : list delivery) : Z := fold_right (fun d n => dcap d + n) 0 l.

Definition delivery_ok (d : delivery) : Prop := len (data d) <= dcap d.

Record wf (q : deliveryQueue) : Prop := mkWf {
  wf_head : (head q < length (buf q) \/ buf q = [] /\ head q = 0)%nat;
  wf_size : (size q <= length (buf q))%nat;
  wf_cap : Z.of_nat (length (buf q)) <= capacity q;
  wf_bytes : bytes q = total (contents q);
  wf_limit : 0 <= bytes q <= byteLimit q;
  wf_caps : Forall delivery_ok (contents q)
}.

Lemma new_wf ready backlog limit : 0 <= ready + backlog -> 0 <= limit -> wf (newDeliveryQueue ready backlog limit).
Proof. intros. split; simpl; [by right|lia|lia|done|lia|constructor]. Qed.

Lemma contents_length q : length (contents q) = size q.
Proof. unfold contents. by rewrite length_map, length_seq. Qed.

Lemma total_app l1 l2 : total (l1 ++ l2) = total l1 + total l2.
Proof. induction l1 as [|d l1 IH]; simpl; lia. Qed.

Lemma delivery_ok_cap d : delivery_ok d -> 0 <= dcap d.
Proof. unfold delivery_ok, len. lia. Qed.

Lemma total_nonneg l : Forall delivery_ok l -> 0 <= total l.
Proof. induction 1 as [|d l Hd _ IH]; simpl; [lia|]. apply delivery_ok_cap in Hd. lia. Qed.

Lemma total_bytes l : Forall delivery_ok l -> len (concat (map data l)) <= total l.
Proof.
  unfold len. induction 1 as [|d l Hd _ IH]; simpl; [lia|]. rewrite length_app. unfold delivery_ok, len in Hd. lia.
Qed.

Lemma nth_insert_ne {A} (l : list A) i j x z : i <> j -> nth i (<[j := x]> l) z = nth i l z.
Proof. intros H. rewrite !nth_lookup. by rewrite list_lookup_insert_ne. Qed.
Lemma nth_insert_eq {A} (l : list A) i x z : (i < length l)%nat -> nth i (<[i := x]> l) z = x.
Proof. intros H. rewrite nth_lookup. by rewrite list_lookup_insert_eq. Qed.

(** Two offsets less than [n] apart fall on different slots. *)
Lemma ring_ne n h i j : (i < j < i + n)%nat -> ((h + i) mod n <> (h + j) mod n)%nat.
Proof.
  intros H E. assert (n <> 0)%nat by lia.
  pose proof (Nat.div_mod_eq (h + i) n). pose proof (Nat.div_mod_eq (h + j) n).
  assert ((h + j) / n = (h + i) / n + 1 \/ (h + j) / n <= (h + i) / n \/ (h + i) / n + 2 <= (h + j) / n)%nat as [D|[D|D]] by lia; nia.
Qed.

Lemma popLocked_spec q : wf q -> (0 < size q)%nat ->
  let '(d, q') := popLocked q in
  wf q' /\ contents q = d :: contents q' /\ capacity q' = capacity q /\ byteLimit q' = byteLimit q /\ overflow q' = overflow q /\
  dropped q' = dropped q /\ dropBytes q' = dropBytes q.
Proof.
  intros [Hh Hs Hc Hb Hl Hp] Hpos. unfold popLocked. cbv zeta. fields. rewrite length_insert.
  set (n := length (buf q)) in *. assert (Hn : (head q < n)%nat) by (destruct Hh as [?|[E _]]; [done|subst n; rewrite E in *; simpl in *; lia]).
  set (d := nth (head q) (buf q) zeroDelivery).
  match goal with |- wf ?x /\ _ => set (q' := x) end.
  assert (E : contents q = d :: contents q').
  { unfold contents at 1. destruct (size q) as [|m] eqn:Em; [lia|]. cbn [seq map]. f_equal.
    - unfold entry. fold n. by rewrite Nat.add_0_r, Nat.mod_small by done.
    - unfold contents. change (size q') with (pred (size q)). rewrite Em. cbn [pred].
      rewrite <- seq_shift, map_map. apply map_ext_in. intros i Hi. apply in_seq in Hi.
      unfold entry. change (head q') with ((head q + 1) mod n)%nat. change (buf q') with (<[head q := zeroDelivery]> (buf q)).
      rewrite length_insert. fold n. rewrite Nat.Div0.add_mod_idemp_l. replace (head q + 1 + i)%nat with (head q + S i)%nat by lia.
      rewrite nth_insert_ne; [done|]. intros E. apply (ring_ne n (head q) 0 (S i)); [lia|].
      rewrite E. rewrite Nat.add_0_r. by apply Nat.mod_small. }
  rewrite E in Hp, Hb. inversion Hp as [|? ? Hd Hp1]; subst. clear Hp. rename Hp1 into Hp. pose proof (delivery_ok_cap _ Hd). simpl in Hb. pose proof (total_nonneg _ Hp).
  split; [|repeat split; [exact E|..]; reflexivity].
  split.
  - left. subst q'. fields. rewrite length_insert. apply Nat.mod_upper_bound. fold n. lia.
  - subst q'. fields. rewrite length_insert. fold n. lia.
  - subst q'. fields. rewrite length_insert. fold n. done.
  - change (bytes q') with (bytes q - dcap d). lia.
  - change (bytes q') with (bytes q - dcap d). change (byteLimit q') with (byteLimit q). lia.
  - done.
Qed.

(** Growing keeps the entries and makes room. *)
Lemma grow_spec q : wf q -> Z.of_nat (size q) < capacity q ->
  wf (grow q) /\ contents (grow q) = contents q /\ (size (grow q) < length (buf (grow q)))%nat /\
  capacity (grow q) = capacity q /\ byteLimit (grow q) = byteLimit q /\ bytes (grow q) = bytes q /\
  overflow (grow q) = overflow q /\ dropped (grow q) = dropped q /\ dropBytes (grow q) = dropBytes q.
Proof.
  intros W Hc. unfold grow. destruct (Nat.eqb_spec (size q) (length (buf q))) as [E|E].
  2:{ pose proof (wf_size _ W). repeat split; try done; try lia; apply W. }
  cbv zeta. set (n := Z.to_nat _). assert (Hn : (size q < n)%nat) by (subst n; lia).
  assert (Hl : length (map (entry q) (seq 0 (size q)) ++ replicate (n - size q) zeroDelivery) = n).
  { rewrite length_app, length_map, length_seq, length_replicate. lia. }
  match goal with |- wf ?x /\ _ => set (q' := x) end.
  assert (Ec : contents q' = contents q).
  { unfold contents. change (size q') with (size q). apply map_ext_in. intros i Hi. apply in_seq in Hi.
    unfold entry at 1. change (head q') with 0%nat.
    change (buf q') with (map (entry q) (seq 0 (size q)) ++ replicate (n - size q) zeroDelivery).
    rewrite Hl, Nat.add_0_l, Nat.mod_small by lia. rewrite app_nth1 by (rewrite length_map, length_seq; lia).
    rewrite (nth_indep _ _ (entry q 0)) by (rewrite length_map, length_seq; lia). rewrite map_nth, seq_nth by lia. done. }
  assert (Hb : length (buf q') = n) by exact Hl.
  split; [|repeat split; [exact Ec|rewrite Hb; exact Hn|..]; reflexivity].
  destruct W as [Hh Hs Hcap Hby Hlim Hp]. split; rewrite ?Ec, ?Hb; try done.
  - left. change (head q') with 0%nat. lia.
  - change (size q') with (size q). lia.
  - change (capacity q') with (capacity q). subst n. lia.
Qed.

Lemma append_spec d q : wf q -> (size q < length (buf q))%nat -> delivery_ok d -> dcap d <= byteLimit q - bytes q ->
  wf (append d q) /\ contents (append d q) = contents q ++ [d].
Proof.
  intros [Hh Hs Hc Hb Hl Hp] Hr Ho Hd. pose proof (delivery_ok_cap _ Ho). set (n := length (buf q)) in *.
  assert (Ec : contents (append d q) = contents q ++ [d]).
  { unfold contents. change (size (append d q)) with (S (size q)). rewrite seq_S, map_app. cbn [map].
    assert (He : forall i, entry (append d q) i = nth ((head q + i) mod n) (<[((head q + size q) mod n)%nat := d]> (buf q)) zeroDelivery).
    { intros i. unfold entry, append. fields. rewrite length_insert. done. }
    f_equal.
    - apply map_ext_in. intros i Hi. apply in_seq in Hi. rewrite He, nth_insert_ne; [done|]. apply ring_ne. lia.
    - rewrite He. f_equal. apply nth_insert_eq. apply Nat.mod_upper_bound. lia. }
  split; [|done]. split; rewrite ?Ec.
  - left. unfold append. fields. rewrite length_insert. fold n. destruct Hh as [?|[E _]]; [done|]. subst n. rewrite E in *. simpl in *. lia.
  - unfold append. fields. rewrite length_insert. fold n. lia.
  - unfold append. fields. by rewrite length_insert.
  - unfold append. fields. rewrite total_app. simpl. lia.
  - unfold append. fields. lia.
  - apply Forall_app. split; [done|]. constructor; [done|constructor].
Qed.

(** ** Pushing *)

(** [d] fits behind the deliveries [l]. *)
Definition room (cap limit : Z) (d : delivery) (l : list delivery) : bool := (len l <? cap) && (dcap d <=? limit - total l).

Lemma fits_room d q : wf q -> fits d q = room (capacity q) (byteLimit q) d (contents q).
Proof. intros W. unfold fits, room, len. by rewrite contents_length, (wf_bytes _ W). Qed.

Lemma u64_plus a b : u64 (u64 a + b) = u64 (a + b).
Proof. unfold u64. apply Zplus_mod_idemp_l. Qed.

(** What a queue has lost: deliveries and bytes. *)
Definition lost (l : list delivery) (q q' : deliveryQueue) : Prop :=
  u64 (dropped q') = u64 (dropped q + len l) /\ u64 (dropBytes q') = u64 (dropBytes q + len (concat (map data l))).

Lemma lost_nil q q' : dropped q' = dropped q -> dropBytes q' = dropBytes q -> lost [] q q'.
Proof. intros E1 E2. unfold lost. rewrite E1, E2. simpl. by rewrite !Z.add_0_r. Qed.

Lemma lost_cons d l q q1 q' : lost l q1 q' -> dropped q1 = u64 (dropped q + 1) -> dropBytes q1 = u64 (dropBytes q + len (data d)) ->
  lost (d :: l) q q'.
Proof.
  unfold lost, len. intros [H1 H2] E1 E2. rewrite H1, H2, E1, E2, !u64_plus. simpl. rewrite length_app. split; f_equal; lia.
Qed.

Lemma discard_wf d q : wf q -> wf (discard d q).
Proof. intros [H1 H2 H3 H4 H5 H6]. by split. Qed.

(** The oldest deliveries go, no more than needed. *)
Lemma evict_spec d fuel : forall q, wf q -> (size q < fuel)%nat -> 0 <= dcap d <= byteLimit q -> 0 < capacity q ->
  exists k, let q' := evict fuel d q in
    wf q' /\ fits d q' = true /\ contents q' = drop k (contents q) /\
    (forall j, (j < k)%nat -> room (capacity q) (byteLimit q) d (drop j (contents q)) = false) /\
    lost (take k (contents q)) q q' /\ capacity q' = capacity q /\ byteLimit q' = byteLimit q /\ overflow q' = overflow q.
Proof.
  induction fuel as [|fuel IH]; intros q W Hf Hd Hc; [lia|]. cbn [evict]. destruct (fits d q) eqn:E.
  { exists 0%nat. simpl. do 3 (split; [done|]). split; [lia|]. split; [by apply lost_nil|done]. }
  assert (Hpos : (0 < size q)%nat).
  { destruct (size q) eqn:Es; [|lia]. exfalso. revert E. rewrite fits_room by done.
    assert (contents q = []) as ->. { apply nil_length_inv. by rewrite contents_length. }
    unfold room, len. simpl. intros E. zcase; simpl in *; try done; lia. }
  pose proof (popLocked_spec q W Hpos) as Hp. destruct (popLocked q) as [old q1].
  destruct Hp as (W1 & Ec & E1 & E2 & E3 & E4 & E5).
  assert (Es : size q = S (size q1)) by (rewrite <- !contents_length, Ec; done).
  destruct (IH (discard old q1)) as (k & W' & Hf' & Hk & Hmin & Hl & C1 & C2 & C3); [by apply discard_wf|..].
  - change (size (discard old q1)) with (size q1). lia.
  - change (byteLimit (discard old q1)) with (byteLimit q1). by rewrite E2.
  - change (capacity (discard old q1)) with (capacity q1). by rewrite E1.
  - change (contents (discard old q1)) with (contents q1) in *. exists (S k). cbv zeta. rewrite Ec. cbn [drop take].
    split; [done|]. split; [done|]. split; [done|]. split; [|split].
    + intros [|j] Hj; cbn [drop].
      * rewrite <- Ec, <- fits_room by done. done.
      * change (capacity (discard old q1)) with (capacity q1) in Hmin. change (byteLimit (discard old q1)) with (byteLimit q1) in Hmin.
        rewrite <- E1, <- E2. apply Hmin. lia.
    + apply (lost_cons old _ q (discard old q1)); [done|unfold discard; fields; congruence|unfold discard; fields; congruence].
    + rewrite C1, C2, C3. by repeat split.
Qed.

(** What [push] does to the queue. *)
Inductive pushed (d : delivery) (live : bool) (q q' : deliveryQueue) : bool -> Prop :=
| pushed_closed : overflow q = true -> contents q' = contents q -> overflow q' = true -> lost [d] q q' -> pushed d live q q' false
| pushed_overflow : overflow q = false -> live = false -> room (capacity q) (byteLimit q) d (contents q) = false ->
    contents q' = contents q -> overflow q' = true -> lost [d] q q' -> pushed d live q q' false
| pushed_oversize : overflow q = false -> live = true -> byteLimit q < dcap d \/ capacity q = 0 ->
    contents q' = contents q -> overflow q' = false -> lost [d] q q' -> pushed d live q q' true
| pushed_ok k : overflow q = false -> contents q' = drop k (contents q) ++ [d] -> overflow q' = false ->
    (live = false -> k = 0%nat) ->
    (forall j, (j < k)%nat -> room (capacity q) (byteLimit q) d (drop j (contents q)) = false) ->
    room (capacity q) (byteLimit q) d (drop k (contents q)) = true ->
    lost (take k (contents q)) q q' -> pushed d live q q' true.

Lemma lost_discard d q q1 : dropped q1 = dropped q -> dropBytes q1 = dropBytes q -> lost [d] q (discard d q1).
Proof.
  intros E1 E2. apply (lost_cons d [] q (discard d q1)); [by apply lost_nil|..]; unfold discard; fields; congruence.
Qed.

Lemma push_spec (d : delivery) (live : bool) (q : deliveryQueue) :
  wf q -> delivery_ok d ->
  let '(ok, q') := push d live q in wf q' /\ pushed d live q q' ok /\ capacity q' = capacity q /\ byteLimit q' = byteLimit q.
Proof.
  intros W Hok. pose proof (delivery_ok_cap _ Hok) as Hd. unfold push. destruct (overflow q) eqn:Eo.
  { split; [by apply discard_wf|]. split; [|done]. apply pushed_closed; try done. by apply lost_discard. }
  destruct (negb (fits d q) && negb live) eqn:Ef.
  { apply andb_true_iff in Ef as [Ef1%negb_true_iff Ef2%negb_true_iff]. split; [by destruct W; split|]. split; [|done].
    apply pushed_overflow; try done; [by rewrite <- fits_room|by apply lost_discard]. }
  destruct ((dcap d >? byteLimit q) || (capacity q =? 0)) eqn:Eb.
  { assert (Hbig : byteLimit q < dcap d \/ capacity q = 0).
    { apply orb_true_iff in Eb as [Eb|Eb]; [left; rewrite Z.gtb_ltb in Eb; lia|right; lia]. }
    split; [by apply discard_wf|]. split; [|done]. destruct live.
    - apply pushed_oversize; try done. by apply lost_discard.
    - rewrite andb_true_r in Ef. apply negb_false_iff in Ef. rewrite fits_room in Ef by done. unfold room in Ef.
      apply andb_true_iff in Ef as [F1 F2]. pose proof (wf_limit _ W) as Hlim. rewrite (wf_bytes _ W) in Hlim.
      apply Z.ltb_lt in F1. apply Z.leb_le in F2. unfold len in F1. exfalso. destruct Hbig; lia. }
  apply orb_false_iff in Eb as [Eb1 Eb2]. rewrite Z.gtb_ltb in Eb1.
  assert (Hcap : 0 < capacity q) by (pose proof (wf_cap _ W); lia).
  destruct (evict_spec d (S (size q)) q W) as (k & W1 & F1 & C1 & M1 & L1 & E1 & E2 & E3); [lia|lia|done|].
  set (q1 := evict (S (size q)) d q) in *. pose proof F1 as F1'. rewrite fits_room in F1' by done. rewrite E1, E2, C1 in F1'.
  unfold fits in F1. apply andb_true_iff in F1 as [F1 F2].
  destruct (grow_spec q1 W1) as (W2 & C2 & R2 & G1 & G2 & G3 & G4 & G5 & G6); [lia|].
  destruct (append_spec d (grow q1) W2 R2 Hok) as [W3 C3]; [rewrite G2, G3; lia|].
  split; [done|]. split; [|split; [change (capacity (grow q1) = capacity q)|change (byteLimit (grow q1) = byteLimit q)]; congruence].
  apply (pushed_ok _ _ _ _ k); try done.
  - by rewrite C3, C2, C1.
  - change (overflow (grow q1) = false). congruence.
  - intros ->. rewrite andb_true_r in Ef. apply negb_false_iff in Ef. destruct k as [|k]; [done|]. specialize (M1 0%nat ltac:(lia)).
    rewrite fits_room in Ef by done. rewrite drop_0 in M1. congruence.
  - destruct L1 as [L1 L2]. split; [change (dropped (append d (grow q1))) with (dropped (grow q1))|change (dropBytes (append d (grow q1))) with (dropBytes (grow q1))]; congruence.
Qed.

Lemma pop_spec q : wf q ->
  let '(r, q') := pop q in
  wf q' /\ match contents q with [] => r = None /\ q' = q | d :: l => r = Some d /\ contents q' = l end /\
  overflow q' = overflow q /\ capacity q' = capacity q /\ byteLimit q' = byteLimit q /\ lost [] q q'.
Proof.
  intros W. unfold pop. destruct (Nat.eqb_spec (size q) 0) as [E|E].
  - assert (contents q = []) as ->. { apply nil_length_inv. by rewrite contents_length. }
    do 5 (split; [done|]). by apply lost_nil.
  - pose proof (popLocked_spec q W ltac:(lia)) as H. destruct (popLocked q) as [d q1].
    destruct H as (W1 & Ec & E1 & E2 & E3 & E4 & E5). rewrite Ec.
    assert (L : lost [] q q1) by by apply lost_nil.
    destruct (Nat.ltb 0 (size q1)); split; try done. by destruct W1; split.
Qed.

(** The size of the ready tier never changes. *)
Lemma evict_readyLimit fuel d : forall q, readyLimit (evict fuel d q) = readyLimit q.
Proof. induction fuel as [|fuel IH]; intros q; [done|]. cbn [evict]. destruct (fits d q); [done|]. simpl. by rewrite IH. Qed.

Lemma push_readyLimit d live q : readyLimit (snd (push d live q)) = readyLimit q.
Proof.
  unfold push. destruct (overflow q); [done|]. destruct (_ && _); [done|]. destruct (_ || _); [done|]. cbn [snd]. unfold append, grow.
  destruct (Nat.eqb _ _); apply evict_readyLimit.
Qed.

Lemma pop_readyLimit q : readyLimit (snd (pop q)) = readyLimit q.
Proof. unfold pop. destruct (Nat.eqb _ _); [done|]. simpl. by destruct (Nat.ltb _ _). Qed.

End DeliveryQueue.
