(* ===== verification/Session.v ===== *)
(** * The host of a connection ([internal/session/session.go])

    One goroutine drives the core: it feeds it packets, queued writes and expired
    timers, and drains its outputs and events.  [step] is one turn of its loop for
    one ready case of the select; the application's calls ([WriteMsg], [Read] and
    its variants) work on the channels and queues between the two.  The host's OS
    timer is the instant it was last armed for. *)
From Stdlib Require Import ZArith Lia.
From stdpp Require Import base numbers list option gmap.
From S2P Require Import Prelude Packet Clock Fifo Output Crypto Float64 ConnState ConnSend ConnRecv ConnCore DeliveryQueue.
Import Output(TimerID, SendPacket, SetTimer, ClearTimer).
Import ConnState(Conn).
Import DeliveryQueue(delivery, deliveryQueue, MsgMetadata, mkDelivery, mkMeta, zeroDelivery).
Local Open Scope Z_scope.

Module Session.

Definition timerNo (id : TimerID) : nat :=
  match id with
  | Output.TimerACK => 0 | Output.TimerNAK => 1 | Output.TimerSndPacing => 2 | Output.TimerTSBPD => 3 | Output.TimerEXP => 4
  | Output.TimerHandshake => 5 | Output.TimerLinger => 6 | Output.TimerKeepalive => 7 | Output.TimerPeerIdle => 8
  | Output.TimerKMRefresh => 9
  end.
Definition timerOf (n : nat) : TimerID :=
  match n with
  | 0 => Output.TimerACK | 1 => Output.TimerNAK | 2 => Output.TimerSndPacing | 3 => Output.TimerTSBPD | 4 => Output.TimerEXP
  | 5 => Output.TimerHandshake | 6 => Output.TimerLinger | 7 => Output.TimerKeepalive | 8 => Output.TimerPeerIdle
  | _ => Output.TimerKMRefresh
  end%nat.
#[global] Instance TimerID_countable : Countable TimerID.
Proof. apply (inj_countable' timerNo timerOf). by intros []. Defined.

(** ** State *)

Inductive sessionError : Type := ErrClosed | ErrWouldBlock | ErrTimeout | ErrReceiveOverflow | ErrShortBuffer | EOF.

Record writeReq : Type := mkReq { payload : list Z; opts : ConnSend.MsgOptions; pooled : bool }.

Definition writeCap : nat := 256.

Record Session : Type := mkSession {
  pending : delivery;
  pendingOffset : nat;
  pendingReady : bool;
  remoteAddr : option Packet.NetAddr;
  core : Conn;
  writeC : list writeReq;
  deliveries : deliveryQueue;
  connected : option (option Output.ConnError);
  readable : bool;
  writable : bool;
  loopDone : bool;
  rcvSyn : bool;
  sndSyn : bool;
  timers : gmap TimerID Z;
  dead : bool;
  linger : Z;
  closing : bool;
  closeDeadline : Z;
  wake : option Z;
  wire : list Packet.Packet
}.

#[global] Instance eta_session : Eta Session := fun s =>
  mkSession (pending s) (pendingOffset s) (pendingReady s) (remoteAddr s) (core s) (writeC s) (deliveries s) (connected s)
    (readable s) (writable s) (loopDone s) (rcvSyn s) (sndSyn s) (timers s) (dead s) (linger s) (closing s) (closeDeadline s)
    (wake s) (wire s).
#[global] Instance fld_s_pending : Field pending. Proof. derive_field. Defined.
#[global] Instance fld_s_pendingOffset : Field pendingOffset. Proof. derive_field. Defined.
#[global] Instance fld_s_pendingReady : Field pendingReady. Proof. derive_field. Defined.
#[global] Instance fld_s_core : Field core. Proof. derive_field. Defined.
#[global] Instance fld_s_writeC : Field writeC. Proof. derive_field. Defined.
#[global] Instance fld_s_deliveries : Field deliveries. Proof. derive_field. Defined.
#[global] Instance fld_s_connected : Field connected. Proof. derive_field. Defined.
#[global] Instance fld_s_readable : Field readable. Proof. derive_field. Defined.
#[global] Instance fld_s_writable : Field writable. Proof. derive_field. Defined.
#[global] Instance fld_s_loopDone : Field loopDone. Proof. derive_field. Defined.
#[global] Instance fld_s_rcvSyn : Field rcvSyn. Proof. derive_field. Defined.
#[global] Instance fld_s_sndSyn : Field sndSyn. Proof. derive_field. Defined.
#[global] Instance fld_s_timers : Field timers. Proof. derive_field. Defined.
#[global] Instance fld_s_dead : Field dead. Proof. derive_field. Defined.
#[global] Instance fld_s_linger : Field linger. Proof. derive_field. Defined.
#[global] Instance fld_s_closing : Field closing. Proof. derive_field. Defined.
#[global] Instance fld_s_closeDeadline : Field closeDeadline. Proof. derive_field. Defined.
#[global] Instance fld_s_wake : Field wake. Proof. derive_field. Defined.
#[global] Instance fld_s_wire : Field wire. Proof. derive_field. Defined.

Definition newSession (addr : option Packet.NetAddr) (c : Conn) : Session :=
  mkSession zeroDelivery 0 false addr c [] 
    (DeliveryQueue.newDeliveryQueue DeliveryQueue.sessionReadQueueSize DeliveryQueue.sessionDeliveryBacklogSize DeliveryQueue.sessionDeliveryByteLimit)
    None false false false true true ∅ false 0 false 0 None [].

(** ** Draining the core *)

#[global] Instance fld_hdr_Addr : Field Packet.Addr. Proof. derive_field. Defined.

Definition runOutput (o : Output.Output) (s : Session) : Session :=
  match o with
  | SendPacket p _ => s <| wire ::= fun w => w ++ [p <| Packet.Hdr ::= fun h => h <| Packet.Addr := remoteAddr s |> |>] |>
  | SetTimer id deadline => s <| timers ::= <[id := deadline]> |>
  | ClearTimer id => s <| timers ::= delete id |>
  end.

Fixpoint drainOutputs (fuel : nat) (s : Session) : Session :=
  match fuel with
  | O => s
  | S fuel =>
      let '(o, c) := ConnCore.PollOutput (core s) in
      let s := s <| core := c |> in
      match o with Some o => drainOutputs fuel (runOutput o s) | None => s end
  end.

(** The select of [s.connected <- v] with a default: the channel holds one value. *)
Definition report (v : option Output.ConnError) (s : Session) : Session :=
  match connected s with Some _ => s | None => s <| connected := Some v |> end.

Section Drain.
(** [cap] of the slice an event carries. *)
Context (capOf : list Z -> Z).

Definition runEvent (e : Output.Event) (s : Session) : Session :=
  match e with
  | Output.EData e =>
      let d := mkDelivery (Output.d_Data e) (capOf (Output.d_Data e)) (mkMeta (Output.d_Boundary e) (Output.d_MsgNo e) (Output.d_Seq e)) in
      let '(ok, q) := DeliveryQueue.push d (ConnCore.Live (core s)) (deliveries s) in
      let s := s <| deliveries := q |> in
      (if ok then s else s <| dead := true |>) <| readable := true |>
  | Output.Connected _ => report None s
  | Output.Failed err => (report (Some err) s) <| dead := true |>
  | Output.Closed => s <| dead := true |>
  | Output.KeyRefreshNeeded _ => s
  end.

Fixpoint drainEvents (fuel : nat) (s : Session) : Session :=
  match fuel with
  | O => s
  | S fuel =>
      let '(e, c) := ConnCore.PollEvent (core s) in
      let s := s <| core := c |> in
      match e with Some e => drainEvents fuel (runEvent e s) | None => s end
  end.

(** The soonest deadline of the armed timers. *)
Definition sooner (deadline : Z) (best : option Z) : option Z :=
  match best with None => Some deadline | Some b => if Clock.Before deadline b then Some deadline else Some b end.
Definition earliest (s : Session) : option Z := fold_right sooner None (map snd (map_to_list (timers s))).

Definition rearm (now : Z) (s : Session) : Session :=
  match earliest s with
  | None => s <| wake := None |>
  | Some e => let d := Clock.Sub e now in let d := if d <? 0 then 0 else d in s <| wake := Some (now + d) |>
  end.

Definition outputsLeft (s : Session) : nat := length (Fifo.contents (ConnState.outputs (core s))).
Definition eventsLeft (s : Session) : nat := length (Fifo.contents (ConnState.events (core s))).

Definition drain (now : Z) (s : Session) : Session :=
  let s := drainOutputs (S (outputsLeft s)) s in
  let s := drainEvents (S (eventsLeft s)) s in
  rearm now s.

(** ** The loop *)

Section Loop.
Context {P : Crypto.Primitives} {M : Float64.GoMath} {O : ConnRecv.RangeOrder}.

(** [range s.timers] in the order [ids]: the core's requests to arm a timer are
    only drained afterwards, so the map loses entries but gains none. *)
Fixpoint fireTimers (now : Z) (ids : list TimerID) (s : Session) : option Session :=
  match ids with
  | [] => Some s
  | id :: ids =>
      match timers s !! id with
      | Some deadline =>
          if negb (Clock.After deadline now) then
            match ConnCore.HandleTimer now id (core s) with
            | Some c => fireTimers now ids (s <| timers ::= delete id |> <| core := c |>)
            | None => None
            end
          else fireTimers now ids s
      | None => fireTimers now ids s
      end
  end.

(** [closeFinished] at wall-clock time [wall]. *)
Definition closeFinished (wall : Z) (s : Session) : bool :=
  if negb (closing s) then false
  else if Nat.ltb 0 (length (writeC s)) then false
  else if linger s <=? 0 then true
  else if ConnSend.PendingSend (core s) =? 0 then true
  else wall >? closeDeadline s.

(** The closures [control] and [onLoop] send to the loop. *)
Inductive ctrlFn : Type :=
| CSetMaxBW (bw : Z) | CSetInputBW (bw : Z) | CSetMinInputBW (bw : Z) | CSetOverhead (pct : Z)
| CSetReorderTolerance (n : Z) | CSetSndDropDelay (ms : Z)
| COverrideSndSeqNo (n : Z) | CResetRecvState (n : Z)
| CApplyGroupDrift (tb : Tsbpd.Tsbpd.GroupTimeBase) | CApplyGroupTime (tb : Tsbpd.Tsbpd.GroupTimeBase)
| CSendKeepAlive (now : Z)
| CRead.

Definition runCtrl (f : ctrlFn) (c : Conn) : Conn :=
  match f with
  | CSetMaxBW bw => ConnSend.SetMaxBW bw c
  | CSetInputBW bw => ConnSend.SetInputBW bw c
  | CSetMinInputBW bw => ConnSend.SetMinInputBW bw c
  | CSetOverhead pct => ConnSend.SetOverhead pct c
  | CSetReorderTolerance n => ConnRecv.SetReorderTolerance n c
  | CSetSndDropDelay ms => ConnSend.SetSndDropDelay ms c
  | COverrideSndSeqNo n => snd (ConnSend.OverrideSndSeqNo n c)
  | CResetRecvState n => ConnRecv.ResetRecvState n c
  | CApplyGroupDrift tb => ConnRecv.ApplyGroupDrift tb c
  | CApplyGroupTime tb => ConnRecv.ApplyGroupTime tb c
  | CSendKeepAlive now => ConnSend.SendKeepAlive now c
  | CRead => c
  end.

(** The ready case of the select. *)
Inductive input : Type :=
| InQuit (wall : Z)
| InPacket (p : Packet.Packet)
| InRecvClosed
| InWrite
| InTimer (ids : list TimerID)
| InStats
| InCtrl (f : ctrlFn).

Definition shutdown (now : Z) (s : Session) : Session :=
  let s := s <| core ::= ConnSend.Shutdown now |> in (drain now s) <| loopDone := true |>.

(** [WriteMsgOwned] for a pooled payload, [WriteMsg] otherwise; [None] is a panic. *)
Definition writeHead (now : Z) (req : writeReq) (c : Conn) : option Conn :=
  if pooled req then ConnCore.writeMsg_checked now (payload req) (opts req) true c
  else ConnCore.writeMsg_checked now (payload req) (opts req) false c.

Definition select (now : Z) (i : input) (s : Session) : option Session :=
  match i with
  | InQuit wall => if closing s then Some s else Some (rearm now (s <| closing := true |> <| closeDeadline := wall + linger s |>))
  | InPacket p =>
      match ConnCore.HandlePacket_checked now p (core s) with
      | Some c => Some (drain now (s <| core := c |>))
      | None => None
      end
  | InRecvClosed => Some (s <| loopDone := true |>)
  | InWrite =>
      match writeC s with
      | [] => Some s
      | req :: rest =>
          match writeHead now req (core s) with
          | Some c => Some ((drain now (s <| writeC := rest |> <| core := c |>)) <| writable := true |>)
          | None => None
          end
      end
  | InTimer ids => match fireTimers now ids s with Some s => Some (drain now s) | None => None end
  | InStats => Some s
  | InCtrl f => Some (drain now (s <| core ::= runCtrl f |>))
  end.

(** One turn of the loop; [None] is a panic. *)
Definition step (now wall : Z) (i : input) (s : Session) : option Session :=
  if loopDone s then Some s
  else if dead s then Some (shutdown now s)
  else if closeFinished wall s then Some (shutdown now s)
  else select now i s.

End Loop.
End Drain.

(** ** Reading *)

Inductive readResult : Type :=
| RData (out : list Z) (meta : MsgMetadata)
| RErr (e : sessionError)
| RWait.

(** [nextDelivery]; [expired] says whether the read deadline has passed. *)
Definition nextDelivery (expired : bool) (s : Session) : delivery + readResult :=
  if rcvSyn s && expired then inr (RErr ErrTimeout) else
  match fst (DeliveryQueue.pop (deliveries s)) with
  | Some d => inl d
  | None =>
      if loopDone s then inr (RErr (if DeliveryQueue.readError (deliveries s) then ErrReceiveOverflow else EOF))
      else if negb (rcvSyn s) then inr (RErr ErrWouldBlock) else inr RWait
  end.

Definition takePending (d : delivery) (s : Session) : Session :=
  s <| deliveries ::= fun q => snd (DeliveryQueue.pop q) |> <| pending := d |> <| pendingOffset := 0%nat |> <| pendingReady := true |>.

(** The copy of one turn: at most [room] bytes of what is left of the delivery. *)
Definition remaining (s : Session) : list Z := drop (pendingOffset s) (DeliveryQueue.data (pending s)).
Definition copyOut (room : nat) (s : Session) : list Z * Session :=
  let copied := take room (remaining s) in
  let s := s <| pendingOffset ::= fun o => (o + length copied)%nat |> in
  (copied, if Nat.eqb (pendingOffset s) (length (DeliveryQueue.data (pending s)))
           then s <| pending := zeroDelivery |> <| pendingOffset := 0%nat |> <| pendingReady := false |> else s).

(** Each turn but the last takes a delivery off the queue. *)
Fixpoint read_loop (fuel blen : nat) (expired batch message : bool) (out : list Z) (meta : MsgMetadata) (s : Session) : readResult * Session :=
  match fuel with
  | O => (RData out meta, s)
  | S fuel =>
      let copy (s : Session) :=
        let meta := if Nat.eqb (length out) 0 then DeliveryQueue.meta (pending s) else meta in
        let rest := remaining s in
        if message && Nat.ltb blen (length rest) then (RErr ErrShortBuffer, s) else
        let '(copied, s) := copyOut (blen - length out) s in
        let out := out ++ copied in
        if negb batch || Nat.eqb (length out) blen || Nat.eqb (length rest) 0 then (RData out meta, s)
        else read_loop fuel blen expired batch message out meta s in
      if pendingReady s then copy s
      else if Nat.eqb (length out) 0 then
        match nextDelivery expired s with inl d => copy (takePending d s) | inr r => (r, s) end
      else
        match fst (DeliveryQueue.pop (deliveries s)) with
        | Some d => copy (takePending d s)
        | None => (RData out meta, s)
        end
  end.

Definition readInto (blen : nat) (expired batch message : bool) (s : Session) : readResult * Session :=
  if Nat.eqb blen 0 then (RData [] (mkMeta 0 0 0), s) else
  if rcvSyn s && expired then (RErr ErrTimeout, s) else
  read_loop (S (S (DeliveryQueue.size (deliveries s)))) blen expired batch message [] (mkMeta 0 0 0) s.

Definition Read (blen : nat) (expired : bool) (s : Session) : readResult * Session := readInto blen expired false false s.
Definition ReadBatch (blen : nat) (expired : bool) (s : Session) : readResult * Session := readInto blen expired true false s.
Definition ReadMsg (blen : nat) (expired : bool) (s : Session) : readResult * Session := readInto blen expired false true s.

(** ** Writing

    A select takes any ready case, so the outcome is a relation. *)

Inductive writeResult : Type := WOk | WErr (e : sessionError).

Definition request (p : list Z) (o : ConnSend.MsgOptions) : writeReq :=
  mkReq p o (Z.of_nat (length p) <=? Packet.MaxPayloadSize).

Inductive WriteMsg (p : list Z) (o : ConnSend.MsgOptions) (deadline expired : bool) (s : Session) : writeResult -> Session -> Prop :=
| write_expired : sndSyn s = true -> expired = true -> WriteMsg p o deadline expired s (WErr ErrTimeout) s
| write_queued : (sndSyn s = true -> expired = false) -> (length (writeC s) < writeCap)%nat ->
    WriteMsg p o deadline expired s WOk (s <| writeC ::= fun w => w ++ [request p o] |>)
| write_closed : (sndSyn s = true -> expired = false) -> loopDone s = true -> WriteMsg p o deadline expired s (WErr ErrClosed) s
| write_full : sndSyn s = false -> (writeCap <= length (writeC s))%nat -> loopDone s = false ->
    WriteMsg p o deadline expired s (WErr ErrWouldBlock) s
| write_timeout : sndSyn s = true -> expired = false -> deadline = true -> WriteMsg p o deadline expired s (WErr ErrTimeout) s.

(** ** Settings and queries *)

Definition SetLinger (d : Z) (s : Session) : Session := s <| linger := d |>.
Definition SetReadBlocking (b : bool) (s : Session) : Session := s <| rcvSyn := b |>.
Definition SetWriteBlocking (b : bool) (s : Session) : Session := s <| sndSyn := b |>.
Definition ReadReady (s : Session) : bool := pendingReady s || DeliveryQueue.ready (deliveries s).
Definition WriteReady (s : Session) : bool := Nat.ltb (length (writeC s)) writeCap.
Definition Alive (s : Session) : bool := negb (loopDone s).

(** ** The byte stream of a reader *)

Definition queued (s : Session) : list Z := concat (map DeliveryQueue.data (DeliveryQueue.contents (deliveries s))).
Definition stream (s : Session) : list Z := (if pendingReady s then remaining s else []) ++ queued s.

(** What a single read sees: the rest of the delivery in hand, or the next one. *)
Definition front (s : Session) : list Z :=
  if pendingReady s then remaining s
  else match DeliveryQueue.contents (deliveries s) with [] => [] | d :: _ => DeliveryQueue.data d end.

(** The queue is sound and no delivery is empty. *)
Record solid (s : Session) : Prop := mkSolid {
  so_wf : DeliveryQueue.wf (deliveries s);
  so_rest : pendingReady s = true -> (pendingOffset s < length (DeliveryQueue.data (pending s)))%nat;
  so_full : Forall (fun d => DeliveryQueue.data d <> []) (DeliveryQueue.contents (deliveries s))
}.

Lemma remaining_ne s : solid s -> pendingReady s = true -> remaining s <> [].
Proof.
  intros So Hp E. pose proof (so_rest _ So Hp). apply (f_equal length) in E. unfold remaining in E. rewrite length_drop in E. simpl in E. lia.
Qed.

(** Taking the next delivery in hand. *)
Lemma takePending_spec s d l : solid s -> pendingReady s = false -> DeliveryQueue.contents (deliveries s) = d :: l ->
  fst (DeliveryQueue.pop (deliveries s)) = Some d /\ solid (takePending d s) /\ stream (takePending d s) = stream s /\
  front (takePending d s) = front s /\ S (DeliveryQueue.size (deliveries (takePending d s))) = DeliveryQueue.size (deliveries s).
Proof.
  intros [W R F] Hp E. pose proof (DeliveryQueue.pop_spec _ W) as H. unfold takePending, stream, front, queued, remaining. fields.
  destruct (DeliveryQueue.pop (deliveries s)) as [r q] eqn:Eq. rewrite E in H, F. destruct H as (Wq & [-> Ec] & _). cbn [fst snd].
  rewrite Hp, Ec, E. apply Forall_cons in F as [F1 F2]. split; [done|]. split.
  - split; fields; rewrite ?Eq; cbn [snd]; [done| |by rewrite Ec]. intros _. destruct (DeliveryQueue.data d); [done|]. simpl. lia.
  - split; [done|]. split; [done|]. rewrite <- !DeliveryQueue.contents_length, E, Ec. done.
Qed.

Lemma copyOut_spec n s : solid s -> pendingReady s = true -> (0 < n)%nat ->
  let '(copied, s') := copyOut n s in
  copied = take n (front s) /\ stream s = copied ++ stream s' /\ solid s' /\ deliveries s' = deliveries s /\
  pendingReady s' = negb (Nat.leb (length (front s)) n).
Proof.
  intros So Hp Hn. pose proof (so_rest _ So Hp) as Hr. unfold copyOut, front. rewrite Hp. cbv zeta. fields.
  set (rest := remaining s). assert (Hl : length rest = (length (DeliveryQueue.data (pending s)) - pendingOffset s)%nat) by apply length_drop.
  rewrite length_take. unfold stream at 1. rewrite Hp. fold rest. split; [done|].
  destruct (Nat.eqb_spec (pendingOffset s + Nat.min n (length rest)) (length (DeliveryQueue.data (pending s)))) as [E|E].
  - rewrite take_ge by lia. unfold stream, queued. fields. split; [done|]. split; [|split; [done|]].
    + destruct So as [W R F]. split; fields; [done|done|done].
    + symmetry. apply negb_false_iff, Nat.leb_le. lia.
  - assert (Hlt : (n < length rest)%nat) by lia. unfold stream, queued, remaining. fields. rewrite Hp. split; [|split; [|split; [done|]]].
    + rewrite app_assoc. f_equal. rewrite Nat.min_l by lia. rewrite <- drop_drop. symmetry. apply take_drop.
    + destruct So as [W R F]. split; fields; [done| |done]. intros _. lia.
    + symmetry. apply negb_true_iff, Nat.leb_gt. lia.
Qed.

(** The loop with a delivery in hand. *)
Definition copyTurn (fuel blen : nat) (expired batch message : bool) (out : list Z) (meta : MsgMetadata) (s : Session) : readResult * Session :=
  let meta := if Nat.eqb (length out) 0 then DeliveryQueue.meta (pending s) else meta in
  if message && Nat.ltb blen (length (remaining s)) then (RErr ErrShortBuffer, s) else
  let '(copied, s') := copyOut (blen - length out) s in
  if negb batch || Nat.eqb (length (out ++ copied)) blen || Nat.eqb (length (remaining s)) 0 then (RData (out ++ copied) meta, s')
  else read_loop fuel blen expired batch message (out ++ copied) meta s'.

Lemma read_loop_ready fuel blen expired batch message out meta s : pendingReady s = true ->
  read_loop (S fuel) blen expired batch message out meta s = copyTurn fuel blen expired batch message out meta s.
Proof. intros H. cbn [read_loop]. rewrite H. done. Qed.

Lemma read_loop_next fuel blen expired batch message out meta s d l :
  solid s -> pendingReady s = false -> DeliveryQueue.contents (deliveries s) = d :: l ->
  (rcvSyn s && expired = false \/ out <> []) ->
  read_loop (S fuel) blen expired batch message out meta s = copyTurn fuel blen expired batch message out meta (takePending d s).
Proof.
  intros So Hp E Hx. destruct (takePending_spec s d l So Hp E) as (Ed & _). cbn [read_loop]. rewrite Hp. unfold copyTurn.
  destruct (Nat.eqb_spec (length out) 0) as [E0|E0]; [|by rewrite Ed].
  apply nil_length_inv in E0. destruct Hx as [Hx|Hx]; [|done]. unfold nextDelivery. by rewrite Hx, Ed.
Qed.

(** A turn of a batch read. *)
Lemma batch_turn fuel blen expired : forall out meta s,
  (forall out meta s, solid s -> out <> [] -> (length out < blen)%nat -> pendingReady s = false ->
     (DeliveryQueue.size (deliveries s) < fuel)%nat -> exists m s',
     read_loop fuel blen expired true false out meta s = (RData (out ++ take (blen - length out) (stream s)) m, s') /\
     solid s' /\ stream s' = drop (blen - length out) (stream s)) ->
  solid s -> pendingReady s = true -> (length out < blen)%nat -> (DeliveryQueue.size (deliveries s) < fuel)%nat -> exists m s',
    copyTurn fuel blen expired true false out meta s = (RData (out ++ take (blen - length out) (stream s)) m, s') /\
    solid s' /\ stream s' = drop (blen - length out) (stream s).
Proof.
  intros out meta s IH So Hp Hlen Hf. unfold copyTurn. cbn [negb andb orb].
  pose proof (remaining_ne s So Hp) as Hne. pose proof (copyOut_spec (blen - length out) s So Hp ltac:(lia)) as H.
  destruct (copyOut _ s) as [copied s']. destruct H as (Ec & Es & So' & Ed & Er).
  unfold front in Ec, Er. rewrite Hp in Ec, Er. set (n := (blen - length out)%nat) in *.
  assert (Hc : length copied = Nat.min n (length (remaining s))) by (rewrite Ec; apply length_take).
  assert (Hr : length (remaining s) <> 0%nat) by (intros H0; by apply nil_length_inv in H0).
  replace (Nat.eqb (length (remaining s)) 0) with false by (symmetry; by apply Nat.eqb_neq). rewrite orb_false_r, length_app.
  destruct (Nat.eqb_spec (length out + length copied) blen) as [Ef|Ef].
  - eexists _, s'. rewrite Es, take_app_le, take_ge, drop_app_length' by lia. done.
  - assert (Hall : copied = remaining s) by (rewrite Ec; apply take_ge; lia).
    assert (Hpr : pendingReady s' = false) by (rewrite Er; apply negb_false_iff, Nat.leb_le; lia).
    destruct (IH (out ++ copied) (if Nat.eqb (length out) 0 then DeliveryQueue.meta (pending s) else meta) s') as (m & s'' & E & So'' & Es'');
      [done|rewrite Hall; by destruct out, (remaining s)|rewrite length_app; lia|done|by rewrite Ed|].
    exists m, s''. rewrite E, Es'', length_app. replace (blen - (length out + length copied))%nat with (n - length copied)%nat by lia.
    rewrite Es, take_app_ge, drop_app_ge by lia. rewrite <- app_assoc. done.
Qed.

Lemma batch_loop blen expired fuel : forall out meta s,
  solid s -> out <> [] -> (length out < blen)%nat -> pendingReady s = false -> (DeliveryQueue.size (deliveries s) < fuel)%nat ->
  exists m s',
    read_loop fuel blen expired true false out meta s = (RData (out ++ take (blen - length out) (stream s)) m, s') /\
    solid s' /\ stream s' = drop (blen - length out) (stream s).
Proof.
  induction fuel as [|fuel IH]; intros out meta s So Ho Hl Hp Hf; [lia|].
  destruct (DeliveryQueue.contents (deliveries s)) as [|d l] eqn:E.
  - assert (Hs : stream s = []) by (unfold stream, queued; by rewrite Hp, E). rewrite Hs, take_nil, drop_nil, app_nil_r.
    exists meta, s. split; [|done]. cbn [read_loop]. rewrite Hp.
    destruct (Nat.eqb_spec (length out) 0) as [E0|E0]; [by apply nil_length_inv in E0|].
    pose proof (DeliveryQueue.pop_spec _ (so_wf _ So)) as H. destruct (DeliveryQueue.pop (deliveries s)) as [r q].
    rewrite E in H. by destruct H as (_ & [-> _] & _).
  - rewrite (read_loop_next _ _ _ _ _ _ _ _ d l) by auto. destruct (takePending_spec s d l So Hp E) as (_ & So' & Es & _ & Hs).
    rewrite <- Es. apply batch_turn; [by apply IH|done|done|done|lia].
Qed.

Lemma front_nil s : solid s -> front s = [] -> pendingReady s = false /\ DeliveryQueue.contents (deliveries s) = [].
Proof.
  intros So E. unfold front in E. destruct (pendingReady s) eqn:Hp; [by destruct (remaining_ne s So Hp)|]. split; [done|].
  destruct (DeliveryQueue.contents (deliveries s)) as [|d l] eqn:Ec; [done|].
  pose proof (so_full _ So) as F. rewrite Ec in F. by apply Forall_cons in F as [F _].
Qed.

(** A read with something to read has it in hand after the first step. *)
Lemma readInto_turn blen expired batch message s :
  solid s -> (0 < blen)%nat -> rcvSyn s && expired = false -> front s <> [] ->
  exists s1 fuel, readInto blen expired batch message s = copyTurn fuel blen expired batch message [] (mkMeta 0 0 0) s1 /\
    solid s1 /\ pendingReady s1 = true /\ stream s1 = stream s /\ front s1 = front s /\ (DeliveryQueue.size (deliveries s1) < fuel)%nat.
Proof.
  intros So Hb Hx Hf. unfold readInto. destruct (Nat.eqb_spec blen 0); [lia|]. rewrite Hx.
  destruct (pendingReady s) eqn:Hp.
  - exists s, (S (DeliveryQueue.size (deliveries s))). rewrite read_loop_ready by done. repeat (split; [done|]). lia.
  - unfold front in Hf. rewrite Hp in Hf. destruct (DeliveryQueue.contents (deliveries s)) as [|d l] eqn:Ec; [done|].
    destruct (takePending_spec s d l So Hp Ec) as (_ & So' & Es & Ef & Hs).
    exists (takePending d s), (S (DeliveryQueue.size (deliveries s))).
    rewrite (read_loop_next _ _ _ _ _ _ _ _ d l) by auto. repeat (split; [done|]). lia.
Qed.

(** A single read: one copy from the delivery in hand. *)
Lemma single_turn fuel blen expired s :
  solid s -> pendingReady s = true -> (0 < blen)%nat ->
  exists m s', copyTurn fuel blen expired false false [] (mkMeta 0 0 0) s = (RData (take blen (front s)) m, s') /\
    solid s' /\ stream s = take blen (front s) ++ stream s'.
Proof.
  intros So Hp Hb. unfold copyTurn. cbn [length negb andb orb Nat.eqb]. rewrite Nat.sub_0_r.
  pose proof (copyOut_spec blen s So Hp Hb) as H. destruct (copyOut blen s) as [copied s']. destruct H as (Ec & Es & So' & _).
  exists (DeliveryQueue.meta (pending s)), s'. by rewrite <- Ec.
Qed.

Lemma message_turn fuel blen expired s :
  solid s -> pendingReady s = true -> (0 < blen)%nat ->
  copyTurn fuel blen expired false true [] (mkMeta 0 0 0) s =
    if Nat.leb (length (front s)) blen then copyTurn fuel blen expired false false [] (mkMeta 0 0 0) s else (RErr ErrShortBuffer, s).
Proof.
  intros So Hp Hb. unfold copyTurn, front. rewrite Hp. cbn [andb].
  destruct (Nat.leb_spec (length (remaining s)) blen), (Nat.ltb_spec blen (length (remaining s))); try lia; done.
Qed.

(** What the reader of an empty queue is told. *)
Definition emptyRead (s : Session) : readResult :=
  if loopDone s then RErr (if DeliveryQueue.readError (deliveries s) then ErrReceiveOverflow else EOF)
  else if rcvSyn s then RWait else RErr ErrWouldBlock.

(** C17. The three ways to read hand out the delivered bytes in order, none lost or
    repeated whatever the sizes of the buffers, as long as no empty delivery is queued
    ([solid]). *)
Theorem session_read_exact (blen : nat) (expired : bool) (s : Session) :
  solid s -> (0 < blen)%nat -> rcvSyn s && expired = false ->
  (front s <> [] ->
   (exists m s', Read blen expired s = (RData (take blen (front s)) m, s') /\ solid s' /\ stream s = take blen (front s) ++ stream s') /\
   (exists m s', ReadBatch blen expired s = (RData (take blen (stream s)) m, s') /\ solid s' /\ stream s' = drop blen (stream s)) /\
   (if Nat.leb (length (front s)) blen
    then exists m s', ReadMsg blen expired s = (RData (front s) m, s') /\ solid s' /\ stream s = front s ++ stream s'
    else exists s', ReadMsg blen expired s = (RErr ErrShortBuffer, s') /\ solid s' /\ stream s' = stream s /\ front s' = front s)) /\
  (front s = [] -> stream s = [] /\ forall batch message, readInto blen expired batch message s = (emptyRead s, s)).
Proof.
  intros So Hb Hx. split.
  - intros Hf. split; [|split].
    + destruct (readInto_turn blen expired false false s So Hb Hx Hf) as (s1 & fuel & E & So1 & Hp & Es & Ef & _).
      unfold Read. rewrite E, <- Ef, <- Es. by apply single_turn.
    + destruct (readInto_turn blen expired true false s So Hb Hx Hf) as (s1 & fuel & E & So1 & Hp & Es & _ & Hs).
      unfold ReadBatch. rewrite E, <- Es.
      destruct (batch_turn fuel blen expired [] (mkMeta 0 0 0) s1) as (m & s' & E' & H); [|done|done|done|done|].
      * intros. by apply batch_loop.
      * rewrite E'. simpl length in *. rewrite Nat.sub_0_r in *. by exists m, s'.
    + destruct (readInto_turn blen expired false true s So Hb Hx Hf) as (s1 & fuel & E & So1 & Hp & Es & Ef & _).
      unfold ReadMsg. rewrite E, <- Ef, <- Es, message_turn by done.
      destruct (Nat.leb_spec (length (front s1)) blen) as [Hle|Hgt]; [|by exists s1].
      destruct (single_turn fuel blen expired s1 So1 Hp Hb) as (m & s' & E' & So' & Es'). rewrite take_ge in E', Es' by done. by exists m, s'.
  - intros Hf. destruct (front_nil s So Hf) as [Hp Ec]. split; [unfold stream, queued; by rewrite Hp, Ec|].
    intros batch message. unfold readInto. destruct (Nat.eqb_spec blen 0); [lia|]. rewrite Hx. cbn [read_loop]. rewrite Hp. cbn [length Nat.eqb].
    unfold nextDelivery, emptyRead. rewrite Hx. pose proof (DeliveryQueue.pop_spec _ (so_wf _ So)) as H.
    destruct (DeliveryQueue.pop (deliveries s)) as [r q]. rewrite Ec in H. destruct H as (_ & [-> _] & _). cbn [fst].
    destruct (loopDone s); [done|]. by destruct (rcvSyn s).
Qed.

(** Two messages in the queue, read into a buffer of four bytes. *)
Definition toyQueue : deliveryQueue :=
  snd (DeliveryQueue.push (mkDelivery [4; 5] 8 (mkMeta 3 2 1)) false
    (snd (DeliveryQueue.push (mkDelivery [1; 2; 3] 8 (mkMeta 3 1 0)) false (DeliveryQueue.newDeliveryQueue 4 4 64)))).
Definition toyReader : Session := (newSession None (ConnState.zeroConn (fun _ => None))) <| deliveries := toyQueue |>.

Lemma toyQueue_wf : DeliveryQueue.wf toyQueue.
Proof.
  unfold toyQueue. pose proof (DeliveryQueue.push_spec (mkDelivery [1; 2; 3] 8 (mkMeta 3 1 0)) false (DeliveryQueue.newDeliveryQueue 4 4 64)) as H1.
  destruct (DeliveryQueue.push _ _ (DeliveryQueue.newDeliveryQueue 4 4 64)) as [ok q]. cbn [snd] in *.
  destruct H1 as [W _]; [apply DeliveryQueue.new_wf; lia|vm_compute; congruence|].
  pose proof (DeliveryQueue.push_spec (mkDelivery [4; 5] 8 (mkMeta 3 2 1)) false q W) as H2. destruct (DeliveryQueue.push _ _ q) as [ok' q'].
  apply H2. vm_compute. congruence.
Qed.

Lemma session_read_exact_witness :
  stream toyReader = [1; 2; 3; 4; 5] /\
  exists m s', ReadBatch 4 false toyReader = (RData [1; 2; 3; 4] m, s') /\ stream s' = [5].
Proof.
  split; [vm_compute; reflexivity|].
  destruct (session_read_exact 4 false toyReader) as [H _].
  - split; [apply toyQueue_wf|discriminate|]. replace (DeliveryQueue.contents (deliveries toyReader))
      with [mkDelivery [1; 2; 3] 8 (mkMeta 3 1 0); mkDelivery [4; 5] 8 (mkMeta 3 2 1)] by (vm_compute; reflexivity).
    repeat constructor; discriminate.
  - lia.
  - reflexivity.
  - destruct H as (_ & (m & s' & E & _ & Es) & _); [vm_compute; discriminate|]. exists m, s'. split; [exact E|exact Es].
Defined.

End Session.
