(* ===== verification/SessionSafe.v ===== *)
(** * Runs of a session ([internal/session/session.go])

    The host drives the core only as the core's safety theorem assumes: it fires
    the timers it was asked to arm and no others.  So no turn of its loop panics,
    and its queue stays within its bounds. *)
From Stdlib Require Import ZArith Lia.
From stdpp Require Import base numbers list option gmap.
From S2P Require Import Prelude Packet Control Clock Ring SendBuffer RecvBuffer Tsbpd Fifo Output Crypto Float64 Congestion ConnState ConnSend ConnRecv Establish ConnCore ConnSafe DeliveryQueue Session.
Import Output(TimerID, SendPacket, SetTimer, ClearTimer).
Import ConnState(Conn).
Import Session.
Import ConnSafe(hinv, hstep, rdy, quiet).
Local Open Scope Z_scope.

Module SessionSafe.

Definition armed (s : Session) : list TimerID := (map_to_list (timers s)).*1.

Lemma armed_spec s id : id ∈ armed s <-> is_Some (timers s !! id).
Proof.
  unfold armed. rewrite list_elem_of_fmap. split.
  - intros ([k d] & -> & H). apply elem_of_map_to_list in H. by exists d.
  - intros [d H]. exists (id, d). split; [done|]. by apply elem_of_map_to_list.
Qed.

Section Safe.
Context {P : Crypto.Primitives} {M : Float64.GoMath} {O : ConnRecv.RangeOrder} (capOf : list Z -> Z).

Lemma hinv_mono a a' c : (forall id, id ∈ a' -> id ∈ a) -> hinv (a, c) -> hinv (a', c).
Proof. intros H [?|[? Ha]]; [by left|]. right. split; [done|]. cbn [fst] in *. auto. Qed.

Definition sinv (s : Session) : Prop := hinv (armed s, core s).

Lemma host_same s s' : core s' = core s -> timers s' = timers s -> sinv s -> sinv s'.
Proof. unfold sinv, armed. by intros -> ->. Qed.

Lemma sinv_core s c : (hinv (armed s, core s) -> hinv (armed s, c)) -> sinv s -> sinv (s <| core := c |>).
Proof. by unfold sinv, armed. Qed.

(** Draining. *)
Lemma poll_none_inv a c c' : ConnCore.PollOutput c = (None, c') -> hinv (a, c) -> hinv (a, c').
Proof.
  unfold ConnCore.PollOutput. pose proof (Fifo.pop_next (ClearTimer Output.TimerHandshake) (ConnState.outputs c)) as H.
  destruct (Fifo.pop _ _) as [[v ok] q]. destruct (Fifo.contents (ConnState.outputs c)); [|by destruct H as (_ & -> & _)].
  destruct H as [-> ->]. intros [= <-]. apply ConnSafe.hinv_same; [ConnSafe.rdys|]. intros [H1 H2 H3]. constructor; fields; [done| |].
  - unfold Fifo.wf. simpl. lia.
  - unfold ConnState.sent. fields. intros id d Hd. by apply not_elem_of_nil in Hd.
Qed.

Lemma runOutput_inv o s : hinv (ConnSafe.asked o ++ armed s, core s) -> sinv (runOutput o s).
Proof.
  intros H. unfold sinv. destruct o as [p own|id d|id]; simpl.
  - exact H.
  - apply (hinv_mono (id :: armed s)); [|done]. intros i. rewrite armed_spec. fields. rewrite lookup_insert_is_Some'.
    intros [->|Hi]; [by left|right; by apply armed_spec].
  - apply (hinv_mono (armed s)); [|done]. intros i. rewrite !armed_spec. fields. intros [d Hd]. apply lookup_delete_Some in Hd as [_ Hd]. by exists d.
Qed.

Lemma drainOutputs_inv fuel : forall s, sinv s -> sinv (drainOutputs fuel s).
Proof.
  induction fuel as [|fuel IH]; intros s H; [done|]. cbn [drainOutputs].
  destruct (ConnCore.PollOutput (core s)) as [[o|] c] eqn:E; cbv zeta.
  - apply IH, runOutput_inv. fields. apply (ConnSafe.hstep_inv (armed s, core s)); [by apply ConnSafe.h_output|done].
  - apply sinv_core; [|done]. by apply poll_none_inv.
Qed.

Lemma runEvent_kept e s : core (runEvent capOf e s) = core s /\ timers (runEvent capOf e s) = timers s.
Proof.
  destruct e as [id|d|err| |k]; simpl; try done.
  - unfold report. by destruct (connected s).
  - destruct (DeliveryQueue.push _ _ _) as [[] q]; done.
  - unfold report. by destruct (connected s).
Qed.

Lemma poll_event_inv a c e c' : ConnCore.PollEvent c = (e, c') -> hinv (a, c) -> hinv (a, c').
Proof.
  unfold ConnCore.PollEvent. destruct (Fifo.pop _ _) as [[v ok] q]. intros [= _ <-].
  apply ConnSafe.hinv_same; [ConnSafe.rdys|]. intros [H1 H2 H3]. constructor; unfold ConnState.sent in *; by fields.
Qed.

Lemma drainEvents_inv fuel : forall s, sinv s -> sinv (drainEvents capOf fuel s).
Proof.
  induction fuel as [|fuel IH]; intros s H; [done|]. cbn [drainEvents].
  destruct (ConnCore.PollEvent (core s)) as [e c] eqn:E. cbv zeta.
  assert (H1 : sinv (s <| core := c |>)) by (apply sinv_core; [by apply (poll_event_inv _ _ e)|done]).
  destruct e as [e|]; [|done]. apply IH. destruct (runEvent_kept e (s <| core := c |>)) as [E1 E2]. by apply (host_same (s <| core := c |>)).
Qed.

Lemma rearm_inv now s : sinv s -> sinv (rearm now s).
Proof. intros H. unfold rearm. by destruct (earliest s). Qed.

Lemma drain_inv now s : sinv s -> sinv (drain capOf now s).
Proof. intros H. by apply rearm_inv, drainEvents_inv, drainOutputs_inv. Qed.

(** Every armed timer can be fired, in any order. *)
Lemma fireTimers_total now ids : forall s, sinv s -> exists s', fireTimers now ids s = Some s' /\ sinv s'.
Proof.
  induction ids as [|id ids IH]; intros s H; [by exists s|]. cbn [fireTimers].
  destruct (timers s !! id) as [d|] eqn:E; [|by apply IH]. destruct (negb _); [|by apply IH].
  assert (Hid : id ∈ armed s) by (apply armed_spec; by exists d).
  destruct (ConnSafe.hinv_timer (armed s) (core s) id now H Hid) as [c Ec]. rewrite Ec. apply IH.
  unfold sinv. apply (hinv_mono (armed s)).
  - intros i. rewrite !armed_spec. fields. intros [d' Hd]. apply lookup_delete_Some in Hd as [_ Hd]. by exists d'.
  - fields. apply (ConnSafe.hstep_inv (armed s, core s)); [by apply (ConnSafe.h_timer now id)|done].
Qed.

(** What leaves the buffers, the state and the outputs of a connection alone. *)
Definition neutral (c c' : Conn) : Prop :=
  ConnState.ready c' = ConnState.ready c /\ ConnState.state c' = ConnState.state c /\ ConnState.outputs c' = ConnState.outputs c.

Lemma neutral_inv a c c' : neutral c c' -> hinv (a, c) -> hinv (a, c').
Proof.
  intros (E1 & E2 & E3). apply ConnSafe.hinv_same; [exact E1|]. intros [H1 H2 H3].
  constructor; unfold ConnState.sent in *; rewrite ?E2, ?E3; done.
Qed.

Lemma applyBandwidth_neutral c c' : neutral c c' -> neutral c (ConnSend.applyBandwidth c').
Proof. intros H. unfold ConnSend.applyBandwidth. repeat case_match; try exact H; unfold neutral in *; by fields. Qed.

Lemma runCtrl_inv f a c : hinv (a, c) -> hinv (a, runCtrl f c).
Proof.
  intros H. destruct f as [bw|bw|bw|pct|n|ms|n|n|tb|tb|now|]; cbn [runCtrl].
  11: { apply (ConnSafe.hstep_inv (a, c)); [apply ConnSafe.h_keepalive|done]. }
  all: apply (neutral_inv a c); [|done].
  - apply applyBandwidth_neutral. unfold neutral. by fields.
  - apply applyBandwidth_neutral. unfold neutral. by fields.
  - apply applyBandwidth_neutral. unfold neutral. by fields.
  - unfold ConnSend.SetOverhead. destruct (negb _); [done|]. apply applyBandwidth_neutral. unfold neutral. by fields.
  - unfold ConnRecv.SetReorderTolerance. cbv zeta. unfold neutral. destruct (_ && _); by fields.
  - unfold ConnSend.SetSndDropDelay, neutral. destruct (negb _); by fields.
  - unfold ConnSend.OverrideSndSeqNo, neutral. destruct (negb _); [done|]. destruct (SendBuffer.OverrideNextSeq _ _). simpl. by fields.
  - unfold ConnRecv.ResetRecvState, ConnRecv.resetRecvTo, neutral. destruct (ConnState.ready c) eqn:E; fields; by rewrite ?E.
  - unfold ConnRecv.ApplyGroupDrift, neutral. by fields.
  - unfold ConnRecv.ApplyGroupTime, neutral. by fields.
  - done.
Qed.

Lemma shutdown_inv now s : sinv s -> sinv (shutdown capOf now s).
Proof.
  intros H. unfold shutdown. apply (host_same (drain capOf now (s <| core ::= ConnSend.Shutdown now |>))); [done|done|].
  apply drain_inv. unfold sinv. apply (ConnSafe.hstep_inv (armed s, core s)); [apply ConnSafe.h_shutdown|done].
Qed.

Lemma writeHead_inv now req a c : hinv (a, c) -> exists c', writeHead now req c = Some c' /\ hinv (a, c').
Proof.
  intros H. unfold writeHead.
  destruct (pooled req); rewrite (ConnSafe.hinv_write a) by done; eexists; (split; [done|]);
    (apply (ConnSafe.hstep_inv (a, c)); [|done]; eapply ConnSafe.h_write; by apply (ConnSafe.hinv_write a)).
Qed.

Lemma HandlePacket_inv now p a c : hinv (a, c) -> exists c', ConnCore.HandlePacket_checked now p c = Some c' /\ hinv (a, c').
Proof.
  intros H. pose proof (ConnSafe.hinv_packet a c now p H) as E. eexists. split; [exact E|].
  apply (ConnSafe.hstep_inv (a, c)); [|done]. by eapply ConnSafe.h_packet.
Qed.

(** One turn of the loop. *)
Lemma step_total now wall i s : sinv s -> exists s', step capOf now wall i s = Some s' /\ sinv s'.
Proof.
  intros H. unfold step. destruct (loopDone s); [by exists s|]. destruct (dead s); [eexists; split; [done|]; by apply shutdown_inv|].
  destruct (closeFinished wall s); [eexists; split; [done|]; by apply shutdown_inv|].
  destruct i as [w|p| | |ids| |f]; cbn [select].
  - destruct (closing s); eexists; (split; [done|]); [done|]. apply rearm_inv. by apply (host_same s).
  - destruct (HandlePacket_inv now p (armed s) (core s) H) as (c & -> & Hc). eexists. split; [done|]. by apply drain_inv.
  - eexists. split; [done|]. by apply (host_same s).
  - destruct (writeC s) as [|req rest]; [by exists s|].
    destruct (writeHead_inv now req (armed s) (core s) H) as (c & -> & Hc). eexists. split; [done|].
    apply (host_same (drain capOf now (s <| writeC := rest |> <| core := c |>))); [done|done|]. by apply drain_inv.
  - destruct (fireTimers_total now ids s H) as (s' & -> & H'). eexists. split; [done|]. by apply drain_inv.
  - by exists s.
  - eexists. split; [done|]. apply drain_inv. by apply runCtrl_inv.
Qed.

(** ** The queue between the loop and the readers *)

Hypothesis capOf_len : forall l, len l <= capOf l.

Definition limits (q : DeliveryQueue.deliveryQueue) : Z * Z * Z :=
  (DeliveryQueue.capacity q, DeliveryQueue.byteLimit q, DeliveryQueue.readyLimit q).
Definition qinv (s : Session) : Prop :=
  DeliveryQueue.wf (deliveries s) /\
  limits (deliveries s) = (DeliveryQueue.sessionReadQueueSize + DeliveryQueue.sessionDeliveryBacklogSize,
                           DeliveryQueue.sessionDeliveryByteLimit, DeliveryQueue.sessionReadQueueSize).

Lemma qinv_same s s' : deliveries s' = deliveries s -> qinv s -> qinv s'.
Proof. unfold qinv. by intros ->. Qed.

Lemma pop_qinv s : qinv s -> qinv (s <| deliveries ::= fun q => snd (DeliveryQueue.pop q) |>).
Proof.
  intros [W L]. unfold qinv, limits in *. fields. pose proof (DeliveryQueue.pop_spec _ W) as H.
  pose proof (DeliveryQueue.pop_readyLimit (deliveries s)) as R. destruct (DeliveryQueue.pop (deliveries s)) as [r q]. destruct H as (Wq & _ & _ & E1 & E2 & _). cbn [snd] in *. by rewrite E1, E2, R.
Qed.

Lemma runEvent_qinv e s : qinv s -> qinv (runEvent capOf e s).
Proof.
  intros [W L]. destruct e as [id|d|err| |k]; simpl; try done.
  - unfold report. by destruct (connected s).
  - match goal with |- context [DeliveryQueue.push ?d ?l ?q] =>
      pose proof (DeliveryQueue.push_spec d l q W (capOf_len _)) as H; pose proof (DeliveryQueue.push_readyLimit d l q) as R; destruct (DeliveryQueue.push d l q) as [ok q'] end.
    destruct H as (Wq & _ & E1 & E2). unfold qinv, limits in *. cbn [snd] in R. destruct ok; fields; by rewrite E1, E2, R.
  - unfold report. by destruct (connected s).
Qed.

Lemma drainOutputs_deliveries fuel : forall s, deliveries (drainOutputs fuel s) = deliveries s.
Proof.
  induction fuel as [|fuel IH]; intros s; [done|]. cbn [drainOutputs]. destruct (ConnCore.PollOutput (core s)) as [[o|] c]; [|done].
  cbv zeta. rewrite IH. by destruct o.
Qed.

Lemma drainEvents_qinv fuel : forall s, qinv s -> qinv (drainEvents capOf fuel s).
Proof.
  induction fuel as [|fuel IH]; intros s H; [done|]. cbn [drainEvents]. destruct (ConnCore.PollEvent (core s)) as [[e|] c]; [|done].
  apply IH, runEvent_qinv. by apply (qinv_same s).
Qed.

Lemma drain_qinv now s : qinv s -> qinv (drain capOf now s).
Proof.
  intros H. unfold drain, rearm. set (s1 := drainEvents capOf _ _).
  assert (H1 : qinv s1) by (apply drainEvents_qinv; apply (qinv_same s); [apply drainOutputs_deliveries|done]). by destruct (earliest s1).
Qed.

Lemma fireTimers_deliveries now ids : forall s s', fireTimers now ids s = Some s' -> deliveries s' = deliveries s.
Proof.
  induction ids as [|id ids IH]; intros s s' E; [by injection E as <-|]. cbn [fireTimers] in E.
  destruct (timers s !! id); [|by apply IH]. destruct (negb _); [|by apply IH]. destruct (ConnCore.HandleTimer _ _ _); [|done].
  apply IH in E. exact E.
Qed.

Lemma step_qinv now wall i s s' : step capOf now wall i s = Some s' -> qinv s -> qinv s'.
Proof.
  unfold step. intros E H. destruct (loopDone s); [by injection E as <-|].
  assert (Hs : forall s, qinv s -> qinv (shutdown capOf now s)) by (intros s0 H0; by apply (drain_qinv now (s0 <| core ::= ConnSend.Shutdown now |>))).
  destruct (dead s); [injection E as <-; by apply Hs|]. destruct (closeFinished wall s); [injection E as <-; by apply Hs|].
  destruct i as [w|p| | |ids| |f]; cbn [select] in E.
  - destruct (closing s); injection E as <-; [done|]. unfold rearm. by destruct (earliest _).
  - destruct (ConnCore.HandlePacket_checked now p (core s)) as [c|]; [|done]. injection E as <-. by apply drain_qinv.
  - by injection E as <-.
  - destruct (writeC s) as [|req rest]; [by injection E as <-|].
    destruct (writeHead now req (core s)) as [c|]; [|done]. injection E as <-.
    by apply (drain_qinv now (s <| writeC := rest |> <| core := c |>)).
  - destruct (fireTimers now ids s) as [s1|] eqn:Ef; [|done]. injection E as <-. apply drain_qinv.
    apply (qinv_same s); [by apply (fireTimers_deliveries now ids)|done].
  - by injection E as <-.
  - injection E as <-. by apply drain_qinv.
Qed.

Lemma copyOut_kept n s : deliveries (copyOut n s).2 = deliveries s /\ core (copyOut n s).2 = core s /\ timers (copyOut n s).2 = timers s.
Proof. unfold copyOut. cbv zeta. simpl. by destruct (Nat.eqb _ _). Qed.

(** A read leaves the loop's part of the session alone. *)
Lemma read_loop_kept fuel : forall blen x b m out meta s, qinv s ->
  let s' := (read_loop fuel blen x b m out meta s).2 in qinv s' /\ core s' = core s /\ timers s' = timers s.
Proof.
  induction fuel as [|fuel IH]; intros blen x b m out meta s H; [done|].
  assert (Hc : forall s0, pendingReady s0 = true -> qinv s0 -> core s0 = core s -> timers s0 = timers s ->
    let s' := (read_loop (S fuel) blen x b m out meta s0).2 in qinv s' /\ core s' = core s /\ timers s' = timers s).
  { intros s0 Hp H0 E1 E2. rewrite read_loop_ready by done. unfold copyTurn. destruct (m && _); [done|].
    destruct (copyOut_kept (blen - length out) s0) as (K1 & K2 & K3). destruct (copyOut _ s0) as [copied s1]. cbn [snd] in *.
    assert (H1 : qinv s1) by by apply (qinv_same s0). destruct (_ || _); [cbn [snd]; split; [done|split; congruence]|].
    cbv zeta in IH. specialize (IH blen x b m (out ++ copied) (if Nat.eqb (length out) 0 then DeliveryQueue.meta (pending s0) else meta) s1 H1).
    rewrite K2, K3, E1, E2 in IH. exact IH. }
  destruct (pendingReady s) eqn:Hp; [by apply (Hc s)|].
  assert (Ht : forall d, read_loop (S fuel) blen x b m out meta (takePending d s) = copyTurn fuel blen x b m out meta (takePending d s)) by (intros; by apply read_loop_ready).
  assert (Hk : forall d, qinv (takePending d s)) by (intros; by apply (pop_qinv s)).
  cbn [read_loop]. rewrite Hp. destruct (Nat.eqb (length out) 0) eqn:E0.
  - destruct (nextDelivery x s) as [d|r]; [|done]. specialize (Hc (takePending d s) eq_refl (Hk d) eq_refl eq_refl).
    rewrite Ht in Hc. unfold copyTurn in Hc. rewrite E0 in Hc. exact Hc.
  - destruct (fst (DeliveryQueue.pop (deliveries s))) as [d|]; [|done]. specialize (Hc (takePending d s) eq_refl (Hk d) eq_refl eq_refl).
    rewrite Ht in Hc. unfold copyTurn in Hc. rewrite E0 in Hc. exact Hc.
Qed.

Lemma readInto_kept blen x b m s : qinv s ->
  let s' := (readInto blen x b m s).2 in qinv s' /\ core s' = core s /\ timers s' = timers s.
Proof. intros H. unfold readInto. destruct (Nat.eqb _ _); [done|]. destruct (_ && _); [done|]. by apply read_loop_kept. Qed.

(** ** Reachable sessions *)

Inductive reach : Session -> Prop :=
| reach_start addr c0 now : ConnSafe.fresh c0 -> reach (drain capOf now (newSession addr c0))
| reach_step now wall i s s' : reach s -> step capOf now wall i s = Some s' -> reach s'
| reach_read blen x b m s : reach s -> reach (readInto blen x b m s).2
| reach_write p o dl x r s s' : reach s -> WriteMsg p o dl x s r s' -> reach s'
| reach_linger d s : reach s -> reach (SetLinger d s)
| reach_rcvSyn b s : reach s -> reach (SetReadBlocking b s)
| reach_sndSyn b s : reach s -> reach (SetWriteBlocking b s).

Lemma new_qinv addr c : qinv (newSession addr c).
Proof. split; [|done]. apply DeliveryQueue.new_wf; vm_compute; congruence. Qed.

Lemma reach_inv s : reach s -> sinv s /\ qinv s.
Proof.
  induction 1 as [addr c0 now Hf|now wall i s s' _ [IH1 IH2] E|blen x b m s _ [IH1 IH2]|p o dl x r s s' _ [IH1 IH2] Hw|d s _ [IH1 IH2]|b s _ [IH1 IH2]|b s _ [IH1 IH2]].
  - split; [|apply drain_qinv, new_qinv]. apply drain_inv. by apply (ConnSafe.fresh_inv c0).
  - destruct (step_total now wall i s IH1) as (s1 & E1 & H1). rewrite E in E1. injection E1 as <-. split; [done|]. by apply (step_qinv now wall i s).
  - destruct (readInto_kept blen x b m s IH2) as (H1 & H2 & H3). split; [by apply (host_same s)|done].
  - destruct Hw; split; try done; by apply (host_same s).
  - done.
  - done.
  - done.
Qed.

(** C9. The loop of a session never panics on a missing buffer: however its connection
    came to be, and whatever packets, writes, due timers (visited in any order), control
    calls, reads and settings came before, the next turn of the loop produces a state,
    where a packet, a write or a timer that reached a nil buffer of the core
    would produce none; and its delivery queue never exceeds its two bounds, 98304
    entries and 2^27 bytes.  (The control calls test for nil themselves.) *)
Theorem session_safe (s : Session) (now wall : Z) (i : input) :
  reach s ->
  (exists s', step capOf now wall i s = Some s') /\
  Z.of_nat (DeliveryQueue.size (deliveries s)) <= 98304 /\ 0 <= DeliveryQueue.bytes (deliveries s) <= 2 ^ 27 /\
  len (queued s) <= DeliveryQueue.bytes (deliveries s).
Proof.
  intros H. destruct (reach_inv s H) as [H1 [W L]]. destruct (step_total now wall i s H1) as (s' & E & _).
  split; [by exists s'|]. injection L as L1 L2 _. pose proof (DeliveryQueue.wf_size _ W). pose proof (DeliveryQueue.wf_cap _ W) as Hc.
  pose proof (DeliveryQueue.wf_limit _ W) as Hl. rewrite L1 in Hc. rewrite L2 in Hl.
  change (DeliveryQueue.sessionReadQueueSize + DeliveryQueue.sessionDeliveryBacklogSize) with 98304 in Hc.
  change DeliveryQueue.sessionDeliveryByteLimit with (2 ^ 27) in Hl. split; [lia|]. split; [lia|].
  rewrite (DeliveryQueue.wf_bytes _ W). apply DeliveryQueue.total_bytes, (DeliveryQueue.wf_caps _ W).
Qed.

End Safe.
(** ** Closing *)

#[local] Existing Instances Crypto.toy Float64.toyMath ConnRecv.toyRange.

Definition toyCap (l : list Z) : Z := len l.
Definition turn (now : Z) (i : input) (s : Session) : Session := default s (step toyCap now now i s).

(** A live connection limited to 1000 bytes per second. *)
Definition toyPaced : Conn :=
  Establish.establish 1000 (EP.zero <| EP.FlowWindow := 4 |> <| EP.BufferCapacity := 4 |> <| EP.MaxBW := 1000 |>
    <| EP.SendISN := 5 |> <| EP.Live := true |>) (ConnState.zeroConn (fun _ => None)).
Definition toyStart : Session := drain toyCap 1000 (newSession None toyPaced).

Lemma toyStart_reach : reach toyCap toyStart.
Proof. apply reach_start, ConnSafe.fresh_established. Qed.

Lemma session_safe_witness : exists s', step toyCap 11000 0 (InTimer [Output.TimerACK; Output.TimerNAK]) toyStart = Some s'.
Proof. apply (session_safe toyCap (fun l => Z.le_refl (len l)) toyStart 11000 0 (InTimer [Output.TimerACK; Output.TimerNAK]) toyStart_reach). Defined.

(** Two messages are queued; the first is sent and acknowledged while the second
    waits for its pacing slot; then the session is closed. *)
Definition toyAck : Packet.Packet :=
  Packet.SetData (Packet.NewControl None Packet.CtrlTypeACK 0 0) (Control.MarshalSmallCIF (Control.mkACK 6 1000 100 4 0 0 0)).
Definition toyReq (d : Z) : writeReq := request [d] (ConnSend.mkOpts 0 true 0 0 false).
Definition toyClosing : Session :=
  turn 4000 (InQuit 4000) (turn 3000 (InPacket toyAck) (turn 2000 InWrite (turn 2000 InWrite
    (toyStart <| writeC := [toyReq 1; toyReq 2] |> <| linger := 10000000 |>)))).

(** [Close] with a linger waits for the send buffer only: a message that still
    waits for its pacing slot is given up at once, long before the linger is over. *)
Theorem session_close_drops_paced :
  closing toyClosing = true /\ closeDeadline toyClosing = 10004000 /\
  len (ConnSend.frames (core toyClosing)) = 1 /\ closeFinished 5000 toyClosing = true /\
  map Packet.Data (List.filter (fun p => negb (Packet.IsControl (Packet.Hdr p))) (wire (turn 5000 InStats toyClosing))) = [[1]] /\
  loopDone (turn 5000 InStats toyClosing) = true.
Proof. vm_compute. repeat split. Qed.

(** After the loop has ended a write can still be accepted: the select finds room
    in the channel and the closed loop both ready.  Nobody takes it out. *)
Theorem session_write_after_close {P : Crypto.Primitives} {M : Float64.GoMath} {O : ConnRecv.RangeOrder} (capOf : list Z -> Z)
    (p : list Z) (o : ConnSend.MsgOptions) (deadline : bool) (s : Session) :
  loopDone s = true -> (length (writeC s) < writeCap)%nat ->
  exists s', WriteMsg p o deadline false s WOk s' /\ writeC s' = writeC s ++ [request p o] /\
    forall now wall i, step capOf now wall i s' = Some s'.
Proof.
  intros H Hl. eexists. split; [by apply write_queued|]. split; [by fields|]. intros now wall i. unfold step. fields. by rewrite H.
Qed.

End SessionSafe.
