(* ===== verification/SessionDrain.v ===== *)
(** * What draining does ([internal/session/session.go], [drain])

    After every turn of the loop the outputs and events the core has queued have
    been carried out, all of them, once and in order, and the OS timer stands at
    the earliest deadline. *)
From Stdlib Require Import ZArith Lia.
From stdpp Require Import base numbers list option gmap.
From S2P Require Import Prelude Packet Clock Ring SendBuffer Fifo Output Crypto Float64 ConnState ConnSend Establish ConnCore DeliveryQueue Session.
Import Output(TimerID, SendPacket, SetTimer, ClearTimer).
Import ConnState(Conn).
Import Session.
Local Open Scope Z_scope.

Module SessionDrain.

Definition runOutputs (os : list Output.Output) (s : Session) : Session := fold_left (fun s o => runOutput o s) os s.

Lemma runOutput_core c o s : runOutput o (s <| core := c |>) = (runOutput o s) <| core := c |>.
Proof. by destruct o. Qed.

Lemma runOutputs_core c os : forall s, runOutputs os (s <| core := c |>) = (runOutputs os s) <| core := c |>.
Proof. induction os as [|o os IH]; intros s; [done|]. simpl. rewrite runOutput_core. apply IH. Qed.

Lemma drainOutputs_all n : forall s, outputsLeft s = n ->
  drainOutputs (S n) s =
    (runOutputs (ConnState.sent (core s)) s) <| core := (core s) <| ConnState.outputs := Fifo.empty |> |>.
Proof.
  induction n as [|n IH]; intros s Hn; unfold outputsLeft in Hn; unfold ConnState.sent.
  - apply nil_length_inv in Hn. rewrite Hn. cbn [drainOutputs]. unfold ConnCore.PollOutput.
    pose proof (Fifo.pop_next (ClearTimer Output.TimerHandshake) (ConnState.outputs (core s))) as H.
    destruct (Fifo.pop _ _) as [[v ok] q]. rewrite Hn in H. by destruct H as [-> ->].
  - destruct (Fifo.contents (ConnState.outputs (core s))) as [|o os] eqn:E; [done|]. injection Hn as Hn.
    remember (S n) as m eqn:Em. cbn [drainOutputs]. subst m. unfold ConnCore.PollOutput.
    pose proof (Fifo.pop_next (ClearTimer Output.TimerHandshake) (ConnState.outputs (core s))) as H.
    destruct (Fifo.pop _ _) as [[v ok] q]. rewrite E in H. destruct H as (-> & -> & Eq). cbv zeta.
    rewrite runOutput_core, IH; [|unfold outputsLeft; fields; by rewrite Eq].
    unfold ConnState.sent. fields. rewrite Eq, runOutputs_core. done.
Qed.

Section Events.
Context (capOf : list Z -> Z).

Definition runEvents (es : list Output.Event) (s : Session) : Session := fold_left (fun s e => runEvent capOf e s) es s.

Lemma runEvent_with c e s : ConnState.tsbpdTimer c = ConnState.tsbpdTimer (core s) ->
  runEvent capOf e (s <| core := c |>) = (runEvent capOf e s) <| core := c |>.
Proof.
  intros H. destruct e as [id|d|err| |k]; simpl; try done.
  - unfold report. fields. by destruct (connected s).
  - fields. unfold ConnCore.Live. rewrite H. by destruct (DeliveryQueue.push _ _ _) as [[] q].
  - unfold report. fields. by destruct (connected s).
Qed.

Lemma runEvent_core e s : core (runEvent capOf e s) = core s.
Proof.
  destruct e as [id|d|err| |k]; simpl; try done; [unfold report; by destruct (connected s)| |unfold report; by destruct (connected s)].
  by destruct (DeliveryQueue.push _ _ _) as [[] q].
Qed.

Lemma runEvents_with c es : forall s, ConnState.tsbpdTimer c = ConnState.tsbpdTimer (core s) ->
  runEvents es (s <| core := c |>) = (runEvents es s) <| core := c |>.
Proof.
  induction es as [|e es IH]; intros s H; [done|]. simpl. rewrite runEvent_with by done. apply IH. by rewrite runEvent_core.
Qed.

Lemma drainEvents_all n : forall s, eventsLeft s = n ->
  drainEvents capOf (S n) s =
    (runEvents (Fifo.contents (ConnState.events (core s))) s) <| core := (core s) <| ConnState.events := Fifo.empty |> |>.
Proof.
  induction n as [|n IH]; intros s Hn; unfold eventsLeft in Hn.
  - apply nil_length_inv in Hn. rewrite Hn. cbn [drainEvents]. unfold ConnCore.PollEvent.
    pose proof (Fifo.pop_next Output.Closed (ConnState.events (core s))) as H.
    destruct (Fifo.pop _ _) as [[v ok] q]. rewrite Hn in H. by destruct H as [-> ->].
  - destruct (Fifo.contents (ConnState.events (core s))) as [|e es] eqn:E; [done|]. injection Hn as Hn.
    remember (S n) as m eqn:Em. cbn [drainEvents]. subst m. unfold ConnCore.PollEvent.
    pose proof (Fifo.pop_next Output.Closed (ConnState.events (core s))) as H.
    destruct (Fifo.pop _ _) as [[v ok] q]. rewrite E in H. destruct H as (-> & -> & Eq). cbv zeta.
    rewrite runEvent_with by by fields. rewrite IH; [|unfold eventsLeft; fields; by rewrite Eq].
    fields. rewrite Eq, runEvents_with; [done|]. rewrite runEvent_core. by fields.
Qed.

End Events.

(** ** What is seen of it *)

Definition onWire (addr : option Packet.NetAddr) (o : Output.Output) : option Packet.Packet :=
  match o with SendPacket p _ => Some (p <| Packet.Hdr ::= fun h => h <| Packet.Addr := addr |> |>) | _ => None end.
Definition timerOp (m : gmap TimerID Z) (o : Output.Output) : gmap TimerID Z :=
  match o with SetTimer id d => <[id := d]> m | ClearTimer id => delete id m | SendPacket _ _ => m end.

(** What neither the outputs nor the events of the core change. *)
Definition keeps (s s' : Session) : Prop :=
  writeC s' = writeC s /\ writable s' = writable s /\ loopDone s' = loopDone s /\ closing s' = closing s /\
  closeDeadline s' = closeDeadline s /\ linger s' = linger s /\ remoteAddr s' = remoteAddr s /\
  pending s' = pending s /\ pendingOffset s' = pendingOffset s /\ pendingReady s' = pendingReady s.

Lemma keeps_trans s1 s2 s3 : keeps s1 s2 -> keeps s2 s3 -> keeps s1 s3.
Proof. unfold keeps. intuition congruence. Qed.

Lemma runOutputs_wire os : forall s,
  wire (runOutputs os s) = wire s ++ omap (onWire (remoteAddr s)) os /\
  timers (runOutputs os s) = fold_left timerOp os (timers s) /\
  deliveries (runOutputs os s) = deliveries s /\ connected (runOutputs os s) = connected s /\
  dead (runOutputs os s) = dead s /\ readable (runOutputs os s) = readable s /\ keeps s (runOutputs os s).
Proof.
  induction os as [|o os IH]; intros s; [by rewrite app_nil_r|]. simpl.
  destruct (IH (runOutput o s)) as (-> & -> & -> & -> & -> & -> & K).
  destruct o; simpl; (split; [|split; [done|split_and!; try done; by apply (keeps_trans _ _ _)]]); by rewrite <- ?app_assoc.
Qed.

Section Deliveries.
Context (capOf : list Z -> Z).

(** The deliveries of a list of events, pushed one by one. *)
Definition deliveryOf (e : Output.DataReceived) : DeliveryQueue.delivery :=
  DeliveryQueue.mkDelivery (Output.d_Data e) (capOf (Output.d_Data e))
    (DeliveryQueue.mkMeta (Output.d_Boundary e) (Output.d_MsgNo e) (Output.d_Seq e)).

(** Pushing the deliveries of the events one by one: whether all of them fitted, and the
    queue they leave. *)
Fixpoint pushAll (live : bool) (q : DeliveryQueue.deliveryQueue) (es : list Output.Event) : bool * DeliveryQueue.deliveryQueue :=
  match es with
  | [] => (true, q)
  | Output.EData d :: es =>
      let '(ok, q) := DeliveryQueue.push (deliveryOf d) live q in let '(oks, q) := pushAll live q es in (ok && oks, q)
  | _ :: es => pushAll live q es
  end.

(** The outcome an event reports, and the events that end the session. *)
Definition outcomeOf (e : Output.Event) : option (option Output.ConnError) :=
  match e with Output.Connected _ => Some None | Output.Failed err => Some (Some err) | _ => None end.
Definition ends (e : Output.Event) : bool := match e with Output.Failed _ | Output.Closed => true | _ => false end.
Definition isData (e : Output.Event) : bool := match e with Output.EData _ => true | _ => false end.

(** The channel [connected] holds one value: the first one reported stays. *)
Definition firstReport (v : option (option Output.ConnError)) (es : list Output.Event) : option (option Output.ConnError) :=
  match v with Some _ => v | None => head (omap outcomeOf es) end.

Lemma runEvents_seen es : forall s,
  let s' := runEvents capOf es s in
  let '(ok, q) := pushAll (ConnCore.Live (core s)) (deliveries s) es in
  wire s' = wire s /\ timers s' = timers s /\ deliveries s' = q /\
  connected s' = firstReport (connected s) es /\ dead s' = dead s || existsb ends es || negb ok /\
  readable s' = readable s || existsb isData es /\ keeps s s'.
Proof.
  induction es as [|e es IH]; intros s; cbv zeta.
  - simpl. rewrite !orb_false_r. unfold firstReport. by destruct (connected s).
  - specialize (IH (runEvent capOf e s)). cbv zeta in IH. rewrite runEvent_core in IH. cbn [runEvents fold_left] in *.
    change (fold_left (fun s e => runEvent capOf e s) es (runEvent capOf e s)) with (runEvents capOf es (runEvent capOf e s)).
    set (s2 := runEvents capOf es (runEvent capOf e s)) in *. clearbody s2.
    destruct e as [id|d|err| |k]; cbn [pushAll existsb ends isData]; cbn [runEvent] in IH.
    + unfold report, firstReport in *. cbn [omap list_omap outcomeOf head]. destruct (connected s) eqn:Ec.
      * rewrite Ec in IH. destruct (pushAll _ _ es) as [ok q]. exact IH.
      * fields_in IH. destruct (pushAll _ _ es) as [ok q]. exact IH.
    + change (DeliveryQueue.mkDelivery _ _ _) with (deliveryOf d) in IH.
      destruct (DeliveryQueue.push (deliveryOf d) (ConnCore.Live (core s)) (deliveries s)) as [okd qd].
      assert (Hq : deliveries ((if okd then s <| deliveries := qd |> else s <| deliveries := qd |> <| dead := true |>) <| readable := true |>) = qd)
        by by destruct okd.
      rewrite Hq in IH. destruct (pushAll _ qd es) as [oks q]. destruct IH as (W & T & D & C & X & R & K). rewrite X, R.
      destruct okd; cbn [andb negb]; fields; rewrite ?orb_true_r; split_and!; try done;
        try (rewrite C; unfold firstReport; done); try (by destruct K as (? & ? & ? & ? & ? & ? & ? & ? & ? & ?)).
    + unfold report, firstReport in *. cbn [omap list_omap outcomeOf head].
      destruct (connected s) eqn:Ec; fields_in IH; rewrite ?Ec in IH; destruct (pushAll _ _ es) as [ok q];
        destruct IH as (W & T & D & C & X & R & K); rewrite X, R; fields; rewrite ?orb_true_r; split_and!; try done;
        try (by destruct K as (? & ? & ? & ? & ? & ? & ? & ? & ? & ?)).
    + destruct (pushAll _ _ es) as [ok q]. destruct IH as (W & T & D & C & X & R & K). rewrite X, R. fields. rewrite ?orb_true_r.
      split_and!; try done; try (by destruct K as (? & ? & ? & ? & ? & ? & ? & ? & ? & ?)).
    + destruct (pushAll _ _ es) as [ok q]. exact IH.
Qed.

(** The earliest of the deadlines. *)
Lemma sooner_min l :
  match fold_right sooner None l with
  | None => l = []
  | Some e => e ∈ l /\ forall d, d ∈ l -> e <= d
  end.
Proof.
  induction l as [|x l IH]; [done|]. simpl. unfold sooner at 1. destruct (fold_right sooner None l) as [b|].
  - destruct IH as [H1 H2]. unfold Clock.Before. destruct (Z.ltb_spec x b); (split; [set_solver|]);
      intros d [->|Hd]%elem_of_cons; try lia; specialize (H2 d Hd); lia.
  - subst l. split; [by left|]. intros d [->|Hd]%elem_of_cons; [lia|by apply not_elem_of_nil in Hd].
Qed.

Lemma deadline_elem s d : d ∈ map snd (map_to_list (timers s)) <-> exists id, timers s !! id = Some d.
Proof.
  rewrite list_elem_of_In, in_map_iff. split.
  - intros ([id d'] & <- & H). exists id. by apply elem_of_map_to_list, list_elem_of_In.
  - intros [id H]. exists (id, d). split; [done|]. by apply list_elem_of_In, elem_of_map_to_list.
Qed.

(** The wake-up is never later than a deadline, and never without one. *)
Lemma rearm_wake now s : (forall id d, timers s !! id = Some d -> is_i64 (d - now)) ->
  let s' := rearm now s in
  timers s' = timers s /\
  (forall id d, timers s !! id = Some d -> exists w, wake s' = Some w /\ w <= Z.max now d) /\
  (forall w, wake s' = Some w -> exists id d, timers s !! id = Some d /\ w = Z.max now d).
Proof.
  intros Hr. unfold rearm, earliest. pose proof (sooner_min (map snd (map_to_list (timers s)))) as H.
  destruct (fold_right sooner None _) as [e|]; cbv zeta; fields.
  - destruct H as [[id He]%deadline_elem Hm]. unfold Clock.Sub. rewrite i64_id by by apply (Hr id).
    assert (Ew : now + (if e - now <? 0 then 0 else e - now) = Z.max now e) by (destruct (Z.ltb_spec (e - now) 0); lia). rewrite Ew.
    split; [done|]. split.
    + intros id' d Hd. exists (Z.max now e). split; [done|]. assert (e <= d) by (apply Hm, deadline_elem; by exists id'). lia.
    + intros w [= <-]. by exists id, e.
  - split; [done|]. split; [|done]. intros id d Hd. assert (Hin : d ∈ map snd (map_to_list (timers s))) by (apply deadline_elem; by exists id).
    rewrite H in Hin. by apply not_elem_of_nil in Hin.
Qed.

(** The core keeps everything but its two queues. *)
Lemma drain_core now s : core (drain capOf now s) = (core s) <| ConnState.outputs := Fifo.empty |> <| ConnState.events := Fifo.empty |>.
Proof.
  unfold drain. rewrite (drainOutputs_all _ s eq_refl). set (s1 := (runOutputs _ s) <| core := _ |>).
  rewrite (drainEvents_all capOf _ s1 eq_refl). unfold rearm. by destruct (earliest _).
Qed.

(** C18. [drain] carries out everything the core has queued, once and in order.  Of the
    outputs: the packets go on the wire in order, addressed to the peer, and the timers
    are set and cleared in order.  Of the events: the data is pushed on the delivery
    queue in order; the channel [connected] keeps the outcome it holds, or else takes the first one
    reported (success for [Connected], the error for [Failed]); the session is marked dead
    exactly when it was, or a [Failed] or [Closed] event was queued, or a delivery did not
    fit the queue; readers are woken exactly when there was data.  Nothing else of the
    session changes but the wake-up, the core keeps everything but its two queues, which
    are empty, and the OS timer stands at the earliest deadline (for deadlines within
    2^63 us of now), or at once when that is past. *)
Theorem session_drain_exact (now : Z) (s : Session) :
  let s' := drain capOf now s in
  let os := ConnState.sent (core s) in
  let es := Fifo.contents (ConnState.events (core s)) in
  let '(ok, q) := pushAll (ConnCore.Live (core s)) (deliveries s) es in
  wire s' = wire s ++ omap (onWire (remoteAddr s)) os /\
  timers s' = fold_left timerOp os (timers s) /\
  deliveries s' = q /\ connected s' = firstReport (connected s) es /\
  dead s' = dead s || existsb ends es || negb ok /\ readable s' = readable s || existsb isData es /\ keeps s s' /\
  core s' = (core s) <| ConnState.outputs := Fifo.empty |> <| ConnState.events := Fifo.empty |> /\
  ((forall id d, timers s' !! id = Some d -> is_i64 (d - now)) ->
   (forall id d, timers s' !! id = Some d -> exists w, wake s' = Some w /\ w <= Z.max now d) /\
   (forall w, wake s' = Some w -> exists id d, timers s' !! id = Some d /\ w = Z.max now d)).
Proof.
  cbv zeta. pose proof (drain_core now s) as Hcore. revert Hcore.
  unfold drain. rewrite (drainOutputs_all _ s eq_refl). set (c1 := (core s) <| ConnState.outputs := Fifo.empty |>).
  set (s1 := (runOutputs _ s) <| core := c1 |>). rewrite (drainEvents_all capOf _ s1 eq_refl).
  set (c2 := (core s1) <| ConnState.events := Fifo.empty |>). set (s2 := (runEvents _ _ s1) <| core := c2 |>). intros Hcore.
  destruct (runOutputs_wire (ConnState.sent (core s)) s) as (W1 & T1 & D1 & C1 & X1 & R1 & K1).
  pose proof (runEvents_seen (Fifo.contents (ConnState.events (core s1))) s1) as H2. cbv zeta in H2.
  change (ConnCore.Live (core s1)) with (ConnCore.Live (core s)) in H2.
  change (deliveries s1) with (deliveries (runOutputs (ConnState.sent (core s)) s)) in H2. rewrite D1 in H2.
  change (ConnState.events (core s1)) with (ConnState.events (core s)) in H2.
  destruct (pushAll _ _ _) as [ok q]. destruct H2 as (W2 & T2 & D2 & C2 & X2 & R2 & K2).
  assert (Hk : keeps s2 (rearm now s2) /\ wire (rearm now s2) = wire s2 /\ timers (rearm now s2) = timers s2 /\
    deliveries (rearm now s2) = deliveries s2 /\ connected (rearm now s2) = connected s2 /\ dead (rearm now s2) = dead s2 /\
    readable (rearm now s2) = readable s2) by (unfold rearm; by destruct (earliest s2)).
  destruct Hk as (K3 & -> & -> & -> & -> & -> & ->).
  split; [exact (eq_trans W2 W1)|]. split; [exact (eq_trans T2 T1)|]. split; [exact D2|].
  split; [rewrite <- C1; exact C2|]. split; [rewrite <- X1; exact X2|]. split; [rewrite <- R1; exact R2|].
  split; [apply (keeps_trans s s1); [exact K1|]; by apply (keeps_trans s1 s2)|]. split; [exact Hcore|].
  intros Hr. destruct (rearm_wake now s2 Hr) as (_ & H1 & H2). done.
Qed.

End Deliveries.

(** ** A concrete drain *)

#[local] Existing Instances Crypto.toy Float64.toyMath.

(** A new connection with its first timers queued, that reports success, delivers two
    bytes and is closed by its peer. *)
Definition toyQueued : Conn :=
  ConnState.event Output.Closed (ConnState.event (Output.EData (Output.mkData [7; 8] 5 1 0)) (ConnState.event (Output.Connected 3)
    (Establish.establish 1000 (EP.zero <| EP.FlowWindow := 4 |> <| EP.BufferCapacity := 4 |>) (ConnState.zeroConn (fun _ => None))))).

Lemma session_drain_exact_witness :
  let s := newSession None toyQueued in
  let s' := drain len 1000 s in
  connected s' = Some None /\ dead s' = true /\ readable s' = true /\ DeliveryQueue.size (deliveries s') = 1%nat /\
  timers s' !! Output.TimerACK = Some 11000 /\ exists w, wake s' = Some w /\ w <= 11000.
Proof.
  pose proof (session_drain_exact len 1000 (newSession None toyQueued)) as H. cbv zeta in *.
  destruct (pushAll len _ _ _) as [ok q] eqn:Eq. destruct H as (_ & T & D & C & X & R & _ & _ & W).
  assert (E : timers (drain len 1000 (newSession None toyQueued)) !! Output.TimerACK = Some 11000) by (rewrite T; vm_compute; reflexivity).
  split; [rewrite C; vm_compute; reflexivity|]. split; [rewrite X; vm_compute; reflexivity|].
  split; [rewrite R; vm_compute; reflexivity|]. split; [rewrite D; vm_compute in Eq; injection Eq as _ <-; reflexivity|].
  split; [exact E|]. destruct W as [W _]; [|apply (W _ _ E)].
  intros id d Hd. rewrite T in Hd. clear -Hd. destruct id; vm_compute in Hd; try discriminate Hd; injection Hd as <-; unfold is_i64; lia.
Defined.

End SessionDrain.
