(* ===== verification/CoreStats.v ===== *)
(** * Snapshots of the counters ([internal/core/conn.go], [internal/session/delivery.go])

    The record [core.Stats], its snapshot of a connection, what the delivery queue
    adds to it and how the session answers a request. *)
From Stdlib Require Import ZArith Lia.
From stdpp Require Import base numbers list option gmap.
From S2P Require Import Prelude Seq Clock Tsbpd SendBuffer RecvBuffer Crypto Float64 Congestion ConnState ConnSend ConnRecv Sender DeliveryQueue Session SessionSafe.
Local Open Scope Z_scope.

Module CoreStats.
Import ConnState(Conn).
Import Session.Session(Session).

Record Stats : Type := mkStats {
  RecvDroppedBytes : Z;
  AppReadDropped : Z;
  AppReadDropBytes : Z;
  AppReadQueue : Z;
  AppReadBacklog : Z;
  MaxBW : Z;
  SentPackets : Z;
  SentBytes : Z;
  SentUniquePackets : Z;
  SentUniqueBytes : Z;
  RetransPackets : Z;
  RetransBytes : Z;
  RecvPackets : Z;
  RecvBytes : Z;
  RecvUniquePackets : Z;
  RecvUniqueBytes : Z;
  RecvRetrans : Z;
  RecvRetransBytes : Z;
  RecvLoss : Z;
  LostPackets : Z;
  RecvDropped : Z;
  RecvUndecrypt : Z;
  SentDropped : Z;
  SentDroppedBytes : Z;
  SentACKs : Z;
  SentNAKs : Z;
  SentACKACKs : Z;
  RecvACKs : Z;
  RecvNAKs : Z;
  RecvACKACKs : Z;
  SentFEC : Z;
  RecvFECRecov : Z;
  SentKM : Z;
  RecvKM : Z;
  SndKmState : Z;
  RcvKmState : Z;
  RTTMicros : Z;
  RTTVarMicros : Z;
  FlightSize : Z;
  FlowWindow : Z;
  CongestionWindow : Z;
  SendBufPackets : Z;
  SendBufAvailable : Z;
  RecvBufPackets : Z;
  RecvBufAvailable : Z;
  PacketRecvRate : Z;
  EstimatedBandwidth : Z;
  PktSndPeriodMicros : Z;
  PayloadSize : Z;
  NegotiatedMSS : Z;
  PeerLatency : Z;
  NegotiatedLatency : Z;
  DriftMicros : Z;
  PeerNakReport : bool;
  RecvBelated : Z;
  RecvBelatedBytes : Z;
  AvgBelatedMicros : Z;
  ReorderDistance : Z;
  PeerVersion : Z;
  SendISN : Z;
  RecvISN : Z;
  MsSndBuf : Z;
  MsRcvBuf : Z
}.

#[global] Instance eta_stats : Eta Stats := fun s =>
  mkStats (RecvDroppedBytes s) (AppReadDropped s) (AppReadDropBytes s) (AppReadQueue s) (AppReadBacklog s) (MaxBW s)
    (SentPackets s) (SentBytes s) (SentUniquePackets s) (SentUniqueBytes s) (RetransPackets s) (RetransBytes s)
    (RecvPackets s) (RecvBytes s) (RecvUniquePackets s) (RecvUniqueBytes s) (RecvRetrans s) (RecvRetransBytes s)
    (RecvLoss s) (LostPackets s) (RecvDropped s) (RecvUndecrypt s) (SentDropped s) (SentDroppedBytes s) (SentACKs s)
    (SentNAKs s) (SentACKACKs s) (RecvACKs s) (RecvNAKs s) (RecvACKACKs s) (SentFEC s) (RecvFECRecov s) (SentKM s)
    (RecvKM s) (SndKmState s) (RcvKmState s) (RTTMicros s) (RTTVarMicros s) (FlightSize s) (FlowWindow s)
    (CongestionWindow s) (SendBufPackets s) (SendBufAvailable s) (RecvBufPackets s) (RecvBufAvailable s)
    (PacketRecvRate s) (EstimatedBandwidth s) (PktSndPeriodMicros s) (PayloadSize s) (NegotiatedMSS s) (PeerLatency s)
    (NegotiatedLatency s) (DriftMicros s) (PeerNakReport s) (RecvBelated s) (RecvBelatedBytes s) (AvgBelatedMicros s)
    (ReorderDistance s) (PeerVersion s) (SendISN s) (RecvISN s) (MsSndBuf s) (MsRcvBuf s).
#[global] Instance fld_stats_RecvDropped : Field RecvDropped. Proof. derive_field. Defined.
#[global] Instance fld_stats_RecvDroppedBytes : Field RecvDroppedBytes. Proof. derive_field. Defined.
#[global] Instance fld_stats_AppReadDropped : Field AppReadDropped. Proof. derive_field. Defined.
#[global] Instance fld_stats_AppReadDropBytes : Field AppReadDropBytes. Proof. derive_field. Defined.
#[global] Instance fld_stats_AppReadQueue : Field AppReadQueue. Proof. derive_field. Defined.
#[global] Instance fld_stats_AppReadBacklog : Field AppReadBacklog. Proof. derive_field. Defined.

(** The age of the oldest unacknowledged packet. *)
Definition sndSpan (c : Conn) : Z :=
  let oldest := SendBuffer.OldestSentAt (ConnState.sendBuf c) in
  if negb (oldest =? 0) && (ConnState.lastNow c >? oldest) then Clock.Sub (ConnState.lastNow c) oldest else 0.

(** [Conn.Stats]: the buffers and the controller are there once the connection is
    established. *)
Definition snapshot (c : Conn) : Stats := {|
  RecvDroppedBytes := u64 (ConnState.recvDropped c * u64 (ConnState.payloadSize c));
  AppReadDropped := 0;
  AppReadDropBytes := 0;
  AppReadQueue := 0;
  AppReadBacklog := 0;
  MaxBW := if ConnState.ready c then Congestion.MaxBandwidth (ConnState.sendCC c) else 0;
  SentPackets := u64 (ConnState.sentPackets c + ConnState.retransPackets c);
  SentBytes := u64 (ConnState.sentBytes c + ConnState.retransBytes c);
  SentUniquePackets := ConnState.sentPackets c;
  SentUniqueBytes := ConnState.sentBytes c;
  RetransPackets := ConnState.retransPackets c;
  RetransBytes := ConnState.retransBytes c;
  RecvPackets := ConnState.recvWirePackets c;
  RecvBytes := ConnState.recvWireBytes c;
  RecvUniquePackets := ConnState.recvPackets c;
  RecvUniqueBytes := ConnState.recvBytes c;
  RecvRetrans := ConnState.recvRetrans c;
  RecvRetransBytes := ConnState.recvRetransBytes c;
  RecvLoss := ConnState.recvLoss c;
  LostPackets := ConnState.lostPackets c;
  RecvDropped := ConnState.recvDropped c;
  RecvUndecrypt := ConnState.recvUndecrypt c;
  SentDropped := ConnState.sentDropped c;
  SentDroppedBytes := ConnState.sentDroppedBytes c;
  SentACKs := ConnState.sentACKs c;
  SentNAKs := ConnState.sentNAKs c;
  SentACKACKs := ConnState.sentACKACKs c;
  RecvACKs := ConnState.recvACKs c;
  RecvNAKs := ConnState.recvNAKs c;
  RecvACKACKs := ConnState.recvACKACKs c;
  SentFEC := ConnState.sentFEC c;
  RecvFECRecov := ConnState.recvFECRecov c;
  SentKM := ConnState.sentKM c;
  RecvKM := ConnState.recvKM c;
  SndKmState := ConnState.sndKmState c;
  RcvKmState := ConnState.rcvKmState c;
  RTTMicros := ConnState.rtt c;
  RTTVarMicros := ConnState.rttVar c;
  FlightSize := if ConnState.ready c then SendBuffer.Size (ConnState.sendBuf c) else 0;
  FlowWindow := ConnState.flowWindow c;
  CongestionWindow := if ConnState.ready c then ConnSend.window c else 0;
  SendBufPackets := if ConnState.ready c then SendBuffer.Size (ConnState.sendBuf c) else 0;
  SendBufAvailable := if ConnState.ready c then SendBuffer.Available (ConnState.sendBuf c) else 0;
  RecvBufPackets := if ConnState.ready c then RecvBuffer.Size (ConnState.recvBuf c) else 0;
  RecvBufAvailable := if ConnState.ready c then RecvBuffer.AvailableSize (ConnState.recvBuf c) (RecvBuffer.ACKSequence (ConnState.recvBuf c)) else 0;
  PacketRecvRate := if ConnState.ready c then fst (Congestion.DeliveryRate (ConnState.sendCC c)) else 0;
  EstimatedBandwidth := if ConnState.ready c then Congestion.EstimatedBandwidth (ConnState.sendCC c) else 0;
  PktSndPeriodMicros := if ConnState.ready c then Congestion.PacketInterval (ConnState.sendCC c) else 0;
  PayloadSize := ConnState.payloadSize c;
  NegotiatedMSS := ConnState.negotiatedMSS c;
  PeerLatency := ConnState.negotiatedPeerLatency c;
  NegotiatedLatency := ConnState.negotiatedLatency c;
  DriftMicros := match ConnState.tsbpdTimer c with Some t => Tsbpd.DriftOffset t | None => 0 end;
  PeerNakReport := ConnState.peerNakReport c;
  RecvBelated := ConnState.recvBelated c;
  RecvBelatedBytes := ConnState.recvBelatedBytes c;
  AvgBelatedMicros := Float64.toInt (ConnState.recvAvgBelatedUS c);
  ReorderDistance := ConnState.recvReorderDist c;
  PeerVersion := ConnState.peerVersion c;
  SendISN := ConnState.sndISN c;
  RecvISN := ConnState.rcvISN c;
  MsSndBuf := if ConnState.ready c then sndSpan c else 0;
  MsRcvBuf := if ConnState.ready c then RecvBuffer.BufferedTimeSpan (ConnState.recvBuf c) else 0
|}.

(** What the delivery queue adds. *)
Definition queueStats (q : DeliveryQueue.deliveryQueue) (st : Stats) : Stats :=
  st <| RecvDropped ::= fun n => u64 (n + DeliveryQueue.dropped q) |>
     <| RecvDroppedBytes ::= fun n => u64 (n + DeliveryQueue.dropBytes q) |>
     <| AppReadDropped := DeliveryQueue.dropped q |>
     <| AppReadDropBytes := DeliveryQueue.dropBytes q |>
     <| AppReadQueue := Z.min (Z.of_nat (DeliveryQueue.size q)) (DeliveryQueue.readyLimit q) |>
     <| AppReadBacklog := Z.max 0 (Z.of_nat (DeliveryQueue.size q) - DeliveryQueue.readyLimit q) |>.

(** [Session.Stats]: the snapshot, and whether the loop answered.  The loop takes
    [finalStats] when it exits and never touches the core again. *)
Definition sessionStats (s : Session) : Stats * bool :=
  (queueStats (Session.deliveries s) (snapshot (Session.core s)), negb (Session.loopDone s)).

(** ** Properties *)

Section Levels.
Context {P : Crypto.Primitives} {M : Float64.GoMath} {O : ConnRecv.RangeOrder} (capOf : list Z -> Z).
Hypothesis capOf_len : forall l, len l <= capOf l.

(** The two depths a snapshot reports are the two tiers of the queue: they add up to
    the messages that wait, and stay within the documented limits. *)
Theorem stats_queue_depths (s : Session) :
  SessionSafe.reach capOf s ->
  let st := fst (sessionStats s) in
  AppReadQueue st + AppReadBacklog st = len (DeliveryQueue.contents (Session.deliveries s)) /\
  0 <= AppReadQueue st <= 32768 /\ 0 <= AppReadBacklog st <= 65536 /\
  (0 < AppReadBacklog st -> AppReadQueue st = 32768).
Proof.
  intros H. destruct (SessionSafe.reach_inv capOf capOf_len s H) as [_ [W L]]. injection L as L1 _ L3. cbv zeta.
  unfold sessionStats, queueStats. cbn [fst]. fields. unfold len. rewrite DeliveryQueue.contents_length, L3.
  pose proof (DeliveryQueue.wf_size _ W). pose proof (DeliveryQueue.wf_cap _ W) as Hc. rewrite L1 in Hc.
  unfold DeliveryQueue.sessionReadQueueSize, DeliveryQueue.sessionDeliveryBacklogSize in *. lia.
Qed.

End Levels.

End CoreStats.
