(* ===== verification/SessionDial.v ===== *)
(** * Dialling ([internal/session/session.go], [internal/session/groupdial.go])

    What [Dial] and [DialRendezvous] fill in before the core starts, how they end,
    and the dialling of a group: each member's handshake is driven to its outcome on
    a socket of its own, then handed over. *)
From Stdlib Require Import ZArith Lia.
From stdpp Require Import base numbers list option gmap.
From S2P Require Import Prelude Packet Fifo Output Crypto Float64 Handshake ConnState ConnSend ConnRecv Establish CoreHandshake Rendezvous ConnCore Sender Session SessionDrain.
Import ConnState(Conn).
Import CoreHandshake(DialConfig).
Import Rendezvous(RendezvousConfig).
Local Open Scope Z_scope.

Module SessionDial.

Inductive dialError : Type :=
| DialRandom (e : Handshake.HandshakeError) | DialCrypto (e : Crypto.CryptoError) | DialCore (e : Output.ConnError)
| DialTimeout | DialMuxClosed | DialNoMembers.

(** What [crypto/rand] delivers, draw by draw. *)
Record entropy : Type := mkEntropy {
  e_socket : option (list Z);
  e_isn : option (list Z);
  e_cookie : option (list Z);
  e_salt : option (list Z);
  e_even : option (list Z);
  e_odd : option (list Z);
  e_conn : nat -> option (list Z)
}.

#[global] Instance eta_dc : Eta DialConfig := fun d =>
  CoreHandshake.mkDialConfig (CoreHandshake.CallerSocketID d) (CoreHandshake.CallerISN d) (CoreHandshake.MSS d) (CoreHandshake.FC d)
    (CoreHandshake.RecvLatencyMS d) (CoreHandshake.SendLatencyMS d) (CoreHandshake.Congestion d) (CoreHandshake.StreamID d)
    (CoreHandshake.FilterConfig d) (CoreHandshake.CryptoCtx d) (CoreHandshake.Passphrase d) (CoreHandshake.KMRefreshRate d)
    (CoreHandshake.KMPreAnnounce d) (CoreHandshake.AllowUnencryptedFallback d) (CoreHandshake.PayloadSize d)
    (CoreHandshake.BufferCapacity d) (CoreHandshake.SendBufCapacity d) (CoreHandshake.RecvBufCapacity d) (CoreHandshake.MaxBW d)
    (CoreHandshake.InputBW d) (CoreHandshake.MinInputBW d) (CoreHandshake.OverheadBW d) (CoreHandshake.Live d) (CoreHandshake.Message d)
    (CoreHandshake.TLPktDrop d) (CoreHandshake.SndDropDelay d) (CoreHandshake.LossMaxTTL d) (CoreHandshake.DisableNAKReport d)
    (CoreHandshake.PeerIdleTimeout d) (CoreHandshake.ForceHSv4 d) (CoreHandshake.GroupID d) (CoreHandshake.GroupType d)
    (CoreHandshake.GroupWeight d).
#[global] Instance fld_dc_CallerSocketID : Field CoreHandshake.CallerSocketID. Proof. derive_field. Defined.
#[global] Instance fld_dc_CallerISN : Field CoreHandshake.CallerISN. Proof. derive_field. Defined.
#[global] Instance fld_dc_CryptoCtx : Field CoreHandshake.CryptoCtx. Proof. derive_field. Defined.
#[global] Instance fld_dc_GroupID : Field CoreHandshake.GroupID. Proof. derive_field. Defined.
#[global] Instance fld_dc_GroupType : Field CoreHandshake.GroupType. Proof. derive_field. Defined.
#[global] Instance fld_dc_GroupWeight : Field CoreHandshake.GroupWeight. Proof. derive_field. Defined.
#[global] Instance eta_rc : Eta RendezvousConfig := fun r =>
  Rendezvous.mkRdvConfig (Rendezvous.SocketID r) (Rendezvous.ISN r) (Rendezvous.Cookie r) (Rendezvous.MSS r) (Rendezvous.FC r)
    (Rendezvous.RecvLatencyMS r) (Rendezvous.SendLatencyMS r) (Rendezvous.Congestion r) (Rendezvous.StreamID r)
    (Rendezvous.FilterConfig r) (Rendezvous.PayloadSize r) (Rendezvous.BufferCapacity r) (Rendezvous.MaxBW r) (Rendezvous.InputBW r)
    (Rendezvous.MinInputBW r) (Rendezvous.OverheadBW r) (Rendezvous.Live r) (Rendezvous.Message r) (Rendezvous.PeerIdleTimeout r)
    (Rendezvous.CryptoCtx r) (Rendezvous.Passphrase r) (Rendezvous.KeyLength r).
#[global] Instance fld_rc_SocketID : Field Rendezvous.SocketID. Proof. derive_field. Defined.
#[global] Instance fld_rc_ISN : Field Rendezvous.ISN. Proof. derive_field. Defined.
#[global] Instance fld_rc_Cookie : Field Rendezvous.Cookie. Proof. derive_field. Defined.
#[global] Instance fld_rc_CryptoCtx : Field Rendezvous.CryptoCtx. Proof. derive_field. Defined.

(** The identifiers a session is created with and never changes. *)
Record identity : Type := mkIdentity { i_streamID : list Z; i_socketID : Z; i_groupID : Z }.

(** A field left zero is drawn. *)
Definition orDraw (n : Z) (r : result Handshake.HandshakeError Z) : result dialError Z :=
  if n =? 0 then match r with Ok v => Ok v | Err e => Err (DialRandom e) end else Ok n.

Section Dial.
Context {P : Crypto.Primitives} {M : Float64.GoMath} {R : ConnRecv.RangeOrder}.

(** The cipher context of a passphrase, when the caller gave none.  [keyLength] and
    [cryptoMode] are the hints of the configuration. *)
Definition cipherContext (keyLength cryptoMode : Z) (passphrase : list Z) (ctx : option Crypto.Context) (r : entropy) :
    result dialError (option Crypto.Context) :=
  match passphrase, ctx with
  | _ :: _, None =>
      let keyLen := if keyLength =? 0 then 16 else keyLength in
      let mode := if cryptoMode =? 2 then Crypto.CipherGCM else Crypto.CipherCTR in
      match Crypto.NewWithMode keyLen mode (e_salt r) (e_even r) (e_odd r) with Ok c => Ok (Some c) | Err e => Err (DialCrypto e) end
  | _, _ => Ok ctx
  end.

Definition prepareDial (keyLength cryptoMode : Z) (r : entropy) (dc : DialConfig) : result dialError DialConfig :=
  id ← orDraw (CoreHandshake.CallerSocketID dc) (Handshake.GenerateSocketID (e_socket r));
  isn ← orDraw (CoreHandshake.CallerISN dc) (Handshake.GenerateISN (e_isn r));
  ctx ← cipherContext keyLength cryptoMode (CoreHandshake.Passphrase dc) (CoreHandshake.CryptoCtx dc) r;
  Ok (dc <| CoreHandshake.CallerSocketID := id |> <| CoreHandshake.CallerISN := isn |> <| CoreHandshake.CryptoCtx := ctx |>).

(** [Dial] up to the wait: the session with its identifiers. *)
Definition Dial (now keyLength cryptoMode : Z) (r : entropy) (addr : option Packet.NetAddr) (dc : DialConfig) :
    result dialError (Session.Session * identity) :=
  dc ← prepareDial keyLength cryptoMode r dc;
  Ok (Session.newSession addr (CoreHandshake.Dial (e_conn r) dc now),
      mkIdentity (CoreHandshake.StreamID dc) (CoreHandshake.CallerSocketID dc) (CoreHandshake.GroupID dc)).

Definition prepareRendezvous (cryptoMode : Z) (r : entropy) (rc : RendezvousConfig) : result dialError RendezvousConfig :=
  id ← orDraw (Rendezvous.SocketID rc) (Handshake.GenerateSocketID (e_socket r));
  isn ← orDraw (Rendezvous.ISN rc) (Handshake.GenerateISN (e_isn r));
  ck ← orDraw (Rendezvous.Cookie rc) (Handshake.GenerateRandomCookie (e_cookie r));
  ctx ← cipherContext (Rendezvous.KeyLength rc) cryptoMode (Rendezvous.Passphrase rc) (Rendezvous.CryptoCtx rc) r;
  Ok (rc <| Rendezvous.SocketID := id |> <| Rendezvous.ISN := isn |> <| Rendezvous.Cookie := ck |> <| Rendezvous.CryptoCtx := ctx |>).

(** [DialRendezvous] leaves the identifiers of the session at their zero values. *)
Definition DialRendezvous (now cryptoMode : Z) (r : entropy) (addr : option Packet.NetAddr) (rc : RendezvousConfig) :
    result dialError (Session.Session * identity) :=
  rc ← prepareRendezvous cryptoMode r rc;
  Ok (Session.newSession addr (Rendezvous.DialRendezvous (e_conn r) rc now), mkIdentity [] 0 0).

(** The wait of both: the first report of the loop, or the timeout. *)
Definition awaited (timedOut : bool) (s : Session.Session) : option (result dialError Session.Session) :=
  if timedOut then Some (Err DialTimeout)
  else match Session.connected s with
       | None => None
       | Some None => Some (Ok s)
       | Some (Some e) => Some (Err (DialCore e))
       end.

(** ** A member of a group *)

Definition wired (addr : option Packet.NetAddr) (o : Output.Output) : list Packet.Packet :=
  match o with
  | Output.SendPacket p _ => [p <| Packet.Hdr ::= fun h => h <| Packet.Addr := addr |> |>]
  | _ => []
  end.

(** [drain]: the packets go out, the timers are dropped. *)
Fixpoint drain (fuel : nat) (addr : option Packet.NetAddr) (c : Conn) : list Packet.Packet * Conn :=
  match fuel with
  | O => ([], c)
  | S fuel =>
      match ConnCore.PollOutput c with
      | (None, c) => ([], c)
      | (Some o, c) => let '(ps, c) := drain fuel addr c in (wired addr o ++ ps, c)
      end
  end.
Definition drainAll (addr : option Packet.NetAddr) (c : Conn) : list Packet.Packet * Conn := drain (S (length (ConnState.sent c))) addr c.

(** [settled]: the outcome, if the events have one. *)
Fixpoint settled (fuel : nat) (c : Conn) : option (option Output.ConnError) * Conn :=
  match fuel with
  | O => (None, c)
  | S fuel =>
      match ConnCore.PollEvent c with
      | (None, c) => (None, c)
      | (Some (Output.Connected _), c) => (Some None, c)
      | (Some (Output.Failed e), c) => (Some (Some e), c)
      | (Some _, c) => settled fuel c
      end
  end.
Definition eventsOf (c : Conn) : list Output.Event := Fifo.contents (ConnState.events c).
Definition outcome (c : Conn) : option (option Output.ConnError) * Conn := settled (S (length (eventsOf c))) c.

(** The ready case of the select. *)
Inductive dialInput : Type := DPacket (now : Z) (p : Packet.Packet) | DClosed | DRetry (now : Z) | DDeadline.

(** One round: still waiting, or done. *)
Definition dialRound (addr : option Packet.NetAddr) (i : dialInput) (c : Conn) : list Packet.Packet * (Conn + result dialError Conn) :=
  match i with
  | DPacket now p =>
      match outcome (ConnCore.HandlePacket now p c) with
      | (Some None, c) => ([], inr (Ok c))
      | (Some (Some e), _) => ([], inr (Err (DialCore e)))
      | (None, c) => let '(ps, c) := drainAll addr c in (ps, inl c)
      end
  | DClosed => ([], inr (Err DialMuxClosed))
  | DRetry now =>
      let '(ps, c) := drainAll addr (default c (ConnCore.HandleTimer now Output.TimerHandshake c)) in (ps, inl c)
  | DDeadline => ([], inr (Err DialTimeout))
  end.

Fixpoint dialLoop (addr : option Packet.NetAddr) (ins : list dialInput) (c : Conn) : list Packet.Packet * (Conn + result dialError Conn) :=
  match ins with
  | [] => ([], inl c)
  | i :: ins =>
      match dialRound addr i c with
      | (ps, inl c) => let '(qs, r) := dialLoop addr ins c in (ps ++ qs, r)
      | done => done
      end
  end.

(** [dialGroupMember], fed [ins]. *)
Definition dialGroupMember (now : Z) (rand : nat -> option (list Z)) (addr : option Packet.NetAddr) (dc : DialConfig) (ins : list dialInput) :
    list Packet.Packet * (Conn + result dialError Conn) :=
  let '(ps, c) := drainAll addr (CoreHandshake.Dial rand dc now) in
  let '(qs, r) := dialLoop addr ins c in (ps ++ qs, r).

(** ** The group *)

Record memberDial : Type := mkMember { md_addr : option Packet.NetAddr; md_weight : Z; md_entropy : entropy; md_ins : list dialInput }.

Definition memberConfig (base : DialConfig) (mode sockID isn groupID weight : Z) : DialConfig :=
  base <| CoreHandshake.CallerSocketID := sockID |> <| CoreHandshake.CallerISN := isn |> <| CoreHandshake.GroupID := groupID |>
       <| CoreHandshake.GroupType := u8 mode |> <| CoreHandshake.GroupWeight := weight |>.

(** The members built so far, with their configurations; [None] is a member that
    still waits. *)
Fixpoint dialMembers (now mode isn groupID : Z) (base : DialConfig) (ms : list memberDial) : option (result dialError (list (DialConfig * Conn))) :=
  match ms with
  | [] => Some (Ok [])
  | m :: ms =>
      match Handshake.GenerateSocketID (e_socket (md_entropy m)) with
      | Err e => Some (Err (DialRandom e))
      | Ok sockID =>
          let dc := memberConfig base mode sockID isn groupID (md_weight m) in
          match snd (dialGroupMember now (e_conn (md_entropy m)) (md_addr m) dc (md_ins m)) with
          | inl _ => None
          | inr (Err e) => Some (Err e)
          | inr (Ok c) =>
              match dialMembers now mode isn groupID base ms with
              | Some (Ok built) => Some (Ok ((dc, c) :: built))
              | r => r
              end
          end
      end
  end.

Definition DialGroup (now mode : Z) (r : entropy) (base : DialConfig) (ms : list memberDial) : option (result dialError (list (DialConfig * Conn))) :=
  match ms with
  | [] => Some (Err DialNoMembers)
  | _ =>
      match orDraw (CoreHandshake.GroupID base) (Handshake.GenerateSocketID (e_socket r)) with
      | Err e => Some (Err e)
      | Ok groupID =>
          match orDraw (CoreHandshake.CallerISN base) (Handshake.GenerateISN (e_isn r)) with
          | Err e => Some (Err e)
          | Ok isn => dialMembers now mode isn groupID base ms
          end
      end
  end.

(** ** Properties *)

Lemma drain_S fuel addr c : drain (S fuel) addr c =
  match ConnCore.PollOutput c with
  | (None, c) => ([], c)
  | (Some o, c) => let '(ps, c) := drain fuel addr c in (wired addr o ++ ps, c)
  end.
Proof. reflexivity. Qed.

Lemma settled_S fuel c : settled (S fuel) c =
  match ConnCore.PollEvent c with
  | (None, c) => (None, c)
  | (Some (Output.Connected _), c) => (Some None, c)
  | (Some (Output.Failed e), c) => (Some (Some e), c)
  | (Some _, c) => settled fuel c
  end.
Proof. reflexivity. Qed.

Lemma drain_all addr n : forall c, length (ConnState.sent c) = n ->
  drain (S n) addr c = (concat (map (wired addr) (ConnState.sent c)), c <| ConnState.outputs := Fifo.empty |>).
Proof.
  induction n as [|n IH]; intros c Hn; rewrite drain_S; unfold ConnState.sent in *; unfold ConnCore.PollOutput;
    pose proof (Fifo.pop_next (Output.ClearTimer Output.TimerHandshake) (ConnState.outputs c)) as H; destruct (Fifo.pop _ _) as [[v ok] q].
  - apply nil_length_inv in Hn. rewrite Hn in H |- *. by destruct H as [-> ->].
  - destruct (Fifo.contents (ConnState.outputs c)) as [|o os] eqn:E; [done|]. injection Hn as Hn. destruct H as (-> & -> & Eq).
    rewrite IH; [|fields; by rewrite Eq]. fields. rewrite Eq. done.
Qed.

Lemma drainAll_spec addr c : drainAll addr c = (concat (map (wired addr) (ConnState.sent c)), c <| ConnState.outputs := Fifo.empty |>).
Proof. by apply drain_all. Qed.

Definition addressed (addr : option Packet.NetAddr) (p : Packet.Packet) : Prop := Packet.Addr (Packet.Hdr p) = addr.

Lemma wired_addressed addr os : Forall (addressed addr) (concat (map (wired addr) os)).
Proof. induction os as [|o os IH]; [constructor|]. simpl. apply Forall_app. split; [|done]. destruct o; repeat constructor. Qed.

(** The first event that decides. *)
Fixpoint verdict (es : list Output.Event) : option (option Output.ConnError) :=
  match es with
  | [] => None
  | Output.Connected _ :: _ => Some None
  | Output.Failed e :: _ => Some (Some e)
  | _ :: es => verdict es
  end.

Lemma settled_spec n : forall c, length (eventsOf c) = n ->
  fst (settled (S n) c) = verdict (eventsOf c) /\ exists q, snd (settled (S n) c) = c <| ConnState.events := q |>.
Proof.
  induction n as [|n IH]; intros c Hn; rewrite settled_S; unfold eventsOf in *; unfold ConnCore.PollEvent;
    pose proof (Fifo.pop_next Output.Closed (ConnState.events c)) as H; destruct (Fifo.pop _ _) as [[v ok] q].
  - apply nil_length_inv in Hn. rewrite Hn in H |- *. destruct H as [-> ->]. split; [done|]. by exists Fifo.empty.
  - destruct (Fifo.contents (ConnState.events c)) as [|e es] eqn:E; [done|]. injection Hn as Hn. destruct H as (-> & -> & Eq).
    destruct (IH (c <| ConnState.events := q |>)) as [H1 (q' & H2)]; [fields; by rewrite Eq|]. change (Fifo.contents (ConnState.events (c <| ConnState.events := q |>))) with (Fifo.contents q) in H1. rewrite Eq in H1.
    destruct e; try (split; [exact H1|exists q'; exact H2]); (split; [done|by exists q]).
Qed.

(** A packet that completes the handshake, to a core with no output queued. *)
Definition completed (c : Conn) : Prop := exists c0 now p,
  ConnState.sent c0 = [] /\ verdict (eventsOf (ConnCore.HandlePacket now p c0)) = Some None /\
  exists q, c = (ConnCore.HandlePacket now p c0) <| ConnState.events := q |>.

Lemma dialRound_spec addr i c : ConnState.sent c = [] ->
  Forall (addressed addr) (fst (dialRound addr i c)) /\
  match snd (dialRound addr i c) with inl c' => ConnState.sent c' = [] | inr (Ok c') => completed c' | inr (Err _) => True end.
Proof.
  intros Hs. destruct i as [now p| |now|]; simpl; try (split; [constructor|done]).
  - unfold outcome. destruct (settled_spec _ (ConnCore.HandlePacket now p c) eq_refl) as [H1 (q & H2)].
    destruct (settled _ _) as [v c']. cbn [fst snd] in *. subst v c'. destruct (verdict _) as [[e|]|] eqn:V; simpl.
    + split; [constructor|done].
    + split; [constructor|]. exists c, now, p. eauto.
    + rewrite drainAll_spec. simpl. split; [apply wired_addressed|done].
  - rewrite drainAll_spec. simpl. split; [apply wired_addressed|done].
Qed.

Lemma dialLoop_spec addr ins : forall c, ConnState.sent c = [] ->
  Forall (addressed addr) (fst (dialLoop addr ins c)) /\
  match snd (dialLoop addr ins c) with inr (Ok c') => completed c' | _ => True end.
Proof.
  induction ins as [|i ins IH]; intros c Hs; [split; [constructor|done]|]. cbn [dialLoop]. pose proof (dialRound_spec addr i c Hs) as [H1 H2].
  destruct (dialRound addr i c) as [ps [c'|r]]; cbn [fst snd] in *; [|split; [done|by destruct r]].
  destruct (IH c' H2) as [H3 H4]. destruct (dialLoop addr ins c') as [qs r]. cbn [fst snd] in *. split; [by apply Forall_app|done].
Qed.

(** A member is handed over at the packet that connects it, and nothing that packet
    made the core ask for is lost: its timers and packets are still queued, for the
    loop of the group.  Everything sent before went to the member's own peer. *)
Theorem groupdial_hands_over (now : Z) (rand : nat -> option (list Z)) (addr : option Packet.NetAddr) (dc : DialConfig)
    (ins : list dialInput) (ps : list Packet.Packet) (c : Conn) :
  dialGroupMember now rand addr dc ins = (ps, inr (Ok c)) ->
  Forall (addressed addr) ps /\
  exists c0 t p, ConnState.sent c0 = [] /\ ConnState.sent c = ConnState.sent (ConnCore.HandlePacket t p c0) /\
    verdict (eventsOf (ConnCore.HandlePacket t p c0)) = Some None.
Proof.
  unfold dialGroupMember. rewrite drainAll_spec. pose proof (wired_addressed addr (ConnState.sent (CoreHandshake.Dial rand dc now))) as H0.
  revert H0. generalize (concat (map (wired addr) (ConnState.sent (CoreHandshake.Dial rand dc now)))). intros ps0 H0. set (c1 := _ <| ConnState.outputs := Fifo.empty |>).
  destruct (dialLoop_spec addr ins c1 eq_refl) as [H1 H2]. destruct (dialLoop addr ins c1) as [qs r]. cbn [fst snd] in *. intros [= <- ->].
  split; [by apply Forall_app|]. destruct H2 as (c0 & t & p & H3 & H4 & q & ->). by exists c0, t, p.
Qed.

(** What the members of a group have in common. *)
Definition shares (base : DialConfig) (mode isn groupID : Z) (dc : DialConfig) : Prop :=
  CoreHandshake.CallerISN dc = isn /\ CoreHandshake.GroupID dc = groupID /\ CoreHandshake.GroupType dc = u8 mode /\
  CoreHandshake.CryptoCtx dc = CoreHandshake.CryptoCtx base /\ CoreHandshake.Passphrase dc = CoreHandshake.Passphrase base /\
  CoreHandshake.CallerSocketID dc <> 0.

Lemma GenerateSocketID_ne r v : Handshake.GenerateSocketID r = Ok v -> v <> 0.
Proof. unfold Handshake.GenerateSocketID. destruct r as [b|]; [|done]. intros [= <-]. destruct (_ =? 0) eqn:E; lia. Qed.

Lemma dialMembers_shares now mode isn groupID base ms : forall built, dialMembers now mode isn groupID base ms = Some (Ok built) ->
  map (CoreHandshake.GroupWeight ∘ fst) built = map md_weight ms /\ Forall (shares base mode isn groupID ∘ fst) built.
Proof.
  induction ms as [|m ms IH]; intros built; cbn [dialMembers]; [intros [= <-]; by split|].
  destruct (Handshake.GenerateSocketID _) as [id|e] eqn:Ei; [|done].
  destruct (snd (dialGroupMember _ _ _ _ _)) as [c|[c|e]]; [done| |done].
  destruct (dialMembers now mode isn groupID base ms) as [[b|e]|]; [|done|done]. intros [= <-]. destruct (IH b eq_refl) as [H1 H2].
  split; [simpl; by f_equal|]. constructor; [|done]. apply GenerateSocketID_ne in Ei. repeat split; done.
Qed.

Lemma orDraw_ne n r v : (forall w, r = Ok w -> w <> 0) -> orDraw n r = Ok v -> v <> 0.
Proof. unfold orDraw. intros H. destruct (n =? 0) eqn:E; [|intros [= <-]; lia]. destruct r as [w|e]; [intros [= <-]; by apply H|done]. Qed.

(** A group that was dialled has every member, in order and with its weight, in one
    group and one sequence space. *)
Theorem groupdial_shared (now mode : Z) (r : entropy) (base : DialConfig) (ms : list memberDial) (built : list (DialConfig * Conn)) :
  DialGroup now mode r base ms = Some (Ok built) ->
  map (CoreHandshake.GroupWeight ∘ fst) built = map md_weight ms /\ built <> [] /\
  exists isn groupID, groupID <> 0 /\ Forall (shares base mode isn groupID ∘ fst) built.
Proof.
  unfold DialGroup. destruct ms as [|m ms]; [done|].
  destruct (orDraw (CoreHandshake.GroupID base) _) as [gid|e] eqn:Eg; [|done].
  destruct (orDraw (CoreHandshake.CallerISN base) _) as [isn|e] eqn:Es; [|done].
  intros H. destruct (dialMembers_shares _ _ _ _ _ _ _ H) as [H1 H2]. split; [done|]. split; [by intros ->|]. exists isn, gid. split; [|done].
  refine (orDraw_ne _ _ _ _ Eg). intros w. apply GenerateSocketID_ne.
Qed.

(** [Dial] makes a cipher context of the passphrase; the members of a dialled group
    have none unless the caller made it, so they offer no keys. *)
Theorem groupdial_never_encrypts (now mode keyLength cryptoMode : Z) (r : entropy) (base dc : DialConfig) (ms : list memberDial)
    (built : list (DialConfig * Conn)) :
  CoreHandshake.Passphrase base <> [] -> CoreHandshake.CryptoCtx base = None ->
  prepareDial keyLength cryptoMode r base = Ok dc -> DialGroup now mode r base ms = Some (Ok built) ->
  is_Some (CoreHandshake.CryptoCtx dc) /\ Forall (fun m => CoreHandshake.Passphrase (fst m) <> [] /\ CoreHandshake.CryptoCtx (fst m) = None) built.
Proof.
  intros Hp Hc Hd Hg. split.
  - unfold prepareDial in Hd. destruct (orDraw (CoreHandshake.CallerSocketID base) _); [|done]. simpl in Hd.
    destruct (orDraw (CoreHandshake.CallerISN base) _); [|done]. simpl in Hd. unfold cipherContext in Hd. rewrite Hc in Hd.
    destruct (CoreHandshake.Passphrase base); [done|]. destruct (Crypto.NewWithMode _ _ _ _ _) as [k|e]; [|done]. injection Hd as <-. by exists k.
  - unfold DialGroup in Hg. destruct ms as [|m ms]; [done|]. destruct (orDraw (CoreHandshake.GroupID base) _) as [gid|e]; [|done].
    destruct (orDraw (CoreHandshake.CallerISN base) _) as [isn|e]; [|done]. apply dialMembers_shares in Hg as [_ Hg].
    eapply Forall_impl; [exact Hg|]. intros [k c] (_ & _ & _ & H1 & H2 & _). cbn [fst] in *. by rewrite H1, H2.
Qed.

(** A session dialled to a listener knows its socket ID; one from a rendezvous says
    0, though its core has one. *)
Theorem dial_identity (now keyLength cryptoMode : Z) (r : entropy) (addr : option Packet.NetAddr) (dc : DialConfig) (s : Session.Session) (ids : identity) :
  Dial now keyLength cryptoMode r addr dc = Ok (s, ids) ->
  i_socketID ids <> 0 /\ i_streamID ids = CoreHandshake.StreamID dc /\
  exists d, ConnState.dial (Session.core s) = Some d /\ ConnState.Dial.socketID d = i_socketID ids.
Proof.
  unfold Dial, prepareDial. destruct (orDraw (CoreHandshake.CallerSocketID dc) _) as [id|] eqn:Ei; [|done]. simpl.
  destruct (orDraw (CoreHandshake.CallerISN dc) _) as [isn|]; [|done]. simpl. destruct (cipherContext _ _ _ _ _) as [k|]; [|done].
  intros [= <- <-]. split; [|split; [done|]].
  - refine (orDraw_ne _ _ _ _ Ei). intros w. apply GenerateSocketID_ne.
  - by eexists.
Qed.

Theorem rendezvous_identity_lost (now cryptoMode : Z) (r : entropy) (addr : option Packet.NetAddr) (rc : RendezvousConfig) (s : Session.Session) (ids : identity) :
  DialRendezvous now cryptoMode r addr rc = Ok (s, ids) ->
  i_socketID ids = 0 /\ exists d, ConnState.rdv (Session.core s) = Some d /\ ConnState.Rdv.socketID d <> 0 /\
    ConnState.Rdv.streamID d = Rendezvous.StreamID rc /\ i_streamID ids = [].
Proof.
  unfold DialRendezvous, prepareRendezvous. destruct (orDraw (Rendezvous.SocketID rc) _) as [id|] eqn:Ei; [|done]. simpl.
  destruct (orDraw (Rendezvous.ISN rc) _) as [isn|]; [|done]. simpl. destruct (orDraw (Rendezvous.Cookie rc) _) as [ck|]; [|done]. simpl.
  destruct (cipherContext _ _ _ _ _) as [k|]; [|done]. intros [= <- <-]. split; [done|]. eexists. split; [done|]. split; [|done].
  refine (orDraw_ne _ _ _ _ Ei). intros w. apply GenerateSocketID_ne.
Qed.

End Dial.
End SessionDial.
