(* ===== verification/GroupHost.v ===== *)
(** * The host of a group ([internal/session/group.go])

    One loop drives a core group and the connections of its members: it keeps
    their timers in one map, hands merged payloads to the readers' channel and
    holds back what does not fit there. *)
From Stdlib Require Import ZArith Lia.
From stdpp Require Import base numbers list option gmap.
From S2P Require Import Prelude Seq Packet Clock Tsbpd Fifo Output Crypto Float64 ConnState ConnSend ConnRecv Establish ConnCore Session Group GroupMerge.
Import Output(TimerID, SendPacket, SetTimer, ClearTimer).
Import ConnState(Conn).
Local Open Scope Z_scope.

Module GroupHost.

Definition groupMonitorInterval : Z := 100 * Clock.Millisecond.
Definition monitorIdx : Z := -1.
Definition readCap : nat := 2048.
Definition monitorKey : Z * TimerID := (monitorIdx, Output.TimerHandshake).

Record Host : Type := mkHost {
  cg : Group.Group;
  addrs : list (option Packet.NetAddr);
  readC : list (list Z);
  backlog : list (list Z);
  h_timers : gmap (Z * TimerID) Z;
  h_wake : option Z;
  h_wire : list (nat * Packet.Packet)
}.

#[global] Instance eta_host : Eta Host := fun h => mkHost (cg h) (addrs h) (readC h) (backlog h) (h_timers h) (h_wake h) (h_wire h).
#[global] Instance fld_h_cg : Field cg. Proof. derive_field. Defined.
#[global] Instance fld_h_readC : Field readC. Proof. derive_field. Defined.
#[global] Instance fld_h_backlog : Field backlog. Proof. derive_field. Defined.
#[global] Instance fld_h_timers : Field h_timers. Proof. derive_field. Defined.
#[global] Instance fld_h_wake : Field h_wake. Proof. derive_field. Defined.
#[global] Instance fld_h_wire : Field h_wire. Proof. derive_field. Defined.

Definition connOf (i : nat) (h : Host) : option Conn := Group.conn <$> Group.members (cg h) !! i.

(** ** Draining one member *)

Definition runOutput (i : nat) (o : Output.Output) (h : Host) : Host :=
  match o with
  | SendPacket p _ =>
      h <| h_wire ::= fun w => w ++ [(i, p <| Packet.Hdr ::= fun hd => hd <| Packet.Addr := nth i (addrs h) None |> |>)] |>
  | SetTimer id deadline => h <| h_timers ::= <[(Z.of_nat i, id) := deadline]> |>
  | ClearTimer id => h <| h_timers ::= delete (Z.of_nat i, id) |>
  end.

Fixpoint drain_loop (fuel i : nat) (h : Host) : Host :=
  match fuel with
  | O => h
  | S fuel =>
      match connOf i h with
      | None => h
      | Some c =>
          let '(o, c) := ConnCore.PollOutput c in
          let h := h <| cg ::= Group.onConn i (fun _ => c) |> in
          match o with Some o => drain_loop fuel i (runOutput i o h) | None => h end
      end
  end.
Definition drainMember (i : nat) (h : Host) : Host :=
  match connOf i h with
  | Some c => drain_loop (S (length (ConnState.sent c))) i h
  | None => h
  end.
Definition drainMembers (h : Host) : Host := fold_left (fun h i => drainMember i h) (seq 0 (length (Group.members (cg h)))) h.

(** ** Handing out payloads *)

(** [select { case g.readC <- d: default: backlog = append(backlog, d) }] *)
Definition offer (d : list Z) (h : Host) : Host :=
  if Nat.ltb (length (readC h)) readCap then h <| readC ::= fun q => q ++ [d] |> else h <| backlog ::= fun b => b ++ [d] |>.

Fixpoint poll_loop (fuel : nat) (h : Host) : Host :=
  match fuel with
  | O => h
  | S fuel =>
      let '(d, g) := Group.PollDelivery (cg h) in
      let h := h <| cg := g |> in
      match d with Some d => poll_loop fuel (offer d h) | None => h end
  end.
Definition takeDeliveries (h : Host) : Host := poll_loop (S (length (Fifo.contents (Group.delivered (cg h))))) h.
Definition route (i : nat) (h : Host) : Host := takeDeliveries (h <| cg ::= Group.RouteMember i |>).

(** Moves the backlog into the channel as far as there is room. *)
Definition flushGroupBacklog (h : Host) : Host :=
  let room := (readCap - length (readC h))%nat in
  h <| readC ::= fun q => q ++ take room (backlog h) |> <| backlog ::= drop room |>.

(** [Read]: the next payload of the channel. *)
Definition Read (h : Host) : option (list Z) * Host :=
  match readC h with [] => (None, h) | d :: rest => (Some d, h <| readC := rest |>) end.

Definition rearm (now : Z) (h : Host) : Host :=
  match fold_right Session.sooner None (map snd (map_to_list (h_timers h))) with
  | None => h <| h_wake := None |>
  | Some e => let d := Clock.Sub e now in let d := if d <? 0 then 0 else d in h <| h_wake := Some (now + d) |>
  end.

(** ** The loop *)

Section Loop.
Context {P : Crypto.Primitives} {M : Float64.GoMath} {O : ConnRecv.RangeOrder}.

(** [range g.timers] in the order [keys]. *)
Fixpoint fireTimers (now : Z) (keys : list (Z * TimerID)) (fired : bool) (h : Host) : option (bool * Host) :=
  match keys with
  | [] => Some (fired, h)
  | k :: keys =>
      match h_timers h !! k with
      | None => fireTimers now keys fired h
      | Some dl =>
          if Clock.After dl now then fireTimers now keys fired h else
          let h := h <| h_timers ::= delete k |> in
          if fst k =? monitorIdx then
            fireTimers now keys true (h <| cg ::= Group.Monitor now |> <| h_timers ::= <[monitorKey := Clock.Add now groupMonitorInterval]> |>)
          else
            match connOf (Z.to_nat (fst k)) h with
            | None => None
            | Some c =>
                match ConnCore.HandleTimer now (snd k) c with
                | None => None
                | Some c => fireTimers now keys true (h <| cg ::= Group.onConn (Z.to_nat (fst k)) (fun _ => c) |>)
                end
            end
      end
  end.

Inductive input : Type :=
| InPacket (i : nat) (p : Packet.Packet)
| InWrite (payload : list Z)
| InTimer (keys : list (Z * TimerID)).

Definition start (now : Z) (g : Group.Group) (as_ : list (option Packet.NetAddr)) : Host :=
  rearm now (drainMembers (mkHost g as_ [] [] {[ monitorKey := Clock.Add now groupMonitorInterval ]} None [])).

(** One case of the select, after the flush at the top of the loop. *)
Definition select (now : Z) (i : input) (h : Host) : option Host :=
  match i with
  | InPacket i p => Some (rearm now (route i (drainMember i (h <| cg ::= Group.onConn i (ConnCore.HandlePacket now p) |>))))
  | InWrite d => Some (rearm now (drainMembers (h <| cg ::= Group.Write now d |>)))
  | InTimer keys =>
      match fireTimers now keys false h with
      | None => None
      | Some (fired, h) =>
          let h := drainMembers h in
          let h := if fired then fold_left (fun h i => route i h) (seq 0 (length (Group.members (cg h)))) h else h in
          Some (rearm now h)
      end
  end.

End Loop.

(** ** The order of what is read *)

(** What a reader will see, from now on. *)
Definition toRead (h : Host) : list (list Z) := readC h ++ backlog h.

(** The backlog is only in use when the channel is full. *)
Definition tidy (h : Host) : Prop := backlog h <> [] -> length (readC h) = readCap.

Lemma flush_toRead h : (length (readC h) <= readCap)%nat ->
  toRead (flushGroupBacklog h) = toRead h /\ tidy (flushGroupBacklog h) /\ (length (readC (flushGroupBacklog h)) <= readCap)%nat.
Proof.
  intros Hl. unfold toRead, tidy, flushGroupBacklog. fields. rewrite <- app_assoc, take_drop, length_app, length_take. split; [done|].
  split; [|lia]. intros Hb. assert (length (drop (readCap - length (readC h)) (backlog h)) <> 0%nat) by (intros E; by apply nil_length_inv in E).
  rewrite length_drop in *. lia.
Qed.

Lemma offer_toRead d h : tidy h -> (length (readC h) <= readCap)%nat ->
  toRead (offer d h) = toRead h ++ [d] /\ tidy (offer d h) /\ (length (readC (offer d h)) <= readCap)%nat.
Proof.
  unfold toRead, tidy, offer. intros Ht Hl. destruct (Nat.ltb_spec (length (readC h)) readCap) as [H|H]; fields.
  - assert (backlog h = []) as -> by (destruct (backlog h); [done|]; rewrite Ht in H by done; lia).
    rewrite !app_nil_r, length_app. simpl. split; [done|]. split; [done|lia].
  - split; [by rewrite app_assoc|]. split; [intros _; lia|done].
Qed.

Lemma offer_cg d h : cg (offer d h) = cg h.
Proof. unfold offer. by destruct (Nat.ltb _ _). Qed.

Lemma poll_loop_toRead n : forall h, length (Fifo.contents (Group.delivered (cg h))) = n -> tidy h -> (length (readC h) <= readCap)%nat ->
  toRead (poll_loop (S n) h) = toRead h ++ Fifo.contents (Group.delivered (cg h)) /\ tidy (poll_loop (S n) h) /\
  Fifo.contents (Group.delivered (cg (poll_loop (S n) h))) = [].
Proof.
  induction n as [|n IH]; intros h Hn Ht Hl.
  - apply nil_length_inv in Hn. cbn [poll_loop]. unfold Group.PollDelivery.
    pose proof (Fifo.pop_next [] (Group.delivered (cg h))) as H. destruct (Fifo.pop _ _) as [[v ok] q]. rewrite Hn in *. destruct H as [-> ->].
    rewrite app_nil_r. done.
  - destruct (Fifo.contents (Group.delivered (cg h))) as [|d l] eqn:E; [done|]. injection Hn as Hn.
    remember (S n) as m eqn:Em. cbn [poll_loop]. subst m. unfold Group.PollDelivery.
    pose proof (Fifo.pop_next [] (Group.delivered (cg h))) as H. destruct (Fifo.pop _ _) as [[v ok] q]. rewrite E in H. destruct H as (-> & -> & Eq).
    cbv zeta. set (h1 := h <| cg := (cg h) <| Group.delivered := q |> |>).
    destruct (offer_toRead d h1 Ht Hl) as (E1 & T1 & L1).
    assert (Ec : Fifo.contents (Group.delivered (cg (offer d h1))) = l) by (rewrite offer_cg; subst h1; by fields).
    destruct (IH (offer d h1)) as (E2 & T2 & C2); [by rewrite Ec|done|done|]. split; [|done].
    rewrite E2, Ec, E1, <- app_assoc. done.
Qed.

(** Routing keeps the order of the merge as long as the channel is full whenever
    the backlog is in use. *)
Theorem group_host_in_order (i : nat) (h : Host) :
  tidy h -> (length (readC h) <= readCap)%nat ->
  toRead (route i h) = toRead h ++ Fifo.contents (Group.delivered (Group.RouteMember i (cg h))) /\ tidy (route i h).
Proof.
  intros Ht Hl. unfold route, takeDeliveries. set (h1 := h <| cg ::= Group.RouteMember i |>).
  destruct (poll_loop_toRead _ h1 eq_refl Ht Hl) as (E & T & _). rewrite E. done.
Qed.

(** A read between the flush and the routing breaks that: the new payload goes
    into the freed slot, ahead of what is held back. *)
Theorem group_host_reorders (d x y : list Z) (q : list (list Z)) (h : Host) :
  readC h = d :: q -> length (readC h) = readCap -> backlog h = [x] -> Fifo.contents (Group.delivered (cg h)) = [y] ->
  let h1 := flushGroupBacklog h in
  let '(r, h2) := Read h1 in
  r = Some d /\ toRead h1 = d :: q ++ [x] /\ toRead (takeDeliveries h2) = q ++ [y; x].
Proof.
  intros Er El Eb Ed. unfold Read, flushGroupBacklog. cbv zeta. fields. rewrite El, Nat.sub_diag, Eb, Er. cbn [take app drop].
  split; [done|]. split; [unfold toRead; fields; rewrite ?El, ?Nat.sub_diag, ?Eb, ?Er; cbn [take app drop]; by rewrite ?app_nil_r|].
  unfold takeDeliveries. fields. rewrite Ed. cbn [length poll_loop]. unfold Group.PollDelivery. fields.
  pose proof (Fifo.pop_next [] (Group.delivered (cg h))) as H. destruct (Fifo.pop _ _) as [[v ok] q1]. rewrite Ed in H. destruct H as (-> & -> & Eq).
  unfold offer. fields. rewrite ?app_nil_r. rewrite Er in El. simpl in El.
  assert (Nat.ltb (length q) readCap = true) as -> by (apply Nat.ltb_lt; lia). fields.
  pose proof (Fifo.pop_next [] q1) as H. destruct (Fifo.pop _ q1) as [[v2 ok2] q2]. rewrite Eq in H. destruct H as [-> ->].
  unfold toRead. fields. rewrite Eb. by rewrite <- app_assoc.
Qed.

End GroupHost.
