(* ===== verification/SrtGroup.v ===== *)
(** * Socket groups ([group.go])

    The public group bonds connections in three modes.  It works on its members
    only through the methods of [Conn] that [Link] lists; the theorems hold for
    every implementation of them.  A goroutine that waits for the group's mutex is
    [None]: [mu] says that it is held by nobody who will release it.  Times are
    nanoseconds, 0 is Go's zero time.  A read is given the whole message (the
    caller's buffer is large enough). *)
From Stdlib Require Import ZArith Lia.
From stdpp Require Import base numbers list option gmap.
From S2P Require Import Prelude Seq Tsbpd.
Local Open Scope Z_scope.

Module SrtGroup.

(** ** The connection as the group uses it *)

Record LinkStats : Type := mkStats { NegotiatedLatency : Z; RTT : Z; RTTVar : Z; SentDropped : Z }.

Class Link (L : Type) : Type := {
  Write_ : list Z -> L -> option Z * L;
  writeBalanced : list Z -> Z -> L -> option Z * L;
  SchedSeqNo : L -> Z;
  OverrideSndSeqNo : Z -> L -> L;
  PeerGroupID : L -> Z;
  CurrentSRTTimestamp : L -> Z;
  setGroupSrcTime : Z -> L -> L;
  clearGroupSrcTime : L -> L;
  getRateEstimate : L -> Z;
  setRateEstimate : Z -> L -> L;
  LastMsgNo : L -> Z;
  loadLastACKSeq : L -> Z;
  SendKeepAlive : L -> L;
  isConnected : L -> bool;
  groupIdle : L -> bool;
  peerIdleTimeout : L -> Z;
  Latency : L -> Z;
  Stats : L -> LinkStats;
  TSBPDTimeBase : L -> option Tsbpd.GroupTimeBase;
  ApplyGroupTime : Tsbpd.GroupTimeBase -> L -> L;
  ApplyGroupDrift : Tsbpd.GroupTimeBase -> L -> L;
  RcvBufStartSeq : L -> Z;
  RcvBufEmpty : L -> bool;
  ResetRecvState : Z -> L -> L;
  Close_ : L -> L
}.

(** ** State *)

Inductive GroupMode : Type := GroupBroadcast | GroupBackup | GroupBalancing.
Inductive MemberStatus : Type := MemberPending | MemberIdle | MemberRunning | MemberBroken.
Inductive BackupState : Type :=
| BackupStandby | BackupActiveFresh | BackupActiveStable | BackupActiveUnstable | BackupActiveWary | BackupBroken.

#[global] Instance GroupMode_dec : EqDecision GroupMode. Proof. solve_decision. Defined.
#[global] Instance MemberStatus_dec : EqDecision MemberStatus. Proof. solve_decision. Defined.
#[global] Instance BackupState_dec : EqDecision BackupState. Proof. solve_decision. Defined.

Definition nsMilli : Z := 1000000.
Definition nsSecond : Z := 1000000000.
Definition pendingTimeout : Z := 5 * nsSecond.
Definition defaultSenderBufCap : nat := 1000.
Definition balanceReorderMax : nat := 512.

Record memberConn (L : Type) : Type := mkMember {
  conn : L;
  token : Z;
  weight : Z;
  status : MemberStatus;
  backupState : BackupState;
  activeSince : Z;
  lastResponse : Z;
  prevDrops : Z;
  unstableSince : Z;
  warySince : Z;
  pendingSince : Z;
  isIdle : bool
}.
Arguments mkMember {L}.
Arguments conn {L}.
Arguments token {L}.
Arguments weight {L}.
Arguments status {L}.
Arguments backupState {L}.
Arguments activeSince {L}.
Arguments lastResponse {L}.
Arguments prevDrops {L}.
Arguments unstableSince {L}.
Arguments warySince {L}.
Arguments pendingSince {L}.
Arguments isIdle {L}.

Record bufferedMsg : Type := mkMsg { b_seqNo : Z; b_msgNo : Z; b_srcTime : Z; b_data : list Z }.

Record Group (L : Type) : Type := mkGroup {
  mode : GroupMode;
  members : list (memberConn L);
  lastSchedSeqNo : Z;
  rcvBaseSeqNo : Z;
  balanceIdx : Z;
  balanceMsgNo : Z;
  balNext : Z;
  balStarted : bool;
  balBuf : gmap Z (list Z);
  senderBuf : list bufferedMsg;
  senderBufCap : nat;
  stabTimeout : Z;
  closed : bool;
  mu : bool;
  sentPackets : Z;
  recvPackets : Z;
  recvDedups : Z
}.
Arguments mkGroup {L}.
Arguments mode {L}.
Arguments members {L}.
Arguments lastSchedSeqNo {L}.
Arguments rcvBaseSeqNo {L}.
Arguments balanceIdx {L}.
Arguments balanceMsgNo {L}.
Arguments balNext {L}.
Arguments balStarted {L}.
Arguments balBuf {L}.
Arguments senderBuf {L}.
Arguments senderBufCap {L}.
Arguments stabTimeout {L}.
Arguments closed {L}.
Arguments mu {L}.
Arguments sentPackets {L}.
Arguments recvPackets {L}.
Arguments recvDedups {L}.

Section Fields.
Context {L : Type}.
#[global] Instance eta_gm : Eta (memberConn L) := fun m =>
  mkMember (conn m) (token m) (weight m) (status m) (backupState m) (activeSince m) (lastResponse m) (prevDrops m)
    (unstableSince m) (warySince m) (pendingSince m) (isIdle m).
#[global] Instance fld_gm_conn : Field (@conn L). Proof. derive_field. Defined.
#[global] Instance fld_gm_status : Field (@status L). Proof. derive_field. Defined.
#[global] Instance fld_gm_backupState : Field (@backupState L). Proof. derive_field. Defined.
#[global] Instance fld_gm_activeSince : Field (@activeSince L). Proof. derive_field. Defined.
#[global] Instance fld_gm_lastResponse : Field (@lastResponse L). Proof. derive_field. Defined.
#[global] Instance fld_gm_prevDrops : Field (@prevDrops L). Proof. derive_field. Defined.
#[global] Instance fld_gm_unstableSince : Field (@unstableSince L). Proof. derive_field. Defined.
#[global] Instance fld_gm_warySince : Field (@warySince L). Proof. derive_field. Defined.
#[global] Instance fld_gm_isIdle : Field (@isIdle L). Proof. derive_field. Defined.
#[global] Instance eta_gg : Eta (Group L) := fun g =>
  mkGroup (mode g) (members g) (lastSchedSeqNo g) (rcvBaseSeqNo g) (balanceIdx g) (balanceMsgNo g) (balNext g) (balStarted g)
    (balBuf g) (senderBuf g) (senderBufCap g) (stabTimeout g) (closed g) (mu g) (sentPackets g) (recvPackets g) (recvDedups g).
#[global] Instance fld_gg_members : Field (@members L). Proof. derive_field. Defined.
#[global] Instance fld_gg_lastSchedSeqNo : Field (@lastSchedSeqNo L). Proof. derive_field. Defined.
#[global] Instance fld_gg_rcvBaseSeqNo : Field (@rcvBaseSeqNo L). Proof. derive_field. Defined.
#[global] Instance fld_gg_balanceIdx : Field (@balanceIdx L). Proof. derive_field. Defined.
#[global] Instance fld_gg_balanceMsgNo : Field (@balanceMsgNo L). Proof. derive_field. Defined.
#[global] Instance fld_gg_balNext : Field (@balNext L). Proof. derive_field. Defined.
#[global] Instance fld_gg_balStarted : Field (@balStarted L). Proof. derive_field. Defined.
#[global] Instance fld_gg_balBuf : Field (@balBuf L). Proof. derive_field. Defined.
#[global] Instance fld_gg_senderBuf : Field (@senderBuf L). Proof. derive_field. Defined.
#[global] Instance fld_gg_stabTimeout : Field (@stabTimeout L). Proof. derive_field. Defined.
#[global] Instance fld_gg_closed : Field (@closed L). Proof. derive_field. Defined.
#[global] Instance fld_gg_mu : Field (@mu L). Proof. derive_field. Defined.
#[global] Instance fld_gg_sentPackets : Field (@sentPackets L). Proof. derive_field. Defined.
#[global] Instance fld_gg_recvPackets : Field (@recvPackets L). Proof. derive_field. Defined.
#[global] Instance fld_gg_recvDedups : Field (@recvDedups L). Proof. derive_field. Defined.
End Fields.

Definition NewGroup {L} (m : GroupMode) : Group L :=
  mkGroup m [] (-1) (-1) 0 0 0 false ∅ [] defaultSenderBufCap nsSecond false false 0 0 0.

Inductive groupError : Type :=
| ErrGroupClosed | ErrNoMembers | ErrAllFailed | ErrNoActiveOrStandby | ErrBalancingFailed.

(** What an operation that takes the mutex returns: [None] when it never gets it. *)
Definition locked {L A} (g : Group L) (body : option A) : option A := if mu g then None else body.

Section Operations.
Context {L : Type} {LK : Link L}.
Implicit Types (g : Group L) (mc : memberConn L).

Definition onMember (i : nat) (f : memberConn L -> memberConn L) g : Group L := g <| members ::= alter f i |>.
Definition onConn (i : nat) (f : L -> L) g : Group L := onMember i (fun mc => mc <| conn ::= f |>) g.
Definition bump (n : Z) : Z := u64 (n + 1).

(** ** Health of a backup member *)

Definition isBackupActive (st : BackupState) : bool :=
  match st with BackupActiveFresh | BackupActiveStable | BackupActiveUnstable | BackupActiveWary => true | _ => false end.

Definition isZero (t : Z) : bool := t =? 0.

(** [qualifyBackupState], with the member it leaves (the drop snapshot). *)
Definition qualifyBackupState (stab now : Z) mc : BackupState * memberConn L :=
  if bool_decide (status mc = MemberBroken) then (BackupBroken, mc) else
  if bool_decide (backupState mc = BackupStandby) then (BackupStandby, mc) else
  if isIdle mc && isBackupActive (backupState mc) then (backupState mc, mc) else
  let st := Stats (conn mc) in
  let peerLatency := if NegotiatedLatency st =? 0 then 120 * nsMilli else NegotiatedLatency st in
  let initialTimeout := if peerLatency >? stab then peerLatency else stab in
  let probingPeriod := initialTimeout + 50 * nsMilli in
  let isActivationPhase := negb (isZero (activeSince mc)) && (now - activeSince mc <=? probingPeriod) in
  let stabilityTimeout :=
    if isActivationPhase then initialTimeout else
    let dyn := 2 * RTT st + 4 * RTTVar st in
    let dyn := if dyn <? stab then stab else dyn in
    if dyn >? peerLatency then peerLatency else dyn in
  let last := if activeSince mc >? lastResponse mc then activeSince mc else lastResponse mc in
  if now - last >? stabilityTimeout then (BackupActiveUnstable, mc) else
  let drops := SentDropped st >? prevDrops mc in
  let mc := if drops then mc <| prevDrops := SentDropped st |> else mc in
  if drops && negb isActivationPhase then (BackupActiveUnstable, mc) else
  if isActivationPhase then (BackupActiveFresh, mc) else
  let isWary := negb (isZero (warySince mc)) in
  let isWaryProbing := isWary && (now - warySince mc <=? 4 * peerLatency) in
  let isUnstable := negb (isZero (unstableSince mc)) in
  if isUnstable && negb isWary then (BackupActiveWary, mc) else
  if isWaryProbing then (BackupActiveWary, mc) else (BackupActiveStable, mc).

Definition clearSince mc : memberConn L := mc <| activeSince := 0 |> <| unstableSince := 0 |> <| warySince := 0 |>.

Definition assignBackupState (st : BackupState) (now : Z) mc : memberConn L :=
  let mc := mc <| backupState := st |> in
  match st with
  | BackupStandby | BackupBroken | BackupActiveStable => clearSince mc
  | BackupActiveFresh =>
      (if isZero (activeSince mc) then mc <| activeSince := now |> else mc) <| unstableSince := 0 |> <| warySince := 0 |>
  | BackupActiveUnstable =>
      (if isZero (unstableSince mc) then mc <| unstableSince := now |> else mc) <| activeSince := 0 |> <| warySince := 0 |>
  | BackupActiveWary => if isZero (warySince mc) then mc <| warySince := now |> else mc
  end.

Definition requalify (stab now : Z) mc : memberConn L :=
  let '(st, mc) := qualifyBackupState stab now mc in assignBackupState st now mc.

Definition brokenMember (m : GroupMode) mc : memberConn L :=
  let mc := mc <| status := MemberBroken |> in
  match m with GroupBackup => mc <| backupState := BackupBroken |> | _ => mc end.
Definition markBroken (i : nat) g : Group L := onMember i (brokenMember (mode g)) g.

Definition allBroken g : bool := forallb (fun mc => bool_decide (status mc = MemberBroken)) (members g).

(** ** Membership *)

Definition getGroupTimeBase g : option Tsbpd.GroupTimeBase :=
  foldr (fun mc rest => if bool_decide (status mc = MemberBroken) then rest else
                        match TSBPDTimeBase (conn mc) with Some tb => Some tb | None => rest end) None (members g).

(** A new member takes the group's time base and its scheduling sequence. *)
Definition joinTime g (c : L) : L := match getGroupTimeBase g with Some tb => ApplyGroupTime tb c | None => c end.
Definition joinSeq g (c : L) : L * Group L :=
  if negb (lastSchedSeqNo g =? -1) && negb (PeerGroupID c =? 0) then (OverrideSndSeqNo (lastSchedSeqNo g) c, g)
  else if lastSchedSeqNo g =? -1 then (c, g <| lastSchedSeqNo := SchedSeqNo c |>)
  else (c, g).

Definition AddConn (now : Z) (c : L) (tok w : Z) g : option (result groupError (Group L)) :=
  if closed g then Some (Err ErrGroupClosed) else locked g
  (let '(c, g) := joinSeq g (joinTime g c) in
   Some (Ok (g <| members ::= fun l => l ++ [mkMember c tok w MemberIdle BackupStandby 0 now 0 0 0 0 false] |>))).

Definition AddPendingConn (now : Z) (c : L) (tok w : Z) g : option (result groupError (Group L)) :=
  if closed g then Some (Err ErrGroupClosed) else locked g
  (Some (Ok (g <| members ::= fun l => l ++ [mkMember c tok w MemberPending BackupStandby 0 now 0 0 0 now false] |>))).

Definition removeBrokenMembers (now : Z) g : Group L :=
  g <| members ::= List.filter (fun mc => negb (bool_decide (status mc = MemberBroken) && (now - lastResponse mc >? 10 * nsSecond))) |>.

(** ** The replay buffer *)

Definition maxACK g : Z :=
  fold_left (fun m mc => if bool_decide (status mc = MemberBroken) then m else Z.max m (loadLastACKSeq (conn mc))) (members g) (-1).

Fixpoint dropBefore (ack : Z) (buf : list bufferedMsg) : list bufferedMsg :=
  match buf with
  | [] => []
  | m :: rest => if Seq.LessThan (b_seqNo m) ack then dropBefore ack rest else buf
  end.

Definition pruneAckedMessages g : Group L := if maxACK g <? 0 then g else g <| senderBuf ::= dropBefore (maxACK g) |>.

Definition bufferMsg (b : list Z) (srcTime msgNo : Z) g : Group L :=
  let g := pruneAckedMessages g in
  let buf := senderBuf g ++ [mkMsg (u32 (lastSchedSeqNo g)) msgNo srcTime b] in
  g <| senderBuf := drop (length buf - senderBufCap g) buf |>.

Definition replayOne (c : L) (m : bufferedMsg) : L :=
  let c := if negb (b_srcTime m =? 0) then setGroupSrcTime (b_srcTime m) c else c in
  let c := snd (Write_ (b_data m) c) in
  if negb (b_srcTime m =? 0) then clearGroupSrcTime c else c.
Definition replaySenderBuf (i : nat) g : Group L := onConn i (fun c => fold_left replayOne (senderBuf g) c) g.

(** ** Writing *)

(** The running totals of a write over several links. *)
Record progress : Type := mkProgress { nsuccessful : Z; failed : bool; written : Z; curseq : Z; msgNo : Z }.

(** Writes [b] on link [i]; [sync] is the override of its sequence number. *)
Definition writeOn (b : list Z) (sync : Z -> L -> bool) (promote : memberConn L -> memberConn L) (i : nat) (st : progress * Group L) : progress * Group L :=
  let '(pr, g) := st in
  match members g !! i with
  | None => st
  | Some mc =>
      let c := conn mc in
      let c := if sync (curseq pr) c then OverrideSndSeqNo (curseq pr) c else c in
      let '(r, c) := Write_ b c in
      let g := onConn i (fun _ => c) g in
      match r with
      | None => (mkProgress (nsuccessful pr) true (written pr) (curseq pr) (msgNo pr), markBroken i g)
      | Some n =>
          let g := (onMember i promote g) <| sentPackets ::= bump |> in
          let first := curseq pr =? -1 in
          (mkProgress (nsuccessful pr + 1) (failed pr) n (if first then SchedSeqNo c else curseq pr)
             (if first then LastMsgNo c else msgNo pr), g)
      end
  end.

Definition indices (p : memberConn L -> bool) g : list nat :=
  omap (fun '(i, mc) => if p mc then Some i else None) (imap pair (members g)).
Definition onAll (f : L -> L) (is_ : list nat) g : Group L := fold_left (fun g i => onConn i f g) is_ g.
Definition timestampOf (is_ : list nat) g : Z :=
  match is_ with i :: _ => match members g !! i with Some mc => CurrentSRTTimestamp (conn mc) | None => 0 end | [] => 0 end.

Definition neverSync (_ : Z) (_ : L) : bool := false.
(** Only a group-aware peer has its sequence overridden, and only when it differs. *)
Definition syncDiffers (cur : Z) (c : L) : bool := negb (cur =? -1) && negb (PeerGroupID c =? 0) && negb (cur =? SchedSeqNo c).
Definition start : progress := mkProgress 0 false 0 (-1) 0.

Definition isRunning mc : bool := bool_decide (status mc = MemberRunning).
Definition isIdleStatus mc : bool := bool_decide (status mc = MemberIdle).

Definition writeBroadcast (b : list Z) g : option (result groupError Z * Group L) :=
  locked g (
  let act := indices isRunning g in
  let idle := indices isIdleStatus g in
  match act ++ idle with
  | [] => Some (Err ErrNoMembers, g)
  | all =>
      let g := onAll (setGroupSrcTime (timestampOf all g)) all g in
      let st := fold_left (fun st i => writeOn b neverSync id i st) act (start, g) in
      let '(pr, g) := fold_left (fun st i => writeOn b syncDiffers (fun mc => mc <| status := MemberRunning |>) i st) idle st in
      let g := if curseq pr =? -1 then g else g <| lastSchedSeqNo := curseq pr |> in
      let g := onAll clearGroupSrcTime all g in
      Some (if nsuccessful pr =? 0 then Err ErrAllFailed else Ok (written pr), g)
  end).

(** *** Backup *)

Definition isActiveMember mc : bool := isRunning mc && isBackupActive (backupState mc).
Definition isStandbyMember mc : bool := isIdleStatus mc || (isRunning mc && bool_decide (backupState mc = BackupStandby)).
Definition maxWeight (p : memberConn L -> bool) g : Z :=
  fold_left (fun w mc => if p mc then Z.max w (weight mc) else w) (members g) 0.

(** [slices.SortFunc] by descending weight. *)
Definition weightOf g (i : nat) : Z := match members g !! i with Some mc => weight mc | None => 0 end.
Fixpoint insertByWeight g (i : nat) (l : list nat) : list nat :=
  match l with
  | [] => [i]
  | j :: rest => if weightOf g j <? weightOf g i then i :: l else j :: insertByWeight g i rest
  end.
Definition sortByWeight g (l : list nat) : list nat := fold_left (fun acc i => insertByWeight g i acc) l [].

Definition activated (now : Z) mc : memberConn L :=
  mc <| status := MemberRunning |> <| backupState := BackupActiveFresh |> <| activeSince := now |> <| lastResponse := now |>.

(** Tries the standby links in turn until one takes the message. *)
Fixpoint activateStandby (now : Z) (b : list Z) (srctime rate : Z) (is_ : list nat) (pr : progress) g : progress * Group L :=
  match is_ with
  | [] => (pr, g)
  | i :: rest =>
      let prep c :=
        let c := if negb (curseq pr =? -1) && negb (PeerGroupID c =? 0) then OverrideSndSeqNo (curseq pr) c else c in
        if rate >? 0 then setRateEstimate rate c else c in
      let g := onConn i prep g in
      let g := if nsuccessful pr =? 0 then replaySenderBuf i g else g in
      let '(pr', g) := writeOn b neverSync (activated now) i (pr, g) in
      if nsuccessful pr' =? nsuccessful pr then activateStandby now b srctime rate rest pr' g else
      let g := if curseq pr =? -1 then (bufferMsg b srctime (msgNo pr') g) <| lastSchedSeqNo := curseq pr' |> else g in
      (pr', g)
  end.

(** The stable member with the highest weight, the first of several. *)
Definition bestStable g : option (memberConn L) :=
  fold_left (fun best mc =>
    if isActiveMember mc && bool_decide (backupState mc = BackupActiveStable) then
      match best with None => Some mc | Some b => if weight mc >? weight b then Some mc else best end
    else best) (members g) None.

Definition shouldSilence (best mc : memberConn L) : bool :=
  isActiveMember mc && negb (token mc =? token best) &&
  (bool_decide (backupState mc = BackupActiveStable) || (weight mc <=? weight best)).

(** The function returns with the mutex taken again, unless it returned early. *)
Definition silenceRedundantLinks (now : Z) g : Group L :=
  match bestStable g with
  | None => g
  | Some best =>
      g <| members ::= map (fun mc => if shouldSilence best mc
                                      then (assignBackupState BackupStandby now mc) <| conn ::= SendKeepAlive |> else mc) |>
        <| mu := true |>
  end.

Definition writeBackup (now : Z) (b : list Z) g : option (result groupError Z * Group L) :=
  locked g (
  let g := g <| members ::= map (fun mc => if isRunning mc && negb (bool_decide (backupState mc = BackupStandby))
                                           then requalify (stabTimeout g) now mc else mc) |> in
  let act := indices isActiveMember g in
  let standby := indices isStandbyMember g in
  let maxActive := maxWeight isActiveMember g in
  let maxStandby := maxWeight isStandbyMember g in
  let all := act ++ standby in
  let srctime := timestampOf all g in
  let g := onAll (setGroupSrcTime srctime) all g in
  let rate := match act with i :: _ => match members g !! i with Some mc => getRateEstimate (conn mc) | None => 0 end | [] => 0 end in
  let '(pr, g) := fold_left (fun st i => writeOn b syncDiffers id i st) act (start, g) in
  let g := if curseq pr =? -1 then g else (bufferMsg b srctime (msgNo pr) g) <| lastSchedSeqNo := curseq pr |> in
  let need := (nsuccessful pr =? 0) || (maxActive <? maxStandby) in
  let '(pr, g) := if need then activateStandby now b srctime rate (sortByWeight g standby) pr g else (pr, g) in
  let g := silenceRedundantLinks now g in
  let g := onAll clearGroupSrcTime all g in
  Some (if nsuccessful pr =? 0 then Err (if failed pr then ErrAllFailed else ErrNoActiveOrStandby) else Ok (written pr), g)).

(** *** Balancing *)

Definition nextGroupMsgNo (n : Z) : Z :=
  let n := Z.land (u32 (n + 1)) 0x03FFFFFF in if n =? 0 then 1 else n.
Definition groupMsgAhead (a b : Z) : bool := Z.land (u32 (a - b)) 0x03FFFFFF <? Z.shiftl 1 25.

Fixpoint balance_loop (attempts : nat) (ms : list nat) (b : list Z) g : result groupError Z * Group L :=
  match attempts with
  | O => (Err ErrBalancingFailed, g)
  | S attempts =>
      let i := nth (Z.to_nat (balanceIdx g mod len ms)) ms 0%nat in
      let g := g <| balanceIdx ::= fun n => n + 1 |> in
      match members g !! i with
      | None => (Err ErrBalancingFailed, g)
      | Some mc =>
          let '(r, c) := writeBalanced b (balanceMsgNo g) (conn mc) in
          let g := onConn i (fun _ => c) g in
          match r with
          | None => balance_loop attempts ms b (markBroken i g)
          | Some n => (Ok n, g <| balanceMsgNo ::= nextGroupMsgNo |> <| sentPackets ::= bump |>)
          end
      end
  end.

Definition writeBalancing (b : list Z) g : option (result groupError Z * Group L) :=
  locked g (
  let ms := indices (fun mc => isRunning mc || isIdleStatus mc) g in
  match ms with
  | [] => Some (Err ErrNoMembers, g)
  | _ => Some (balance_loop (length ms) ms b (if balanceMsgNo g =? 0 then g <| balanceMsgNo := 1 |> else g))
  end).

Definition Write (now : Z) (b : list Z) g : option (result groupError Z * Group L) :=
  if closed g then Some (Err ErrGroupClosed, g) else
  match mode g with
  | GroupBroadcast => writeBroadcast b g
  | GroupBackup => writeBackup now b g
  | GroupBalancing => writeBalancing b g
  end.

(** ** Reading *)

(** What a member's receive loop puts into the channel. *)
Inductive recvResult : Type :=
| RecvErr
| RecvData (seqNo msgNo : Z) (data : list Z).

Inductive readOutcome : Type := Delivered (data : list Z) | ReadFailed | ReadOn.

(** What the [select] of a read finds ready: a result in the channel, the timer
    of a balancing read, or the end of the group. *)
Inductive readInput : Type :=
| Result (r : recvResult)
| Deadline
| Done.

(** One round of the loop of [Read] in broadcast and backup mode. *)
Definition readStep (i : readInput) g : readOutcome * Group L :=
  match i with
  | Done => (ReadFailed, g)
  | Deadline => (ReadOn, g)
  | Result RecvErr => (if allBroken g then ReadFailed else ReadOn, g)
  | Result (RecvData seqNo _ data) =>
      let base := rcvBaseSeqNo g in
      let diff := i64 (seqNo - base) in
      if (base >=? 0) && (diff <=? 0) then (ReadOn, g <| recvDedups ::= bump |>)
      else (Delivered data, g <| rcvBaseSeqNo := seqNo |> <| recvPackets ::= bump |>)
  end.

(** What a read comes to: an outcome and the inputs it has left, or it waits
    ([None]) when it has used all of them. *)
Definition readResult : Type := option (readOutcome * list readInput) * Group L.

Fixpoint readFrom (step : readInput -> Group L -> readOutcome * Group L) (is_ : list readInput) g : readResult :=
  match is_ with
  | [] => (None, g)
  | i :: is_ =>
      match step i g with
      | (ReadOn, g) => readFrom step is_ g
      | (o, g) => (Some (o, is_), g)
      end
  end.

(** *** Balancing *)

(** The buffered number closest ahead of [balNext]; numbers differ, so no two are
    at the same distance and the order of the map does not matter. *)
Definition distAhead (next m : Z) : Z := Z.land (u32 (m - next)) 0x03FFFFFF.
Definition closer (next : Z) (best : Z * Z) (m : Z) : Z * Z :=
  let d := distAhead next m in if d <? snd best then (m, d) else best.
Definition earliestBuffered g : Z :=
  fst (fold_left (closer (balNext g)) (map_to_list (balBuf g)).*1 (0, Z.shiftl 1 26 + 1)).

Definition balWindow g : Z :=
  let w := 4 * fold_left (fun m mc => Z.max m (Latency (conn mc))) (members g) 0 in
  let w := if w <? 100 * nsMilli then 100 * nsMilli else w in
  if w >? 2 * nsSecond then 2 * nsSecond else w.

(** The gathering of the first burst, with the inputs left when the window ends
    ([ReadOn]) or it fails; the timer runs from the first message ([armed]). *)
Fixpoint balAnchor (is_ : list readInput) (armed : bool) g : readResult :=
  match is_ with
  | [] => (None, g)
  | Done :: is_ => (Some (ReadFailed, is_), g)
  | Deadline :: is_ => if armed then (Some (ReadOn, is_), g <| balStarted := true |>) else balAnchor is_ armed g
  | Result RecvErr :: is_ => if allBroken g then (Some (ReadFailed, is_), g) else balAnchor is_ armed g
  | Result (RecvData _ m data) :: is_ =>
      let g := g <| balBuf ::= <[m := data]> |> in
      let g := if negb armed then g <| balNext := m |>
               else if negb (groupMsgAhead m (balNext g)) then g <| balNext := m |> else g in
      balAnchor is_ true g
  end.

(** The message that is due and buffered, if it is. *)
Definition balDue g : option (list Z * Group L) :=
  match balBuf g !! balNext g with
  | Some data =>
      Some (data, g <| balBuf ::= delete (balNext g) |> <| balNext ::= nextGroupMsgNo |> <| recvPackets ::= bump |>)
  | None => None
  end.

(** The [select] of the loop; the timer runs only while messages are buffered. *)
Definition balStep (i : readInput) g : readOutcome * Group L :=
  match i with
  | Done => (ReadFailed, g)
  | Deadline => (ReadOn, if bool_decide (balBuf g = ∅) then g else g <| balNext := earliestBuffered g |>)
  | Result RecvErr => (if allBroken g then ReadFailed else ReadOn, g)
  | Result (RecvData _ m data) =>
      if m =? balNext g then (Delivered data, g <| balNext ::= nextGroupMsgNo |> <| recvPackets ::= bump |>)
      else if negb (groupMsgAhead m (balNext g)) then (ReadOn, g <| recvDedups ::= bump |>)
      else
        let g := g <| balBuf ::= <[m := data]> |> in
        (ReadOn, if Nat.ltb balanceReorderMax (size (balBuf g)) then g <| balNext := earliestBuffered g |> else g)
  end.

(** The loop: the due message first, else the next input. *)
Fixpoint balLoop (is_ : list readInput) g : readResult :=
  match balDue g with
  | Some (data, g) => (Some (Delivered data, is_), g)
  | None =>
      match is_ with
      | [] => (None, g)
      | i :: is_ =>
          match balStep i g with
          | (ReadOn, g) => balLoop is_ g
          | (o, g) => (Some (o, is_), g)
          end
      end
  end.

Definition readBalancing (is_ : list readInput) g : readResult :=
  if balStarted g then balLoop is_ g else
  match balAnchor is_ false g with
  | (Some (ReadOn, is_), g) => balLoop is_ g
  | r => r
  end.

Definition Read (is_ : list readInput) g : readResult :=
  if closed g then (Some (ReadFailed, is_), g) else
  match mode g with
  | GroupBalancing => readBalancing is_ g
  | _ => readFrom readStep is_ g
  end.

(** ** Monitoring *)

(** A pending member whose handshake is done joins; one that takes too long breaks. *)
Definition checkPending (now : Z) (i : nat) mc g : Group L :=
  if isConnected (conn mc) then
    let mc := mc <| status := MemberIdle |> in
    let mc := match mode g with GroupBackup => mc <| backupState := BackupStandby |> | _ => mc end in
    let mc := mc <| lastResponse := now |> in
    let others := g <| members := take i (members g) ++ drop (S i) (members g) |> in
    let '(c, g) := joinSeq g (joinTime others (conn mc)) in
    onMember i (fun _ => mc <| conn := c |>) g
  else if negb (isZero (pendingSince mc)) && (now - pendingSince mc >? pendingTimeout)
  then onMember i (brokenMember (mode g)) g
  else g.

(** The health of a connected member; says whether it counts as active. *)
Definition checkRunning (now : Z) (m : GroupMode) (stab : Z) mc : bool * memberConn L :=
  let mc := if groupIdle (conn mc) then mc <| isIdle := true |> <| lastResponse := now |> else mc in
  if bool_decide (m = GroupBackup) && isRunning mc then
    let mc := requalify stab now mc in
    match backupState mc with
    | BackupActiveStable | BackupActiveFresh | BackupActiveWary => (true, mc)
    | BackupActiveUnstable =>
        let idleTimeout := if peerIdleTimeout (conn mc) =? 0 then 5 * nsSecond else peerIdleTimeout (conn mc) in
        (true, if negb (isZero (unstableSince mc)) && (now - unstableSince mc >? idleTimeout)
               then mc <| status := MemberBroken |> <| backupState := BackupBroken |> else mc)
    | BackupBroken => (false, mc <| status := MemberBroken |>)
    | BackupStandby => (false, mc)
    end
  else (false, mc).

Definition checkMember (now : Z) (st : bool * Group L) (i : nat) : bool * Group L :=
  let '(hasActive, g) := st in
  match members g !! i with
  | None => st
  | Some mc =>
      match status mc with
      | MemberBroken => st
      | MemberPending => (hasActive, checkPending now i mc g)
      | _ => let '(a, mc) := checkRunning now (mode g) (stabTimeout g) mc in (hasActive || a, onMember i (fun _ => mc) g)
      end
  end.

(** The standby with the highest weight, the first of several. *)
Definition bestStandby g : option nat :=
  fst <$> fold_left (fun best '(i, mc) =>
    if isStandbyMember mc then match best with None => Some (i, mc) | Some (_, b) => if weight mc >? weight b then Some (i, mc) else best end
    else best) (imap pair (members g)) None.
Definition activateBestStandby (now : Z) g : Group L :=
  match bestStandby g with Some i => onMember i (activated now) g | None => g end.

Definition checkMembers (now : Z) g : option (Group L) :=
  locked g (
  let '(hasActive, g) := fold_left (checkMember now) (seq 0 (length (members g))) (false, g) in
  let g := if bool_decide (mode g = GroupBackup) && negb hasActive then activateBestStandby now g else g in
  Some (removeBrokenMembers now g)).

(** ** Alignment of the members *)

(** A result has arrived on member [i]. *)
Definition noteReceived (now : Z) mc : memberConn L :=
  let mc := mc <| lastResponse := now |> in
  let mc := if isIdleStatus mc then mc <| status := MemberRunning |> else mc in
  mc <| isIdle := false |>.

Definition updateLatestRcv (i : nat) g : Group L :=
  match mode g, members g !! i with
  | GroupBackup, Some source =>
      let srcLastAck := loadLastACKSeq (conn source) in
      let srcBufStart := RcvBufStartSeq (conn source) in
      let newLastRcv := if Seq.GreaterThan srcBufStart srcLastAck then srcBufStart else srcLastAck in
      let follow mc :=
        if bool_decide (status mc = MemberBroken) then mc
        else if negb (isIdle mc) && negb (isIdleStatus mc) then mc
        else if negb (RcvBufEmpty (conn mc)) then mc
        else if negb (Seq.GreaterThan newLastRcv (loadLastACKSeq (conn mc))) then mc
        else mc <| conn ::= ResetRecvState newLastRcv |> in
      g <| members ::= imap (fun j mc => if Nat.eqb j i then mc else follow mc) |>
  | _, _ => g
  end.

(** One round of [memberRecvLoop]: what the member's read returned, with the
    results it puts into the channel. *)
Definition memberRecvLoop (now : Z) (i : nat) (read : option (Z * Z * list Z)) g : option (list recvResult * Group L) :=
  match read with
  | None => if closed g then Some ([], g) else locked g (Some ([RecvErr], markBroken i g))
  | Some (pktSeq, msgNo, data) =>
      locked g (Some ([RecvData pktSeq msgNo data], updateLatestRcv i (onMember i (noteReceived now) g)))
  end.

(** [src] is the connection whose drift is taken, [who] its place in the group. *)
Definition SynchronizeDrift (src : L) (who : option nat) g : option (Group L) :=
  match TSBPDTimeBase src with
  | None => Some g
  | Some tb =>
      locked g (Some (if Nat.leb (length (members g)) 1 then g else
        g <| members ::= imap (fun j mc => if bool_decide (who = Some j) || bool_decide (status mc = MemberBroken) then mc
                                            else mc <| conn ::= ApplyGroupDrift tb |>) |>))
  end.

Definition RTT_ g : option Z :=
  locked g (
  let best := fold_left (fun m mc => let r := RTT (Stats (conn mc)) in
                          if isRunning mc && (r >? 0) && (r <? m) then r else m) (members g) (2 ^ 63 - 1) in
  Some (if best =? 2 ^ 63 - 1 then 0 else best)).

(** [Close] sets the flag before it asks for the mutex. *)
Definition Close g : option (Group L) :=
  if closed g then Some g else
  let g := g <| closed := true |> in
  locked g (Some (g <| members ::= map (fun mc => mc <| conn ::= Close_ |>) |>)).
Record GroupStats : Type := mkGroupStats { Members : nat; ActiveMembers : nat; SentPackets : Z; RecvPackets : Z; RecvDedups : Z }.
Definition Stats_ g : option GroupStats :=
  locked g (Some (mkGroupStats (length (members g)) (length (List.filter isRunning (members g)))
                    (sentPackets g) (recvPackets g) (recvDedups g))).
Definition findActive g : option (memberConn L) :=
  List.find (fun mc => isRunning mc && negb (bool_decide (backupState mc = BackupStandby)) && negb (bool_decide (backupState mc = BackupBroken))) (members g).
Definition SetStabilityTimeout (d : Z) g : Group L := g <| stabTimeout := d |>.

End Operations.

Section Properties.
Context {L : Type} {LK : Link L}.
Implicit Types (g : Group L) (mc : memberConn L).

(** ** The mutex *)

(** What changes only the connections of members. *)
Definition sameHealth (l l' : list (memberConn L)) : Prop :=
  Forall2 (fun mc mc' => status mc' = status mc /\ backupState mc' = backupState mc) l l'.

Lemma sameHealth_refl l : sameHealth l l.
Proof. induction l; constructor; [done|done]. Qed.

Lemma sameHealth_trans l1 l2 l3 : sameHealth l1 l2 -> sameHealth l2 l3 -> sameHealth l1 l3.
Proof.
  intros H12. revert l3. induction H12 as [|x y l l' [E1 E2] _ IH]; intros l3 H23; inversion H23 as [|? z ? l'' [E3 E4] H3]; subst; constructor.
  - split; congruence.
  - by apply IH.
Qed.

Lemma onConn_health i f g : sameHealth (members g) (members (onConn i f g)) /\ mu (onConn i f g) = mu g.
Proof.
  split; [|done]. unfold onConn, onMember. fields. unfold sameHealth. revert i. induction (members g) as [|mc l IH]; intros i; [constructor|].
  destruct i as [|i]; simpl; constructor; try done; [apply sameHealth_refl|apply IH].
Qed.

Lemma onAll_health f is_ : forall g, sameHealth (members g) (members (onAll f is_ g)) /\ mu (onAll f is_ g) = mu g.
Proof.
  induction is_ as [|i is_ IH]; intros g; [split; [apply sameHealth_refl|done]|]. simpl.
  destruct (onConn_health i f g) as [H1 H2]. destruct (IH (onConn i f g)) as [H3 H4]. split; [by eapply sameHealth_trans|congruence].
Qed.

(** A stable member keeps the group from being without one. *)
Definition stableMember mc : Prop := isActiveMember mc = true /\ backupState mc = BackupActiveStable.

Lemma stable_fold l : forall best,
  fold_left (fun best mc =>
    if isActiveMember mc && bool_decide (backupState mc = BackupActiveStable) then
      match best with None => Some mc | Some b => if weight mc >? weight b then Some mc else best end
    else best) l best = None -> best = None /\ forall mc, mc ∈ l -> ~ stableMember mc.
Proof.
  induction l as [|mc l IH]; intros best H; [split; [done|]; intros mc Hm; by apply not_elem_of_nil in Hm|].
  simpl in H. apply IH in H as [H1 H2]. destruct (isActiveMember mc && _) eqn:E.
  - destruct best as [b|]; [|done]. by destruct (weight mc >? weight b).
  - split; [done|]. intros m [->|Hm]%elem_of_cons; [|by apply H2]. intros [Ha Hs]. rewrite Ha, bool_decide_true in E by done. done.
Qed.

Lemma stable_health l l' mc' : sameHealth l l' -> mc' ∈ l' -> stableMember mc' -> exists mc, mc ∈ l /\ stableMember mc.
Proof.
  induction 1 as [|mc m' l l' [E1 E2] _ IH]; intros Hin Hs; [by apply not_elem_of_nil in Hin|].
  apply elem_of_cons in Hin as [->|Hin].
  - exists mc. split; [by left|]. unfold stableMember, isActiveMember, isRunning in *. by rewrite <- E1, <- E2.
  - destruct (IH Hin Hs) as (m & Hm & Hst). exists m. split; [by right|done].
Qed.

Lemma silence_mu now g : bestStable g <> None -> mu (silenceRedundantLinks now g) = true.
Proof. unfold silenceRedundantLinks. destruct (bestStable g); [done|congruence]. Qed.

(** Every operation that takes the mutex waits for ever once it is left locked. *)
Definition stuck g : Prop :=
  (forall now b, writeBackup now b g = None) /\ (forall b, writeBroadcast b g = None) /\ (forall b, writeBalancing b g = None) /\
  (forall now, checkMembers now g = None) /\ (forall now i r, memberRecvLoop now i (Some r) g = None) /\ RTT_ g = None /\ Stats_ g = None /\
  (closed g = false -> Close g = None /\ forall now c t w, AddConn now c t w g = None).

Lemma mu_stuck g : mu g = true -> stuck g.
Proof.
  intros H. unfold stuck, writeBackup, writeBroadcast, writeBalancing, checkMembers, memberRecvLoop, RTT_, Stats_, Close, AddConn, locked. rewrite H.
  split_and!; try done; [by intros ? ? [[??]?]|]. intros Hc. rewrite Hc. fields. by rewrite H.
Qed.

(** A backup write after which a member is stable never gives the mutex back: every
    later write, read loop, monitor round, statistics query, new member and the
    close of the group wait for it forever. *)
Theorem group_backup_deadlock (now : Z) (b : list Z) (g g' : Group L) (r : result groupError Z) (mc : memberConn L) :
  writeBackup now b g = Some (r, g') -> mc ∈ members g' -> stableMember mc -> mu g' = true /\ stuck g'.
Proof.
  unfold writeBackup, locked. destruct (mu g); [done|]. cbv zeta.
  destruct (fold_left _ (indices isActiveMember _) _) as [pr g1]. set (g2 := if curseq pr =? -1 then g1 else _).
  match goal with |- context [let '(_, _) := ?e in _] => destruct e as [pr3 g3] end.
  intros E Hin Hs. enough (Hmu : mu g' = true) by (split; [done|by apply mu_stuck]).
  injection E as _ <-.
  match goal with |- mu (onAll ?f ?l ?G) = _ => destruct (onAll_health f l G) as [Hh ->] end.
  destruct (stable_health _ _ _ Hh Hin Hs) as (m & Hm & Hst). apply silence_mu. intros Hb.
  unfold silenceRedundantLinks in Hm. rewrite Hb in Hm. unfold bestStable in Hb. apply stable_fold in Hb as [_ Hb]. by apply (Hb m).
Qed.

(** ** Deduplication by [Read] *)

(** A result is delivered only with a number above every number delivered so far. *)
Lemma readStep_above i g d g' : rcvBaseSeqNo g < 2 ^ 32 -> (forall s m x, i = Result (RecvData s m x) -> 0 <= s < 2 ^ 32) ->
  -1 <= rcvBaseSeqNo g -> readStep i g = (Delivered d, g') ->
  exists s m, i = Result (RecvData s m d) /\ rcvBaseSeqNo g < s /\ rcvBaseSeqNo g' = s.
Proof.
  intros Hb Hr H1. destruct i as [[|s m x]| |]; simpl; [by destruct (allBroken g)| |done|done].
  specialize (Hr s m x eq_refl). destruct ((rcvBaseSeqNo g >=? 0) && (i64 (s - rcvBaseSeqNo g) <=? 0)) eqn:E; [done|].
  intros [= <- <-]. exists s, m. split; [done|]. split; [|done].
  rewrite i64_id in E by (unfold is_i64; lia). apply andb_false_iff in E as [E|E]; lia.
Qed.

(** Once the last number before the wrap has been delivered, nothing is any more:
    the comparison is documented to wrap but is the plain difference. *)
Theorem group_read_stalls_at_wrap (is_ : list readInput) (g : Group L) :
  closed g = false -> mode g <> GroupBalancing -> rcvBaseSeqNo g = Seq.Max -> allBroken g = false -> Done ∉ is_ ->
  (forall s m x, Result (RecvData s m x) ∈ is_ -> Seq.is_seq s) -> fst (Read is_ g) = None.
Proof.
  intros Hc Hm Hb Ha Hd Hr. unfold Read. rewrite Hc. destruct (mode g) eqn:Em; [| |done].
  all: clear Hc Hm Em; revert g Hb Ha; induction is_ as [|i is_ IH]; intros g Hb Ha; [done|].
  all: assert (Hr' : forall s m x, Result (RecvData s m x) ∈ is_ -> Seq.is_seq s) by (intros s m x H; apply (Hr s m x); by right).
  all: assert (Hd' : Done ∉ is_) by (intros H; apply Hd; by right).
  all: specialize (IH Hd' Hr'); destruct i as [[|s m x]| |]; cbn [readFrom readStep]; [rewrite Ha; by apply IH| |by apply IH|by destruct Hd; left].
  all: assert (Hs : Seq.is_seq s) by (apply (Hr s m x); by left); unfold Seq.is_seq, Seq.Max in *.
  all: rewrite Hb, i64_id by (unfold is_i64; lia).
  all: assert ((0x7FFFFFFF >=? 0) && (s - 0x7FFFFFFF <=? 0) = true) as -> by (apply andb_true_iff; split; lia).
  all: apply IH; [done|by fields].
Qed.

End Properties.

(** ** Examples *)

(** A link that accepts every message, known by its next sequence number. *)
#[local] Instance countingLink : Link Z := {|
  Write_ b c := (Some (len b), Seq.Inc c); writeBalanced b _ c := (Some (len b), Seq.Inc c);
  SchedSeqNo c := c; OverrideSndSeqNo s _ := s; PeerGroupID _ := 0; CurrentSRTTimestamp _ := 1;
  setGroupSrcTime _ c := c; clearGroupSrcTime c := c; getRateEstimate _ := 0; setRateEstimate _ c := c;
  LastMsgNo _ := 1; loadLastACKSeq c := c; SendKeepAlive c := c; isConnected _ := true; groupIdle _ := false;
  peerIdleTimeout _ := 0; Latency _ := 0; Stats _ := mkStats 0 0 0 0; TSBPDTimeBase _ := None;
  ApplyGroupTime _ c := c; ApplyGroupDrift _ c := c; RcvBufStartSeq c := c; RcvBufEmpty _ := true;
  ResetRecvState s _ := s; Close_ c := c
|}.

Definition stableMember0 : memberConn Z := mkMember 100 1 50 MemberRunning BackupActiveStable 0 1000 0 0 0 0 false.
Definition backupGroup : Group Z := (NewGroup GroupBackup) <| members := [stableMember0] |>.
Definition writtenGroup : Group Z := match writeBackup 2000 [7] backupGroup with Some (_, g) => g | None => backupGroup end.
Definition readingGroup : Group Z := backupGroup <| rcvBaseSeqNo := Seq.Max |>.

Lemma group_backup_deadlock_witness : stuck writtenGroup /\ mu backupGroup = false.
Proof.
  split; [|done].
  refine (proj2 (group_backup_deadlock 2000 [7] backupGroup writtenGroup (Ok 1) (stableMember0 <| conn := 101 |>) _ _ _)).
  - vm_compute. reflexivity.
  - vm_compute. left.
  - split; vm_compute; reflexivity.
Defined.

Lemma group_read_stalls_at_wrap_witness : fst (Read [Result (RecvData 0 1 [1]); Deadline; Result (RecvData 1 2 [2])] readingGroup) = None.
Proof.
  apply (group_read_stalls_at_wrap _ readingGroup); [done|done|done|done| |].
  - intros H. repeat (apply elem_of_cons in H as [H|H]; [done|]). by apply not_elem_of_nil in H.
  - intros s m x H. unfold Seq.is_seq. repeat (apply elem_of_cons in H as [H|H]; [by simplify_eq|]). by apply not_elem_of_nil in H.
Defined.

End SrtGroup.
