(* ===== verification/SrtBalance.v ===== *)
(** * Order across the links of a balancing group ([group.go])

    A balancing group spreads the messages of one stream over independent links
    and puts them back in order at the other end by the 26-bit number each
    carries.  Here the stream is [msg], message [p] of it carries [num p], and the
    inputs of the receiving group are whatever order the links deliver in, with
    time-outs and link failures anywhere between. *)
From Stdlib Require Import ZArith Lia Sorting.Sorted.
From stdpp Require Import base numbers list option gmap fin_maps.
From S2P Require Import Prelude Seq Tsbpd SrtGroup.
Local Open Scope Z_scope.

Module SrtBalance.
Import SrtGroup.

(** ** Group message numbers *)

(** The numbers run from 1 to [2^26 - 1] and start again at 1. *)
Definition cycle : Z := 2 ^ 26 - 1.
Definition num (p : Z) : Z := 1 + p mod cycle.
(** How far apart two messages in flight may be for their numbers to tell which
    is ahead. *)
Definition reach : Z := 2 ^ 25 - 1.

Lemma num_range p : 1 <= num p < 2 ^ 26.
Proof. unfold num. pose proof (Z.mod_pos_bound p cycle). unfold cycle in *. lia. Qed.

Lemma mask26 x : Z.land (u32 x) 0x03FFFFFF = x mod 2 ^ 26.
Proof.
  change 0x03FFFFFF with (Z.ones 26). rewrite Z.land_ones by lia. unfold u32.
  replace (2 ^ 32) with (2 ^ 26 * 2 ^ 6) by lia. rewrite Z.rem_mul_r by lia. rewrite Z.mul_comm, Z.mod_add, Z.mod_mod by lia. done.
Qed.

Lemma num_next p : nextGroupMsgNo (num p) = num (p + 1).
Proof.
  unfold nextGroupMsgNo. rewrite mask26. unfold num. pose proof (Z.mod_pos_bound p cycle). pose proof (Z.div_mod p cycle). unfold cycle in *.
  destruct (decide (p mod (2 ^ 26 - 1) = 2 ^ 26 - 2)) as [E|E].
  - replace ((p + 1) mod (2 ^ 26 - 1)) with 0 by (apply (Z.mod_unique _ _ (p / (2 ^ 26 - 1) + 1)); lia). by rewrite E.
  - replace ((p + 1) mod (2 ^ 26 - 1)) with (p mod (2 ^ 26 - 1) + 1) by (apply (Z.mod_unique _ _ (p / (2 ^ 26 - 1))); lia).
    rewrite Z.mod_small by lia. destruct (_ =? 0) eqn:E0; lia.
Qed.

(** The difference of two numbers is that of the positions, up to one cycle. *)
Lemma num_diff n p : n <= p < n + cycle -> num p - num n = p - n \/ num p - num n = p - n - cycle.
Proof.
  unfold num. intros H. pose proof (Z.mod_pos_bound n cycle). pose proof (Z.div_mod n cycle). pose proof (Z.mod_pos_bound p cycle).
  pose proof (Z.div_mod p cycle). unfold cycle in *. nia.
Qed.

(** Ahead of the frontier the distance grows with the position ... *)
Lemma dist_ahead n p : n <= p < n + reach -> p - n <= distAhead (num n) (num p) <= p - n + 1.
Proof.
  intros H. unfold distAhead. rewrite mask26. destruct (num_diff n p) as [E|E]; [unfold reach, cycle in *; lia|..]; rewrite E.
  - rewrite Z.mod_small; unfold reach in *; lia.
  - replace (p - n - cycle) with (p - n + 1 + (-1) * 2 ^ 26) by (unfold cycle; lia). rewrite Z.mod_add, Z.mod_small; unfold reach in *; lia.
Qed.

(** ... strictly ... *)
Lemma dist_mono n p q : n <= p < q -> q < n + reach -> distAhead (num n) (num p) < distAhead (num n) (num q).
Proof.
  intros H1 H2. unfold distAhead. rewrite !mask26.
  assert (Hm : forall x, n <= x < n + reach -> (num x - num n) mod 2 ^ 26 = if decide (num n <= num x) then x - n else x - n + 1).
  { intros x Hx. pose proof (num_range x). pose proof (num_range n). destruct (num_diff n x) as [E|E]; [unfold reach, cycle in *; lia|..]; rewrite E.
    - rewrite Z.mod_small by (unfold reach in *; lia). by rewrite decide_True by lia.
    - replace (x - n - cycle) with (x - n + 1 + (-1) * 2 ^ 26) by (unfold cycle; lia).
      rewrite Z.mod_add, Z.mod_small by (unfold reach in *; lia). rewrite decide_False by (unfold reach, cycle in *; lia). done. }
  rewrite !Hm by lia. pose proof (num_diff p q). destruct (decide (num n <= num p)), (decide (num n <= num q)); try lia.
  destruct (num_diff n p), (num_diff n q); unfold reach, cycle in *; lia.
Qed.

Lemma ahead_true n p : n <= p < n + reach -> groupMsgAhead (num p) (num n) = true.
Proof.
  intros H. unfold groupMsgAhead. change (Z.land _ _) with (distAhead (num n) (num p)). pose proof (dist_ahead n p H).
  change (Z.shiftl 1 25) with (2 ^ 25). unfold reach in *. lia.
Qed.

(** ... and what is behind it is told apart. *)
Lemma ahead_false n p : n - reach < p < n -> groupMsgAhead (num p) (num n) = false.
Proof.
  intros H. unfold groupMsgAhead. rewrite mask26. change (Z.shiftl 1 25) with (2 ^ 25).
  destruct (num_diff p n) as [E|E]; [unfold reach, cycle in *; lia|..].
  - replace (num p - num n) with (p - n + 2 ^ 26 + (-1) * 2 ^ 26) by lia. rewrite Z.mod_add, Z.mod_small; unfold reach in *; lia.
  - replace (num p - num n) with (p - n + cycle) by lia. rewrite Z.mod_small; unfold reach, cycle in *; lia.
Qed.

Lemma num_inj n p : n - reach < p < n + reach -> num p = num n -> p = n.
Proof.
  intros H E. destruct (decide (n <= p)).
  - destruct (num_diff n p); unfold reach, cycle in *; lia.
  - destruct (num_diff p n); unfold reach, cycle in *; lia.
Qed.

(** ** What the receiver promises

    The reorder buffer over unbounded positions: [next] is the message that is due,
    [held] the messages that wait.  It has no numbers that wrap; it is undefined
    ([None]) where a message is further than [reach] from the ones in hand. *)
Record reorder : Type := mkReorder { next : Z; held : gset Z; started : bool }.

Inductive event : Type :=
| Arrive (seqNo p : Z)
| Timeout
| LinkError
| Finish.

Inductive verdict : Type := Deliver (p : Z) | Fail | Continue.

Definition earliest (X : gset Z) : Z := match elements X with [] => 0 | x :: l => fold_left Z.min l x end.
Definition inReach (p : Z) (s : reorder) : bool :=
  forallb (fun q => Z.abs (p - q) <? reach) (next s :: elements (held s)).

Section Spec.
(** Whether all links are broken, which makes a link error final. *)
Variable broken : bool.

Definition specDue (s : reorder) : option (Z * reorder) :=
  if bool_decide (next s ∈ held s) then Some (next s, mkReorder (next s + 1) (held s ∖ {[next s]}) (started s)) else None.

Definition specStep (e : event) (s : reorder) : option (verdict * reorder) :=
  match e with
  | Finish => Some (Fail, s)
  | Timeout => Some (Continue, if bool_decide (held s = ∅) then s else mkReorder (earliest (held s)) (held s) (started s))
  | LinkError => Some (if broken then Fail else Continue, s)
  | Arrive _ p =>
      if negb (inReach p s) then None
      else if p =? next s then Some (Deliver p, mkReorder (next s + 1) (held s) (started s))
      else if p <? next s then Some (Continue, s)
      else
        let X := {[p]} ∪ held s in
        Some (Continue, mkReorder (if Nat.ltb balanceReorderMax (size X) then earliest X else next s) X (started s))
  end.

Definition specResult : Type := option (option (verdict * list event) * reorder).

Fixpoint specLoop (es : list event) (s : reorder) : specResult :=
  match specDue s with
  | Some (p, s) => Some (Some (Deliver p, es), s)
  | None =>
      match es with
      | [] => Some (None, s)
      | e :: es =>
          match specStep e s with
          | None => None
          | Some (Continue, s) => specLoop es s
          | Some (v, s) => Some (Some (v, es), s)
          end
      end
  end.

Fixpoint specAnchor (es : list event) (armed : bool) (s : reorder) : specResult :=
  match es with
  | [] => Some (None, s)
  | Finish :: es => Some (Some (Fail, es), s)
  | Timeout :: es => if armed then Some (Some (Continue, es), mkReorder (next s) (held s) true) else specAnchor es armed s
  | LinkError :: es => if broken then Some (Some (Fail, es), s) else specAnchor es armed s
  | Arrive _ p :: es =>
      if armed then if inReach p s then specAnchor es true (mkReorder (Z.min (next s) p) ({[p]} ∪ held s) false) else None
      else specAnchor es true (mkReorder p {[p]} false)
  end.

Definition specRead (es : list event) (s : reorder) : specResult :=
  if started s then specLoop es s else
  if bool_decide (held s = ∅) then
    match specAnchor es false s with
    | Some (Some (Continue, es), s) => specLoop es s
    | r => r
    end
  else None.

(** [n] reads in a row; the positions they deliver. *)
Fixpoint specReads (n : nat) (es : list event) (s : reorder) : option (list Z) :=
  match n with
  | O => Some []
  | S n =>
      match specRead es s with
      | None => None
      | Some (Some (Deliver p, es), s) => cons p <$> specReads n es s
      | Some _ => Some []
      end
  end.

End Spec.

(** ** The group refines it *)

Section Receiver.
Context {L : Type} {LK : Link L}.
(** The stream of the other end. *)
Variable msg : Z -> list Z.
Implicit Types (g : Group L) (s : reorder).

Definition input (e : event) : readInput :=
  match e with
  | Arrive seqNo p => Result (RecvData seqNo (num p) (msg p))
  | Timeout => Deadline
  | LinkError => Result RecvErr
  | Finish => Done
  end.

(** [n] calls of [Read] in a row, as long as they deliver. *)
Fixpoint reads (n : nat) (is_ : list readInput) g : list (list Z) :=
  match n with
  | O => []
  | S n =>
      match Read is_ g with
      | (Some (Delivered d, is_), g) => d :: reads n is_ g
      | _ => []
      end
  end.

(** What reading does not change. *)
Definition reading (broken : bool) g : Prop := closed g = false /\ mode g = GroupBalancing /\ allBroken g = broken.

(** The messages [X] are the ones in the map. *)
Record buffers (X : gset Z) (m : gmap Z (list Z)) : Prop := {
  buf_iff : forall k d, m !! k = Some d <-> exists q, q ∈ X /\ k = num q /\ d = msg q;
  buf_size : size m = size X
}.

Record sim s g : Prop := {
  sim_next : balNext g = num (next s);
  sim_started : balStarted g = started s;
  sim_buf : buffers (held s) (balBuf g);
  sim_span : forall q, q ∈ held s -> next s <= q < next s + reach
}.

Lemma inReach_spec p s : inReach p s = true -> Z.abs (p - next s) < reach /\ forall q, q ∈ held s -> Z.abs (p - q) < reach.
Proof.
  unfold inReach. rewrite forallb_forall. intros H. split.
  - specialize (H (next s)). lapply H; [lia|by left].
  - intros q Hq. specialize (H q). lapply H; [lia|]. right. by apply list_elem_of_In, elem_of_elements.
Qed.

Lemma fold_min l : forall x, (fold_left Z.min l x = x \/ fold_left Z.min l x ∈ l) /\ fold_left Z.min l x <= x /\ forall y, y ∈ l -> fold_left Z.min l x <= y.
Proof.
  induction l as [|a l IH]; intros x; simpl; [split; [by left|]; split; [lia|]; intros y Hy; by apply not_elem_of_nil in Hy|].
  destruct (IH (Z.min x a)) as (H1 & H2 & H3). split; [|split; [lia|]].
  - destruct H1 as [H1|H1]; [|right; by right]. destruct (Z.min_spec x a) as [[_ E]|[_ E]]; rewrite E in *; [by left|right; rewrite H1; by left].
  - intros y [->|Hy]%elem_of_cons; [lia|by apply H3].
Qed.

Lemma earliest_spec (X : gset Z) : X <> ∅ -> earliest X ∈ X /\ forall q, q ∈ X -> earliest X <= q.
Proof.
  intros HX. unfold earliest. assert (Hel : forall q, q ∈ X <-> q ∈ elements X) by (intros q; by rewrite elem_of_elements).
  destruct (elements X) as [|x l] eqn:E; [destruct HX; apply elements_empty_inv in E; by apply leibniz_equiv|].
  destruct (fold_min l x) as (H1 & H2 & H3). setoid_rewrite Hel. split.
  - destruct H1 as [->|H1]; [by left|by right].
  - intros q [->|Hq]%elem_of_cons; [lia|by apply H3].
Qed.

Lemma fold_closer n ks : forall b db, let r := fold_left (closer n) ks (b, db) in
  (r = (b, db) \/ (r.1 ∈ ks /\ r.2 = distAhead n r.1)) /\ r.2 <= db /\ forall k, k ∈ ks -> r.2 <= distAhead n k.
Proof.
  induction ks as [|k ks IH]; intros b db; simpl; [split; [by left|]; split; [lia|]; intros k Hk; by apply not_elem_of_nil in Hk|].
  assert (closer n (b, db) k = if distAhead n k <? db then (k, distAhead n k) else (b, db)) as -> by done.
  destruct (distAhead n k <? db) eqn:E.
  - destruct (IH k (distAhead n k)) as (H1 & H2 & H3). split; [|split; [lia|]].
    + right. destruct H1 as [->|[H1 H1']]; [split; [by left|done]|split; [by right|done]].
    + intros k' [->|Hk]%elem_of_cons; [lia|by apply H3].
  - destruct (IH b db) as (H1 & H2 & H3). split; [|split; [lia|]].
    + destruct H1 as [->|[H1 H1']]; [by left|right; split; [by right|done]].
    + intros k' [->|Hk]%elem_of_cons; [lia|by apply H3].
Qed.

Lemma elem_of_keys (m : gmap Z (list Z)) k : k ∈ (map_to_list m).*1 <-> exists d, m !! k = Some d.
Proof.
  rewrite list_elem_of_fmap. split.
  - intros ([k' d] & -> & H). exists d. by apply elem_of_map_to_list.
  - intros [d H]. exists (k, d). split; [done|by apply elem_of_map_to_list].
Qed.

Lemma earliest_sim s g : sim s g -> held s <> ∅ -> earliestBuffered g = num (earliest (held s)).
Proof.
  intros [Hn _ [Hb _] Hsp] HX. unfold earliestBuffered. rewrite Hn.
  destruct (earliest_spec _ HX) as [He Hmin].
  destruct (fold_closer (num (next s)) (map_to_list (balBuf g)).*1 0 (Z.shiftl 1 26 + 1)) as (H1 & H2 & H3).
  set (r := fold_left _ _ _) in *.
  assert (Hk : num (earliest (held s)) ∈ (map_to_list (balBuf g)).*1) by (apply elem_of_keys; exists (msg (earliest (held s))); apply Hb; eauto).
  pose proof (H3 _ Hk) as H4. pose proof (dist_ahead _ _ (Hsp _ He)).
  destruct H1 as [H1|[H1 H1']].
  { rewrite H1 in H4. cbn [snd] in H4. change (Z.shiftl 1 26) with (2 ^ 26) in H4. pose proof (Hsp _ He). unfold reach in *. lia. }
  apply elem_of_keys in H1 as [d Hd]. apply Hb in Hd as (q & Hq & Eq & _).
  rewrite Eq. f_equal. destruct (decide (earliest (held s) = q)) as [->|Hne]; [done|].
  pose proof (Hmin q Hq). pose proof (dist_mono (next s) (earliest (held s)) q).
  pose proof (Hsp _ He). pose proof (Hsp _ Hq). rewrite H1', Eq in H4. lia.
Qed.

Lemma buffers_empty : buffers ∅ ∅.
Proof. split; [|done]. intros k d. rewrite lookup_empty. split; [done|]. intros (q & Hq & _). by apply not_elem_of_empty in Hq. Qed.

Lemma buffers_lookup X m p : buffers X m -> (forall q, q ∈ X -> Z.abs (p - q) < reach) ->
  m !! num p = if bool_decide (p ∈ X) then Some (msg p) else None.
Proof.
  intros [Hb _] Hr. case_bool_decide as E; [apply Hb; eauto|]. destruct (m !! num p) as [d|] eqn:El; [|done].
  apply Hb in El as (q & Hq & Eq & _). destruct E. replace p with q; [done|]. specialize (Hr q Hq). symmetry. apply num_inj; [lia|done].
Qed.

Lemma buffers_insert X m p : buffers X m -> (forall q, q ∈ X -> Z.abs (p - q) < reach) -> buffers ({[p]} ∪ X) (<[num p := msg p]> m).
Proof.
  intros Hb Hr. pose proof (buffers_lookup _ _ _ Hb Hr) as Hl. destruct Hb as [Hb Hs]. split.
  - intros k d. rewrite lookup_insert_Some, Hb. split.
    + intros [[<- <-]|(_ & q & Hq & -> & ->)]; [exists p|exists q]; set_solver.
    + intros (q & [->%elem_of_singleton|Hq]%elem_of_union & -> & ->); [by left|]. destruct (decide (num p = num q)) as [E|E]; [|right; eauto].
      left. split; [done|]. specialize (Hr q Hq). f_equal. apply num_inj in E; lia.
  - case_bool_decide as E.
    + rewrite map_size_insert_Some by eauto. rewrite Hs. f_equal. set_solver.
    + rewrite map_size_insert_None by done. rewrite size_union by set_solver. rewrite size_singleton, Hs. done.
Qed.

Lemma buffers_delete X m p : buffers X m -> (forall q, q ∈ X -> Z.abs (p - q) < reach) -> p ∈ X -> buffers (X ∖ {[p]}) (delete (num p) m).
Proof.
  intros Hb Hr Hp. pose proof (buffers_lookup _ _ _ Hb Hr) as Hl. rewrite bool_decide_true in Hl by done. destruct Hb as [Hb Hs]. split.
  - intros k d. rewrite lookup_delete_Some, Hb. split.
    + intros (Hk & q & Hq & -> & ->). exists q. split; [|done]. set_solver.
    + intros (q & [Hq Hn]%elem_of_difference & -> & ->). split; [|eauto]. intros E. apply Hn, elem_of_singleton.
      specialize (Hr q Hq). symmetry. apply num_inj; [lia|done].
  - rewrite map_size_delete_Some by done. rewrite size_difference by set_solver. rewrite size_singleton, Hs. lia.
Qed.

Definition outcome (v : verdict) : readOutcome :=
  match v with Deliver p => Delivered (msg p) | Fail => ReadFailed | Continue => ReadOn end.

Lemma sim_due s g : sim s g ->
  match specDue s with
  | Some (p, s') => exists g', balDue g = Some (msg p, g') /\ sim s' g' /\ forall b, reading b g -> reading b g'
  | None => balDue g = None
  end.
Proof.
  intros [Hn Hst Hb Hsp]. unfold specDue, balDue.
  assert (Hr : forall q, q ∈ held s -> Z.abs (next s - q) < reach) by (intros q Hq; specialize (Hsp q Hq); lia).
  rewrite Hn, (buffers_lookup _ _ _ Hb Hr). case_bool_decide as E; [|done].
  eexists. split; [done|]. split; [|by intros b].
  split; fields; cbn [next held started]; [by rewrite Hn, num_next|done|by apply buffers_delete|].
  intros q [Hq Hne]%elem_of_difference. specialize (Hsp q Hq). assert (q <> next s) by set_solver. lia.
Qed.

Lemma sim_skip s g : sim s g -> held s <> ∅ ->
  sim (mkReorder (earliest (held s)) (held s) (started s)) (g <| balNext := earliestBuffered g |>).
Proof.
  intros Hs HX. pose proof (earliest_sim _ _ Hs HX) as He. destruct (earliest_spec _ HX) as [H1 H2]. destruct Hs as [_ Hst Hb Hsp].
  split; fields; cbn [next held started]; [done|done|done|]. intros q Hq. specialize (H2 q Hq). pose proof (Hsp q Hq). pose proof (Hsp _ H1). lia.
Qed.

Lemma sim_arrive s g p : sim s g -> next s < p -> inReach p s = true ->
  sim (mkReorder (next s) ({[p]} ∪ held s) (started s)) (g <| balBuf ::= <[num p := msg p]> |>).
Proof.
  intros [Hn Hst Hb Hsp] Hp [Hr1 Hr2]%inReach_spec. split; fields; cbn [next held started]; [done|done|by apply buffers_insert|].
  intros q [->%elem_of_singleton|Hq]%elem_of_union; [lia|by apply Hsp].
Qed.

Lemma sim_step b e s v s' g : sim s g -> reading b g -> specDue s = None -> specStep b e s = Some (v, s') ->
  exists g', balStep (input e) g = (outcome v, g') /\ sim s' g' /\ reading b g'.
Proof.
  intros Hs Hrd Hd. destruct e as [sq p| | |]; cbn [specStep input balStep].
  - destruct (inReach p s) eqn:Er; [|done]. cbn [negb]. pose proof (inReach_spec _ _ Er) as [Hr _].
    assert ((num p =? balNext g) = (p =? next s)) as ->.
    { rewrite (sim_next _ _ Hs). destruct (p =? next s) eqn:E; [replace p with (next s) by lia; lia|].
      destruct (num p =? num (next s)) eqn:E'; [|done]. assert (p = next s) by (apply num_inj; lia). lia. }
    destruct (p =? next s) eqn:E.
    { intros [= <- <-]. eexists. split; [done|]. split; [|done]. destruct Hs as [Hn Hst Hb Hsp].
      split; fields; cbn [next held started]; [by rewrite Hn, num_next|done|done|].
      intros q Hq. unfold specDue in Hd. case_bool_decide; [done|]. assert (q <> next s) by set_solver. specialize (Hsp q Hq). lia. }
    rewrite (sim_next _ _ Hs). destruct (p <? next s) eqn:E'.
    { intros [= <- <-]. rewrite ahead_false by lia. eexists. split; [done|]. split; [|done]. by destruct Hs. }
    rewrite ahead_true by lia. cbn [negb]. assert (Hs' := sim_arrive _ _ p Hs ltac:(lia) Er).
    set (g1 := g <| balBuf ::= _ |>) in *. cbv zeta. assert (size ({[p]} ∪ held s) = size (balBuf g1)) as -> by (symmetry; apply (buf_size _ _ (sim_buf _ _ Hs'))).
    destruct (Nat.ltb balanceReorderMax (size (balBuf g1))) eqn:Ec; intros [= <- <-]; eexists; (split; [done|]); split; [|done|done|done].
    by apply (sim_skip _ _ Hs'), non_empty_inhabited_L with p, elem_of_union_l, elem_of_singleton.
  - intros [= <- <-]. assert (bool_decide (balBuf g = ∅) = bool_decide (held s = ∅)) as ->.
    { apply bool_decide_ext. rewrite <- map_size_empty_iff, (buf_size _ _ (sim_buf _ _ Hs)), size_empty_iff, leibniz_equiv_iff. done. }
    case_bool_decide as E; eexists; (split; [done|]); split; [done|done|by apply sim_skip|done].
  - intros [= <- <-]. exists g. split; [|done]. destruct Hrd as (_ & _ & ->). by destruct b.
  - intros [= <- <-]. by exists g.
Qed.

(** The result of a read of the group agrees with that of the specification. *)
Definition agrees (b : bool) (r : option (verdict * list event)) s (R : readResult) : Prop :=
  R.1 = ((fun '(v, es) => (outcome v, map input es)) <$> r) /\ sim s R.2 /\ reading b R.2.

Lemma sim_loop b es : forall s g r s', sim s g -> reading b g -> specLoop b es s = Some (r, s') -> agrees b r s' (balLoop (map input es) g).
Proof.
  induction es as [|e es IH]; intros s g r s' Hs Hrd; cbn [specLoop balLoop map];
    pose proof (sim_due _ _ Hs) as Hd; destruct (specDue s) as [[p s1]|] eqn:Ed.
  1,3: destruct Hd as (g' & -> & Hs' & Hk); intros [= <- <-]; split; [done|]; split; [done|by apply Hk].
  - rewrite Hd. by intros [= <- <-].
  - rewrite Hd. destruct (specStep b e s) as [[v s1]|] eqn:Es; [|done].
    destruct (sim_step _ _ _ _ _ _ Hs Hrd Ed Es) as (g' & -> & Hs' & Hrd').
    destruct v; cbn [outcome]; [intros [= <- <-]; by split|intros [= <- <-]; by split|by apply IH].
Qed.

Lemma sim_anchor_first g p : balBuf g = ∅ -> balStarted g = false ->
  sim (mkReorder p {[p]} false) (g <| balBuf ::= <[num p := msg p]> |> <| balNext := num p |>).
Proof.
  intros Hb Hg. split; fields; cbn [next held started]; [done|done| |].
  - rewrite Hb. rewrite <- (union_empty_r_L {[p]}). apply buffers_insert; [apply buffers_empty|]. intros q Hq. by apply not_elem_of_empty in Hq.
  - intros q ->%elem_of_singleton. unfold reach. lia.
Qed.

Lemma sim_anchor_more s g p : sim s g -> started s = false -> inReach p s = true ->
  let g1 := g <| balBuf ::= <[num p := msg p]> |> in
  sim (mkReorder (Z.min (next s) p) ({[p]} ∪ held s) false) (if negb (groupMsgAhead (num p) (balNext g1)) then g1 <| balNext := num p |> else g1).
Proof.
  intros [Hn Hst Hb Hsp] Hf [Hr1 Hr2]%inReach_spec. cbv zeta.
  replace (balNext (g <| balBuf ::= <[num p := msg p]> |>)) with (num (next s)) by (by fields).
  destruct (decide (next s <= p)) as [E|E].
  - rewrite ahead_true by lia. cbn [negb]. split; fields; cbn [next held started]; [by rewrite Z.min_l by lia|congruence|by apply buffers_insert|].
    intros q [->%elem_of_singleton|Hq]%elem_of_union; [lia|]. specialize (Hsp q Hq). lia.
  - rewrite ahead_false by lia. cbn [negb]. split; fields; cbn [next held started]; [by rewrite Z.min_r by lia|congruence|by apply buffers_insert|].
    intros q [->%elem_of_singleton|Hq]%elem_of_union; [unfold reach; lia|]. specialize (Hsp q Hq). specialize (Hr2 q Hq). lia.
Qed.

Lemma sim_anchor b es : forall s g r s', sim s g -> started s = false -> reading b g -> specAnchor b es true s = Some (r, s') ->
  agrees b r s' (balAnchor (map input es) true g).
Proof.
  induction es as [|e es IH]; intros s g r s' Hs Hf Hrd; cbn [specAnchor balAnchor map]; [by intros [= <- <-]|].
  destruct e as [sq p| | |]; cbn [input].
  - destruct (inReach p s) eqn:Er; [|done]. cbn [negb]. intros H. eapply IH; [by apply sim_anchor_more|done| |exact H].
    unfold reading, allBroken in *. destruct (groupMsgAhead _ _); by fields.
  - intros [= <- <-]. split; [done|]. split; [|done]. destruct Hs. by split.
  - pose proof Hrd as (_ & _ & ->). destruct b; [by intros [= <- <-]|]. by apply IH.
  - by intros [= <- <-].
Qed.

(** A group that has not read yet, or has anchored. *)
Definition ready s g : Prop := if started s then sim s g else held s = ∅ /\ balBuf g = ∅ /\ balStarted g = false.

Definition shows (r : option (verdict * list event)) : option (readOutcome * list readInput) :=
  (fun '(v, es) => (outcome v, map input es)) <$> r.

Lemma ready_anchor b es : forall s g r s', held s = ∅ -> balBuf g = ∅ -> balStarted g = false -> reading b g ->
  specAnchor b es false s = Some (r, s') ->
  let R := balAnchor (map input es) false g in R.1 = shows r /\ forall es', r = Some (Continue, es') -> agrees b r s' R.
Proof.
  induction es as [|e es IH]; intros s g r s' Hh Hb Hg Hrd; cbn [specAnchor balAnchor map]; [by intros [= <- <-]|].
  destruct e as [sq p| | |]; cbn [input negb]; [|by apply IH| |by intros [= <- <-]].
  - intros H. eapply sim_anchor in H; [|by apply sim_anchor_first|done|exact Hrd]. split; [apply H|]. intros es' _. exact H.
  - pose proof Hrd as (_ & _ & ->). destruct b; [by intros [= <- <-]|by apply IH].
Qed.

Lemma anchor_started b es : forall armed s es' s', specAnchor b es armed s = Some (Some (Continue, es'), s') -> started s' = true.
Proof.
  induction es as [|e es IH]; intros armed s es' s'; cbn [specAnchor]; [done|].
  destruct e as [sq p| | |]; [| |destruct b; [done|apply IH]|done].
  - destruct armed; [destruct (inReach p s); [apply IH|done]|apply IH].
  - destruct armed; [by intros [= _ <-]|apply IH].
Qed.

Lemma anchor_not_deliver b es : forall armed s p es' s', specAnchor b es armed s <> Some (Some (Deliver p, es'), s').
Proof.
  induction es as [|e es IH]; intros armed s p es' s'; cbn [specAnchor]; [done|].
  destruct e as [sq q| | |]; [| |destruct b; [done|apply IH]|done].
  - destruct armed; [destruct (inReach q s); [apply IH|done]|apply IH].
  - destruct armed; [done|apply IH].
Qed.

Lemma loop_started b es : forall s r s', specLoop b es s = Some (r, s') -> started s' = started s.
Proof.
  induction es as [|e es IH]; intros s r s'; cbn [specLoop]; unfold specDue; case_bool_decide; try by intros [= _ <-].
  destruct (specStep b e s) as [[v s1]|] eqn:Es; [|done].
  assert (Hs1 : started s1 = started s).
  { destruct e as [sq p| | |]; cbn [specStep] in Es; [|by injection Es as _ <-; case_bool_decide|by injection Es as _ <-|by injection Es as _ <-].
    destruct (inReach p s); [|done]. cbn [negb] in Es. destruct (p =? next s); [by injection Es as _ <-|].
    destruct (p <? next s); by injection Es as _ <-. }
  rewrite <- Hs1. destruct v; [by intros [= _ <-]|by intros [= _ <-]|apply IH].
Qed.

(** What a read of the specification shows, the read of the group shows. *)
Lemma read_refines b es s g r s' : ready s g -> reading b g -> specRead b es s = Some (r, s') ->
  let R := Read (map input es) g in
  R.1 = shows r /\ forall p es', r = Some (Deliver p, es') -> started s' = true /\ agrees b r s' R.
Proof.
  intros Hr Hrd H. unfold Read. pose proof Hrd as (-> & -> & _). unfold specRead in H. unfold readBalancing, ready in *.
  destruct (started s) eqn:Es.
  - rewrite (sim_started _ _ Hr), Es. pose proof (sim_loop _ _ _ _ _ _ Hr Hrd H) as Ha. split; [apply Ha|].
    intros p es' _. split; [|done]. rewrite <- Es. by eapply loop_started.
  - destruct Hr as (Hh & Hb & Hg). rewrite Hg. rewrite bool_decide_true in H by done.
    destruct (specAnchor b es false s) as [[r1 s1]|] eqn:Ea; [|done].
    pose proof (ready_anchor _ _ _ g _ _ Hh Hb Hg Hrd Ea) as [E1 E2]. destruct (balAnchor (map input es) false g) as [o g1]. cbn [fst snd] in *. subst o.
    destruct r1 as [[[q| |] es1]|]; cbn [shows fmap option_fmap option_map outcome]; cycle 2.
    + destruct (E2 _ eq_refl) as (_ & E3 & E4). cbn [snd] in *. pose proof (sim_loop _ _ _ _ _ _ E3 E4 H) as Ha. split; [apply Ha|].
      intros p es' _. split; [|done]. rewrite <- (anchor_started _ _ _ _ _ _ Ea). by eapply loop_started.
    + by injection H as <- <-.
    + by apply anchor_not_deliver in Ea.
    + by injection H as <- <-.
Qed.

(** As long as the specification is defined, the reads of the group deliver
    exactly the messages of its positions. *)
Lemma reads_refine b n : forall es s g ps, ready s g -> reading b g -> specReads b n es s = Some ps -> reads n (map input es) g = map msg ps.
Proof.
  induction n as [|n IH]; intros es s g ps Hr Hrd; cbn [specReads reads]; [by intros [= <-]|].
  destruct (specRead b es s) as [[r s1]|] eqn:E; [|done]. destruct (read_refines _ _ _ _ _ _ Hr Hrd E) as [E1 E2].
  destruct (Read (map input es) g) as [o g1]. cbn [fst] in E1. subst o.
  destruct r as [[[p| |] es1]|]; cbn [shows fmap option_fmap option_map outcome]; [|by intros [= <-]..].
  destruct (E2 _ _ eq_refl) as (Hst & _ & Hs & Hrd1). cbn [snd] in *.
  destruct (specReads b n es1 s1) as [ps1|] eqn:En; [|done]. intros [= <-]. simpl. f_equal. eapply IH; [|exact Hrd1|exact En].
  unfold ready. by rewrite Hst.
Qed.

End Receiver.

(** ** What the specification delivers *)

Definition arrivals (es : list event) : list Z := omap (fun e => match e with Arrive _ p => Some p | _ => None end) es.

Definition ordered (s : reorder) : Prop := forall q, q ∈ held s -> next s <= q.

Lemma arrivals_cons e es : arrivals (e :: es) = arrivals [e] ++ arrivals es.
Proof. by destruct e. Qed.

Lemma due_ordered s p s' : ordered s -> specDue s = Some (p, s') -> p = next s /\ next s' = p + 1 /\ ordered s' /\ p ∈ held s /\ held s' ⊆ held s.
Proof.
  unfold specDue. intros Ho. case_bool_decide as E; [|done]. intros [= <- <-]. split_and!; try done; [|cbn [held]; set_solver].
  intros q [Hq Hn]%elem_of_difference. specialize (Ho q Hq). assert (q <> next s) by set_solver. cbn [next]. lia.
Qed.

(** A step keeps the order, never moves the frontier back, and holds only what
    was held or has arrived. *)
Lemma step_ordered b e s v s' : ordered s -> specDue s = None -> specStep b e s = Some (v, s') ->
  ordered s' /\ next s <= next s' /\ (forall q, q ∈ held s' -> q ∈ held s \/ q ∈ arrivals [e]) /\
  forall p, v = Deliver p -> next s = p /\ next s' = p + 1 /\ p ∈ arrivals [e].
Proof.
  intros Ho Hd. unfold specDue in Hd. case_bool_decide as Hn; [done|]. destruct e as [sq p| | |]; cbn [specStep].
  - destruct (inReach p s); [|done]. cbn [negb]. destruct (p =? next s) eqn:E.
    { intros [= <- <-]. split_and!; cbn [next held]; [|lia|by left|].
      - intros q Hq. assert (q <> next s) by (intros ->; done). specialize (Ho q Hq). cbn [next]. lia.
      - intros ? [= <-]. split_and!; [lia|lia|by left]. }
    destruct (p <? next s) eqn:E'; [intros [= <- <-]; split_and!; [done|lia|by left|done]|].
    intros [= <- <-]. set (X := {[p]} ∪ held s). assert (HX : X <> ∅) by (apply (non_empty_inhabited_L p); set_solver).
    destruct (earliest_spec X HX) as [H1 H2].
    assert (Hge : forall q, q ∈ X -> next s <= q) by (intros q [->%elem_of_singleton|Hq]%elem_of_union; [lia|by apply Ho]).
    split_and!; cbn [next held]; [| | |done].
    + intros q Hq. cbn [next held] in *. destruct (Nat.ltb _ _); [by apply H2|by apply Hge].
    + destruct (Nat.ltb _ _); [by apply Hge|lia].
    + intros q [->%elem_of_singleton|Hq]%elem_of_union; [right; by left|by left].
  - intros [= <- <-]. case_bool_decide as E; [split_and!; [done|lia|by left|done]|].
    destruct (earliest_spec _ E) as [H1 H2]. split_and!; cbn [next held]; [done|by apply Ho|by left|done].
  - intros [= <- <-]. split_and!; [done|lia|by left|by destruct b].
  - intros [= <- <-]. by split_and!; [|lia|left|].
Qed.

Lemma loop_ordered b es : forall s p es' s', ordered s -> specLoop b es s = Some (Some (Deliver p, es'), s') ->
  ordered s' /\ next s <= p /\ next s' = p + 1 /\
  (forall q, q = p \/ q ∈ held s' \/ q ∈ arrivals es' -> q ∈ held s \/ q ∈ arrivals es).
Proof.
  induction es as [|e es IH]; intros s p es' s' Ho; cbn [specLoop]; destruct (specDue s) as [[q s1]|] eqn:Ed; try done.
  1,2: apply due_ordered in Ed as (-> & H1 & H2 & H3 & H4); [|done]; intros [= <- <- <-]; split_and!; [done|lia|done|].
  1,2: intros q [->|[Hq|Hq]]; [by left|left; by apply H4|by right].
  destruct (specStep b e s) as [[v s1]|] eqn:Es; [|done]. apply step_ordered in Es as (H1 & H2 & H3 & H4); [|done|done].
  rewrite arrivals_cons. setoid_rewrite elem_of_app. destruct v as [q| |]; [intros [= -> <- <-]| |].
  - destruct (H4 _ eq_refl) as (H5 & H6 & H7). split_and!; [done|lia|done|].
    intros q [->|[Hq|Hq]]; [by right; left| |by right; right]. destruct (H3 q Hq); [by left|by right; left].
  - done.
  - intros H. apply IH in H as (H5 & H6 & H7 & H8); [|done]. split_and!; [done|lia|done|].
    intros q Hq. destruct (H8 q Hq) as [Hq'|Hq']; [|by right; right]. destruct (H3 q Hq'); [by left|by right; left].
Qed.

Lemma anchor_ordered b es : forall armed s es' s', (armed = true -> ordered s) -> (armed = false -> held s = ∅) ->
  specAnchor b es armed s = Some (Some (Continue, es'), s') ->
  ordered s' /\ forall q, q ∈ held s' \/ q ∈ arrivals es' -> q ∈ held s \/ q ∈ arrivals es.
Proof.
  induction es as [|e es IH]; intros armed s es' s' Ho Hh; cbn [specAnchor]; [done|].
  destruct e as [sq p| | |]; [rewrite arrivals_cons; setoid_rewrite elem_of_app| |destruct b; [done|exact (IH _ _ _ _ Ho Hh)]|done].
  - destruct armed; [destruct (inReach p s); [|done]|]; intros H; apply IH in H as [H1 H2]; try done; cbn [held] in *.
    + split; [done|]. intros q Hq. destruct (H2 q Hq) as [Hq'|Hq']; [|by right; right].
      apply elem_of_union in Hq' as [->%elem_of_singleton|Hq']; [right; left; by left|by left].
    + intros _ q Hq. cbn [held next] in *. apply elem_of_union in Hq as [->%elem_of_singleton|Hq]; [lia|]. specialize (Ho eq_refl q Hq). lia.
    + split; [done|]. intros q Hq. destruct (H2 q Hq) as [->%elem_of_singleton|Hq']; [right; left; by left|by right; right].
    + intros _ q Hq. cbn [held next] in *. apply elem_of_singleton in Hq. lia.
  - destruct armed; [|exact (IH _ _ _ _ Ho Hh)]. intros [= <- <-]. split; [by intros q Hq; apply Ho|done].
Qed.

(** A fresh buffer, or one that has anchored. *)
Definition fresh (s : reorder) : Prop := if started s then ordered s else held s = ∅.

Lemma read_ordered b es s p es' s' : fresh s -> specRead b es s = Some (Some (Deliver p, es'), s') ->
  started s' = true /\ ordered s' /\ (started s = true -> next s <= p) /\ next s' = p + 1 /\
  (forall q, q = p \/ q ∈ held s' \/ q ∈ arrivals es' -> q ∈ held s \/ q ∈ arrivals es).
Proof.
  unfold fresh, specRead. destruct (started s) eqn:Es.
  - intros Ho H. pose proof (loop_started _ _ _ _ _ H). apply loop_ordered in H as (H1 & H2 & H3 & H4); [|done].
    split_and!; [congruence|done|done|done|done].
  - intros Hh. rewrite bool_decide_true by done. destruct (specAnchor b es false s) as [[[[[q| |] es1]|] s1]|] eqn:Ea; try done; [by apply anchor_not_deliver in Ea|].
    intros H. pose proof (loop_started _ _ _ _ _ H) as Hst. rewrite (anchor_started _ _ _ _ _ _ Ea) in Hst.
    apply anchor_ordered in Ea as [H1 H2]; [|done|done]. apply loop_ordered in H as (H3 & H4 & H5 & H6); [|done].
    split_and!; [done|done|done|done|]. intros q Hq. by apply H2, H6.
Qed.

Lemma reads_sorted b n : forall es s ps, fresh s -> specReads b n es s = Some ps ->
  StronglySorted Z.lt ps /\ (started s = true -> Forall (fun p => next s <= p) ps) /\ forall p, p ∈ ps -> p ∈ held s \/ p ∈ arrivals es.
Proof.
  induction n as [|n IH]; intros es s ps Hf; cbn [specReads].
  { intros [= <-]. split_and!; [constructor|constructor|]. intros p Hp. by apply not_elem_of_nil in Hp. }
  destruct (specRead b es s) as [[[[[p| |] es1]|] s1]|] eqn:Er; try done.
  2-4: intros [= <-]; split_and!; [constructor|constructor|]; intros p Hp; by apply not_elem_of_nil in Hp.
  apply read_ordered in Er as (H1 & H2 & H3 & H4 & H5); [|done].
  destruct (specReads b n es1 s1) as [ps1|] eqn:En; [|done]. intros [= <-].
  apply IH in En as (H6 & H7 & H8); [|unfold fresh; by rewrite H1]. specialize (H7 H1). split_and!.
  - constructor; [done|]. eapply Forall_impl; [exact H7|]. simpl. lia.
  - intros Hst. specialize (H3 Hst). constructor; [done|]. eapply Forall_impl; [exact H7|]. simpl. lia.
  - intros q [->|Hq]%elem_of_cons; apply H5; [by left|]. right. by apply H8.
Qed.

(** ** Completeness *)

(** The skew between the links: a message arrives only after every message more
    than the buffer's capacity before it. *)
Definition skewed (a : Z) (X : gset Z) (es : list event) : Prop :=
  forall pre sq p post, es = pre ++ Arrive sq p :: post -> forall q, a <= q <= p - 512 -> q ∈ X \/ q ∈ arrivals pre.

Definition onlyData (es : list event) : Prop := Forall (fun e => e <> Timeout /\ e <> Finish) es.

(** What holds between two reads when nothing has been skipped. *)
Record gapless (s : reorder) (es : list event) : Prop := {
  gl_started : started s = true;
  gl_ordered : ordered s;
  gl_data : onlyData es;
  gl_once : NoDup (arrivals es);
  gl_new : forall p, p ∈ arrivals es -> next s <= p /\ p ∉ held s;
  gl_held : forall p q, p ∈ held s -> next s <= q <= p - 512 -> q ∈ held s;
  gl_skew : skewed (next s) (held s) es
}.

Lemma window_size (X : gset Z) a : (forall q, q ∈ X -> a < q < a + 512) -> (size X <= 511)%nat.
Proof.
  intros H. transitivity (size (list_to_set (C := gset Z) (seqZ (a + 1) 511))).
  - apply subseteq_size. intros q Hq. apply elem_of_list_to_set, elem_of_seqZ. specialize (H q Hq). lia.
  - rewrite size_list_to_set by apply NoDup_seqZ. by rewrite length_seqZ.
Qed.

Lemma gapless_due s es p s' : gapless s es -> specDue s = Some (p, s') -> p = next s /\ next s' = next s + 1 /\ gapless s' es /\
  (forall q, q ∈ held s -> q <> p -> q ∈ held s').
Proof.
  intros [G1 G2 G3 G4 G5 G6 G7] Hd. pose proof (due_ordered _ _ _ G2 Hd) as (-> & H1 & H2 & H3 & H4).
  unfold specDue in Hd. case_bool_decide as E; [|done]. injection Hd as <-.
  split_and!; [done|done| |cbn [held]; set_solver]. split; cbn [started held next]; try done.
  - intros p Hp. destruct (G5 p Hp). assert (p <> next s) by (intros ->; done). split; [lia|set_solver].
  - intros p q [Hp _]%elem_of_difference Hq. specialize (G6 p q Hp ltac:(lia)). apply elem_of_difference. split; [done|]. intros ->%elem_of_singleton. lia.
  - intros pre sq p post -> q Hq. destruct (G7 _ _ _ _ eq_refl q ltac:(lia)) as [Hx|Hx]; [left|by right].
    apply elem_of_difference. split; [done|]. intros ->%elem_of_singleton. lia.
Qed.

(** Where the due message is missing, everything held or arriving is within the
    buffer's capacity of it. *)
Lemma gapless_near s sq p es : gapless s (Arrive sq p :: es) -> next s ∉ held s ->
  next s <= p < next s + 512 /\ forall q, q ∈ held s -> next s < q < next s + 512.
Proof.
  intros [G1 G2 G3 G4 G5 G6 G7] Hn. split.
  - destruct (G5 p) as [Hp _]; [by left|]. split; [done|]. destruct (decide (p < next s + 512)) as [?|Hge]; [done|].
    destruct (G7 [] sq p es eq_refl (next s) ltac:(lia)) as [Hx|Hx]; [done|]. by apply not_elem_of_nil in Hx.
  - intros q Hq. specialize (G2 q Hq). assert (q <> next s) by (intros ->; done). split; [lia|].
    destruct (decide (q < next s + 512)) as [?|Hge]; [done|]. destruct Hn. apply (G6 q); [done|lia].
Qed.

Lemma near_reach s p : next s <= p < next s + 512 -> (forall q, q ∈ held s -> next s < q < next s + 512) -> inReach p s = true.
Proof.
  intros H1 H2. unfold inReach. apply forallb_forall. intros q [<-|Hq]; unfold reach; [lia|].
  apply list_elem_of_In, elem_of_elements in Hq. specialize (H2 q Hq). lia.
Qed.

Lemma gapless_tail s e es : gapless s (e :: es) -> (forall sq p, e <> Arrive sq p) -> gapless s es.
Proof.
  intros [G1 G2 G3 G4 G5 G6 G7] He. assert (arrivals (e :: es) = arrivals es) as Ea by (destruct e; [by destruct (He seqNo p)|done..]).
  rewrite Ea in *. split; try done; [by apply Forall_cons in G3 as [_ ?]|].
  intros pre sq p post -> q Hq. destruct (G7 (e :: pre) sq p post eq_refl q Hq) as [Hx|Hx]; [by left|right].
  destruct e; [by destruct (He seqNo p0)|done..].
Qed.

Lemma gapless_take s sq es : gapless s (Arrive sq (next s) :: es) -> next s ∉ held s ->
  gapless (mkReorder (next s + 1) (held s) (started s)) es.
Proof.
  intros [G1 G2 G3 G4 G5 G6 G7] Hn. apply Forall_cons in G3 as [_ G3]. apply NoDup_cons in G4 as [G4 G4'].
  split; cbn [started next held]; try done.
  - intros q Hq. cbn [next held] in *. specialize (G2 q Hq). assert (q <> next s) by (intros ->; done). lia.
  - intros p Hp. destruct (G5 p) as [H1 H2]; [by right|]. split; [|done]. assert (p <> next s) by (intros ->; done). lia.
  - intros p q Hp Hq. apply (G6 p); [done|lia].
  - intros pre sq' p post -> q Hq. destruct (G7 (Arrive sq (next s) :: pre) sq' p post eq_refl q ltac:(lia)) as [Hx|Hx]; [by left|right].
    apply elem_of_cons in Hx as [->|Hx]; [lia|done].
Qed.

Lemma gapless_hold s sq p es : gapless s (Arrive sq p :: es) -> gapless (mkReorder (next s) ({[p]} ∪ held s) (started s)) es.
Proof.
  intros [G1 G2 G3 G4 G5 G6 G7]. apply Forall_cons in G3 as [_ G3]. apply NoDup_cons in G4 as [G4 G4'].
  destruct (G5 p) as [H1 H2]; [by left|]. split; cbn [started next held]; try done.
  - intros q [->%elem_of_singleton|Hq]%elem_of_union; [done|by apply G2].
  - intros q Hq. destruct (G5 q) as [H3 H4]; [by right|]. split; [done|]. intros [->%elem_of_singleton|?]%elem_of_union; done.
  - intros p' q [->%elem_of_singleton|Hp]%elem_of_union Hq; apply elem_of_union; right.
    + destruct (G7 [] sq p es eq_refl q Hq) as [Hx|Hx]; [done|]. by apply not_elem_of_nil in Hx.
    + by apply (G6 p').
  - intros pre sq' p' post -> q Hq. destruct (G7 (Arrive sq p :: pre) sq' p' post eq_refl q Hq) as [Hx|Hx]; [left; by apply elem_of_union_r|].
    apply elem_of_cons in Hx as [->|Hx]; [left; by apply elem_of_union_l, elem_of_singleton|by right].
Qed.

(** A read delivers the due message, if it is held or still to come. *)
Lemma gapless_read es : forall s, gapless s es -> next s ∈ held s \/ next s ∈ arrivals es ->
  exists es' s', specLoop false es s = Some (Some (Deliver (next s), es'), s') /\ gapless s' es' /\ next s' = next s + 1 /\
    forall q, q <> next s -> q ∈ held s \/ q ∈ arrivals es -> q ∈ held s' \/ q ∈ arrivals es'.
Proof.
  induction es as [|e es IH]; intros s G Hin; cbn [specLoop]; destruct (specDue s) as [[p s1]|] eqn:Ed.
  1,3: apply (gapless_due _ _ _ _ G) in Ed as (-> & H1 & H2 & H3); eexists _, _; split; [done|]; split_and!; [done|done|]; intros q Hq [Hx|Hx]; [left; by apply H3|by right].
  all: assert (Hn : next s ∉ held s) by (unfold specDue in Ed; by case_bool_decide).
  { destruct Hin as [?|Hx]; [done|]. by apply not_elem_of_nil in Hx. }
  destruct e as [sq p| | |].
  - destruct (gapless_near _ _ _ _ G Hn) as [Hp Hh]. cbn [specStep]. rewrite near_reach by done. cbn [negb].
    destruct (p =? next s) eqn:E.
    + apply Z.eqb_eq in E as ->. eexists _, _. split; [done|]. split_and!; [by eapply gapless_take|done|]. cbn [held].
      intros q Hq [Hx|Hx]; [by left|right]. apply elem_of_cons in Hx as [->|Hx]; done.
    + assert ((p <? next s) = false) as -> by lia. cbv zeta.
      assert (Nat.ltb balanceReorderMax (size ({[p]} ∪ held s)) = false) as ->.
      { apply Nat.ltb_ge. etransitivity; [apply (window_size _ (next s))|unfold balanceReorderMax; lia].
        intros q [->%elem_of_singleton|Hq]%elem_of_union; [lia|by apply Hh]. }
      destruct (IH _ (gapless_hold _ _ _ _ G)) as (es' & s' & H1 & H2 & H3 & H4).
      { cbn [next held]. destruct Hin as [?|[?|Hx]%elem_of_cons]; [done|lia|by right]. }
      exists es', s'. split_and!; [done|done|done|]. intros q Hq Hx. apply H4; [done|]. cbn [held].
      destruct Hx as [Hx|[->|Hx]%elem_of_cons]; [left; by apply elem_of_union_r|left; by apply elem_of_union_l, elem_of_singleton|by right].
  - by destruct (proj1 (Forall_cons _ _ _) (gl_data _ _ G)) as [[? _] _].
  - apply (IH s); [by eapply gapless_tail|done].
  - by destruct (proj1 (Forall_cons _ _ _) (gl_data _ _ G)) as [[_ ?] _].
Qed.

Lemma gapless_reads n : forall s es, gapless s es -> (forall q, next s <= q < next s + Z.of_nat n -> q ∈ held s \/ q ∈ arrivals es) ->
  specReads false n es s = Some (seqZ (next s) (Z.of_nat n)).
Proof.
  induction n as [|n IH]; intros s es G Hin; [done|]. cbn [specReads]. unfold specRead. rewrite (gl_started _ _ G).
  destruct (gapless_read es s G) as (es' & s' & -> & G' & Hn & Hk); [apply Hin; lia|].
  rewrite IH; [|done|]; [|intros q Hq; rewrite Hn in Hq; apply Hk; [lia|apply Hin; lia]].
  rewrite Hn. rewrite (seqZ_cons (next s)) by lia. simpl. by replace (Z.pred (Z.of_nat (S n))) with (Z.of_nat n) by lia.
Qed.

(** The window ends with the burst held and the frontier at its first message. *)
Lemma anchor_burst rest burst : forall s a, onlyData burst -> a <= next s -> next s ∈ held s ->
  (forall q, q ∈ held s \/ q ∈ arrivals burst -> a <= q < a + reach) ->
  exists s', specAnchor false (burst ++ Timeout :: rest) true s = Some (Some (Continue, rest), s') /\
    held s' = held s ∪ list_to_set (arrivals burst) /\ next s' ∈ held s' /\ (ordered s -> ordered s') /\ started s' = true.
Proof.
  induction burst as [|e burst IH]; intros s a Hd Ha Hn Hsp; cbn [specAnchor app].
  - eexists. split; [done|]. cbn [held next]. split_and!; [simpl; by rewrite union_empty_r_L|done|by intros Ho|done].
  - apply Forall_cons in Hd as [[Hd1 Hd2] Hd]. destruct e as [sq p| | |]; [|done|by apply (IH s a)|done].
    assert (Hp : a <= p < a + reach) by (apply Hsp; right; by left).
    assert (inReach p s = true) as ->.
    { unfold inReach. apply forallb_forall. intros q [<-|Hq].
      - specialize (Hsp (next s) ltac:(by left)). lia.
      - apply list_elem_of_In, elem_of_elements in Hq. specialize (Hsp q ltac:(by left)). lia. }
    destruct (IH (mkReorder (Z.min (next s) p) ({[p]} ∪ held s) false) a) as (s' & H1 & H2 & H3 & H4 & H5); cbn [next held]; [done|lia| | |].
    { destruct (Z.min_spec (next s) p) as [[_ ->]|[_ ->]]; set_solver. }
    { intros q [[->%elem_of_singleton|Hq]%elem_of_union|Hq]; [done|apply Hsp; by left|apply Hsp; right; by right]. }
    exists s'. split_and!; [done| |done| |done].
    + rewrite H2. cbn [held]. change (arrivals (Arrive sq p :: burst)) with (p :: arrivals burst). cbn [list_to_set]. set_solver.
    + intros Ho. apply H4. intros q Hq. cbn [next held] in *. apply elem_of_union in Hq as [->%elem_of_singleton|Hq]; [lia|]. specialize (Ho q Hq). lia.
Qed.

Lemma anchor_first rest burst a : forall s, onlyData burst -> a ∈ arrivals burst -> (forall q, q ∈ arrivals burst -> a <= q < a + reach) ->
  exists s', specAnchor false (burst ++ Timeout :: rest) false s = Some (Some (Continue, rest), s') /\
    held s' = list_to_set (arrivals burst) /\ next s' = a /\ ordered s' /\ started s' = true.
Proof.
  induction burst as [|e burst IH]; intros s Hd Ha Hsp; [by apply not_elem_of_nil in Ha|]. cbn [specAnchor app].
  apply Forall_cons in Hd as [[Hd1 Hd2] Hd]. destruct e as [sq p| | |]; [|done|by apply (IH s)|done].
  assert (Hp : a <= p) by (apply Hsp; by left).
  destruct (anchor_burst rest burst (mkReorder p {[p]} false) a) as (s' & H1 & H2 & H3 & H4 & H5); cbn [next held]; [done|done|set_solver| |].
  { intros q [->%elem_of_singleton|Hq]; apply Hsp; [by left|by right]. }
  cbn [held] in H2. assert (Hh : held s' = list_to_set (arrivals (Arrive sq p :: burst))) by (by rewrite H2).
  assert (Ho : ordered s') by (apply H4; intros q Hq; cbn [held next] in *; apply elem_of_singleton in Hq; lia).
  exists s'. split_and!; try done. apply Z.le_antisymm.
  - apply Ho. rewrite Hh. by apply elem_of_list_to_set.
  - rewrite Hh in H3. apply elem_of_list_to_set in H3. by apply Hsp.
Qed.

Lemma arrivals_app es es' : arrivals (es ++ es') = arrivals es ++ arrivals es'.
Proof. apply omap_app. Qed.

Lemma elem_of_arrivals p es : p ∈ arrivals es -> exists pre sq post, es = pre ++ Arrive sq p :: post.
Proof.
  unfold arrivals. intros (e & He & H)%list_elem_of_omap. apply list_elem_of_split in He as (pre & post & ->).
  destruct e as [sq q| | |]; [|done..]. injection H as ->. eauto.
Qed.

(** A burst that starts the stream leaves the buffer without a gap. *)
Lemma burst_gapless burst rest a s' : onlyData rest -> NoDup (arrivals (burst ++ rest)) ->
  (forall p, p ∈ arrivals (burst ++ rest) -> a <= p) -> skewed a ∅ (burst ++ rest) ->
  held s' = list_to_set (arrivals burst) -> next s' = a -> ordered s' -> started s' = true -> gapless s' rest.
Proof.
  rewrite arrivals_app. intros Hd [Hn1 [Hn2 Hn3]]%NoDup_app Hge Hsk Hh Hn Ho Hst. subst a. split; try done.
  - intros p Hp. split; [apply Hge, elem_of_app; by right|]. rewrite Hh. intros Hx%elem_of_list_to_set. by apply (Hn2 p).
  - rewrite Hh. intros p q Hp%elem_of_list_to_set Hq. apply elem_of_list_to_set. apply elem_of_arrivals in Hp as (pre & sq & post & ->).
    destruct (Hsk pre sq p (post ++ rest) ltac:(by rewrite <- app_assoc) q Hq) as [Hx|Hx]; [by apply not_elem_of_empty in Hx|].
    rewrite arrivals_app. apply elem_of_app. by left.
  - intros pre sq p post -> q Hq. destruct (Hsk (burst ++ pre) sq p post ltac:(by rewrite <- app_assoc) q Hq) as [Hx|Hx]; [by apply not_elem_of_empty in Hx|].
    rewrite Hh. rewrite arrivals_app in Hx. apply elem_of_app in Hx as [Hx|Hx]; [left; by apply elem_of_list_to_set|by right].
Qed.

(** ** The balancing group *)

Section Balancing.
Context {L : Type} {LK : Link L}.
Variable msg : Z -> list Z.

(** The state of a new group. *)
Definition empty : reorder := mkReorder 0 ∅ false.
Definition unread (g : Group L) : Prop := balBuf g = ∅ /\ balStarted g = false.

(** C22. The reads of a balancing group deliver exactly the messages the reorder buffer
    over unbounded positions delivers, as long as messages in hand are less than
    [reach] apart and fit the reader's buffer: each unchanged, in the order of the
    stream, none twice, and only what has arrived, whatever the links do to the
    order and however often the timer gives a message up. *)
Theorem balancing_in_order (broken : bool) (n : nat) (es : list event) (g : Group L) (ps : list Z) :
  unread g -> reading broken g -> specReads broken n es empty = Some ps ->
  reads n (map (input msg) es) g = map msg ps /\ StronglySorted Z.lt ps /\ forall p, p ∈ ps -> p ∈ arrivals es.
Proof.
  intros [Hb Hs] Hrd H. split; [by apply (reads_refine msg broken n es empty)|].
  destruct (reads_sorted _ _ _ empty _ eq_refl H) as (H1 & _ & H2). split; [done|].
  intros p Hp. destruct (H2 p Hp) as [Hx|?]; [by apply not_elem_of_empty in Hx|done].
Qed.

(** C23. Nothing is lost while the links keep within the buffer's capacity of each
    other and the gap timer does not fire again: if an opening burst, whose lowest
    message is [a], ends with the first timeout, no other timeout follows, every
    message arrives at most once and none from before [a], the burst spans less than
    [reach], and no message arrives before every message that is 512 or more behind
    it (from [a] on) is in, then [n] reads return the messages [a] to [a + n - 1], in
    order, provided they all arrive.  (A later timeout gives up the message it waits
    for; the reader's buffer holds a message.) *)
Theorem balancing_complete (n : nat) (burst rest : list event) (a : Z) (g : Group L) :
  unread g -> reading false g -> onlyData burst -> onlyData rest ->
  NoDup (arrivals (burst ++ rest)) -> a ∈ arrivals burst -> (forall p, p ∈ arrivals (burst ++ rest) -> a <= p) ->
  (forall p, p ∈ arrivals burst -> p < a + reach) -> skewed a ∅ (burst ++ rest) ->
  (forall p, a <= p < a + Z.of_nat n -> p ∈ arrivals (burst ++ rest)) ->
  reads n (map (input msg) (burst ++ Timeout :: rest)) g = map msg (seqZ a (Z.of_nat n)).
Proof.
  intros [Hb Hs] Hrd Hd1 Hd2 Hnd Ha Hge Hsp Hsk Hall.
  destruct (anchor_first rest burst a empty Hd1 Ha) as (s' & H1 & H2 & H3 & H4 & H5).
  { intros q Hq. split; [|by apply Hsp]. apply Hge. rewrite arrivals_app. apply elem_of_app. by left. }
  assert (G : gapless s' rest) by (by eapply burst_gapless).
  apply (reads_refine msg false n _ empty); [done|exact Hrd|].
  rewrite <- H3, <- (gapless_reads n s' rest G).
  - destruct n as [|n]; [done|]. cbn [specReads]. unfold specRead. rewrite H5. cbn [empty started held]. rewrite bool_decide_true by done.
    by rewrite H1.
  - intros q Hq. rewrite H2, elem_of_list_to_set. apply elem_of_app. rewrite <- arrivals_app. apply Hall. lia.
Qed.

(** *** The sender *)

(** A link that fails leaves the number for the next one to use. *)
Lemma balance_loop_stamps b ms : forall attempts (g g' : Group L) n, balance_loop attempts ms b g = (Ok n, g') ->
  exists g1 i mc c, i ∈ (0%nat :: ms) /\ members g1 !! i = Some mc /\ writeBalanced b (balanceMsgNo g) (conn mc) = (Some n, c) /\
    members g' !! i = Some (mc <| conn := c |>) /\ balanceMsgNo g' = nextGroupMsgNo (balanceMsgNo g).
Proof.
  induction attempts as [|k IH]; intros g g' n; cbn [balance_loop]; [done|]. cbv zeta.
  set (i := nth _ ms 0%nat). assert (Hi : i ∈ (0%nat :: ms)).
  { subst i. destruct (nth_in_or_default (Z.to_nat (balanceIdx g mod len ms)) ms 0%nat) as [H|H]; [right; by apply list_elem_of_In|rewrite H; by left]. }
  set (g1 := g <| balanceIdx ::= _ |>). destruct (members g1 !! i) as [mc|] eqn:Em; [|done].
  destruct (writeBalanced b (balanceMsgNo g1) (conn mc)) as [[m|] c] eqn:Ew.
  - intros [= <- <-]. exists g1, i, mc, c. split_and!; [done|done|by subst g1; fields| |by subst g1; fields].
    unfold onConn, onMember. fields. by rewrite list_lookup_alter_eq, Em.
  - intros H. apply IH in H as (g2 & j & mc' & c' & H1 & H2 & H3 & H4 & H5). exists g2, j, mc', c'. by split_and!.
Qed.

(** The numbers a group sends with: message [p] of its stream is handed to one
    link, with number [num p]. *)
Theorem balancing_stamps (p : Z) (b : list Z) (g g' : Group L) (n : Z) :
  balanceMsgNo g = num p \/ balanceMsgNo g = 0 /\ p = 0 -> writeBalancing b g = Some (Ok n, g') ->
  (exists c c', writeBalanced b (num p) c = (Some n, c') /\ c' ∈ map conn (members g')) /\ balanceMsgNo g' = num (p + 1).
Proof.
  intros Hp. unfold writeBalancing, locked. destruct (mu g); [done|]. cbv zeta.
  set (ms := indices _ g). destruct ms as [|m ms]; [done|]. intros H%(inj Some).
  set (g0 := if balanceMsgNo g =? 0 then _ else g) in H.
  assert (E0 : balanceMsgNo g0 = num p).
  { subst g0. pose proof (num_range p). destruct Hp as [Hp|[Hp ->]]; rewrite Hp; [|done]. destruct (num p =? 0) eqn:E; [lia|done]. }
  destruct (balance_loop_stamps _ _ _ _ _ _ H) as (g1 & i & mc & c & _ & _ & H1 & H2 & H3). rewrite E0 in *. split; [|by rewrite H3, num_next].
  exists (conn mc), c. split; [done|]. apply list_elem_of_fmap. exists (mc <| conn := c |>). split; [by fields|]. by eapply list_elem_of_lookup_2.
Qed.

End Balancing.

(** ** Examples *)

(** Messages around the wrap of the numbers, out of order. *)
Definition first : Z := cycle - 1.
Definition exBurst : list event := [LinkError; Arrive 5 (first + 1); Arrive 9 first].
Definition exRest : list event := [Arrive 6 (first + 3); LinkError; Arrive 10 (first + 2)].
Definition exGroup : Group Z := (NewGroup GroupBalancing) <| members := [mkMember 100 1 50 MemberRunning BackupStandby 0 0 0 0 0 0 false] |>.

Lemma near_skewed a X es : Forall (fun p => p < a + 512) (arrivals es) -> skewed a X es.
Proof.
  intros H pre sq p post -> q Hq. rewrite arrivals_app in H. apply Forall_app in H as [_ H]. apply Forall_cons in H as [H _]. lia.
Qed.

Lemma balancing_in_order_witness :
  reads 5 (map (input (fun p => [p])) (exBurst ++ [Timeout; Arrive 6 (first + 3); Timeout; Arrive 10 (first + 2); Finish])) exGroup
  = [[first]; [first + 1]; [first + 3]].
Proof.
  refine (proj1 (balancing_in_order (fun p => [p]) false 5 _ exGroup [first; first + 1; first + 3] _ _ _)); [done|done|].
  vm_compute. reflexivity.
Defined.

Lemma balancing_complete_witness :
  reads 4 (map (input (fun p => [p])) (exBurst ++ Timeout :: exRest)) exGroup = map (fun p => [p]) (seqZ first 4).
Proof.
  apply (balancing_complete (fun p => [p]) 4 exBurst exRest first exGroup); try done.
  - repeat constructor; done.
  - repeat constructor; done.
  - apply (bool_decide_unpack _). vm_compute. exact I.
  - right. left.
  - apply Forall_forall. apply (bool_decide_unpack _). vm_compute. exact I.
  - apply Forall_forall. apply (bool_decide_unpack _). vm_compute. exact I.
  - apply near_skewed. apply (bool_decide_unpack _). vm_compute. exact I.
  - intros p Hp. assert (p = first \/ p = first + 1 \/ p = first + 2 \/ p = first + 3) as [-> | [-> | [-> | ->]]] by lia;
      apply (bool_decide_unpack _); vm_compute; exact I.
Defined.

Lemma balancing_stamps_witness :
  exists g', writeBalancing (LK := countingLink) [3] exGroup = Some (Ok 1, g') /\ balanceMsgNo g' = num 1.
Proof.
  eexists. split; [vm_compute; reflexivity|].
  eapply (balancing_stamps (LK := countingLink) 0 [3] exGroup _ 1); [by right|vm_compute; reflexivity].
Defined.

End SrtBalance.
