(* ===== verification/SrtConfig.v ===== *)
(** * Configuration of the public API ([config.go], [config_map.go], [streamid.go])

    The application's configuration, the defaults and checks every way of opening
    a connection applies to it first ([validate]), and what the core is given of
    it.  Durations are nanoseconds, a Go pointer to a setting is an [option],
    strings are lists of bytes. *)
From Stdlib Require Import ZArith Lia String.
From stdpp Require Import base numbers list option gmap.
From S2P Require Import Prelude Cif Handshake Crypto FilterConfig Establish CoreHandshake Listener Rendezvous.
Local Open Scope Z_scope.

Module SrtConfig.

Definition TransTypeLive : Z := 0.
Definition TransTypeFile : Z := 1.

Record Config : Type := mkConfig {
  Latency : Z;
  RecvLatency : Z;
  PeerLatency : Z;
  MSS : Z;
  FC : Z;
  MaxBW : Z;
  OverheadBW : Z;
  SendBufSize : Z;
  RecvBufSize : Z;
  PayloadSize : Z;
  StreamID : list Z;
  Passphrase : list Z;
  KeyLength : Z;
  CryptoMode : Z;
  ConnTimeout : Z;
  Linger : Z;
  PeerIdleTimeout : Z;
  KMRefreshRate : Z;
  KMPreAnnounce : Z;
  MessageAPI : option bool;
  transType : Z;
  Congestion : list Z;
  MinVersion : Z;
  LossMaxTTL : Z;
  SndDropDelay : Z;
  EnforcedEncryption : option bool;
  NAKReport : option bool;
  RetransmitAlgo : option Z;
  DriftTracer : option bool;
  IPTTL : Z;
  IPTOS : Z;
  InputBW : Z;
  MinInputBW : Z;
  MaxRexmitBW : Z;
  SndSyn : option bool;
  RcvSyn : option bool;
  PacketFilter : list Z;
  GroupConnect : bool;
  GroupStabTimeout : Z;
  UDPSendBufSize : Z;
  UDPRecvBufSize : Z;
  IPv6Only : option bool;
  BindToDevice : list Z;
  Sender : option bool
}.

#[global] Instance eta_config : Eta Config := fun c =>
  mkConfig (Latency c) (RecvLatency c) (PeerLatency c) (MSS c) (FC c) (MaxBW c) (OverheadBW c) (SendBufSize c)
    (RecvBufSize c) (PayloadSize c) (StreamID c) (Passphrase c) (KeyLength c) (CryptoMode c)
    (ConnTimeout c) (Linger c) (PeerIdleTimeout c) (KMRefreshRate c) (KMPreAnnounce c) (MessageAPI c)
    (transType c) (Congestion c) (MinVersion c) (LossMaxTTL c) (SndDropDelay c) (EnforcedEncryption c)
    (NAKReport c) (RetransmitAlgo c) (DriftTracer c) (IPTTL c) (IPTOS c) (InputBW c) (MinInputBW c)
    (MaxRexmitBW c) (SndSyn c) (RcvSyn c) (PacketFilter c) (GroupConnect c) (GroupStabTimeout c)
    (UDPSendBufSize c) (UDPRecvBufSize c) (IPv6Only c) (BindToDevice c) (Sender c).
#[global] Instance fld_cfg_Latency : Field Latency. Proof. derive_field. Defined.
#[global] Instance fld_cfg_RecvLatency : Field RecvLatency. Proof. derive_field. Defined.
#[global] Instance fld_cfg_PeerLatency : Field PeerLatency. Proof. derive_field. Defined.
#[global] Instance fld_cfg_MSS : Field MSS. Proof. derive_field. Defined.
#[global] Instance fld_cfg_FC : Field FC. Proof. derive_field. Defined.
#[global] Instance fld_cfg_MaxBW : Field MaxBW. Proof. derive_field. Defined.
#[global] Instance fld_cfg_OverheadBW : Field OverheadBW. Proof. derive_field. Defined.
#[global] Instance fld_cfg_SendBufSize : Field SendBufSize. Proof. derive_field. Defined.
#[global] Instance fld_cfg_RecvBufSize : Field RecvBufSize. Proof. derive_field. Defined.
#[global] Instance fld_cfg_PayloadSize : Field PayloadSize. Proof. derive_field. Defined.
#[global] Instance fld_cfg_Passphrase : Field Passphrase. Proof. derive_field. Defined.
#[global] Instance fld_cfg_KeyLength : Field KeyLength. Proof. derive_field. Defined.
#[global] Instance fld_cfg_ConnTimeout : Field ConnTimeout. Proof. derive_field. Defined.
#[global] Instance fld_cfg_Linger : Field Linger. Proof. derive_field. Defined.
#[global] Instance fld_cfg_PeerIdleTimeout : Field PeerIdleTimeout. Proof. derive_field. Defined.
#[global] Instance fld_cfg_KMRefreshRate : Field KMRefreshRate. Proof. derive_field. Defined.
#[global] Instance fld_cfg_KMPreAnnounce : Field KMPreAnnounce. Proof. derive_field. Defined.
#[global] Instance fld_cfg_MessageAPI : Field MessageAPI. Proof. derive_field. Defined.
#[global] Instance fld_cfg_transType : Field transType. Proof. derive_field. Defined.
#[global] Instance fld_cfg_Congestion : Field Congestion. Proof. derive_field. Defined.
#[global] Instance fld_cfg_MinVersion : Field MinVersion. Proof. derive_field. Defined.
#[global] Instance fld_cfg_LossMaxTTL : Field LossMaxTTL. Proof. derive_field. Defined.
#[global] Instance fld_cfg_SndDropDelay : Field SndDropDelay. Proof. derive_field. Defined.
#[global] Instance fld_cfg_EnforcedEncryption : Field EnforcedEncryption. Proof. derive_field. Defined.
#[global] Instance fld_cfg_NAKReport : Field NAKReport. Proof. derive_field. Defined.
#[global] Instance fld_cfg_IPTTL : Field IPTTL. Proof. derive_field. Defined.
#[global] Instance fld_cfg_IPTOS : Field IPTOS. Proof. derive_field. Defined.
#[global] Instance fld_cfg_InputBW : Field InputBW. Proof. derive_field. Defined.
#[global] Instance fld_cfg_MinInputBW : Field MinInputBW. Proof. derive_field. Defined.
#[global] Instance fld_cfg_GroupStabTimeout : Field GroupStabTimeout. Proof. derive_field. Defined.
#[global] Instance fld_cfg_UDPSendBufSize : Field UDPSendBufSize. Proof. derive_field. Defined.
#[global] Instance fld_cfg_UDPRecvBufSize : Field UDPRecvBufSize. Proof. derive_field. Defined.

(** ** Constants *)

Definition ms : Z := 1000000.
Definition second : Z := 1000 * ms.
Definition DefaultLatency : Z := 120 * ms.
Definition DefaultMSS : Z := 1500.
Definition DefaultFC : Z := 25600.
Definition DefaultSendBufSize : Z := 8192.
Definition DefaultRecvBufSize : Z := 8192.
Definition DefaultMaxBW : Z := 1000000000 / 8.
Definition DefaultOverheadBW : Z := 25.
Definition DefaultConnTimeout : Z := 3 * second.
Definition DefaultPeerIdleTimeout : Z := 5 * second.
Definition DefaultLiveLinger : Z := second.
Definition MaxLinger : Z := 180 * second.
Definition DefaultKMRefreshRate : Z := Z.shiftl 1 24.
Definition DefaultKMPreAnnounce : Z := Z.shiftl 1 12.
Definition MinMSS : Z := 76.
Definition MaxMSS : Z := 1500.
Definition MinPayload : Z := 32.
Definition MinLatency : Z := 20 * ms.
Definition MinBufSize : Z := 32.
Definition MinFC : Z := 32.
Definition WireHeaderSize : Z := 44.
Definition CongestionLive : list Z := Handshake.live.
Definition CongestionFile : list Z := Handshake.file.

Definition zeroConfig : Config :=
  mkConfig 0 0 0 0 0 0 0 0 0 0 [] [] 0 0 0 0 0 0 0 None TransTypeLive [] 0 0 0 None None None None 0 0 0 0 0 None None []
    false 0 0 0 None [] None.

Definition DefaultConfig : Config :=
  zeroConfig <| Latency := DefaultLatency |> <| MSS := DefaultMSS |> <| FC := DefaultFC |> <| MaxBW := DefaultMaxBW |>
    <| OverheadBW := DefaultOverheadBW |> <| SendBufSize := DefaultSendBufSize |> <| RecvBufSize := DefaultRecvBufSize |>
    <| ConnTimeout := DefaultConnTimeout |> <| IPTTL := -1 |> <| IPTOS := -1 |> <| GroupStabTimeout := second |>.

(** ** [validate]

    The function runs down the fields in groups; a group sets defaults, then
    refuses what is out of range. *)

Inductive configError : Type :=
| ErrCongestion | ErrMSS | ErrLatency | ErrRecvLatency | ErrPeerLatency | ErrFC | ErrOverhead | ErrSendBuf | ErrRecvBuf
| ErrPayloadSmall | ErrPayloadLarge | ErrStreamID | ErrPassphrase | ErrKeyLength | ErrPeerIdle | ErrPreAnnounce
| ErrIPTTL | ErrIPTOS | ErrFilter (e : FilterConfig.FilterError).

(** [if x == 0 { x = default }] *)
Definition orDefault (f : Config -> Z) `{Field _ _ f} (d : Z) (c : Config) : Config := if f c =? 0 then c <| f := d |> else c.
(** [if x < lo { x = lo }] *)
Definition atLeast (f : Config -> Z) `{Field _ _ f} (lo : Z) (c : Config) : Config := if f c <? lo then c <| f := lo |> else c.
(** [if cond { return err }] *)
Definition unless (bad : bool) (e : configError) (c : Config) : result configError Config := if bad then Err e else Ok c.
Definition isFile (c : Config) : bool := Establish.same (Congestion c) CongestionFile.
Definition secured (c : Config) : bool := negb (match Passphrase c with [] => true | _ => false end).

Definition checkCongestion (c : Config) : result configError Config :=
  let c := if transType c =? TransTypeFile then c <| Congestion := CongestionFile |> else c in
  let c := match Congestion c with [] => c <| Congestion := CongestionLive |> | _ => c end in
  unless (negb (Establish.same (Congestion c) CongestionLive) && negb (isFile c)) ErrCongestion c.

Definition checkMSS (c : Config) : result configError Config :=
  let c := orDefault MSS DefaultMSS c in unless ((MSS c <? MinMSS) || (MSS c >? MaxMSS)) ErrMSS c.

Definition checkLatencies (c : Config) : result configError Config :=
  let c := orDefault Latency DefaultLatency c in
  c ← unless (Latency c <? MinLatency) ErrLatency c;
  let c := orDefault RecvLatency (Latency c) c in
  c ← unless (RecvLatency c <? MinLatency) ErrRecvLatency c;
  let c := orDefault PeerLatency (Latency c) c in
  unless (PeerLatency c <? MinLatency) ErrPeerLatency c.

Definition checkWindows (c : Config) : result configError Config :=
  let c := orDefault FC DefaultFC c in
  c ← unless (FC c <? MinFC) ErrFC c;
  let c := orDefault OverheadBW DefaultOverheadBW c in
  c ← unless ((OverheadBW c <? 5) || (OverheadBW c >? 100)) ErrOverhead c;
  let c := orDefault SendBufSize DefaultSendBufSize c in
  c ← unless (SendBufSize c <? MinBufSize) ErrSendBuf c;
  let c := orDefault RecvBufSize DefaultRecvBufSize c in
  c ← unless (RecvBufSize c <? MinBufSize) ErrRecvBuf c;
  Ok (if RecvBufSize c >? FC c then c <| RecvBufSize := FC c |> else c).

Definition checkPayload (c : Config) : result configError Config :=
  let maxPayload := MSS c - WireHeaderSize in
  if PayloadSize c >? 0 then
    c ← unless (PayloadSize c <? MinPayload) ErrPayloadSmall c;
    unless (PayloadSize c >? maxPayload) ErrPayloadLarge c
  else Ok c.

Definition validKeyLength (n : Z) : bool := (n =? 16) || (n =? 24) || (n =? 32).

Definition checkIdentity (c : Config) : result configError Config :=
  c ← unless (len (StreamID c) >? 512) ErrStreamID c;
  if secured c then
    c ← unless ((len (Passphrase c) <? 10) || (len (Passphrase c) >? 80)) ErrPassphrase c;
    let c := orDefault KeyLength 16 c in
    unless (negb (validKeyLength (KeyLength c))) ErrKeyLength c
  else Ok c.

Definition checkTimeouts (c : Config) : result configError Config :=
  let c := orDefault ConnTimeout DefaultConnTimeout c in
  let c := orDefault Linger (if isFile c then 180 * second else DefaultLiveLinger) c in
  let c := atLeast Linger 0 c in
  let c := if Linger c >? MaxLinger then c <| Linger := MaxLinger |> else c in
  let c := orDefault PeerIdleTimeout DefaultPeerIdleTimeout c in
  unless (PeerIdleTimeout c <? second) ErrPeerIdle c.

(** Key rotation and the settings that only have defaults. *)
Definition orTrue (o : option bool) (v : bool) : option bool := match o with None => Some v | _ => o end.

Definition checkKeys (c : Config) : result configError Config :=
  let c := c <| MessageAPI ::= fun o => orTrue o (negb (isFile c)) |> in
  let c := if (KMRefreshRate c =? 0) && secured c then c <| KMRefreshRate := DefaultKMRefreshRate |> else c in
  let c := if (KMPreAnnounce c =? 0) && (KMRefreshRate c >? 0) then c <| KMPreAnnounce := DefaultKMPreAnnounce |> else c in
  c ← unless ((KMRefreshRate c >? 0) && (KMPreAnnounce c >=? KMRefreshRate c / 2)) ErrPreAnnounce c;
  let c := orDefault MinVersion 0x010000 c in
  let c := atLeast LossMaxTTL 0 c in
  let c := atLeast SndDropDelay (-1) c in
  Ok (c <| EnforcedEncryption ::= fun o => orTrue o true |> <| NAKReport ::= fun o => orTrue o true |>).

Definition checkSocket (c : Config) : result configError Config :=
  c ← (if negb (IPTTL c =? -1) && ((IPTTL c <? 1) || (IPTTL c >? 255))
       then if IPTTL c =? 0 then Ok (c <| IPTTL := -1 |>) else Err ErrIPTTL else Ok c);
  c ← unless ((IPTOS c <? -1) || (IPTOS c >? 255)) ErrIPTOS c;
  let c := atLeast UDPSendBufSize 0 c in
  let c := if (UDPSendBufSize c >? 0) && (UDPSendBufSize c <? MSS c) then c <| UDPSendBufSize := MSS c |> else c in
  let c := atLeast UDPRecvBufSize 0 c in
  Ok (if (UDPRecvBufSize c >? 0) && (UDPRecvBufSize c <? MSS c) then c <| UDPRecvBufSize := MSS c |> else c).

Definition checkRates (c : Config) : result configError Config :=
  let c := atLeast MinInputBW 0 c in
  let c := atLeast InputBW 0 c in
  match PacketFilter c with
  | [] => Ok c
  | f => match FilterConfig.ParseConfig Establish.filters (Handshake.stringOf f) with Ok _ => Ok c | Err e => Err (ErrFilter e) end
  end.

Definition validate (c : Config) : result configError Config :=
  c ← checkCongestion c; c ← checkMSS c; c ← checkLatencies c; c ← checkWindows c; c ← checkPayload c; c ← checkIdentity c;
  c ← checkTimeouts c; c ← checkKeys c; c ← checkSocket c; checkRates c.

(** ** What the rest of the program reads from it *)

(** [Duration.Milliseconds] and [Microseconds] truncate toward zero. *)
Definition latencyMS (c : Config) : Z := u16 (Z.quot (Latency c) ms).
Definition recvLatencyMS (c : Config) : Z := u16 (Z.quot (RecvLatency c) ms).
Definition peerLatencyMS (c : Config) : Z := u16 (Z.quot (PeerLatency c) ms).
Definition enabled (o : option bool) : bool := match o with None => true | Some b => b end.
Definition messageAPIEnabled (c : Config) : bool := enabled (MessageAPI c).
Definition congestionString (c : Config) : list Z := if isFile c then Handshake.file else Handshake.live.
Definition tsbpdEnabled (c : Config) : bool := negb (isFile c).
Definition tlpktdropEnabled (c : Config) : bool := negb (isFile c).
Definition retransmitAlgo (c : Config) : Z :=
  match RetransmitAlgo c with Some n => n | None => if isFile c then 0 else 1 end.
Definition driftTracerEnabled (c : Config) : bool := enabled (DriftTracer c).
Definition sndSynEnabled (c : Config) : bool := enabled (SndSyn c).
Definition rcvSynEnabled (c : Config) : bool := enabled (RcvSyn c).

Definition srtFlags (c : Config) : Z :=
  let flags :=
    if isFile c then Z.lor (Z.lor Cif.FlagCrypt Cif.FlagPeriodicNAK) Cif.FlagRexmit
    else Z.lor (Z.lor (Z.lor (Z.lor (Z.lor Cif.FlagTSBPDSend Cif.FlagTSBPDRecv) Cif.FlagCrypt) Cif.FlagTLPktDrop) Cif.FlagPeriodicNAK) Cif.FlagRexmit in
  let flags := match NAKReport c with Some false => Z.ldiff flags Cif.FlagPeriodicNAK | _ => flags end in
  let flags := if negb (messageAPIEnabled c) then Z.lor flags Cif.FlagStream else flags in
  Z.lor flags Cif.FlagPacketFilter.

Definition bufferCapacity (c : Config) : Z := if RecvBufSize c >? SendBufSize c then RecvBufSize c else SendBufSize c.
Definition explicitlyOff (o : option bool) : bool := match o with Some false => true | _ => false end.
Definition enforcedEncryptionOff (c : Config) : bool := explicitlyOff (EnforcedEncryption c).
Definition nakReportOff (c : Config) : bool := explicitlyOff (NAKReport c).
Definition peerIdleMicros (c : Config) : Z := Z.quot (PeerIdleTimeout c) 1000.

(** [dialConfig]; the session fills in the socket ID, the sequence number and the
    cipher context ([ctx], from [KeyLength] and [CryptoMode]). *)
Definition dialConfig (socketID isn : Z) (ctx : option Crypto.Context) (c : Config) : CoreHandshake.DialConfig :=
  CoreHandshake.mkDialConfig socketID isn (u32 (MSS c)) (u32 (FC c)) (recvLatencyMS c) (peerLatencyMS c) (congestionString c)
    (StreamID c) (PacketFilter c) ctx (Passphrase c) (KMRefreshRate c) (KMPreAnnounce c) (enforcedEncryptionOff c)
    (PayloadSize c) (bufferCapacity c) (SendBufSize c) (RecvBufSize c) (MaxBW c) (InputBW c) (MinInputBW c) (OverheadBW c)
    (tsbpdEnabled c) (messageAPIEnabled c) (tlpktdropEnabled c) (SndDropDelay c) (LossMaxTTL c) (nakReportOff c)
    (peerIdleMicros c) false 0 0 0.

Definition listenerConfig (c : Config) : Listener.LC.ListenerConfig :=
  Listener.LC.mkLC (u32 (MSS c)) (recvLatencyMS c) (peerLatencyMS c) (congestionString c) (tsbpdEnabled c) (messageAPIEnabled c)
    (tlpktdropEnabled c) (SndDropDelay c) (LossMaxTTL c) (nakReportOff c) (peerIdleMicros c) (MaxBW c) (InputBW c)
    (MinInputBW c) (OverheadBW c) (PayloadSize c) (bufferCapacity c) (SendBufSize c) (RecvBufSize c) (Passphrase c)
    (KeyLength c) (CryptoMode c) (enforcedEncryptionOff c) (KMRefreshRate c) (KMPreAnnounce c) (PacketFilter c).

(** [rendezvousConfig]; the session fills in socket ID, sequence number, cookie
    and cipher context. *)
Definition rendezvousConfig (socketID isn cookie : Z) (ctx : option Crypto.Context) (c : Config) : Rendezvous.RendezvousConfig :=
  Rendezvous.mkRdvConfig socketID isn cookie (u32 (MSS c)) (u32 (FC c)) (recvLatencyMS c) (peerLatencyMS c) (congestionString c)
    (StreamID c) (PacketFilter c) (PayloadSize c) (bufferCapacity c) (MaxBW c) (InputBW c) (MinInputBW c) (OverheadBW c)
    (tsbpdEnabled c) (messageAPIEnabled c) (peerIdleMicros c) ctx (Passphrase c) (KeyLength c).

Record UDPSocketOptions : Type := mkUDP {
  u_IPTTL : Z; u_IPTOS : Z; u_IPv6Only : option bool; u_BindToDevice : list Z; u_UDPSendBufSize : Z; u_UDPRecvBufSize : Z
}.
Definition udpSocketOptions (c : Config) : UDPSocketOptions :=
  mkUDP (IPTTL c) (IPTOS c) (IPv6Only c) (BindToDevice c) (UDPSendBufSize c) (UDPRecvBufSize c).

(** ** Stream IDs *)

Record StreamIDInfo : Type := mkInfo {
  UserName : list Z; ResourceName : list Z; HostName : list Z; SessionID : list Z; Type_ : list Z; Mode : list Z;
  Extra : gmap (list Z) (list Z)
}.
#[global] Instance eta_info : Eta StreamIDInfo := fun i =>
  mkInfo (UserName i) (ResourceName i) (HostName i) (SessionID i) (Type_ i) (Mode i) (Extra i).
#[global] Instance fld_si_UserName : Field UserName. Proof. derive_field. Defined.
#[global] Instance fld_si_ResourceName : Field ResourceName. Proof. derive_field. Defined.
#[global] Instance fld_si_HostName : Field HostName. Proof. derive_field. Defined.
#[global] Instance fld_si_SessionID : Field SessionID. Proof. derive_field. Defined.
#[global] Instance fld_si_Type_ : Field Type_. Proof. derive_field. Defined.
#[global] Instance fld_si_Mode : Field Mode. Proof. derive_field. Defined.
#[global] Instance fld_si_Extra : Field Extra. Proof. derive_field. Defined.

Definition streamIDPrefix : list Z := Handshake.bytesOf "#!::"%string.
Definition noInfo : StreamIDInfo := mkInfo [] [] [] [] [] [] ∅.

(** [strings.Split] by one byte and [strings.Cut] at the first one. *)
Fixpoint splitAt (sep : Z) (l : list Z) : list (list Z) :=
  match l with
  | [] => [[]]
  | b :: l =>
      if b =? sep then [] :: splitAt sep l
      else match splitAt sep l with [] => [[b]] | w :: ws => (b :: w) :: ws end
  end.
Fixpoint Cut (sep : Z) (l : list Z) : option (list Z * list Z) :=
  match l with
  | [] => None
  | b :: l => if b =? sep then Some ([], l) else '(k, v) ← Cut sep l; Some (b :: k, v)
  end.

Definition comma : Z := 44.
Definition equals : Z := 61.

(** One field: whether it is a pair, and what it sets. *)
Definition keyIs (k : list Z) (name : list Z) : bool := bool_decide (k = name).
Definition setKey (k v : list Z) (i : StreamIDInfo) : StreamIDInfo :=
  if keyIs k [117] then i <| UserName := v |>
  else if keyIs k [114] then i <| ResourceName := v |>
  else if keyIs k [104] then i <| HostName := v |>
  else if keyIs k [115] then i <| SessionID := v |>
  else if keyIs k [116] then i <| Type_ := v |>
  else if keyIs k [109] then i <| Mode := v |>
  else i <| Extra ::= <[k := v]> |>.
Definition parseField (st : nat * StreamIDInfo) (field : list Z) : nat * StreamIDInfo :=
  match Cut equals field with
  | None | Some ([], _) => st
  | Some (k, v) => (S (fst st), setKey k v (snd st))
  end.

Definition ParseStreamID (raw : list Z) : StreamIDInfo * bool :=
  if negb (bool_decide (take 4 raw = streamIDPrefix)) then (noInfo <| ResourceName := raw |>, true) else
  match drop 4 raw with
  | [] => (noInfo, false)
  | body =>
      let '(parsed, info) := fold_left parseField (splitAt comma body) (0%nat, noInfo) in
      (info, negb (Nat.eqb parsed 0))
  end.

(** ** A validated configuration *)

(** The groups of fields, in the order of the checks. *)
Definition congestionOk (c : Config) : Prop :=
  (Congestion c = CongestionLive \/ Congestion c = CongestionFile) /\ (transType c = TransTypeFile -> Congestion c = CongestionFile).
Definition segmentsOk (c : Config) : Prop := congestionOk c /\ 76 <= MSS c <= 1500.
Definition latenciesOk (c : Config) : Prop := 20 * ms <= Latency c /\ 20 * ms <= RecvLatency c /\ 20 * ms <= PeerLatency c.
Definition windowsOk (c : Config) : Prop :=
  32 <= FC c /\ 5 <= OverheadBW c <= 100 /\ 32 <= SendBufSize c /\ 32 <= RecvBufSize c <= FC c.
Definition payloadOk (c : Config) : Prop := PayloadSize c <= 0 \/ 32 <= PayloadSize c <= MSS c - 44.
Definition identityOk (c : Config) : Prop :=
  len (StreamID c) <= 512 /\ (secured c = true -> 10 <= len (Passphrase c) <= 80 /\ validKeyLength (KeyLength c) = true).
Definition timeoutsOk (c : Config) : Prop := ConnTimeout c <> 0 /\ 0 <= Linger c <= 180 * second /\ second <= PeerIdleTimeout c.
Definition keysOk (c : Config) : Prop :=
  (0 < KMRefreshRate c -> KMPreAnnounce c <> 0 /\ KMPreAnnounce c < KMRefreshRate c / 2) /\ (secured c = true -> KMRefreshRate c <> 0) /\
  MinVersion c <> 0 /\ 0 <= LossMaxTTL c /\ -1 <= SndDropDelay c /\
  is_Some (MessageAPI c) /\ is_Some (EnforcedEncryption c) /\ is_Some (NAKReport c).
Definition udpBufOk (c : Config) (n : Z) : Prop := n = 0 \/ MSS c <= n.
Definition socketOk (c : Config) : Prop :=
  (IPTTL c = -1 \/ 1 <= IPTTL c <= 255) /\ -1 <= IPTOS c <= 255 /\ udpBufOk c (UDPSendBufSize c) /\ udpBufOk c (UDPRecvBufSize c).
Definition ratesOk (c : Config) : Prop :=
  0 <= MinInputBW c /\ 0 <= InputBW c /\
  (PacketFilter c <> [] -> is_Ok (FilterConfig.ParseConfig Establish.filters (Handshake.stringOf (PacketFilter c))) = true).

Record configOk (c : Config) : Prop := {
  ok_segments : segmentsOk c;
  ok_latencies : latenciesOk c;
  ok_windows : windowsOk c;
  ok_payload : payloadOk c;
  ok_identity : identityOk c;
  ok_timeouts : timeoutsOk c;
  ok_keys : keysOk c;
  ok_socket : socketOk c;
  ok_rates : ratesOk c
}.

(** A check is taken apart into its cases, each with the configuration it leaves;
    the fields of the earlier checks are as they were. *)
Ltac check_cases :=
  unfold orDefault, atLeast, unless, mbind, result_bind; cbv zeta;
  repeat (case_match; try discriminate); try discriminate; intros; simplify_eq.
Ltac kept := destruct_and?; repeat (match goal with H : _ |- _ => progress fields_in H end); fields; try done; lia.

Lemma checkCongestion_ok c c' : checkCongestion c = Ok c' -> congestionOk c'.
Proof.
  unfold checkCongestion, unless. cbv zeta. set (c0 := if _ =? _ then _ else c). set (c1 := match Congestion c0 with [] => _ | _ => _ end).
  destruct (_ && _) eqn:E; [done|]. intros [= <-]. unfold congestionOk, isFile, Establish.same in *. split.
  - apply andb_false_iff in E as [E|E]; apply negb_false_iff, bool_decide_eq_true in E; [by left|by right].
  - clear E. subst c1 c0. destruct (transType c =? TransTypeFile) eqn:Et.
    + by fields.
    + destruct (Congestion c); fields; intros Ht; rewrite Ht in Et; done.
Qed.

Lemma checkMSS_ok c c' : checkMSS c = Ok c' -> congestionOk c -> segmentsOk c'.
Proof.
  unfold checkMSS, DefaultMSS, MinMSS, MaxMSS, segmentsOk. intros H Hc. revert H. check_cases; (split; [exact Hc|]); kept.
Qed.

Lemma checkLatencies_ok c c' : checkLatencies c = Ok c' -> segmentsOk c -> segmentsOk c' /\ latenciesOk c'.
Proof.
  unfold checkLatencies, DefaultLatency, MinLatency, latenciesOk. intros H Hs. revert H. check_cases; (split; [exact Hs|]); split_and!; kept.
Qed.

Lemma checkWindows_ok c c' : checkWindows c = Ok c' -> segmentsOk c /\ latenciesOk c -> (segmentsOk c' /\ latenciesOk c') /\ windowsOk c'.
Proof.
  unfold checkWindows, DefaultFC, MinFC, DefaultOverheadBW, DefaultSendBufSize, DefaultRecvBufSize, MinBufSize, windowsOk. intros H Hs. revert H.
  check_cases; (split; [exact Hs|]); split_and!; kept.
Qed.

Lemma checkPayload_ok c c' : checkPayload c = Ok c' -> c' = c /\ payloadOk c.
Proof. unfold checkPayload, MinPayload, WireHeaderSize, payloadOk. check_cases; (split; [done|]); lia. Qed.

(** The first groups; the later checks leave them alone. *)
Definition frontOk (c : Config) : Prop := ((segmentsOk c /\ latenciesOk c) /\ windowsOk c) /\ payloadOk c.

Lemma checkIdentity_ok c c' : checkIdentity c = Ok c' -> frontOk c -> frontOk c' /\ identityOk c'.
Proof.
  unfold checkIdentity, identityOk. intros H Hf. revert H.
  destruct (secured c) eqn:Es; check_cases; (split; [exact Hf|]); split; try (intros Hs; split); try kept; first [by apply negb_false_iff|congruence].
Qed.

Lemma checkTimeouts_ok c c' : checkTimeouts c = Ok c' -> frontOk c /\ identityOk c -> (frontOk c' /\ identityOk c') /\ timeoutsOk c'.
Proof.
  unfold checkTimeouts, timeoutsOk, DefaultConnTimeout, DefaultLiveLinger, MaxLinger, DefaultPeerIdleTimeout, second, ms. intros H Hf. revert H.
  set (d := if isFile _ then _ else _). assert (Hd : 0 < d) by (subst d; unfold orDefault; destruct (isFile _); lia). clearbody d.
  check_cases; (split; [exact Hf|]); split_and!; kept.
Qed.

Lemma orTrue_some o v : is_Some (orTrue o v).
Proof. by destruct o. Qed.

Lemma checkKeys_ok c c' : checkKeys c = Ok c' -> (frontOk c /\ identityOk c) /\ timeoutsOk c ->
  ((frontOk c' /\ identityOk c') /\ timeoutsOk c') /\ keysOk c'.
Proof.
  unfold checkKeys, keysOk. cbv zeta. intros H Hf. revert H.
  set (v := negb (isFile c)). set (c1 := c <| MessageAPI ::= _ |>).
  set (c2 := if (KMRefreshRate c1 =? 0) && secured c1 then _ else c1). set (c3 := if _ && (KMRefreshRate c2 >? 0) then _ else c2).
  assert (Hk : ((secured c3 = true -> KMRefreshRate c3 <> 0) /\ is_Some (MessageAPI c3)) /\ (0 < KMRefreshRate c3 -> KMPreAnnounce c3 <> 0)).
  { split.
    - subst c3 c2. destruct (_ && secured c1) eqn:E1; destruct (_ && (_ >? 0)); fields; split; try apply orTrue_some; try done.
      all: apply andb_false_iff in E1; intros Hs; change (secured c1 = true) in Hs; destruct E1 as [E1|E1]; [fields_in E1; lia|congruence].
    - subst c3. destruct (_ && (_ >? 0)) eqn:E2; [by fields|]. intros Hp. apply andb_false_iff in E2. lia. }
  assert (Hf3 : (frontOk c3 /\ identityOk c3) /\ timeoutsOk c3).
  { subst c3 c2. destruct (_ && secured c1), (_ && (_ >? 0)); exact Hf. }
  clearbody c3. destruct Hk as [[Hk1 Hk2] Hk3].
  check_cases; (split; [exact Hf3|]); split_and!; try apply orTrue_some; try exact Hk1; try exact Hk2; try (intros Hp; split; [exact (Hk3 Hp)|]); kept.
Qed.

Lemma checkSocket_ok c c' : checkSocket c = Ok c' -> (((frontOk c /\ identityOk c) /\ timeoutsOk c) /\ keysOk c) ->
  (((frontOk c' /\ identityOk c') /\ timeoutsOk c') /\ keysOk c') /\ socketOk c'.
Proof.
  unfold checkSocket, socketOk, udpBufOk. intros H Hf. revert H. check_cases; (split; [exact Hf|]); split_and!; kept.
Qed.

Lemma checkRates_ok c c' : checkRates c = Ok c' -> ((((frontOk c /\ identityOk c) /\ timeoutsOk c) /\ keysOk c) /\ socketOk c) ->
  ((((frontOk c' /\ identityOk c') /\ timeoutsOk c') /\ keysOk c') /\ socketOk c') /\ ratesOk c'.
Proof.
  unfold checkRates, ratesOk. intros H Hf. revert H. check_cases; (split; [exact Hf|]); split_and!; try kept; intros _.
  all: match goal with H : _ = _ :: _, H' : _ = Ok _ |- _ => by rewrite H, H' end.
Qed.

Lemma bind_Ok {A B} (r : result configError A) (f : A -> result configError B) b :
  r ≫= f = Ok b -> exists a, r = Ok a /\ f a = Ok b.
Proof. destruct r; [eauto|done]. Qed.

Lemma validate_ok (c c' : Config) : validate c = Ok c' -> configOk c'.
Proof.
  unfold validate. intros (c1 & H1 & (c2 & H2 & (c3 & H3 & (c4 & H4 & (c5 & H5 & (c6 & H6 & (c7 & H7 & (c8 & H8 & (c9 & H9 & H)%bind_Ok)%bind_Ok)%bind_Ok)%bind_Ok)%bind_Ok)%bind_Ok)%bind_Ok)%bind_Ok)%bind_Ok.
  apply checkCongestion_ok in H1. apply checkMSS_ok in H2; [|done]. apply checkLatencies_ok in H3; [|done]. apply checkWindows_ok in H4; [|done].
  apply checkPayload_ok in H5 as [-> H5]. apply checkIdentity_ok in H6; [|by split]. apply checkTimeouts_ok in H7; [|done].
  apply checkKeys_ok in H8; [|done]. apply checkSocket_ok in H9; [|done]. apply checkRates_ok in H as [(((((((? & ?) & ?) & ?) & ?) & ?) & ?) & ?) ?]; [|done].
  by split.
Qed.

(** *** Nothing is changed twice *)

Lemma orDefault_id f `{Field _ _ f} d c : f c <> 0 -> orDefault f d c = c.
Proof. unfold orDefault. intros Hc. destruct (f c =? 0) eqn:E; [lia|done]. Qed.

Lemma atLeast_id f `{Field _ _ f} lo c : lo <= f c -> atLeast f lo c = c.
Proof. unfold atLeast. intros Hc. destruct (f c <? lo) eqn:E; [lia|done]. Qed.

Lemma unless_ok bad e c : bad = false -> unless bad e c = Ok c.
Proof. by intros ->. Qed.

(** Settings that are present stay as they are. *)
Lemma set_id c : is_Some (MessageAPI c) -> c <| MessageAPI ::= fun o => orTrue o (negb (isFile c)) |> = c.
Proof. destruct c. intros [b Hb]. cbn [MessageAPI] in Hb. by subst. Qed.

Lemma set2_id c : is_Some (EnforcedEncryption c) -> is_Some (NAKReport c) ->
  c <| EnforcedEncryption ::= fun o => orTrue o true |> <| NAKReport ::= fun o => orTrue o true |> = c.
Proof. destruct c. intros [b Hb] [b' Hb']. cbn [EnforcedEncryption NAKReport] in *. by subst. Qed.

Lemma checkCongestion_id c : congestionOk c -> checkCongestion c = Ok c.
Proof.
  intros [Hc Ht]. unfold checkCongestion. cbv zeta.
  assert ((if transType c =? TransTypeFile then c <| Congestion := CongestionFile |> else c) = c) as ->.
  { destruct (transType c =? TransTypeFile) eqn:E; [|done]. rewrite <- Ht by (apply Z.eqb_eq in E; done). by destruct c. }
  assert (match Congestion c with [] => c <| Congestion := CongestionLive |> | _ => c end = c) as -> by (destruct Hc as [->| ->]; done).
  apply unless_ok. unfold isFile, Establish.same. destruct Hc as [->| ->]; done.
Qed.

Lemma checkSegments_id c : 76 <= MSS c <= 1500 -> latenciesOk c -> checkMSS c = Ok c /\ checkLatencies c = Ok c.
Proof.
  unfold checkMSS, checkLatencies, latenciesOk, MinMSS, MaxMSS, MinLatency. intros H1 (H2 & H3 & H4). unfold ms in *. split.
  - rewrite orDefault_id by lia. apply unless_ok. lia.
  - rewrite orDefault_id by lia. cbv zeta. rewrite unless_ok by lia. unfold mbind, result_bind. rewrite (orDefault_id RecvLatency) by lia.
    rewrite unless_ok by lia. rewrite (orDefault_id PeerLatency) by lia. apply unless_ok. lia.
Qed.

Lemma checkWindows_id c : windowsOk c -> payloadOk c -> checkWindows c = Ok c /\ checkPayload c = Ok c.
Proof.
  unfold checkWindows, checkPayload, MinFC, MinBufSize, MinPayload, WireHeaderSize. intros (H1 & H2 & H3 & H4) H5. split.
  - rewrite orDefault_id by lia. cbv zeta. unfold mbind, result_bind. rewrite unless_ok by lia.
    rewrite (orDefault_id OverheadBW) by lia. rewrite unless_ok by lia. rewrite (orDefault_id SendBufSize) by lia. rewrite unless_ok by lia.
    rewrite (orDefault_id RecvBufSize) by lia. rewrite unless_ok by lia. destruct (RecvBufSize c >? FC c) eqn:E; [lia|done].
  - destruct (PayloadSize c >? 0) eqn:E; [|done]. unfold mbind, result_bind. destruct H5 as [H5|H5]; [lia|]. rewrite unless_ok by lia. apply unless_ok. lia.
Qed.

Lemma checkIdentity_id c : identityOk c -> checkIdentity c = Ok c.
Proof.
  intros [H1 H2]. unfold checkIdentity, mbind, result_bind. rewrite unless_ok by lia. destruct (secured c); [|done].
  destruct (H2 eq_refl) as [H3 H4]. rewrite unless_ok by lia. cbv zeta.
  rewrite orDefault_id by (unfold validKeyLength in H4; lia). apply unless_ok. by rewrite H4.
Qed.

Lemma checkTimeouts_id c : timeoutsOk c -> Linger c <> 0 -> checkTimeouts c = Ok c.
Proof.
  intros (H1 & H2 & H3) H4. unfold checkTimeouts, MaxLinger, second, ms in *. cbv zeta. rewrite (orDefault_id ConnTimeout) by done.
  rewrite (orDefault_id Linger) by done. rewrite atLeast_id by lia. destruct (Linger c >? _) eqn:E; [lia|].
  rewrite (orDefault_id PeerIdleTimeout) by lia. apply unless_ok. lia.
Qed.

Lemma checkKeys_id c : keysOk c -> checkKeys c = Ok c.
Proof.
  intros (H1 & H2 & H3 & H4 & H5 & H6 & H7 & H8). unfold checkKeys. cbv zeta. rewrite set_id by done.
  assert ((KMRefreshRate c =? 0) && secured c = false) as -> by (destruct (secured c); [specialize (H2 eq_refl)|]; lia).
  assert ((KMPreAnnounce c =? 0) && (KMRefreshRate c >? 0) = false) as -> by (destruct (KMRefreshRate c >? 0) eqn:E; [specialize (H1 ltac:(lia))|]; lia).
  rewrite unless_ok by (destruct (KMRefreshRate c >? 0) eqn:E; [specialize (H1 ltac:(lia))|]; lia). unfold mbind, result_bind.
  rewrite (orDefault_id MinVersion), (atLeast_id LossMaxTTL), (atLeast_id SndDropDelay) by done. by rewrite set2_id.
Qed.

Lemma checkSocket_id c : socketOk c -> ratesOk c -> 0 < MSS c -> checkSocket c = Ok c /\ checkRates c = Ok c.
Proof.
  unfold udpBufOk. intros (H1 & H2 & H3 & H4) (H5 & H6 & H7) Hm. unfold udpBufOk in *. unfold checkSocket, checkRates. cbv zeta. split.
  - assert (negb (IPTTL c =? -1) && ((IPTTL c <? 1) || (IPTTL c >? 255)) = false) as -> by lia. unfold mbind, result_bind.
    rewrite unless_ok by lia. rewrite (atLeast_id UDPSendBufSize) by lia.
    assert ((UDPSendBufSize c >? 0) && (UDPSendBufSize c <? MSS c) = false) as -> by lia. rewrite (atLeast_id UDPRecvBufSize) by lia.
    by assert ((UDPRecvBufSize c >? 0) && (UDPRecvBufSize c <? MSS c) = false) as -> by lia.
  - rewrite (atLeast_id MinInputBW), (atLeast_id InputBW) by done. destruct (PacketFilter c) as [|z l]; [done|]. specialize (H7 ltac:(done)).
    by destruct (FilterConfig.ParseConfig _ _).
Qed.

Lemma validate_fixed (c : Config) : configOk c -> Linger c <> 0 -> validate c = Ok c.
Proof.
  intros [[H1 H2] H3 H4 H5 H6 H7 H8 H9 H10] Hl. destruct (checkSegments_id _ H2 H3) as [E1 E2]. destruct (checkWindows_id _ H4 H5) as [E3 E4].
  destruct (checkSocket_id _ H9 H10 ltac:(lia)) as [E5 E6]. unfold validate, mbind, result_bind.
  by rewrite checkCongestion_id, E1, E2, E3, E4, checkIdentity_id, checkTimeouts_id, checkKeys_id, E5, E6.
Qed.


Definition encrypted : Config := zeroConfig <| Passphrase := Handshake.bytesOf "0123456789"%string |> <| Linger := -1 |>.
Definition validated (c : Config) : Config := match validate c with Ok c' => c' | Err _ => c end.


(** A latency of 66 s is accepted and offered to the peer as 464 ms. *)
Theorem config_latency_wraps : let c := DefaultConfig <| Latency := 66 * second |> in
  exists c', validate c = Ok c' /\ RecvLatency c' = 66 * second /\ recvLatencyMS c' = 464 /\ peerLatencyMS c' = 464.
Proof. eexists. split; [vm_compute; reflexivity|]. by vm_compute. Qed.

(** Key rotation cannot be switched off by a refresh rate of 0. *)
Theorem config_rotation_forced (c c' : Config) : validate c = Ok c' -> secured c' = true -> KMRefreshRate c' <> 0.
Proof. intros H%validate_ok. destruct (ok_keys _ H) as (_ & H1 & _). exact H1. Qed.

(** A configuration that disables lingering is changed by a second check. *)
Theorem config_linger_lost : Linger (validated encrypted) = 0 /\ Linger (validated (validated encrypted)) = DefaultLiveLinger.
Proof. by vm_compute. Qed.

(** ** Reading what a client wrote *)

(** A stream ID as the access-control convention writes it. *)
Fixpoint join (sep : Z) (ws : list (list Z)) : list Z :=
  match ws with
  | [] => []
  | [w] => w
  | w :: ws => w ++ sep :: join sep ws
  end.
Definition field (kv : list Z * list Z) : list Z := kv.1 ++ equals :: kv.2.
Definition formatStreamID (kvs : list (list Z * list Z)) : list Z := streamIDPrefix ++ join comma (map field kvs).
Definition pairOk (kv : list Z * list Z) : Prop := kv.1 <> [] /\ (equals ∉ kv.1) /\ (comma ∉ kv.1) /\ (comma ∉ kv.2).

Lemma splitAt_word sep w : sep ∉ w -> splitAt sep w = [w].
Proof.
  induction w as [|b w IH]; intros H; [done|]. apply not_elem_of_cons in H as [H1 H2]. simpl. rewrite IH by done.
  destruct (b =? sep) eqn:E; [apply Z.eqb_eq in E; congruence|done].
Qed.

Lemma splitAt_cons sep w rest : sep ∉ w -> splitAt sep (w ++ sep :: rest) = w :: splitAt sep rest.
Proof.
  induction w as [|b w IH]; intros H; simpl; [by rewrite Z.eqb_refl|]. apply not_elem_of_cons in H as [H1 H2]. rewrite IH by done.
  destruct (b =? sep) eqn:E; [apply Z.eqb_eq in E; congruence|done].
Qed.

Lemma splitAt_join sep ws : ws <> [] -> Forall (fun w => ~ (sep ∈ w)) ws -> splitAt sep (join sep ws) = ws.
Proof.
  intros Hn. induction 1 as [|w ws Hw Hws IH]; [done|]. destruct ws as [|w' ws]; [by apply splitAt_word|].
  change (join sep (w :: w' :: ws)) with (w ++ sep :: join sep (w' :: ws)). rewrite splitAt_cons by done. f_equal. by apply IH.
Qed.

Lemma Cut_field kv : equals ∉ kv.1 -> Cut equals (field kv) = Some kv.
Proof.
  destruct kv as [k v]. unfold field. cbn [fst snd]. induction k as [|b k IH]; intros H; [done|]. apply not_elem_of_cons in H as [H1 H2].
  change ((b :: k) ++ equals :: v) with (b :: (k ++ equals :: v)). cbn [Cut].
  destruct (b =? equals) eqn:E; [apply Z.eqb_eq in E; congruence|]. by rewrite IH.
Qed.

Lemma parseField_pairs kvs : forall n i, Forall pairOk kvs ->
  fold_left parseField (map field kvs) (n, i) = ((n + length kvs)%nat, fold_left (fun i kv => setKey kv.1 kv.2 i) kvs i).
Proof.
  induction kvs as [|[k v] kvs IH]; intros n i H; simpl; [by rewrite Nat.add_0_r|]. apply Forall_cons in H as [(H1 & H2 & _) H].
  unfold parseField at 2. rewrite Cut_field by done. cbn [fst snd] in *. destruct k as [|b k]; [done|].
  rewrite IH by done. f_equal. lia.
Qed.

(** Parsing a structured stream ID gives back the pairs it was made of. *)
Theorem streamid_roundtrip (kvs : list (list Z * list Z)) : kvs <> [] -> Forall pairOk kvs ->
  ParseStreamID (formatStreamID kvs) = (fold_left (fun i kv => setKey kv.1 kv.2 i) kvs noInfo, true).
Proof.
  intros Hn Hok. unfold ParseStreamID, formatStreamID. change 4%nat with (length streamIDPrefix). rewrite take_app_length, drop_app_length.
  rewrite bool_decide_true by done. cbn [negb].
  assert (Hb : join comma (map field kvs) <> []).
  { destruct kvs as [|[k v] kvs]; [done|]. cbn [map join]. destruct (map field kvs) as [|w ws], k; discriminate. }
  destruct (join comma (map field kvs)) as [|b l] eqn:E; [done|]. rewrite <- E, splitAt_join, parseField_pairs; [|done| |].
  - by destruct kvs.
  - by destruct kvs.
  - apply Forall_map. eapply Forall_impl; [exact Hok|]. intros [k v] (H1 & H2 & H3 & H4). unfold field. simpl in *.
    rewrite not_elem_of_app, not_elem_of_cons. by split_and!.
Qed.

End SrtConfig.
