(* ===== verification/SockOpt.v ===== *)
(** * OS socket options ([internal/session/sockopt.go])

    The options of the datagram socket are set one by one between its creation and
    its bind; the first one the system refuses ends the attempt.  The system's
    answers are a parameter. *)
From Stdlib Require Import ZArith Lia.
From stdpp Require Import base numbers list option.
From S2P Require Import Prelude SrtConfig.
Import SrtConfig(UDPSocketOptions, mkUDP, u_IPTTL, u_IPTOS, u_IPv6Only, u_BindToDevice, u_UDPSendBufSize, u_UDPRecvBufSize).
Local Open Scope Z_scope.

Module SockOpt.

(** [setsockopt] with a level and an option. *)
Inductive sockopt : Type :=
| SO_SNDBUF (n : Z) | SO_RCVBUF (n : Z)
| IP_TTL (n : Z) | IPV6_UNICAST_HOPS (n : Z)
| IP_TOS (n : Z) | IPV6_TCLASS (n : Z)
| IPV6_V6ONLY (n : Z)
| SO_BINDTODEVICE (device : list Z).

Inductive sockError : Type := Errno (n : Z) | ErrNotLinux.

(** The option a call is about, whatever its value and the family of the socket. *)
Definition about (c : sockopt) : nat :=
  match c with
  | SO_SNDBUF _ => 0 | SO_RCVBUF _ => 1 | IP_TTL _ | IPV6_UNICAST_HOPS _ => 2 | IP_TOS _ | IPV6_TCLASS _ => 3
  | IPV6_V6ONLY _ => 4 | SO_BINDTODEVICE _ => 5
  end.
Definition forIPv6 (c : sockopt) : option bool :=
  match c with
  | IP_TTL _ | IP_TOS _ => Some false
  | IPV6_UNICAST_HOPS _ | IPV6_TCLASS _ | IPV6_V6ONLY _ => Some true
  | _ => None
  end.

Section System.
(** The answer of the system to a call, and whether it is Linux. *)
Context (setsockopt : sockopt -> option Z) (linux : bool).

(** The calls that were made and the error that ended them. *)
Definition outcome : Type := list sockopt * option sockError.

Definition call (c : sockopt) : outcome := ([c], Errno <$> setsockopt c).

Definition setBindToDevice (device : list Z) : outcome :=
  if linux then call (SO_BINDTODEVICE device) else ([], Some ErrNotLinux).

(** [if opErr = ...; opErr != nil { return }]. *)
Definition andThen (x y : outcome) : outcome :=
  match x with (made, Some e) => (made, Some e) | (made, None) => (made ++ fst y, snd y) end.
Definition unless_ (b : bool) (x : outcome) : outcome := if b then x else ([], None).

Definition needsControl (o : UDPSocketOptions) : bool :=
  (u_IPTTL o >? 0) || (u_IPTOS o >=? 0) || bool_decide (is_Some (u_IPv6Only o)) || negb (bool_decide (u_BindToDevice o = [])) ||
  (u_UDPSendBufSize o >? 0) || (u_UDPRecvBufSize o >? 0).

(** [control], on a socket of either family whose descriptor [RawConn.Control] lends
    to the callback (it always does between the creation and the bind). *)
Definition control (o : UDPSocketOptions) (isIPv6 : bool) : outcome :=
  andThen (unless_ (u_UDPSendBufSize o >? 0) (call (SO_SNDBUF (u_UDPSendBufSize o)))) (
  andThen (unless_ (u_UDPRecvBufSize o >? 0) (call (SO_RCVBUF (u_UDPRecvBufSize o)))) (
  andThen (unless_ (u_IPTTL o >? 0) (if isIPv6 then call (IPV6_UNICAST_HOPS (u_IPTTL o)) else call (IP_TTL (u_IPTTL o)))) (
  andThen (unless_ (u_IPTOS o >=? 0) (if isIPv6 then call (IPV6_TCLASS (u_IPTOS o)) else call (IP_TOS (u_IPTOS o)))) (
  andThen (match u_IPv6Only o with
           | Some v => unless_ isIPv6 (call (IPV6_V6ONLY (if v then 1 else 0)))
           | None => ([], None)
           end) (
  match u_BindToDevice o with [] => ([], None) | d => setBindToDevice d end))))).

(** [ListenUDP] up to the bind: no control function when nothing is to be set. *)
Definition ListenUDP (isIPv6 : bool) (o : UDPSocketOptions) : outcome :=
  if negb (needsControl o) then ([], None) else control o isIPv6.

(** ** What is set *)

(** The calls the options ask for. *)
Definition asked (o : UDPSocketOptions) (isIPv6 : bool) : list sockopt :=
  (if u_UDPSendBufSize o >? 0 then [SO_SNDBUF (u_UDPSendBufSize o)] else []) ++
  (if u_UDPRecvBufSize o >? 0 then [SO_RCVBUF (u_UDPRecvBufSize o)] else []) ++
  (if u_IPTTL o >? 0 then [if isIPv6 then IPV6_UNICAST_HOPS (u_IPTTL o) else IP_TTL (u_IPTTL o)] else []) ++
  (if u_IPTOS o >=? 0 then [if isIPv6 then IPV6_TCLASS (u_IPTOS o) else IP_TOS (u_IPTOS o)] else []) ++
  (match u_IPv6Only o with Some v => if isIPv6 then [IPV6_V6ONLY (if v then 1 else 0)] else [] | None => [] end) ++
  (match u_BindToDevice o with [] => [] | d => if linux then [SO_BINDTODEVICE d] else [] end).

(** The calls of [l] up to the first that is refused. *)
Fixpoint upTo (l : list sockopt) : outcome :=
  match l with
  | [] => ([], None)
  | c :: l => match setsockopt c with Some e => ([c], Some (Errno e)) | None => let '(made, r) := upTo l in (c :: made, r) end
  end.

Lemma upTo_app l1 l2 : upTo (l1 ++ l2) = andThen (upTo l1) (upTo l2).
Proof.
  induction l1 as [|c l1 IH]; cbn [app upTo]; [by destruct (upTo l2)|]. destruct (setsockopt c); [done|]. rewrite IH.
  destruct (upTo l1) as [made [e|]]; done.
Qed.

Lemma call_upTo (b : bool) c : unless_ b (call c) = upTo (if b then [c] else []).
Proof. destruct b; cbn; [|done]. unfold call. by destruct (setsockopt c). Qed.

Lemma andThen_ok x : andThen x ([], None) = x.
Proof. destruct x as [made [e|]]; cbn; [done|]. by rewrite app_nil_r. Qed.

Lemma control_upTo o isIPv6 : control o isIPv6 =
  andThen (upTo (asked o isIPv6)) (match u_BindToDevice o with [] => ([], None) | _ => if linux then ([], None) else ([], Some ErrNotLinux) end).
Proof.
  unfold control, asked. rewrite !upTo_app.
  assert (forall x y z, andThen (andThen x y) z = andThen x (andThen y z)) as A.
  { intros [mx [ex|]] [my [ey|]] z; cbn; try done; by rewrite <- app_assoc. }
  assert (forall a b, (if isIPv6 then call a else call b) = call (if isIPv6 then a else b)) as C by (intros; by destruct isIPv6).
  rewrite !A, !C, !call_upTo. do 4 f_equal. f_equal; [destruct (u_IPv6Only o); [by rewrite call_upTo|done]|].
  destruct (u_BindToDevice o) as [|x d]; [done|]. unfold setBindToDevice. destruct linux; [|done].
  rewrite andThen_ok. exact (call_upTo true _).
Qed.

Lemma upTo_spec l : exists made rest err, upTo l = (made, err) /\ l = made ++ rest /\
  match err with
  | None => rest = [] /\ Forall (fun c => setsockopt c = None) made
  | Some (Errno e) => exists l c, made = l ++ [c] /\ setsockopt c = Some e /\ Forall (fun c => setsockopt c = None) l
  | Some ErrNotLinux => False
  end.
Proof.
  induction l as [|c l IH]; [by exists [], [], None|]. cbn [upTo]. destruct (setsockopt c) as [e|] eqn:E.
  - exists [c], l, (Some (Errno e)). split; [done|]. split; [done|]. by exists [], c.
  - destruct IH as (made & rest & err & -> & -> & H). exists (c :: made), rest, err. split; [done|]. split; [done|].
    destruct err as [[e|]|]; [|done|].
    + destruct H as (l1 & c1 & -> & H1 & H2). exists (c :: l1), c1. split; [done|]. split; [done|]. by constructor.
    + destruct H as [-> H]. split; [done|]. by constructor.
Qed.

Lemma asked_nodup o isIPv6 : NoDup (map about (asked o isIPv6)) /\ Forall (fun c => forIPv6 c = None \/ forIPv6 c = Some isIPv6) (asked o isIPv6).
Proof.
  unfold asked. destruct (_ >? 0), (_ >? 0), (_ >? 0), (_ >=? 0), (u_IPv6Only o), (u_BindToDevice o), linux, isIPv6; cbn;
    (split; [apply (bool_decide_unpack _); vm_compute; exact I|repeat constructor; (by left) || (by right)]).
Qed.

(** The socket gets what the options ask for: the calls are made in a fixed order,
    each option at most once and for the family of the socket, up to the first one
    the system refuses, whose error is returned; without an error all of them were
    made. *)
Theorem socket_options_applied (isIPv6 : bool) (o : UDPSocketOptions) :
  let '(made, err) := ListenUDP isIPv6 o in
  made `prefix_of` asked o isIPv6 /\ NoDup (map about made) /\
  Forall (fun c => forIPv6 c = None \/ forIPv6 c = Some isIPv6) made /\
  match err with
  | None => made = asked o isIPv6 /\ Forall (fun c => setsockopt c = None) made
  | Some (Errno e) => exists l c, made = l ++ [c] /\ setsockopt c = Some e /\ Forall (fun c => setsockopt c = None) l
  | Some ErrNotLinux => made = asked o isIPv6 /\ linux = false /\ u_BindToDevice o <> []
  end.
Proof.
  assert (ListenUDP isIPv6 o = control o isIPv6) as ->.
  { unfold ListenUDP. destruct (needsControl o) eqn:E; [done|]. unfold needsControl in E. rewrite !orb_false_iff in E.
    destruct E as [[[[[E1 E2] E3] E4] E5] E6]. unfold control. rewrite E1, E2, E5, E6. apply negb_false_iff, bool_decide_eq_true in E4.
    apply bool_decide_eq_false in E3. rewrite E4. destruct (u_IPv6Only o); [by destruct E3|done]. }
  rewrite control_upTo. destruct (asked_nodup o isIPv6) as [Hn Hf]. destruct (upTo_spec (asked o isIPv6)) as (made & rest & err & E & Ea & He).
  rewrite E. rewrite Ea, map_app in Hn. rewrite Ea in Hf. apply list.NoDup_app in Hn as [Hn _]. apply list.Forall_app in Hf as [Hf _].
  destruct err as [[e|]|]; cbn [andThen fst snd]; [|done|].
  - split; [by exists rest|]. done.
  - destruct He as [-> He]. rewrite app_nil_r in Ea. subst made.
    assert (asked o isIPv6 `prefix_of` asked o isIPv6) by done.
    destruct (u_BindToDevice o) as [|x d]; [|destruct linux]; cbn [fst snd]; rewrite app_nil_r; done.
Qed.

(** The zero value of the options sets the type of service: only [-1] leaves it. *)
Theorem zero_options_apply : setsockopt (IP_TOS 0) = None -> ListenUDP false (mkUDP 0 0 None [] 0 0) = ([IP_TOS 0], None).
Proof. intros H. unfold ListenUDP, control, call. cbn. by rewrite H. Qed.

End System.

(** A system that refuses to bind to a device. *)
Definition toySystem (c : sockopt) : option Z := match c with SO_BINDTODEVICE _ => Some 1 | _ => None end.

Lemma socket_options_example :
  ListenUDP toySystem true true (mkUDP 64 (-1) (Some true) [101] 0 8192) =
    ([SO_RCVBUF 8192; IPV6_UNICAST_HOPS 64; IPV6_V6ONLY 1; SO_BINDTODEVICE [101]], Some (Errno 1)) /\
  ListenUDP toySystem false false (mkUDP 0 0 (Some true) [] 0 0) = ([IP_TOS 0], None).
Proof. split; reflexivity. Qed.

End SockOpt.
