(* ===== verification/SrtConn.v ===== *)
(** * The public connection ([conn.go], [msgctrl.go])

    The methods of [Conn] that write, read and align, over the session: what
    options a message is queued with, which payloads are refused, and what a group
    that asks for the sequence number right after a write can be told. *)
From Stdlib Require Import ZArith Lia.
From stdpp Require Import base numbers list option gmap.
From S2P Require Import Prelude Packet Seq Clock Fifo Output Tsbpd Crypto Float64 ConnState ConnSend ConnRecv Establish Handshake Sender DeliveryQueue Session SessionSafe SessionDial CoreStats SrtConfig.
Local Open Scope Z_scope.

Module SrtConn.
Import Session.Session(Session, writeReq, writeResult, WOk, WErr, sessionError).
Import SessionDial(identity, mkIdentity, i_streamID, i_socketID, i_groupID).

Record Conn : Type := mkConn {
  s : Session;
  ids : identity;
  cfg : SrtConfig.Config;
  isServer : bool;
  sndSyn : bool;
  rcvSyn : bool;
  sndTimeo : Z;
  rcvTimeo : Z;
  groupSrcTime : Z;
  (* SendRate *)
  rateAt : option Z;
  rateP : Z;
  rateB : Z;
  (* Stats and ExtendedStats *)
  startTime : Z;
  clearAt : Z;
  clearSntBytes : Z;
  clearRcvBytes : Z;
  averages : option (Float64.f64 * Float64.f64 * Float64.f64 * Float64.f64)
}.
#[global] Instance eta_pc : Eta Conn := fun c =>
  mkConn (s c) (ids c) (cfg c) (isServer c) (sndSyn c) (rcvSyn c) (sndTimeo c) (rcvTimeo c) (groupSrcTime c) (rateAt c) (rateP c) (rateB c)
    (startTime c) (clearAt c) (clearSntBytes c) (clearRcvBytes c) (averages c).
#[global] Instance fld_pc_s : Field s. Proof. derive_field. Defined.
#[global] Instance fld_pc_cfg : Field cfg. Proof. derive_field. Defined.
#[global] Instance fld_pc_sndSyn : Field sndSyn. Proof. derive_field. Defined.
#[global] Instance fld_pc_rcvSyn : Field rcvSyn. Proof. derive_field. Defined.
#[global] Instance fld_pc_sndTimeo : Field sndTimeo. Proof. derive_field. Defined.
#[global] Instance fld_pc_rcvTimeo : Field rcvTimeo. Proof. derive_field. Defined.
#[global] Instance fld_pc_groupSrcTime : Field groupSrcTime. Proof. derive_field. Defined.
#[global] Instance fld_pc_rateAt : Field rateAt. Proof. derive_field. Defined.
#[global] Instance fld_pc_rateP : Field rateP. Proof. derive_field. Defined.
#[global] Instance fld_pc_rateB : Field rateB. Proof. derive_field. Defined.
#[global] Instance fld_pc_clearAt : Field clearAt. Proof. derive_field. Defined.
#[global] Instance fld_pc_clearSntBytes : Field clearSntBytes. Proof. derive_field. Defined.
#[global] Instance fld_pc_clearRcvBytes : Field clearRcvBytes. Proof. derive_field. Defined.
#[global] Instance fld_pc_averages : Field averages. Proof. derive_field. Defined.

(** [newConn] at wall time [wall]: the negotiated sizes replace the configured ones
    when the loop answers; a positive linger reaches the session. *)
Definition newConn (wall : Z) (sess : Session) (ids : identity) (cfg : SrtConfig.Config) (isServer : bool) : Conn :=
  let '(st, ok) := CoreStats.sessionStats sess in
  let cfg := if ok then cfg <| SrtConfig.MSS := CoreStats.NegotiatedMSS st |> <| SrtConfig.PayloadSize := CoreStats.PayloadSize st |> else cfg in
  let snd := SrtConfig.sndSynEnabled cfg in
  let rcv := SrtConfig.rcvSynEnabled cfg in
  let sess := Session.SetWriteBlocking snd (Session.SetReadBlocking rcv sess) in
  let sess := if SrtConfig.Linger cfg >? 0 then Session.SetLinger (SrtConfig.Linger cfg) sess else sess in
  mkConn sess ids cfg isServer snd rcv 0 0 0 None 0 0 wall wall 0 0 None.

(** ** Writing *)

Inductive connError : Type := ErrPayloadTooLarge | ErrSession (e : sessionError).

(** Live messages fit one packet. *)
Definition checkPayloadSize (b : list Z) (c : Conn) : bool :=
  negb (Establish.same (SrtConfig.congestionString (cfg c)) Handshake.file) && (len b >? SrtConfig.PayloadSize (cfg c)).

(** A message queued with options [o]. *)
Inductive queue (o : ConnSend.MsgOptions) (b : list Z) (deadline expired : bool) (c : Conn) : result connError Z -> Conn -> Prop :=
| queue_large : checkPayloadSize b c = true -> queue o b deadline expired c (Err ErrPayloadTooLarge) c
| queue_failed e sess : checkPayloadSize b c = false -> Session.WriteMsg b o deadline expired (s c) (WErr e) sess ->
    queue o b deadline expired c (Err (ErrSession e)) (c <| s := sess |>)
| queue_ok sess : checkPayloadSize b c = false -> Session.WriteMsg b o deadline expired (s c) WOk sess ->
    queue o b deadline expired c (Ok (len b)) (c <| s := sess |>).

Definition plainOptions : ConnSend.MsgOptions := ConnSend.mkOpts 0 true 0 0 false.
Definition Write (b : list Z) : bool -> bool -> Conn -> result connError Z -> Conn -> Prop := queue plainOptions b.

(** [SrcTime] is a wall-clock instant in nanoseconds, [None] the zero time. *)
Record MsgCtrl : Type := mkCtrl { SrcTime : option Z; MsgTTL : Z; InOrder : bool }.

(** The options of [WriteMsgCtrl] at clock [now] and wall time [wall]. *)
Definition ctrlOptions (now wall : Z) (mc : option MsgCtrl) (c : Conn) : ConnSend.MsgOptions :=
  let '(src, order, ttl) :=
    match mc with
    | None => (0, true, 0)
    | Some m =>
        (match SrcTime m with None => 0 | Some t => u32 (Clock.SRTTimestamp now - u32 (Z.quot (wall - t) 1000)) end,
         InOrder m, if MsgTTL m >? 0 then Z.quot (MsgTTL m) 1000 else 0)
    end in
  ConnSend.mkOpts (if groupSrcTime c =? 0 then src else groupSrcTime c) order ttl 0 false.
Definition WriteMsgCtrl (now wall : Z) (b : list Z) (mc : option MsgCtrl) (deadline expired : bool) (c : Conn) : result connError Z -> Conn -> Prop :=
  queue (ctrlOptions now wall mc c) b deadline expired c.

Definition writeBalanced (b : list Z) (msgNo : Z) : bool -> bool -> Conn -> result connError Z -> Conn -> Prop :=
  queue (ConnSend.mkOpts 0 true 0 msgNo true) b.

Definition WriteMessage (now wall : Z) (b : list Z) : bool -> bool -> Conn -> result connError Z -> Conn -> Prop :=
  WriteMsgCtrl now wall b None.

(** ** Reading *)

Definition Read (blen : nat) (expired : bool) (c : Conn) : Session.readResult * Conn :=
  let '(r, x) := Session.Read blen expired (s c) in (r, c <| s := x |>).
Definition ReadBatch (blen : nat) (expired : bool) (c : Conn) : Session.readResult * Conn :=
  let '(r, x) := Session.ReadBatch blen expired (s c) in (r, c <| s := x |>).

(** The metadata is in the result: the caller's [MsgCtrl] is filled on success. *)
Definition ReadMsgCtrl (blen : nat) (expired : bool) (c : Conn) : Session.readResult * Conn :=
  let '(r, x) := Session.ReadMsg blen expired (s c) in (r, c <| s := x |>).
Definition ReadMessage : nat -> bool -> Conn -> Session.readResult * Conn := ReadMsgCtrl.

(** ** Group bookkeeping *)

Definition setGroupSrcTime (ts : Z) (c : Conn) : Conn := c <| groupSrcTime := ts |>.
Definition clearGroupSrcTime (c : Conn) : Conn := c <| groupSrcTime := 0 |>.
Definition PeerGroupID (c : Conn) : Z := i_groupID (ids c).
Definition StreamID (c : Conn) : list Z := i_streamID (ids c).
Definition SocketID (c : Conn) : Z := i_socketID (ids c).
Definition isConnected (c : Conn) : bool := Session.Alive (s c).
Definition peerIdleTimeout (c : Conn) : Z := SrtConfig.PeerIdleTimeout (cfg c).

(** A query of the core through [onLoop]: the zero value once the loop is gone. *)
Definition ask {A : Type} (zero : A) (f : ConnState.Conn -> A) (c : Conn) : A :=
  if Session.loopDone (s c) then zero else f (Session.core (s c)).
Definition SchedSeqNo : Conn -> Z := ask 0 ConnSend.SchedSeqNo.
Definition LastMsgNo : Conn -> Z := ask 0 ConnSend.LastMsgNo.
Definition loadLastACKSeq : Conn -> Z := ask 0 ConnRecv.AckSeqNo.
Definition RcvBufEmpty : Conn -> bool := ask false ConnRecv.RcvBufEmpty.
Definition RcvBufStartSeq : Conn -> Z := ask 0 ConnRecv.RcvBufStartSeq.
Definition groupIdle : Conn -> bool := ask false ConnState.groupIdle.
Definition TSBPDTimeBase : Conn -> option Tsbpd.GroupTimeBase := ask None ConnRecv.TSBPDTimeBase.
Definition getRateEstimate (c : Conn) : Z := CoreStats.MaxBW (fst (CoreStats.sessionStats (s c))).

(** [SendRate] at wall time [wall] (nanoseconds): rates over the time since the last
    call, none on the first. *)
Definition Seconds (d : Z) : Float64.f64 :=
  Float64.fadd (Float64.ofZ (Z.quot d 1000000000)) (Float64.fdiv (Float64.ofZ (Z.rem d 1000000000)) (Float64.ofZ 1000000000)).
Definition perSecond (wall at_ count before : Z) : Z :=
  let dt := Seconds (wall - at_) in
  if Float64.flt (Float64.ofZ 0) dt then Float64.toInt (Float64.fdiv (Float64.ofZ (u64 (count - before))) dt) else 0.
Definition SendRate (wall : Z) (c : Conn) : Z * Z * Conn :=
  let '(st, ok) := CoreStats.sessionStats (s c) in
  if negb ok then (0, 0, c) else
  let '(p, b) := match rateAt c with
                 | None => (0, 0)
                 | Some at_ => (perSecond wall at_ (CoreStats.SentPackets st) (rateP c), perSecond wall at_ (CoreStats.SentBytes st) (rateB c))
                 end in
  (p, b, c <| rateAt := Some wall |> <| rateP := CoreStats.SentPackets st |> <| rateB := CoreStats.SentBytes st |>).

(** *** Calls that act on the core: one turn of the loop serves the closure *)

Section Served.
Context {P : Crypto.Primitives} {M : Float64.GoMath} {O : ConnRecv.RangeOrder} (capOf : list Z -> Z).

Definition serve (now wall : Z) (f : Session.ctrlFn) (c : Conn) : Conn :=
  c <| s ::= fun x => default x (Session.step capOf now wall (Session.InCtrl f) x) |>.
Definition OverrideSndSeqNo (now wall n : Z) (c : Conn) : bool * Conn :=
  (ask false (fun x => fst (ConnSend.OverrideSndSeqNo n x)) c, serve now wall (Session.COverrideSndSeqNo n) c).
Definition ResetRecvState (now wall n : Z) : Conn -> Conn := serve now wall (Session.CResetRecvState n).
Definition ApplyGroupDrift (now wall : Z) (tb : Tsbpd.GroupTimeBase) : Conn -> Conn := serve now wall (Session.CApplyGroupDrift tb).
Definition ApplyGroupTime (now wall : Z) (tb : Tsbpd.GroupTimeBase) : Conn -> Conn := serve now wall (Session.CApplyGroupTime tb).
Definition SendKeepAlive (now wall : Z) : Conn -> Conn := serve now wall (Session.CSendKeepAlive now).

End Served.

(** ** Properties *)

(** What a successful call leaves at the end of the queue. *)
Lemma queue_last o b deadline expired c n c' : queue o b deadline expired c (Ok n) c' ->
  n = len b /\ checkPayloadSize b c = false /\ Session.writeC (s c') = Session.writeC (s c) ++ [Session.request b o].
Proof.
  inversion 1 as [| |sess Hp Hw]; subst. split; [done|]. split; [done|]. fields. inversion Hw; subst. by fields.
Qed.

(** The loop serves the queue in order: the message goes to the core as it was
    given, with its options, when the loop takes it. *)
Theorem conn_write_queued (b : list Z) (deadline expired : bool) (c c' : Conn) (n : Z) (pinned : Z) :
  Write b deadline expired (setGroupSrcTime pinned c) (Ok n) c' ->
  n = len b /\ exists req, Session.writeC (s c') = Session.writeC (s c) ++ [req] /\ Session.payload req = b /\
    ConnSend.SrcTime (Session.opts req) = 0 /\ ConnSend.InOrder (Session.opts req) = true /\ ConnSend.ForceMsgNo (Session.opts req) = false.
Proof. intros (H1 & _ & H2)%queue_last. split; [done|]. eexists. split; [exact H2|]. done. Qed.

(** [WriteMsgCtrl] is the only call that uses a pinned source time. *)
Theorem conn_ctrl_pinned (now wall : Z) (b : list Z) (mc : option MsgCtrl) (deadline expired : bool) (c c' : Conn) (n pinned : Z) :
  pinned <> 0 -> WriteMsgCtrl now wall b mc deadline expired (setGroupSrcTime pinned c) (Ok n) c' ->
  exists req, Session.writeC (s c') = Session.writeC (s c) ++ [req] /\ ConnSend.SrcTime (Session.opts req) = pinned.
Proof.
  intros Hp (_ & _ & H)%queue_last. eexists. split; [exact H|]. cbn [Session.request Session.opts]. unfold ctrlOptions, setGroupSrcTime. fields.
  destruct (pinned =? 0) eqn:E; [lia|]. destruct mc; done.
Qed.

(** *** Asking for the sequence number *)

#[local] Existing Instances Crypto.toy Float64.toyMath ConnRecv.toyRange.

Definition toyPublic : Conn := newConn 0 (Session.newSession None Sender.toyConn) (mkIdentity [] 7 0) SrtConfig.DefaultConfig false.
Definition toyWritten : Conn := toyPublic <| s ::= fun x => x <| Session.writeC ::= fun q => q ++ [Session.request [1; 2] plainOptions] |> |>.

(** [Write] only queues: a query for the next sequence number that the loop serves
    before the queue is told the number of the message, one served after it is told
    the number that follows. *)
Theorem conn_seq_query_races : exists after,
  Write [1; 2] false false toyPublic (Ok 2) toyWritten /\
  Session.step SessionSafe.toyCap 2000 0 Session.InWrite (s toyWritten) = Some after /\
  SchedSeqNo toyWritten = 5 /\ ConnSend.SchedSeqNo (Session.core after) = 6.
Proof.
  eexists. split_and!; [|vm_compute; reflexivity|vm_compute; reflexivity|vm_compute; reflexivity].
  apply queue_ok; [vm_compute; reflexivity|]. apply Session.write_queued; [done|]. vm_compute. lia.
Qed.

End SrtConn.
