(* ===== verification/SrtSockOpt.v ===== *)
(** * Socket options ([srtsockopt.go])

    The table of options, [GetOption] and [SetOption] over the public connection.
    A value of type [any] is tagged with its Go type, which the assertions of
    [SetOption] inspect. *)
From Stdlib Require Import ZArith Lia String.
From stdpp Require Import base numbers list option gmap.
From S2P Require Import Prelude Fifo Congestion Crypto Float64 ConnState ConnSend ConnRecv Establish Handshake Sender Session SessionSafe SessionDrain CoreStats SrtConfig SrtConn.
Local Open Scope Z_scope.

Module SrtSockOpt.
Import SrtConn(Conn, s, cfg, isServer, sndSyn, rcvSyn, sndTimeo, rcvTimeo).

Inductive SockOpt : Type :=
| SockOptMaxBW | SockOptPayloadSize | SockOptRcvLatency | SockOptSndLatency | SockOptState | SockOptPeerVersion | SockOptStreamID
| SockOptMSS | SockOptFC | SockOptInputBW | SockOptISN | SockOptPeerISN | SockOptSndKmState | SockOptRcvKmState | SockOptKmState
| SockOptSndData | SockOptRcvData | SockOptSndBuf | SockOptRcvBuf | SockOptFlightSize | SockOptRTT | SockOptRTTVar | SockOptVersion
| SockOptCongestion | SockOptTransType | SockOptMessageAPI | SockOptTSBPDMode | SockOptTLPktDrop | SockOptNAKReport
| SockOptRetransmitAlgo | SockOptPBKeyLen | SockOptCryptoMode | SockOptPeerIdleTimeout | SockOptLinger | SockOptEvent
| SockOptDriftTracer | SockOptPacketFilter | SockOptMinVersion | SockOptEnforcedEncryption | SockOptGroupConnect | SockOptMaxRexmitBW
| SockOptOverheadBW | SockOptMinInputBW | SockOptSndDropDelay | SockOptLossMaxTTL | SockOptSndSyn | SockOptRcvSyn | SockOptSndTimeo
| SockOptRcvTimeo
| SockOptOther (n : Z).
#[global] Instance sockopt_eq_dec : EqDecision SockOpt.
Proof. solve_decision. Defined.

Definition EventIn : Z := 0x1.
Definition EventOut : Z := 0x4.
Definition EventErr : Z := 0x8.

(** ** The table *)

Inductive BindingTime : Type := BindPreBind | BindPre | BindPost.
Record optionMeta : Type := mkMeta { binding : BindingTime; readonly : bool }.

Definition optionTable (o : SockOpt) : option optionMeta :=
  match o with
  | SockOptMaxBW | SockOptInputBW | SockOptLinger | SockOptOverheadBW | SockOptMinInputBW | SockOptSndDropDelay | SockOptLossMaxTTL
  | SockOptSndSyn | SockOptRcvSyn | SockOptSndTimeo | SockOptRcvTimeo => Some (mkMeta BindPost false)
  | SockOptState | SockOptPeerVersion | SockOptISN | SockOptPeerISN | SockOptSndKmState | SockOptRcvKmState | SockOptKmState
  | SockOptSndData | SockOptRcvData | SockOptFlightSize | SockOptRTT | SockOptRTTVar | SockOptVersion | SockOptEvent
  | SockOptMaxRexmitBW => Some (mkMeta BindPost true)
  | SockOptPayloadSize | SockOptRcvLatency | SockOptSndLatency | SockOptStreamID | SockOptMSS | SockOptFC | SockOptSndBuf | SockOptRcvBuf
  | SockOptCongestion | SockOptTransType | SockOptMessageAPI | SockOptTSBPDMode | SockOptTLPktDrop | SockOptNAKReport
  | SockOptRetransmitAlgo | SockOptPBKeyLen | SockOptCryptoMode | SockOptPeerIdleTimeout | SockOptDriftTracer | SockOptPacketFilter
  | SockOptMinVersion | SockOptEnforcedEncryption | SockOptGroupConnect => Some (mkMeta BindPre true)
  | SockOptOther _ => None
  end.

(** ** Connection states *)

Definition StateInit : Z := 1.
Definition StateOpened : Z := 2.
Definition StateListening : Z := 3.
Definition StateConnecting : Z := 4.
Definition StateConnected : Z := 5.
Definition StateBroken : Z := 6.
Definition StateClosing : Z := 7.
Definition StateClosed : Z := 8.
Definition StateNonExist : Z := 9.
Definition stateString (st : Z) : string :=
  if st =? StateInit then "init"%string else if st =? StateOpened then "opened"%string else if st =? StateListening then "listening"%string
  else if st =? StateConnecting then "connecting"%string else if st =? StateConnected then "connected"%string
  else if st =? StateBroken then "broken"%string else if st =? StateClosing then "closing"%string
  else if st =? StateClosed then "closed"%string else if st =? StateNonExist then "nonexist"%string else "unknown"%string.

(** ** Values and errors *)

Inductive value : Type :=
| VInt (n : Z) | VInt32 (n : Z) | VInt64 (n : Z) | VUint32 (n : Z) | VBool (b : bool) | VString (l : list Z) | VDuration (d : Z)
| VState (n : Z) | VTransType (n : Z).

Inductive optionError : Type := ErrInvalidOption (o : SockOpt) | ErrReadOnlyOption (o : SockOpt) | ErrBadValue (v : value) | ErrStats.

(** ** Reading an option *)

Definition events (x : Session.Session) : Z :=
  let ev := if Session.ReadReady x then Z.lor 0 EventIn else 0 in
  let ev := if Session.WriteReady x then Z.lor ev EventOut else ev in
  if negb (Session.Alive x) then Z.lor ev EventErr else ev.

(** The values of the first switch; the two latencies carry the error of the
    statistics with their value. *)
Definition direct (o : SockOpt) (c : Conn) : option value :=
  let '(st, ok) := CoreStats.sessionStats (s c) in
  let g := cfg c in
  match o with
  | SockOptState => Some (VState (if ok then StateConnected else StateClosed))
  | SockOptStreamID => Some (VString (SrtConn.StreamID c))
  | SockOptMaxBW => Some (VInt64 (SrtConfig.MaxBW g))
  | SockOptInputBW => Some (VInt64 (SrtConfig.InputBW g))
  | SockOptMinInputBW => Some (VInt64 (SrtConfig.MinInputBW g))
  | SockOptMaxRexmitBW => Some (VInt64 (SrtConfig.MaxRexmitBW g))
  | SockOptOverheadBW => Some (VInt (SrtConfig.OverheadBW g))
  | SockOptPayloadSize => Some (VInt (if SrtConfig.PayloadSize g >? 0 then SrtConfig.PayloadSize g else SrtConfig.MSS g - 44))
  | SockOptMSS => Some (VInt (SrtConfig.MSS g))
  | SockOptSndBuf => Some (VInt (SrtConfig.SendBufSize g))
  | SockOptRcvBuf => Some (VInt (SrtConfig.RecvBufSize g))
  | SockOptRcvLatency => Some (VDuration (i64 (CoreStats.NegotiatedLatency st * 1000)))
  | SockOptSndLatency => Some (VDuration (i64 (CoreStats.PeerLatency st * 1000)))
  | SockOptPeerIdleTimeout => Some (VDuration (SrtConfig.PeerIdleTimeout g))
  | SockOptLinger => Some (VDuration (SrtConfig.Linger g))
  | SockOptCongestion => Some (VString (SrtConfig.Congestion g))
  | SockOptTransType => Some (VTransType (if SrtConfig.isFile g then SrtConfig.TransTypeFile else SrtConfig.TransTypeLive))
  | SockOptMessageAPI => Some (VBool (SrtConfig.messageAPIEnabled g))
  | SockOptTSBPDMode => Some (VBool (SrtConfig.tsbpdEnabled g))
  | SockOptTLPktDrop => Some (VBool (SrtConfig.tlpktdropEnabled g))
  | SockOptNAKReport => Some (VBool (negb (SrtConfig.nakReportOff g)))
  | SockOptRetransmitAlgo => Some (VInt (SrtConfig.retransmitAlgo g))
  | SockOptDriftTracer => Some (VBool (SrtConfig.driftTracerEnabled g))
  | SockOptPacketFilter => Some (VString (SrtConfig.PacketFilter g))
  | SockOptMinVersion => Some (VUint32 (SrtConfig.MinVersion g))
  | SockOptEnforcedEncryption => Some (VBool (negb (SrtConfig.enforcedEncryptionOff g)))
  | SockOptGroupConnect => Some (VBool (SrtConfig.GroupConnect g))
  | SockOptSndDropDelay => Some (VInt (SrtConfig.SndDropDelay g))
  | SockOptLossMaxTTL => Some (VInt (SrtConfig.LossMaxTTL g))
  | SockOptCryptoMode => Some (VInt (SrtConfig.CryptoMode g))
  | SockOptPBKeyLen => Some (VInt (if SrtConfig.secured g then SrtConfig.KeyLength g else 0))
  | SockOptVersion => Some (VUint32 Handshake.SRTVersion)
  | SockOptSndSyn => Some (VBool (sndSyn c))
  | SockOptRcvSyn => Some (VBool (rcvSyn c))
  | SockOptSndTimeo => Some (VDuration (sndTimeo c))
  | SockOptRcvTimeo => Some (VDuration (rcvTimeo c))
  | SockOptISN => Some (VUint32 (SrtConn.ask 0 ConnState.sndISN c))
  | SockOptPeerISN => Some (VUint32 (SrtConn.ask 0 ConnState.rcvISN c))
  | SockOptPeerVersion => Some (VUint32 (SrtConn.ask 0 ConnState.peerVersion c))
  | SockOptEvent => Some (VInt (events (s c)))
  | _ => None
  end.

Definition needsStats (o : SockOpt) : bool := match o with SockOptRcvLatency | SockOptSndLatency => true | _ => false end.

(** The second switch: live values. *)
Definition live (o : SockOpt) (c : Conn) : option value :=
  let st := fst (CoreStats.sessionStats (s c)) in
  match o with
  | SockOptFC => Some (VInt (CoreStats.FlowWindow st))
  | SockOptSndData => Some (VInt (CoreStats.SendBufPackets st))
  | SockOptRcvData => Some (VInt (CoreStats.RecvBufPackets st))
  | SockOptFlightSize => Some (VInt (CoreStats.FlightSize st))
  | SockOptRTT => Some (VInt64 (CoreStats.RTTMicros st))
  | SockOptRTTVar => Some (VInt64 (CoreStats.RTTVarMicros st))
  | SockOptSndKmState => Some (VInt32 (CoreStats.SndKmState st))
  | SockOptRcvKmState => Some (VInt32 (CoreStats.RcvKmState st))
  | SockOptKmState => Some (VInt32 (if isServer c then CoreStats.RcvKmState st else CoreStats.SndKmState st))
  | _ => None
  end.

Definition GetOption (o : SockOpt) (c : Conn) : result optionError value :=
  let ok := snd (CoreStats.sessionStats (s c)) in
  match direct o c with
  | Some v => if needsStats o && negb ok then Err ErrStats else Ok v
  | None => if negb ok then Err ErrStats else match live o c with Some v => Ok v | None => Err (ErrInvalidOption o) end
  end.

(** ** Changing an option *)

Section Set_.
Context {P : Crypto.Primitives} {M : Float64.GoMath} {O : ConnRecv.RangeOrder} (capOf : list Z -> Z) (now wall : Z).
#[local] Abbreviation serve := (SrtConn.serve capOf now wall).

(** [SetOption] at time [now]: the closures reach the core through the loop. *)
Definition SetOption (o : SockOpt) (v : value) (c : Conn) : result optionError Conn :=
  match optionTable o with
  | None => Err (ErrInvalidOption o)
  | Some m =>
    if readonly m then Err (ErrReadOnlyOption o) else
    match o, v with
    | SockOptMaxBW, VInt64 n =>
        if n <? 0 then Err (ErrBadValue v) else Ok (serve (Session.CSetMaxBW n) (c <| cfg ::= fun g => g <| SrtConfig.MaxBW := n |> |>))
    | SockOptInputBW, VInt64 n =>
        if n <? 0 then Err (ErrBadValue v) else Ok (serve (Session.CSetInputBW n) (c <| cfg ::= fun g => g <| SrtConfig.InputBW := n |> |>))
    | SockOptMinInputBW, VInt64 n =>
        if n <? 0 then Err (ErrBadValue v) else Ok (serve (Session.CSetMinInputBW n) (c <| cfg ::= fun g => g <| SrtConfig.MinInputBW := n |> |>))
    | SockOptOverheadBW, VInt n =>
        if (n <? 5) || (n >? 100) then Err (ErrBadValue v)
        else Ok (serve (Session.CSetOverhead n) (c <| cfg ::= fun g => g <| SrtConfig.OverheadBW := n |> |>))
    | SockOptSndDropDelay, VInt n => Ok (serve (Session.CSetSndDropDelay n) (c <| cfg ::= fun g => g <| SrtConfig.SndDropDelay := n |> |>))
    | SockOptLossMaxTTL, VInt n =>
        if n <? 0 then Err (ErrBadValue v)
        else Ok (serve (Session.CSetReorderTolerance n) (c <| cfg ::= fun g => g <| SrtConfig.LossMaxTTL := n |> |>))
    | SockOptLinger, VDuration d =>
        let d := if d <? 0 then 0 else d in
        Ok (c <| cfg ::= fun g => g <| SrtConfig.Linger := d |> |> <| s ::= Session.SetLinger d |>)
    | SockOptSndSyn, VBool b => Ok (c <| sndSyn := b |> <| s ::= Session.SetWriteBlocking b |>)
    | SockOptRcvSyn, VBool b => Ok (c <| rcvSyn := b |> <| s ::= Session.SetReadBlocking b |>)
    | SockOptSndTimeo, VDuration d => Ok (c <| sndTimeo := d |>)
    | SockOptRcvTimeo, VDuration d => Ok (c <| rcvTimeo := d |>)
    | (SockOptMaxBW | SockOptInputBW | SockOptMinInputBW | SockOptOverheadBW | SockOptSndDropDelay | SockOptLossMaxTTL | SockOptLinger
      | SockOptSndSyn | SockOptRcvSyn | SockOptSndTimeo | SockOptRcvTimeo), _ => Err (ErrBadValue v)
    | _, _ => Err (ErrInvalidOption o)
    end
  end.

(** [Conn.SetMaxBW] and [setRateEstimate] of [conn.go]. *)
Definition SetMaxBW (bw : Z) (c : Conn) : Conn :=
  match SetOption SockOptMaxBW (VInt64 (Z.max 0 bw)) c with Ok c' => c' | Err _ => c end.
Definition setRateEstimate (rate : Z) (c : Conn) : Conn := if rate >? 0 then SetMaxBW rate c else c.

(** ** Properties *)

(** The values a writable option takes, by the comments on the constants. *)
Definition accepts (o : SockOpt) (v : value) : Prop :=
  match o, v with
  | (SockOptMaxBW | SockOptInputBW | SockOptMinInputBW), VInt64 n => 0 <= n
  | SockOptOverheadBW, VInt n => 5 <= n <= 100
  | SockOptLossMaxTTL, VInt n => 0 <= n
  | SockOptSndDropDelay, VInt _ | (SockOptLinger | SockOptSndTimeo | SockOptRcvTimeo), VDuration _ | (SockOptSndSyn | SockOptRcvSyn), VBool _ => True
  | _, _ => False
  end.

(** What is read back: a negative linger is none. *)
Definition stored (o : SockOpt) (v : value) : value :=
  match o, v with SockOptLinger, VDuration d => VDuration (Z.max 0 d) | _, _ => v end.

(** The options that are not read from the running session. *)
Definition configured (o : SockOpt) : bool :=
  match o with
  | SockOptState | SockOptRcvLatency | SockOptSndLatency | SockOptISN | SockOptPeerISN | SockOptPeerVersion | SockOptEvent => false
  | SockOptFC | SockOptSndData | SockOptRcvData | SockOptFlightSize | SockOptRTT | SockOptRTTVar | SockOptSndKmState | SockOptRcvKmState
  | SockOptKmState | SockOptOther _ => false
  | _ => true
  end.

(** An option is set exactly when it is writable and the value is of its type and in
    its range; the other two errors name why it is not. *)
Theorem option_set_iff (o : SockOpt) (v : value) (c : Conn) :
  match SetOption o v c with
  | Ok _ => (exists m, optionTable o = Some m /\ readonly m = false) /\ accepts o v
  | Err (ErrInvalidOption o') => o' = o /\ optionTable o = None
  | Err (ErrReadOnlyOption o') => o' = o /\ exists m, optionTable o = Some m /\ readonly m = true
  | Err (ErrBadValue v') => v' = v /\ (exists m, optionTable o = Some m /\ readonly m = false) /\ ~ accepts o v
  | Err ErrStats => False
  end.
Proof.
  assert (X : forall a, optionTable o = Some (mkMeta a false) -> exists m, optionTable o = Some m /\ readonly m = false) by eauto.
  assert (Y : forall a, optionTable o = Some (mkMeta a true) -> exists m, optionTable o = Some m /\ readonly m = true) by eauto.
  unfold SetOption. destruct o; simpl in *; try (split; [done|by eauto]); try done;
    destruct v; repeat case_match; simplify_eq/=; repeat match goal with |- _ /\ _ => split end; try done; try (by eauto);
    rewrite ?Z.gtb_ltb in *; try lia; tauto.
Qed.

(** Reading an option that was set returns the value; every other option that is not
    a live value of the session is unchanged. *)
Theorem option_set_get (o : SockOpt) (v : value) (c c' : Conn) :
  SetOption o v c = Ok c' ->
  GetOption o c' = Ok (stored o v) /\ (forall o', o' <> o -> configured o' = true -> GetOption o' c' = GetOption o' c).
Proof.
  intros E. unfold SetOption in E.
  destruct o; try discriminate E; destruct v as [n|n|n|n|b|l|d|n|n]; try discriminate E; simpl in E;
    try (match type of E with context [if ?b then _ else _] => destruct b eqn:B end; try discriminate E); injection E as <-;
    (split; [|intros o' N C; destruct o'; try discriminate C; try (by destruct N); reflexivity]); try reflexivity.
  - change (Ok (E := optionError) (VDuration 0) = Ok (VDuration (Z.max 0 d))). do 2 f_equal. lia.
  - change (Ok (E := optionError) (VDuration d) = Ok (VDuration (Z.max 0 d))). do 2 f_equal. lia.
Qed.

(** An option that could only be set before connecting is refused as read-only: the
    error meant for it, [ErrPreConnectOnly], is never returned. *)
Theorem option_pre_readonly (o : SockOpt) (v : value) (c : Conn) (m : optionMeta) :
  optionTable o = Some m -> binding m <> BindPost -> SetOption o v c = Err (ErrReadOnlyOption o).
Proof. destruct o; try discriminate; intros [= <-] H; try (by destruct H); reflexivity. Qed.

(** The two timeouts are stored and read back, and nothing else: the same calls give
    the same results whatever they are. *)
Theorem option_timeouts_unused (d e : Z) (o : ConnSend.MsgOptions) (b : list Z) (blen : nat) (deadline expired : bool) (c : Conn) :
  exists c', SetOption SockOptSndTimeo (VDuration d) c = Ok c' /\ exists c'', SetOption SockOptRcvTimeo (VDuration e) c' = Ok c'' /\
  s c'' = s c /\ fst (SrtConn.Read blen expired c'') = fst (SrtConn.Read blen expired c) /\
  (forall r k, SrtConn.queue o b deadline expired c r k -> exists k', SrtConn.queue o b deadline expired c'' r k' /\ s k' = s k).
Proof.
  eexists. split; [reflexivity|]. eexists. split; [reflexivity|]. split; [done|]. split.
  - unfold SrtConn.Read. fields. by destruct (Session.Read blen expired (s c)).
  - intros r k H. inversion H as [Hp|err sess Hp Hw|sess Hp Hw]; subst.
    + eexists. split; [by apply SrtConn.queue_large|done].
    + eexists. split; [by apply SrtConn.queue_failed|done].
    + eexists. split; [by apply SrtConn.queue_ok|done].
Qed.

Lemma reported_maxBW x : CoreStats.MaxBW (fst (CoreStats.sessionStats x)) =
  (if ConnState.ready (Session.core x) then Congestion.MaxBandwidth (ConnState.sendCC (Session.core x)) else 0).
Proof. reflexivity. Qed.

Lemma maxBW_applied n k : 0 < n -> ConnState.ready k = true ->
  (if ConnState.ready (ConnSend.SetMaxBW n k) then Congestion.MaxBandwidth (ConnState.sendCC (ConnSend.SetMaxBW n k)) else 0) = n.
Proof.
  intros Hn H. unfold ConnSend.SetMaxBW, ConnSend.applyBandwidth. fields. rewrite H, (Z.max_r 0 n) by lia. cbn [negb].
  destruct (n =? 0) eqn:E0; [lia|]. cbn [andb].
  destruct (ConnState.sendCC k) as [l|f] eqn:E; cbn [Congestion.isLive negb]; fields; rewrite H, E; [|done].
  cbn [Congestion.UpdateBandwidth Congestion.MaxBandwidth].
  unfold Congestion.live_UpdateBandwidth. destruct (n >? 0) eqn:E1; [done|]. rewrite Z.gtb_ltb in E1. lia.
Qed.

(** While the loop runs, a positive bandwidth takes effect at once: it is the pacing
    limit the statistics report. *)
Theorem option_maxbw_effective (n : Z) (c c' : Conn) :
  SetOption SockOptMaxBW (VInt64 n) c = Ok c' -> 0 < n ->
  Session.loopDone (s c) = false -> Session.dead (s c) = false -> Session.closing (s c) = false -> ConnState.ready (Session.core (s c)) = true ->
  CoreStats.MaxBW (fst (CoreStats.sessionStats (s c'))) = n.
Proof.
  unfold SetOption. cbn [optionTable readonly]. destruct (n <? 0) eqn:E; [lia|]. intros [= <-] Hn H1 H2 H3 H4. rewrite reported_maxBW. unfold SrtConn.serve. fields.
  unfold Session.step, Session.closeFinished. rewrite H1, H2, H3. cbn [negb Session.select default]. unfold id. rewrite SessionDrain.drain_core. fields.
  by apply maxBW_applied.
Qed.

End Set_.

#[local] Existing Instances Crypto.toy Float64.toyMath ConnRecv.toyRange.

Definition toySet (o : SockOpt) (v : value) (c : Conn) : Conn :=
  match SetOption SessionSafe.toyCap 2000 0 o v c with Ok c' => c' | Err _ => c end.

(** A linger of minus one second and an overhead of 30 per cent. *)
Definition toyTuned : Conn := toySet SockOptOverheadBW (VInt 30) (toySet SockOptLinger (VDuration (-1000000000)) SrtConn.toyPublic).

Lemma option_set_get_witness :
  GetOption SockOptOverheadBW toyTuned = Ok (VInt 30) /\ GetOption SockOptLinger toyTuned = Ok (VDuration 0).
Proof.
  destruct (option_set_get SessionSafe.toyCap 2000 0 SockOptLinger (VDuration (-1000000000)) SrtConn.toyPublic
    (toySet SockOptLinger (VDuration (-1000000000)) SrtConn.toyPublic) eq_refl) as [H1 _].
  destruct (option_set_get SessionSafe.toyCap 2000 0 SockOptOverheadBW (VInt 30)
    (toySet SockOptLinger (VDuration (-1000000000)) SrtConn.toyPublic) toyTuned eq_refl) as [H2 H3].
  split; [exact H2|]. rewrite (H3 SockOptLinger); [exact H1|congruence|reflexivity].
Defined.

End SrtSockOpt.
