(* ===== verification/SrtStats.v ===== *)
(** * Public statistics ([conn_stats.go])

    The record [ConnStats], its projection from the core's snapshot and the values
    derived from it: totals with headers, loss rates, rates over an interval and the
    smoothed occupancies.  Times are nanoseconds. *)
From Stdlib Require Import ZArith Lia.
From stdpp Require Import base numbers list option gmap.
From S2P Require Import Prelude Crypto Float64 ConnState ConnSend ConnRecv Sender Session SessionSafe CoreStats SrtConfig SrtConn.
Local Open Scope Z_scope.

Module SrtStats.
Import SrtConn(Conn, s, cfg, startTime, clearAt, clearSntBytes, clearRcvBytes, averages).

Record ConnStats : Type := mkConnStats {
  StartTime : Z;
  Duration : Z;
  SentPackets : Z;
  SentBytes : Z;
  SentUniquePackets : Z;
  SentUniqueBytes : Z;
  Retransmits : Z;
  RetransBytes : Z;
  RecvPackets : Z;
  RecvBytes : Z;
  RecvUniquePackets : Z;
  RecvUniqueBytes : Z;
  RecvRetrans : Z;
  RecvRetransBytes : Z;
  LostPackets : Z;
  RecvLoss : Z;
  SendLossRate : Float64.f64;
  RecvLossRate : Float64.f64;
  SentTotalBytes : Z;
  RecvTotalBytes : Z;
  SentUniqueTotalBytes : Z;
  RecvUniqueTotalBytes : Z;
  RecvLossBytes : Z;
  RetransTotalBytes : Z;
  RecvRetransTotalBytes : Z;
  SentDropTotalBytes : Z;
  RecvDropTotalBytes : Z;
  RecvBelatedTotalBytes : Z;
  RecvUndecryptTotalBytes : Z;
  MbpsSendRate : Float64.f64;
  MbpsRecvRate : Float64.f64;
  RTT : Z;
  RTTVar : Z;
  RTTFactor : Float64.f64;
  FlowWindow : Z;
  FlightSize : Z;
  SendBufSize : Z;
  SendBufAvailable : Z;
  SendBufBytes : Z;
  RecvBufSize : Z;
  RecvBufAvailable : Z;
  RecvBufBytes : Z;
  PeerLatency : Z;
  NegotiatedLatency : Z;
  PacketReceiveRate : Z;
  EstimatedBandwidth : Z;
  UsPktSndPeriod : Float64.f64;
  MbpsMaxBW : Float64.f64;
  MsSndBuf : Z;
  MsRcvBuf : Z;
  SentACKs : Z;
  SentNAKs : Z;
  SentACKACKs : Z;
  RecvACKs : Z;
  RecvNAKs : Z;
  RecvACKACKs : Z;
  RecvDropped : Z;
  RecvDroppedBytes : Z;
  AppReadDropped : Z;
  AppReadDropBytes : Z;
  AppReadQueue : Z;
  AppReadBacklog : Z;
  RecvBelated : Z;
  RecvBelatedBytes : Z;
  RecvUndecrypt : Z;
  RecvUndecryptBytes : Z;
  SentDropped : Z;
  SentDroppedBytes : Z;
  SentKM : Z;
  RecvKM : Z;
  SndKmState : Z;
  RcvKmState : Z;
  UsSndDuration : Z;
  CongestionWindow : Z;
  ReorderTolerance : Z;
  ReorderDistance : Z;
  RcvAvgBelatedTime : Z;
  SndFilterExtra : Z;
  RcvFilterExtra : Z;
  RcvFilterSupply : Z;
  RcvFilterLoss : Z;
  NegotiatedMSS : Z;
  NegotiatedFC : Z;
  MsSndTsbPdDelay : Z;
  MsRcvTsbPdDelay : Z
}.

#[global] Instance eta_cstats : Eta ConnStats := fun s =>
  mkConnStats (StartTime s) (Duration s) (SentPackets s) (SentBytes s) (SentUniquePackets s) (SentUniqueBytes s)
    (Retransmits s) (RetransBytes s) (RecvPackets s) (RecvBytes s) (RecvUniquePackets s) (RecvUniqueBytes s)
    (RecvRetrans s) (RecvRetransBytes s) (LostPackets s) (RecvLoss s) (SendLossRate s) (RecvLossRate s)
    (SentTotalBytes s) (RecvTotalBytes s) (SentUniqueTotalBytes s) (RecvUniqueTotalBytes s) (RecvLossBytes s)
    (RetransTotalBytes s) (RecvRetransTotalBytes s) (SentDropTotalBytes s) (RecvDropTotalBytes s)
    (RecvBelatedTotalBytes s) (RecvUndecryptTotalBytes s) (MbpsSendRate s) (MbpsRecvRate s) (RTT s) (RTTVar s)
    (RTTFactor s) (FlowWindow s) (FlightSize s) (SendBufSize s) (SendBufAvailable s) (SendBufBytes s) (RecvBufSize s)
    (RecvBufAvailable s) (RecvBufBytes s) (PeerLatency s) (NegotiatedLatency s) (PacketReceiveRate s)
    (EstimatedBandwidth s) (UsPktSndPeriod s) (MbpsMaxBW s) (MsSndBuf s) (MsRcvBuf s) (SentACKs s) (SentNAKs s)
    (SentACKACKs s) (RecvACKs s) (RecvNAKs s) (RecvACKACKs s) (RecvDropped s) (RecvDroppedBytes s) (AppReadDropped s)
    (AppReadDropBytes s) (AppReadQueue s) (AppReadBacklog s) (RecvBelated s) (RecvBelatedBytes s) (RecvUndecrypt s)
    (RecvUndecryptBytes s) (SentDropped s) (SentDroppedBytes s) (SentKM s) (RecvKM s) (SndKmState s) (RcvKmState s)
    (UsSndDuration s) (CongestionWindow s) (ReorderTolerance s) (ReorderDistance s) (RcvAvgBelatedTime s)
    (SndFilterExtra s) (RcvFilterExtra s) (RcvFilterSupply s) (RcvFilterLoss s) (NegotiatedMSS s) (NegotiatedFC s)
    (MsSndTsbPdDelay s) (MsRcvTsbPdDelay s).
#[global] Instance fld_cstats_StartTime : Field StartTime. Proof. derive_field. Defined.
#[global] Instance fld_cstats_Duration : Field Duration. Proof. derive_field. Defined.
#[global] Instance fld_cstats_SentTotalBytes : Field SentTotalBytes. Proof. derive_field. Defined.
#[global] Instance fld_cstats_RecvTotalBytes : Field RecvTotalBytes. Proof. derive_field. Defined.
#[global] Instance fld_cstats_SentUniqueTotalBytes : Field SentUniqueTotalBytes. Proof. derive_field. Defined.
#[global] Instance fld_cstats_RecvUniqueTotalBytes : Field RecvUniqueTotalBytes. Proof. derive_field. Defined.
#[global] Instance fld_cstats_RetransTotalBytes : Field RetransTotalBytes. Proof. derive_field. Defined.
#[global] Instance fld_cstats_RecvRetransTotalBytes : Field RecvRetransTotalBytes. Proof. derive_field. Defined.
#[global] Instance fld_cstats_SentDropTotalBytes : Field SentDropTotalBytes. Proof. derive_field. Defined.
#[global] Instance fld_cstats_RecvDropTotalBytes : Field RecvDropTotalBytes. Proof. derive_field. Defined.
#[global] Instance fld_cstats_SendLossRate : Field SendLossRate. Proof. derive_field. Defined.
#[global] Instance fld_cstats_RecvLossRate : Field RecvLossRate. Proof. derive_field. Defined.
#[global] Instance fld_cstats_MbpsMaxBW : Field MbpsMaxBW. Proof. derive_field. Defined.
#[global] Instance fld_cstats_RecvBelated : Field RecvBelated. Proof. derive_field. Defined.
#[global] Instance fld_cstats_RecvBelatedBytes : Field RecvBelatedBytes. Proof. derive_field. Defined.
#[global] Instance fld_cstats_RecvBelatedTotalBytes : Field RecvBelatedTotalBytes. Proof. derive_field. Defined.
#[global] Instance fld_cstats_RcvAvgBelatedTime : Field RcvAvgBelatedTime. Proof. derive_field. Defined.
#[global] Instance fld_cstats_ReorderDistance : Field ReorderDistance. Proof. derive_field. Defined.
#[global] Instance fld_cstats_MsSndBuf : Field MsSndBuf. Proof. derive_field. Defined.
#[global] Instance fld_cstats_MsRcvBuf : Field MsRcvBuf. Proof. derive_field. Defined.
#[global] Instance fld_cstats_MbpsSendRate : Field MbpsSendRate. Proof. derive_field. Defined.
#[global] Instance fld_cstats_MbpsRecvRate : Field MbpsRecvRate. Proof. derive_field. Defined.

(** [time.Duration(us) * time.Microsecond]. *)
Definition usDuration (us : Z) : Z := i64 (us * 1000).
Definition zeroF : Float64.f64 := Float64.ofZ 0.

(** Fields the literal does not name are zero. *)
Definition statsFromCore (s : CoreStats.Stats) (cfg : SrtConfig.Config) : ConnStats := {|
  StartTime := 0;
  Duration := 0;
  SentPackets := CoreStats.SentPackets s;
  SentBytes := CoreStats.SentBytes s;
  SentUniquePackets := CoreStats.SentUniquePackets s;
  SentUniqueBytes := CoreStats.SentUniqueBytes s;
  Retransmits := CoreStats.RetransPackets s;
  RetransBytes := CoreStats.RetransBytes s;
  RecvPackets := CoreStats.RecvPackets s;
  RecvBytes := CoreStats.RecvBytes s;
  RecvUniquePackets := CoreStats.RecvUniquePackets s;
  RecvUniqueBytes := CoreStats.RecvUniqueBytes s;
  RecvRetrans := CoreStats.RecvRetrans s;
  RecvRetransBytes := CoreStats.RecvRetransBytes s;
  LostPackets := CoreStats.LostPackets s;
  RecvLoss := CoreStats.RecvLoss s;
  SendLossRate := zeroF;
  RecvLossRate := zeroF;
  SentTotalBytes := 0;
  RecvTotalBytes := 0;
  SentUniqueTotalBytes := 0;
  RecvUniqueTotalBytes := 0;
  RecvLossBytes := 0;
  RetransTotalBytes := 0;
  RecvRetransTotalBytes := 0;
  SentDropTotalBytes := 0;
  RecvDropTotalBytes := 0;
  RecvBelatedTotalBytes := 0;
  RecvUndecryptTotalBytes := 0;
  MbpsSendRate := zeroF;
  MbpsRecvRate := zeroF;
  RTT := usDuration (CoreStats.RTTMicros s);
  RTTVar := usDuration (CoreStats.RTTVarMicros s);
  RTTFactor := let latency := usDuration (CoreStats.NegotiatedLatency s) in
    if latency >? 0 then Float64.fdiv (Float64.ofZ (usDuration (CoreStats.RTTMicros s))) (Float64.ofZ latency) else zeroF;
  FlowWindow := CoreStats.FlowWindow s;
  FlightSize := CoreStats.FlightSize s;
  SendBufSize := CoreStats.SendBufPackets s;
  SendBufAvailable := CoreStats.SendBufAvailable s;
  SendBufBytes := 0;
  RecvBufSize := CoreStats.RecvBufPackets s;
  RecvBufAvailable := CoreStats.RecvBufAvailable s;
  RecvBufBytes := 0;
  PeerLatency := usDuration (CoreStats.PeerLatency s);
  NegotiatedLatency := usDuration (CoreStats.NegotiatedLatency s);
  PacketReceiveRate := CoreStats.PacketRecvRate s;
  EstimatedBandwidth := CoreStats.EstimatedBandwidth s;
  UsPktSndPeriod := Float64.ofZ (CoreStats.PktSndPeriodMicros s);
  MbpsMaxBW := zeroF;
  MsSndBuf := 0;
  MsRcvBuf := 0;
  SentACKs := CoreStats.SentACKs s;
  SentNAKs := CoreStats.SentNAKs s;
  SentACKACKs := CoreStats.SentACKACKs s;
  RecvACKs := CoreStats.RecvACKs s;
  RecvNAKs := CoreStats.RecvNAKs s;
  RecvACKACKs := CoreStats.RecvACKACKs s;
  RecvDropped := CoreStats.RecvDropped s;
  RecvDroppedBytes := CoreStats.RecvDroppedBytes s;
  AppReadDropped := CoreStats.AppReadDropped s;
  AppReadDropBytes := CoreStats.AppReadDropBytes s;
  AppReadQueue := CoreStats.AppReadQueue s;
  AppReadBacklog := CoreStats.AppReadBacklog s;
  RecvBelated := 0;
  RecvBelatedBytes := 0;
  RecvUndecrypt := CoreStats.RecvUndecrypt s;
  RecvUndecryptBytes := 0;
  SentDropped := CoreStats.SentDropped s;
  SentDroppedBytes := CoreStats.SentDroppedBytes s;
  SentKM := CoreStats.SentKM s;
  RecvKM := CoreStats.RecvKM s;
  SndKmState := CoreStats.SndKmState s;
  RcvKmState := CoreStats.RcvKmState s;
  UsSndDuration := 0;
  CongestionWindow := CoreStats.CongestionWindow s;
  ReorderTolerance := i32 (SrtConfig.LossMaxTTL cfg);
  ReorderDistance := 0;
  RcvAvgBelatedTime := 0;
  SndFilterExtra := CoreStats.SentFEC s;
  RcvFilterExtra := 0;
  RcvFilterSupply := CoreStats.RecvFECRecov s;
  RcvFilterLoss := 0;
  NegotiatedMSS := CoreStats.NegotiatedMSS s;
  NegotiatedFC := CoreStats.FlowWindow s;
  MsSndTsbPdDelay := 0;
  MsRcvTsbPdDelay := 0
|}.

(** ** Derived values *)

(** IP, UDP and SRT headers of one packet. *)
Definition hdr : Z := 44.
Definition withHeaders (bytes packets : Z) : Z := u64 (bytes + u64 (packets * hdr)).
Definition percent (part whole : Z) : Float64.f64 := Float64.fmul (Float64.fdiv (Float64.ofZ part) (Float64.ofZ whole)) (Float64.ofZ 100).

Definition totals (st : ConnStats) : ConnStats :=
  st <| SentTotalBytes := withHeaders (SentBytes st) (SentPackets st) |>
     <| RecvTotalBytes := withHeaders (RecvBytes st) (RecvPackets st) |>
     <| SentUniqueTotalBytes := withHeaders (SentUniqueBytes st) (SentUniquePackets st) |>
     <| RecvUniqueTotalBytes := withHeaders (RecvUniqueBytes st) (RecvUniquePackets st) |>
     <| RetransTotalBytes := withHeaders (RetransBytes st) (Retransmits st) |>
     <| RecvRetransTotalBytes := withHeaders (RecvRetransBytes st) (RecvRetrans st) |>
     <| SentDropTotalBytes := withHeaders (SentDroppedBytes st) (SentDropped st) |>
     <| RecvDropTotalBytes := withHeaders (RecvDroppedBytes st) (RecvDropped st) |>.

Definition lossRates (maxBW : Z) (st : ConnStats) : ConnStats :=
  let st := if SentPackets st >? 0 then st <| SendLossRate := percent (LostPackets st) (SentPackets st) |> else st in
  let denom := u64 (RecvPackets st + RecvDropped st) in
  let st := if denom >? 0 then st <| RecvLossRate := percent (RecvDropped st) denom |> else st in
  st <| MbpsMaxBW := Float64.fdiv (Float64.fmul (Float64.ofZ maxBW) (Float64.ofZ 8)) (Float64.ofZ 1000000) |>.

Definition surfaced (s : CoreStats.Stats) (st : ConnStats) : ConnStats :=
  st <| RecvBelated := CoreStats.RecvBelated s |>
     <| RecvBelatedBytes := CoreStats.RecvBelatedBytes s |>
     <| RecvBelatedTotalBytes := withHeaders (CoreStats.RecvBelatedBytes s) (CoreStats.RecvBelated s) |>
     <| RcvAvgBelatedTime := usDuration (CoreStats.AvgBelatedMicros s) |>
     <| ReorderDistance := CoreStats.ReorderDistance s |>
     <| MsSndBuf := usDuration (CoreStats.MsSndBuf s) |>
     <| MsRcvBuf := usDuration (CoreStats.MsRcvBuf s) |>.

Definition mbps (bytes : Z) (dt : Float64.f64) : Float64.f64 :=
  Float64.fdiv (Float64.fdiv (Float64.fmul (Float64.ofZ bytes) (Float64.ofZ 8)) (Float64.ofZ 1000000)) dt.
Definition intervalRates (wall : Z) (c : Conn) (st : ConnStats) : ConnStats :=
  let dt := SrtConn.Seconds (wall - clearAt c) in
  if Float64.flt zeroF dt
  then st <| MbpsSendRate := mbps (u64 (SentBytes st - clearSntBytes c)) dt |> <| MbpsRecvRate := mbps (u64 (RecvBytes st - clearRcvBytes c)) dt |>
  else st.

(** [Conn.Stats], with one reading [wall] of the clock. *)
Definition Stats (wall : Z) (clear : bool) (c : Conn) : ConnStats * Conn :=
  let k := fst (CoreStats.sessionStats (s c)) in
  let st := (statsFromCore k (cfg c)) <| StartTime := startTime c |> <| Duration := wall - startTime c |> in
  let st := intervalRates wall c (surfaced k (lossRates (CoreStats.MaxBW k) (totals st))) in
  (st, if clear then c <| clearAt := wall |> <| clearSntBytes := SentBytes st |> <| clearRcvBytes := RecvBytes st |> else c).

(** ** [ExtendedStats] *)

Record ExtendedConnStats : Type := mkExt {
  base : ConnStats;
  AvgSndBufPkts : Float64.f64;
  AvgSndBufBytes : Float64.f64;
  AvgRcvBufPkts : Float64.f64;
  AvgRcvBufBytes : Float64.f64;
  SendRatePps : Z;
  SendRateBps : Z
}.

Definition iir (avg cur : Float64.f64) : Float64.f64 :=
  Float64.fadd (Float64.fdiv (Float64.fmul avg (Float64.ofZ 7)) (Float64.ofZ 8)) (Float64.fdiv cur (Float64.ofZ 8)).
Definition ExtendedStats (wall : Z) (clear : bool) (c : Conn) : ExtendedConnStats * Conn :=
  let '(b, c) := Stats wall clear c in
  let '(pps, bps, c) := SrtConn.SendRate wall c in
  let sp := Float64.ofZ (SendBufSize b) in
  let sb := Float64.ofZ (SendBufBytes b) in
  let rp := Float64.ofZ (RecvBufSize b) in
  let rb := Float64.ofZ (RecvBufBytes b) in
  let '(asp, asb, arp, arb) := default (sp, sb, rp, rb) (averages c) in
  let asp := iir asp sp in
  let asb := iir asb sb in
  let arp := iir arp rp in
  let arb := iir arb rb in
  (mkExt b asp asb arp arb pps bps, c <| averages := Some (asp, asb, arp, arb) |>).

(** ** Properties *)

Lemma withHeaders_add b p b' p' : withHeaders (u64 (b + b')) (u64 (p + p')) = u64 (withHeaders b p + withHeaders b' p').
Proof. unfold withHeaders, u64, hdr. Z.div_mod_to_equations. lia. Qed.

(** What a snapshot says of the packets sent: the total with headers is that of the
    original transmissions and that of the retransmissions together. *)
Theorem stats_sent_totals (wall : Z) (clear : bool) (c : Conn) :
  let st := fst (Stats wall clear c) in
  SentTotalBytes st = u64 (SentUniqueTotalBytes st + RetransTotalBytes st) /\
  RecvDropTotalBytes st = withHeaders (RecvDroppedBytes st) (RecvDropped st) /\
  RecvDropped st = u64 (ConnState.recvDropped (Session.core (s c)) + AppReadDropped st).
Proof.
  cbv zeta. unfold Stats. cbn [fst]. unfold intervalRates, lossRates. 
  set (k := fst (CoreStats.sessionStats (s c))).
  assert (E : SentTotalBytes (totals (statsFromCore k (cfg c))) =
    u64 (SentUniqueTotalBytes (totals (statsFromCore k (cfg c))) + RetransTotalBytes (totals (statsFromCore k (cfg c))))) by apply withHeaders_add.
  repeat case_match; split_and!; first [exact E|reflexivity].
Qed.

(** The occupancies in bytes are never filled in, so neither are their averages,
    however often they are sampled. *)
Definition unfilled (c : Conn) : Prop :=
  match averages c with None => True | Some (_, asb, _, arb) => asb = zeroF /\ arb = zeroF end.

Lemma iir_zero : iir zeroF (Float64.ofZ 0) = zeroF.
Proof. reflexivity. Qed.

Lemma Stats_kept wall clear c :
  SendBufBytes (fst (Stats wall clear c)) = 0 /\ RecvBufBytes (fst (Stats wall clear c)) = 0 /\ averages (snd (Stats wall clear c)) = averages c.
Proof. unfold Stats. cbn [fst snd]. unfold intervalRates, lossRates. repeat case_match; done. Qed.

Lemma SendRate_kept wall c : averages (snd (SrtConn.SendRate wall c)) = averages c.
Proof. unfold SrtConn.SendRate. repeat case_match; simplify_eq/=; done. Qed.

Theorem stats_bytes_unfilled (wall : Z) (clear : bool) (c : Conn) : unfilled c ->
  let '(e, c') := ExtendedStats wall clear c in
  AvgSndBufBytes e = zeroF /\ AvgRcvBufBytes e = zeroF /\ SendBufBytes (base e) = 0 /\ RecvBufBytes (base e) = 0 /\ unfilled c'.
Proof.
  intros H. unfold ExtendedStats. destruct (Stats_kept wall clear c) as (E1 & E2 & E3). destruct (Stats wall clear c) as [b c1].
  pose proof (SendRate_kept wall c1) as E4. destruct (SrtConn.SendRate wall c1) as [[pps bps] c2]. cbn [fst snd] in *. rewrite E1, E2.
  unfold unfilled in H. rewrite E4, E3. destruct (averages c) as [[[[asp asb] arp] arb]|]; cbn [default]; unfold id.
  - destruct H as [-> ->]. done.
  - done.
Qed.

End SrtStats.
