(* ===== verification/Mux.v ===== *)
(** * One socket for many connections ([internal/mux/mux.go])

    The multiplexer parses every datagram and routes it by the socket ID it is
    addressed to: to the channel of the connection registered under that ID, to
    the handshake channel for ID 0, or nowhere.  A full channel drops the packet.
    A channel is known by its number, so that a connection keeps its own when the
    ID is registered again. *)
From Stdlib Require Import ZArith Lia.
From stdpp Require Import base numbers list option gmap.
From S2P Require Import Prelude Packet.
Local Open Scope Z_scope.

Module Mux.
Import Packet.

Definition DefaultMSS : Z := 1500.
Definition connQueue : nat := 256.
Definition handshakeQueue : nat := 128.

Record Mux : Type := mkMux {
  mss : Z;
  conns : gmap Z nat;
  channels : list (list Packet);
  Handshake : list Packet;
  wire : list (NetAddr * list Z)
}.

#[global] Instance eta_mux : Eta Mux := fun m => mkMux (mss m) (conns m) (channels m) (Handshake m) (wire m).
#[global] Instance fld_mux_conns : Field conns. Proof. derive_field. Defined.
#[global] Instance fld_mux_channels : Field channels. Proof. derive_field. Defined.
#[global] Instance fld_mux_Handshake : Field Handshake. Proof. derive_field. Defined.
#[global] Instance fld_mux_wire : Field wire. Proof. derive_field. Defined.

Definition New (mss : Z) : Mux := mkMux (if mss <=? 0 then DefaultMSS else mss) ∅ [] [] [].

(** [Register]: a new channel under the ID. *)
Definition Register (socketID : Z) (m : Mux) : nat * Mux :=
  let ch := length (channels m) in
  (ch, m <| conns ::= <[socketID := ch]> |> <| channels ::= fun cs => cs ++ [[]] |>).

Definition Unregister (socketID : Z) (m : Mux) : Mux := m <| conns ::= delete socketID |>.

Inductive muxError : Type := ErrNoAddress | ErrMarshal (e : PacketError).

(** [Send]; the buffer from the pool holds [mss] and a header. *)
Definition Send (p : Packet) (m : Mux) : result muxError Mux :=
  match Addr (Hdr p) with
  | None => Err ErrNoAddress
  | Some addr =>
      let needed := (HeaderSize + length (Data p))%nat in
      let buf := make (Nat.max (Z.to_nat (mss m) + HeaderSize) needed) in
      match Packet_Marshal p buf with
      | Err e => Err (ErrMarshal e)
      | Ok (n, buf) => Ok (m <| wire ::= fun w => w ++ [(addr, take (Z.to_nat n) buf)] |>)
      end
  end.

(** A send to a channel that does not wait. *)
Definition offer {A} (cap : nat) (x : A) (q : list A) : list A := if Nat.ltb (length q) cap then q ++ [x] else q.

(** One datagram of [readLoop]; what does not fit the buffer is cut off. *)
Definition route (p : Packet) (m : Mux) : Mux :=
  let destID := DestinationSocketID (Hdr p) in
  if destID =? 0 then m <| Handshake ::= offer handshakeQueue p |>
  else match conns m !! destID with
       | Some ch => m <| channels ::= alter (offer connQueue p) ch |>
       | None => m
       end.
Definition receive (m : Mux) (d : NetAddr * list Z) : Mux :=
  match Parse (take (Z.to_nat (mss m)) (snd d)) (Some (fst d)) with
  | Ok p => route p m
  | Err _ => m
  end.

(** What a connection, or the listener, takes from its channel. *)
Definition take_ (ch : nat) (m : Mux) : option Packet * Mux :=
  match channels m !! ch with
  | Some (p :: q) => (Some p, m <| channels ::= <[ch := q]> |>)
  | _ => (None, m)
  end.
Definition takeHandshake (m : Mux) : option Packet * Mux :=
  match Handshake m with
  | p :: q => (Some p, m <| Handshake := q |>)
  | [] => (None, m)
  end.

(** ** Routing *)

(** Every channel belongs to one ID at most, and exists. *)
Definition wf (m : Mux) : Prop :=
  (forall id ch, conns m !! id = Some ch -> (ch < length (channels m))%nat) /\
  (forall id id' ch, conns m !! id = Some ch -> conns m !! id' = Some ch -> id = id').

Lemma wf_New n : wf (New n).
Proof. unfold New. split; intros *; cbn [conns]; by rewrite lookup_empty. Qed.

Lemma wf_Register id m : wf m -> wf (Register id m).2.
Proof.
  intros [H1 H2]. unfold Register. split; fields; cbn [snd]; intros *; fields.
  - rewrite length_app. intros [[<- <-]|[_ H]]%lookup_insert_Some; simpl; [lia|]. specialize (H1 _ _ H). lia.
  - intros [[<- <-]|[Hn H]]%lookup_insert_Some [[<- E]|[Hn' H']]%lookup_insert_Some; [done|..].
    + specialize (H1 _ _ H'). lia.
    + subst. specialize (H1 _ _ H). lia.
    + by eapply H2.
Qed.

Lemma wf_Unregister id m : wf m -> wf (Unregister id m).
Proof.
  intros [H1 H2]. unfold Unregister. split; intros *; fields; rewrite !lookup_delete_Some; [intros [_ H]; by eapply H1|].
  intros [_ H] [_ H']. by eapply H2.
Qed.

(** The packets addressed to an ID, in the order of their arrival. *)
Definition addressed (m : Mux) (id : Z) (ds : list (NetAddr * list Z)) : list Packet :=
  omap (fun d => match Parse (take (Z.to_nat (mss m)) (snd d)) (Some (fst d)) with
                 | Ok p => if DestinationSocketID (Hdr p) =? id then Some p else None
                 | Err _ => None
                 end) ds.

Lemma receive_kept m d : conns (receive m d) = conns m /\ mss (receive m d) = mss m /\ wire (receive m d) = wire m.
Proof. unfold receive, route. destruct (Parse _ _); [|done]. cbv zeta. destruct (_ =? 0); [done|]. by destruct (conns m !! _). Qed.

Lemma wf_receive m d : wf m -> wf (receive m d).
Proof.
  intros [W1 W2]. destruct (receive_kept m d) as (K1 & _). split; rewrite K1; [|done]. intros i c Hi. specialize (W1 _ _ Hi).
  unfold receive, route. destruct (Parse _ _) as [p|]; [|done]. cbv zeta. destruct (_ =? 0); [done|].
  destruct (conns m !! DestinationSocketID (Hdr p)); [|done]. fields. by rewrite length_alter.
Qed.

Lemma offer_take {A} cap (x : A) q l : (length q <= cap)%nat -> take cap (offer cap x q ++ l) = take cap (q ++ x :: l).
Proof.
  intros H. unfold offer. destruct (Nat.ltb (length q) cap) eqn:E; [by rewrite <- app_assoc|].
  apply Nat.ltb_ge in E. rewrite !take_app_le by lia. done.
Qed.

Lemma offer_length {A} cap (x : A) q : (length q <= cap)%nat -> (length (offer cap x q) <= cap)%nat.
Proof. unfold offer. destruct (Nat.ltb (length q) cap) eqn:E; [|done]. apply Nat.ltb_lt in E. rewrite length_app. simpl. lia. Qed.

(** One datagram on the channel of [id]. *)
Lemma receive_channel m id ch q d : wf m -> id <> 0 -> conns m !! id = Some ch -> channels m !! ch = Some q ->
  channels (receive m d) !! ch = Some (fold_left (fun q p => offer connQueue p q) (addressed m id [d]) q).
Proof.
  intros [_ Hinj] Hid Hc Hq. unfold receive, addressed. simpl. destruct (Parse _ _) as [p|]; [|done]. unfold route.
  destruct (DestinationSocketID (Hdr p) =? id) eqn:E.
  - apply Z.eqb_eq in E as ->. rewrite (proj2 (Z.eqb_neq _ _) Hid), Hc. fields. by rewrite list_lookup_alter_eq, Hq.
  - destruct (DestinationSocketID (Hdr p) =? 0); [done|]. destruct (conns m !! DestinationSocketID (Hdr p)) as [ch'|] eqn:E'; [|done].
    fields. rewrite list_lookup_alter_ne; [done|]. intros ->. specialize (Hinj _ _ _ Hc E'). lia.
Qed.

(** A connection receives exactly the packets addressed to it, in the order of
    their arrival, up to the room in its channel; the traffic of the others does
    not reach or displace them. *)
Theorem mux_routes_exact (ds : list (NetAddr * list Z)) : forall (m : Mux) (id : Z) (ch : nat) (q : list Packet),
  wf m -> id <> 0 -> conns m !! id = Some ch -> channels m !! ch = Some q -> (length q <= connQueue)%nat ->
  channels (fold_left receive ds m) !! ch = Some (take connQueue (q ++ addressed m id ds)).
Proof.
  induction ds as [|d ds IH]; intros m id ch q Hw Hid Hc Hq Hl.
  { simpl. by rewrite app_nil_r, firstn_all2 by lia. }
  destruct (receive_kept m d) as (K1 & K2 & _). pose proof (receive_channel m id ch q d Hw Hid Hc Hq) as Hd.
  pose proof (wf_receive m d Hw) as Hw'.
  assert (Ha : addressed m id (d :: ds) = addressed m id [d] ++ addressed m id ds).
  { unfold addressed. simpl. destruct (Parse _ _) as [p|]; [|done]. by destruct (_ =? id). }
  assert (Hm : addressed (receive m d) id ds = addressed m id ds) by (unfold addressed; by rewrite K2).
  cbn [fold_left]. erewrite IH; [|done|done|by rewrite K1|exact Hd|].
  - rewrite Hm, Ha, app_assoc. destruct (addressed m id [d]) as [|p l] eqn:E; [by rewrite app_nil_r|].
    assert (l = []) as ->. { unfold addressed in E. simpl in E. destruct (Parse _ _) as [p'|]; [|done]. destruct (_ =? id); [by injection E as _ <-|done]. }
    simpl. f_equal. rewrite offer_take by done. by rewrite <- app_assoc.
  - destruct (addressed m id [d]) as [|p l] eqn:E; [done|].
    assert (l = []) as ->. { unfold addressed in E. simpl in E. destruct (Parse _ _) as [p'|]; [|done]. destruct (_ =? id); [by injection E as _ <-|done]. }
    simpl. by apply offer_length.
Qed.

End Mux.
