(* ===== verification/ListenerHost.v ===== *)
(** * The host of a listener ([internal/session/listener.go])

    The loop of a listening socket: it takes handshake packets from the
    multiplexer, gives them to the core's listener and carries out what that
    answers.  New connections are registered for routing before the response that
    completes their handshake leaves, and offered to [Accept] after it.  The reader of
    the socket runs beside the loop, so datagrams arrive between any two actions of
    [drain]: a run carries those that are to arrive, and a log of those that did. *)
From Stdlib Require Import ZArith Lia.
From stdpp Require Import base numbers list option gmap fin_maps.
From S2P Require Import Prelude Packet Fifo ConnState Crypto Listener Mux Accepting.
Local Open Scope Z_scope.

Module ListenerHost.
Import Listener.Listener.

Definition acceptBacklog : nat := 64.

(** A connection with its channel: a session of its own, or a member that waits
    for its group. *)
Record served : Type := mkServed { event : Accepted; recvC : nat; remoteAddr : option Packet.NetAddr }.

Record Host : Type := mkHost {
  mux : Mux.Mux;
  core : Listener;
  addrs : gmap (list Z) Packet.NetAddr;
  accept : list served;
  groups_ : gmap Z (list served);
  groupSignal : bool
}.

#[global] Instance eta_host : Eta Host := fun h => mkHost (mux h) (core h) (addrs h) (accept h) (groups_ h) (groupSignal h).
#[global] Instance fld_h_mux : Field mux. Proof. derive_field. Defined.
#[global] Instance fld_h_core : Field core. Proof. derive_field. Defined.
#[global] Instance fld_h_addrs : Field addrs. Proof. derive_field. Defined.
#[global] Instance fld_h_accept : Field accept. Proof. derive_field. Defined.
#[global] Instance fld_h_groups : Field groups_. Proof. derive_field. Defined.
#[global] Instance fld_h_signal : Field groupSignal. Proof. derive_field. Defined.

Definition Listen (core : Listener) : Host := mkHost (Mux.New Mux.DefaultMSS) core ∅ [] ∅ false.

(** Polls a queue of the core until it is empty. *)
Section Poll.
Context {A : Type} (none : A).
Fixpoint poll_loop (fuel : nat) (q : Fifo.fifo A) : list A * Fifo.fifo A :=
  match fuel with
  | O => ([], q)
  | S fuel =>
      let '(x, ok, q) := Fifo.pop none q in
      if ok then let '(xs, q) := poll_loop fuel q in (x :: xs, q) else ([], q)
  end.
Definition pollAll (q : Fifo.fifo A) : list A * Fifo.fifo A := poll_loop (S (length (Fifo.contents q))) q.

Lemma pollFuel_all fuel : forall q, (length (Fifo.contents q) < fuel)%nat -> fst (poll_loop fuel q) = Fifo.contents q.
Proof.
  induction fuel as [|fuel IH]; intros q Hf; [lia|]. cbn [poll_loop]. pose proof (Fifo.pop_next none q) as H.
  destruct (Fifo.pop none q) as [[v ok] q']. destruct (Fifo.contents q) as [|x l] eqn:E.
  - by destruct H as [-> _].
  - destruct H as (-> & -> & H). specialize (IH q'). rewrite H in IH. destruct (poll_loop fuel q') as [xs q'']. simpl in *. rewrite IH by lia. done.
Qed.

Lemma pollAll_all q : fst (pollAll q) = Fifo.contents q.
Proof. apply pollFuel_all. lia. Qed.
End Poll.

Section Loop.
Context {P : Crypto.Primitives}.
(** [Addr.String], the name of a peer in the core. *)
Variable nameOf : Packet.NetAddr -> list Z.

Definition noEvent : Accepted := mkAccepted (ConnState.zeroConn (fun _ => None)) [] 0 [] 0 0 0 0.
Definition noOutput : SendTo := mkSendTo [] (Packet.New None).

(** The loop with the reader of the socket beside it: after its [n]-th action the
    datagrams of the [n]-th batch arrive.  The log says how much had been sent when a
    datagram arrived. *)
Definition datagram : Type := Packet.NetAddr * list Z.
Record run : Type := mkRun { host : Host; batches : list (list datagram); log : list (nat * datagram) }.

Definition sentBy (h : Host) : nat := length (Mux.wire (mux h)).

Definition hear (r : run) : run :=
  match batches r with
  | [] => r
  | ds :: rest =>
      mkRun ((host r) <| mux ::= fold_left Mux.receive ds |>) rest (log r ++ map (fun d => (sentBy (host r), d)) ds)
  end.

(** An action of the loop, and what arrives after it. *)
Definition act (h : Host) (r : run) : run := hear (mkRun h (batches r) (log r)).

(** Routing for a new connection. *)
Definition register (h : Host) (a : Accepted) : served * Host :=
  let '(ch, m) := Mux.Register (a_SocketID a) (mux h) in
  (mkServed a ch (addrs h !! a_Peer a), h <| mux := m |>).
Fixpoint registerAll (as_ : list Accepted) (r : run) : list served * run :=
  match as_ with
  | [] => ([], r)
  | a :: as_ =>
      let '(s, h) := register (host r) a in
      let '(ss, r) := registerAll as_ (act h r) in (s :: ss, r)
  end.

(** Errors of the socket are ignored. *)
Definition transmit (h : Host) (s : SendTo) : Host :=
  let p := (to_Packet s) in
  let p := Packet.mkPacket (Packet.setAddr (Packet.Hdr p) (addrs h !! to_Peer s)) (Packet.Data p) (Packet.pooled p) in
  match Mux.Send p (mux h) with Ok m => h <| mux := m |> | Err _ => h end.

Definition publish (h : Host) (s : served) : Host :=
  let a := event s in
  if negb (a_GroupID a =? 0) then
    h <| groups_ ::= fun g => <[a_GroupID a := default [] (g !! a_GroupID a) ++ [s]]> g |> <| groupSignal := true |>
  else if Nat.ltb (length (accept h)) acceptBacklog then h <| accept ::= fun q => q ++ [s] |>
  else h <| mux ::= Mux.Unregister (a_SocketID a) |>.

Definition setHost (h : Host) (r : run) : run := mkRun h (batches r) (log r).

Definition drain (r : run) : run :=
  let '(as_, evs) := pollAll noEvent (events (core (host r))) in
  let r := setHost ((host r) <| core ::= fun l => l <| events := evs |> |>) r in
  let '(pending, r) := registerAll as_ r in
  let '(outs, q) := pollAll noOutput (outputs (core (host r))) in
  let r := setHost ((host r) <| core ::= fun l => l <| outputs := q |> |>) r in
  let r := fold_left (fun r o => act (transmit (host r) o) r) outs r in
  fold_left (fun r s => act (publish (host r) s) r) pending r.

(** A packet of the handshake channel. *)
Definition handle (now : Z) (p : Packet.Packet) (r : run) : run :=
  match Packet.Addr (Packet.Hdr p) with
  | None => r
  | Some addr =>
      let peer := nameOf addr in
      let h := (host r) <| addrs ::= <[peer := addr]> |> in
      drain (setHost (h <| core ::= HandlePacket now p peer |>) r)
  end.

(** One round of [loop]. *)
Definition loop (now : Z) (r : run) : run :=
  match Mux.takeHandshake (mux (host r)) with
  | (None, _) => r
  | (Some p, m) => handle now p (setHost ((host r) <| mux := m |>) r)
  end.

Definition Accept (h : Host) : option served * Host :=
  match accept h with s :: q => (Some s, h <| accept := q |>) | [] => (None, h) end.

(** [AcceptGroup] when it finds a group with [n] members; [pick] is the group the
    iteration over the map meets first. *)
Definition AcceptGroup (n : nat) (pick : Z) (h : Host) : option (list served) * Host :=
  match groups_ h !! pick with
  | Some ms =>
      if Nat.leb n (length ms) then
        (Some (take n ms),
         h <| groups_ ::= fun g => match drop n ms with [] => delete pick g | rest => <[pick := rest]> g end |>)
      else (None, h)
  | None => (None, h)
  end.

End Loop.

(** ** Routing of new connections *)

Definition id (s : served) : Z := a_SocketID (event s).
Definition registered (h : Host) (s : served) : Prop := Mux.conns (mux h) !! id s = Some (recvC s).

(** In the hands of the application, or waiting for it. *)
Inductive serves (h : Host) (s : served) : Prop :=
| serves_accept : s ∈ accept h -> serves h s
| serves_group gid ms : groups_ h !! gid = Some ms -> s ∈ ms -> serves h s.

Record routed (h : Host) : Prop := {
  rt_wf : Mux.wf (mux h);
  rt_reg : forall s, serves h s -> registered h s
}.

(** Socket IDs that are not in use, each once. *)
Definition freshIDs (h : Host) (as_ : list Accepted) : Prop :=
  NoDup (map a_SocketID as_) /\ forall a, a ∈ as_ -> Mux.conns (mux h) !! a_SocketID a = None /\ a_SocketID a <> 0.

(** The channel of [s] holds what was addressed to it, in order and up to its room, but
    for datagrams that came before anything was sent ([w0] datagrams had been). *)
Definition holds (w0 : nat) (r : run) (s : served) : Prop :=
  exists before after, log r = before ++ after /\ Forall (fun e => e.1 = w0) before /\
    Mux.channels (mux (host r)) !! recvC s = Some (take Mux.connQueue (Mux.addressed (mux (host r)) (id s) (map snd after))).

Definition tracked (w0 : nat) (r : run) (s : served) : Prop := id s <> 0 /\ registered (host r) s /\ holds w0 r s.

(** The connections [pend] have a route and wait to be published; those that were handed
    out since [h0] have one too. *)
Record midway (w0 : nat) (h0 : Host) (pend : list served) (r : run) : Prop := mkMidway {
  mw_wf : Mux.wf (mux (host r));
  mw_nodup : NoDup (map id pend);
  mw_pend : forall s, s ∈ pend -> tracked w0 r s;
  mw_serves : forall s, serves (host r) s -> registered (host r) s /\ (id s ∉ map id pend) /\ (serves h0 s \/ tracked w0 r s)
}.

Lemma serves_same h h' s : accept h' = accept h -> groups_ h' = groups_ h -> serves h' s -> serves h s.
Proof. intros E1 E2 [H|gid ms H H']; [left; by rewrite <- E1|eapply serves_group; [by rewrite <- E2|done]]. Qed.

Lemma addressed_app m i ds ds' : Mux.addressed m i (ds ++ ds') = Mux.addressed m i ds ++ Mux.addressed m i ds'.
Proof. unfold Mux.addressed. apply omap_app. Qed.

Lemma addressed_same m m' i ds : Mux.mss m' = Mux.mss m -> Mux.addressed m' i ds = Mux.addressed m i ds.
Proof. unfold Mux.addressed. by intros ->. Qed.

Lemma take_take_app {A} n (l k : list A) : take n (take n l ++ k) = take n (l ++ k).
Proof.
  destruct (decide (length l <= n)%nat); [by rewrite (take_ge l)|].
  rewrite !take_app_le by (rewrite ?length_take; lia). by rewrite take_take, Nat.min_id.
Qed.

Lemma receives_kept ds : forall m, let m' := fold_left Mux.receive ds m in
  Mux.conns m' = Mux.conns m /\ Mux.mss m' = Mux.mss m /\ Mux.wire m' = Mux.wire m /\ (Mux.wf m -> Mux.wf m').
Proof.
  induction ds as [|d ds IH]; intros m; [done|]. cbn [fold_left]. destruct (IH (Mux.receive m d)) as (-> & -> & -> & W).
  destruct (Mux.receive_kept m d) as (-> & -> & ->). split_and!; try done. intros H. by apply W, Mux.wf_receive.
Qed.

(** Arrivals go where the routes say. *)
Lemma hear_midway w0 h0 pend r : midway w0 h0 pend r -> midway w0 h0 pend (hear r).
Proof.
  intros [Hw Hn Hp Hs]. unfold hear. destruct (batches r) as [|ds rest]; [by constructor|].
  destruct (receives_kept ds (mux (host r))) as (K1 & K2 & _ & K4).
  assert (Ht : forall s, tracked w0 r s ->
    tracked w0 (mkRun ((host r) <| mux ::= fold_left Mux.receive ds |>) rest (log r ++ map (fun d => (sentBy (host r), d)) ds)) s).
  { intros s (Hi & Hr & before & after & El & Hb & Hc). split; [done|]. split; [unfold registered; cbn [host]; fields; by rewrite K1|].
    exists before, (after ++ map (fun d => (sentBy (host r), d)) ds). cbn [log host]. fields. rewrite El, <- app_assoc.
    split; [done|]. split; [done|]. rewrite (addressed_same _ _ _ _ K2), map_app, map_map, map_id, addressed_app.
    erewrite Mux.mux_routes_exact; [|done|done|exact Hr|exact Hc|rewrite length_take; lia]. by rewrite take_take_app. }
  constructor; cbn [host]; [by fields; apply K4|done|intros s H; by apply Ht, Hp|].
  intros s H. apply (serves_same (host r)) in H; [|done|done]. destruct (Hs s H) as (H1 & H2 & H3).
  split; [unfold registered; fields; by rewrite K1|]. split; [done|]. destruct H3; [by left|right; by apply Ht].
Qed.

Lemma act_midway w0 h0 pend h r : midway w0 h0 pend (setHost h r) -> midway w0 h0 pend (act h r).
Proof. apply hear_midway. Qed.

(** Nothing has been sent so far. *)
Definition early (w0 : nat) (r : run) : Prop := sentBy (host r) = w0 /\ Forall (fun e => e.1 = w0) (log r).

Lemma hear_early w0 r : early w0 r -> early w0 (hear r) /\ Mux.conns (mux (host (hear r))) = Mux.conns (mux (host r)) /\
  core (host (hear r)) = core (host r).
Proof.
  intros [H1 H2]. unfold hear. destruct (batches r) as [|ds rest]; [done|].
  destruct (receives_kept ds (mux (host r))) as (K1 & _ & K3 & _). unfold early, sentBy in *. cbn [host log]. fields. rewrite K3.
  split_and!; try done. apply Forall_app. split; [done|]. rewrite H1. clear. induction ds; by constructor.
Qed.

Lemma register_midway w0 h0 pend r a : early w0 r -> midway w0 h0 pend r ->
  Mux.conns (mux (host r)) !! a_SocketID a = None -> a_SocketID a <> 0 ->
  let '(s, h) := register (host r) a in
  id s = a_SocketID a /\ early w0 (setHost h r) /\ core h = core (host r) /\ midway w0 h0 (pend ++ [s]) (setHost h r) /\
  Mux.conns (mux h) = <[a_SocketID a := recvC s]> (Mux.conns (mux (host r))).
Proof.
  intros [He1 He2] [Hw Hn Hp Hs] Hc Hz. unfold register. destruct (Mux.Register _ _) as [ch m] eqn:Er.
  pose proof (Mux.wf_Register (a_SocketID a) _ Hw) as Hw1. rewrite Er in Hw1. cbn [snd] in Hw1. unfold Mux.Register in Er. injection Er as <- Em.
  set (s0 := mkServed _ _ _). set (h := (host r) <| mux := m |>).
  assert (E1 : Mux.conns m = <[a_SocketID a := recvC s0]> (Mux.conns (mux (host r)))) by (subst m; by fields).
  assert (E2 : Mux.channels m = Mux.channels (mux (host r)) ++ [[]]) by (subst m; by fields).
  assert (E3 : Mux.mss m = Mux.mss (mux (host r)) /\ Mux.wire m = Mux.wire (mux (host r))) by (subst m; by fields).
  destruct E3 as [E3 E4]. clear Em.
  assert (Hreg : forall s, registered (host r) s -> id s <> a_SocketID a /\ registered h s).
  { intros s Hr. unfold registered, h in *. fields. rewrite E1. assert (id s <> a_SocketID a) by congruence.
    split; [done|]. by rewrite lookup_insert_ne. }
  assert (Ht : forall s, tracked w0 r s -> tracked w0 (setHost h r) s).
  { intros s (Hi & Hr & before & after & El & Hb & Hch). destruct (Hreg s Hr) as [_ Hr']. split; [done|]. split; [done|].
    exists before, after. unfold h. cbn [host setHost log]. fields. rewrite E2, (addressed_same _ _ _ _ E3). split_and!; try done.
    by apply lookup_app_l_Some. }
  split; [done|]. split; [split; [unfold sentBy, h; cbn [host setHost]; fields; rewrite E4; exact He1|exact He2]|].
  split; [done|]. split; [|exact E1]. constructor.
  - exact Hw1.
  - rewrite map_app. cbn [map]. apply NoDup_app. split; [done|]. split; [|apply NoDup_singleton].
    intros i Hi Hj%list_elem_of_singleton. apply list_elem_of_fmap in Hi as (s & -> & Hs'). destruct (Hp s Hs') as (_ & Hr & _).
    by destruct (Hreg s Hr) as [Hne _].
  - intros s [H|H]%elem_of_app; [by apply Ht, Hp|]. apply list_elem_of_singleton in H as ->. split; [done|].
    split; [unfold registered, h; cbn [host setHost]; fields; rewrite E1; apply lookup_insert_eq|].
    exists (log r), []. cbn [host setHost log]. split; [by rewrite app_nil_r|]. split; [done|]. unfold h. fields. rewrite E2.
    cbn [recvC s0]. by rewrite list_lookup_middle.
  - intros s H. apply (serves_same (host r)) in H; [|done|done]. destruct (Hs s H) as (H1 & H2 & H3). destruct (Hreg s H1) as [Hne Hr']. split; [done|]. split.
    + rewrite map_app. intros [?|Hj%list_elem_of_singleton]%elem_of_app; [done|]. by apply Hne.
    + destruct H3; [by left|right; by apply Ht].
Qed.

Lemma registerAll_midway w0 h0 as_ : forall pend r, early w0 r -> midway w0 h0 pend r ->
  NoDup (map a_SocketID as_) -> (forall a, a ∈ as_ -> Mux.conns (mux (host r)) !! a_SocketID a = None /\ a_SocketID a <> 0) ->
  let '(ss, r') := registerAll as_ r in midway w0 h0 (pend ++ ss) r'.
Proof.
  induction as_ as [|a as_ IH]; intros pend r He Hm Hn Hf; cbn [registerAll]; [by rewrite app_nil_r|].
  cbn [map] in Hn. apply NoDup_cons in Hn as [Ha Hn]. destruct (Hf a ltac:(by left)) as [Hc Hz].
  pose proof (register_midway w0 h0 pend r a He Hm Hc Hz) as Hr. destruct (register (host r) a) as [s h].
  destruct Hr as (Hi & He' & _ & Hm' & Ec). specialize (IH (pend ++ [s]) (act h r)). destruct (registerAll as_ (act h r)) as [ss r'].
  destruct (hear_early w0 (setHost h r) He') as (He'' & Ec' & _). rewrite cons_middle, app_assoc. apply IH; try done.
  - by apply act_midway.
  - intros a' Ha'. change (act h r) with (hear (setHost h r)). rewrite Ec'. cbn [host setHost]. rewrite Ec.
    destruct (Hf a' ltac:(by right)) as [? ?]. split; [|done]. rewrite lookup_insert_ne; [done|]. intros E. apply Ha. rewrite E.
    apply list_elem_of_fmap. by exists a'.
Qed.

(** Sending changes the wire only. *)
Lemma transmit_midway w0 h0 pend r o : midway w0 h0 pend r -> midway w0 h0 pend (act (transmit (host r) o) r).
Proof.
  intros H. apply act_midway. unfold transmit. cbv zeta. destruct (Mux.Send _ _) as [m|] eqn:E; [|by destruct r].
  assert (Hm : Mux.conns m = Mux.conns (mux (host r)) /\ Mux.channels m = Mux.channels (mux (host r)) /\ Mux.mss m = Mux.mss (mux (host r))).
  { unfold Mux.Send in E. destruct (Packet.Addr _) as [addr|]; [|done].
    destruct (Packet.Packet_Marshal _ _) as [[n buf]|]; [|done]. by injection E as <-. }
  destruct Hm as (E1 & E2 & E3). destruct H as [[W1 W2] Hn Hp Hs].
  assert (Ht : forall s, tracked w0 r s -> tracked w0 (setHost ((host r) <| mux := m |>) r) s).
  { intros s (Hi & Hr & before & after & El & Hb & Hc). split; [done|]. unfold registered. cbn [host setHost]. fields. rewrite E1.
    split; [done|]. exists before, after. cbn [host setHost log]. fields. by rewrite E2, (addressed_same _ _ _ _ E3). }
  constructor; cbn [host setHost]; fields.
  - split; rewrite E1; [rewrite E2; exact W1|exact W2].
  - done.
  - intros s H. by apply Ht, Hp.
  - intros s H. apply (serves_same (host r)) in H; [|done|done]. destruct (Hs s H) as (H1 & H2 & H3).
    split; [unfold registered; fields; by rewrite E1|]. split; [done|]. destruct H3; [by left|right; by apply Ht].
Qed.

Lemma publish_serves h s0 s : serves (publish h s0) s -> serves h s \/
  (s = s0 /\ Mux.conns (mux (publish h s0)) = Mux.conns (mux h)).
Proof.
  unfold publish. cbv zeta. destruct (negb (a_GroupID (event s0) =? 0)); [|destruct (Nat.ltb _ _)]; intros [H|gid ms H H']; fields_in H; fields.
  - left. by left.
  - apply lookup_insert_Some in H as [[<- <-]|[_ H]]; [|left; by eapply serves_group].
    apply elem_of_app in H' as [H'|H']; [|right; by apply list_elem_of_singleton in H'].
    destruct (groups_ h !! _) as [ms|] eqn:E; [left; by eapply serves_group|by apply not_elem_of_nil in H'].
  - apply elem_of_app in H as [H|H]; [left; by left|right; by apply list_elem_of_singleton in H].
  - left. by eapply serves_group.
  - left. by left.
  - left. by eapply serves_group.
Qed.

(** Publishing takes away at most the route of the connection itself. *)
Lemma publish_routes h s0 : Mux.channels (mux (publish h s0)) = Mux.channels (mux h) /\ Mux.mss (mux (publish h s0)) = Mux.mss (mux h) /\
  (Mux.wf (mux h) -> Mux.wf (mux (publish h s0))) /\
  forall s, id s <> id s0 -> registered h s -> registered (publish h s0) s.
Proof.
  unfold publish. cbv zeta. destruct (negb (a_GroupID (event s0) =? 0)); [|destruct (Nat.ltb _ _)]; fields; split_and!; try done.
  - apply Mux.wf_Unregister.
  - intros s Hne H. unfold registered, Mux.Unregister in *. fields. by rewrite lookup_delete_ne.
Qed.

Lemma publish_midway w0 h0 s0 rest r : midway w0 h0 (s0 :: rest) r -> midway w0 h0 rest (act (publish (host r) s0) r).
Proof.
  intros [Hw Hn Hp Hs]. apply act_midway. cbn [map] in Hn, Hs. apply NoDup_cons in Hn as [Hn0 Hn].
  destruct (publish_routes (host r) s0) as (E1 & E2 & Hw' & Hreg).
  assert (Hk : forall s, tracked w0 r s -> registered (publish (host r) s0) s -> tracked w0 (setHost (publish (host r) s0) r) s).
  { intros s (Hi & _ & before & after & El & Hb & Hc) Hr. split; [done|]. split; [done|]. exists before, after.
    cbn [host setHost log]. by rewrite E1, (addressed_same _ _ _ _ E2). }
  constructor; cbn [host setHost]; [by apply Hw'|done| |].
  - intros s H. assert (Ht : tracked w0 r s) by (apply Hp; by right). apply Hk; [done|]. apply Hreg; [|apply Ht].
    intros E. apply Hn0. rewrite <- E. apply list_elem_of_fmap. by exists s.
  - intros s [H|[-> E]]%publish_serves.
    + destruct (Hs s H) as (H1 & H2 & H3). assert (Hne : id s <> id s0) by (intros E; apply H2; rewrite E; by left).
      specialize (Hreg s Hne H1). split; [done|]. split; [intros Hx; apply H2; by right|].
      destruct H3; [by left|right; by apply Hk].
    + assert (Ht : tracked w0 r s0) by (apply Hp; by left).
      assert (Hr : registered (publish (host r) s0) s0) by (unfold registered; rewrite E; apply Ht).
      split; [done|]. split; [done|]. right. by apply Hk.
Qed.

Lemma transmitAll_midway w0 h0 pend outs : forall r, midway w0 h0 pend r ->
  midway w0 h0 pend (fold_left (fun r o => act (transmit (host r) o) r) outs r).
Proof. induction outs as [|o outs IH]; intros r H; [done|]. cbn [fold_left]. by apply IH, transmit_midway. Qed.

Lemma publishAll_midway w0 h0 pend : forall r, midway w0 h0 pend r ->
  midway w0 h0 [] (fold_left (fun r s => act (publish (host r) s) r) pend r).
Proof. induction pend as [|s pend IH]; intros r H; [done|]. cbn [fold_left]. by apply IH, publish_midway. Qed.

(** A run that starts with an empty log. *)
Lemma drain_midway bs h : routed h -> freshIDs h (Fifo.contents (events (core h))) ->
  midway (sentBy h) h [] (drain (mkRun h bs [])).
Proof.
  intros [Hw Hr] [Hn Hf]. unfold drain. cbn [host]. pose proof (pollAll_all noEvent (events (core h))) as Ep.
  destruct (pollAll noEvent (events (core h))) as [as_ evs]. cbn [fst] in Ep. subst as_. set (as_ := Fifo.contents _) in *. clearbody as_.
  set (r1 := setHost _ _). pose proof (registerAll_midway (sentBy h) h as_ [] r1) as Hs. destruct (registerAll as_ r1) as [pending r2].
  destruct (pollAll noOutput (outputs (core (host r2)))) as [outs q].
  apply publishAll_midway, transmitAll_midway. cbn [app] in Hs.
  assert (H2 : midway (sentBy h) h pending r2).
  { apply Hs; [by split; [|constructor]| |done|done].
    constructor; [done|constructor|intros s H; by apply not_elem_of_nil in H|].
    intros s H. apply (serves_same h) in H; [|done|done]. split; [by apply Hr|]. split; [apply not_elem_of_nil|by left]. }
  destruct H2 as [A1 A2 A3 A4]. constructor; cbn [host setHost]; fields; try done.
  intros s H. apply (serves_same (host r2)) in H; [|done|done]. by apply A4.
Qed.

Section Routes.
Context {P : Crypto.Primitives}.
Variable nameOf : Packet.NetAddr -> list Z.


(** *** Addresses *)

(** Every packet leaves its address behind, valid or not, and none is forgotten. *)
Theorem listener_addrs_grow (now : Z) (p : Packet.Packet) (r : run) (addr : Packet.NetAddr) :
  Packet.Addr (Packet.Hdr p) = Some addr -> addrs (host (handle nameOf now p r)) = <[nameOf addr := addr]> (addrs (host r)).
Proof.
  intros E. unfold handle. rewrite E. cbv zeta. set (r1 := setHost _ r).
  assert (Ha : forall h r, addrs (host (act h r)) = addrs h) by (intros h x; unfold act, hear; cbn [batches]; by destruct (batches x)).
  assert (Ht : forall outs r, addrs (host (fold_left (fun r o => act (transmit (host r) o) r) outs r)) = addrs (host r)).
  { induction outs as [|o outs IH]; intros g; [done|]. cbn [fold_left]. rewrite IH, Ha. unfold transmit. cbv zeta. by destruct (Mux.Send _ _). }
  assert (Hp : forall ss r, addrs (host (fold_left (fun r s => act (publish (host r) s) r) ss r)) = addrs (host r)).
  { induction ss as [|s ss IH]; intros g; [done|]. cbn [fold_left]. rewrite IH, Ha. unfold publish. cbv zeta.
    destruct (negb _); [done|]. by destruct (Nat.ltb _ _). }
  assert (Hg : forall as_ r, addrs (host (snd (registerAll as_ r))) = addrs (host r)).
  { induction as_ as [|a as_ IH]; intros g; [done|]. cbn [registerAll]. unfold register. destruct (Mux.Register _ _) as [ch m].
    set (h := (host g) <| mux := m |>). specialize (IH (act h g)). destruct (registerAll as_ _) as [ss g']. cbn [snd] in *. by rewrite IH, Ha. }
  unfold drain. destruct (pollAll noEvent _) as [as_ evs].
  specialize (Hg as_ (setHost ((host r1) <| core ::= fun l => l <| events := evs |> |>) r1)).
  destruct (registerAll _ _) as [pending r2]. destruct (pollAll noOutput _) as [outs q]. rewrite Hp, Ht. exact Hg.
Qed.

End Routes.

(** ** A concrete run *)

#[local] Existing Instance Crypto.toy.

Definition toyName (a : Packet.NetAddr) : list Z := [10; 1].
Definition toyPacket : Packet.Packet :=
  let p := Accepting.toyConclusion [10; 1] in
  Packet.mkPacket (Packet.setAddr (Packet.Hdr p) (Some (Packet.UDPAddr [10; 1] 4200))) (Packet.Data p) (Packet.pooled p).
Definition toyHost : Host := Listen Accepting.toyOpen.
(** A data packet for the new connection, which arrives right after the response left. *)
Definition toyID : Z := match accept (host (handle toyName 1 toyPacket (mkRun toyHost [] []))) with s :: _ => id s | [] => 0 end.
Definition toyData : datagram :=
  (Packet.UDPAddr [10; 1] 4200,
   match Packet.Packet_Marshal (Packet.NewData None 5 0 toyID [1; 2]) (make 100) with Ok (n, b) => take (Z.to_nat n) b | Err _ => [] end).
Definition toyRun : run := handle toyName 1 toyPacket (mkRun toyHost [[]; [toyData]] []).
Definition toyServed : list served := accept (host toyRun).

Lemma freshIDs_empty h as_ : Mux.conns (mux h) = ∅ -> bool_decide (NoDup (map a_SocketID as_)) = true ->
  forallb (fun i => negb (i =? 0)) (map a_SocketID as_) = true -> freshIDs h as_.
Proof.
  intros Hc Hn Hz. split; [by apply bool_decide_eq_true in Hn|]. intros a Ha. rewrite Hc. split; [apply lookup_empty|].
  rewrite forallb_forall in Hz. specialize (Hz (a_SocketID a)). rewrite <- list_elem_of_In in Hz. lapply Hz; [lia|].
  apply list_elem_of_fmap. by exists a.
Qed.


End ListenerHost.
