(* ===== verification/SrtListener.v ===== *)
(** * The public listener and its gates ([listener.go], [accept.go])

    The callbacks of the application, adapted by [srt] to the host's gate and by the
    host to the core's, and what a caller they turn away is told. *)
From Stdlib Require Import ZArith Lia.
From stdpp Require Import base numbers list option gmap.
From S2P Require Import Prelude Packet Handshake ConnState CoreHandshake Listener ListenerHost.
Local Open Scope Z_scope.

Module SrtListener.
Import ListenerHost(Host, addrs).

(** The host's request adds the resolved address. *)
Record AcceptRequest : Type := mkHostReq { h_StreamID : list Z; h_HSVersion : Z; h_GroupID : Z; h_GroupType : Z; h_RemoteAddr : option Packet.NetAddr }.

(** [session.Listener.SetAcceptGate] stores the gate; [coreGate] is what the core
    calls, under the gate installed at that moment. *)
Definition coreGate (gate : option (AcceptRequest -> bool * Z)) (h : Host) (req : Listener.AcceptRequest) : bool * Z :=
  match gate with
  | None => (true, 0)
  | Some fn => fn (mkHostReq (Listener.ar_StreamID req) (Listener.ar_HSVersion req) (Listener.ar_GroupID req) (Listener.ar_GroupType req)
                     (addrs h !! Listener.ar_Peer req))
  end.

Record ConnRequest : Type := mkConnReq { StreamID : list Z; RemoteAddr : option Packet.NetAddr; HSVersion : Z; GroupID : Z; GroupType : Z }.
Definition connRequest (r : AcceptRequest) : ConnRequest :=
  mkConnReq (h_StreamID r) (h_RemoteAddr r) (h_HSVersion r) (h_GroupID r) (h_GroupType r).

(** The gate each setter installs; [None] clears it. *)
Definition SetAcceptFunc (fn : option (ConnRequest -> bool)) : option (AcceptRequest -> bool * Z) :=
  match fn with None => None | Some fn => Some (fun r => (fn (connRequest r), 0)) end.
Definition SetAcceptRejectFunc (fn : option (ConnRequest -> Z)) : option (AcceptRequest -> bool * Z) :=
  match fn with
  | None => None
  | Some fn => Some (fun r => let code := fn (connRequest r) in if code =? 0 then (true, 0) else (false, u32 code))
  end.

(** ** Properties *)

(** The request an application sees of a caller. *)
Definition seen (h : Host) (req : Listener.AcceptRequest) : ConnRequest :=
  mkConnReq (Listener.ar_StreamID req) (addrs h !! Listener.ar_Peer req) (Listener.ar_HSVersion req) (Listener.ar_GroupID req)
    (Listener.ar_GroupType req).

(** The core of a host asks the application's callback, with the address the caller's
    packets came from: a refusal without a code is told as refused by the peer, one
    with a code as that code, and a cleared callback refuses nobody. *)
Theorem accept_gate_codes (h : Host) (l : Listener.Listener) (req : Listener.AcceptRequest) (ok : ConnRequest -> bool) (code : ConnRequest -> Z) :
  (forall r, 0 <= code r < 2 ^ 32) ->
  let verdict g := Listener.askGate (Listener.SetAcceptGate (coreGate g h) l) req in
  verdict (SetAcceptFunc (Some ok)) = (if ok (seen h req) then None else Some ConnState.rejPeer) /\
  verdict (SetAcceptRejectFunc (Some code)) = (if code (seen h req) =? 0 then None else Some (code (seen h req))) /\
  verdict (SetAcceptFunc None) = None /\ verdict (SetAcceptRejectFunc None) = None.
Proof.
  intros H. cbv zeta. unfold Listener.askGate, Listener.SetAcceptGate. fields. unfold coreGate, SetAcceptFunc, SetAcceptRejectFunc.
  unfold connRequest. cbn. fold (seen h req). split; [by destruct (ok _)|]. split; [|done].
  destruct (code (seen h req) =? 0) eqn:E; [done|]. unfold u32. rewrite Z.mod_small by apply H. unfold CoreHandshake.orZ. by rewrite E.
Qed.

End SrtListener.
