(* ===== verification/SrtDial.v ===== *)
(** * Opening connections ([dialer.go], [rendezvous.go], [transport.go], [listener.go])

    The calls that open a connection or a listener: the configuration is validated,
    the addresses resolved, a socket created with its options, and the session
    started on it.  The sockets of the process are counted, so that what a call
    leaves open is part of its result.  Resolving and binding are parameters. *)
From Stdlib Require Import ZArith Lia.
From stdpp Require Import base numbers list option gmap.
From S2P Require Import Prelude Packet Fifo Crypto Float64 Handshake ConnRecv CoreHandshake Rendezvous Session SessionSafe Listener SessionDial SrtConfig SockOpt SrtConn ListenerHost SrtListener.
Import SessionDial(dialError, entropy, identity).
Local Open Scope Z_scope.

Module SrtDial.

(** ** Sockets *)

Record Sockets : Type := mkSockets { next : nat; opened : gset nat }.
Definition create (w : Sockets) : nat * Sockets := (next w, mkSockets (S (next w)) ({[next w]} ∪ opened w)).
Definition close (i : nat) (w : Sockets) : Sockets := mkSockets (next w) (opened w ∖ {[i]}).

(** A [*net.UDPAddr]; [[]] is the nil address. *)
Record UDPAddr : Type := mkUDPAddr { IP : list Z; Port : Z }.
Definition netAddr (a : UDPAddr) : Packet.NetAddr := Packet.UDPAddr (IP a) (Port a).

Definition v4InV6Prefix : list Z := [0; 0; 0; 0; 0; 0; 0; 0; 0; 0; 255; 255].
Definition To4 (ip : list Z) : option (list Z) :=
  if Nat.eqb (length ip) 4 then Some ip
  else if Nat.eqb (length ip) 16 && bool_decide (take 12 ip = v4InV6Prefix) then Some (drop 12 ip)
  else None.

Inductive network : Type := udp | udp4 | udp6.
Definition udpNetwork (a : option UDPAddr) : network :=
  match a with
  | None => udp
  | Some a => match IP a with [] => udp | ip => match To4 ip with Some _ => udp4 | None => udp6 end end
  end.

(** What the operating system and the resolver answer. *)
Record system : Type := mkSystem {
  ResolveUDPAddr : list Z -> result Z UDPAddr;
  setsockopt : SockOpt.sockopt -> option Z;
  linux : bool;
  (* the family a socket of network "udp" is opened with *)
  dualStack : option UDPAddr -> bool;
  bind : option UDPAddr -> option Z
}.

Inductive openError : Type :=
| EConfig (e : SrtConfig.configError) | EResolve (e : Z) | EOption (e : SockOpt.sockError) | EBind (e : Z)
| ESession (e : dialError) | ERandom.

Section Open.
Context {P : Crypto.Primitives} {M : Float64.GoMath} {R : ConnRecv.RangeOrder} (capOf : list Z -> Z) (sys : system).

(** [session.ListenUDP]: a socket the options or the bind fail on is not returned. *)
Definition ListenUDP (net : network) (laddr : option UDPAddr) (o : SrtConfig.UDPSocketOptions) (w : Sockets) : result openError nat * Sockets :=
  let '(i, w') := create w in
  let isIPv6 := match net with udp4 => false | udp6 => true | udp => dualStack sys laddr end in
  match snd (SockOpt.ListenUDP (setsockopt sys) (linux sys) isIPv6 o) with
  | Some e => (Err (EOption e), close i w')
  | None => match bind sys laddr with Some e => (Err (EBind e), close i w') | None => (Ok i, w') end
  end.

(** ** Over a given socket *)

(** What the loop of a session meets while [Dial] waits: turns, and the timeout. *)
Record wait : Type := mkWait { turns : list (Z * Z * Session.input); timedOut : bool }.

Definition fed (now : Z) (ins : list (Z * Z * Session.input)) (s : Session.Session) : option Session.Session :=
  fold_left (fun s '(now, wall, i) => match s with Some s => Session.step capOf now wall i s | None => None end) ins (Some (Session.drain capOf now s)).

(** [session.Dial] and [session.DialRendezvous] over socket [i]: an error before the
    session exists leaves the socket, one after it closes the session, which closes
    the socket.  [None] is a call that still waits. *)
Definition sessionDial (now : Z) (start : result dialError (Session.Session * identity)) (x : wait) (i : nat) (w : Sockets) :
    option (result openError (Session.Session * identity) * Sockets) :=
  match start with
  | Err e => Some (Err (ESession e), w)
  | Ok (s, ids) =>
      match fed now (turns x) s with
      | None => None
      | Some s =>
          match SessionDial.awaited (timedOut x) s with
          | None => None
          | Some (Ok s) => Some (Ok (s, ids), w)
          | Some (Err e) => Some (Err (ESession e), close i w)
          end
      end
  end.

(** The instants of a call: of the session's clock, of the wall, and the entropy. *)
Record moment : Type := mkMoment { now : Z; wall : Z; rand : entropy }.

Definition startDial (t : moment) (raddr : Packet.NetAddr) (dc : CoreHandshake.DialConfig) (c : SrtConfig.Config) : result dialError (Session.Session * identity) :=
  SessionDial.Dial (now t) (SrtConfig.KeyLength c) (SrtConfig.CryptoMode c) (rand t) (Some raddr) dc.
Definition startRendezvous (t : moment) (raddr : Packet.NetAddr) (c : SrtConfig.Config) : result dialError (Session.Session * identity) :=
  SessionDial.DialRendezvous (now t) (SrtConfig.CryptoMode c) (rand t) (Some raddr) (SrtConfig.rendezvousConfig 0 0 0 None c).

(** [newConn] on the session, or the error. *)
Definition connOf (t : moment) (c : SrtConfig.Config) (r : option (result openError (Session.Session * identity) * Sockets)) :
    option (result openError SrtConn.Conn * Sockets) :=
  match r with
  | None => None
  | Some (Ok (s, ids), w) => Some (Ok (SrtConn.newConn (wall t) s ids c false), w)
  | Some (Err e, w) => Some (Err e, w)
  end.

(** [if err != nil { pc.Close(); return nil, err }]. *)
Definition orClose {A} (i : nat) (r : option (result openError A * Sockets)) : option (result openError A * Sockets) :=
  match r with Some (Err e, w) => Some (Err e, close i w) | _ => r end.

Definition DialPacketConn (t : moment) (conn : nat) (raddr : Packet.NetAddr) (c : SrtConfig.Config) (x : wait) (w : Sockets) :
    option (result openError SrtConn.Conn * Sockets) :=
  match SrtConfig.validate c with
  | Err e => Some (Err (EConfig e), w)
  | Ok c => connOf t c (sessionDial (now t) (startDial t raddr (SrtConfig.dialConfig 0 0 None c) c) x conn w)
  end.

Definition DialRendezvousPacketConn (t : moment) (conn : nat) (raddr : Packet.NetAddr) (c : SrtConfig.Config) (x : wait) (w : Sockets) :
    option (result openError SrtConn.Conn * Sockets) :=
  match SrtConfig.validate c with
  | Err e => Some (Err (EConfig e), w)
  | Ok c => connOf t c (sessionDial (now t) (startRendezvous t raddr c) x conn w)
  end.

(** ** Over a socket of its own *)

(** The part the dialling calls share: a socket, the session, and the socket closed
    on an error. *)
Definition dialOn (t : moment) (net : network) (laddr : option UDPAddr) (start : result dialError (Session.Session * identity)) (c : SrtConfig.Config)
    (x : wait) (w : Sockets) : option (result openError SrtConn.Conn * Sockets) :=
  match ListenUDP net laddr (SrtConfig.udpSocketOptions c) w with
  | (Err e, w) => Some (Err e, w)
  | (Ok pc, w) => connOf t c (orClose pc (sessionDial (now t) start x pc w))
  end.

Definition Dial (t : moment) (addr : list Z) (c : SrtConfig.Config) (x : wait) (w : Sockets) : option (result openError SrtConn.Conn * Sockets) :=
  match SrtConfig.validate c with
  | Err e => Some (Err (EConfig e), w)
  | Ok c =>
      match ResolveUDPAddr sys addr with
      | Err e => Some (Err (EResolve e), w)
      | Ok raddr => dialOn t (udpNetwork (Some raddr)) None (startDial t (netAddr raddr) (SrtConfig.dialConfig 0 0 None c) c) c x w
      end
  end.

(** The member of a group starts from the group's sequence number. *)
Definition dialGroupMember (t : moment) (addr : list Z) (c : SrtConfig.Config) (isn : Z) (x : wait) (w : Sockets) :
    option (result openError SrtConn.Conn * Sockets) :=
  match SrtConfig.validate c with
  | Err e => Some (Err (EConfig e), w)
  | Ok c =>
      match ResolveUDPAddr sys addr with
      | Err e => Some (Err (EResolve e), w)
      | Ok raddr => dialOn t (udpNetwork (Some raddr)) None (startDial t (netAddr raddr) (SrtConfig.dialConfig 0 isn None c) c) c x w
      end
  end.

Definition DialRendezvous (t : moment) (localAddr remoteAddr : list Z) (c : SrtConfig.Config) (x : wait) (w : Sockets) :
    option (result openError SrtConn.Conn * Sockets) :=
  match SrtConfig.validate c with
  | Err e => Some (Err (EConfig e), w)
  | Ok c =>
      match ResolveUDPAddr sys localAddr with
      | Err e => Some (Err (EResolve e), w)
      | Ok laddr =>
          match ResolveUDPAddr sys remoteAddr with
          | Err e => Some (Err (EResolve e), w)
          | Ok raddr => dialOn t (udpNetwork (Some laddr)) (Some laddr) (startRendezvous t (netAddr raddr) c) c x w
          end
      end
  end.

(** ** Listeners *)

(** [session.Listen]: the cookie secret is drawn first.  [rng], [newCtx] and
    [connRand] are what the core draws later. *)
Record draws : Type := mkDraws { secret : option (list Z); rng : nat -> list Z; newCtx : Z -> Z -> option Crypto.Context; connRand : list Z -> nat -> option (list Z) }.
Definition Uint64 (b : list Z) : Z := fold_left (fun a x => 256 * a + x) (take 8 b) 0.
Definition sessionListen (d : draws) (lc : Listener.LC.ListenerConfig) : result openError ListenerHost.Host :=
  match secret d with
  | None => Err ERandom
  | Some b =>
      let l := Listener.NewListener lc (Uint64 b) (rng d) (Some (newCtx d)) (connRand d) in
      Ok (ListenerHost.Listen (Listener.SetAcceptGate (SrtListener.coreGate None (ListenerHost.Listen l)) l))
  end.

(** The public listener: its host and the validated configuration. *)
Definition SrtL : Type := ListenerHost.Host * SrtConfig.Config.

Definition ListenPacketConn (d : draws) (c : SrtConfig.Config) (w : Sockets) : result openError SrtL * Sockets :=
  match SrtConfig.validate c with
  | Err e => (Err (EConfig e), w)
  | Ok c => match sessionListen d (SrtConfig.listenerConfig c) with Ok h => (Ok (h, c), w) | Err e => (Err e, w) end
  end.

Definition Listen (d : draws) (addr : list Z) (c : SrtConfig.Config) (w : Sockets) : result openError SrtL * Sockets :=
  match SrtConfig.validate c with
  | Err e => (Err (EConfig e), w)
  | Ok c =>
      match ResolveUDPAddr sys addr with
      | Err e => (Err (EResolve e), w)
      | Ok laddr =>
          match ListenUDP (udpNetwork (Some laddr)) (Some laddr) (SrtConfig.udpSocketOptions c) w with
          | (Err e, w) => (Err e, w)
          | (Ok pc, w) => match sessionListen d (SrtConfig.listenerConfig c) with Ok h => (Ok (h, c), w) | Err e => (Err e, close pc w) end
          end
      end
  end.

(** ** What a call leaves open *)

(** Socket numbers are never used twice. *)
Definition wf (w : Sockets) : Prop := forall i, i ∈ opened w -> (i < next w)%nat.

(** A call refused before any socket was created. *)
Definition early (e : openError) : bool := match e with EConfig _ | EResolve _ => true | _ => false end.

(** A call that returns keeps the sockets of others.  With an error nothing new is
    open; with a value one new socket is, and the value satisfies [owner]. *)
Definition accounted {A} (owner : A -> Prop) (w : Sockets) (r : result openError A) (w' : Sockets) : Prop :=
  wf w' /\
  match r with
  | Err e => opened w' = opened w /\ (early e = true -> w' = w)
  | Ok a => exists i, (i ∉ opened w) /\ opened w' = ({[i]} ∪ opened w) /\ owner a
  end.

(** A connection from [c]: established, under the validated configuration. *)
Definition established (t : moment) (c : SrtConfig.Config) (conn : SrtConn.Conn) : Prop :=
  exists c' s ids, SrtConfig.validate c = Ok c' /\ Session.connected s = Some None /\ conn = SrtConn.newConn (wall t) s ids c' false.

Lemma create_close w : wf w -> (next w ∉ opened w) /\ opened (close (next w) (snd (create w))) = opened w /\ wf (snd (create w)).
Proof.
  intros W. assert (next w ∉ opened w) as Hn by (intros H; apply W in H; lia). split; [done|]. split; [simpl; set_solver|].
  intros i. simpl. rewrite elem_of_union, elem_of_singleton. intros [->|H]; [lia|]. apply W in H. lia.
Qed.

Lemma close_wf i w : wf w -> wf (close i w).
Proof. intros W j. simpl. rewrite elem_of_difference. intros [H _]. by apply W. Qed.

(** A socket is returned, or nothing is left of it. *)
Lemma ListenUDP_accounted net laddr o w r w' : wf w -> ListenUDP net laddr o w = (r, w') ->
  match r with
  | Ok i => i = next w /\ w' = snd (create w)
  | Err e => w' = close (next w) (snd (create w)) /\ early e = false
  end.
Proof.
  intros W. unfold ListenUDP, create. destruct (snd (SockOpt.ListenUDP _ _ _ _)); [intros [= <- <-]; done|].
  destruct (bind sys laddr); intros [= <- <-]; done.
Qed.

(** Who owns the socket after [sessionDial]. *)
Lemma sessionDial_spec now start x i w r w' : sessionDial now start x i w = Some (r, w') ->
  match r with
  | Ok (s, _) => w' = w /\ Session.connected s = Some None
  | Err e => exists d, e = ESession d /\ (w' = w /\ start = Err d \/ w' = close i w /\ exists s, start = Ok s)
  end.
Proof.
  unfold sessionDial. destruct start as [[s ids]|e]; [|intros [= <- <-]; exists e; split; [done|by left]].
  destruct (fed now (turns x) s) as [s'|]; [|done]. unfold SessionDial.awaited. destruct (timedOut x).
  { intros [= <- <-]. eexists. split; [done|]. right. eauto. }
  destruct (Session.connected s') as [[e|]|] eqn:E; intros [= <- <-]; [|done].
  eexists. split; [done|]. right. eauto.
Qed.

Lemma dialOn_accounted t net laddr start c0 c x w r w' : wf w -> SrtConfig.validate c0 = Ok c ->
  dialOn t net laddr start c x w = Some (r, w') -> accounted (established t c0) w r w'.
Proof.
  intros W Hc. unfold dialOn. destruct (ListenUDP net laddr _ w) as [u w1] eqn:Eu. apply ListenUDP_accounted in Eu; [|done].
  destruct (create_close w W) as (Hn & Ho & Wc). destruct u as [i|e].
  - destruct Eu as [-> ->]. destruct (sessionDial _ start x _ _) as [[r' w2]|] eqn:Ed; [|done]. apply sessionDial_spec in Ed.
    destruct r' as [[s ids]|e]; cbn [orClose connOf]; intros [= <- <-].
    + destruct Ed as [-> Hs]. split; [done|]. exists (next w). split; [done|]. split; [done|]. exists c, s, ids. done.
    + destruct Ed as (d & -> & Hw). split; [|split; [|done]].
      * apply close_wf. destruct Hw as [[-> _]|[-> _]]; [done|by apply close_wf].
      * destruct Hw as [[-> _]|[-> _]]; simpl in *; set_solver.
  - destruct Eu as [-> He]. intros [= <- <-]. split; [by apply close_wf|]. split; [done|]. by rewrite He.
Qed.

Lemma refused {A} (owner : A -> Prop) w (r : result openError A) w' e : wf w -> Some (Err e, w) = Some (r, w') -> accounted owner w r w'.
Proof. intros W [= <- <-]. done. Qed.

(** A dialling call leaks no socket: when it returns an error, the sockets that are
    open are those that were, and none was even created for a configuration or an
    address that is refused; when it returns a connection, one new socket is open, and
    the connection is established under the validated configuration. *)
Theorem dial_sockets_accounted (t : moment) (addr laddr : list Z) (isn : Z) (c : SrtConfig.Config) (x : wait) (w w' : Sockets) (r : result openError SrtConn.Conn) :
  wf w ->
  Dial t addr c x w = Some (r, w') \/ dialGroupMember t addr c isn x w = Some (r, w') \/ DialRendezvous t laddr addr c x w = Some (r, w') ->
  accounted (established t c) w r w'.
Proof.
  intros W. unfold Dial, dialGroupMember, DialRendezvous. destruct (SrtConfig.validate c) as [c'|e] eqn:Ec;
    [|intros [H|[H|H]]; by apply (refused _ _ _ _ _ W H)].
  intros [H|[H|H]].
  1, 2: destruct (ResolveUDPAddr sys addr); [by eapply dialOn_accounted|by apply (refused _ _ _ _ _ W H)].
  destruct (ResolveUDPAddr sys laddr); [|by apply (refused _ _ _ _ _ W H)].
  destruct (ResolveUDPAddr sys addr); [by eapply dialOn_accounted|by apply (refused _ _ _ _ _ W H)].
Qed.

(** The same of a listener, whose core then has the configuration. *)
Theorem listen_sockets_accounted (d : draws) (addr : list Z) (c : SrtConfig.Config) (w w' : Sockets) (r : result openError SrtL) :
  wf w -> Listen d addr c w = (r, w') ->
  accounted (fun l => SrtConfig.validate c = Ok (snd l) /\ sessionListen d (SrtConfig.listenerConfig (snd l)) = Ok (fst l)) w r w'.
Proof.
  intros W. unfold Listen. destruct (SrtConfig.validate c) as [c'|e]; [|intros H; injection H as <- <-; done].
  destruct (ResolveUDPAddr sys addr) as [a|e]; [|intros H; injection H as <- <-; done].
  destruct (ListenUDP _ _ _ w) as [u w1] eqn:Eu. apply ListenUDP_accounted in Eu; [|done].
  destruct (create_close w W) as (Hn & Ho & Wc). destruct u as [i|e].
  - destruct Eu as [-> ->]. destruct (sessionListen d _) as [h|e] eqn:El; intros H; injection H as <- <-.
    + split; [done|]. exists (next w). done.
    + split; [by apply close_wf|]. split; [done|]. unfold sessionListen in El. destruct (secret d); [done|]. by injection El as <-.
  - destruct Eu as [-> He]. intros H; injection H as <- <-. split; [by apply close_wf|]. split; [done|]. by rewrite He.
Qed.

(** Over a socket the caller supplies, the kind of error decides who owns it: refused
    before the session exists (the configuration, the entropy, the cipher) it is still
    open, after a failed handshake or a timeout it is closed. *)
Theorem packet_conn_ownership (t : moment) (conn : nat) (raddr : Packet.NetAddr) (c : SrtConfig.Config) (x : wait) (w w' : Sockets) (r : result openError SrtConn.Conn) :
  DialPacketConn t conn raddr c x w = Some (r, w') ->
  match r with
  | Ok conn => w' = w /\ established t c conn
  | Err (EConfig _) => w' = w
  | Err _ => exists c', SrtConfig.validate c = Ok c' /\
      match startDial t raddr (SrtConfig.dialConfig 0 0 None c') c' with Err _ => w' = w | Ok _ => w' = close conn w end
  end.
Proof.
  unfold DialPacketConn. destruct (SrtConfig.validate c) as [c'|e] eqn:Ec; [|intros [= <- <-]; done].
  destruct (sessionDial _ _ x conn w) as [[r' w2]|] eqn:Ed; [|done]. apply sessionDial_spec in Ed.
  destruct r' as [[s ids]|e]; cbn [connOf]; intros [= <- <-].
  - destruct Ed as [-> Hs]. split; [done|]. exists c', s, ids. done.
  - destruct Ed as (d & -> & Hw). exists c'. split; [done|]. by destruct Hw as [[-> ->]|[-> [[s ids] ->]]].
Qed.

End Open.

(** ** A call against a listener *)

#[local] Existing Instances Crypto.toy Float64.toyMath ConnRecv.toyRange.

Definition toyOS : system :=
  mkSystem (fun a => match a with [] => Err 1 | _ => Ok (mkUDPAddr [127; 0; 0; 1] 9000) end) SockOpt.toySystem true (fun _ => true) (fun _ => None).
Definition toyRand : entropy := SessionDial.mkEntropy (Some [0; 0; 0; 77]) (Some [0; 0; 4; 0]) None None None None (fun _ => None).
Definition toyMoment : moment := mkMoment 1000 0 toyRand.
Definition toyDraws : draws := mkDraws (Some [0; 0; 0; 0; 0; 0; 0; 99]) (fun _ => [0; 0; 1; 2]) (fun _ _ => None) (fun _ _ => None).
Definition toyW : Sockets := mkSockets 3 {[0%nat; 2%nat]}.

(** The last packet of a session to the listener at time [now], and its reply. *)
Definition answered (now : Z) (s : Session.Session) (l : Listener.Listener) : option (Packet.Packet * Listener.Listener) :=
  match last (Session.wire s) with
  | None => None
  | Some p =>
      let l := Listener.HandlePacket now p [10; 0; 0; 1] l in
      match last (Fifo.contents (Listener.outputs l)) with Some r => Some (Listener.to_Packet r, l) | None => None end
  end.

(** The turns of the caller's session when a listener answers its two requests. *)
Definition toyTurns : list (Z * Z * Session.input) :=
  match fst (Listen toyOS toyDraws [58] SrtConfig.DefaultConfig toyW), SrtConfig.validate SrtConfig.DefaultConfig with
  | Ok (h, _), Ok c =>
      match startDial toyMoment (Packet.UDPAddr [127; 0; 0; 1] 9000) (SrtConfig.dialConfig 0 0 None c) c with
      | Ok (s, _) =>
          match answered 2000 (Session.drain SessionSafe.toyCap 1000 s) (ListenerHost.core h) with
          | Some (p1, l) =>
              match fed SessionSafe.toyCap 1000 [(3000, 0, Session.InPacket p1)] s with
              | Some s' => match answered 4000 s' l with Some (p2, _) => [(3000, 0, Session.InPacket p1); (5000, 0, Session.InPacket p2)] | None => [] end
              | None => []
              end
          | None => []
          end
      | Err _ => []
      end
  | _, _ => []
  end.

Local Notation toyDial c x := (Dial SessionSafe.toyCap toyOS toyMoment [58] c x toyW).

Definition isOk {A} (r : option (result openError A * Sockets)) : bool := match r with Some (Ok _, _) => true | _ => false end.
Definition left_ {A} (r : option (result openError A * Sockets)) : list nat := match r with Some (_, w) => elements (opened w) | None => [] end.

Local Notation toyOk := (toyDial SrtConfig.DefaultConfig (mkWait toyTurns false)).

(** The handshake against the listener succeeds on socket 3; without an answer the
    socket is closed, and a refused configuration or address creates none. *)
Lemma dial_runs :
  isOk toyOk = true /\ left_ toyOk = [2; 3; 0]%nat /\
  toyDial SrtConfig.DefaultConfig (mkWait [] true) = Some (Err (ESession SessionDial.DialTimeout), mkSockets 4 {[0%nat; 2%nat]}) /\
  toyDial (SrtConfig.DefaultConfig <| SrtConfig.MSS := 40 |>) (mkWait toyTurns false) = Some (Err (EConfig SrtConfig.ErrMSS), toyW) /\
  Dial SessionSafe.toyCap toyOS toyMoment [] SrtConfig.DefaultConfig (mkWait toyTurns false) toyW = Some (Err (EResolve 1), toyW).
Proof. split_and!; vm_compute; reflexivity. Qed.

Lemma dial_sockets_accounted_witness : exists conn w',
  toyOk = Some (Ok conn, w') /\ accounted (established toyMoment SrtConfig.DefaultConfig) toyW (Ok conn) w'.
Proof.
  destruct toyOk as [[[conn|e] w']|] eqn:E.
  2, 3: exfalso; destruct dial_runs as [H _]; rewrite E in H; discriminate H.
  exists conn, w'. split; [reflexivity|].
  apply (dial_sockets_accounted SessionSafe.toyCap toyOS toyMoment [58] [58] 0 SrtConfig.DefaultConfig (mkWait toyTurns false)); [|left; exact E].
  intros i. cbn. rewrite elem_of_union, !elem_of_singleton. lia.
Defined.

End SrtDial.
