(* ===== verification/SrtServer.v ===== *)
(** * The server and its shutdown ([server.go])

    [Serve] accepts connections in one goroutine, runs a handler per connection in
    others, and [Shutdown] comes from a third; the state below is what they share,
    a step is what one of them does between two points where another can run.
    Connections are numbered, [conns] says which are open. *)
From Stdlib Require Import Lia.
From stdpp Require Import base numbers list option gmap relations.
From S2P Require Import Prelude.
Local Open Scope nat_scope.

Module SrtServer.

Inductive ConnType : Type := Reject | Publish | Subscribe.
#[global] Instance ConnType_dec : EqDecision ConnType. Proof. solve_decision. Defined.

(** Where the accept loop and [Shutdown] are. *)
Inductive servePc : Type :=
| Accepting
| Got (c addr : nat)
| Classified (c : nat) (m : ConnType)
| Added (c : nat) (m : ConnType)
| Tracked (c : nat) (m : ConnType)
| ServeReturned.
Inductive stopPc : Type := NotStopped | Flagged | ListenerClosed | ConnsClosed | StopReturned.

Record Server : Type := mkServer {
  listening : bool;
  shutdown : bool;
  wg : nat;
  activeConns : gset nat;
  pendingModes : gmap nat ConnType;
  conns : gmap nat bool;
  handlers : gset nat;
  serve : servePc;
  stop : stopPc
}.

#[global] Instance eta_server : Eta Server := fun s =>
  mkServer (listening s) (shutdown s) (wg s) (activeConns s) (pendingModes s) (conns s) (handlers s) (serve s) (stop s).
#[global] Instance fld_sv_listening : Field listening. Proof. derive_field. Defined.
#[global] Instance fld_sv_shutdown : Field shutdown. Proof. derive_field. Defined.
#[global] Instance fld_sv_wg : Field wg. Proof. derive_field. Defined.
#[global] Instance fld_sv_activeConns : Field activeConns. Proof. derive_field. Defined.
#[global] Instance fld_sv_pendingModes : Field pendingModes. Proof. derive_field. Defined.
#[global] Instance fld_sv_conns : Field conns. Proof. derive_field. Defined.
#[global] Instance fld_sv_handlers : Field handlers. Proof. derive_field. Defined.
#[global] Instance fld_sv_serve : Field serve. Proof. derive_field. Defined.
#[global] Instance fld_sv_stop : Field stop. Proof. derive_field. Defined.

(** After [Listen]. *)
Definition listen : Server := mkServer true false 0 ∅ ∅ ∅ ∅ Accepting NotStopped.

Definition closeConn (c : nat) (s : Server) : Server := s <| conns ::= <[c := false]> |>.
Definition closeActive (s : Server) : Server :=
  s <| conns ::= fun m => map_imap (fun c open => Some (open && negb (bool_decide (c ∈ activeConns s)))) m |>.

(** The gate installed by [Listen]: what [HandleConnect] says of a caller. *)
Definition gate (addr : nat) (mode : ConnType) (s : Server) : bool * Server :=
  match mode with Reject => (false, s) | _ => (true, s <| pendingModes ::= <[addr := mode]> |>) end.

(** The end of a handler: its deferred calls, the connection first. *)
Definition handlerDone (c : nat) (s : Server) : Server :=
  (closeConn c s) <| activeConns ::= fun a => a ∖ {[c]} |> <| wg ::= pred |> <| handlers ::= fun hs => hs ∖ {[c]} |>.

Inductive step : Server -> Server -> Prop :=
| step_gate s addr mode : step s (gate addr mode s).2
| step_accept s c addr : serve s = Accepting -> listening s = true -> conns s !! c = None ->
    step s (s <| conns ::= <[c := true]> |> <| serve := Got c addr |>)
| step_acceptError s : serve s = Accepting -> listening s = false -> step s (s <| serve := ServeReturned |>)
| step_unclassified s c addr : serve s = Got c addr -> pendingModes s !! addr = None ->
    step s ((closeConn c s) <| serve := Accepting |>)
| step_classified s c addr m : serve s = Got c addr -> pendingModes s !! addr = Some m ->
    step s (s <| pendingModes ::= delete addr |> <| serve := Classified c m |>)
| step_late s c m : serve s = Classified c m -> shutdown s = true -> step s ((closeConn c s) <| serve := Accepting |>)
| step_add s c m : serve s = Classified c m -> shutdown s = false -> step s (s <| wg ::= S |> <| serve := Added c m |>)
| step_track s c m : serve s = Added c m -> step s (s <| activeConns ::= fun a => {[c]} ∪ a |> <| serve := Tracked c m |>)
| step_spawn s c m : serve s = Tracked c m -> step s (s <| handlers ::= fun hs => {[c]} ∪ hs |> <| serve := Accepting |>)
| step_handlerDone s c : c ∈ handlers s -> step s (handlerDone c s)
| step_shutdown s : stop s = NotStopped -> shutdown s = false -> step s (s <| shutdown := true |> <| stop := Flagged |>)
| step_closeListener s : stop s = Flagged -> step s (s <| listening := false |> <| stop := ListenerClosed |>)
| step_closeConns s : stop s = ListenerClosed -> step s ((closeActive s) <| stop := ConnsClosed |>)
| step_wait s : stop s = ConnsClosed -> wg s = 0 -> step s (s <| stop := StopReturned |>).

Definition reach (s : Server) : Prop := rtc step listen s.

(** ** Shutdown is final *)

(** The connection on its way to a handler. *)
Definition onTheWay (p : servePc) : nat := match p with Added _ _ | Tracked _ _ => 1 | _ => 0 end.
(** Connections are handled once. *)
Definition handled (p : servePc) (hs : gset nat) (cs : gmap nat bool) : Prop :=
  match p with Got c _ | Classified c _ | Added c _ | Tracked c _ => (c ∉ hs) /\ is_Some (cs !! c) | _ => True end.

Record inv (s : Server) : Prop := {
  inv_wg : wg s = size (handlers s) + onTheWay (serve s);
  inv_once : handled (serve s) (handlers s) (conns s);
  inv_known : forall c, c ∈ handlers s -> is_Some (conns s !! c);
  inv_flag : stop s <> NotStopped -> shutdown s = true;
  inv_returned : stop s = StopReturned -> wg s = 0
}.

Lemma inv_listen : inv listen.
Proof. by split. Qed.

Lemma closed_known c c' (m : gmap nat bool) : is_Some (m !! c) -> is_Some (<[c' := false]> m !! c).
Proof. intros H. destruct (decide (c' = c)) as [->|Hn]; [rewrite lookup_insert_eq|rewrite lookup_insert_ne by done]; eauto. Qed.

Lemma step_inv s s' : step s s' -> inv s -> inv s'.
Proof.
  intros Hst [I1 I2 I3 I4 I5]. destruct Hst as [s addr mode|s c addr Hp _ Hc|s Hp _|s c addr Hp _|s c addr m Hp _|s c m Hp _|s c m Hp Hf|s c m Hp|s c m Hp|s c Hc
    |s Hp Hf|s Hp|s Hp|s Hp Hw]; try rewrite Hp in *; cbn [onTheWay handled] in *.
  - destruct mode; by split.
  - split; fields; cbn [onTheWay handled]; try done.
    + split; [|rewrite lookup_insert_eq; eauto]. intros Hx. destruct (I3 c Hx) as [? E]. congruence.
    + intros x Hx. destruct (I3 x Hx) as [b Hb]. rewrite lookup_insert_ne; [eauto|]. intros ->. congruence.
  - split; fields; done.
  - unfold closeConn. split; fields; try done. intros x Hx. by apply closed_known, I3.
  - split; fields; done.
  - unfold closeConn. split; fields; try done. intros x Hx. by apply closed_known, I3.
  - split; fields; cbn [onTheWay handled]; try done; [lia|]. intros Hs. specialize (I4 ltac:(congruence)). congruence.
  - split; fields; done.
  - destruct I2 as [H1 H2]. split; fields; cbn [onTheWay handled]; try done.
    + rewrite size_union by set_solver. rewrite size_singleton. lia.
    + intros x [->%elem_of_singleton|Hx]%elem_of_union; [done|by apply I3].
  - assert (Hsz : size (handlers s) = S (size (handlers s ∖ {[c]}))).
    { rewrite size_difference by set_solver. rewrite size_singleton. assert (size (handlers s) <> 0%nat); [|lia]. intros E. apply size_empty_inv in E. set_solver. }
    unfold handlerDone, closeConn. split; fields; try done; [lia| | |intros Hs; specialize (I5 Hs); lia].
    + destruct (serve s); try done; destruct I2; (split; [set_solver|by apply closed_known]).
    + intros x [Hx _]%elem_of_difference. by apply closed_known, I3.
  - split; fields; done.
  - split; fields; try done. intros _. apply I4. congruence.
  - unfold closeActive. assert (Hk : forall x, is_Some (conns s !! x) -> is_Some (map_imap (fun c open => Some (open && negb (bool_decide (c ∈ activeConns s)))) (conns s) !! x)).
    { intros x [b Hb]. rewrite map_lookup_imap, Hb. simpl. eauto. }
    split; fields; try done.
    + destruct (serve s); try done; destruct I2; (split; [done|by apply Hk]).
    + intros x Hx. by apply Hk, I3.
    + intros _. apply I4. congruence.
  - split; fields; try done. intros _. apply I4. congruence.
Qed.

Lemma steps_inv s s' : rtc step s s' -> inv s -> inv s'.
Proof. induction 1 as [|x y z Hxy _ IH]; [done|]. intros H. by apply IH, (step_inv x). Qed.

Lemma returned_stays s s' : rtc step s s' -> stop s = StopReturned -> stop s' = StopReturned.
Proof.
  induction 1 as [|x y z Hxy _ IH]; [done|]. intros H. apply IH. destruct Hxy as [x addr mode| | | | | | | | | | | | |]; try congruence; fields; try done.
  by destruct mode.
Qed.

(** Once [Shutdown] has returned, no handler runs and none is started any more. *)
Theorem server_shutdown_final (s s' : Server) : reach s -> stop s = StopReturned -> rtc step s s' -> handlers s' = ∅.
Proof.
  intros Hr Hs Hss. pose proof (steps_inv _ _ Hss (steps_inv _ _ Hr inv_listen)) as [I1 _ _ _ I5].
  specialize (I5 (returned_stays _ _ Hss Hs)). apply leibniz_equiv, size_empty_inv. lia.
Qed.

(** ** A connection that shutdown misses *)

Definition missed : Server := mkServer false true 1 {[0]} ∅ {[0 := true]} {[0]} Accepting ConnsClosed.

(** A connection that has been counted but not yet entered when [Shutdown] goes
    through the active ones stays open, and [Shutdown] waits for its handler. *)
Theorem server_shutdown_misses : reach missed /\ conns missed !! 0 = Some true /\ 0 ∈ handlers missed /\ stop missed = ConnsClosed /\ wg missed = 1.
Proof.
  split; [|vm_compute; by split_and!].
  eapply rtc_l; [apply (step_gate _ 7 Publish)|]. eapply rtc_l; [apply (step_accept _ 0 7); reflexivity|].
  eapply rtc_l; [eapply (step_classified _ 0 7 Publish); reflexivity|]. eapply rtc_l; [eapply (step_add _ 0 Publish); reflexivity|].
  eapply rtc_l; [eapply step_shutdown; reflexivity|]. eapply rtc_l; [eapply step_closeListener; reflexivity|].
  eapply rtc_l; [eapply step_closeConns; reflexivity|]. eapply rtc_l; [eapply (step_track _ 0 Publish); reflexivity|].
  eapply rtc_l; [eapply (step_spawn _ 0 Publish); reflexivity|].
  match goal with |- rtc step ?x missed => assert (x = missed) as -> by (vm_compute; reflexivity) end. done.
Qed.

End SrtServer.
