(* ===== verification/SrtWatcher.v ===== *)
(** * Readiness of many connections ([watcher.go])

    A watcher has three goroutines per connection, for reading, writing and its
    end, which wait for a signal and put an event into one bounded channel.  The
    state below is what they and the caller share; [sent] and [cleared] count
    events and re-armings and take no part in what happens.  Entries are numbered,
    because a connection can be removed and added again while a goroutine of its
    first entry still runs. *)
From Stdlib Require Import Lia.
From stdpp Require Import base numbers list option gmap relations functions.
From S2P Require Import Prelude.
Local Open Scope nat_scope.

Module SrtWatcher.

Inductive EventType : Type := EventRead | EventWrite | EventError.
#[global] Instance EventType_dec : EqDecision EventType. Proof. solve_decision. Defined.

Definition eventCap : nat := 64.

(** Where a goroutine is. *)
Inductive pc : Type := Waiting | Emitting | Exited.

(** One goroutine of an entry; [last] is the edge-triggered state. *)
Record side : Type := mkSide { last : bool; at_ : pc; sent : nat; cleared : nat }.
Record watchEntry : Type := mkEntry { conn : nat; edgeTriggered : bool; cancel : bool; sides : EventType -> side }.

Record Watcher : Type := mkWatcher {
  entries : gmap nat nat;
  known : gmap nat watchEntry;
  eventCh : list (nat * EventType);
  closed : bool
}.

#[global] Instance eta_side : Eta side := fun s => mkSide (last s) (at_ s) (sent s) (cleared s).
#[global] Instance fld_ws_last : Field last. Proof. derive_field. Defined.
#[global] Instance fld_ws_at : Field at_. Proof. derive_field. Defined.
#[global] Instance fld_ws_sent : Field sent. Proof. derive_field. Defined.
#[global] Instance fld_ws_cleared : Field cleared. Proof. derive_field. Defined.
#[global] Instance eta_entry : Eta watchEntry := fun e => mkEntry (conn e) (edgeTriggered e) (cancel e) (sides e).
#[global] Instance fld_we_cancel : Field cancel. Proof. derive_field. Defined.
#[global] Instance fld_we_sides : Field sides. Proof. derive_field. Defined.
#[global] Instance eta_watcher : Eta Watcher := fun w => mkWatcher (entries w) (known w) (eventCh w) (closed w).
#[global] Instance fld_w_entries : Field entries. Proof. derive_field. Defined.
#[global] Instance fld_w_known : Field known. Proof. derive_field. Defined.
#[global] Instance fld_w_eventCh : Field eventCh. Proof. derive_field. Defined.
#[global] Instance fld_w_closed : Field closed. Proof. derive_field. Defined.

Definition NewWatcher : Watcher := mkWatcher ∅ ∅ [] false.
Definition newSide : side := mkSide false Waiting 0 0.
Definition onSide (t : EventType) (f : side -> side) (e : watchEntry) : watchEntry :=
  e <| sides ::= fun ss => <[t := f (ss t)]> ss |>.
Definition onEntry (i : nat) (f : watchEntry -> watchEntry) (w : Watcher) : Watcher := w <| known ::= alter f i |>.

(** ** Calls *)

Inductive watchError : Type := ErrWatcherClosed | ErrAlreadyWatched | ErrNotWatched.

(** [AddWithOpts]; [i] is the number of the new entry. *)
Definition AddWithOpts (i c : nat) (edge : bool) (w : Watcher) : result watchError Watcher :=
  if closed w then Err ErrWatcherClosed else
  match entries w !! c with
  | Some _ => Err ErrAlreadyWatched
  | None => Ok (w <| entries ::= <[c := i]> |> <| known ::= <[i := mkEntry c edge false (fun _ => newSide)]> |>)
  end.

Definition Remove (c : nat) (w : Watcher) : result watchError Watcher :=
  match entries w !! c with
  | None => Err ErrNotWatched
  | Some i => Ok ((onEntry i (fun e => e <| cancel := true |>) w) <| entries ::= delete c |>)
  end.

(** What [Wait] takes when an event is there. *)
Definition Wait (w : Watcher) : option (nat * EventType) * Watcher :=
  match eventCh w with
  | ev :: q => (Some ev, w <| eventCh := q |>)
  | [] => (None, w)
  end.

Definition Close (w : Watcher) : Watcher :=
  if closed w then w else
  let ids := map_fold (fun _ i l => i :: l) [] (entries w) in
  (fold_left (fun w i => onEntry i (fun e => e <| cancel := true |>) w) ids w)
    <| closed := true |> <| entries := ∅ |> <| eventCh := [] |>.

Definition ClearEvent (c : nat) (t : EventType) (w : Watcher) : Watcher :=
  match entries w !! c with
  | None => w
  | Some i =>
      onEntry i (fun e => if negb (edgeTriggered e) then e else
                          match t with
                          | EventError => e
                          | _ => onSide t (fun s => s <| last := false |> <| cleared ::= S |>) e
                          end) w
  end.

(** ** Goroutines *)

(** A signal is taken: [watchRead] and [watchWrite] suppress it in edge-triggered
    mode when the last one has not been cleared; the end is always reported. *)
Definition signalled (t : EventType) (e : watchEntry) : watchEntry :=
  match t with
  | EventError => onSide t (fun s => s <| at_ := Emitting |>) e
  | _ =>
      if edgeTriggered e then
        if last (sides e t) then e else onSide t (fun s => s <| last := true |> <| at_ := Emitting |>) e
      else onSide t (fun s => s <| at_ := Emitting |>) e
  end.

(** Reading and writing go on after an event, the report of the end does not. *)
Definition emitted (t : EventType) (e : watchEntry) : watchEntry :=
  onSide t (fun s => s <| at_ := (match t with EventError => Exited | _ => Waiting end) |> <| sent ::= S |>) e.
Definition exited (t : EventType) (e : watchEntry) : watchEntry := onSide t (fun s => s <| at_ := Exited |>) e.

(** A [select] with several cases ready takes any of them. *)
Inductive step : Watcher -> Watcher -> Prop :=
| step_add w w' i c edge : known w !! i = None -> AddWithOpts i c edge w = Ok w' -> step w w'
| step_remove w w' c : Remove c w = Ok w' -> step w w'
| step_wait w : step w (Wait w).2
| step_close w : step w (Close w)
| step_clear w c t : step w (ClearEvent c t w)
| step_signal w i e t : known w !! i = Some e -> at_ (sides e t) = Waiting -> step w (onEntry i (signalled t) w)
| step_emit w i e t : known w !! i = Some e -> at_ (sides e t) = Emitting -> length (eventCh w) < eventCap ->
    step w ((onEntry i (emitted t) w) <| eventCh ::= fun q => q ++ [(conn e, t)] |>)
| step_exit w i e t : known w !! i = Some e -> (at_ (sides e t) = Waiting /\ cancel e = true) \/ closed w = true ->
    step w (onEntry i (exited t) w).

Definition reach (w : Watcher) : Prop := rtc step NewWatcher w.

(** ** Edge-triggered events *)

Definition busy (p : pc) : nat := match p with Emitting => 1 | _ => 0 end.
Definition sideOk (s : side) : Prop := sent s + busy (at_ s) <= cleared s + Nat.b2n (last s).
Definition entryOk (e : watchEntry) : Prop := edgeTriggered e = true -> forall t, t <> EventError -> sideOk (sides e t).
Definition ok (w : Watcher) : Prop := map_Forall (fun _ e => entryOk e) (known w).

Lemma onSide_ok t f e : entryOk e -> (edgeTriggered e = true -> t <> EventError -> sideOk (f (sides e t))) -> entryOk (onSide t f e).
Proof.
  intros He Hf Hed t' Ht'. unfold onSide in *. fields. fields_in Hed. unfold insert, fn_insert. destruct (decide (t = t')) as [<-|Hn]; [by apply Hf|by apply He].
Qed.

Lemma onEntry_ok i f w : ok w -> (forall e, known w !! i = Some e -> entryOk e -> entryOk (f e)) -> ok (onEntry i f w).
Proof.
  intros Hw Hf j e. unfold onEntry. fields. rewrite lookup_alter_Some. intros [(-> & e0 & H0 & ->)|[_ H]]; [apply Hf; [done|]|]; by eapply Hw.
Qed.

Lemma cancel_ok i w : ok w -> ok (onEntry i (fun e => e <| cancel := true |>) w).
Proof. intros Hw. apply onEntry_ok; [done|]. intros e _ He. exact He. Qed.

Lemma step_ok w w' : step w w' -> ok w -> ok w'.
Proof.
  intros Hst Hw. destruct Hst as [w w' i c edge _ H|w w' c H|w|w|w c t|w i e t He Hp|w i e t He Hp _|w i e t He Hp].
  - unfold AddWithOpts in H. destruct (closed w); [done|]. destruct (entries w !! c); [done|]. injection H as <-.
    unfold ok. fields. apply map_Forall_insert_2; [|done]. intros _ t _. unfold sideOk. simpl. lia.
  - unfold Remove in H. destruct (entries w !! c); [|done]. injection H as <-. unfold ok. fields. by apply cancel_ok.
  - unfold Wait. destruct (eventCh w); done.
  - unfold Close. destruct (closed w); [done|]. cbv zeta. unfold ok. fields. generalize (map_fold (fun _ i l => i :: l) [] (entries w)). intros ids.
    revert w Hw. induction ids as [|i ids IH]; intros w Hw; [done|]. cbn [fold_left]. apply IH. by apply cancel_ok.
  - unfold ClearEvent. destruct (entries w !! c) as [i|]; [|done]. apply onEntry_ok; [done|]. intros e _ He.
    destruct (edgeTriggered e) eqn:Ee; cbn [negb]; [|done]. destruct t; [| |done]; (apply onSide_ok; [done|]; intros _ Ht; specialize (He Ee _ Ht); unfold sideOk in *; fields;
      match goal with H : context [Nat.b2n ?b] |- _ => destruct b end; simpl in *; lia).
  - apply onEntry_ok; [done|]. intros e' He' Hok. assert (e' = e) as -> by congruence. unfold signalled.
    destruct t; [| |by apply onSide_ok]; (destruct (edgeTriggered e) eqn:Ee; [|apply onSide_ok; [done|congruence]]);
      (destruct (last (sides e _)) eqn:El; [done|]); apply onSide_ok; try done; intros _ _.
    + specialize (Hok Ee EventRead ltac:(done)). unfold sideOk in *. fields. rewrite El, Hp in Hok. simpl in *. lia.
    + specialize (Hok Ee EventWrite ltac:(done)). unfold sideOk in *. fields. rewrite El, Hp in Hok. simpl in *. lia.
  - apply onEntry_ok; [done|]. intros e' He' Hok. assert (e' = e) as -> by congruence. unfold emitted. apply onSide_ok; [done|].
    intros Ee Ht. specialize (Hok Ee t Ht). unfold sideOk in *. fields. rewrite Hp in Hok. destruct t; simpl in *; lia.
  - apply onEntry_ok; [done|]. intros e' He' Hok. unfold exited. apply onSide_ok; [done|].
    intros Ee Ht. specialize (Hok Ee t Ht). unfold sideOk in *. fields. simpl. lia.
Qed.

(** In edge-triggered mode a connection is reported readable, or writable, at most
    once more than the caller has re-armed it. *)
Theorem watcher_edge_triggered (w : Watcher) (i : nat) (e : watchEntry) (t : EventType) :
  reach w -> known w !! i = Some e -> edgeTriggered e = true -> t <> EventError -> sent (sides e t) <= cleared (sides e t) + 1.
Proof.
  intros Hr He Hed Ht. assert (Hw : ok w).
  { revert Hr. unfold reach. assert (ok NewWatcher) as H0 by apply map_Forall_empty. generalize NewWatcher H0. intros w0 H1 Hr. revert H1.
    induction Hr as [|x y z Hxy _ IH]; [done|]. intros H1. by apply IH, (step_ok x). }
  specialize (Hw i e He Hed t Ht). unfold sideOk in Hw. destruct (last (sides e t)); simpl in Hw; lia.
Qed.

(** ** Events of a connection that is gone *)

Definition removed : Watcher := match AddWithOpts 0 9 false NewWatcher with
  | Ok w => match Remove 9 (onEntry 0 (signalled EventRead) w) with Ok w => w | Err _ => w end
  | Err _ => NewWatcher
  end.

(** [Remove] promises that no further event is delivered; a goroutine that has taken
    a signal still delivers it. *)
Theorem watcher_event_after_remove : exists w, reach removed /\ entries removed = ∅ /\ eventCh removed = [] /\ step removed w /\ (Wait w).1 = Some (9, EventRead).
Proof.
  eexists. split_and!; [|vm_compute; reflexivity|vm_compute; reflexivity| |].
  - eapply rtc_l; [apply (step_add _ _ 0 9 false); [vm_compute; reflexivity|reflexivity]|].
    eapply rtc_l; [eapply (step_signal _ 0 _ EventRead); [vm_compute; reflexivity|vm_compute; reflexivity]|].
    eapply rtc_l; [apply (step_remove _ removed 9); vm_compute; reflexivity|]. done.
  - eapply (step_emit _ 0 _ EventRead); [vm_compute; reflexivity|vm_compute; reflexivity|vm_compute; lia].
  - vm_compute. reflexivity.
Qed.

End SrtWatcher.
